(* ===== verification/_CoqProject ===== *)
-Q . S2P
Prelude.v
PyFloat.v
PyValue.v
Sha256.v
PyDateTime.v
RuleMatch.v
GraphContract.v
AstRules.v
SignalResolver.v
JsonRules.v
Circuit.v
PackEvaluator.v
Score.v
Enforcement.v
ProductAck.v
Outcome.v
MakerChecker.v
Workflow.v
UnionFind.v
RingScore.v
Uuid.v
Outbox.v
CaseStore.v
LabelHandlers.v
CaseLifecycle.v
Autoresolve.v
Auth.v
Replay.v
RateLimits.v
RuleEngine.v
LabelStore.v
Promotion.v
AutoPromote.v
PackRules.v
L2Draft.v
RuleApi.v
RuleSlip.v
BrainWire.v
RuleGovernance.v
RuleDrafts.v
ChallengePolicy.v
PackCanary.v
FloatBounds.v
Integrity.v
Inference.v
EvalSteps.v
EvalContext.v
EntityLists.v
Evaluate.v
Merkle.v
Evidence.v
TagStore.v
Consortium.v
Velocity.v
Enrichment.v
DecisionGraph.v
