(* ===== verification/Prelude.v ===== *)
(** * Tarka: a verification development of the decision core

    Tarka is a fraud decision platform.  A client posts an event; the decision
    service builds a feature map, evaluates the tenant's JSON rule packs on it,
    blends the rule score with a model score, answers allow, review or deny, and
    then acts: it posts enforcement actions to the tenant's webhook, opens cases,
    and records what happened.  Analysts close the cases under a four-eyes rule.
    An orchestrator keeps its own case records beside it, announces every write
    through an outbox of tasks, and closes cases automatically.
    This library translates that core from the Python sources and proves what
    makes it correct.

    ** Parts of the program and the files that model them

    Paths are below [src/services/]; [D] abbreviates
    [decision-api/src/decision_api], [K] abbreviates [case-api/src/case_api], [O]
    abbreviates [orchestrator], [T] is [src/packages/shared-core/tarka_shared] and
    [P] is [src/crates/tarka-py/python/tarka].

    - [Prelude]: exceptions as values ([pyexn], [result] with [let!]), the text
      functions the sources use ([strip], [lower], [startswith], slices,
      searches), ordered sets of text, the tactics [cases_if] and [inv_ok] and
      the hint database [tarka].
    - [PyFloat]: Python [float] as IEEE binary64 ([spec_float], precision 53):
      arithmetic, comparison, [float(s)], [repr], [round], [int].
    - [PyValue]: the JSON data model ([pyval]), dictionaries in insertion order,
      truth, equality, [str], [float] and [int] of a value, [json.dumps].
    - [Sha256]: SHA-256 of UTF-8 text, behind rollout buckets and action ids.
    - [PyDateTime]: [datetime.fromisoformat], [strptime], offsets, bounds.
    - [RuleMatch]: [_match_condition] of [D/json_rules.py].
    - [AstRules]: [D/ast_models.py] (validation and limits), [D/ast_evaluator.py]
      and the rule and tag rule bodies of [D/json_rules.py].
    - [SignalResolver]: [core/src/tarka_core/engine_adapter.py], the custom
      signals a host registers, and their overlay on the feature map.
    - [GraphContract]: [shared/graph_contract.py] (Module [Contract]: the tenant
      registry, the token gates, answers from a neighbourhood) and
      [shared/graph_pack_atoms.py] (Module [Atoms]: hop views and [graph_v1]
      atoms); Modules [Facts] and [Theorems] hold their proofs.
    - [JsonRules]: the rest of [D/json_rules.py].  [Rollout] is the canary and
      effective-date gate, [Store] the loaded packs and [load_rules], [Telemetry]
      the hit counters and their file, [Search] the palette lookup; with
      [D/policy_routing.py] and the generation counter of [D/policy_set.py].
    - [Circuit]: Module [Ffi] is [D/rust_ffi_circuit.py] and the guarded calls of
      [D/rust_rule_engine_ffi.py]; Module [Async] is [shared/circuit.py].
    - [PackEvaluator]: [D/pack_evaluator.py] and the choice between the Python and
      the Rust engine.
    - [Score]: [D/evaluate/score.py]: degradation, blending and the decision.
    - [Enforcement]: [D/enforcement.py]: verbs, idempotent ids, signed delivery
      with retries, the journal and its queries.
    - [ProductAck]: [D/product_ack.py]: acknowledgements and their overlay on the
      delivery query.
    - [Outcome]: [D/decision_outcome.py], the payout, promotion and seller bridges
      and [D/degraded_decision_metrics.py]: what a decision schedules.
    - [UnionFind]: the class [_UF] of [D/ring_score.py] (Module [Forest]), path
      halving and union by rank on finite maps.
    - [RingScore]: the rest of [D/ring_score.py]: the party graph, its largest
      component, the factors, tags and features.
    - [MakerChecker]: [K/disposition.py] and the endpoints of [K/main.py] and
      [K/template_apply.py] that write a case's status or labels.
    - [Workflow]: [K/workflow.py]: case automation and the SLA clock.
    - [Uuid]: SHA-1, name-based UUIDs, and the text forms of a UUID.
    - [Outbox]: [O/models/outbox.py], [O/workers/outbox_processor.py] and the
      locks of [O/middleware/idempotency.py]: the task table, claims, leases,
      retries and the worker loop.
    - [CaseStore]: the orchestrator's audit database ([O/models/]) and the
      transactions on it: case creation and the poll ([O/audit_case_worker.py]),
      status transitions ([O/case_transition_api.py]), labels
      ([O/label_propagation.py]) and the two ingest transactions
      ([O/ingest_side_effects.py], [O/transaction_ingest.py]).
    - [LabelHandlers]: operational signals
      ([O/services/operational_signal_persist.py],
      [O/services/operational_label_bridge.py]) and the label writes of the
      handlers [O/workers/handlers/label_propagator.py] and
      [shadow_retro_tag.py].
    - [CaseLifecycle]: the invariants of the databases these transactions reach.
    - [Autoresolve]: [O/shadow_autoresolve.py] and
      [O/shadow/hooks/resolve_case.py] over [CaseStore].
    - [Auth]: [shared/auth.py], [shared/auth_rbac.py] and
      [shared/tenant_binding.py]: keys, roles, tenants and the middleware.
    - [Replay]: [D/replay.py], and its composition with the middleware.
    - [RateLimits]: [shared/minute_rate_limit.py] and the Redis limiter and
      middleware of [shared/rate_limiter.py].
    - [RuleEngine]: the stand-alone rule engine: [rule_engine/evaluator.py],
      [rule_engine/rules_store.py], [T/ast_schemas.py] and [T/fraud_rules.py].
    - [LabelStore]: [D/y_label_store.py], the ground-truth labels of a tenant.
    - [Promotion]: the gates of a promotion: [D/champion_challenger_audit.py],
      [D/calibration_window.py], [D/leftover_promote_gate.py],
      [D/backtest_promote_gate.py] and the kill criteria of [D/vertical_packs.py].
    - [AutoPromote]: [D/shadow_auto_promote.py], the composition of the gates, the
      promote endpoint of [D/rule_api.py] and [shared/desk_provision.py], over
      [JsonRules]' pack store.
    - [PackRules]: [D/rule_pack_validation.py] and the request bodies and their
      translation to packs of [D/rule_api.py].
    - [L2Draft]: [D/l2_draft.py]: drafts from leftovers and overrides, and the
      two-step demotion of a pack.
    - [RuleApi]: the endpoints of [D/rule_api.py] that write packs: guards,
      creation, rules, modes, force-live, demotion, drafts, deletion.
      [RuleGovernance] holds the invariants over sequences of its requests, scout
      packs and ticks, and [RuleDrafts] the theorems on drafts, demotion and the second person.
    - [RuleSlip]: [D/rule_label_metrics.py] and [D/live_rule_slip.py].
    - [BrainWire]: [D/brain_wire.py], the scout endpoint and the observe tick of
      [D/rule_api.py], which compose promotion, the slip critic and the kill.
    - [ChallengePolicy]: [D/challenge_policy.py], [D/typology.py],
      [D/typology_predicate_registry.py] and the manifest of [D/policy_set.py].
    - [PackCanary]: [D/pack_canary.py] and its two places in
      [D/evaluate/pipeline.py].
    - [FloatBounds]: facts on binary64 that the bounds of the scores need: widths
      of mantissas, order by value, rounding within the unit interval.
    - [Integrity]: [D/integrity_policy.py]: expectations, travel, freshness.
    - [Inference]: [D/inference_build.py] and the stage of the pipeline that
      turns a context into the recommended and the enforced action.
    - [EvalSteps]: [D/eval_steps.py] (bounded retries), [D/eval_dag.py] (the step
      graph) and [D/eval_load_guard.py] (load shedding).
    - [EvalContext]: [D/tags.py], [D/trusted_zones.py],
      [D/ehailing_escalation.py], and the request fields and depth merge the
      pipeline takes from [D/main.py] and [D/depth_engines.py].
    - [Evaluate]: [run_evaluate_decision] of [D/evaluate/pipeline.py] from the
      live packs to the recorded decision, the test bypass and the action of the
      response, composing all of the above.
    - [Merkle]: [P/merkle_wire.py]: Merkle roots and inclusion proofs on the wire.
    - [Evidence]: [P/verifier.py] and the messages of
      [src/proto/tarka/evidence/wire/v1/evidence.proto]: canonical encodings, the
      sealed root and the verifier of evidence manifests.
    - [EntityLists]: [shared/entity_lists.py] (memory, Redis and file stores behind
      one interface), [D/lists_api.py], [D/tenant_flags.py], the circuit around
      the check and the list stage of the pipeline.
    - [TagStore]: [D/redis_store.py] over [core/src/tarka_core/cache.py]: tags,
      scores, nonces, flags and replay signatures, with the failover from Redis.
    - [Consortium]: the consortium part of [D/redis_store.py], [D/consortium.py],
      [D/consortium_api.py] and the consortium stage of the pipeline.
    - [Velocity]: [shared/fraud_aggregates.py], [shared/event_time.py] and the
      aggregate stage of the pipeline.
    - [Enrichment]: [D/evaluate/enrichment.py], [D/graph_risk_freshness.py], the
      attention part of [D/graph_intel.py], the graph routing of [D/main.py], and
      the graph and growth stages of the pipeline.
    - [DecisionGraph]: [packages/shared-core/tarka_shared/decision_graph_payload.py]
      and [decision_graph_client.py], the background writes of [D/main.py] with the
      hints of [D/partner_fusion.py], and the window of allow decisions of
      [graph-service/src/graph_service/graph_runtime.py].

    Calls between the parts follow the sources: [RuleMatch] and [GraphContract]
    are called by [AstRules], which [PackEvaluator] runs over the packs that
    [JsonRules] holds and gates, with [SignalResolver] filling the feature map
    and [Circuit] guarding the Rust engine; [Outcome] schedules the delivery that
    [Enforcement] performs, and [ProductAck] reads the journal it leaves.
    [CaseStore] writes tasks with [Outbox]'s [enqueue], whose worker runs them;
    [Autoresolve] drives [CaseStore]'s transition; [Replay] runs [RuleMatch] on
    audited events behind [Auth]; [AutoPromote] opens [Promotion]'s gates on the
    labels of [LabelStore], writes packs back and has [JsonRules] reload them;
    [RuleApi], [RuleSlip] and [BrainWire] work on the same directory, loaded
    packs and change log.  [Evaluate] runs [PackEvaluator] and [PackCanary], then
    the hops of [EvalSteps], [JsonRules]' routing, the ladder of [EvalContext],
    [Score], the typologies and policies of [ChallengePolicy], and [Inference].
    [EntityLists] answers before it for listed entities with [Inference] and
    [ChallengePolicy], behind [Circuit] and [EvalSteps]; [Evidence] builds its
    trace root with [Merkle]; [Consortium] keeps its documents in [TagStore].

    Stores are used through classes: [ListStore] with [ListStoreLaws],
    [KeyValueCache] with [KeyValueLaws] and [SortedSets] with [SortedSetLaws]
    state what a store promises.  The instances of the source's own stores are
    proved to keep it, Redis is any instance, with a concrete one for the
    witnesses, and the theorems on the clients are proved against the classes.

    ** How code is represented

    Pure functions are Rocq functions with the source's names.  Python exceptions
    are [Err] values of [result], so a theorem about [Ok] results also says which
    calls raise.  Module globals, journals and files are explicit state: an
    operation takes the state and returns the new one.  Inputs the program reads
    from outside (clock readings, directory listings, file contents, HTTP replies,
    Redis answers, plug-in handlers, the Rust extension) are arguments.  All
    definitions are executable and the witnesses evaluate them.

    Text is a [string] of code points below 256; case folding and white space are
    Python's on that range.  Dictionaries have text keys, as JSON objects do.
    Numbers are unbounded [Z] and binary64 [float], as in Python.

    Recursion is structural except in eight places.  Decimal digits of an integer
    are produced with its bit length as fuel, which exceeds the number of decimal
    digits.  [repr] of a float corrects an estimate of the decimal exponent within
    8 steps (the estimate from the bit lengths is off by at most 2) and searches
    lengths up to the 17 digits that always suffice for binary64.  [find] of the
    forest walks with one step of fuel per key, which is proved enough: ranks grow
    strictly along the walk.  The decoder of a stored rule has the nesting
    depth of the value as fuel, which its round trip shows to be enough.  The order
    of the step graph is found in as many rounds as it has nodes, which is proved
    enough: a node is queued at most once.  A proof is cut into hashes in as many
    rounds as it has bytes.  Delivery makes
    the three attempts the source's [range(1, 4)] allows, and its theorem states
    termination outright.

    ** What the theorems show

    - Rule bodies: exactly when a rule fires, that the two spellings of a
      conjunction agree, and that malformed conditions fail closed.
    - Packs: the hits of a pack are exactly those of the matching rules among its
      first 200, an evaluation reports exactly the hits of the packs that are in
      force, hits, telemetry and contributing
      files agree, and a failure of the selected Rust engine is never hidden.
    - Rollout: canary buckets, monotonicity in the percentage, the effective date.
    - Store and telemetry: every reload leaves a well-formed store or none of its
      changes; counts survive a restart and lose fewer than 25 hits.
    - Circuits: when each breaker opens, over every interleaving of calls.
    - Graph: atoms never fire on a missing graph or invent an edge type; the
      multi-id users of a neighbourhood; registry tokens stay safe.
    - Scores: range, monotonicity and the bound on the degradation bump.
    - Enforcement: delivery terminates in at most three identical attempts, is
      found again by query, stays in its tenant and carries one identity; what
      was delivered can be acknowledged, a delivery reads acknowledged exactly
      when the product acknowledged it, and acknowledgements are guarded.  The
      class [DeliverySource] states what delivery promises to its readers;
      [journal_source] discharges it and [ProductAck] is proved against it.
    - Outcomes: shadow duplicates never act, live decisions mint what they must,
      bridges post only with credentials and for the decision's tenant.
    - Rings: the forest computes the connected components of the party graph,
      the ring scored is a largest one, the cross-role flag is exact.
    - Cases: over every sequence of PATCH requests a guarded status needs two
      actors; the endpoints that bypass this rule are proved to; the SLA clock is
      exact.
    - Outbox: with a committing database and no task or lock left by a crash,
      every task settles within the retries it has; a claim is exclusive for the length of its lease.
    - Case records: in every reachable database each resolution, analyst label,
      event and operational signal has its task, the analyst labels are the
      resolutions and every other label is that of a signal, a case has the status
      of its last transition, and a user gets one case a day; the poll passes over
      no log that committed ahead of its cursor; an automatic resolution happens
      only under all its gates.
    - Access: a key reaches only its tenants, production fails closed, roles are
      downward closed.
    - Replay, limits, rule engine: a replay is exact and in range; the sliding
      window implements its specification and its bound; a ruleset evaluates to
      its reference and the version table is an append-only log with one active
      row.
    - Promotion: when each gate opens, that neither the tick nor the endpoint
      changes a rule past them, and exactly what a tick does to the directory;
      labels and provisions survive their files.
    - Governance: in every sequence of rule requests, scout packs and ticks a pack
      goes live only with a log row that says by which gate or by whom, and packs
      written by the API cannot make an evaluation raise unless a scout pack was
      ill typed, which its endpoint does not check; a source has one open draft; with the
      switch on, force-live needs a second human.
    - Observation: the slip critic adds shadow packs and changes nothing, a kill
      disables exactly the AI-authored shadow packs and their fingerprints stay
      out.
    - Policies: the first applicable challenge rule decides; while every reload
      reads its file, a manifest handed out is that of what is loaded.
    - Evaluation: the score of every answer is in range, the recorded decision
      follows from it, the answer is that decision or the allow of the test bypass,
      and the enforcement follows from the answer; the canary leaves everything but
      its own report as it was, unless a challenger shares the Rust engine with it,
      and is refused without a candidate, context scores stay
      in the unit interval on every float, the recommended action is exact, the
      load guard counts its holders, the step graph is ordered or refused,
      bounded steps end, the ladder counts exactly.
    - Evidence: the root computed layer by layer is that of a tree split at powers
      of two, the shape of RFC 6962 without its prefix bytes; an
      accepted inclusion proof is for the leaf at its index, or exhibits a
      collision of SHA-256 on its path, and every leaf has one; two accepted
      manifests with one root agree in all that is sealed, or exhibit a collision;
      the verifier is total and accepts exactly the sealed manifests.
    - Lists: every store is a map of entries in every history, lists survive a
      restart, and a blacklisted entity is denied before any rule is run.
    - Tag store: merges accumulate, a nonce is accepted at most as often as it was
      given out under every interleaving, replays are detected exactly, strict
      consistency has no substitute for Redis when there is something to write.
    - Consortium: where two tenants are asked for, a lone tenant's reports move a
      score by at most 6 whatever else happens, and no document moves it by more than 100.
    - Velocity: counts, distinct counts, sums and their values are those of a
      ledger of the recorded events in the window, for tenants without a colon.
    - Enrichment: stale graph data is used only under the policy to warn and denies
      under the policy to fail closed, growth counts are never invented, the first
      matching routing rule decides.
    - Decision graph: no write leaves a dangling link, payloads are closed under
      their links, the references of the attention step are the objects of the
      event, the trim of the window asks for the deletion of all but the newest
      allow decisions and of no material one, and keeps what the store fails to
      delete.
    - Behaviour that differs from what the sources say of themselves is stated by
      theorems of its own: an unresolved custom signal fires, a rule file that is
      not an object aborts a reload, recovery admits every caller, an
      acknowledgement query does not fold case, a second label action discards
      the first, a status can be reached once only, a late poll wedges, a log
      that commits behind the cursor is lost, blank failures are never counted, the tenant of a body is not the tenant checked,
      a deployed OR is loaded as AND, the Redis limiter counts refused calls, a
      promotion goes by name alone, tenants with similar ids share their labels,
      a review enforces allow and is never stepped up, a pack can be demoted
      once only, the verdict of a manifest is not sealed, an entry whose end has
      no offset never expires, reports and flags are lost between a read and a
      write, a late event takes a value out of the window, the graph circuit never
      opens in evaluations that follow one another, a session id with its prefix
      leaves a dangling link.

    ** What is not modelled

    HTTP routing, request schemas, SQL models, settings, logging and metric
    back-ends are library calls or configuration, as is text made only for display.  Thread pools and the process
    singletons around the resolver and the telemetry lock are not modelled: their
    operations are taken as atomic steps.  The Rust extension is a parameter.  The
    in-memory reference graph of [shared/graph_contract.py] and the queue seam called
    from [D/decision_outcome.py] are left out, and so are the stores behind the graph
    service and the fetching of partner signals.

    Transactions of the case records are serial, with two exceptions that the
    theorems range over: the ids of audit logs may commit in any order, and a
    handler's read and its write are separate steps.  What the handlers fetch
    from ClickHouse and the Shadow agent is an argument of their writes; the graph
    and velocity handlers, the HTTP client of the automatic resolution, the
    fetch and cryptographic check of tokens, the in-memory token bucket and the
    rule engine's graph providers are left out too.

    Promotion and the observe tick take the results of the audit scan, the drift
    computation and the case service as inputs.  Of the rule endpoints, the
    listings, the gate records of vertical packs and the notifications (whose
    failures are swallowed) are left out.

    Of the pipeline, the rest of the enrichment before the rules, the audit record and what
    is published after the answer are left out: [Evaluate] starts from the
    features, tags and deltas the enrichment left, of which [EntityLists],
    [Consortium], [Velocity] and [Enrichment] model the list, consortium, aggregate,
    graph, growth and feature snapshot stages.  The services it awaits are
    oracles that give any answer or failure; the degrade tags they leave are
    inputs.  [sin], [cos], [asin] and the square of the mathematics library are
    the parameter [libm].

    The protobuf decoder and the Ed25519ph check of libsodium are parameters of
    [Evidence].  The listings, the bulk endpoint and the HTTP back end of the entity
    lists, and failures of Redis commands other than the merge script are left
    out.

    Not reached, in the order they would follow: the other enrichment stages and
    the audit record of the pipeline, the typology telemetry, the depth engines, the orchestrator's
    handlers and the outbox's task handlers, then the ingest and agent services. *)

From Stdlib Require Import ZArith Lia Ascii String Bool.
From stdpp Require Import base option list sorting strings gmap.
Local Open Scope Z_scope.

(** * Exceptions as values *)

(** The Python exception classes the modelled code raises or catches. *)
Inductive pyexn : Type :=
| TypeError
| ValueError
| KeyError
| AttributeError
| OverflowError
| ZeroDivisionError
| IndexError
| OtherError (name : string).

#[export] Instance pyexn_eq_dec : EqDecision pyexn.
Proof. solve_decision. Defined.

Inductive result (A : Type) : Type :=
| Ok (a : A)
| Err (e : pyexn).
Arguments Ok {A} a.
Arguments Err {A} e.

Definition rbind {A B : Type} (m : result A) (k : A -> result B) : result B :=
  match m with Ok a => k a | Err e => Err e end.

Definition rmap {A B : Type} (f : A -> B) (m : result A) : result B :=
  match m with Ok a => Ok (f a) | Err e => Err e end.

(** [try: m  except (classes in catch): handler]. *)
Definition try_except {A : Type} (m : result A) (catch : pyexn -> bool) (handler : A) : result A :=
  match m with
  | Ok a => Ok a
  | Err e => if catch e then Ok handler else Err e
  end.

Definition is_type_or_value_error (e : pyexn) : bool :=
  match e with TypeError | ValueError => true | _ => false end.

Declare Scope py_scope.
Delimit Scope py_scope with py.
Notation "'let!' x ':=' m 'in' k" := (rbind m (fun x => k))
  (at level 10, x pattern, m at level 100, k at level 200) : py_scope.
Open Scope py_scope.

Definition is_ok {A : Type} (m : result A) : bool :=
  match m with Ok _ => true | Err _ => false end.

(** Left-to-right monadic map: the list comprehension whose body may raise. *)
Fixpoint rmapM {A B : Type} (f : A -> result B) (l : list A) : result (list B) :=
  match l with
  | [] => Ok []
  | x :: l' => let! y := f x in let! ys := rmapM f l' in Ok (y :: ys)
  end.

(** * Text

    A Python [str] is a Rocq [string]: a sequence of code points below 256.
    [is_space] is [str.isspace] and [lower_char] is [str.lower] on that range. *)

Definition code (c : ascii) : N := N_of_ascii c.

Definition is_space (c : ascii) : bool :=
  let n := code c in
  ((9 <=? n)%N && (n <=? 13)%N) || ((28 <=? n)%N && (n <=? 32)%N)
  || (n =? 133)%N || (n =? 160)%N.

Definition lower_char (c : ascii) : ascii :=
  let n := code c in
  if ((65 <=? n)%N && (n <=? 90)%N)
     || ((192 <=? n)%N && (n <=? 222)%N && negb (n =? 215)%N)
  then ascii_of_N (n + 32)%N else c.

(** [str.upper] of one code point; U+00B5 and U+00FF, whose capitals lie above
    the range, are left unchanged. *)
Definition upper_char (c : ascii) : string :=
  let n := code c in
  if (97 <=? n)%N && (n <=? 122)%N then String (ascii_of_N (n - 32)) EmptyString
  else if (n =? 223)%N then "SS"
  else if (224 <=? n)%N && (n <=? 254)%N && negb (n =? 247)%N
       then String (ascii_of_N (n - 32)) EmptyString
  else String c EmptyString.

Fixpoint smap (f : ascii -> ascii) (s : string) : string :=
  match s with
  | EmptyString => EmptyString
  | String c s' => String (f c) (smap f s')
  end.

Fixpoint sflat (f : ascii -> string) (s : string) : string :=
  match s with
  | EmptyString => EmptyString
  | String c s' => f c +:+ sflat f s'
  end.

Definition lower (s : string) : string := smap lower_char s.
Definition upper (s : string) : string := sflat upper_char s.

Fixpoint lstrip (s : string) : string :=
  match s with
  | EmptyString => EmptyString
  | String c s' => if is_space c then lstrip s' else s
  end.

Definition rstrip (s : string) : string := String.rev (lstrip (String.rev s)).
Definition strip (s : string) : string := rstrip (lstrip s).

Definition startswith (s p : string) : bool := String.prefix p s.
Definition endswith (s p : string) : bool := String.prefix (String.rev p) (String.rev s).

(** [sub in s]. *)
Fixpoint contains (sub s : string) : bool :=
  String.prefix sub s ||
  match s with EmptyString => false | String _ s' => contains sub s' end.

(** Every character of [s] satisfies [p]. *)
Fixpoint all_chars (p : ascii -> bool) (s : string) : bool :=
  match s with EmptyString => true | String c s' => p c && all_chars p s' end.

(** [s.replace(a, b)] for one-character [a] and [b]. *)
Definition replace_char (a b : ascii) (s : string) : string :=
  smap (fun c => if Ascii.eqb c a then b else c) s.

(** [s.split(sep)] for a one-character separator: never empty. *)
Fixpoint split_on (sep : ascii) (s : string) : list string :=
  match s with
  | EmptyString => [EmptyString]
  | String c s' =>
      if Ascii.eqb c sep then EmptyString :: split_on sep s'
      else match split_on sep s' with
           | [] => [String c EmptyString]
           | w :: ws => String c w :: ws
           end
  end.

(** [s[:n]]. *)
Definition str_take (n : nat) (s : string) : string := String.substring 0 n s.
(** [s[n:]] for [n <= len(s)]. *)
Fixpoint str_drop (n : nat) (s : string) : string :=
  match n, s with
  | O, _ => s
  | S n', String _ s' => str_drop n' s'
  | S _, EmptyString => EmptyString
  end.

Definition str_len (s : string) : Z := Z.of_nat (String.length s).

Definition nonempty (s : string) : bool := match s with EmptyString => false | _ => true end.

(** [s or d] for strings. *)
Definition str_or (s d : string) : string := if nonempty s then s else d.

(** [[f(x) for x in l if x ...]]: the values kept, in order. *)
Fixpoint filter_map {A B : Type} (f : A -> option B) (l : list A) : list B :=
  match l with
  | [] => []
  | x :: l' => match f x with Some y => y :: filter_map f l' | None => filter_map f l' end
  end.

(** [o or ""] for an optional string. *)
Definition opt_str (o : option string) : string := default EmptyString o.

(** * Sets of strings and ordering *)

Definition mem (x : string) (l : list string) : bool := bool_decide (x ∈ l).

(** [sorted(set(l))]. *)
Definition sorted_set (l : list string) : list string := merge_sort String.le (remove_dups l).

(** Order-preserving union: [for t in new: if t not in seen: ... append]. *)
Fixpoint append_new (out new : list string) : list string :=
  match new with
  | [] => out
  | t :: new' => if mem t out then append_new out new' else append_new (out ++ [t]) new'
  end.

(** * Decimal text of integers *)

Definition digit_char (d : Z) : ascii := ascii_of_N (48 + Z.to_N d)%N.

Fixpoint digits_fuel (fuel : nat) (n : Z) (acc : string) : string :=
  match fuel with
  | O => acc
  | S fuel' =>
      let acc' := String (digit_char (n mod 10)) acc in
      if n / 10 =? 0 then acc' else digits_fuel fuel' (n / 10) acc'
  end.

(** [str(n)] for an integer; [log2 n + 1] steps always suffice. *)
Definition Z_to_string (n : Z) : string :=
  if n <? 0 then String "-"%char (digits_fuel (S (Z.to_nat (Z.log2 (- n)))) (- n) EmptyString)
  else digits_fuel (S (Z.to_nat (Z.log2 n))) n EmptyString.

(** * Lemmas on text *)

Create HintDb tarka discriminated.
Create Rewrite HintDb tarka.

Lemma sapp_cons c s t : String c s +:+ t = String c (s +:+ t).
Proof. reflexivity. Qed.

Lemma sapp_nil s : s +:+ EmptyString = s.
Proof. induction s as [|c s IH]; [done|]. by rewrite sapp_cons, IH. Qed.

Lemma sapp_assoc s t u : (s +:+ t) +:+ u = s +:+ (t +:+ u).
Proof. induction s as [|c s IH]; [done|]. by rewrite !sapp_cons, IH. Qed.

Lemma sapp_inj p s t : p +:+ s = p +:+ t -> s = t.
Proof. induction p as [|c p IH]; [done|]. intros [= H]. by apply IH. Qed.

Lemma length_sapp s t : String.length (s +:+ t) = (String.length s + String.length t)%nat.
Proof. induction s as [|c s IH]; [done|]. rewrite sapp_cons. simpl. lia. Qed.

Lemma prefix_app p t : String.prefix p (p +:+ t) = true.
Proof.
  induction p as [|c p IH]; [by destruct t|].
  rewrite sapp_cons. simpl. destruct (ascii_dec c c); [done|congruence].
Qed.

Lemma prefix_inv p s : String.prefix p s = true -> exists t, s = p +:+ t.
Proof.
  revert s. induction p as [|c p IH]; intros s Hp; [by exists s|].
  destruct s as [|d s]; [done|]. simpl in Hp. destruct (ascii_dec c d) as [<-|]; [|done].
  destruct (IH s Hp) as [t ->]. exists t. by rewrite sapp_cons.
Qed.

Lemma drop_app p t : str_drop (String.length p) (p +:+ t) = t.
Proof. induction p as [|c p IH]; [by destruct t|]. rewrite sapp_cons. simpl. apply IH. Qed.

(** ** Stripping and folding text that needs neither *)

Lemma rev_app_spec s t : String.rev_app s t = String.rev_app s EmptyString +:+ t.
Proof.
  revert t. induction s as [|c s IH]; intros t; [done|]. cbn [String.rev_app].
  rewrite IH, (IH (String c EmptyString)), sapp_assoc. reflexivity.
Qed.

Lemma rev_cons c s : String.rev (String c s) = String.rev s +:+ String c EmptyString.
Proof. unfold String.rev. cbn [String.rev_app]. apply rev_app_spec. Qed.

Lemma rev_snoc s c : String.rev (s +:+ String c EmptyString) = String c (String.rev s).
Proof.
  induction s as [|d s IH]; [done|]. rewrite sapp_cons, !rev_cons, IH. reflexivity.
Qed.

Lemma rev_involutive s : String.rev (String.rev s) = s.
Proof. induction s as [|c s IH]; [done|]. by rewrite rev_cons, rev_snoc, IH. Qed.

Lemma all_chars_app p s t : all_chars p (s +:+ t) = all_chars p s && all_chars p t.
Proof. induction s as [|c s IH]; [done|]. rewrite sapp_cons. simpl. by rewrite IH, andb_assoc. Qed.

Lemma all_chars_rev p s : all_chars p (String.rev s) = all_chars p s.
Proof.
  induction s as [|c s IH]; [done|]. rewrite rev_cons, all_chars_app, IH. simpl.
  by rewrite andb_true_r, andb_comm.
Qed.

Lemma lstrip_id s : all_chars (fun c => negb (is_space c)) s = true -> lstrip s = s.
Proof. destruct s as [|c s]; simpl; [done|]. intros [H _]%andb_prop. by destruct (is_space c). Qed.

Lemma strip_id s : all_chars (fun c => negb (is_space c)) s = true -> strip s = s.
Proof.
  intros H. unfold strip, rstrip. rewrite (lstrip_id s) by exact H.
  rewrite lstrip_id by (rewrite all_chars_rev; exact H). apply rev_involutive.
Qed.

Lemma lower_id s : all_chars (fun c => Ascii.eqb (lower_char c) c) s = true -> lower s = s.
Proof.
  induction s as [|c s IH]; [done|]. simpl. intros [H%Ascii.eqb_eq Hs]%andb_prop.
  unfold lower in *. simpl. by rewrite H, IH.
Qed.

Lemma all_chars_impl (p q : ascii -> bool) s :
  (forall c, p c = true -> q c = true) -> all_chars p s = true -> all_chars q s = true.
Proof.
  intros H. induction s as [|c s IH]; simpl; [done|]. intros [H1 H2]%andb_prop.
  by rewrite (H c H1), IH.
Qed.

(** ** Normalisation is idempotent *)

Lemma lstrip_idem s : lstrip (lstrip s) = lstrip s.
Proof. induction s as [|c s IH]; simpl; [done|]. destruct (is_space c) eqn:E; [done|]. simpl. by rewrite E. Qed.

Lemma lstrip_snoc u c : is_space c = false -> lstrip (u +:+ String c EmptyString) = lstrip u +:+ String c EmptyString.
Proof.
  intros Hc. induction u as [|d u IH].
  - change (EmptyString +:+ String c EmptyString) with (String c EmptyString). simpl. by rewrite Hc.
  - rewrite sapp_cons. simpl. destruct (is_space d); [done|]. by rewrite sapp_cons.
Qed.

Lemma rstrip_cons c s : is_space c = false -> rstrip (String c s) = String c (rstrip s).
Proof. intros Hc. unfold rstrip. by rewrite rev_cons, lstrip_snoc, rev_snoc. Qed.

Lemma rstrip_idem s : rstrip (rstrip s) = rstrip s.
Proof. unfold rstrip. by rewrite rev_involutive, lstrip_idem. Qed.

Lemma lstrip_head s : lstrip s = EmptyString \/ exists c s', lstrip s = String c s' /\ is_space c = false.
Proof. induction s as [|c s IH]; simpl; [by left|]. destruct (is_space c) eqn:E; [done|]. right. eauto. Qed.

Lemma strip_idem s : strip (strip s) = strip s.
Proof.
  unfold strip. destruct (lstrip_head s) as [->|(c & s' & -> & Hc)]; [done|].
  rewrite rstrip_cons by done. simpl. rewrite Hc.
  rewrite <- rstrip_cons, rstrip_idem by done. done.
Qed.

(** A property of every character below 256, by evaluation. *)
Lemma all_ascii (p : ascii -> bool) :
  forallb (fun n => p (ascii_of_nat n)) (seq 0 256) = true -> forall c, p c = true.
Proof.
  intros H c. pose proof (proj1 (forallb_forall _ _) H (nat_of_ascii c)
    ltac:(apply in_seq; pose proof (nat_ascii_bounded c); lia)) as Hx.
  cbn beta in Hx. by rewrite ascii_nat_embedding in Hx.
Qed.

Lemma lower_char_idem c : lower_char (lower_char c) = lower_char c.
Proof.
  apply Ascii.eqb_eq. revert c.
  apply (all_ascii (fun c => Ascii.eqb (lower_char (lower_char c)) (lower_char c))). vm_compute. reflexivity.
Qed.

Lemma is_space_lower c : is_space (lower_char c) = is_space c.
Proof.
  apply Bool.eqb_prop. revert c.
  apply (all_ascii (fun c => Bool.eqb (is_space (lower_char c)) (is_space c))). vm_compute. reflexivity.
Qed.

Lemma smap_app f s t : smap f (s +:+ t) = smap f s +:+ smap f t.
Proof. induction s as [|c s IH]; [done|]. rewrite sapp_cons. simpl. by rewrite IH, sapp_cons. Qed.

Lemma smap_rev f s : smap f (String.rev s) = String.rev (smap f s).
Proof. induction s as [|c s IH]; [done|]. rewrite rev_cons, smap_app, IH. simpl. by rewrite rev_cons. Qed.

Lemma lower_idem s : lower (lower s) = lower s.
Proof. unfold lower. induction s as [|c s IH]; simpl; [done|]. by rewrite lower_char_idem, IH. Qed.

Lemma lstrip_lower s : lstrip (lower s) = lower (lstrip s).
Proof.
  unfold lower. induction s as [|c s IH]; simpl; [done|]. rewrite is_space_lower. by destruct (is_space c).
Qed.

Lemma strip_lower s : strip (lower s) = lower (strip s).
Proof.
  unfold strip, rstrip. rewrite lstrip_lower. unfold lower. rewrite <- smap_rev.
  fold (lower (String.rev (lstrip s))). rewrite lstrip_lower. unfold lower. by rewrite <- smap_rev.
Qed.

(** [s.strip().lower()] is a projection. *)
Lemma norm_idem s : lower (strip (lower (strip s))) = lower (strip s).
Proof. by rewrite strip_lower, strip_idem, lower_idem. Qed.

Lemma mem_spec x l : mem x l = true <-> x ∈ l.
Proof. unfold mem. apply bool_decide_eq_true. Qed.

Lemma mem_false x l : mem x l = false <-> x ∉ l.
Proof. unfold mem. apply bool_decide_eq_false. Qed.

Lemma filter_map_elem {A B : Type} (f : A -> option B) (l : list A) (y : B) :
  y ∈ filter_map f l <-> exists x, x ∈ l /\ f x = Some y.
Proof.
  induction l as [|a l IH]; simpl; [set_solver|].
  destruct (f a) eqn:E; rewrite ?elem_of_cons, IH; set_solver.
Qed.

(** ** [append_new]: order-preserving union *)

Lemma append_new_elem out new x : x ∈ append_new out new <-> x ∈ out \/ x ∈ new.
Proof.
  revert out. induction new as [|t new IH]; intros out; simpl; [set_solver|].
  destruct (mem t out) eqn:E; rewrite IH.
  - apply mem_spec in E. set_solver.
  - rewrite elem_of_app, list_elem_of_singleton. set_solver.
Qed.

Lemma append_new_NoDup out new : NoDup out -> NoDup (append_new out new).
Proof.
  revert out. induction new as [|t new IH]; intros out Hnd; simpl; [done|].
  destruct (mem t out) eqn:E; apply IH; [done|].
  apply mem_false in E. apply NoDup_app. split; [done|]. split; [set_solver|].
  apply NoDup_singleton.
Qed.

Lemma append_new_prefix out new : exists ext, append_new out new = out ++ ext.
Proof.
  revert out. induction new as [|t new IH]; intros out; simpl.
  - exists []. by rewrite app_nil_r.
  - destruct (mem t out); [apply IH|].
    destruct (IH (out ++ [t])) as [ext Hext]. exists (t :: ext).
    rewrite Hext. by rewrite <- (assoc_L (++)).
Qed.

(** ** [sorted_set]: strictly sorted, duplicate free, same elements *)

Lemma sorted_set_elem l x : x ∈ sorted_set l <-> x ∈ l.
Proof. unfold sorted_set. by rewrite merge_sort_Permutation, elem_of_remove_dups. Qed.

Lemma sorted_set_NoDup l : NoDup (sorted_set l).
Proof. unfold sorted_set. rewrite merge_sort_Permutation. apply NoDup_remove_dups. Qed.

Lemma sorted_set_sorted l : Sorted String.le (sorted_set l).
Proof. apply Sorted_merge_sort. apply _. Qed.

#[export] Hint Rewrite strip_idem lower_idem norm_idem : tarka.
#[export] Hint Rewrite length_sapp sapp_nil sapp_assoc : tarka.
#[export] Hint Rewrite append_new_elem sorted_set_elem : tarka.
#[export] Hint Resolve append_new_NoDup sorted_set_NoDup sorted_set_sorted : tarka.

(** ** [sorted(l, key=...)]: stable, ascending *)

Fixpoint insert_by {A : Type} (key : A -> Z) (x : A) (l : list A) : list A :=
  match l with
  | [] => [x]
  | y :: l' => if key x <=? key y then x :: y :: l' else y :: insert_by key x l'
  end.

Definition sort_by {A : Type} (key : A -> Z) (l : list A) : list A := foldr (insert_by key) [] l.

Lemma insert_by_perm {A : Type} (key : A -> Z) x l : insert_by key x l ≡ₚ x :: l.
Proof.
  induction l as [|y l IH]; simpl; [done|]. destruct (key x <=? key y); [done|].
  rewrite IH. apply perm_swap.
Qed.

Lemma sort_by_perm {A : Type} (key : A -> Z) l : sort_by key l ≡ₚ l.
Proof. unfold sort_by. induction l as [|x l IH]; simpl; [done|]. by rewrite insert_by_perm, IH. Qed.

(** Ascending keys: every element is at most the ones after it. *)
Definition ascending {A : Type} (key : A -> Z) (l : list A) : Prop :=
  StronglySorted (fun x y => key x <= key y) l.

Lemma insert_by_ascending {A : Type} (key : A -> Z) x l : ascending key l -> ascending key (insert_by key x l).
Proof.
  unfold ascending. induction 1 as [|y l Hs IH Hf]; simpl; [by repeat constructor|].
  destruct (Z.leb_spec (key x) (key y)) as [Hle|Hgt].
  - constructor; [by constructor|]. constructor; [done|]. eapply Forall_impl; [exact Hf|]. simpl. lia.
  - constructor; [done|]. rewrite insert_by_perm. constructor; [lia|done].
Qed.

Lemma sort_by_ascending {A : Type} (key : A -> Z) l : ascending key (sort_by key l).
Proof. unfold sort_by. induction l as [|x l IH]; simpl; [constructor|]. by apply insert_by_ascending. Qed.

Lemma filter_elem {A : Type} (f : A -> bool) l x : x ∈ List.filter f l <-> x ∈ l /\ f x = true.
Proof. by rewrite !list_elem_of_In, List.filter_In. Qed.

Lemma filter_nodup {A : Type} (f : A -> bool) l : NoDup l -> NoDup (List.filter f l).
Proof.
  induction 1 as [|x l Hx Hl IH]; simpl; [constructor|]. destruct (f x); [|done].
  constructor; [|done]. by intros [H _]%filter_elem.
Qed.

#[export] Hint Resolve sort_by_ascending : tarka.

(** [HTTPException(status_code, detail)], and the status code of one. *)
Definition http (code : Z) (error : string) : pyexn :=
  OtherError ("HTTP " +:+ Z_to_string code +:+ " " +:+ error).

Definition is_http (e : pyexn) : option string :=
  match e with
  | OtherError s => if startswith s "HTTP " then Some (str_take 3 (str_drop 5 s)) else None
  | _ => None
  end.

(** An environment switch: [os.environ.get(name, "").strip().lower() in {...}]. *)
Definition env_on (raw : string) : bool := mem (lower (strip raw)) ["1"; "true"; "yes"; "on"].

(** Case analysis on the boolean tests in the goal. *)
Ltac cases_if :=
  repeat match goal with
  | |- context [if ?b then _ else _] => destruct b eqn:?
  end.

(** Inverts [rbind m k = Ok v] hypotheses. *)
Lemma rbind_Ok {A B : Type} (m : result A) (k : A -> result B) (v : B) :
  rbind m k = Ok v -> exists a, m = Ok a /\ k a = Ok v.
Proof. destruct m; simpl; [eauto|discriminate]. Qed.

Lemma Ok_inj {A : Type} (a b : A) : Ok a = Ok b -> a = b.
Proof. congruence. Qed.

Ltac inv_ok :=
  repeat match goal with
  | H : rbind _ _ = Ok _ |- _ =>
      let a := fresh "a" in let H1 := fresh "H" in
      apply rbind_Ok in H as (a & H1 & H)
  | H : Ok _ = Ok _ |- _ => apply Ok_inj in H
  | H : Err _ = Ok _ |- _ => discriminate H
  end.
