(* ===== verification/PyFloat.v ===== *)
(** Python [float]: IEEE binary64 on the Standard Library's [spec_float].

    Arithmetic is the standard library's correctly rounded [SF*] operations at
    precision 53; this file adds what CPython builds on them: conversion from
    and to integers and decimal text ([float(s)], [repr(x)]), [round], [int],
    [min]/[max] and the comparison operators. *)

From Stdlib Require Import ZArith Lia Ascii String Bool.
From Stdlib Require Import SpecFloat.
From stdpp Require Import base option list strings.
From S2P Require Import Prelude.
Local Open Scope Z_scope.

Abbreviation float := spec_float.

#[export] Instance float_eq_dec : EqDecision float.
Proof. solve_decision. Defined.

Definition prec : Z := 53.
Definition emax : Z := 1024.

Definition f_zero : float := S754_zero false.
Definition f_inf : float := S754_infinity false.
Definition f_nan : float := S754_nan.

Definition fadd : float -> float -> float := SFadd prec emax.
Definition fsub : float -> float -> float := SFsub prec emax.
Definition fmul : float -> float -> float := SFmul prec emax.

Definition fltb : float -> float -> bool := SFltb.
Definition fleb : float -> float -> bool := SFleb.
Definition feqb : float -> float -> bool := SFeqb.

Definition is_nan (x : float) : bool := match x with S754_nan => true | _ => false end.
Definition is_inf (x : float) : bool := match x with S754_infinity _ => true | _ => false end.
Definition is_zero (x : float) : bool := match x with S754_zero _ => true | _ => false end.
(** [bool(x)] *)
Definition f_truthy (x : float) : bool := negb (is_zero x).

(** [x / y]: [ZeroDivisionError] on a zero divisor. *)
Definition fdiv (x y : float) : result float :=
  if is_zero y then Err ZeroDivisionError else Ok (SFdiv prec emax x y).

(** [min(x, y)] and [max(x, y)]: the first argument is kept unless the second
    one is strictly smaller (larger), so an unordered comparison keeps the first. *)
Definition fmin (x y : float) : float := if fltb y x then y else x.
Definition fmax (x y : float) : float := if fltb x y then y else x.

(** [max(lo, min(hi, x))] *)
Definition fclamp (lo hi x : float) : float := fmax lo (fmin hi x).

(** * Integers and ratios *)

(** The binary64 nearest to [num / den] (half to even); infinity on overflow. *)
Definition f_of_ratio (num : Z) (den : positive) : float :=
  match num with
  | Z0 => S754_zero false
  | Zpos p =>
      let '(mz, ez, lz) := SFdiv_core_binary prec emax (Zpos p) 0 (Zpos den) 0 in
      binary_round_aux prec emax false mz ez lz
  | Zneg p =>
      let '(mz, ez, lz) := SFdiv_core_binary prec emax (Zpos p) 0 (Zpos den) 0 in
      binary_round_aux prec emax true mz ez lz
  end.

Definition f_round_Z (n : Z) : float := binary_normalize prec emax n 0 false.

(** [float(n)]: [OverflowError] when [n] rounds outside the finite range. *)
Definition f_of_Z (n : Z) : result float :=
  let x := f_round_Z n in if is_inf x then Err OverflowError else Ok x.

(** A float literal written as a decimal fraction [num / den]. *)
Definition lit (num : Z) (den : positive) : float := Eval cbv [f_of_ratio] in f_of_ratio num den.
Definition litZ (n : Z) : float := f_round_Z n.

(** The exact value of a finite float as [num / den]. *)
Definition f_ratio (x : float) : option (Z * positive) :=
  match x with
  | S754_zero _ => Some (0, 1%positive)
  | S754_finite s m e =>
      let n := cond_Zopp s (Zpos m) in
      if 0 <=? e then Some (n * 2 ^ e, 1%positive)
      else Some (n, Z.to_pos (2 ^ (- e)))
  | _ => None
  end.

(** Nearest integer to [num / den], ties to even. *)
Definition div_half_even (num : Z) (den : positive) : Z :=
  let q := num / Zpos den in
  let r := num mod Zpos den in
  match 2 * r ?= Zpos den with
  | Lt => q
  | Gt => q + 1
  | Eq => if Z.even q then q else q + 1
  end.

(** [int(x)]: truncation; [ValueError] on NaN, [OverflowError] on infinities. *)
Definition f_trunc (x : float) : result Z :=
  match x with
  | S754_nan => Err ValueError
  | S754_infinity _ => Err OverflowError
  | _ => match f_ratio x with
         | Some (n, d) => Ok (Z.quot n (Zpos d))
         | None => Err ValueError
         end
  end.

(** [round(x)] to an integer. *)
Definition f_round_int (x : float) : result Z :=
  match x with
  | S754_nan => Err ValueError
  | S754_infinity _ => Err OverflowError
  | _ => match f_ratio x with
         | Some (n, d) => Ok (div_half_even n d)
         | None => Err ValueError
         end
  end.

(** [round(x, nd)], [nd >= 0]: the exact value is rounded to [nd] decimals
    (half to even) and converted back; the sign of a zero result is kept. *)
Definition f_round (x : float) (nd : Z) : float :=
  match x with
  | S754_finite s m e =>
      match f_ratio x with
      | Some (n, d) =>
          let k := div_half_even (n * 10 ^ nd) d in
          if k =? 0 then S754_zero s else f_of_ratio k (Z.to_pos (10 ^ nd))
      | None => x
      end
  | _ => x
  end.

(** Exact comparison of an integer with a float, as [int.__lt__] does it. *)
Definition cmp_Z_float (n : Z) (x : float) : option comparison :=
  match x with
  | S754_nan => None
  | S754_infinity s => Some (if s then Gt else Lt)
  | _ => match f_ratio x with
         | Some (p, q) => Some (n * Zpos q ?= p)
         | None => None
         end
  end.

(** * Decimal text *)

(** Power-of-ten scaling: [10 ^ p] as a ratio applied to [n / d]. *)
Definition scale10 (n : Z) (d : positive) (p : Z) : Z * positive :=
  if 0 <=? p then (n * 10 ^ p, d) else (n, (d * Z.to_pos (10 ^ (- p)))%positive).

(** The decimal point position [k]: [10^(k-1) <= n/d < 10^k], for [n/d > 0];
    an estimate from the bit lengths, then corrected. *)
Fixpoint decpt_search (fuel : nat) (n : Z) (d : positive) (k : Z) : Z :=
  match fuel with
  | O => k
  | S fuel' =>
      let '(a, b) := scale10 n d (- k) in
      if Zpos b <=? a then decpt_search fuel' n d (k + 1)
      else let '(a1, b1) := scale10 n d (1 - k) in
           if a1 <? Zpos b1 then decpt_search fuel' n d (k - 1) else k
  end.

Definition decpt (n : Z) (d : positive) : Z :=
  let est := ((Z.log2 n - Z.log2 (Zpos d)) * 30103) / 100000 in
  decpt_search 8 n d est.

(** [D * 10^p] as a float. *)
Definition f_of_dec (D : Z) (p : Z) : float :=
  let '(a, b) := scale10 D 1 p in f_of_ratio a b.

(** Shortest decimal [D * 10^p] that converts back to the positive float [x]:
    at each length the two neighbours of the exact value are tried, the nearer
    first; 17 digits always suffice for binary64. *)
Fixpoint shortest_search (fuel : nat) (nd : Z) (x : float) (n : Z) (d : positive) (k : Z) : Z * Z :=
  let p := k - nd in
  let '(a, b) := scale10 n d (- p) in
  let lo := a / Zpos b in
  let near := div_half_even a b in
  let other := if near =? lo then lo + 1 else lo in
  match fuel with
  | O => (near, p)
  | S fuel' =>
      if bool_decide (f_of_dec near p = x) then (near, p)
      else if bool_decide (f_of_dec other p = x) then (other, p)
      else shortest_search fuel' (nd + 1) x n d k
  end.

(** Drops trailing ["0"] digits (a neighbour may be a power of ten). *)
Definition drop_trailing_zeros (ds : string) : string :=
  String.rev ((fix go (s : string) : string :=
                 match s with
                 | String "0"%char s' => go s'
                 | _ => s
                 end) (String.rev ds)).

Fixpoint zeros (n : nat) : string :=
  match n with O => EmptyString | S n' => String "0"%char (zeros n') end.

(** Layout of digits [ds] with decimal point position [k], as [repr] prints it:
    exponent form when [k <= -4] or [k > 16]. *)
Definition layout (ds : string) (k : Z) : string :=
  let len := str_len ds in
  if (k <=? -4) || (16 <? k) then
    let ex := k - 1 in
    let mant := match ds with
                | String c EmptyString => ds
                | String c r => String c (String "."%char r)
                | EmptyString => EmptyString
                end in
    let ea := Z_to_string (Z.abs ex) in
    mant +:+ "e" +:+ (if ex <? 0 then "-" else "+")
         +:+ (if Z.abs ex <? 10 then String "0"%char ea else ea)
  else if k <=? 0 then "0." +:+ zeros (Z.to_nat (- k)) +:+ ds
  else if len <=? k then ds +:+ zeros (Z.to_nat (k - len)) +:+ ".0"
  else str_take (Z.to_nat k) ds +:+ "." +:+ str_drop (Z.to_nat k) ds.

(** [repr(x)] (and [str(x)]). *)
Definition f_repr (x : float) : string :=
  match x with
  | S754_nan => "nan"
  | S754_infinity s => if s then "-inf" else "inf"
  | S754_zero s => if s then "-0.0" else "0.0"
  | S754_finite s m e =>
      let ax := S754_finite false m e in
      match f_ratio ax with
      | None => ""
      | Some (n, d) =>
          let k := decpt n d in
          let '(D, p) := shortest_search 17 1 ax n d k in
          let ds := Z_to_string D in
          (if s then "-" else "") +:+ layout (drop_trailing_zeros ds) (str_len ds + p)
      end
  end.

(** ** [float(s)] *)

Definition digit_val (c : ascii) : option Z :=
  let n := Z.of_N (code c) in
  if (48 <=? n) && (n <=? 57) then Some (n - 48) else None.

(** Digits with single underscores between digits; returns the value, the
    number of digits and the rest. [prev] says whether a digit came just before. *)
Fixpoint read_digits (s : string) (prev : bool) (acc : Z) (cnt : Z) : option (Z * Z * string) :=
  match s with
  | EmptyString => Some (acc, cnt, s)
  | String c s' =>
      match digit_val c with
      | Some v => read_digits s' true (acc * 10 + v) (cnt + 1)
      | None =>
          if Ascii.eqb c "_"%char then
            match prev, s' with
            | true, String c' _ =>
                match digit_val c' with
                | Some _ => read_digits s' false acc cnt
                | None => None
                end
            | _, _ => None
            end
          else Some (acc, cnt, s)
      end
  end.

Definition take_sign (s : string) : bool * string :=
  match s with
  | String c s' =>
      if Ascii.eqb c "-"%char then (true, s')
      else if Ascii.eqb c "+"%char then (false, s') else (false, s)
  | EmptyString => (false, s)
  end.

Definition read_exponent (s : string) : option Z :=
  match s with
  | EmptyString => Some 0
  | String c s' =>
      if Ascii.eqb (lower_char c) "e"%char then
        let '(neg, r) := take_sign s' in
        match read_digits r false 0 0 with
        | Some (v, cnt, EmptyString) => if 0 <? cnt then Some (if neg then - v else v) else None
        | _ => None
        end
      else None
  end.

Definition read_unsigned_float (s : string) : option float :=
  match read_digits s false 0 0 with
  | None => None
  | Some (ip, ic, r) =>
      let '(fp, fc, r') :=
        match r with
        | String "."%char r1 =>
            match read_digits r1 false 0 0 with
            | Some t => t
            | None => (0, 0, r)
            end
        | _ => (0, 0, r)
        end in
      if ic + fc =? 0 then None
      else match read_exponent r' with
           | Some ex => Some (f_of_dec (ip * 10 ^ fc + fp) (ex - fc))
           | None => None
           end
  end.

(** [float(s)] for a string. *)
Definition f_of_string (s0 : string) : result float :=
  let '(neg, s) := take_sign (strip s0) in
  let l := lower s in
  let sgn (x : float) := if neg then SFopp x else x in
  if bool_decide (l = "inf") || bool_decide (l = "infinity") then Ok (sgn f_inf)
  else if bool_decide (l = "nan") then Ok f_nan
  else match read_unsigned_float s with
       | Some x => Ok (sgn x)
       | None => Err ValueError
       end.

(** [int(s)] for a string, base 10. *)
Definition Z_of_string (s0 : string) : result Z :=
  let '(neg, s) := take_sign (strip s0) in
  match read_digits s false 0 0 with
  | Some (v, cnt, EmptyString) => if 0 <? cnt then Ok (if neg then - v else v) else Err ValueError
  | _ => Err ValueError
  end.

(** * Order lemmas *)

Definition opp_cmp (o : option comparison) : option comparison :=
  match o with Some c => Some (CompOpp c) | None => None end.

Lemma pos_compare_cont_swap m n :
  Pos.compare_cont Eq n m = CompOpp (Pos.compare_cont Eq m n).
Proof. exact (Pos.compare_antisym m n). Qed.

Lemma SFcompare_swap a b : SFcompare b a = opp_cmp (SFcompare a b).
Proof.
  destruct a as [sa|sa| |sa ma ea], b as [sb|sb| |sb mb eb]; simpl;
    try (destruct sa); try (destruct sb); try reflexivity;
    rewrite (Z.compare_antisym ea eb), (pos_compare_cont_swap ma mb);
    destruct (ea ?= eb); simpl; rewrite ?CompOpp_involutive; reflexivity.
Qed.

Lemma SFcompare_None a b : SFcompare a b = None <-> a = S754_nan \/ b = S754_nan.
Proof.
  destruct a as [sa|sa| |sa ma ea], b as [sb|sb| |sb mb eb]; simpl;
    split; try intros [|]; try discriminate; auto.
Qed.

(** On ordered floats [>=] is the negation of [<]. *)
Lemma fleb_negb_fltb a b : is_nan a = false -> is_nan b = false -> fleb b a = negb (fltb a b).
Proof.
  intros Ha Hb. unfold fleb, fltb, SFleb, SFltb. rewrite (SFcompare_swap a b).
  destruct (SFcompare a b) as [[]|] eqn:E; try reflexivity.
  apply SFcompare_None in E as [-> | ->]; discriminate.
Qed.

Lemma fltb_nan_l b : fltb S754_nan b = false.
Proof. reflexivity. Qed.
Lemma fltb_nan_r a : fltb a S754_nan = false.
Proof. by destruct a. Qed.
Lemma fleb_nan_l b : fleb S754_nan b = false.
Proof. reflexivity. Qed.
Lemma fleb_nan_r a : fleb a S754_nan = false.
Proof. by destruct a. Qed.

Lemma fltb_fleb a b : fltb a b = true -> fleb a b = true.
Proof. unfold fltb, fleb, SFltb, SFleb. by destruct (SFcompare a b) as [[]|]. Qed.

Lemma fleb_refl a : is_nan a = false -> fleb a a = true.
Proof.
  intros Ha. rewrite fleb_negb_fltb by done.
  unfold fltb, SFltb. generalize (SFcompare_swap a a).
  destruct (SFcompare a a) as [[]|]; simpl; try reflexivity; discriminate.
Qed.

(** [max(lo, min(hi, x))] is in range for every [x], NaN included. *)
Lemma fclamp_range lo hi x :
  fleb lo hi = true -> fleb lo (fclamp lo hi x) = true /\ fleb (fclamp lo hi x) hi = true.
Proof.
  intros Hlh.
  assert (Hlo : is_nan lo = false) by (destruct lo; [..|discriminate|]; done).
  assert (Hhi : is_nan hi = false) by (destruct hi; [..|by rewrite fleb_nan_r in Hlh|]; done).
  unfold fclamp, fmax, fmin.
  destruct (fltb x hi) eqn:Ex.
  - assert (Hx : is_nan x = false) by (destruct x; [..|discriminate|]; done).
    destruct (fltb lo x) eqn:El; split; auto using fltb_fleb, fleb_refl.
  - destruct (fltb lo hi) eqn:El; split; auto using fltb_fleb, fleb_refl.
Qed.

(** ** The order of non-NaN floats is total: an embedding in a lexicographic order *)

Definition fkey (x : float) : Z * Z * Z :=
  match x with
  | S754_zero _ | S754_nan => (0, 0, 0)
  | S754_infinity s => (if s then -2 else 2, 0, 0)
  | S754_finite s m e => if s then (-1, - e, - Zpos m) else (1, e, Zpos m)
  end.

Definition lex (a b : Z * Z * Z) : comparison :=
  match a.1.1 ?= b.1.1 with
  | Eq => match a.1.2 ?= b.1.2 with Eq => a.2 ?= b.2 | c => c end
  | c => c
  end.

Lemma SFcompare_lex a b :
  is_nan a = false -> is_nan b = false -> SFcompare a b = Some (lex (fkey a) (fkey b)).
Proof.
  destruct a as [sa|sa| |sa ma ea], b as [sb|sb| |sb mb eb]; try discriminate; intros _ _;
    try destruct sa; try destruct sb; try reflexivity; unfold lex; simpl.
  rewrite Z.compare_opp, (Z.compare_antisym ea eb). destruct (ea ?= eb); reflexivity.
Qed.

Lemma lex_trans_le a b c : lex a b <> Gt -> lex b c <> Gt -> lex a c <> Gt.
Proof.
  destruct a as [[a1 a2] a3], b as [[b1 b2] b3], c as [[c1 c2] c3]. unfold lex. simpl.
  destruct (Z.compare_spec a1 b1), (Z.compare_spec b1 c1), (Z.compare_spec a1 c1); try lia; try done;
  destruct (Z.compare_spec a2 b2), (Z.compare_spec b2 c2), (Z.compare_spec a2 c2); try lia; try done;
  destruct (Z.compare_spec a3 b3), (Z.compare_spec b3 c3), (Z.compare_spec a3 c3); try lia; done.
Qed.

Lemma fleb_not_nan a b : fleb a b = true -> is_nan a = false /\ is_nan b = false.
Proof. destruct a, b; simpl; intros H; try done; discriminate. Qed.

Lemma fleb_lex a b : is_nan a = false -> is_nan b = false -> fleb a b = true <-> lex (fkey a) (fkey b) <> Gt.
Proof.
  intros Ha Hb. unfold fleb, SFleb. rewrite SFcompare_lex by done.
  destruct (lex (fkey a) (fkey b)); done.
Qed.

Lemma fleb_trans a b c : fleb a b = true -> fleb b c = true -> fleb a c = true.
Proof.
  intros H1 H2. destruct (fleb_not_nan _ _ H1) as [Ha Hb]. destruct (fleb_not_nan _ _ H2) as [_ Hc].
  apply fleb_lex in H1; [|done..]. apply fleb_lex in H2; [|done..]. apply fleb_lex; [done..|].
  by eapply lex_trans_le.
Qed.

Lemma fltb_not_fleb a b : is_nan a = false -> is_nan b = false -> fltb a b = negb (fleb b a).
Proof. intros Ha Hb. rewrite (fleb_negb_fltb a b) by done. by rewrite negb_involutive. Qed.

(** A value at or above one that is not below the cut is not below it either. *)
Lemma fltb_mono_l a b c : fleb a b = true -> fltb a c = false -> fltb b c = false.
Proof.
  intros Hab Hac. destruct (is_nan c) eqn:Hc; [destruct c; try discriminate; apply fltb_nan_r|].
  destruct (fleb_not_nan _ _ Hab) as [Ha Hb].
  rewrite fltb_not_fleb in * by done. apply negb_false_iff in Hac. apply negb_false_iff.
  by eapply fleb_trans.
Qed.

(** ** Signs: sums of non-negative floats are non-negative, never NaN *)

Definition nonneg (x : float) : bool :=
  match x with
  | S754_zero s | S754_infinity s => negb s
  | S754_finite s _ _ => negb s
  | S754_nan => false
  end.

Lemma shr_1_nonneg mrs : 0 <= shr_m mrs -> 0 <= shr_m (shr_1 mrs).
Proof. destruct mrs as [[|[p|p|]|p] r s]; simpl; lia. Qed.

Lemma iter_shr_nonneg p mrs : 0 <= shr_m mrs -> 0 <= shr_m (@SpecFloat.iter_pos _ shr_1 p mrs).
Proof.
  revert mrs. induction p as [p IH|p IH|]; intros mrs H; simpl;
    auto using shr_1_nonneg.
Qed.

Lemma shr_fexp_nonneg m e l : 0 <= m -> 0 <= shr_m (fst (shr_fexp prec emax m e l)).
Proof.
  intros Hm. unfold shr_fexp, shr.
  assert (H : 0 <= shr_m (shr_record_of_loc m l)) by (destruct l as [|[]]; done).
  destruct (_ - _); simpl; auto using iter_shr_nonneg.
Qed.

Lemma round_ne_nonneg m l : 0 <= m -> 0 <= round_nearest_even m l.
Proof. intros Hm. destruct l as [|[]]; simpl; cases_if; lia. Qed.

Lemma binary_round_aux_nonneg m e l : 0 <= m -> nonneg (binary_round_aux prec emax false m e l) = true.
Proof.
  intros Hm. unfold binary_round_aux.
  destruct (shr_fexp prec emax m e l) as [mrs' e'] eqn:E1.
  assert (H1 : 0 <= shr_m mrs').
  { pose proof (shr_fexp_nonneg m e l Hm) as H. by rewrite E1 in H. }
  destruct (shr_fexp prec emax (round_nearest_even _ _) e' loc_Exact) as [mrs'' e''] eqn:E2.
  assert (H2 : 0 <= shr_m mrs'').
  { pose proof (shr_fexp_nonneg _ e' loc_Exact (round_ne_nonneg _ (loc_of_shr_record mrs') H1)) as H.
    by rewrite E2 in H. }
  destruct (shr_m mrs''); [done| |lia]. by destruct (_ <=? _).
Qed.

Lemma binary_normalize_nonneg m e : 0 <= m -> nonneg (binary_normalize prec emax m e false) = true.
Proof.
  intros Hm. destruct m as [|p|p]; [done| |lia].
  unfold binary_normalize, binary_round. destruct (shl_align _ _ _) as [mz ez].
  apply binary_round_aux_nonneg. lia.
Qed.

Lemma fadd_nonneg x y : nonneg x = true -> nonneg y = true -> nonneg (fadd x y) = true.
Proof.
  destruct x as [[]|[]| |[] mx ex], y as [[]|[]| |[] my ey]; try discriminate; try done.
  intros _ _. unfold fadd, SFadd. apply binary_normalize_nonneg.
  unfold cond_Zopp. lia.
Qed.

Lemma nonneg_not_nan x : nonneg x = true -> is_nan x = false.
Proof. by destruct x. Qed.

Lemma nonneg_ge0 x : nonneg x = true -> fleb f_zero x = true.
Proof. by destruct x as [[]|[]| |[] m e]. Qed.

#[export] Hint Resolve fltb_fleb fleb_refl fadd_nonneg nonneg_not_nan nonneg_ge0 : tarka.
