(* ===== verification/PyValue.v ===== *)
(** Python values as the program sees them: the JSON data model.

    [pyval] is what [json.loads] returns and what request payloads, rule packs
    and feature maps are made of.  A [dict] is an association list in insertion
    order with string keys, read with [get] (first match) and written with
    [dict_set] (overwrite in place, else append), so key uniqueness is an
    invariant of the operations ([dict_wf]). *)

From Stdlib Require Import ZArith Lia Ascii String Bool.
From stdpp Require Import base option list sorting strings sets.
From S2P Require Import Prelude PyFloat.
From Stdlib Require Import SpecFloat.
Local Open Scope Z_scope.

Inductive pyval : Type :=
| PNone
| PBool (b : bool)
| PInt (n : Z)
| PFloat (f : float)
| PStr (s : string)
| PList (l : list pyval)
| PDict (d : list (string * pyval)).

Abbreviation dict := (list (string * pyval)).

(** Nested induction principle. *)
Section pyval_rect.
Context (P : pyval -> Prop).
Hypothesis HNone : P PNone.
Hypothesis HBool : forall b, P (PBool b).
Hypothesis HInt : forall n, P (PInt n).
Hypothesis HFloat : forall f, P (PFloat f).
Hypothesis HStr : forall s, P (PStr s).
Hypothesis HList : forall l, Forall P l -> P (PList l).
Hypothesis HDict : forall d, Forall (fun kv => P kv.2) d -> P (PDict d).

Fixpoint pyval_nested_ind (v : pyval) : P v :=
  match v with
  | PNone => HNone
  | PBool b => HBool b
  | PInt n => HInt n
  | PFloat f => HFloat f
  | PStr s => HStr s
  | PList l =>
      HList l ((fix go (l : list pyval) : Forall P l :=
                  match l with
                  | [] => List.Forall_nil P
                  | x :: l' => List.Forall_cons P x l' (pyval_nested_ind x) (go l')
                  end) l)
  | PDict d =>
      HDict d ((fix go (d : list (string * pyval)) : Forall (fun kv => P kv.2) d :=
                  match d with
                  | [] => List.Forall_nil _
                  | kv :: d' =>
                      List.Forall_cons (fun kv => P kv.2) kv d' (pyval_nested_ind kv.2) (go d')
                  end) d)
  end.
End pyval_rect.

(** * Dictionaries *)

(** [d.get(k)] as an option: [None] when the key is absent. *)
Fixpoint dict_lookup (k : string) (d : dict) : option pyval :=
  match d with
  | [] => None
  | (k', v) :: d' => if bool_decide (k = k') then Some v else dict_lookup k d'
  end.

(** [d.get(k, dflt)]; [d.get(k)] is [get d k PNone]. *)
Definition get (d : dict) (k : string) (dflt : pyval) : pyval :=
  default dflt (dict_lookup k d).

Definition has_key (d : dict) (k : string) : bool :=
  match dict_lookup k d with Some _ => true | None => false end.

(** [d[k] = v]. *)
Fixpoint dict_set (k : string) (v : pyval) (d : dict) : dict :=
  match d with
  | [] => [(k, v)]
  | (k', v') :: d' => if bool_decide (k = k') then (k, v) :: d' else (k', v') :: dict_set k v d'
  end.

(** [d.setdefault(k, v)], as an update. *)
Definition dict_setdefault (k : string) (v : pyval) (d : dict) : dict :=
  if has_key d k then d else dict_set k v d.

Definition dict_keys (d : dict) : list string := d.*1.

Definition dict_wf (d : dict) : Prop := NoDup (dict_keys d).

(** * Truth and text *)

(** [bool(v)]. *)
Definition truthy (v : pyval) : bool :=
  match v with
  | PNone => false
  | PBool b => b
  | PInt n => negb (n =? 0)
  | PFloat f => f_truthy f
  | PStr s => nonempty s
  | PList l => match l with [] => false | _ => true end
  | PDict d => match d with [] => false | _ => true end
  end.

(** [a or b]. *)
Definition por (a b : pyval) : pyval := if truthy a then a else b.

Definition is_none (v : pyval) : bool := match v with PNone => true | _ => false end.
Definition is_true (v : pyval) : bool := match v with PBool true => true | _ => false end.
Definition is_false (v : pyval) : bool := match v with PBool false => true | _ => false end.
Definition is_list (v : pyval) : bool := match v with PList _ => true | _ => false end.
Definition is_str (v : pyval) : bool := match v with PStr _ => true | _ => false end.
Definition is_dict (v : pyval) : bool := match v with PDict _ => true | _ => false end.

(** A value used as a mapping after an [isinstance(v, dict)] test; [{}] otherwise. *)
Definition as_dict (v : pyval) : dict := match v with PDict d => d | _ => [] end.
(** A value used as a list after an [isinstance(v, list)] test; [[]] otherwise. *)
Definition as_list (v : pyval) : list pyval := match v with PList l => l | _ => [] end.

(** ** [repr] of a string *)

Definition quote1 : ascii := "'"%char.
Definition quote2 : ascii := ascii_of_N 34.
Definition backslash : ascii := ascii_of_N 92.

Definition hex_digit (n : N) : ascii :=
  if (n <? 10)%N then ascii_of_N (48 + n) else ascii_of_N (87 + n).

Definition hex2 (n : N) : string :=
  String (hex_digit (n / 16)) (String (hex_digit (n mod 16)) EmptyString).

(** [str.isprintable] below 256. *)
Definition printable (n : N) : bool :=
  ((32 <=? n)%N && (n <=? 126)%N) || ((161 <=? n)%N && negb (n =? 173)%N).

Definition repr_char (q c : ascii) : string :=
  let n := code c in
  if Ascii.eqb c q || Ascii.eqb c backslash then String backslash (String c EmptyString)
  else if (n =? 10)%N then String backslash "n"
  else if (n =? 13)%N then String backslash "r"
  else if (n =? 9)%N then String backslash "t"
  else if printable n then String c EmptyString
  else String backslash (String "x"%char (hex2 n)).

Fixpoint has_char (c : ascii) (s : string) : bool :=
  match s with
  | EmptyString => false
  | String c' s' => Ascii.eqb c c' || has_char c s'
  end.

(** Single quotes, unless the text has a single quote and no double quote. *)
Definition repr_str (s : string) : string :=
  let q := if has_char quote1 s && negb (has_char quote2 s) then quote2 else quote1 in
  String q (sflat (repr_char q) s +:+ String q EmptyString).

(** ** [repr] and [str] *)

Fixpoint sjoin (sep : string) (l : list string) : string :=
  match l with
  | [] => EmptyString
  | [x] => x
  | x :: l' => x +:+ sep +:+ sjoin sep l'
  end.

Fixpoint py_repr (v : pyval) : string :=
  match v with
  | PNone => "None"
  | PBool b => if b then "True" else "False"
  | PInt n => Z_to_string n
  | PFloat f => f_repr f
  | PStr s => repr_str s
  | PList l => "[" +:+ sjoin ", " (map py_repr l) +:+ "]"
  | PDict d =>
      "{" +:+ sjoin ", " (map (fun kv => repr_str kv.1 +:+ ": " +:+ py_repr kv.2) d) +:+ "}"
  end.

(** [str(v)]: like [repr] except that a string is itself. *)
Definition py_str (v : pyval) : string := match v with PStr s => s | _ => py_repr v end.

(** [str(v or "")]. *)
Definition str_or_empty (v : pyval) : string := py_str (por v (PStr "")).

(** ** [json.dumps] *)

Record dump_opts : Type := DumpOpts {
  sort_keys : bool;
  compact : bool;      (** [separators=(",", ":")] *)
  ensure_ascii : bool;
}.

Definition json_char (ascii_only : bool) (c : ascii) : string :=
  let n := code c in
  if Ascii.eqb c quote2 || Ascii.eqb c backslash then String backslash (String c EmptyString)
  else if (n =? 10)%N then String backslash "n"
  else if (n =? 13)%N then String backslash "r"
  else if (n =? 9)%N then String backslash "t"
  else if (n =? 8)%N then String backslash "b"
  else if (n =? 12)%N then String backslash "f"
  else if (n <? 32)%N || (ascii_only && (126 <? n)%N)
       then String backslash (String "u"%char (String "0"%char (String "0"%char (hex2 n))))
  else String c EmptyString.

Definition json_str (ascii_only : bool) (s : string) : string :=
  String quote2 (sflat (json_char ascii_only) s +:+ String quote2 EmptyString).

Definition json_float (f : float) : string :=
  match f with
  | S754_nan => "NaN"
  | S754_infinity s => if s then "-Infinity" else "Infinity"
  | _ => f_repr f
  end.

Definition key_le (a b : string * string) : Prop := String.le a.1 b.1.
#[export] Instance key_le_dec : RelDecision key_le.
Proof. intros a b. apply _. Defined.

Fixpoint json_dumps (o : dump_opts) (v : pyval) : string :=
  let comma := if o.(compact) then "," else ", " in
  let colon := if o.(compact) then ":" else ": " in
  match v with
  | PNone => "null"
  | PBool b => if b then "true" else "false"
  | PInt n => Z_to_string n
  | PFloat f => json_float f
  | PStr s => json_str o.(ensure_ascii) s
  | PList l => "[" +:+ sjoin comma (map (json_dumps o) l) +:+ "]"
  | PDict d =>
      let items := map (fun kv => (kv.1, json_dumps o kv.2)) d in
      let items := if o.(sort_keys) then merge_sort key_le items else items in
      "{" +:+ sjoin comma (map (fun kv => json_str o.(ensure_ascii) kv.1 +:+ colon +:+ kv.2) items)
          +:+ "}"
  end.

(** Whether a value holds a NaN or an infinity ([allow_nan=False] refuses it). *)
Fixpoint has_nonfinite (v : pyval) : bool :=
  match v with
  | PFloat f => is_nan f || is_inf f
  | PList l => existsb has_nonfinite l
  | PDict d => existsb (fun kv => has_nonfinite kv.2) d
  | _ => false
  end.

(** * Numeric conversions *)

(** [float(v)]. *)
Definition py_float (v : pyval) : result float :=
  match v with
  | PBool b => Ok (if b then litZ 1 else f_zero)
  | PInt n => f_of_Z n
  | PFloat f => Ok f
  | PStr s => f_of_string s
  | _ => Err TypeError
  end.

(** [int(v)]. *)
Definition py_int (v : pyval) : result Z :=
  match v with
  | PBool b => Ok (if b then 1 else 0)
  | PInt n => Ok n
  | PFloat f => f_trunc f
  | PStr s => Z_of_string s
  | _ => Err TypeError
  end.

(** * Equality [a == b] *)

Definition num_eqb (a b : pyval) : bool :=
  let zf n f := match cmp_Z_float n f with Some Eq => true | _ => false end in
  let bz (b : bool) : Z := if b then 1 else 0 in
  match a, b with
  | PBool x, PBool y => Bool.eqb x y
  | PBool x, PInt n | PInt n, PBool x => bz x =? n
  | PInt n, PInt m => n =? m
  | PInt n, PFloat f | PFloat f, PInt n => zf n f
  | PBool x, PFloat f | PFloat f, PBool x => zf (bz x) f
  | PFloat f, PFloat g => feqb f g
  | _, _ => false
  end.

Fixpoint py_eq (a b : pyval) {struct a} : bool :=
  match a, b with
  | PNone, PNone => true
  | PStr s, PStr t => bool_decide (s = t)
  | PList l1, PList l2 =>
      (fix go (l1 l2 : list pyval) : bool :=
         match l1, l2 with
         | [], [] => true
         | x :: l1', y :: l2' => py_eq x y && go l1' l2'
         | _, _ => false
         end) l1 l2
  | PDict d1, PDict d2 =>
      Nat.eqb (length d1) (length d2) &&
      (fix go (d1 : dict) : bool :=
         match d1 with
         | [] => true
         | (k, v) :: d1' =>
             match dict_lookup k d2 with Some w => py_eq v w | None => false end && go d1'
         end) d1
  | _, _ => num_eqb a b
  end.

(** [v == "text"]. *)
Definition eq_str (v : pyval) (s : string) : bool := py_eq v (PStr s).

(** [v in l] for a list [l]. *)
Definition py_in (v : pyval) (l : list pyval) : bool := existsb (fun x => py_eq v x) l.

(** Iteration [for x in v]: a list's elements, a string's characters, a dict's keys. *)
Fixpoint chars (s : string) : list pyval :=
  match s with
  | EmptyString => []
  | String c s' => PStr (String c EmptyString) :: chars s'
  end.

Definition py_iter (v : pyval) : result (list pyval) :=
  match v with
  | PList l => Ok l
  | PStr s => Ok (chars s)
  | PDict d => Ok (map PStr (dict_keys d))
  | _ => Err TypeError
  end.

(** [for x in (v or [])]. *)
Definition iter_or_empty (v : pyval) : result (list pyval) :=
  if truthy v then py_iter v else Ok [].

(** [str(a or b or ... or "").strip()], the first truthy candidate. *)
Fixpoint first_truthy (vs : list pyval) : pyval :=
  match vs with
  | [] => PStr ""
  | v :: vs' => if truthy v then v else first_truthy vs'
  end.

Definition str_list (l : list string) : pyval := PList (map PStr l).

(** [{**d, **e}] / [d.update(e)]. *)
Definition dict_update (d e : dict) : dict :=
  foldl (fun acc kv => dict_set kv.1 kv.2 acc) d e.

(** * Dictionary lemmas *)

Lemma str_or_empty_str s : str_or_empty (PStr s) = s.
Proof. by destruct s. Qed.

Lemma dict_lookup_set k k' v d :
  dict_lookup k (dict_set k' v d) = if bool_decide (k = k') then Some v else dict_lookup k d.
Proof.
  induction d as [|[k0 v0] d IH]; simpl.
  - by case_bool_decide.
  - destruct (bool_decide_reflect (k' = k0)) as [->|Hne]; simpl.
    + by case_bool_decide.
    + destruct (bool_decide_reflect (k = k0)) as [->|Hne']; [|done].
      by rewrite bool_decide_eq_false_2 by congruence.
Qed.

Lemma get_set_eq k v d dflt : get (dict_set k v d) k dflt = v.
Proof. unfold get. by rewrite dict_lookup_set, bool_decide_eq_true_2. Qed.

Lemma get_set_ne k k' v d dflt : k <> k' -> get (dict_set k' v d) k dflt = get d k dflt.
Proof. intros H. unfold get. by rewrite dict_lookup_set, bool_decide_eq_false_2. Qed.

Lemma has_key_set k k' v d :
  has_key (dict_set k' v d) k = bool_decide (k = k') || has_key d k.
Proof. unfold has_key. rewrite dict_lookup_set. by case_bool_decide. Qed.

Lemma dict_lookup_None k d : dict_lookup k d = None <-> k ∉ dict_keys d.
Proof.
  induction d as [|[k0 v0] d IH]; simpl; [set_solver|].
  case_bool_decide; [set_solver|]. rewrite IH. set_solver.
Qed.

Lemma dict_set_keys k v d :
  dict_keys (dict_set k v d) = if has_key d k then dict_keys d else dict_keys d ++ [k].
Proof.
  unfold has_key. induction d as [|[k0 v0] d IH]; simpl; [done|].
  case_bool_decide; simpl; [by subst|].
  rewrite IH. by destruct (dict_lookup k d).
Qed.

(** Writing preserves key uniqueness. *)
Lemma dict_set_wf k v d : dict_wf d -> dict_wf (dict_set k v d).
Proof.
  unfold dict_wf. rewrite dict_set_keys. unfold has_key.
  destruct (dict_lookup k d) eqn:E; [done|]. apply dict_lookup_None in E. intros Hnd.
  apply NoDup_app. split; [done|]. split; [set_solver|apply NoDup_singleton].
Qed.

Lemma dict_update_wf d e : dict_wf d -> dict_wf (dict_update d e).
Proof.
  unfold dict_update. revert d.
  induction e as [|[k v] e IH]; intros d Hd; simpl; auto using dict_set_wf.
Qed.

Lemma has_key_update d e k : has_key (dict_update d e) k = has_key d k || has_key e k.
Proof.
  unfold dict_update. revert d. induction e as [|[k0 v0] e IH]; intros d; simpl.
  - by rewrite orb_false_r.
  - rewrite IH, has_key_set. unfold has_key. simpl.
    case_bool_decide; destruct (dict_lookup k d), (dict_lookup k e); done.
Qed.

#[export] Hint Rewrite get_set_eq : tarka.
#[export] Hint Resolve dict_set_wf dict_update_wf : tarka.
