(* ===== verification/Sha256.v ===== *)
(** [hashlib.sha256(text.encode("utf-8")).hexdigest()].

    FIPS 180-4 on 32-bit words kept as [Z] with the wrap-around written out,
    with the UTF-8 encoding of the code points below 256 that a [string] holds.
    The rollout buckets and the idempotent action ids are built on it. *)

From Stdlib Require Import ZArith Lia Ascii String Bool.
From stdpp Require Import base option list strings.
From S2P Require Import Prelude PyFloat PyValue.
Local Open Scope Z_scope.

Definition w32 (x : Z) : Z := Z.land x 4294967295.

Definition rotr (n x : Z) : Z := Z.lor (Z.shiftr x n) (w32 (Z.shiftl x (32 - n))).

Definition ch (x y z : Z) : Z := Z.lxor (Z.land x y) (Z.land (Z.lxor x 4294967295) z).
Definition maj (x y z : Z) : Z := Z.lxor (Z.lxor (Z.land x y) (Z.land x z)) (Z.land y z).
Definition bsig0 (x : Z) : Z := Z.lxor (Z.lxor (rotr 2 x) (rotr 13 x)) (rotr 22 x).
Definition bsig1 (x : Z) : Z := Z.lxor (Z.lxor (rotr 6 x) (rotr 11 x)) (rotr 25 x).
Definition ssig0 (x : Z) : Z := Z.lxor (Z.lxor (rotr 7 x) (rotr 18 x)) (Z.shiftr x 3).
Definition ssig1 (x : Z) : Z := Z.lxor (Z.lxor (rotr 17 x) (rotr 19 x)) (Z.shiftr x 10).

Definition primes : list Z :=
  [2; 3; 5; 7; 11; 13; 17; 19; 23; 29; 31; 37; 41; 43; 47; 53; 59; 61; 67; 71; 73; 79; 83; 89; 97;
   101; 103; 107; 109; 113; 127; 131; 137; 139; 149; 151; 157; 163; 167; 173; 179; 181; 191; 193;
   197; 199; 211; 223; 227; 229; 233; 239; 241; 251; 257; 263; 269; 271; 277; 281; 283; 293; 307; 311].

(** Integer cube root by binary digits: [bits] rounds from [r]. *)
Fixpoint cbrt_bits (bits : nat) (n r : Z) : Z :=
  match bits with
  | O => r
  | S b => let r' := r + 2 ^ Z.of_nat b in
           if r' * r' * r' <=? n then cbrt_bits b n r' else cbrt_bits b n r
  end.

(** The first 32 fractional bits of the cube roots of the first 64 primes. *)
Definition K256 : list Z :=
  Eval vm_compute in map (fun p => w32 (cbrt_bits 36 (p * 2 ^ 96) 0)) primes.

Record hstate : Type := HState {
  ha : Z; hb : Z; hc : Z; hd : Z; he : Z; hf : Z; hg : Z; hh : Z }.

(** The first 32 fractional bits of the square roots of the first 8 primes. *)
Definition H0 : hstate :=
  Eval vm_compute in
    (let r p := w32 (Z.sqrt (p * 2 ^ 64)) in HState (r 2) (r 3) (r 5) (r 7) (r 11) (r 13) (r 17) (r 19)).

(** Message schedule, newest word first: [W_t] from [W_(t-2)], [W_(t-7)],
    [W_(t-15)] and [W_(t-16)]. *)
Definition nthz (l : list Z) (n : nat) : Z := default 0 (l !! n).

Fixpoint schedule (n : nat) (ws : list Z) : list Z :=
  match n with
  | O => ws
  | S n' =>
      let w := w32 (ssig1 (nthz ws 1) + nthz ws 6 + ssig0 (nthz ws 14) + nthz ws 15) in
      schedule n' (w :: ws)
  end.

Definition round (s : hstate) (kw : Z * Z) : hstate :=
  let t1 := hh s + bsig1 (he s) + ch (he s) (hf s) (hg s) + kw.1 + kw.2 in
  let t2 := bsig0 (ha s) + maj (ha s) (hb s) (hc s) in
  HState (w32 (t1 + t2)) (ha s) (hb s) (hc s) (w32 (hd s + t1)) (he s) (hf s) (hg s).

Definition compress (s : hstate) (block : list Z) : hstate :=
  let ws := reverse (schedule 48 (reverse block)) in
  let r := foldl round s (zip K256 ws) in
  HState (w32 (ha s + ha r)) (w32 (hb s + hb r)) (w32 (hc s + hc r)) (w32 (hd s + hd r))
         (w32 (he s + he r)) (w32 (hf s + hf r)) (w32 (hg s + hg r)) (w32 (hh s + hh r)).

(** Bytes to big-endian words, words to blocks of sixteen. *)
Fixpoint words_of (bs : list Z) : list Z :=
  match bs with
  | a :: b :: c :: d :: r => (((a * 256 + b) * 256 + c) * 256 + d) :: words_of r
  | _ => []
  end.

Fixpoint blocks (fuel : nat) (ws : list Z) : list (list Z) :=
  match fuel with
  | O => []
  | S fuel' => match ws with [] => [] | _ => take 16 ws :: blocks fuel' (drop 16 ws) end
  end.

Definition be_bytes8 (n : Z) : list Z :=
  map (fun k => Z.land (Z.shiftr n k) 255) [56; 48; 40; 32; 24; 16; 8; 0].

Definition pad (bs : list Z) : list Z :=
  let len := Z.of_nat (length bs) in
  bs ++ [128] ++ replicate (Z.to_nat ((55 - len) mod 64)) 0 ++ be_bytes8 (len * 8).

Fixpoint utf8 (s : string) : list Z :=
  match s with
  | EmptyString => []
  | String c s' =>
      let n := Z.of_N (code c) in
      if n <? 128 then n :: utf8 s'
      else Z.lor 192 (Z.shiftr n 6) :: Z.lor 128 (Z.land n 63) :: utf8 s'
  end.

Definition hex8 (n : Z) : string :=
  hex2 (Z.to_N (Z.land (Z.shiftr n 24) 255)) +:+ hex2 (Z.to_N (Z.land (Z.shiftr n 16) 255))
  +:+ hex2 (Z.to_N (Z.land (Z.shiftr n 8) 255)) +:+ hex2 (Z.to_N (Z.land n 255)).

Definition sha256_bytes (bs : list Z) : hstate :=
  let ws := words_of (pad bs) in foldl compress H0 (blocks (length ws) ws).

Definition hex_of (h : hstate) : string :=
  hex8 (ha h) +:+ hex8 (hb h) +:+ hex8 (hc h) +:+ hex8 (hd h)
  +:+ hex8 (he h) +:+ hex8 (hf h) +:+ hex8 (hg h) +:+ hex8 (hh h).

(** [hashlib.sha256(s.encode("utf-8")).hexdigest()]. *)
Definition sha256_hex (s : string) : string := hex_of (sha256_bytes (utf8 s)).

(** [int(h, 16)] on lower-case hexadecimal text. *)
Definition hex_val (c : ascii) : Z :=
  let n := Z.of_N (code c) in if n <? 58 then n - 48 else n - 87.

Fixpoint int16 (acc : Z) (s : string) : Z :=
  match s with EmptyString => acc | String c s' => int16 (acc * 16 + hex_val c) s' end.

(** FIPS 180-4 test vectors. *)
Example sha256_abc :
  sha256_hex "abc" = "ba7816bf8f01cfea414140de5dae2223b00361a396177a9cb410ff61f20015ad".
Proof. vm_compute. reflexivity. Qed.

Example sha256_two_blocks :
  sha256_hex "abcdbcdecdefdefgefghfghighijhijkijkljklmklmnlmnomnopnopq"
  = "248d6a61d20638b8e5c026930c3e6039a33ce45964ff2167f6ecedd419db06c1".
Proof. vm_compute. reflexivity. Qed.

(** The digest is always 64 characters. *)
Lemma hex8_length n : String.length (hex8 n) = 8%nat.
Proof. reflexivity. Qed.

Lemma sha256_hex_length s : String.length (sha256_hex s) = 64%nat.
Proof. unfold sha256_hex, hex_of. by rewrite !length_sapp, !hex8_length. Qed.

(** Its characters are lower-case hexadecimal digits, so it is already
    stripped and case-folded. *)
Definition is_hex (c : ascii) : bool :=
  let n := code c in ((48 <=? n) && (n <=? 57))%N || ((97 <=? n) && (n <=? 102))%N.

Definition hex2_table : bool :=
  forallb (fun n => all_chars is_hex (hex2 (N.of_nat n))) (seq 0 256).

Lemma hex2_hex n : 0 <= n < 256 -> all_chars is_hex (hex2 (Z.to_N n)) = true.
Proof.
  intros Hn. assert (H : hex2_table = true) by (vm_compute; reflexivity).
  pose proof (proj1 (forallb_forall _ _) H (Z.to_nat n) ltac:(apply in_seq; lia)) as Hx.
  replace (Z.to_N n) with (N.of_nat (Z.to_nat n)) by lia. exact Hx.
Qed.

Lemma land255 n : 0 <= Z.land n 255 < 256.
Proof. change 255 with (Z.ones 8). rewrite Z.land_ones by lia. apply Z.mod_pos_bound. lia. Qed.

Lemma hex8_hex n : all_chars is_hex (hex8 n) = true.
Proof. unfold hex8. rewrite !all_chars_app, !hex2_hex by apply land255. done. Qed.

Lemma sha256_hex_hex s : all_chars is_hex (sha256_hex s) = true.
Proof. unfold sha256_hex, hex_of. by rewrite !all_chars_app, !hex8_hex. Qed.

Lemma is_hex_plain c : is_hex c = true -> is_space c = false /\ lower_char c = c.
Proof.
  assert (H : implb (is_hex c) (negb (is_space c) && Ascii.eqb (lower_char c) c) = true).
  { revert c. apply (all_ascii (fun c => implb (is_hex c) (negb (is_space c) && Ascii.eqb (lower_char c) c))).
    vm_compute. reflexivity. }
  intros Hc. rewrite Hc in H. apply andb_prop in H as [H1 H2%Ascii.eqb_eq]. by apply negb_true_iff in H1.
Qed.

Lemma sha256_strip s : strip (sha256_hex s) = sha256_hex s.
Proof.
  apply strip_id. eapply all_chars_impl; [|apply sha256_hex_hex].
  intros c Hc. by destruct (is_hex_plain c Hc) as [-> _].
Qed.

Lemma sha256_lower s : lower (sha256_hex s) = sha256_hex s.
Proof.
  apply lower_id. eapply all_chars_impl; [|apply sha256_hex_hex].
  intros c Hc. destruct (is_hex_plain c Hc) as [_ ->]. apply Ascii.eqb_refl.
Qed.

Lemma sha256_nonempty s : nonempty (sha256_hex s) = true.
Proof. pose proof (sha256_hex_length s) as H. by destruct (sha256_hex s). Qed.

#[export] Hint Rewrite sha256_strip sha256_lower sha256_nonempty : tarka.
