(* ===== verification/PyDateTime.v ===== *)
(** Python [datetime] values and the two parsers the program uses:
    [datetime.fromisoformat] (Python 3.11 and later) and
    [datetime.strptime(s, "%Y-%m-%dT%H:%M:%S")].

    A [datetime] is its wall-clock reading in microseconds since 1970-01-01 and
    its UTC offset, absent when it is naive. *)

From Stdlib Require Import ZArith Lia Ascii String Bool.
From stdpp Require Import base option list strings.
From S2P Require Import Prelude PyFloat PyValue.
Local Open Scope Z_scope.

Record datetime : Type := DateTime { dt_wall : Z; dt_offset : option Z }.

(** [dt.replace(tzinfo=utc)] when naive. *)
Definition assume_utc (d : datetime) : datetime :=
  match d.(dt_offset) with None => DateTime d.(dt_wall) (Some 0) | Some _ => d end.

(** The instant on the UTC line, in microseconds; naive readings count as UTC. *)
Definition instant (d : datetime) : Z := d.(dt_wall) - default 0 d.(dt_offset).

(** ** Calendar *)

Definition leap (y : Z) : bool :=
  (y mod 4 =? 0) && (negb (y mod 100 =? 0) || (y mod 400 =? 0)).

Definition days_in_month (y m : Z) : Z :=
  if m =? 2 then (if leap y then 29 else 28)
  else if (m =? 4) || (m =? 6) || (m =? 9) || (m =? 11) then 30 else 31.

(** Days since 1970-01-01 of a proleptic Gregorian date. *)
Definition days_from_civil (y m d : Z) : Z :=
  let y' := if m <=? 2 then y - 1 else y in
  let era := y' / 400 in
  let yoe := y' - era * 400 in
  let mp := (m + 9) mod 12 in
  let doy := (153 * mp + 2) / 5 + d - 1 in
  era * 146097 + yoe * 365 + yoe / 4 - yoe / 100 + doy - 719468.

Definition valid_date (y m d : Z) : bool :=
  (1 <=? y) && (y <=? 9999) && (1 <=? m) && (m <=? 12) && (1 <=? d) && (d <=? days_in_month y m).

(** ISO week date to days; [None] is [ValueError]. *)
Definition isoweek_days (y w d : Z) : option Z :=
  let jan1 := days_from_civil y 1 1 in
  let wd := (jan1 + 3) mod 7 in
  let week1 := if wd <=? 3 then jan1 - wd else jan1 + (7 - wd) in
  let long := (wd =? 3) || ((wd =? 2) && leap y) in
  if (1 <=? y) && (y <=? 9999) && (1 <=? d) && (d <=? 7)
     && (((1 <=? w) && (w <=? 52)) || ((w =? 53) && long))
  then Some (week1 + (w - 1) * 7 + (d - 1)) else None.

(** ** ISO 8601 *)

(** The digits of a non-empty all-digit text. *)
Fixpoint digits_go (s : string) (acc : Z) : option Z :=
  match s with
  | EmptyString => Some acc
  | String c s' => match digit_val c with Some v => digits_go s' (acc * 10 + v) | None => None end
  end.
Definition digits (s : string) : option Z := if nonempty s then digits_go s 0 else None.

Definition sub (i n : nat) (s : string) : string := str_take n (str_drop i s).
Definition char_at (i : nat) (s : string) : option ascii := String.get i s.
Definition is_at (i : nat) (c : ascii) (s : string) : bool :=
  match char_at i s with Some d => Ascii.eqb c d | None => false end.
Definition digit_at (i : nat) (s : string) : bool :=
  match char_at i s with Some d => bool_decide (is_Some (digit_val d)) | None => false end.

Fixpoint digit_run (s : string) : nat :=
  match s with
  | EmptyString => O
  | String c s' => match digit_val c with Some _ => S (digit_run s') | None => O end
  end.

(** [_find_isoformat_datetime_separator]. *)
Definition find_separator (s : string) : option nat :=
  let len := String.length s in
  if Nat.ltb len 7 then None
  else if Nat.eqb len 7 then Some 7%nat
  else if is_at 4 "-" s then
    if is_at 5 "W" s then
      if Nat.ltb 8 len && is_at 8 "-" s then
        if Nat.eqb len 9 then None
        else if Nat.ltb 10 len && digit_at 10 s then Some 8%nat else Some 10%nat
      else Some 8%nat
    else Some 10%nat
  else if is_at 4 "W" s then
    let index := (7 + digit_run (str_drop 7 s))%nat in
    if Nat.ltb index 9 then Some index
    else if Nat.even index then Some 7%nat else Some 8%nat
  else Some 8%nat.

(** [_parse_isoformat_date]: days since the epoch. *)
Definition parse_date (s : string) : option Z :=
  let has_sep := is_at 4 "-" s in
  let pos := if has_sep then 5%nat else 4%nat in
  match digits (sub 0 4 s) with
  | None => None
  | Some y =>
      if is_at pos "W" s then
        match digits (sub (pos + 1) 2 s) with
        | None => None
        | Some w =>
            if Nat.ltb 2 (String.length (sub (pos + 1) 2 s)) then None
            else
              let p := (pos + 3)%nat in
              if Nat.ltb p (String.length s) then
                if Bool.eqb (is_at p "-" s) has_sep then
                  match digits (sub (p + (if has_sep then 1 else 0))%nat 1 s) with
                  | Some d => isoweek_days y w d
                  | None => None
                  end
                else None
              else isoweek_days y w 1
        end
      else
        match digits (sub pos 2 s) with
        | Some m =>
            let p := (pos + 2)%nat in
            if Bool.eqb (is_at p "-" s) has_sep then
              match digits (sub (p + (if has_sep then 1 else 0))%nat 2 s) with
              | Some d => if valid_date y m d && Nat.eqb (String.length (sub pos 2 s)) 2
                             && Nat.eqb (String.length (sub (p + (if has_sep then 1 else 0))%nat 2 s)) 2
                          then Some (days_from_civil y m d) else None
              | None => None
              end
            else None
        | None => None
        end
  end.

Definition two (s : string) : option Z :=
  if Nat.ltb (String.length s) 2 then None else digits (str_take 2 s).

(** Fraction digits: up to six count, any further ones must be digits. *)
Definition parse_fraction (s : string) : option Z :=
  let t := str_take 6 s in
  match digits t with
  | None => None
  | Some v =>
      let k := String.length t in
      if Nat.ltb 6 (String.length s) && negb (bool_decide (is_Some (digits (str_drop 6 s))))
      then None
      else Some (v * 10 ^ (6 - Z.of_nat k))
  end.

(** [_parse_hh_mm_ss_ff]: hours, minutes, seconds, microseconds. *)
Definition parse_hmsf (s : string) : option (Z * Z * Z * Z) :=
  let frac h m sec r :=
    match r with
    | EmptyString => Some (h, m, sec, 0)
    | String c r' =>
        if Ascii.eqb c "." || Ascii.eqb c ","
        then (fun f => (h, m, sec, f)) <$> parse_fraction r' else None
    end in
  match two s with
  | None => None
  | Some h =>
      match str_drop 2 s with
      | EmptyString => Some (h, 0, 0, 0)
      | String c r =>
          let has_sep := Ascii.eqb c ":" in
          let r1 := if has_sep then r else String c r in
          match two r1 with
          | None => None
          | Some m =>
              match str_drop 2 r1 with
              | EmptyString => Some (h, m, 0, 0)
              | String c2 r2 =>
                  if has_sep && negb (Ascii.eqb c2 ":") then None
                  else
                    let r3 := if has_sep then r2 else String c2 r2 in
                    match two r3 with
                    | None => None
                    | Some sec => frac h m sec (str_drop 2 r3)
                    end
              end
          end
      end
  end.

(** Position of the first occurrence. *)
Fixpoint find_char (c : ascii) (s : string) : option nat :=
  match s with
  | EmptyString => None
  | String d s' => if Ascii.eqb c d then Some O else S <$> find_char c s'
  end.

Definition tz_position (s : string) : option nat :=
  match find_char "-" s with
  | Some i => Some i
  | None => match find_char "+" s with
            | Some i => Some i
            | None => find_char "Z" s
            end
  end.

Definition hour_us : Z := 3600000000.
Definition minute_us : Z := 60000000.
Definition second_us : Z := 1000000.
Definition day_us : Z := 86400000000.

(** The readings of [datetime.min] and [datetime.max], in microseconds. *)
Definition dt_min : Z := days_from_civil 1 1 1 * day_us.
Definition dt_max : Z := days_from_civil 9999 12 31 * day_us + (day_us - 1).

(** [d + timedelta(microseconds=us)]: the offset is kept; [OverflowError]
    outside the representable years. *)
Definition add_delta (d : datetime) (us : Z) : result datetime :=
  let w := d.(dt_wall) + us in
  if (dt_min <=? w) && (w <=? dt_max) then Ok (DateTime w d.(dt_offset)) else Err OverflowError.

Definition hmsf_us (t : Z * Z * Z * Z) : Z :=
  let '(h, m, s, f) := t in h * hour_us + m * minute_us + s * second_us + f.

Definition valid_time (t : Z * Z * Z * Z) : bool :=
  let '(h, m, s, f) := t in (h <? 24) && (m <? 60) && (s <? 60).

(** [_parse_isoformat_time]: microseconds of the day and the UTC offset. *)
Definition parse_time (s : string) : option (Z * option Z) :=
  if Nat.ltb (String.length s) 2 then None
  else
    let pos := tz_position s in
    let timestr := match pos with Some i => str_take i s | None => s end in
    match parse_hmsf timestr with
    | None => None
    | Some t =>
        if negb (valid_time t) then None
        else match pos with
        | None => Some (hmsf_us t, None)
        | Some i =>
            let tz := str_drop (S i) s in
            if is_at i "Z" s then
              (if nonempty tz then None else Some (hmsf_us t, Some 0))
            else
              let n := String.length tz in
              if Nat.eqb n 0 || Nat.eqb n 1 || Nat.eqb n 3 then None
              else match parse_hmsf tz with
                   | None => None
                   | Some z =>
                       let us := hmsf_us z in
                       if day_us <=? us then None
                       else Some (hmsf_us t, Some (if is_at i "-" s then - us else us))
                   end
        end
    end.

(** [datetime.fromisoformat(s)]. *)
Definition fromisoformat (s : string) : result datetime :=
  match find_separator s with
  | None => Err ValueError
  | Some sep =>
      match parse_date (str_take sep s) with
      | None => Err ValueError
      | Some days =>
          let rest := str_drop (S sep) s in
          if Nat.leb (String.length s) sep then Ok (DateTime (days * day_us) None)
          else if negb (nonempty rest) then Err ValueError
          else match parse_time rest with
               | Some (us, off) => Ok (DateTime (days * day_us + us) off)
               | None => Err ValueError
               end
      end
  end.

(** ** [strptime(s, "%Y-%m-%dT%H:%M:%S")] *)

(** A one- or two-digit field in [lo..hi]. *)
Definition field12 (lo hi : Z) (s : string) : option Z :=
  match digits s with
  | Some v => if Nat.leb (String.length s) 2 && (lo <=? v) && (v <=? hi) then Some v else None
  | None => None
  end.

Definition strptime_iso (s : string) : result datetime :=
  let bad := Err ValueError in
  match find_char "T" s, find_char "t" s with
  | None, None => bad
  | a, b =>
      let i := match a with Some i => i | None => default O b end in
      match split_on "-" (str_take i s), split_on ":" (str_drop (S i) s) with
      | [ys; ms; ds], [hs; mins; ss] =>
          let ds' := match ds with String " " r => r | _ => ds end in
          match digits ys, field12 1 12 ms, field12 1 31 ds',
                field12 0 23 hs, field12 0 59 mins, field12 0 61 ss with
          | Some y, Some m, Some d, Some h, Some mi, Some se =>
              if Nat.eqb (String.length ys) 4 && valid_date y m d && (se <? 60)
              then Ok (DateTime (days_from_civil y m d * day_us + hmsf_us (h, mi, se, 0)) None)
              else bad
          | _, _, _, _, _, _ => bad
          end
      | _, _ => bad
      end
  end.

Example iso_z : rmap instant (fromisoformat "2024-02-29T12:30:15.25+05:30")
                = Ok (1709190015250000).
Proof. reflexivity. Qed.

(** ** [isoformat] *)

Definition civil_from_days (days : Z) : Z * Z * Z :=
  let z := days + 719468 in
  let era := z / 146097 in
  let doe := z - era * 146097 in
  let yoe := (doe - doe / 1460 + doe / 36524 - doe / 146096) / 365 in
  let doy := doe - (365 * yoe + yoe / 4 - yoe / 100) in
  let mp := (5 * doy + 2) / 153 in
  let d := doy - (153 * mp + 2) / 5 + 1 in
  let m := if mp <? 10 then mp + 3 else mp - 9 in
  (yoe + era * 400 + (if m <=? 2 then 1 else 0), m, d).

(** [n] in decimal, zero-padded to [width] digits. *)
Definition pad_int (width : nat) (n : Z) : string :=
  let s := Z_to_string n in zeros (width - String.length s) +:+ s.

(** [HH:MM:SS] with the microseconds when there are any. *)
Definition clock_str (us : Z) : string :=
  pad_int 2 (us / hour_us) +:+ ":" +:+ pad_int 2 (us / minute_us mod 60) +:+ ":" +:+ pad_int 2 (us / second_us mod 60)
    +:+ (if us mod second_us =? 0 then EmptyString else "." +:+ pad_int 6 (us mod second_us)).

(** [HH:MM], and the seconds when there are any. *)
Definition offset_str (off : Z) : string :=
  let us := Z.abs off in
  (if off <? 0 then "-" else "+") +:+ pad_int 2 (us / hour_us) +:+ ":" +:+ pad_int 2 (us / minute_us mod 60)
    +:+ (if us mod minute_us =? 0 then EmptyString
         else ":" +:+ pad_int 2 (us / second_us mod 60)
              +:+ (if us mod second_us =? 0 then EmptyString else "." +:+ pad_int 6 (us mod second_us))).

(** [d.isoformat(sep)]; [str(d)] is [isoformat " "]. *)
Definition isoformat (sep : string) (d : datetime) : string :=
  let '(y, m, dd) := civil_from_days (d.(dt_wall) / day_us) in
  pad_int 4 y +:+ "-" +:+ pad_int 2 m +:+ "-" +:+ pad_int 2 dd +:+ sep +:+ clock_str (d.(dt_wall) mod day_us)
    +:+ match d.(dt_offset) with Some off => offset_str off | None => EmptyString end.

Example isoformat_ex :
  map (fun s => match fromisoformat s with Ok d => isoformat " " d | Err _ => EmptyString end)
    ["2024-02-29T23:59:59.000120+05:30"; "1969-12-31T00:00:00"; "0001-01-01T00:00:00-00:00:01"]
  = ["2024-02-29 23:59:59.000120+05:30"; "1969-12-31 00:00:00"; "0001-01-01 00:00:00-00:00:01"].
Proof. vm_compute. reflexivity. Qed.
