(* ===== verification/RuleMatch.v ===== *)
(** Flat [when] conditions of JSON rule packs: [decision_api/json_rules.py]
    [_match_condition] and the helpers it calls.

    A condition is a JSON object [{"field", "op", "value"}] read against the
    feature map.  Every branch of the Python function is kept, with the
    exceptions it lets through: the two dictionary reads before the [try] raise
    [TypeError] on an unhashable [field]. *)

From Stdlib Require Import ZArith Lia Ascii String Bool.
From Stdlib Require Import SpecFloat.
From stdpp Require Import base option list strings sets.
From S2P Require Import Prelude PyFloat PyValue.
Local Open Scope Z_scope.

Definition _MAX_FIELD_LEN : Z := 128.
Definition _MAX_VALUE_LEN : Z := 1024.
Definition _MAX_REGEX_PATTERN_LEN : Z := 256.

(** [d.get(key)] for an arbitrary key: unhashable keys raise, and a hashable
    key that is not a string is never found among string keys. *)
Definition dict_get_any (d : dict) (key : pyval) : result (option pyval) :=
  match key with
  | PStr s => Ok (dict_lookup s d)
  | PList _ | PDict _ => Err TypeError
  | _ => Ok None
  end.

Definition _json_f64_py (v : pyval) : result (option float) :=
  match v with
  | PInt n => rmap Some (f_of_Z n)
  | PFloat f => Ok (Some f)
  | _ => Ok None
  end.

Definition dumps_display : pyval -> string := json_dumps (DumpOpts false true false).

(** The inner [_one] of [_json_str_pythonish_actual]. *)
Definition json_str_one (val : pyval) : string :=
  match val with
  | PNone => "None"
  | PBool b => if b then "true" else "false"
  | PInt n => Z_to_string n
  | PFloat f => f_repr f
  | PStr s => s
  | _ => dumps_display val
  end.

Definition _json_str_pythonish_actual (expected actual : pyval) : string * string :=
  (json_str_one expected, json_str_one actual).

Definition _json_value_display_for_regex (v : pyval) : string :=
  match v with
  | PStr s => s
  | _ => if has_nonfinite v then py_str v else dumps_display v
  end.

Definition dumps_sorted : pyval -> string := json_dumps (DumpOpts true true true).

Definition _json_collection_equals (actual elem : pyval) : bool :=
  bool_decide (dumps_sorted actual = dumps_sorted elem).

(** The regular expression [re.escape] builds from a pattern in which only
    [*] (any run without newline) and [?] (one character, no newline) are
    special, matched case-insensitively to the end of the subject; ["$"] also
    accepts a final newline. *)
Definition newline : ascii := ascii_of_N 10.

Fixpoint glob_match (p s : string) : bool :=
  match p with
  | EmptyString =>
      match s with
      | EmptyString => true
      | String c EmptyString => Ascii.eqb c newline
      | _ => false
      end
  | String "*"%char p' =>
      (fix star (s : string) : bool :=
         glob_match p' s ||
         match s with
         | EmptyString => false
         | String c s' => negb (Ascii.eqb c newline) && star s'
         end) s
  | String "?"%char p' =>
      match s with
      | EmptyString => false
      | String c s' => negb (Ascii.eqb c newline) && glob_match p' s'
      end
  | String c p' =>
      match s with
      | EmptyString => false
      | String d s' => Ascii.eqb (lower_char c) (lower_char d) && glob_match p' s'
      end
  end.

(** Numeric comparison operators on the two converted operands. *)
Definition num_cmp (cmp : float -> float -> bool) (actual expected : pyval) : result bool :=
  let! av := _json_f64_py actual in
  let! ev := _json_f64_py expected in
  Ok (match av, ev with Some a, Some e => cmp a e | _, _ => false end).

Definition fgeb (a b : float) : bool := fleb b a.
Definition fgtb (a b : float) : bool := fltb b a.

(** The body of the [try] block of [_match_condition]. *)
Definition match_op (op expected actual : pyval) (present : bool) : result bool :=
  if eq_str op "eq" then Ok (present && _json_collection_equals actual expected)
  else if eq_str op "not_eq" then
    Ok (negb present || negb (_json_collection_equals actual expected))
  else if eq_str op "gte" then num_cmp fgeb actual expected
  else if eq_str op "gt" then num_cmp fgtb actual expected
  else if eq_str op "lte" then num_cmp fleb actual expected
  else if eq_str op "lt" then num_cmp fltb actual expected
  else if eq_str op "in" then
    Ok (match expected with
        | PList arr => existsb (_json_collection_equals actual) arr
        | _ => false
        end)
  else if eq_str op "not_in" then
    Ok (match expected with
        | PList arr => negb (existsb (_json_collection_equals actual) arr)
        | _ => true
        end)
  else if eq_str op "contains" then
    let '(exp_s, act_s) := _json_str_pythonish_actual expected actual in
    Ok (nonempty exp_s && contains exp_s act_s)
  else if eq_str op "starts_with" then
    let suf := match expected with PStr s => s | _ => EmptyString end in
    Ok (match actual with PStr a => startswith a suf | _ => false end)
  else if eq_str op "ends_with" then
    let suf := match expected with PStr s => s | _ => EmptyString end in
    Ok (match actual with PStr a => endswith a suf | _ => false end)
  else if eq_str op "regex" then
    if negb (truthy expected) then Ok false
    else let pattern := py_str expected in
         if _MAX_REGEX_PATTERN_LEN <? str_len pattern then Ok false
         else Ok (glob_match pattern (_json_value_display_for_regex actual))
  else if eq_str op "is_true" then Ok (is_true actual)
  else if eq_str op "is_false" then Ok (is_false actual)
  else if eq_str op "exists" then Ok present
  else if eq_str op "not_exists" then Ok (negb present)
  else Ok false.

(** [except (TypeError, ValueError, OverflowError)]. *)
Definition match_catch (e : pyexn) : bool :=
  match e with TypeError | ValueError | OverflowError => true | _ => false end.

Definition _match_condition (features : dict) (condition : dict) : result bool :=
  let op := get condition "op" (PStr "eq") in
  let key := get condition "field" PNone in
  if negb (truthy key) || (_MAX_FIELD_LEN <? str_len (py_str key)) then Ok false
  else
    let! found := dict_get_any features key in
    let actual := default PNone found in
    let expected := get condition "value" PNone in
    if negb (is_none expected) && (_MAX_VALUE_LEN <? str_len (py_str expected)) then Ok false
    else
      let present := match found with Some _ => true | None => false end in
      try_except (match_op op expected actual present) match_catch false.

(** * Behaviour *)

Lemma f64_err v e : _json_f64_py v = Err e -> e = OverflowError.
Proof. destruct v; simpl; try discriminate. unfold f_of_Z. cases_if; simpl; congruence. Qed.

Lemma num_cmp_err cmp a x e : num_cmp cmp a x = Err e -> e = OverflowError.
Proof.
  unfold num_cmp. destruct (_json_f64_py a) eqn:Ea; simpl; [|intros [= <-]; eauto using f64_err].
  destruct (_json_f64_py x) eqn:Ex; simpl; [discriminate|]. intros [= <-]. eauto using f64_err.
Qed.

(** The only exception the operator table can raise is the integer-to-float
    overflow, which the [except] clause turns into a miss. *)
Lemma match_op_err op x a pr e : match_op op x a pr = Err e -> e = OverflowError.
Proof.
  unfold match_op.
  repeat match goal with
  | |- (if ?b then _ else _) = _ -> _ => destruct b
  | |- (let '(_, _) := ?p in _) = _ -> _ => destruct p
  end; try discriminate; eauto using num_cmp_err.
Qed.

Lemma try_match_op op x a pr :
  exists b, try_except (match_op op x a pr) match_catch false = Ok b.
Proof.
  destruct (match_op op x a pr) as [b|e] eqn:E; [by exists b|].
  apply match_op_err in E as ->. by exists false.
Qed.

(** A condition with a string field never raises: every failure is a miss. *)
Lemma match_condition_total features condition (k : string) :
  get condition "field" PNone = PStr k ->
  exists b, _match_condition features condition = Ok b.
Proof.
  intros Hk. unfold _match_condition. rewrite Hk.
  destruct (_ || _); [eauto|]. cbn [dict_get_any rbind].
  destruct (_ && _); [eauto|]. apply try_match_op.
Qed.

(** The operators the condition language has. *)
Definition known_ops : list string :=
  ["eq"; "not_eq"; "gte"; "gt"; "lte"; "lt"; "in"; "not_in"; "contains"; "starts_with";
   "ends_with"; "regex"; "is_true"; "is_false"; "exists"; "not_exists"].

Lemma eq_str_spec v s : eq_str v s = true <-> v = PStr s.
Proof.
  unfold eq_str. split.
  - destruct v; simpl; try discriminate. intros H%bool_decide_eq_true. by subst.
  - intros ->. simpl. by apply bool_decide_eq_true.
Qed.

Lemma match_op_unknown op expected actual present :
  (forall o, o ∈ known_ops -> op <> PStr o) -> match_op op expected actual present = Ok false.
Proof.
  intros Hu. unfold match_op.
  assert (Hno : forall o, o ∈ known_ops -> eq_str op o = false).
  { intros o Ho. destruct (eq_str op o) eqn:E; [|done].
    apply eq_str_spec in E. by destruct (Hu o Ho). }
  rewrite !Hno by (unfold known_ops; set_solver). done.
Qed.

(** A condition whose field is text, spelled as the engines read it. *)
Definition text_cond (op field : string) (value : pyval) : dict :=
  [("op", PStr op); ("field", PStr field); ("value", value)].

Lemma text_cond_eval features op field value :
  nonempty field = true -> str_len field <= _MAX_FIELD_LEN ->
  str_len (py_str value) <= _MAX_VALUE_LEN ->
  _match_condition features (text_cond op field value)
  = try_except (match_op (PStr op) value (default PNone (dict_lookup field features))
                  (has_key features field)) match_catch false.
Proof.
  intros Hne Hf Hv. unfold _match_condition. change (get (text_cond op field value) "op" _) with (PStr op).
  change (get (text_cond op field value) "field" _) with (PStr field).
  change (get (text_cond op field value) "value" _) with value.
  cbn [truthy py_str dict_get_any rbind]. rewrite Hne.
  destruct (Z.ltb_spec _MAX_FIELD_LEN (str_len field)); [lia|].
  destruct (Z.ltb_spec _MAX_VALUE_LEN (str_len (py_str value))); [lia|].
  by rewrite andb_false_r.
Qed.

(** On a numeric feature and a numeric threshold (neither NaN, both inside
    the float range) the four ordering operators are mutually consistent:
    [gte] is exactly the negation of [lt] and [lte] of [gt], so a rule author
    may swap one for the other in either direction. *)
Theorem ordering_ops_complement features field value a e :
  nonempty field = true -> str_len field <= _MAX_FIELD_LEN ->
  str_len (py_str value) <= _MAX_VALUE_LEN ->
  _json_f64_py (default PNone (dict_lookup field features)) = Ok (Some a) ->
  _json_f64_py value = Ok (Some e) -> is_nan a = false -> is_nan e = false ->
  _match_condition features (text_cond "gte" field value)
  = rmap negb (_match_condition features (text_cond "lt" field value))
  /\ _match_condition features (text_cond "lte" field value)
     = rmap negb (_match_condition features (text_cond "gt" field value)).
Proof.
  intros Hne Hf Hv Ha He Na Ne. rewrite !text_cond_eval by done.
  unfold match_op, num_cmp; simpl. rewrite Ha, He. simpl.
  unfold fgeb, fgtb. by rewrite !fleb_negb_fltb.
Qed.

Lemma ordering_ops_complement_witness :
  _match_condition [("amount", PInt 700)] (text_cond "gte" "amount" (PFloat (lit 1000 2)))
  = rmap negb (_match_condition [("amount", PInt 700)] (text_cond "lt" "amount" (PFloat (lit 1000 2)))).
Proof.
  refine (proj1 (ordering_ops_complement [("amount", PInt 700)] "amount" (PFloat (lit 1000 2))
           (litZ 700) (lit 1000 2) _ _ _ _ _ _ _)); vm_compute; congruence.
Defined.

(** A condition fails closed: an unknown operator never matches, and an
    ordering operator whose feature or threshold is missing, boolean, text or
    otherwise not a JSON number never matches either (it does not raise). *)
Theorem match_condition_fails_closed features op field value :
  (op ∉ known_ops
   \/ op ∈ ["gte"; "gt"; "lte"; "lt"]
      /\ (_json_f64_py (default PNone (dict_lookup field features)) = Ok None
          \/ _json_f64_py value = Ok None)) ->
  _match_condition features (text_cond op field value) = Ok false.
Proof.
  intros H. unfold _match_condition.
  change (get (text_cond op field value) "op" _) with (PStr op).
  change (get (text_cond op field value) "field" _) with (PStr field).
  change (get (text_cond op field value) "value" _) with value.
  destruct (_ || _); [done|]. cbn [dict_get_any rbind]. destruct (_ && _); [done|].
  set (pr := match dict_lookup field features with Some _ => true | None => false end).
  set (act := default PNone (dict_lookup field features)) in *.
  destruct H as [Hu|[Hop Hv]].
  - rewrite match_op_unknown; [done|]. intros o Ho [= <-]. done.
  - assert (Hn : forall cmp, exists b, try_except (num_cmp cmp act value) match_catch false = Ok b
                               /\ b = false).
    { intros cmp. unfold num_cmp. clearbody act.
      destruct Hv as [Hv|Hv]; rewrite Hv; simpl; [|destruct (_json_f64_py act) as [[a|]|x] eqn:Ea]; simpl.
      - destruct (_json_f64_py value) as [[?|]|x] eqn:Ex; simpl; eauto.
        apply f64_err in Ex as ->. eauto.
      - eauto.
      - eauto.
      - apply f64_err in Ea as ->. eauto. }
    assert (Hm : exists cmp, match_op (PStr op) value act pr = num_cmp cmp act value).
    { apply list_elem_of_In in Hop. simpl in Hop.
      destruct Hop as [<-|[<-|[<-|[<-|[]]]]]; by eexists. }
    destruct Hm as [cmp ->]. destruct (Hn cmp) as (b & -> & ->). done.
Qed.

Lemma match_condition_fails_closed_witness :
  _match_condition [("amount", PStr "700")] (text_cond "gte" "amount" (PInt 500)) = Ok false.
Proof.
  apply (match_condition_fails_closed [("amount", PStr "700")] "gte" "amount" (PInt 500)).
  right. split; [apply list_elem_of_here|left; reflexivity].
Defined.
