(* ===== verification/GraphContract.v ===== *)
(** The graph ontology contract and the graph pack atoms.

    [services/shared/graph_contract.py]: the per-tenant registry of signed
    vertex types, edge types and roles, the [require_*] gates, and the derivation
    of graph answers from a neighbourhood.  [services/shared/graph_pack_atoms.py]:
    the hop view carried on the feature map and the [graph_v1] atoms evaluated on
    it.  The registry is explicit state ([registry]); the module globals
    [_tenant_vtypes], [_tenant_etypes] and [_tenant_roles] are its fields. *)

From Stdlib Require Import ZArith Lia Ascii String Bool.
From stdpp Require Import base option list sorting strings gmap.
From S2P Require Import Prelude PyFloat PyValue.
Local Open Scope Z_scope.

Module Contract.

Definition USER_VTYPE : string := "user".
Definition BRIDGE_VTYPES : list string :=
  ["device"; "ip"; "phone"; "payment"; "place"; "promo"; "order"].
Definition CORE_VTYPES : list string := USER_VTYPE :: BRIDGE_VTYPES.
Definition CORE_ETYPES : list string :=
  ["USED"; "SEEN_AT"; "PARTY_WITH"; "OWNS"; "REFERRED"; "KYC_VERIFIED_BY"; "USED_DEVICE";
   "USED_SESSION"; "USED_IP"; "MADE_PAYMENT"; "PERFORMED_LOGIN"].
Definition LEGACY_VTYPES : list string :=
  ["Person"; "Account"; "Device"; "Payment"; "Document"; "Decision"; "Custom"; "User"; "Login";
   "Session"; "Ip"; "LicensePlate"].

(** ** Token syntax *)

Definition is_alpha (c : ascii) : bool :=
  let n := code c in ((65 <=? n) && (n <=? 90) || (97 <=? n) && (n <=? 122))%N.
Definition is_digit (c : ascii) : bool := let n := code c in ((48 <=? n) && (n <=? 57))%N.


(** [^[A-Za-z][A-Za-z0-9_]{0,63}$] with [fullmatch]. *)
Definition safe_token (s : string) : bool :=
  match s with
  | EmptyString => false
  | String c s' =>
      is_alpha c && all_chars (fun c => is_alpha c || is_digit c || Ascii.eqb c "_") s'
      && (str_len s' <=? 63)
  end.

(** [^[A-Za-z][A-Za-z0-9_-]{0,63}$] with [fullmatch]. *)
Definition role_safe_token (s : string) : bool :=
  match s with
  | EmptyString => false
  | String c s' =>
      is_alpha c
      && all_chars (fun c => is_alpha c || is_digit c || Ascii.eqb c "_" || Ascii.eqb c "-") s'
      && (str_len s' <=? 63)
  end.

Definition _norm_vtype (raw : string) : string := strip raw.
Definition _norm_etype (raw : string) : string :=
  replace_char "-" "_" (replace_char " " "_" (upper (strip raw))).
Definition _norm_role (raw : string) : string := lower (strip raw).

(** ** The tenant registry *)

Record registry : Type := Registry {
  tenant_vtypes : gmap string (gset string);
  tenant_etypes : gmap string (gset string);
  tenant_roles : gmap string (gset string);
}.

Definition empty_registry : registry := Registry ∅ ∅ ∅.

Definition reset_tenant_registry (r : registry) (tenant_id : option string) : registry :=
  match tenant_id with
  | None => empty_registry
  | Some t => Registry (delete t r.(tenant_vtypes)) (delete t r.(tenant_etypes))
                       (delete t r.(tenant_roles))
  end.

(** The [for raw in tokens] loop: tokens before a refused one stay registered. *)
Fixpoint register_loop (norm : string -> string) (ok : string -> bool)
    (tokens : list string) (bag : gset string) : gset string * result unit :=
  match tokens with
  | [] => (bag, Ok tt)
  | raw :: rest =>
      let token := norm raw in
      if ok token then register_loop norm ok rest ({[token]} ∪ bag)
      else (bag, Err ValueError)
  end.

Definition register_into (norm : string -> string) (ok : string -> bool)
    (m : gmap string (gset string)) (t : string) (tokens : list string)
    : gmap string (gset string) * result unit :=
  let '(bag, res) := register_loop norm ok tokens (default ∅ (m !! t)) in
  (<[t := bag]> m, res).

Definition register_vtypes (r : registry) (t : string) (toks : list string)
    : registry * result unit :=
  let '(m, res) := register_into _norm_vtype safe_token r.(tenant_vtypes) t toks in
  (Registry m r.(tenant_etypes) r.(tenant_roles), res).

Definition register_etypes (r : registry) (t : string) (toks : list string)
    : registry * result unit :=
  let '(m, res) := register_into _norm_etype safe_token r.(tenant_etypes) t toks in
  (Registry r.(tenant_vtypes) m r.(tenant_roles), res).

Definition register_roles (r : registry) (t : string) (toks : list string)
    : registry * result unit :=
  let '(m, res) := register_into _norm_role (fun s => nonempty s && role_safe_token s)
                     r.(tenant_roles) t toks in
  (Registry r.(tenant_vtypes) r.(tenant_etypes) m, res).

Definition registered_vtypes (r : registry) (t : string) : gset string :=
  list_to_set (CORE_VTYPES ++ LEGACY_VTYPES) ∪ default ∅ (r.(tenant_vtypes) !! t).
Definition registered_etypes (r : registry) (t : string) : gset string :=
  list_to_set CORE_ETYPES ∪ default ∅ (r.(tenant_etypes) !! t).
Definition registered_roles (r : registry) (t : string) : gset string :=
  default ∅ (r.(tenant_roles) !! t).

(** [UnsignedGraphToken] is a [ValueError]. *)
Definition require_vtype (r : registry) (t vtype : string) : result string :=
  let token := _norm_vtype vtype in
  if nonempty token && safe_token token && bool_decide (token ∈ registered_vtypes r t)
  then Ok token else Err ValueError.

Definition require_etype (r : registry) (t etype : string) : result string :=
  let token := _norm_etype etype in
  if nonempty token && safe_token token && bool_decide (token ∈ registered_etypes r t)
  then Ok token else Err ValueError.

Definition require_role (r : registry) (t role : string) : result string :=
  let token := _norm_role role in
  if negb (nonempty token) || negb (role_safe_token token) then Err ValueError
  else
    let locked := registered_roles r t in
    if negb (bool_decide (locked = ∅)) && negb (bool_decide (token ∈ locked))
    then Err ValueError else Ok token.

Definition vertex_key (tenant_id vtype entity_id : string) : string * string * string :=
  (tenant_id, vtype, entity_id).

Definition janus_graph_id (tenant_id vtype entity_id : string) : string :=
  "jvg:" +:+ tenant_id +:+ ":" +:+ vtype +:+ ":" +:+ entity_id.

(** ** Roles *)

Fixpoint merge_roles_go (out : list string) (raws : list string) : list string :=
  match raws with
  | [] => out
  | raw :: rest =>
      let token := _norm_role raw in
      if negb (nonempty token) || mem token out then merge_roles_go out rest
      else merge_roles_go (out ++ [token]) rest
  end.

Definition merge_roles (existing incoming : list string) : list string :=
  merge_roles_go [] (existing ++ incoming).

Definition roles_from_properties (properties : pyval) : list string :=
  let props := as_dict properties in
  let raw_list := get props "roles" PNone in
  let from_list :=
    match raw_list with
    | PList l => map py_str l
    | PStr s => if nonempty (strip s) then [s] else []
    | _ => []
    end in
  let from_one :=
    match get props "role" PNone with
    | PStr s => if nonempty (strip s) then [s] else []
    | _ => []
    end in
  merge_roles [] (from_list ++ from_one).

(** ** Nodes and edges *)

Definition _labels_of (node : dict) : list string :=
  match por (get node "labels" PNone) (por (get node "label" PNone) (get node "vtype" PNone)) with
  | PList l => List.filter (fun s => nonempty (strip s)) (map py_str l)
  | raw => if truthy raw then [py_str raw] else []
  end.

Definition node_id (node : dict) : string :=
  strip (py_str (first_truthy [get node "id" PNone; get node "external_id" PNone;
                               get node "entity_id" PNone])).

Definition _is_user_node (node : dict) : bool :=
  existsb (fun x => mem x [USER_VTYPE; "User"; "Person"; "Account"]) (_labels_of node).

Definition _is_bridge_node (node : dict) : bool :=
  existsb (fun x => mem (lower x) (BRIDGE_VTYPES ++
             ["session"; "document"; "licenseplate"; "email"; "card"; "address"; "list"]))
          (_labels_of node).

Record edge : Type := Edge { from_id : string; to_id : string; etype : string }.

(** One raw edge of a neighbourhood or an entity-risk blob. *)
Definition edge_of (v : pyval) : option edge :=
  match v with
  | PDict e =>
      let g k := get e k PNone in
      let et := strip (py_str (first_truthy [g "type"; g "rel"; g "etype"; g "relationship"])) in
      let src := strip (py_str (first_truthy [g "from_id"; g "src"; g "from"; g "from_external_id"])) in
      let dst := strip (py_str (first_truthy [g "to_id"; g "dst"; g "to"; g "to_external_id"])) in
      if nonempty et && nonempty src && nonempty dst then Some (Edge src dst et) else None
  | _ => None
  end.

Record graph_answers : Type := GraphAnswers {
  ga_roles : list string;
  ga_multi : list string;
  ga_edges : list edge;
}.

Definition empty_graph_answers : graph_answers := GraphAnswers [] [] [].

(** [by_id[nid] = n], last node wins. *)
Definition index_nodes (nodes : list dict) : gmap string dict :=
  foldl (fun m n => if nonempty (node_id n) then <[node_id n := n]> m else m) ∅ nodes.

(** [adj]: neighbours of [x] over the named edges. *)
Definition adj (edges : list edge) (x : string) : list string :=
  flat_map (fun e => (if bool_decide (from_id e = x) then [to_id e] else [])
                     ++ (if bool_decide (to_id e = x) then [from_id e] else [])) edges.

(** The inner double loop; set iteration order is immaterial because the result
    is deduplicated and sorted. *)
Definition multi_ids (by_id : gmap string dict) (edges : list edge) (sid : string) : list string :=
  flat_map (fun nbr_id =>
    let nbr := by_id !! nbr_id in
    let bridge := match nbr with Some n => _is_bridge_node n | None => false end in
    let labs := map lower (_labels_of (default [] nbr)) in
    if negb bridge && negb (existsb (fun l => mem l BRIDGE_VTYPES) labs) then []
    else flat_map (fun other_id =>
           if bool_decide (other_id = sid) then []
           else match by_id !! other_id with
                | Some other => if _is_user_node other then [other_id] else []
                | None => []
                end) (adj edges nbr_id)) (adj edges sid).

Definition graph_answers_from_neighborhood (subject_id : string) (nodes : list dict)
    (edges : list pyval) : graph_answers :=
  let sid := strip subject_id in
  let by_id := index_nodes nodes in
  let subject := by_id !! sid in
  let roles0 := match subject with
                | Some s => roles_from_properties (get s "properties" PNone)
                | None => roles_from_properties PNone
                end in
  let roles := match subject, roles0 with
               | Some (_ :: _ as s), [] => merge_roles [] [str_or_empty (get s "role" PNone)]
               | _, _ => roles0
               end in
  let named := filter_map edge_of edges in
  GraphAnswers roles (sorted_set (multi_ids by_id named sid)) named.

Definition consume_graph_answers (graph_meta : pyval) : graph_answers :=
  match graph_meta with
  | PDict m =>
      let named := match get m "named_edges" PNone with
                   | PList l => filter_map edge_of l | _ => [] end in
      let roles := match get m "roles" PNone with
                   | PList l => map (fun x => strip (py_str x)) l | _ => [] end in
      let multi := match get m "multi_id_user_ids" PNone with
                   | PList l => List.filter nonempty (map (fun x => strip (py_str x)) l)
                   | _ => [] end in
      GraphAnswers (List.filter nonempty roles) multi named
  | _ => empty_graph_answers
  end.

End Contract.

Module Atoms.
Import Contract.

Definition SCHEMA_ID : string := "tarka.graph_pack_atoms/v1".
Definition HOP_FEATURE_KEY : string := "_graph_hop_v1".
Definition PACK_HOP_ETYPES : list string :=
  ["USES_DEVICE"; "HAS_EMAIL"; "HAS_PHONE"; "HAS_CARD"; "HAS_LIST"; "SEEN_FROM_IP"; "SEEN_AT";
   "PAYS_WITH"; "REDEEMS"; "ON_ORDER"; "PARTY_WITH"].
Definition ETYPE_WRITE_TO_PACK : list (string * string) :=
  [("USED_DEVICE", "USES_DEVICE"); ("USED", "USES_DEVICE"); ("USED_IP", "SEEN_FROM_IP");
   ("MADE_PAYMENT", "PAYS_WITH")].
Definition GRAPH_V1_ATOMS : list string := ["has_etype"; "has_multi_id"; "sibling_prior_flag"].
Definition _MISSING : list string := ["graph:missing"; "graph:unavailable"; "graph:empty"].
Definition _POSITIVE_FLAGS : list string :=
  ["1"; "true"; "flag"; "flagged"; "fraud"; "block"; "blocked"].

Fixpoint assoc (k : string) (l : list (string * string)) : option string :=
  match l with
  | [] => None
  | (k', v) :: l' => if bool_decide (k = k') then Some v else assoc k l'
  end.

Definition canonical_pack_etype (raw : string) : string :=
  let token := _norm_etype raw in default token (assoc token ETYPE_WRITE_TO_PACK).

Definition signed_pack_etypes (r : registry) (t : string) : gset string :=
  list_to_set PACK_HOP_ETYPES ∪ list_to_set CORE_ETYPES ∪ registered_etypes r t.

Definition require_pack_etype (r : registry) (t etype : string) : result string :=
  let token := _norm_etype etype in
  if nonempty token && safe_token token && bool_decide (token ∈ signed_pack_etypes r t)
  then Ok token else Err ValueError.

Definition refuse_pack_etype_token (etype : string) : result string :=
  let token := _norm_etype etype in
  if negb (nonempty token) || negb (safe_token token) || bool_decide (token = "RELATED")
  then Err ValueError else Ok token.

Definition _positive_flag (raw : pyval) : bool :=
  match raw with
  | PBool b => b
  | PNone => false
  | PInt _ | PFloat _ => py_eq raw (PInt 1)
  | _ => mem (lower (strip (py_str raw))) _POSITIVE_FLAGS
  end.

Definition props_of (node : dict) : dict := as_dict (get node "properties" PNone).

Definition _node_id (node : dict) : string :=
  let props := props_of node in
  strip (py_str (first_truthy [get node "id" PNone; get node "external_id" PNone;
    get node "entity_id" PNone; get props "external_id" PNone; get props "id" PNone])).

Definition dicts_in (v : pyval) : list dict :=
  match v with
  | PList l => filter_map (fun x => match x with PDict d => Some d | _ => None end) l
  | _ => []
  end.

Definition _iter_nodes (raw : dict) : list dict :=
  dicts_in (get raw "vertices" PNone) ++ dicts_in (get raw "nodes" PNone).

(** The first of [y_label], [FLAG], [flag] that is set, else a positive tag. *)
Fixpoint first_flag (src : dict) (keys : list string) : option pyval :=
  match keys with
  | [] => None
  | k :: keys' =>
      match dict_lookup k src with
      | Some v => if py_eq v PNone || eq_str v "" then first_flag src keys' else Some v
      | None => first_flag src keys'
      end
  end.

Definition flag_in (src : dict) : option pyval :=
  match first_flag src ["y_label"; "FLAG"; "flag"] with
  | Some v => Some v
  | None =>
      match get src "tags" PNone with
      | PList tags =>
          if existsb (fun t => mem (lower (strip (py_str t))) (_POSITIVE_FLAGS ++ ["flag"])) tags
          then Some (PStr "FLAG") else None
      | _ => None
      end
  end.

Definition _node_flag_value (node : dict) : pyval :=
  match flag_in node with
  | Some v => v
  | None => default PNone (flag_in (props_of node))
  end.

(** Dict writes [flags[token] = val] of the three lifting loops. *)
Definition lift_bag (sid : string) (flags : dict) (bag : pyval) : dict :=
  match bag with
  | PDict b =>
      foldl (fun fl kv => let token := strip kv.1 in
        if nonempty token && negb (bool_decide (token = sid)) && _positive_flag kv.2
        then dict_set token kv.2 fl else fl) flags b
  | _ => flags
  end.

Definition lift_flagged (sid : string) (flags : dict) (v : pyval) : dict :=
  match v with
  | PList l =>
      foldl (fun fl uid => let token := strip (py_str uid) in
        if nonempty token && negb (bool_decide (token = sid))
        then dict_set token (PStr "FLAG") fl else fl) flags l
  | _ => flags
  end.

Definition lift_nodes (sid : string) (flags : dict) (nodes : list dict) : dict :=
  foldl (fun fl node => let nid := _node_id node in
    if negb (nonempty nid) || bool_decide (nid = sid) then fl
    else let val := _node_flag_value node in
         if _positive_flag val then dict_set nid val fl else fl) flags nodes.

Definition sibling_flags_from_payload (raw : pyval) (multi_id_user_ids : list string)
    (subject_id : string) : dict :=
  match raw with
  | PDict r =>
      let sid := strip subject_id in
      let flags := lift_bag sid [] (get r "sibling_y_labels" PNone) in
      let flags := lift_bag sid flags (get r "y_labels" PNone) in
      let flags := lift_flagged sid flags (get r "flagged_user_ids" PNone) in
      let flags := lift_nodes sid flags (_iter_nodes r) in
      let multi := remove_dups (List.filter nonempty (map strip multi_id_user_ids)) in
      match multi with
      | [] => flags
      | _ => filter_map (fun uid => (fun v => (uid, v)) <$> dict_lookup uid flags) multi
      end
  | _ => []
  end.

(** ** The hop view *)

Record hop : Type := Hop {
  h_status : string;
  h_tenant_id : string;
  h_subject_id : string;
  h_edges : list edge;
  h_multi : list string;
  h_roles : list string;
  h_flags : dict;
  h_signed : list string;
}.

Definition edge_dict (e : edge) : pyval :=
  PDict [("from_id", PStr (from_id e)); ("to_id", PStr (to_id e)); ("type", PStr (etype e))].

(** The dictionary stored under [_graph_hop_v1]. *)
Definition hop_dict (h : hop) : dict :=
  [("schema_id", PStr SCHEMA_ID); ("status", PStr h.(h_status));
   ("tenant_id", PStr h.(h_tenant_id)); ("subject_id", PStr h.(h_subject_id));
   ("named_edges", PList (map edge_dict h.(h_edges)));
   ("multi_id_user_ids", str_list h.(h_multi)); ("roles", str_list h.(h_roles));
   ("sibling_flags", PDict h.(h_flags)); ("signed_etypes", str_list h.(h_signed));
   ("invented_edges", PBool false)].

Definition sorted_signed (r : registry) (t : string) : list string :=
  merge_sort String.le (elements (signed_pack_etypes r t)).

Definition _is_missing (graph_url : string) (degrade_tags : list string) : bool :=
  negb (nonempty (strip graph_url)) || mem "graph:missing" degrade_tags.

Definition _blank_hop (r : registry) (status tenant_id subject_id : string) : hop :=
  Hop status tenant_id subject_id [] [] [] [] (sorted_signed r tenant_id).

Definition hop_view_from_graph_meta (r : registry) (graph_meta : pyval) (graph_url : string)
    (degrade_tags : list string) (tenant_id subject_id : string) : hop :=
  if _is_missing graph_url degrade_tags then _blank_hop r "graph:missing" tenant_id subject_id
  else match graph_meta with
  | PDict m =>
      let meta_status := str_or_empty (get m "status" PNone) in
      if mem meta_status _MISSING then _blank_hop r meta_status tenant_id subject_id
      else
        let answers := consume_graph_answers graph_meta in
        let flags := sibling_flags_from_payload graph_meta answers.(ga_multi) subject_id in
        Hop "graph:ok" tenant_id subject_id answers.(ga_edges) answers.(ga_multi)
            answers.(ga_roles) flags (sorted_signed r tenant_id)
  | _ => _blank_hop r "graph:empty" tenant_id subject_id
  end.

Definition _as_stored_hop (r : registry) (raw : dict) (tenant_id subject_id : string)
    : option hop :=
  let status := str_or_empty (get raw "status" PNone) in
  if mem status _MISSING then Some (_blank_hop r (str_or status "graph:missing") tenant_id subject_id)
  else if eq_str (get raw "schema_id" PNone) SCHEMA_ID || has_key raw "signed_etypes"
          || has_key raw "sibling_flags" then
    let answers := consume_graph_answers (PDict raw) in
    let flags := match get raw "sibling_flags" PNone with
                 | PDict f => f
                 | _ => sibling_flags_from_payload (PDict raw) answers.(ga_multi) subject_id
                 end in
    let signed := match get raw "signed_etypes" PNone with
                  | PList l => map py_str l | _ => [] end in
    Some (Hop (str_or status "graph:ok")
              (str_or tenant_id (str_or_empty (get raw "tenant_id" PNone)))
              (str_or subject_id (str_or_empty (get raw "subject_id" PNone)))
              answers.(ga_edges) answers.(ga_multi) answers.(ga_roles) flags signed)
  else if negb (is_none (get raw "named_edges" PNone))
          || negb (is_none (get raw "multi_id_user_ids" PNone)) then
    Some (hop_view_from_graph_meta r (PDict raw) "snapshot" [] tenant_id subject_id)
  else None.

Fixpoint snapshot_candidates (r : registry) (tid sid : string) (cands : list pyval) : hop :=
  match cands with
  | [] => _blank_hop r "graph:empty" tid sid
  | PDict raw :: rest =>
      let status := str_or_empty (get raw "status" PNone) in
      if mem status _MISSING then
        _blank_hop r (str_or status "graph:missing")
          (str_or tid (str_or_empty (get raw "tenant_id" PNone)))
          (str_or sid (str_or_empty (get raw "entity_id" PNone)))
      else match _as_stored_hop r raw tid sid with
           | Some h => h
           | None => snapshot_candidates r tid sid rest
           end
  | _ :: rest => snapshot_candidates r tid sid rest
  end.

Definition hop_view_from_snapshot (r : registry) (snapshot : pyval) (tenant_id subject_id : string)
    : hop :=
  match snapshot with
  | PDict s =>
      let tid := str_or tenant_id (str_or_empty (get s "tenant_id" PNone)) in
      let sid := py_str (first_truthy [PStr subject_id; get s "entity_id" PNone;
                                       get s "subject_id" PNone]) in
      let why := as_dict (get s "pack_why" PNone) in
      snapshot_candidates r tid sid
        [get s HOP_FEATURE_KEY PNone; get s "graph_hop_v1" PNone; get why "graph" PNone;
         get s "subgraph_snapshot" PNone; get s "inference_context" PNone]
  | _ => _blank_hop r "graph:missing" tenant_id subject_id
  end.

(** ** Atom evaluation on the stored dictionary *)

Definition hop_is_present (h : option dict) : bool :=
  match h with
  | None => false
  | Some d =>
      negb (mem (str_or_empty (get d "status" PNone)) _MISSING)
      && negb (eq_str (get d "status" PNone) "")
  end.

(** The [if role:] block: [None] when the atom must miss. *)
Definition role_gate (r : registry) (tid : string) (role : option string) (h : dict)
    : result bool :=
  match role with
  | None | Some EmptyString => Ok true
  | Some ro =>
      match require_role r tid ro with
      | Err _ => Ok false
      | Ok tok =>
          let! roles := iter_or_empty (get h "roles" PNone) in
          Ok (mem tok (map (fun x => lower (strip (py_str x))) roles))
      end
  end.

Definition edge_type_of (v : pyval) : option string :=
  match v with
  | PDict e => Some (py_str (first_truthy [get e "type" PNone; get e "etype" PNone]))
  | _ => None
  end.

Definition eval_graph_v1 (r : registry) (atom : string) (h : option dict)
    (etype role : option string) (tenant_id : string) : result bool :=
  match h with
  | Some d =>
      if negb (hop_is_present h) then Ok false
      else
        let tid := str_or tenant_id (str_or_empty (get d "tenant_id" PNone)) in
        let! pass := role_gate r tid role d in
        if negb pass then Ok false
        else
          let name := strip atom in
          if bool_decide (name = "has_etype") then
            match require_pack_etype r tid (opt_str etype) with
            | Err _ => Ok false
            | Ok want =>
                let! edges := iter_or_empty (get d "named_edges" PNone) in
                Ok (existsb (fun t => bool_decide (canonical_pack_etype t = canonical_pack_etype want))
                            (filter_map edge_type_of edges))
            end
          else if bool_decide (name = "has_multi_id") then
            let! ids := iter_or_empty (get d "multi_id_user_ids" PNone) in
            Ok (existsb (fun x => nonempty (strip (py_str x))) ids)
          else if bool_decide (name = "sibling_prior_flag") then
            Ok (existsb (fun kv => _positive_flag kv.2) (as_dict (get d "sibling_flags" PNone)))
          else Ok false
  | None => Ok false
  end.

Definition eval_graph_v1_from_features (r : registry) (features : dict) (atom : string)
    (etype role : option string) (tenant_id : string) : result bool :=
  let h := match get features HOP_FEATURE_KEY PNone with PDict d => Some d | _ => None end in
  let tid := str_or tenant_id (str_or_empty (get features "_graph_hop_tenant_id" PNone)) in
  eval_graph_v1 r atom h etype role tid.

Definition attach_hop_to_features (features : dict) (h : dict) : dict :=
  dict_set "_graph_hop_tenant_id" (por (get h "tenant_id" PNone) (PStr ""))
    (dict_set HOP_FEATURE_KEY (PDict h) features).

(** The edge loop of [fired_graph_v1_atoms]; [seen] is the list fired so far. *)
Fixpoint fired_etypes (r : registry) (d : dict) (tid : string) (types : list string)
    (seen : list string) : result (list string) :=
  match types with
  | [] => Ok seen
  | t :: rest =>
      let et := _norm_etype t in
      if negb (nonempty et) || mem et seen then fired_etypes r d tid rest seen
      else
        let! hit := eval_graph_v1 r "has_etype" (Some d) (Some et) None tid in
        fired_etypes r d tid rest (if hit then seen ++ [et] else seen)
  end.

Definition fired_graph_v1_atoms (r : registry) (h : option dict) (tenant_id : string)
    : result (list (string * option string)) :=
  match h with
  | Some d =>
      if negb (hop_is_present h) then Ok []
      else
        let tid := str_or tenant_id (str_or_empty (get d "tenant_id" PNone)) in
        let! edges := iter_or_empty (get d "named_edges" PNone) in
        let! ets := fired_etypes r d tid (filter_map edge_type_of edges) [] in
        let! multi := eval_graph_v1 r "has_multi_id" h None None tid in
        let! sib := eval_graph_v1 r "sibling_prior_flag" h None None tid in
        Ok (map (fun et => ("has_etype", Some et)) ets
            ++ (if multi then [("has_multi_id", None)] else [])
            ++ (if sib then [("sibling_prior_flag", None)] else []))
  | None => Ok []
  end.

Definition named_from_hop (r : registry) (h : option dict) (tenant_id : string)
    : result string :=
  match h with
  | Some d =>
      if negb (hop_is_present h) then Ok "graph:missing"
      else
        let! fired := fired_graph_v1_atoms r h tenant_id in
        let parts := map (fun a : string * option string =>
                            match a.2 with
                            | Some et => if nonempty et then a.1 +:+ ":" +:+ et else a.1
                            | None => a.1
                            end) fired in
        Ok (match parts with
            | [] => py_str (first_truthy [get d "status" PNone; PStr "graph:ok"])
            | _ => sjoin "+" parts
            end)
  | None => Ok "graph:missing"
  end.

End Atoms.

(** * Lemmas *)

Module Facts.
Import Contract Atoms.

(** ** Registry *)

(** Every registered token has the safe syntax. *)
Definition registry_wf (r : registry) : Prop :=
  (forall t s, s ∈ default ∅ (r.(tenant_vtypes) !! t) -> safe_token s = true) /\
  (forall t s, s ∈ default ∅ (r.(tenant_etypes) !! t) -> safe_token s = true) /\
  (forall t s, s ∈ default ∅ (r.(tenant_roles) !! t) -> role_safe_token s = true).

Lemma register_loop_spec norm ok toks (bag : gset string) s :
  s ∈ fst (register_loop norm ok toks bag) -> s ∈ bag \/ ok s = true.
Proof.
  revert bag. induction toks as [|raw toks IH]; intros bag; simpl; [auto|].
  destruct (ok (norm raw)) eqn:E; simpl; [|auto].
  intros [Hin|]%IH; [|auto]. rewrite elem_of_union, elem_of_singleton in Hin.
  destruct Hin as [->|]; auto.
Qed.

Lemma register_loop_mono norm ok toks (bag : gset string) :
  bag ⊆ fst (register_loop norm ok toks bag).
Proof.
  revert bag. induction toks as [|raw toks IH]; intros bag; simpl; [done|].
  destruct (ok (norm raw)); simpl; [|done]. etrans; [|apply IH]. set_solver.
Qed.

Lemma register_loop_ok norm ok toks (bag : gset string) :
  snd (register_loop norm ok toks bag) = Ok tt ->
  forall raw, raw ∈ toks -> norm raw ∈ fst (register_loop norm ok toks bag).
Proof.
  revert bag. induction toks as [|t toks IH]; intros bag Hok raw Hin; simpl in *; [set_solver|].
  destruct (ok (norm t)); simpl in *; [|discriminate].
  apply elem_of_cons in Hin as [->|Hin]; [|by apply IH].
  apply register_loop_mono. set_solver.
Qed.

Lemma register_into_lookup norm ok m t toks t' :
  default ∅ (fst (register_into norm ok m t toks) !! t')
  = if bool_decide (t = t') then fst (register_loop norm ok toks (default ∅ (m !! t)))
    else default ∅ (m !! t').
Proof.
  unfold register_into. destruct (register_loop _ _ _ _) as [bag res]; simpl.
  case_bool_decide as Ht; [subst; by rewrite lookup_insert_eq|by rewrite lookup_insert_ne].
Qed.

Lemma register_into_wf norm ok m t toks (P : string -> Prop) :
  (forall s, ok s = true -> P s) ->
  (forall t s, s ∈ default ∅ (m !! t) -> P s) ->
  forall t' s, s ∈ default ∅ (fst (register_into norm ok m t toks) !! t') -> P s.
Proof.
  intros Hok Hm t' s. rewrite register_into_lookup.
  case_bool_decide; [|apply Hm].
  intros [Hin|]%register_loop_spec; eauto.
Qed.

Inductive reg_op : Type :=
| OpVtypes (t : string) (toks : list string)
| OpEtypes (t : string) (toks : list string)
| OpRoles (t : string) (toks : list string)
| OpReset (t : option string).

Definition run_reg (r : registry) (op : reg_op) : registry :=
  match op with
  | OpVtypes t toks => fst (register_vtypes r t toks)
  | OpEtypes t toks => fst (register_etypes r t toks)
  | OpRoles t toks => fst (register_roles r t toks)
  | OpReset t => reset_tenant_registry r t
  end.

Lemma reset_wf r t : registry_wf r -> registry_wf (reset_tenant_registry r t).
Proof.
  intros (Hv & He & Hr).
  destruct t as [t|]; [|repeat split; simpl; intros t' s; rewrite lookup_empty; set_solver].
  assert (Hd : forall (m : gmap string (gset string)) t' s,
             s ∈ default ∅ (delete t m !! t') -> s ∈ default ∅ (m !! t')).
  { intros m t' s. destruct (decide (t = t')) as [->|];
      [by rewrite lookup_delete_eq|by rewrite lookup_delete_ne]. }
  repeat split; simpl; intros t' s Hs%Hd; eauto.
Qed.

Lemma run_reg_wf r op : registry_wf r -> registry_wf (run_reg r op).
Proof.
  intros Hwf. pose proof Hwf as (Hv & He & Hr). destruct op as [t toks|t toks|t toks|t]; simpl.
  - pose proof (register_into_wf _norm_vtype _ _ t toks _ (fun s H => H) Hv) as H.
    unfold register_vtypes. destruct (register_into _ _ _ _ _) as [m res]. by repeat split.
  - pose proof (register_into_wf _norm_etype _ _ t toks _ (fun s H => H) He) as H.
    unfold register_etypes. destruct (register_into _ _ _ _ _) as [m res]. by repeat split.
  - assert (Hok : forall s, nonempty s && role_safe_token s = true -> role_safe_token s = true)
      by (intros s [_ H]%andb_true_iff; done).
    pose proof (register_into_wf _norm_role _ _ t toks _ Hok Hr) as H.
    unfold register_roles. destruct (register_into _ _ _ _ _) as [m res]. by repeat split.
  - by apply reset_wf.
Qed.

(** ** Missing hops *)

Lemma eval_missing r atom d et ro tid :
  hop_is_present (Some d) = false -> eval_graph_v1 r atom (Some d) et ro tid = Ok false.
Proof. intros H. unfold eval_graph_v1. by rewrite H. Qed.

Lemma blank_hop_missing r st t s :
  st ∈ _MISSING -> hop_is_present (Some (hop_dict (_blank_hop r st t s))) = false.
Proof.
  intros Hin. unfold hop_is_present. simpl.
  assert (E : str_or_empty (PStr st) = st)
    by (unfold str_or_empty, por, truthy; by destruct st).
  unfold get; simpl. rewrite E. by rewrite (proj2 (mem_spec st _MISSING) Hin).
Qed.

(** ** Attached hops read back *)

Lemma attach_hop_get features h :
  get (attach_hop_to_features features h) HOP_FEATURE_KEY PNone = PDict h.
Proof. unfold attach_hop_to_features. rewrite get_set_ne by done. apply get_set_eq. Qed.

(** ** Where named edges come from *)

Lemma hop_edges_from_meta r m url deg t s :
  forall e, e ∈ h_edges (hop_view_from_graph_meta r (PDict m) url deg t s) ->
  exists l v, get m "named_edges" PNone = PList l /\ v ∈ l /\ edge_of v = Some e.
Proof.
  intros e. unfold hop_view_from_graph_meta, _blank_hop.
  destruct (_is_missing url deg); [set_solver|].
  destruct (mem _ _MISSING); [set_solver|]. simpl.
  destruct (get m "named_edges" PNone) as [| | | | |l|]; try set_solver.
  intros (v & Hv & He)%filter_map_elem. eauto.
Qed.

Lemma edge_types_hop h :
  filter_map edge_type_of (map edge_dict (h_edges h))
  = map (fun e => if nonempty (etype e) then etype e else "") (h_edges h).
Proof.
  induction (h_edges h) as [|e l IH]; simpl; [done|].
  f_equal; [|done]. unfold get; simpl. by destruct (etype e).
Qed.

End Facts.

(** * Theorems *)

Module Theorems.
Import Contract Atoms Facts.

(** With no graph URL, or with the request tagged [graph:missing], the hop
    attached to the features makes every [graph_v1] atom false, whatever the
    graph payload, the atom, its etype and its role. *)
Theorem missing_graph_never_fires r meta url deg t s features atom et ro :
  _is_missing url deg = true ->
  let h := hop_dict (hop_view_from_graph_meta r meta url deg t s) in
  eval_graph_v1_from_features r (attach_hop_to_features features h) atom et ro "" = Ok false.
Proof.
  intros Hm h. unfold eval_graph_v1_from_features. rewrite attach_hop_get. unfold h.
  apply eval_missing. unfold hop_view_from_graph_meta. rewrite Hm.
  apply blank_hop_missing. unfold _MISSING. set_solver.
Qed.

Definition demo_meta : dict :=
  [("named_edges", PList [PDict [("type", PStr "used device"); ("src", PStr "u1");
                                  ("dst", PStr "d1")]])].

Lemma missing_graph_never_fires_witness :
  _is_missing "  " [] = true /\
  (let h := hop_dict (hop_view_from_graph_meta empty_registry (PDict demo_meta) "  " [] "t" "u1") in
   eval_graph_v1_from_features empty_registry (attach_hop_to_features [] h) "has_etype"
     (Some "USED_DEVICE") None "" = Ok false).
Proof.
  split; [reflexivity|].
  apply (missing_graph_never_fires empty_registry (PDict demo_meta) "  " [] "t" "u1" []).
  reflexivity.
Defined.

(** [has_etype] fires on a hop view only when the graph payload itself holds
    a named edge whose pack etype is the requested one, and that etype is signed
    for the tenant: the hop view invents no edge. *)
Theorem has_etype_not_invented r m url deg t s et ro tid :
  eval_graph_v1 r "has_etype"
    (Some (hop_dict (hop_view_from_graph_meta r (PDict m) url deg t s))) (Some et) ro tid = Ok true ->
  (exists l v e, get m "named_edges" PNone = PList l /\ v ∈ l /\ edge_of v = Some e /\
     canonical_pack_etype (Contract.etype e) = canonical_pack_etype (_norm_etype et)) /\
  exists t', _norm_etype et ∈ signed_pack_etypes r t'.
Proof.
  set (h := hop_view_from_graph_meta r (PDict m) url deg t s). unfold eval_graph_v1.
  destruct (negb (hop_is_present _)); [discriminate|].
  intros (pass & _ & H)%rbind_Ok. destruct pass; simpl negb in H; [|discriminate].
  cbv beta iota zeta in H.
  replace (bool_decide (strip "has_etype" = "has_etype")) with true in H by reflexivity.
  unfold require_pack_etype, opt_str in H. simpl default in H.
  destruct (_ && bool_decide _) eqn:Ereq; [|discriminate].
  apply andb_true_iff in Ereq as [_ Hs%bool_decide_eq_true].
  split; [|eauto].
  apply rbind_Ok in H as (edges & Hedges & H).
  assert (Hd : get (hop_dict h) "named_edges" PNone = PList (map edge_dict (h_edges h)))
    by reflexivity.
  rewrite Hd in Hedges. unfold iter_or_empty in Hedges.
  assert (Hedges' : edges = map edge_dict (h_edges h)).
  { destruct (map edge_dict (h_edges h)); simpl in Hedges; congruence. }
  subst edges. rewrite edge_types_hop in H. injection H as H.
  apply existsb_exists in H as (ty & Hty & Heq%bool_decide_eq_true).
  apply in_map_iff in Hty as (e & <- & Hin%list_elem_of_In).
  destruct (hop_edges_from_meta r m url deg t s e Hin) as (l & v & Hl & Hv & He).
  exists l, v, e. do 3 (split; [done|]). by destruct (Contract.etype e).
Qed.

Lemma has_etype_not_invented_witness :
  eval_graph_v1 empty_registry "has_etype"
    (Some (hop_dict (hop_view_from_graph_meta empty_registry (PDict demo_meta) "http://g" [] "t" "u1")))
    (Some "USES_DEVICE") None "t" = Ok true /\
  exists t', _norm_etype "USES_DEVICE" ∈ signed_pack_etypes empty_registry t'.
Proof.
  split; [vm_compute; reflexivity|].
  apply (has_etype_not_invented empty_registry demo_meta "http://g" [] "t" "u1" "USES_DEVICE" None "t").
  vm_compute. reflexivity.
Defined.

(** Whatever sequence of registrations and resets runs, including ones that
    stop half-way on a refused token, every token of the registry has the safe
    syntax. *)
Theorem registry_tokens_safe ops : registry_wf (foldl run_reg empty_registry ops).
Proof.
  assert (H0 : registry_wf empty_registry).
  { repeat split; simpl; intros t s; rewrite lookup_empty; set_solver. }
  revert H0. generalize empty_registry.
  induction ops as [|op ops IH]; intros r Hr; simpl; auto using run_reg_wf.
Qed.

(** [require_role] accepts exactly the safe roles, and once a tenant has
    registered any role only the registered ones. *)
Theorem require_role_spec r t role tok :
  require_role r t role = Ok tok <->
  tok = _norm_role role /\ role_safe_token tok = true /\
  (registered_roles r t = ∅ \/ tok ∈ registered_roles r t).
Proof.
  unfold require_role. generalize (_norm_role role) as n. intros n.
  assert (Hne : role_safe_token n = true -> nonempty n = true) by (by destruct n).
  destruct (role_safe_token n) eqn:Hs.
  - rewrite Hne by done. simpl.
    destruct (bool_decide_reflect (registered_roles r t = ∅)) as [He|He];
      destruct (bool_decide_reflect (n ∈ registered_roles r t)) as [Hi|Hi]; simpl; split;
      try (intros [= <-]; auto); try (intros (-> & _ & [|]); done).
  - rewrite orb_true_r. split; [discriminate|]. intros (-> & H & _). congruence.
Qed.

(** Two users are linked when some bridge node is adjacent to both. *)
Definition shares_bridge (by_id : gmap string dict) (edges : list edge) (sid uid : string) : Prop :=
  exists b n u, b ∈ adj edges sid /\ by_id !! b = Some n /\ _is_bridge_node n = true /\
    uid ∈ adj edges b /\ by_id !! uid = Some u /\ _is_user_node u = true.

Lemma bridge_labels n :
  existsb (fun l => mem l BRIDGE_VTYPES) (map lower (_labels_of n)) = true ->
  _is_bridge_node n = true.
Proof.
  rewrite !existsb_exists. intros (l & Hl & Hm%mem_spec).
  apply in_map_iff in Hl as (x & <- & Hx). unfold _is_bridge_node. apply existsb_exists.
  exists x. split; [done|]. apply mem_spec, elem_of_app. by left.
Qed.

(** The derived multi-id answer is exactly the set of other user vertices
    that share a bridge vertex with the subject, sorted and without duplicates:
    never the subject itself, never a user reached without a bridge. *)
Theorem multi_id_spec subject_id nodes edges uid :
  let named := filter_map edge_of edges in
  let ids := ga_multi (graph_answers_from_neighborhood subject_id nodes edges) in
  (uid ∈ ids <->
     uid <> strip subject_id /\ shares_bridge (index_nodes nodes) named (strip subject_id) uid)
  /\ NoDup ids /\ Sorted String.le ids.
Proof.
  intros named ids. unfold ids, graph_answers_from_neighborhood. simpl ga_multi.
  fold named. set (by_id := index_nodes nodes). set (sid := strip subject_id).
  split; [|split; auto using sorted_set_NoDup, sorted_set_sorted].
  rewrite sorted_set_elem, list_elem_of_In. unfold multi_ids.
  rewrite in_flat_map. setoid_rewrite <- list_elem_of_In. split.
  - intros (b & Hb & Hin). destruct (negb _ && negb _) eqn:Eb; [set_solver|].
    rewrite list_elem_of_In, in_flat_map in Hin. destruct Hin as (o & Ho & Hin).
    destruct (bool_decide_reflect (o = sid)) as [|Hne]; [by destruct Hin|].
    destruct (by_id !! o) as [u|] eqn:Eu; [|by destruct Hin].
    destruct (_is_user_node u) eqn:Euser; [|by destruct Hin].
    destruct Hin as [->|[]]. split; [done|].
    destruct (by_id !! b) as [n|] eqn:En; [|done].
    apply list_elem_of_In in Ho. exists b, n, u. repeat split; try done.
    apply andb_false_iff in Eb as [Eb%negb_false_iff|Eb%negb_false_iff]; [done|].
    by apply bridge_labels.
  - intros (Hne & b & n & u & Hb & Hn & Hbr & Hu & Hlu & Huser).
    exists b. split; [done|]. rewrite Hn. simpl. rewrite Hbr. simpl.
    rewrite list_elem_of_In, in_flat_map. exists uid.
    split; [by apply list_elem_of_In|]. rewrite bool_decide_eq_false_2 by done.
    rewrite Hlu, Huser. by left.
Qed.

End Theorems.
