(* ===== verification/AstRules.v ===== *)
(** Rule ASTs and rule bodies: [decision_api/ast_models.py],
    [decision_api/ast_evaluator.py] and the two [evaluate_*_when] functions of
    [decision_api/json_rules.py].

    [validate_ast] is the validation the Pydantic classes declare (discriminator
    [type], forbidden extra keys, length bounds, the [model_validator]s);
    [evaluate_json_ast] walks the validated tree with Python's short-circuiting
    [all] / [any]. *)

From Stdlib Require Import ZArith Lia Ascii String Bool.
From stdpp Require Import base option list sorting strings gmap.
From S2P Require Import Prelude PyFloat PyValue RuleMatch GraphContract.
Import GraphContract.Contract GraphContract.Atoms.
Local Open Scope Z_scope.

Definition MAX_AST_DEPTH : Z := 24.
Definition MAX_AST_NODES : Z := 384.
Definition MAX_AST_CHILDREN : Z := 32.
Definition _MAX_CUSTOM_SIGNAL_PARAMS_JSON_BYTES : Z := 8192.
Definition _MAX_CONDITIONS_PER_RULE : Z := 20.

Definition ConditionOpName : list string :=
  ["eq"; "not_eq"; "gte"; "gt"; "lte"; "lt"; "in"; "not_in"; "contains"; "starts_with";
   "ends_with"; "regex"; "is_true"; "is_false"; "exists"; "not_exists"].

Inductive json_ast : Type :=
| JsonAstCondition (op field : string) (value : pyval)
| JsonAstGraphV1 (atom : string) (etype role : option string)
| JsonAstCustomSignal (plugin_id : string) (params : dict) (output_key : string)
| JsonAstAnd (children : list json_ast)
| JsonAstOr (children : list json_ast).

Section json_ast_rect.
Context (P : json_ast -> Prop).
Hypothesis HCond : forall op f v, P (JsonAstCondition op f v).
Hypothesis HGraph : forall a e r, P (JsonAstGraphV1 a e r).
Hypothesis HSig : forall p ps k, P (JsonAstCustomSignal p ps k).
Hypothesis HAnd : forall l, Forall P l -> P (JsonAstAnd l).
Hypothesis HOr : forall l, Forall P l -> P (JsonAstOr l).

Fixpoint json_ast_nested_ind (a : json_ast) : P a :=
  let kids := fix go (l : list json_ast) : Forall P l :=
    match l with
    | [] => List.Forall_nil P
    | x :: l' => List.Forall_cons P x l' (json_ast_nested_ind x) (go l')
    end in
  match a with
  | JsonAstCondition op f v => HCond op f v
  | JsonAstGraphV1 at_ e r => HGraph at_ e r
  | JsonAstCustomSignal p ps k => HSig p ps k
  | JsonAstAnd l => HAnd l (kids l)
  | JsonAstOr l => HOr l (kids l)
  end.
End json_ast_rect.

(** ** Validation *)

(** A declared [str] field with [min_length=1, max_length=_MAX_FIELD_LEN]. *)
Definition bounded_str (v : pyval) : option string :=
  match v with
  | PStr s => if nonempty s && (str_len s <=? _MAX_FIELD_LEN) then Some s else None
  | _ => None
  end.

(** A declared [str | None] field. *)
Definition optional_str (v : pyval) : option (option string) :=
  match v with
  | PStr s => Some (Some s)
  | PNone => Some None
  | _ => None
  end.

Definition extra_forbid (allowed : list string) (d : dict) : bool :=
  forallb (fun k => mem k allowed) (dict_keys d).

Definition mk_condition (d : dict) : option json_ast :=
  if negb (extra_forbid ["type"; "op"; "field"; "value"] d) then None
  else
    match get d "op" (PStr "eq") with
    | PStr op =>
        if negb (mem op ConditionOpName) then None
        else match dict_lookup "field" d with
             | Some fv =>
                 match bounded_str fv with
                 | Some f =>
                     let value := get d "value" PNone in
                     if negb (is_none value) && (_MAX_VALUE_LEN <? str_len (py_str value))
                     then None else Some (JsonAstCondition op f value)
                 | None => None
                 end
             | None => None
             end
    | _ => None
    end.

(** [str.isalpha] and [str.isalnum] of one code point below 256. *)
Definition isalpha (c : ascii) : bool :=
  let n := code c in
  is_alpha c || (n =? 170)%N || (n =? 181)%N || (n =? 186)%N
  || ((192 <=? n)%N && negb (n =? 215)%N && negb (n =? 247)%N).
Definition isalnum (c : ascii) : bool :=
  let n := code c in
  isalpha c || is_digit c || (n =? 178)%N || (n =? 179)%N || (n =? 185)%N
  || ((188 <=? n)%N && (n <=? 190)%N).

Definition role_token_ok (role : string) : bool :=
  match strip role with
  | EmptyString => false
  | String c s' as token =>
      isalpha c && all_chars (fun ch => isalnum ch || Ascii.eqb ch "_" || Ascii.eqb ch "-") token
  end.

(** [JsonAstGraphV1._signed_tokens]. *)
Definition signed_tokens (atom : string) (etype role : option string) : bool :=
  mem atom GRAPH_V1_ATOMS
  && (if bool_decide (atom = "has_etype")
      then nonempty (strip (opt_str etype)) && is_ok (refuse_pack_etype_token (opt_str etype))
      else negb (nonempty (opt_str etype)))
  && match role with Some r => role_token_ok r | None => true end.

Definition mk_graph_v1 (d : dict) : option json_ast :=
  if negb (extra_forbid ["type"; "atom"; "etype"; "role"] d) then None
  else
    match dict_lookup "atom" d, optional_str (get d "etype" PNone), optional_str (get d "role" PNone)
    with
    | Some (PStr atom), Some et, Some ro =>
        if signed_tokens atom et ro then Some (JsonAstGraphV1 atom et ro) else None
    | _, _, _ => None
    end.

(** [JsonAstCustomSignal._params_json_cap]. *)
Definition params_json_cap (params : dict) : bool :=
  str_len (dumps_sorted (PDict params)) <=? _MAX_CUSTOM_SIGNAL_PARAMS_JSON_BYTES.

Definition mk_custom_signal (d : dict) : option json_ast :=
  if negb (extra_forbid ["type"; "plugin_id"; "params"; "output_key"] d) then None
  else
    match dict_lookup "plugin_id" d, get d "params" (PDict []), dict_lookup "output_key" d with
    | Some p, PDict ps, Some k =>
        match bounded_str p, bounded_str k with
        | Some pid, Some ok =>
            if params_json_cap ps then Some (JsonAstCustomSignal pid ps ok) else None
        | _, _ => None
        end
    | _, _, _ => None
    end.

Fixpoint all_some {A : Type} (l : list (option A)) : option (list A) :=
  match l with
  | [] => Some []
  | Some x :: l' => match all_some l' with Some xs => Some (x :: xs) | None => None end
  | None :: _ => None
  end.

(** [children: list[JsonAstNode]] with [min_length=1, max_length=MAX_AST_CHILDREN]. *)
Definition mk_children (kids : option (list (option json_ast))) : option (list json_ast) :=
  match kids with
  | Some l =>
      if (1 <=? Z.of_nat (length l)) && (Z.of_nat (length l) <=? MAX_AST_CHILDREN)
      then all_some l else None
  | None => None
  end.

(** [TypeAdapter(JsonAstNode).validate_python]: [None] is a [ValidationError]. *)
Fixpoint validate_ast (v : pyval) : option json_ast :=
  match v with
  | PDict d =>
      (* the validated entries of the first ["children"] list *)
      let kids := (fix find (d : dict) : option (list (option json_ast)) :=
        match d with
        | [] => None
        | (k, w) :: d' =>
            if bool_decide ("children" = k)
            then match w with PList l => Some (map validate_ast l) | _ => None end
            else find d'
        end) d in
      match get d "type" PNone with
      | PStr "condition" => mk_condition d
      | PStr "custom_signal" => mk_custom_signal d
      | PStr "graph_v1" => mk_graph_v1 d
      | PStr "and" =>
          if extra_forbid ["type"; "children"] d then JsonAstAnd <$> mk_children kids else None
      | PStr "or" =>
          if extra_forbid ["type"; "children"] d then JsonAstOr <$> mk_children kids else None
      | _ => None
      end
  | _ => None
  end.

(** ** Limits *)

Fixpoint ast_max_depth (a : json_ast) : Z :=
  match a with
  | JsonAstAnd l | JsonAstOr l => 1 + foldr Z.max 0 (map ast_max_depth l)
  | _ => 1
  end.

Fixpoint ast_node_count (a : json_ast) : Z :=
  match a with
  | JsonAstAnd l | JsonAstOr l => 1 + foldr Z.add 0 (map ast_node_count l)
  | _ => 1
  end.

Definition enforce_ast_limits (a : json_ast) : result unit :=
  if MAX_AST_DEPTH <? ast_max_depth a then Err ValueError
  else if MAX_AST_NODES <? ast_node_count a then Err ValueError
  else Ok tt.

(** ** Evaluation *)

(** [all(f(x) for x in l)] and [any(...)]: short-circuiting, exceptions pass. *)
Fixpoint rall {A : Type} (f : A -> result bool) (l : list A) : result bool :=
  match l with
  | [] => Ok true
  | x :: l' => let! b := f x in if b then rall f l' else Ok false
  end.

Fixpoint rany {A : Type} (f : A -> result bool) (l : list A) : result bool :=
  match l with
  | [] => Ok false
  | x :: l' => let! b := f x in if b then Ok true else rany f l'
  end.

Fixpoint evaluate_json_ast (r : registry) (features : dict) (node : json_ast) : result bool :=
  match node with
  | JsonAstGraphV1 atom et ro => eval_graph_v1_from_features r features atom et ro ""
  | JsonAstCustomSignal _ _ output_key =>
      let key := strip output_key in Ok (nonempty key && has_key features key)
  | JsonAstCondition op field value => _match_condition features (text_cond op field value)
  | JsonAstAnd children =>
      (fix go (l : list json_ast) : result bool :=
         match l with
         | [] => Ok true
         | x :: l' => let! b := evaluate_json_ast r features x in if b then go l' else Ok false
         end) children
  | JsonAstOr children =>
      (fix go (l : list json_ast) : result bool :=
         match l with
         | [] => Ok false
         | x :: l' => let! b := evaluate_json_ast r features x in if b then Ok true else go l'
         end) children
  end.

Lemma evaluate_and r F l :
  evaluate_json_ast r F (JsonAstAnd l) = rall (evaluate_json_ast r F) l.
Proof. simpl. induction l as [|x l IH]; simpl; [done|]. by rewrite IH. Qed.

Lemma evaluate_or r F l :
  evaluate_json_ast r F (JsonAstOr l) = rany (evaluate_json_ast r F) l.
Proof. simpl. induction l as [|x l IH]; simpl; [done|]. by rewrite IH. Qed.

(** ** Rule bodies *)

(** The [when_ast] branch: any exception is a miss. *)
Definition eval_when_ast (r : registry) (raw_ast : pyval) (features : dict) : bool :=
  match validate_ast raw_ast with
  | None => false
  | Some node =>
      match enforce_ast_limits node with
      | Err _ => false
      | Ok _ => match evaluate_json_ast r features node with Ok b => b | Err _ => false end
      end
  end.

(** The [for idx, cond in enumerate(when)] loop. *)
Fixpoint eval_flat (features : dict) (conds : list pyval) : result bool :=
  match conds with
  | [] => Ok true
  | PDict cond :: rest =>
      let fld := get cond "field" PNone in
      if negb (truthy fld) || (_MAX_FIELD_LEN <? str_len (py_str fld)) then Ok false
      else
        let! _ := dict_get_any features fld in
        let! passed := _match_condition features cond in
        if passed then eval_flat features rest else Ok false
  | _ :: _ => Ok false
  end.

Definition evaluate_rule_when (r : registry) (rule : dict) (merged_features : dict)
    : result bool :=
  let when := get rule "when" PNone in
  let raw_ast := get rule "when_ast" PNone in
  let has_flat := match when with PList (_ :: _) => true | _ => false end in
  let has_ast := negb (is_none raw_ast) in
  if has_flat && has_ast then Ok false
  else if has_ast then Ok (eval_when_ast r raw_ast merged_features)
  else if negb has_flat then Ok false
  else
    let conds := as_list when in
    if _MAX_CONDITIONS_PER_RULE <? Z.of_nat (length conds) then Ok false
    else eval_flat merged_features conds.

Definition evaluate_tag_rule_when (any_tag : pyval) (redis_tags : list string) : bool :=
  match any_tag with
  | PList l =>
      let need := remove_dups (filter_map (fun t => match t with PStr s => Some s | _ => None end) l) in
      match need with
      | [] => false
      | _ => foldl (fun acc tag => if mem tag redis_tags then true else acc) false
                   (merge_sort String.le need)
      end
  | _ => false
  end.

(** * Theorems *)

(** A condition both spellings of a rule body accept. *)
Record cond_src : Type := CondSrc { cs_op : string; cs_field : string; cs_value : pyval }.

Definition cond_ok (c : cond_src) : bool :=
  mem c.(cs_op) ConditionOpName && nonempty c.(cs_field)
  && (str_len c.(cs_field) <=? _MAX_FIELD_LEN)
  && (is_none c.(cs_value) || (str_len (py_str c.(cs_value)) <=? _MAX_VALUE_LEN)).

(** The flat entry and the AST leaf that say the same thing. *)
Definition flat_entry (c : cond_src) : pyval := PDict (text_cond c.(cs_op) c.(cs_field) c.(cs_value)).
Definition ast_entry (c : cond_src) : pyval :=
  PDict (("type", PStr "condition") :: text_cond c.(cs_op) c.(cs_field) c.(cs_value)).

Definition flat_rule (cs : list cond_src) : dict := [("when", PList (map flat_entry cs))].
Definition ast_rule (cs : list cond_src) : dict :=
  [("when_ast", PDict [("type", PStr "and"); ("children", PList (map ast_entry cs))])].

Definition leaf (c : cond_src) : json_ast := JsonAstCondition c.(cs_op) c.(cs_field) c.(cs_value).

Lemma validate_leaf c : cond_ok c = true -> validate_ast (ast_entry c) = Some (leaf c).
Proof.
  unfold cond_ok. intros [[[Hop Hne]%andb_prop Hl]%andb_prop Hv]%andb_prop.
  unfold ast_entry. change (validate_ast _) with
    (mk_condition (("type", PStr "condition") :: text_cond (cs_op c) (cs_field c) (cs_value c))).
  unfold mk_condition.
  change (extra_forbid _ _) with true. cbn [negb].
  change (get _ "op" _) with (PStr (cs_op c)). cbn match. rewrite Hop. cbn [negb].
  change (dict_lookup "field" _) with (Some (PStr (cs_field c))). cbn match.
  unfold bounded_str. rewrite Hne, Hl. cbn [andb].
  change (get _ "value" _) with (cs_value c).
  destruct (is_none (cs_value c)); [done|]. cbn [orb negb andb] in *.
  apply Z.leb_le in Hv. destruct (Z.ltb_spec _MAX_VALUE_LEN (str_len (py_str (cs_value c)))); [lia|done].
Qed.

Lemma all_some_map {A B} (f : A -> option B) (g : A -> B) l :
  Forall (fun x => f x = Some (g x)) l -> all_some (map f l) = Some (map g l).
Proof. induction 1 as [|x l Hx _ IH]; simpl; [done|]. by rewrite Hx, IH. Qed.

Lemma validate_and_rule cs :
  (1 <= length cs <= 32)%nat -> Forall (fun c => cond_ok c = true) cs ->
  validate_ast (PDict [("type", PStr "and"); ("children", PList (map ast_entry cs))])
  = Some (JsonAstAnd (map leaf cs)).
Proof.
  intros Hlen Hok.
  change (validate_ast _) with (JsonAstAnd <$> mk_children (Some (map validate_ast (map ast_entry cs)))).
  unfold mk_children. rewrite !length_map.
  replace ((1 <=? Z.of_nat (length cs)) && (Z.of_nat (length cs) <=? MAX_AST_CHILDREN)) with true
    by (unfold MAX_AST_CHILDREN; symmetry; apply andb_true_intro; lia).
  rewrite map_map, (all_some_map _ leaf); [done|].
  eapply Forall_impl; [exact Hok|]. apply validate_leaf.
Qed.

Lemma leaf_limits cs : (length cs <= 32)%nat -> enforce_ast_limits (JsonAstAnd (map leaf cs)) = Ok tt.
Proof.
  intros Hlen. unfold enforce_ast_limits.
  assert (Hd : foldr Z.max 0 (map ast_max_depth (map leaf cs)) <= 1)
    by (clear; induction cs; simpl in *; lia).
  assert (Hn : foldr Z.add 0 (map ast_node_count (map leaf cs)) = Z.of_nat (length cs))
    by (clear; induction cs; simpl in *; lia).
  simpl. unfold MAX_AST_DEPTH, MAX_AST_NODES.
  destruct (Z.ltb_spec 24 (1 + foldr Z.max 0 (map ast_max_depth (map leaf cs)))); [lia|].
  destruct (Z.ltb_spec 384 (1 + foldr Z.add 0 (map ast_node_count (map leaf cs)))); [lia|done].
Qed.

Lemma flat_is_rall F cs :
  Forall (fun c => cond_ok c = true) cs ->
  eval_flat F (map flat_entry cs) = rall (fun c => _match_condition F (text_cond (cs_op c) (cs_field c) (cs_value c))) cs.
Proof.
  induction 1 as [|c cs Hc _ IH]; [done|].
  unfold cond_ok in Hc. apply andb_prop in Hc as [[[_ Hne]%andb_prop Hl]%andb_prop _].
  cbn [map flat_entry eval_flat rall].
  change (get (text_cond _ _ _) "field" _) with (PStr (cs_field c)).
  cbn [truthy py_str dict_get_any rbind]. rewrite Hne.
  apply Z.leb_le in Hl. destruct (Z.ltb_spec _MAX_FIELD_LEN (str_len (cs_field c))); [lia|].
  cbn [negb orb]. by rewrite IH.
Qed.

Lemma rall_total {A} (f : A -> result bool) l :
  (forall x, exists b, f x = Ok b) -> exists b, rall f l = Ok b.
Proof.
  intros H. induction l as [|x l [b IH]]; simpl; [eauto|].
  destruct (H x) as [c ->]. simpl. destruct c; eauto.
Qed.

Lemma rall_map {A B} (f : B -> result bool) (g : A -> B) l : rall f (map g l) = rall (fun x => f (g x)) l.
Proof. induction l as [|x l IH]; simpl; [done|]. destruct (f (g x)) as [[]|]; simpl; congruence. Qed.

(** The two spellings of a rule body agree: a flat [when] list of valid
    conditions (at most 20) decides exactly as a [when_ast] that conjoins the
    same conditions, on every feature map, and neither raises. *)
Theorem flat_when_equiv_when_ast r F cs :
  (1 <= length cs)%nat -> Z.of_nat (length cs) <= _MAX_CONDITIONS_PER_RULE ->
  Forall (fun c => cond_ok c = true) cs ->
  evaluate_rule_when r (flat_rule cs) F = evaluate_rule_when r (ast_rule cs) F
  /\ is_ok (evaluate_rule_when r (flat_rule cs) F) = true.
Proof.
  intros H1 H2 Hok. unfold _MAX_CONDITIONS_PER_RULE in H2.
  assert (Hflat : evaluate_rule_when r (flat_rule cs) F = eval_flat F (map flat_entry cs)).
  { unfold evaluate_rule_when. change (get (flat_rule cs) "when" PNone) with (PList (map flat_entry cs)).
    change (get (flat_rule cs) "when_ast" PNone) with PNone. cbn match zeta.
    destruct cs as [|c cs]; [simpl in H1; lia|]. cbn [map is_none negb andb as_list].
    destruct (Z.ltb_spec _MAX_CONDITIONS_PER_RULE (Z.of_nat (length (flat_entry c :: map flat_entry cs))))
      as [Hlt|]; [|done].
    unfold _MAX_CONDITIONS_PER_RULE in Hlt. simpl in Hlt, H2. rewrite length_map in Hlt. lia. }
  assert (Hast : evaluate_rule_when r (ast_rule cs) F
          = Ok (match evaluate_json_ast r F (JsonAstAnd (map leaf cs)) with Ok b => b | Err _ => false end)).
  { unfold evaluate_rule_when. change (get (ast_rule cs) "when" PNone) with PNone.
    change (get (ast_rule cs) "when_ast" PNone)
      with (PDict [("type", PStr "and"); ("children", PList (map ast_entry cs))]).
    cbn match zeta. cbn [is_none negb andb]. unfold eval_when_ast.
    rewrite validate_and_rule, leaf_limits by (auto; lia). done. }
  rewrite Hflat, Hast, flat_is_rall, evaluate_and, rall_map by done.
  destruct (rall_total (fun c => _match_condition F (text_cond (cs_op c) (cs_field c) (cs_value c))) cs)
    as [b Hb].
  { intros c. by apply (match_condition_total F _ (cs_field c)). }
  change (fun x => evaluate_json_ast r F (leaf x)) with
    (fun c => _match_condition F (text_cond (cs_op c) (cs_field c) (cs_value c))).
  by rewrite Hb.
Qed.

Definition example_conds : list cond_src :=
  [CondSrc "gte" "amount" (PInt 500); CondSrc "eq" "country" (PStr "IN")].
Definition example_features : dict := [("amount", PInt 700); ("country", PStr "IN")].

Lemma flat_when_equiv_when_ast_witness :
  evaluate_rule_when empty_registry (flat_rule example_conds) example_features = Ok true
  /\ evaluate_rule_when empty_registry (flat_rule example_conds) example_features
     = evaluate_rule_when empty_registry (ast_rule example_conds) example_features.
Proof.
  split; [vm_compute; reflexivity|].
  refine (proj1 (flat_when_equiv_when_ast empty_registry example_features example_conds _ _ _));
    [vm_compute; lia|vm_compute; congruence|repeat constructor].
Defined.

Lemma eval_flat_true F conds :
  eval_flat F conds = Ok true <->
  Forall (fun c => exists d, c = PDict d /\ _match_condition F d = Ok true) conds.
Proof.
  induction conds as [|c conds IH]; simpl; [split; [constructor|done]|].
  rewrite Forall_cons, <- IH. split.
  - destruct c as [| | | | | |d]; try discriminate.
    destruct (negb (truthy (get d "field" PNone)) || _); [discriminate|].
    intros H. inv_ok. destruct a0; [|discriminate]. eauto.
  - intros [(d & -> & Hm) Hrest]. pose proof Hm as Hm'. unfold _match_condition in Hm'.
    destruct (negb (truthy (get d "field" PNone)) || _); [discriminate|].
    destruct (dict_get_any F (get d "field" PNone)); [|discriminate]. simpl. by rewrite Hm.
Qed.

(** C17: when a rule fires.  A rule body evaluates to true exactly when one of
    its two spellings is present and the other is not, and: a flat [when] has
    at most 20 entries, each an object whose condition matches; a [when_ast]
    passes validation, stays inside the depth and node limits, and evaluates
    to true without raising.  Every other rule is a miss or an error, never a
    hit. *)
Theorem rule_fires_iff r rule F :
  evaluate_rule_when r rule F = Ok true <->
  (exists c conds, get rule "when" PNone = PList (c :: conds)
     /\ get rule "when_ast" PNone = PNone
     /\ Z.of_nat (length (c :: conds)) <= _MAX_CONDITIONS_PER_RULE
     /\ Forall (fun c => exists d, c = PDict d /\ _match_condition F d = Ok true) (c :: conds))
  \/ ((forall c conds, get rule "when" PNone <> PList (c :: conds))
     /\ exists node, validate_ast (get rule "when_ast" PNone) = Some node
          /\ ast_max_depth node <= MAX_AST_DEPTH /\ ast_node_count node <= MAX_AST_NODES
          /\ evaluate_json_ast r F node = Ok true).
Proof.
  unfold evaluate_rule_when.
  destruct (match get rule "when" PNone with PList (_ :: _) => true | _ => false end) eqn:Ef.
  - destruct (get rule "when" PNone) as [| | | | |[|c conds]|]; try discriminate. clear Ef.
    destruct (get rule "when_ast" PNone) eqn:Ea; cbn [is_none negb andb];
      try (split; [discriminate|intros [(? & ? & _ & ? & _)|[H _]]; [discriminate|by destruct (H c conds)]]).
    cbn [as_list]. destruct (Z.ltb_spec _MAX_CONDITIONS_PER_RULE (Z.of_nat (length (c :: conds)))) as [Hl|Hl].
    + split; [discriminate|]. intros [(c' & cs' & [= <- <-] & _ & Hl' & _)|[H _]]; [lia|by destruct (H c conds)].
    + rewrite eval_flat_true. split; [by left; eauto 6|].
      intros [(c' & cs' & [= <- <-] & _ & _ & H)|[H _]]; [done|by destruct (H c conds)].
  - assert (Hno : forall c conds, get rule "when" PNone <> PList (c :: conds)).
    { intros c conds Hc. by rewrite Hc in Ef. }
    cbn [andb]. destruct (is_none (get rule "when_ast" PNone)) eqn:En; cbn [negb].
    + destruct (get rule "when_ast" PNone); try discriminate. split; [discriminate|].
      intros [(c & cs & H & _)|[_ (n & H & _)]]; [by destruct (Hno c cs)|discriminate].
    + unfold eval_when_ast, enforce_ast_limits.
      destruct (validate_ast (get rule "when_ast" PNone)) as [node|].
      2:{ split; [discriminate|]. intros [(c & cs & H & _)|[_ (n & H & _)]]; [by destruct (Hno c cs)|discriminate]. }
      destruct (Z.ltb_spec MAX_AST_DEPTH (ast_max_depth node));
        [|destruct (Z.ltb_spec MAX_AST_NODES (ast_node_count node));
          [|destruct (evaluate_json_ast r F node) as [b|] eqn:Ee]].
      3:{ split.
        - intros [= ->]. right. split; [done|]. exists node. auto with lia.
        - intros [(c & cs & H' & _)|[_ (n & [= <-] & _ & _ & Hn)]]; [by destruct (Hno c cs)|congruence]. }
      all: split; [discriminate|].
      all: intros [(c & cs & H' & _)|[_ (n & [= <-] & ? & ? & Hn)]]; [by destruct (Hno c cs)|]; congruence || lia.
Qed.

Lemma foldl_any_tag l tags b :
  foldl (fun acc tag => if mem tag tags then true else acc) b l = b || existsb (fun t => mem t tags) l.
Proof.
  revert b. induction l as [|t l IH]; intros b; simpl; [by rewrite orb_false_r|].
  rewrite IH. by destruct (mem t tags), b.
Qed.

(** A tag rule fires exactly when its [any_tag] is a list holding, among
    its text entries, a tag the entity has: an empty list, non-text entries
    and a non-list never fire. *)
Theorem tag_rule_fires_iff any_tag tags :
  evaluate_tag_rule_when any_tag tags = true <->
  exists l t, any_tag = PList l /\ PStr t ∈ l /\ t ∈ tags.
Proof.
  unfold evaluate_tag_rule_when. split.
  - destruct any_tag as [| | | | |l|]; try discriminate.
    set (need := remove_dups _). intros H.
    assert (Hx : existsb (fun t => mem t tags) (merge_sort String.le need) = true).
    { destruct need; [discriminate|]. by rewrite foldl_any_tag in H. }
    apply existsb_exists in Hx as (t & Ht & Hm%mem_spec). apply list_elem_of_In in Ht.
    rewrite merge_sort_Permutation in Ht. unfold need in Ht.
    rewrite elem_of_remove_dups, filter_map_elem in Ht. destruct Ht as (v & Hv & Ev).
    destruct v; simplify_eq. eauto.
  - intros (l & t & -> & Hl & Ht). set (need := remove_dups _).
    assert (Hn : t ∈ need) by (unfold need; rewrite elem_of_remove_dups, filter_map_elem; eauto).
    destruct need as [|n nd] eqn:E; [by apply not_elem_of_nil in Hn|]. rewrite <- E in *.
    rewrite foldl_any_tag. apply existsb_exists. exists t. split; [|by apply mem_spec].
    apply list_elem_of_In. by rewrite merge_sort_Permutation.
Qed.
