(* ===== verification/SignalResolver.v ===== *)
(** Custom signals: [tarka_core/engine_adapter.py].

    The resolver maps plugin ids to handlers registered by the host.  A handler
    is outside the program: it is a function from its arguments to an [signal_outcome]
    (a value, an exception or a wall-clock timeout).  [resolve_all] builds the
    [resolved_signals] map, and the [merge_*] functions overlay it on the
    feature map the rule engines read. *)

From Stdlib Require Import ZArith Lia Ascii String Bool.
From stdpp Require Import base option list strings gmap.
From S2P Require Import Prelude PyFloat PyValue RuleMatch.
Local Open Scope Z_scope.

Inductive signal_outcome : Type :=
| Value (v : pyval)
| Raised
| TimedOut.

(** [fn(params, features=..., tenant_id=..., entity_id=...)] under the timeout. *)
Definition handler : Type := dict -> dict -> string -> string -> signal_outcome.

Definition resolver : Type := list (string * handler).

Fixpoint handler_of (hs : resolver) (pid : string) : option handler :=
  match hs with
  | [] => None
  | (p, h) :: hs' => if bool_decide (pid = p) then Some h else handler_of hs' pid
  end.

Definition register (hs : resolver) (plugin_id : string) (fn : handler) : result resolver :=
  if negb (nonempty plugin_id) || negb (nonempty (strip plugin_id)) then Err ValueError
  else Ok ((strip plugin_id, fn)
             :: List.filter (fun ph => negb (bool_decide (ph.1 = strip plugin_id))) hs).

Definition unregister (hs : resolver) (plugin_id : string) : resolver :=
  List.filter (fun ph => negb (bool_decide (ph.1 = strip plugin_id))) hs.

Definition clear (hs : resolver) : resolver := [].

Definition has_handler (hs : resolver) (plugin_id : string) : bool :=
  match handler_of hs (strip plugin_id) with Some _ => true | None => false end.

Record spec : Type := Spec { sp_plugin : string; sp_params : dict; sp_key : string }.

Definition or_default (s : string) : string := str_or (strip s) "default".

(** [resolve_spec]: the handler runs on a copy of the features. *)
Definition resolve_spec (hs : resolver) (pid : string) (params features : dict)
    (tenant_id entity_id : string) : signal_outcome :=
  match handler_of hs (strip pid) with
  | None => Raised
  | Some fn => fn params features (or_default tenant_id) (or_default entity_id)
  end.

(** One iteration of the loop of [resolve_all] on [(resolved, base)]. *)
Definition resolve_step (hs : resolver) (tid eid : string) (st : dict * dict) (sp : spec)
    : dict * dict :=
  let '(resolved, base) := st in
  let ok := strip sp.(sp_key) in
  let pid := strip sp.(sp_plugin) in
  if negb (nonempty ok) || negb (nonempty pid) then st
  else if negb (has_handler hs pid) then (dict_set ok PNone resolved, base)
  else match resolve_spec hs pid sp.(sp_params) base tid eid with
       | Value v => (dict_set ok v resolved, dict_set ok v base)
       | Raised | TimedOut => (dict_set ok PNone resolved, dict_set ok PNone base)
       end.

Definition resolve_all (hs : resolver) (specs : list spec) (features : dict)
    (tenant_id entity_id : string) : dict :=
  fst (foldl (resolve_step hs (or_default tenant_id) (or_default entity_id)) ([], features) specs).

(** ** Collecting the specs of a raw AST *)

Definition _MAX_PARAMS_JSON_BYTES : Z := 8192.

Definition node_spec (d : dict) : list spec :=
  if eq_str (get d "type" PNone) "custom_signal" then
    let params := as_dict (get d "params" PNone) in
    match get d "plugin_id" PNone, get d "output_key" PNone with
    | PStr pid, PStr out_k =>
        if nonempty (strip pid) && nonempty (strip out_k) then
          let safe_params :=
            if _MAX_PARAMS_JSON_BYTES <? str_len (dumps_sorted (PDict params)) then [] else params in
          [Spec (strip pid) safe_params (strip out_k)]
        else []
    | _, _ => []
    end
  else [].

Fixpoint iter_custom_signal_specs (ast : pyval) : list spec :=
  match ast with
  | PDict d =>
      node_spec d ++
      (fix find (d : dict) : list spec :=
         match d with
         | [] => []
         | (k, w) :: d' =>
             if bool_decide ("children" = k)
             then match w with PList ch => flat_map iter_custom_signal_specs ch | _ => [] end
             else find d'
         end) d
  | _ => []
  end.

(** The raw [when_ast] dictionaries of one pack, in rule order. *)
Definition pack_asts (pack : dict) : list pyval :=
  match get pack "rules" PNone with
  | PList rules =>
      filter_map (fun rule =>
        match rule with
        | PDict ru => match get ru "when_ast" PNone with PDict a => Some (PDict a) | _ => None end
        | _ => None
        end) rules
  | _ => []
  end.

Definition dedup_key (sp : spec) : string * string * string :=
  (sp.(sp_plugin), dumps_sorted (PDict sp.(sp_params)), sp.(sp_key)).

Fixpoint dedup_specs (seen : list (string * string * string)) (l : list spec) : list spec :=
  match l with
  | [] => []
  | sp :: l' =>
      if bool_decide (dedup_key sp ∈ seen) then dedup_specs seen l'
      else sp :: dedup_specs (dedup_key sp :: seen) l'
  end.

Definition collect_custom_signal_specs_from_packs (packs : list dict) : list spec :=
  dedup_specs [] (flat_map (fun p => flat_map iter_custom_signal_specs (pack_asts p)) packs).

Definition merge_features_with_resolved_from_ast (hs : resolver) (features : dict) (ast : pyval)
    (tenant_id entity_id : string) : dict :=
  match ast with
  | PDict _ =>
      dict_update features
        (resolve_all hs (iter_custom_signal_specs ast) features tenant_id entity_id)
  | _ => features
  end.

Definition merge_features_with_resolved_from_packs (hs : resolver) (features : dict)
    (packs : list dict) (tenant_id entity_id : string) : dict :=
  dict_update features
    (resolve_all hs (collect_custom_signal_specs_from_packs packs) features tenant_id entity_id).

(** * Lemmas *)

Definition valid_spec (sp : spec) : bool := nonempty (strip sp.(sp_key)) && nonempty (strip sp.(sp_plugin)).

Lemma resolve_step_keys hs tid eid st sp k :
  has_key (fst (resolve_step hs tid eid st sp)) k
  = has_key (fst st) k || (valid_spec sp && bool_decide (k = strip sp.(sp_key))).
Proof.
  destruct st as [resolved base]. unfold resolve_step, valid_spec.
  destruct (nonempty (strip (sp_key sp))) eqn:Ek; simpl; [|by rewrite orb_false_r].
  destruct (nonempty (strip (sp_plugin sp))) eqn:Ep; simpl; [|by rewrite orb_false_r].
  destruct (has_handler hs _); simpl; [destruct (resolve_spec _ _ _ _ _ _)|];
    simpl; rewrite has_key_set; by rewrite orb_comm.
Qed.

(** The resolved map has a key for every valid spec, whether its handler
    succeeded, failed, timed out or does not exist. *)
Lemma resolve_all_keys hs specs features t e k :
  has_key (resolve_all hs specs features t e) k
  = existsb (fun sp => valid_spec sp && bool_decide (k = strip sp.(sp_key))) specs.
Proof.
  unfold resolve_all.
  assert (G : forall st, has_key (fst (foldl (resolve_step hs (or_default t) (or_default e)) st specs)) k
    = has_key (fst st) k
      || existsb (fun sp => valid_spec sp && bool_decide (k = strip sp.(sp_key))) specs).
  { induction specs as [|sp specs IH]; intros st; simpl; [by rewrite orb_false_r|].
    rewrite IH, resolve_step_keys. by rewrite orb_assoc. }
  by rewrite G.
Qed.

Lemma merge_from_ast_keys hs features d t e k :
  has_key (merge_features_with_resolved_from_ast hs features (PDict d) t e) k
  = has_key features k
    || existsb (fun sp => valid_spec sp && bool_decide (k = strip sp.(sp_key)))
         (iter_custom_signal_specs (PDict d)).
Proof.
  unfold merge_features_with_resolved_from_ast. by rewrite has_key_update, resolve_all_keys.
Qed.

(** Features that no signal writes are kept as they were. *)
Lemma dict_update_lookup_notin d e k :
  has_key e k = false -> dict_lookup k (dict_update d e) = dict_lookup k d.
Proof.
  unfold dict_update. revert d. induction e as [|[k0 v0] e IH]; intros d He; simpl; [done|].
  unfold has_key in He. simpl in He.
  destruct (bool_decide_reflect (k = k0)) as [->|Hne]; [discriminate|].
  rewrite IH by done. by rewrite dict_lookup_set, bool_decide_eq_false_2.
Qed.

Lemma merge_preserves hs features packs t e k :
  existsb (fun sp => valid_spec sp && bool_decide (k = strip sp.(sp_key)))
    (collect_custom_signal_specs_from_packs packs) = false ->
  dict_lookup k (merge_features_with_resolved_from_packs hs features packs t e)
  = dict_lookup k features.
Proof. intros H. apply dict_update_lookup_notin. by rewrite resolve_all_keys. Qed.
