(* ===== verification/JsonRules.v ===== *)
(** The JSON rule pack store, rollout gates and hit telemetry of
    [decision_api/json_rules.py].

    [Rollout] is the per-entity canary and effective-date gate, [Store] the
    module globals that hold the loaded packs and [load_rules] over a directory
    listing, [Telemetry] the rule-hit counters with their durable file, and
    [Search] the command-palette lookup.  Wall-clock readings, directory
    listings, file contents and Redis answers are inputs. *)

From Stdlib Require Import ZArith Lia Ascii String Bool.
From stdpp Require Import base option list sorting strings gmap.
From S2P Require Import Prelude PyFloat PyValue Sha256 PyDateTime.
Local Open Scope Z_scope.

(** [len(v)] of a JSON value. *)
Definition py_len (v : pyval) : result Z :=
  match v with
  | PStr s => Ok (str_len s)
  | PList l => Ok (Z.of_nat (length l))
  | PDict d => Ok (Z.of_nat (length d))
  | _ => Err TypeError
  end.

Definition merge_redis_tags_with_signals (redis_tags : list string)
    (signal_tags : option (list string)) : list string :=
  append_new redis_tags (default [] signal_tags).

Module Rollout.

Definition _pack_experiment_bucket (tenant_id entity_id pack_key : string) : Z :=
  let raw := tenant_id +:+ "|" +:+ entity_id +:+ "|" +:+ pack_key in
  int16 0 (str_take 8 (sha256_hex raw)) mod 100.

(** [dt.astimezone(timezone.utc)]: the instant, or [OverflowError] outside the
    representable years. *)
Definition astimezone_utc (d : datetime) : result Z :=
  let i := instant d in
  if (dt_min <=? i) && (i <=? dt_max) then Ok i else Err OverflowError.

(** The UTC instant, [None] when the field is absent or malformed. *)
Definition _parse_effective_at (raw : pyval) : result (option Z) :=
  match raw with
  | PStr s0 =>
      let s := strip s0 in
      if negb (nonempty s) then Ok None
      else
        let s := if endswith s "Z" then str_take (String.length s - 1) s +:+ "+00:00" else s in
        match (let! dt := fromisoformat s in astimezone_utc (assume_utc dt)) with
        | Ok i => Ok (Some i)
        | Err ValueError =>
            match strptime_iso s with
            | Ok dt => Ok (Some (instant (assume_utc dt)))
            | Err _ => Ok None
            end
        | Err e => Err e
        end
  | _ => Ok None
  end.

Definition before (eff : option Z) (now : Z) : bool :=
  match eff with Some e => now <? e | None => false end.

(** The canary percentage branch, given the entity's bucket. *)
Definition canary_gate (cp : pyval) (bucket : Z) : result (bool * option string) :=
  match cp with
  | PNone => Ok (true, None)
  | _ =>
      match py_float cp with
      | Err e => if is_type_or_value_error e then Ok (true, None) else Err e
      | Ok pct =>
          if fleb (litZ 100) pct then Ok (true, None)
          else if fleb pct f_zero then Ok (false, Some "canary_zero")
          else match cmp_Z_float bucket pct with
               | Some Lt | None => Ok (true, None)
               | _ => Ok (false, Some "canary_excluded")
               end
      end
  end.

Definition pack_key (pack : dict) : string :=
  py_str (por (get pack "_source_file" PNone) (por (get pack "name" PNone) (PStr "pack"))).

(** [now] is the UTC wall clock read by the function. *)
Definition _pack_should_apply (pack : dict) (tenant_id entity_id evaluation_mode : string) (now : Z)
    : result (bool * option string) :=
  if bool_decide (evaluation_mode = "simulation") then Ok (true, None)
  else
    let! eff := _parse_effective_at (get pack "effective_at" PNone) in
    if before eff now then Ok (false, Some "before_effective_at")
    else if bool_decide (evaluation_mode = "challenger") then Ok (true, None)
    else canary_gate (get pack "canary_percent" PNone)
           (_pack_experiment_bucket tenant_id entity_id (pack_key pack)).

(** ** Cohorts of [decision_api/policy_routing.py] *)

Definition _cohort_digest_hex (tenant_id entity_id salt : string) : string :=
  sha256_hex (tenant_id +:+ "|" +:+ entity_id +:+ "|" +:+ salt).

Definition cohort_bucket_0_99 (tenant_id entity_id salt : string) : Z :=
  int16 0 (str_take 8 (_cohort_digest_hex tenant_id entity_id salt)) mod 100.

Definition build_canary_cohort_audit (tenant_id entity_id salt_version : string)
    (experiment_id : option string) : dict :=
  let digest := _cohort_digest_hex tenant_id entity_id salt_version in
  let out := [("schema_version", PInt 1);
              ("cohort_sticky_id", PStr (str_take 16 digest));
              ("cohort_bucket_0_99", PInt (int16 0 (str_take 8 digest) mod 100));
              ("salt_version", PStr salt_version)] in
  let x := strip (opt_str experiment_id) in
  if nonempty x then dict_set "experiment_id" (PStr (str_take 128 x)) out else out.

Record thresholds : Type := Thresholds { deny_threshold : float; review_threshold : float }.

Definition decision_from_rule_score (settings : thresholds) (rule_score : float) : string :=
  if fleb settings.(deny_threshold) rule_score then "deny"
  else if fleb settings.(review_threshold) rule_score then "review"
  else "allow".

Definition build_policy_routing_audit (cohort_bucket : Z) (cohort_salt : string)
    (champion_rule_score challenger_rule_score : float)
    (champion_decision challenger_decision : string) (ml_score : pyval) : dict :=
  [("cohort_bucket_0_99", PInt cohort_bucket);
   ("cohort_salt", PStr cohort_salt);
   ("champion_rule_score", PFloat (f_round champion_rule_score 4));
   ("challenger_rule_score", PFloat (f_round challenger_rule_score 4));
   ("champion_decision", PStr champion_decision);
   ("challenger_decision", PStr challenger_decision);
   ("decisions_agree", PBool (bool_decide (champion_decision = challenger_decision)));
   ("ml_score", ml_score)].

(** ** Theorems *)

Lemma bucket_range t e k : 0 <= _pack_experiment_bucket t e k < 100.
Proof. unfold _pack_experiment_bucket. apply Z.mod_pos_bound. lia. Qed.

Definition gate_ok (p b : Z) : bool :=
  match canary_gate (PInt p) b with
  | Ok (ok, _) => Bool.eqb ok (b <? p)
  | Err _ => false
  end.

Definition range (n : nat) : list Z := map Z.of_nat (seq 0 n).

Lemma range_elem n z : 0 <= z < Z.of_nat n -> In z (range n).
Proof.
  intros H. apply in_map_iff. exists (Z.to_nat z). split; [lia|]. apply in_seq. lia.
Qed.

Lemma gate_table : forallb (fun p => forallb (gate_ok p) (range 100)) (range 101) = true.
Proof. vm_compute. reflexivity. Qed.

(** An integer percentage admits exactly the buckets below it. *)
Lemma canary_gate_int p b :
  0 <= p <= 100 -> 0 <= b < 100 ->
  exists why, canary_gate (PInt p) b = Ok (b <? p, why).
Proof.
  intros Hp Hb.
  assert (H : gate_ok p b = true).
  { pose proof (proj1 (forallb_forall _ _) gate_table p) as H1.
    pose proof (proj1 (forallb_forall _ _) (H1 (range_elem 101 p ltac:(lia))) b) as H2.
    apply H2, range_elem. lia. }
  unfold gate_ok in H. destruct (canary_gate (PInt p) b) as [[ok why]|]; [|discriminate].
  apply Bool.eqb_prop in H as ->. eauto.
Qed.

Lemma pack_key_canary v pack : pack_key (dict_set "canary_percent" v pack) = pack_key pack.
Proof. unfold pack_key. by rewrite !get_set_ne by done. Qed.

(** Canary rollout.  With its effective date past (or absent), an integer
    [canary_percent] [p] between 0 and 100 admits, in production mode, exactly
    the entities whose deterministic bucket (always in 0..99) is below [p]. *)
Theorem canary_applies_iff pack t e now p eff :
  0 <= p <= 100 ->
  _parse_effective_at (get pack "effective_at" PNone) = Ok eff -> before eff now = false ->
  0 <= _pack_experiment_bucket t e (pack_key pack) < 100
  /\ exists why,
     _pack_should_apply (dict_set "canary_percent" (PInt p) pack) t e "production" now
     = Ok (_pack_experiment_bucket t e (pack_key pack) <? p, why).
Proof.
  intros Hp He Hb. split; [apply bucket_range|].
  unfold _pack_should_apply. rewrite !bool_decide_eq_false_2 by done.
  rewrite get_set_ne by done. rewrite He. cbn [rbind]. rewrite Hb, get_set_eq, pack_key_canary.
  apply canary_gate_int; [done|apply bucket_range].
Qed.

Definition canary_demo_pack : dict := [("_source_file", PStr "base.json")].

Lemma canary_applies_iff_witness :
  exists why, _pack_should_apply (dict_set "canary_percent" (PInt 50) canary_demo_pack) "t1" "e1" "production" 0
  = Ok (_pack_experiment_bucket "t1" "e1" "base.json" <? 50, why).
Proof.
  refine (proj2 (canary_applies_iff canary_demo_pack "t1" "e1" 0 50 None _ _ _)); [lia|reflexivity..].
Defined.

(** Raising the canary percentage never drops an entity: a pack that
    applies to an entity at [p] percent applies at every [q >= p]. *)
Theorem canary_monotone pack t e now p q why :
  0 <= p <= q -> q <= 100 ->
  _pack_should_apply (dict_set "canary_percent" (PInt p) pack) t e "production" now = Ok (true, why) ->
  exists why',
    _pack_should_apply (dict_set "canary_percent" (PInt q) pack) t e "production" now = Ok (true, why').
Proof.
  intros Hpq Hq H. unfold _pack_should_apply in *.
  rewrite !bool_decide_eq_false_2 in * by done. rewrite get_set_ne in * by done.
  inv_ok. rewrite H0. cbn [rbind] in *. destruct (before a now); [discriminate|].
  rewrite get_set_eq, pack_key_canary in *.
  pose proof (bucket_range t e (pack_key pack)) as Hb.
  destruct (canary_gate_int p _ ltac:(lia) Hb) as [w1 E1].
  destruct (canary_gate_int q _ ltac:(lia) Hb) as [w2 E2].
  rewrite E1 in H. rewrite E2. injection H as H _. apply Z.ltb_lt in H.
  exists w2. f_equal. f_equal. apply Z.ltb_lt. lia.
Qed.

Lemma canary_monotone_witness :
  exists why', _pack_should_apply (dict_set "canary_percent" (PInt 100) canary_demo_pack) "t1" "e1" "production" 0
               = Ok (true, why').
Proof.
  apply (canary_monotone canary_demo_pack "t1" "e1" 0 99 100 None); [lia|lia|vm_compute; reflexivity].
Defined.

(** The effective-date gate holds outside simulation: a pack whose
    [effective_at] parses to a later instant than now is refused with
    [before_effective_at], whatever its canary percentage; simulation ignores
    both gates. *)
Theorem effective_at_gates pack t e mode now eff :
  _parse_effective_at (get pack "effective_at" PNone) = Ok (Some eff) -> now < eff ->
  _pack_should_apply pack t e mode now
  = (if bool_decide (mode = "simulation") then Ok (true, None)
     else Ok (false, Some "before_effective_at")).
Proof.
  intros He Hlt. unfold _pack_should_apply. case_bool_decide; [done|].
  rewrite He. cbn [rbind before]. by apply Z.ltb_lt in Hlt as ->.
Qed.

Lemma effective_at_gates_witness :
  _pack_should_apply [("effective_at", PStr "2030-01-01T00:00:00Z")] "t" "e" "challenger" 0
  = Ok (false, Some "before_effective_at").
Proof.
  refine (effective_at_gates _ "t" "e" "challenger" 0 1893456000000000 _ _); vm_compute; reflexivity.
Defined.

End Rollout.

Module Store.

Definition SANDBOX_PLG_INDUSTRY_SOURCE_FILE : string := "sandbox_plg_industry_starter.json".

(** The module globals; [generation] is [policy_set._generation]. *)
Record store : Type := MkStore {
  _cached_packs : list dict;
  _shadow_mode_packs : list dict;
  _disabled_mode_packs : list dict;
  _plg_sandbox_runtime_pack : option dict;
  generation : Z;
}.

(** What reading one [*.json] file gives: a JSON document, a
    [JSONDecodeError] or [OSError], or bytes that are not UTF-8. *)
Inductive file_read : Type :=
| Document (v : pyval)
| Unreadable
| NotUtf8.

Definition name_le (a b : string * file_read) : Prop := String.le a.1 b.1.
#[export] Instance name_le_dec : RelDecision name_le.
Proof. intros a b. unfold name_le. apply _. Defined.

(** The three lists built while the files are read. *)
Record loading : Type := Loading { ld_active : list dict; ld_shadow : list dict; ld_disabled : list dict }.

Definition load_pack (acc : loading) (name : string) (pack : dict) : loading :=
  if negb (py_eq (get pack "version" (PInt 1)) (PInt 1)) then acc
  else
    let pack := dict_set "_source_file" (PStr name) pack in
    let mode := get pack "mode" (PStr "active") in
    if eq_str mode "disabled"
    then Loading acc.(ld_active) acc.(ld_shadow) (acc.(ld_disabled) ++ [pack])
    else if eq_str mode "shadow"
    then Loading acc.(ld_active) (acc.(ld_shadow) ++ [pack]) acc.(ld_disabled)
    else Loading (acc.(ld_active) ++ [pack]) acc.(ld_shadow) acc.(ld_disabled).

Definition load_file (acc : loading) (f : string * file_read) : result loading :=
  match f.2 with
  | Unreadable => Ok acc
  | NotUtf8 => Err ValueError
  | Document (PDict pack) => Ok (load_pack acc f.1 pack)
  | Document _ => Err AttributeError
  end.

Fixpoint load_files (acc : loading) (files : list (string * file_read)) : result loading :=
  match files with
  | [] => Ok acc
  | f :: files' => let! acc' := load_file acc f in load_files acc' files'
  end.

Definition is_sandbox (p : dict) : bool :=
  eq_str (get p "_source_file" PNone) SANDBOX_PLG_INDUSTRY_SOURCE_FILE.

Definition _attach_plg_sandbox_pack (plg : option dict) (active : list dict) : list dict :=
  let filtered := List.filter (fun p => negb (is_sandbox p)) active in
  match plg with
  | None => filtered
  | Some pack => filtered ++ [dict_setdefault "_source_file" (PStr SANDBOX_PLG_INDUSTRY_SOURCE_FILE) pack]
  end.

Definition bump_policy_set_generation (s : store) : store :=
  MkStore s.(_cached_packs) s.(_shadow_mode_packs) s.(_disabled_mode_packs)
    s.(_plg_sandbox_runtime_pack) (s.(generation) + 1).

(** [load_rules()] on the directory listing ([None]: no such directory).  An
    exception leaves every global as it was. *)
Definition load_rules (s : store) (dir : option (list (string * file_read)))
    : store * result unit :=
  match dir with
  | None =>
      (bump_policy_set_generation
         (MkStore (_attach_plg_sandbox_pack s.(_plg_sandbox_runtime_pack) []) [] []
            s.(_plg_sandbox_runtime_pack) s.(generation)), Ok tt)
  | Some files =>
      match load_files (Loading [] [] []) (merge_sort name_le files) with
      | Err e => (s, Err e)
      | Ok ld =>
          (bump_policy_set_generation
             (MkStore (_attach_plg_sandbox_pack s.(_plg_sandbox_runtime_pack) ld.(ld_active))
                ld.(ld_shadow) ld.(ld_disabled) s.(_plg_sandbox_runtime_pack) s.(generation)), Ok tt)
      end
  end.

Definition preload_plg_sandbox_runtime_pack (s : store) (pack : option dict) : store :=
  MkStore s.(_cached_packs) s.(_shadow_mode_packs) s.(_disabled_mode_packs) pack s.(generation).

Definition set_plg_sandbox_runtime_pack (s : store) (pack : option dict)
    (dir : option (list (string * file_read))) : store * result unit :=
  load_rules (preload_plg_sandbox_runtime_pack s pack) dir.

Definition get_shadow_packs (s : store) : list dict := s.(_shadow_mode_packs).
Definition get_disabled_mode_packs (s : store) : list dict := s.(_disabled_mode_packs).
Definition get_active_packs_snapshot (s : store) : list dict := s.(_cached_packs).

Definition governance_row (pack : dict) : result pyval :=
  let! n := py_len (por (get pack "rules" PNone) (PList [])) in
  Ok (PDict [("file", get pack "_source_file" PNone);
             ("name", get pack "name" PNone);
             ("mode", get pack "mode" (PStr "active"));
             ("canary_percent", get pack "canary_percent" PNone);
             ("effective_at", get pack "effective_at" PNone);
             ("approved_by", get pack "approved_by" PNone);
             ("rule_count", PInt n)]).

Definition governance_summary (s : store) : result dict :=
  let! rows := rmapM governance_row s.(_cached_packs) in
  Ok [("active_pack_count", PInt (Z.of_nat (length s.(_cached_packs))));
      ("shadow_pack_count", PInt (Z.of_nat (length s.(_shadow_mode_packs))));
      ("packs", PList rows)].

(** ** Invariant of the store *)

(** A pack as the loader classifies it. *)
Definition pack_mode_is (m : string) (p : dict) : bool := eq_str (get p "mode" (PStr "active")) m.
Definition supported (p : dict) : bool := py_eq (get p "version" (PInt 1)) (PInt 1).

Definition disk_pack (p : dict) : Prop := supported p = true /\ exists f, get p "_source_file" PNone = PStr f.

Record loading_wf (ld : loading) : Prop := {
  lw_active : Forall (fun p => disk_pack p /\ pack_mode_is "shadow" p = false
                               /\ pack_mode_is "disabled" p = false) ld.(ld_active);
  lw_shadow : Forall (fun p => disk_pack p /\ pack_mode_is "shadow" p = true) ld.(ld_shadow);
  lw_disabled : Forall (fun p => disk_pack p /\ pack_mode_is "disabled" p = true) ld.(ld_disabled);
}.

Lemma load_pack_wf ld name pack : loading_wf ld -> loading_wf (load_pack ld name pack).
Proof.
  intros [Ha Hs Hd]. unfold load_pack.
  destruct (py_eq (get pack "version" (PInt 1)) (PInt 1)) eqn:Hv; simpl; [|done].
  set (p := dict_set "_source_file" (PStr name) pack).
  assert (Hp : disk_pack p).
  { split; [unfold supported, p; by rewrite get_set_ne|].
    exists name. unfold p. apply get_set_eq. }
  destruct (eq_str (get p "mode" (PStr "active")) "disabled") eqn:Ed;
    [|destruct (eq_str (get p "mode" (PStr "active")) "shadow") eqn:Es];
    constructor; simpl; try done; apply Forall_app; split; try done; by apply Forall_singleton.
Qed.

Lemma load_files_wf files ld ld' : load_files ld files = Ok ld' -> loading_wf ld -> loading_wf ld'.
Proof.
  revert ld. induction files as [|[name fr] files IH]; intros ld H Hwf; simpl in H; [by injection H as <-|].
  unfold load_file in H. destruct fr as [v| |]; simpl in H; try discriminate; [|eauto].
  destruct v; simpl in H; try discriminate. eapply IH; [exact H|]. by apply load_pack_wf.
Qed.

(** What the store promises: only runtime-attached packs can be in the active
    list without coming from a readable version-1 disk file. *)
Record store_wf (s : store) : Prop := {
  sw_active : Forall (fun p => disk_pack p /\ pack_mode_is "shadow" p = false
                               /\ pack_mode_is "disabled" p = false
                      \/ exists q, s.(_plg_sandbox_runtime_pack) = Some q
                         /\ p = dict_setdefault "_source_file" (PStr SANDBOX_PLG_INDUSTRY_SOURCE_FILE) q)
                s.(_cached_packs);
  sw_shadow : Forall (fun p => disk_pack p /\ pack_mode_is "shadow" p = true) s.(_shadow_mode_packs);
  sw_disabled : Forall (fun p => disk_pack p /\ pack_mode_is "disabled" p = true) s.(_disabled_mode_packs);
  sw_one_sandbox : (length (List.filter is_sandbox s.(_cached_packs)) <= 1)%nat;
}.

Lemma filter_app_len {A} (f : A -> bool) l1 l2 :
  length (List.filter f (l1 ++ l2)) = (length (List.filter f l1) + length (List.filter f l2))%nat.
Proof. by rewrite List.filter_app, length_app. Qed.

Lemma filter_neg_nil {A} (f : A -> bool) l : List.filter f (List.filter (fun x => negb (f x)) l) = [].
Proof. induction l as [|x l IH]; simpl; [done|]. destruct (f x) eqn:E; simpl; [done|]. by rewrite E. Qed.

Lemma attach_one_sandbox plg active :
  (length (List.filter is_sandbox (_attach_plg_sandbox_pack plg active)) <= 1)%nat.
Proof.
  unfold _attach_plg_sandbox_pack. destruct plg as [q|]; [|by rewrite filter_neg_nil; simpl; lia].
  rewrite filter_app_len, filter_neg_nil. simpl. destruct (is_sandbox _); simpl; lia.
Qed.

Lemma attach_forall (P : dict -> Prop) plg active :
  Forall P active ->
  Forall (fun p => P p \/ exists q, plg = Some q
            /\ p = dict_setdefault "_source_file" (PStr SANDBOX_PLG_INDUSTRY_SOURCE_FILE) q)
    (_attach_plg_sandbox_pack plg active).
Proof.
  intros H. unfold _attach_plg_sandbox_pack.
  assert (Hf : Forall P (List.filter (fun p => negb (is_sandbox p)) active)).
  { apply List.Forall_forall. intros x [Hx _]%List.filter_In. by eapply List.Forall_forall in H. }
  assert (Hf' := Forall_impl _ _ _ Hf (fun p Hp => or_introl Hp
    : P p \/ exists q, plg = Some q
            /\ p = dict_setdefault "_source_file" (PStr SANDBOX_PLG_INDUSTRY_SOURCE_FILE) q)).
  destruct plg as [q|]; [|done]. apply Forall_app. split; [done|].
  apply Forall_singleton. right. eauto.
Qed.

(** Every load, whatever the directory holds, leaves the store
    well formed: active packs are version-1 disk packs that are neither shadow
    nor disabled (or the runtime sandbox pack), shadow and disabled packs sit in
    their own lists, and the sandbox pack appears at most once; a load that
    raises changes nothing. *)
Theorem load_rules_store_wf s dir :
  store_wf (fst (load_rules s dir))
  \/ (fst (load_rules s dir) = s /\ is_ok (snd (load_rules s dir)) = false).
Proof.
  unfold load_rules. destruct dir as [files|].
  - destruct (load_files _ _) as [ld|e] eqn:E; [left|by right].
    apply load_files_wf in E as [Ha Hs Hd]; [|by constructor].
    constructor; simpl; [by apply attach_forall|done|done|apply attach_one_sandbox].
  - left. constructor; simpl; [|done|done|apply attach_one_sandbox]. apply attach_forall. constructor.
Qed.

(** A single rule file that is valid JSON but not an object aborts the
    whole reload: the loader raises [AttributeError] instead of skipping the
    file, and every valid pack beside it stays unloaded. *)
Theorem load_rules_non_object_aborts s files name v :
  (name, Document v) ∈ files -> is_dict v = false ->
  Forall (fun f => match f.2 with NotUtf8 => False | _ => True end) files ->
  load_rules s (Some files) = (s, Err AttributeError).
Proof.
  intros Hin Hv Hu.
  assert (G : forall ld l, (name, Document v) ∈ l ->
            Forall (fun f : string * file_read => match f.2 with NotUtf8 => False | _ => True end) l ->
            load_files ld l = Err AttributeError).
  { intros ld l. revert ld. induction l as [|[n fr] l IH]; intros ld Hl Hf; [by apply not_elem_of_nil in Hl|].
    apply Forall_cons in Hf as [Hf1 Hf2]. simpl. unfold load_file.
    apply elem_of_cons in Hl as [[= <- <-]|Hl]; simpl; [by destruct v|].
    destruct fr as [w| |]; simpl in *; [|by apply IH|done]. destruct w; simpl; try done. by apply IH. }
  unfold load_rules. rewrite G; [done|by rewrite merge_sort_Permutation|by rewrite merge_sort_Permutation].
Qed.

Definition demo_store : store := MkStore [[("name", PStr "live")]] [] [] None 3.

Lemma load_rules_non_object_aborts_witness :
  load_rules demo_store
    (Some [("a.json", Document (PDict [("version", PInt 1)])); ("b.json", Document (PList []))])
  = (demo_store, Err AttributeError).
Proof.
  apply (load_rules_non_object_aborts demo_store _ "b.json" (PList []));
    [right; left|reflexivity|repeat constructor].
Defined.

End Store.

Module Telemetry.

Definition _TELEMETRY_FLUSH_EVERY : Z := 25.
Definition _RULE_HIT_REDIS_HASH : string := "tarka:rule_hits:v1".

(** [_rule_hit_counts] in insertion order. *)
Abbreviation counts := (list (string * Z)).

(** [d[k] = d.get(k, 0) + n]. *)
Fixpoint incr (k : string) (n : Z) (c : counts) : counts :=
  match c with
  | [] => [(k, n)]
  | (k', m) :: c' => if bool_decide (k = k') then (k, m + n) :: c' else (k', m) :: incr k n c'
  end.

(** The durable file: absent, a JSON document, or unreadable. *)
Inductive tfile : Type :=
| NoFile
| FileDoc (v : pyval)
| FileBad.

Record tstate : Type := TState {
  _rule_hit_counts : counts;
  _telemetry_started_at_unix : float;
  _telemetry_dirty : Z;
  _telemetry_file_loaded : bool;
  file : tfile;
}.

(** [tc_path] is the value of [_telemetry_path()], [tc_explicit] whether the
    environment names it, [tc_writable] whether writing it succeeds. *)
Record tconfig : Type := TConfig { tc_path : option string; tc_explicit : bool; tc_writable : bool }.

Definition _telemetry_key (pack_file rule_id kind : string) : string :=
  str_take 160 (str_or pack_file "unknown") +:+ "|" +:+ str_take 160 (str_or rule_id "unknown")
  +:+ "|" +:+ str_take 32 (str_or kind "rule").

(** The [for k, v in counts.items()] loop; an exception other than
    [TypeError] and [ValueError] escapes, after the entries before it. *)
Fixpoint load_counts (items : dict) (c : counts) : counts * result unit :=
  match items with
  | [] => (c, Ok tt)
  | (k, v) :: rest =>
      match py_int v with
      | Ok n => load_counts rest (if 0 <? n then incr k n c else c)
      | Err e => if is_type_or_value_error e then load_counts rest c else (c, Err e)
      end
  end.

Definition _load_telemetry_file (cfg : tconfig) (s : tstate) : tstate * result unit :=
  match cfg.(tc_path), s.(file) with
  | Some _, FileDoc (PDict data) =>
      let '(c, r) := match get data "counts" PNone with
                     | PDict items => load_counts items s.(_rule_hit_counts)
                     | _ => (s.(_rule_hit_counts), Ok tt)
                     end in
      match r with
      | Err e => (TState c s.(_telemetry_started_at_unix) s.(_telemetry_dirty)
                    s.(_telemetry_file_loaded) s.(file), Err e)
      | Ok _ =>
          let since := get data "since_unix" PNone in
          let started := s.(_telemetry_started_at_unix) in
          let '(started', r') :=
            match since with
            | PNone => (started, Ok tt)
            | _ => match py_float since with
                   | Ok f => (fmin started f, Ok tt)
                   | Err e => (started, if is_type_or_value_error e then Ok tt else Err e)
                   end
            end in
          (TState c started' s.(_telemetry_dirty) s.(_telemetry_file_loaded) s.(file), r')
      end
  | _, _ => (s, Ok tt)
  end.

Definition _ensure_telemetry_loaded (cfg : tconfig) (s : tstate) : tstate * result unit :=
  if s.(_telemetry_file_loaded) then (s, Ok tt)
  else _load_telemetry_file cfg
         (TState s.(_rule_hit_counts) s.(_telemetry_started_at_unix) s.(_telemetry_dirty) true s.(file)).

Definition flush_payload (s : tstate) (now : float) : pyval :=
  PDict [("schema_id", PStr "tarka.rule_hit_telemetry/v1");
         ("since_unix", PFloat s.(_telemetry_started_at_unix));
         ("counts", PDict (map (fun kn => (kn.1, PInt kn.2)) s.(_rule_hit_counts)));
         ("updated_at", PFloat now)].

Definition _flush_telemetry_file (cfg : tconfig) (now : float) (s : tstate) : tstate :=
  match cfg.(tc_path) with
  | None => s
  | Some _ =>
      if cfg.(tc_writable)
      then TState s.(_rule_hit_counts) s.(_telemetry_started_at_unix) s.(_telemetry_dirty)
             s.(_telemetry_file_loaded) (FileDoc (flush_payload s now))
      else s
  end.

(** [record_rule_hit]; the Redis and Prometheus increments are fail-soft and
    touch no state of the process. *)
Definition record_rule_hit (cfg : tconfig) (now : float) (pack_file rule_id kind : string) (s : tstate)
    : tstate * result unit :=
  match _ensure_telemetry_loaded cfg s with
  | (s, Err e) => (s, Err e)
  | (s, Ok _) =>
      let key := _telemetry_key pack_file rule_id kind in
      let c := incr key 1 s.(_rule_hit_counts) in
      let d := s.(_telemetry_dirty) + 1 in
      let mk d := TState c s.(_telemetry_started_at_unix) d s.(_telemetry_file_loaded) s.(file) in
      (if _TELEMETRY_FLUSH_EVERY <=? d then _flush_telemetry_file cfg now (mk 0) else mk d, Ok tt)
  end.

(** [key.split("|", 2)]: at most [n] cuts. *)
Fixpoint split_max (n : nat) (sep : ascii) (s : string) : list string :=
  match s with
  | EmptyString => [EmptyString]
  | String c s' =>
      let continue n := match split_max n sep s' with
                        | [] => [String c EmptyString]
                        | w :: ws => String c w :: ws
                        end in
      match n with
      | O => continue O
      | S n' => if Ascii.eqb c sep then EmptyString :: split_max n' sep s' else continue n
      end
  end.

Definition item_le (a b : string * Z) : Prop := String.le a.1 b.1.
#[export] Instance item_le_dec : RelDecision item_le.
Proof. intros a b. unfold item_le. apply _. Defined.

Record hit_row : Type := HitRow { hr_pack_file : string; hr_rule_id : string; hr_kind : string; hr_hits : Z }.

Definition row_of (kn : string * Z) : hit_row :=
  let parts := split_max 2 "|" kn.1 in
  HitRow (default "unknown" (parts !! 0%nat)) (default "unknown" (parts !! 1%nat))
         (default "rule" (parts !! 2%nat)) kn.2.

Definition total (c : counts) : Z := foldr (fun kn acc => kn.2 + acc) 0 c.

Definition _rows_from_hit_map (c : counts) : list hit_row * Z :=
  let sorted := merge_sort item_le c in (map row_of sorted, total sorted).

Record snapshot : Type := Snapshot {
  since_unix : float; since_process_start : bool; durability : string;
  sn_path : option string; total_hits : Z; unique_keys : Z; rows : list hit_row }.

Fixpoint parse_redis (raw : list (string * string)) : result counts :=
  match raw with
  | [] => Ok []
  | (k, v) :: raw' => let! n := Z_of_string v in let! c := parse_redis raw' in Ok ((k, n) :: c)
  end.

Definition is_file (f : tfile) : bool := match f with NoFile => false | _ => true end.

(** [redis] is the answer of [hgetall] ([None]: no client, or it raised). *)
Definition get_rule_hit_telemetry (cfg : tconfig) (now : float)
    (redis : option (list (string * string))) (s : tstate) : tstate * result snapshot :=
  match _ensure_telemetry_loaded cfg s with
  | (s, Err e) => (s, Err e)
  | (s, Ok _) =>
      let from_redis :=
        match redis with
        | Some raw =>
            match parse_redis raw with
            | Ok c =>
                match c, s.(_rule_hit_counts) with
                | [], _ :: _ => None
                | _, _ =>
                    let '(rows, tot) := _rows_from_hit_map c in
                    Some (Snapshot s.(_telemetry_started_at_unix) false "redis" None tot
                            (Z.of_nat (length rows)) rows)
                end
            | Err _ => None
            end
        | None => None
        end in
      match from_redis with
      | Some snap => (s, Ok snap)
      | None =>
          let file_backed := cfg.(tc_explicit)
            || match cfg.(tc_path) with Some _ => is_file s.(file) | None => false end in
          let s' := if file_backed && negb (s.(_telemetry_dirty) =? 0)
                    then _flush_telemetry_file cfg now s else s in
          let '(rows, tot) := _rows_from_hit_map s'.(_rule_hit_counts) in
          (s', Ok (Snapshot s'.(_telemetry_started_at_unix) (negb file_backed)
                     (if file_backed then "file" else "process_memory")
                     (if file_backed then cfg.(tc_path) else None)
                     tot (Z.of_nat (length rows)) rows))
      end
  end.

(** ** Lemmas *)

Lemma str_take_all n s : (String.length s <= n)%nat -> str_take n s = s.
Proof.
  unfold str_take. revert n. induction s as [|c s IH]; intros n H; simpl in *; [by destruct n|].
  destruct n; [lia|]. simpl. by rewrite IH by lia.
Qed.

Lemma split_max_0 sep s : split_max 0 sep s = [s].
Proof. induction s as [|c s IH]; simpl; [done|]. by rewrite IH. Qed.

Lemma split_max_cut n sep p t :
  has_char sep p = false -> split_max (S n) sep (p +:+ String sep t) = p :: split_max n sep t.
Proof.
  induction p as [|c p IH]; intros H.
  - change (EmptyString +:+ String sep t) with (String sep t). simpl. by rewrite Ascii.eqb_refl.
  - simpl in H. apply orb_false_elim in H as [Hc Hp]. rewrite sapp_cons. cbn [split_max].
    rewrite Ascii.eqb_sym, Hc, IH by done. done.
Qed.

(** A hit's key reads back: when neither the pack file nor the rule id
    holds a vertical bar and all three parts are non-empty and within their
    length caps, the telemetry row shows exactly the pack file, rule id and
    kind that were recorded. *)
Theorem telemetry_key_roundtrip pf rid kind n :
  has_char "|" pf = false -> has_char "|" rid = false ->
  nonempty pf = true -> nonempty rid = true -> nonempty kind = true ->
  str_len pf <= 160 -> str_len rid <= 160 -> str_len kind <= 32 ->
  row_of (_telemetry_key pf rid kind, n) = HitRow pf rid kind n.
Proof.
  unfold str_len. intros Hp Hr Np Nr Nk Lp Lr Lk. unfold row_of, _telemetry_key, str_or.
  rewrite Np, Nr, Nk, !str_take_all by lia. cbn [fst snd].
  assert (E : split_max 2 "|" (pf +:+ "|" +:+ rid +:+ "|" +:+ kind) = [pf; rid; kind]).
  { change (pf +:+ "|" +:+ rid +:+ "|" +:+ kind)
      with (pf +:+ String "|" (rid +:+ String "|" kind)).
    by rewrite !split_max_cut, split_max_0 by done. }
  by rewrite E.
Qed.

Lemma telemetry_key_roundtrip_witness :
  row_of (_telemetry_key "base.json" "r1" "rule", 4) = HitRow "base.json" "r1" "rule" 4.
Proof. apply (telemetry_key_roundtrip "base.json" "r1" "rule" 4); vm_compute; congruence. Defined.

Definition counts_wf (c : counts) : Prop := NoDup c.*1 /\ Forall (fun kn => 0 < kn.2) c.

Lemma incr_keys k n c : (incr k n c).*1 = if mem k c.*1 then c.*1 else c.*1 ++ [k].
Proof.
  unfold mem. induction c as [|[k' m] c IH]; [done|]. cbn [incr].
  destruct (bool_decide_reflect (k = k')) as [->|Hne]; rewrite !fmap_cons; cbn [fst].
  - rewrite bool_decide_eq_true_2; [done|left].
  - rewrite IH. destruct (bool_decide_reflect (k ∈ c.*1)) as [Hin|Hin].
    + rewrite bool_decide_eq_true_2; [done|by right].
    + rewrite bool_decide_eq_false_2; [done|]. by rewrite not_elem_of_cons.
Qed.

Lemma incr_wf k n c : 0 < n -> counts_wf c -> counts_wf (incr k n c).
Proof.
  intros Hn [Hnd Hpos]. split.
  - rewrite incr_keys. destruct (mem k c.*1) eqn:E; [done|]. apply mem_false in E.
    apply NoDup_app. split; [done|]. split; [set_solver|apply NoDup_singleton].
  - clear Hnd. induction c as [|[k' m] c IH]; simpl; [by repeat constructor|].
    apply Forall_cons in Hpos as [H1 H2]. simpl in H1. case_bool_decide; constructor; simpl; auto; lia.
Qed.

Lemma total_incr k n c : total (incr k n c) = total c + n.
Proof. induction c as [|[k' m] c IH]; simpl; [lia|]. case_bool_decide; simpl; lia. Qed.

Lemma incr_new k n c : k ∉ c.*1 -> incr k n c = c ++ [(k, n)].
Proof.
  induction c as [|[k' m] c IH]; simpl; [done|]. rewrite not_elem_of_cons. intros [H1 H2].
  rewrite bool_decide_eq_false_2 by done. by rewrite IH.
Qed.

(** What a flush writes, a fresh process reads back. *)
Lemma load_flushed c c0 :
  counts_wf (c0 ++ c) -> load_counts (map (fun kn => (kn.1, PInt kn.2)) c) c0 = (c0 ++ c, Ok tt).
Proof.
  revert c0. induction c as [|[k n] c IH]; intros c0 [Hnd Hpos]; simpl; [by rewrite app_nil_r|].
  pose proof Hpos as Hp. apply Forall_app in Hp as [_ Hp]. apply Forall_cons in Hp as [Hn _].
  simpl in Hn. replace (0 <? n) with true by lia.
  rewrite incr_new.
  - rewrite IH; rewrite <- (assoc_L (++)); done.
  - rewrite fmap_app, fmap_cons in Hnd. apply NoDup_app in Hnd as (_ & Hd & _).
    intros Hin. apply (Hd _ Hin). left.
Qed.

Lemma load_counts_wf items c c' : counts_wf c -> load_counts items c = (c', Ok tt) -> counts_wf c'.
Proof.
  revert c. induction items as [|[k v] items IH]; intros c Hc H; simpl in H; [by injection H as <-|].
  destruct (py_int v) as [n|e].
  - eapply IH; [|exact H]. destruct (0 <? n) eqn:E; [|done]. apply incr_wf; [lia|done].
  - destruct (is_type_or_value_error e); [|discriminate]. by eapply IH.
Qed.

(** The hits a new process would recover from the file. *)
Definition durable (f : tfile) : counts :=
  match f with
  | FileDoc (PDict data) =>
      match get data "counts" PNone with PDict items => fst (load_counts items []) | _ => [] end
  | _ => []
  end.

Lemma durable_payload s now :
  counts_wf s.(_rule_hit_counts) -> durable (FileDoc (flush_payload s now)) = s.(_rule_hit_counts).
Proof.
  intros H. change (durable (FileDoc (flush_payload s now))) with
    (fst (load_counts (map (fun kn => (kn.1, PInt kn.2)) (_rule_hit_counts s)) [])).
  by rewrite load_flushed.
Qed.

(** A new process over the given file. *)
Definition fresh (f : tfile) (now : float) : tstate := TState [] now 0 false f.

(** Durability round trip: the counts flushed by one process are exactly
    the counts (same keys, same order, same values) the next process starts
    from. *)
Theorem telemetry_flush_roundtrip cfg s now now' p :
  cfg.(tc_path) = Some p -> cfg.(tc_writable) = true -> counts_wf s.(_rule_hit_counts) ->
  _rule_hit_counts (fst (_ensure_telemetry_loaded cfg (fresh (file (_flush_telemetry_file cfg now s)) now')))
  = s.(_rule_hit_counts).
Proof.
  intros Hp Hw Hc. unfold _flush_telemetry_file. rewrite Hp, Hw. cbn [file].
  unfold _ensure_telemetry_loaded, fresh. cbn [_telemetry_file_loaded].
  unfold _load_telemetry_file. rewrite Hp. cbn [file flush_payload].
  change (get _ "counts" PNone) with
    (PDict (map (fun kn => (kn.1, PInt kn.2)) (_rule_hit_counts s))).
  cbn match. cbn [_rule_hit_counts]. rewrite load_flushed by done. cbn match.
  change (get _ "since_unix" PNone) with (PFloat (_telemetry_started_at_unix s)). cbn match. done.
Qed.

Lemma telemetry_flush_roundtrip_witness :
  _rule_hit_counts (fst (_ensure_telemetry_loaded (TConfig (Some "t.json") true true)
    (fresh (file (_flush_telemetry_file (TConfig (Some "t.json") true true) f_zero
                    (TState [("a|b|rule", 3)] f_zero 3 true NoFile))) f_zero)))
  = [("a|b|rule", 3)].
Proof.
  refine (telemetry_flush_roundtrip (TConfig (Some "t.json") true true)
            (TState [("a|b|rule", 3)] f_zero 3 true NoFile) f_zero f_zero "t.json" _ _ _);
    [reflexivity|reflexivity|].
  split; [apply NoDup_singleton|repeat constructor].
Defined.

(** ** Bounded loss *)

Inductive top : Type :=
| Record_ (now : float) (pf rid kind : string)
| Snap (now : float) (redis : option (list (string * string))).

Definition run_top (cfg : tconfig) (s : tstate) (op : top) : tstate :=
  match op with
  | Record_ now pf rid kind => fst (record_rule_hit cfg now pf rid kind s)
  | Snap now redis => fst (get_rule_hit_telemetry cfg now redis s)
  end.

Record tel_inv (s : tstate) : Prop := {
  ti_loaded : s.(_telemetry_file_loaded) = true;
  ti_wf : counts_wf s.(_rule_hit_counts);
  ti_dirty : 0 <= s.(_telemetry_dirty) < _TELEMETRY_FLUSH_EVERY;
  ti_lag : 0 <= total s.(_rule_hit_counts) - total (durable s.(file)) <= s.(_telemetry_dirty);
}.

Lemma flush_inv cfg now s p :
  cfg.(tc_path) = Some p -> cfg.(tc_writable) = true -> s.(_telemetry_file_loaded) = true ->
  counts_wf s.(_rule_hit_counts) -> 0 <= s.(_telemetry_dirty) < _TELEMETRY_FLUSH_EVERY ->
  tel_inv (_flush_telemetry_file cfg now s).
Proof.
  intros Hp Hw Hl Hc Hd. unfold _flush_telemetry_file. rewrite Hp, Hw.
  constructor; cbn -[total durable]; try done. rewrite durable_payload by done. lia.
Qed.

Lemma loaded_ensure cfg s : s.(_telemetry_file_loaded) = true -> _ensure_telemetry_loaded cfg s = (s, Ok tt).
Proof. intros H. unfold _ensure_telemetry_loaded. by rewrite H. Qed.

Lemma run_top_inv cfg s op p :
  cfg.(tc_path) = Some p -> cfg.(tc_writable) = true -> tel_inv s -> tel_inv (run_top cfg s op).
Proof.
  intros Hp Hw Hi. pose proof Hi as [Hl Hc Hd Hg]. destruct op as [now pf rid kind|now redis]; simpl.
  - unfold record_rule_hit. rewrite loaded_ensure by done. simpl.
    set (c := incr _ 1 _). assert (Hc' : counts_wf c) by (apply incr_wf; [lia|done]).
    assert (Ht : total c = total (_rule_hit_counts s) + 1) by apply total_incr.
    destruct (Z.leb_spec _TELEMETRY_FLUSH_EVERY (_telemetry_dirty s + 1)) as [Hf|Hf].
    + apply (flush_inv cfg now _ p); try done; simpl; unfold _TELEMETRY_FLUSH_EVERY; lia.
    + constructor; cbn [_telemetry_file_loaded _rule_hit_counts _telemetry_dirty file]; try done; lia.
  - unfold get_rule_hit_telemetry. rewrite loaded_ensure by done. cbn match.
    lazymatch goal with |- tel_inv (fst (match ?x with _ => _ end)) => destruct x as [snap|] end; [done|].
    lazymatch goal with |- context [_rows_from_hit_map ?c] => destruct (_rows_from_hit_map c) end.
    cbn [fst]. destruct (_ && _); [|done]. by apply (flush_inv cfg now _ p).
Qed.

(** Bounded loss: with a writable telemetry file, after any sequence of
    recorded hits and snapshots the file is never ahead of memory and lags it
    by fewer than 25 hits, so a crash loses at most 24; the pending counter
    stays below the flush threshold throughout. *)
Theorem telemetry_bounded_loss cfg s p ops :
  cfg.(tc_path) = Some p -> cfg.(tc_writable) = true -> tel_inv s ->
  let s' := foldl (run_top cfg) s ops in
  0 <= total s'.(_rule_hit_counts) - total (durable s'.(file)) < 25
  /\ 0 <= s'.(_telemetry_dirty) < 25.
Proof.
  intros Hp Hw Hi. assert (H : tel_inv (foldl (run_top cfg) s ops)).
  { revert s Hi. induction ops as [|op ops IH]; intros s Hi; simpl; [done|]. eauto using run_top_inv. }
  destruct H as [_ _ Hd Hg]. unfold _TELEMETRY_FLUSH_EVERY in Hd. simpl. lia.
Qed.

Lemma telemetry_bounded_loss_witness :
  let s' := foldl (run_top (TConfig (Some "t.json") true true)) (TState [] f_zero 0 true NoFile)
              [Record_ f_zero "a" "b" "rule"] in
  0 <= total s'.(_rule_hit_counts) - total (durable s'.(file)) < 25.
Proof.
  refine (proj1 (telemetry_bounded_loss (TConfig (Some "t.json") true true)
            (TState [] f_zero 0 true NoFile) "t.json" [Record_ f_zero "a" "b" "rule"] _ _ _));
    [reflexivity|reflexivity|].
  constructor; [reflexivity|split; constructor|simpl; unfold _TELEMETRY_FLUSH_EVERY; lia|simpl; lia].
Defined.

End Telemetry.

Module Search.

Record omni_row : Type := OmniRow {
  om_rule_id : string; om_pack_file : string; om_pack_name : string;
  om_label : string; om_subtitle : option string }.

Section search.
(** The horizontal ellipsis U+2026, a code point above the range of the text model. *)
Context (ellipsis : string).

Definition clip (desc : string) : string :=
  if str_len desc <=? 160 then desc else str_take 159 desc +:+ ellipsis.

Definition middle_dot : string := String (ascii_of_N 183) EmptyString.

(** One entry of [rules] ([tag = false]) or [tag_rules] ([tag = true]). *)
Definition omni_match (tag : bool) (qn src pname : string) (rule : pyval) : option omni_row :=
  match rule with
  | PDict d =>
      let rid := str_or_empty (get d "id" PNone) in
      let desc := str_or_empty (get d "description" PNone) in
      let blob := lower (rid +:+ " " +:+ desc +:+ " " +:+ pname +:+ " " +:+ src
                         +:+ (if tag then " tag" else "")) in
      if negb (contains qn blob) then None
      else
        let sub := clip desc in
        Some (OmniRow rid src pname
                (str_or rid (if tag then "(tag rule)" else "(unnamed rule)"))
                (if tag then Some (str_or sub "tag rule" +:+ " " +:+ middle_dot +:+ " tag_rules")
                 else if nonempty sub then Some sub else None))
  | _ => None
  end.

(** The inner loop; the flag is the early [return out]. *)
Fixpoint omni_scan (tag : bool) (limit : Z) (qn src pname : string) (rules : list pyval)
    (out : list omni_row) : list omni_row * bool :=
  match rules with
  | [] => (out, false)
  | r :: rules' =>
      match omni_match tag qn src pname r with
      | None => omni_scan tag limit qn src pname rules' out
      | Some row =>
          let out := out ++ [row] in
          if limit <=? Z.of_nat (length out) then (out, true)
          else omni_scan tag limit qn src pname rules' out
      end
  end.

Definition pack_display_name (pack : dict) (src : string) : string :=
  str_or (strip (str_or_empty (get pack "name" PNone)))
    (if endswith (lower src) ".json"
     then (if endswith src ".json" then str_take (String.length src - 5) src else src)
     else src).

Fixpoint omni_packs (limit : Z) (qn : string) (packs : list dict) (out : list omni_row)
    : result (list omni_row) :=
  match packs with
  | [] => Ok out
  | pack :: packs' =>
      let src := py_str (por (get pack "_source_file" PNone) (PStr "unknown.json")) in
      let pname := pack_display_name pack src in
      let! rules := iter_or_empty (get pack "rules" PNone) in
      let '(out, stop) := omni_scan false limit qn src pname rules out in
      if stop then Ok out
      else
        let! tag_rules := iter_or_empty (get pack "tag_rules" PNone) in
        let '(out, stop) := omni_scan true limit qn src pname tag_rules out in
        if stop then Ok out else omni_packs limit qn packs' out
  end.

Definition search_omni_rules (s : Store.store) (query : string) (limit : Z)
    : result (list omni_row) :=
  let qn := lower (strip query) in
  if negb (nonempty qn) || (limit <=? 0) then Ok []
  else omni_packs limit qn s.(Store._cached_packs) [].

Lemma omni_scan_bound tag limit qn src pname rules out out' stop :
  0 < limit -> Z.of_nat (length out) < limit ->
  omni_scan tag limit qn src pname rules out = (out', stop) ->
  Z.of_nat (length out') <= limit /\ (stop = false -> Z.of_nat (length out') < limit).
Proof.
  intros Hl. revert out. induction rules as [|r rules IH]; intros out Ho H; simpl in H.
  - injection H as <- <-. lia.
  - destruct (omni_match tag qn src pname r) as [row|]; [|by eapply IH].
    destruct (Z.leb_spec limit (Z.of_nat (length (out ++ [row])))) as [Hc|Hc]; [|by eapply IH].
    injection H as <- <-. rewrite length_app in *. simpl in *. split; [lia|discriminate].
Qed.

Lemma omni_packs_bound limit qn packs out out' :
  0 < limit -> Z.of_nat (length out) < limit ->
  omni_packs limit qn packs out = Ok out' -> Z.of_nat (length out') <= limit.
Proof.
  intros Hl. revert out. induction packs as [|pack packs IH]; intros out Ho H; simpl in H;
    [injection H as <-; lia|].
  inv_ok. destruct (omni_scan false _ _ _ _ _ _) as [o1 s1] eqn:E1.
  apply omni_scan_bound in E1 as [B1 N1]; [|done|done].
  destruct s1; [injection H as <-; lia|]. inv_ok.
  destruct (omni_scan true _ _ _ _ _ _) as [o2 s2] eqn:E2.
  apply omni_scan_bound in E2 as [B2 N2]; [|done|by apply N1].
  destruct s2; [injection H as <-; lia|]. eapply IH; [by apply N2|done].
Qed.
End search.

(** The command palette never returns more rows than asked for, and a
    non-positive limit or a blank query returns none. *)
Theorem search_within_limit ellipsis s query limit out :
  search_omni_rules ellipsis s query limit = Ok out -> Z.of_nat (length out) <= Z.max 0 limit.
Proof.
  unfold search_omni_rules. destruct (_ || _) eqn:E; [intros [= <-]; simpl; lia|].
  apply orb_false_elim in E as [_ E]. intros H. apply omni_packs_bound in H; simpl; lia.
Qed.

Lemma search_within_limit_witness :
  exists out, search_omni_rules "..." (Store.MkStore
    [[("name", PStr "Base"); ("rules", PList [PDict [("id", PStr "velocity_1")]; PDict [("id", PStr "velocity_2")]])]]
    [] [] None 0) "VELOCITY" 1 = Ok out /\ Z.of_nat (length out) <= Z.max 0 1.
Proof.
  eexists. split; [vm_compute; reflexivity|].
  refine (search_within_limit "..." (Store.MkStore
    [[("name", PStr "Base"); ("rules", PList [PDict [("id", PStr "velocity_1")]; PDict [("id", PStr "velocity_2")]])]]
    [] [] None 0) "VELOCITY" 1 _ _). vm_compute. reflexivity.
Defined.

End Search.

(** ** Engine output *)

(** The four-part result of a rule evaluation. *)
Record rule_tuple : Type := RuleTuple {
  rt_hits : list string; rt_tags : list string; rt_delta : float; rt_contributing : list string }.

Definition str_items (v : pyval) : result (list string) :=
  let! l := iter_or_empty v in Ok (map py_str l).

Definition _rust_eval_to_tuple (out : dict) : result rule_tuple :=
  let! hits := str_items (get out "rule_hits" PNone) in
  let! tags := str_items (get out "tags" PNone) in
  let! delta := py_float (por (get out "score_delta" PNone) (PFloat f_zero)) in
  let! contributing := str_items (get out "contributing_pack_files" PNone) in
  Ok (RuleTuple hits tags delta contributing).

(** The parsed settings of the emergency policy ([json.loads] of each). *)
Definition build_emergency_static_rule_tuple (hits tags contrib : result pyval) (delta : pyval)
    : result rule_tuple :=
  let! hits := hits in
  let! tags := tags in
  let! contrib := contrib in
  let strs v dflt := match v with PList l => map py_str l | _ => [dflt] end in
  let! d := py_float delta in
  Ok (RuleTuple (strs hits "rust_circuit_open") (strs tags "rust_ffi_circuit") d
        (strs contrib "emergency_static_policy")).
