(* ===== verification/Circuit.v ===== *)
(** Circuit breakers: the sliding-window breaker around the Rust rule engine
    ([decision_api/rust_ffi_circuit.py], module [Ffi]) and the asynchronous
    consecutive-failure breaker of outbound calls ([shared/circuit.py], module
    [Async]).  Monotonic clock readings are inputs. *)

From Stdlib Require Import ZArith Lia Bool String.
From stdpp Require Import base option list.
From S2P Require Import Prelude PyFloat.
Local Open Scope Z_scope.

Module Ffi.

(** [rust_ffi_circuit_window_seconds] and [rust_ffi_circuit_failure_threshold]. *)
Record settings : Type := Settings { window_seconds : float; failure_threshold : Z }.

(** [_FAILURE_TIMES], oldest first. *)
Abbreviation deque := (list float).

Definition _window_s (cfg : settings) : float := cfg.(window_seconds).
Definition _threshold (cfg : settings) : Z := Z.max 1 cfg.(failure_threshold).

Fixpoint prune_below (cut : float) (q : deque) : deque :=
  match q with
  | [] => []
  | t :: q' => if fltb t cut then prune_below cut q' else q
  end.

Definition _prune (cfg : settings) (now : float) (q : deque) : deque :=
  prune_below (fsub now (_window_s cfg)) q.

Definition failures_in_window (cfg : settings) (now : float) (q : deque) : deque * Z :=
  let q' := _prune cfg now q in (q', Z.of_nat (length q')).

Definition circuit_is_open (cfg : settings) (now : float) (q : deque) : deque * bool :=
  let '(q', n) := failures_in_window cfg now q in (q', _threshold cfg <=? n).

Definition record_rust_ffi_failure (cfg : settings) (now : float) (q : deque) : deque * Z :=
  let q' := _prune cfg now (_prune cfg now q ++ [now]) in (q', Z.of_nat (length q')).

Definition record_rust_ffi_success (q : deque) : deque := [].

(** What the evaluation wrappers of [rust_rule_engine_ffi.py] do around a call. *)
Inductive call_outcome (A : Type) : Type :=
| CircuitOpen (failures : Z)
| NotInstalled
| InvocationFailed (failures : Z)
| Returned (out : A).
Arguments CircuitOpen {A} failures.
Arguments NotInstalled {A}.
Arguments InvocationFailed {A} failures.
Arguments Returned {A} out.

(** [call] is the Rust function ([None]: the extension is not installed); it
    gives [None] when it raises or answers text that is not JSON. *)
Definition guarded_call {A : Type} (cfg : settings) (now : float) (call : option (unit -> option A))
    (q : deque) : deque * call_outcome A :=
  let '(q, is_open) := circuit_is_open cfg now q in
  if is_open then (q, CircuitOpen (Z.of_nat (length q)))
  else match call with
       | None => (q, NotInstalled)
       | Some fn =>
           match fn tt with
           | None => let '(q, fw) := record_rust_ffi_failure cfg now q in (q, InvocationFailed fw)
           | Some out => (record_rust_ffi_success q, Returned out)
           end
       end.

(** ** Correctness *)

(** The deque is sorted by time, which a monotonic clock maintains. *)
Definition sorted (q : deque) : Prop := forall i j a b, (i < j)%nat -> q !! i = Some a -> q !! j = Some b -> fleb a b = true.

Lemma sorted_tail t q : sorted (t :: q) -> sorted q.
Proof. intros H i j a b Hij Ha Hb. apply (H (S i) (S j) a b); [lia|done|done]. Qed.

Lemma sorted_head t q b : sorted (t :: q) -> b ∈ q -> fleb t b = true.
Proof.
  intros H [j Hj]%list_elem_of_lookup. apply (H 0%nat (S j) t b); [lia|done|done].
Qed.

(** On a sorted deque dropping from the left is filtering. *)
Lemma prune_filter cut q :
  sorted q -> prune_below cut q = List.filter (fun t => negb (fltb t cut)) q.
Proof.
  induction q as [|t q IH]; intros Hs; simpl; [done|].
  destruct (fltb t cut) eqn:E; simpl; [by apply IH, sorted_tail with t|].
  f_equal. symmetry. apply List.forallb_filter_id. apply List.forallb_forall. intros b Hb.
  apply list_elem_of_In in Hb. apply negb_true_iff.
  by apply (fltb_mono_l t); [apply (sorted_head t q)|].
Qed.

Lemma filter_sorted (f : float -> bool) q : sorted q -> sorted (List.filter f q).
Proof.
  induction q as [|t q IH]; intros Hs; simpl; [done|].
  pose proof (IH (sorted_tail _ _ Hs)) as Hq. destruct (f t); [|done].
  intros [|i] [|j] a b Hij Ha Hb; simpl in *; try lia; simplify_eq.
  - apply (sorted_head _ q); [done|]. apply list_elem_of_lookup_2 in Hb.
    apply list_elem_of_In, List.filter_In in Hb as [Hb _]. by apply list_elem_of_In.
  - apply (Hq i j); [lia|done|done].
Qed.

Lemma snoc_sorted q now :
  sorted q -> (forall t, t ∈ q -> fleb t now = true) -> sorted (q ++ [now]).
Proof.
  intros Hs Hn i j a b Hij Ha Hb. apply lookup_app_Some in Hb as [Hb|[Hl Hb]].
  - apply (Hs i j); [done| |done]. apply lookup_lt_Some in Hb.
    by rewrite lookup_app_l in Ha by lia.
  - apply list_lookup_singleton_Some in Hb as [Hj ->].
    rewrite lookup_app_l in Ha by lia. apply Hn. by apply list_elem_of_lookup_2 in Ha.
Qed.

(** The breaker around the Rust engine counts exactly the failures of the
    sliding window: on a time-ordered failure log it is open precisely when at
    least [max(1, threshold)] recorded failures are not older than the window,
    and looking at it never drops one that still counts. *)
Theorem ffi_open_iff cfg now q :
  sorted q ->
  let live := List.filter (fun t => negb (fltb t (fsub now cfg.(window_seconds)))) q in
  circuit_is_open cfg now q = (live, Z.max 1 cfg.(failure_threshold) <=? Z.of_nat (length live))
  /\ sorted live.
Proof.
  intros Hs. simpl. unfold circuit_is_open, failures_in_window, _prune, _window_s, _threshold.
  rewrite prune_filter by done. auto using filter_sorted.
Qed.

Definition demo_cfg : settings := Settings (litZ 60) 2.
Definition demo_log : deque := [litZ 1; litZ 50; litZ 90].

Lemma demo_sorted : sorted demo_log.
Proof.
  intros [|[|[|i]]] [|[|[|j]]] a b Hij Ha Hb; simpl in *; try lia; simplify_eq; vm_compute; reflexivity.
Qed.

Lemma ffi_open_iff_witness : circuit_is_open demo_cfg (litZ 100) demo_log = ([litZ 50; litZ 90], true).
Proof.
  rewrite (proj1 (ffi_open_iff demo_cfg (litZ 100) demo_log demo_sorted)). vm_compute. reflexivity.
Defined.

(** Log of calls against the breaker. *)
Lemma failure_sorted cfg now q :
  sorted q -> (forall t, t ∈ q -> fleb t now = true) ->
  sorted (fst (record_rust_ffi_failure cfg now q)).
Proof.
  intros Hs Hn. unfold record_rust_ffi_failure, _prune. cbn [fst].
  rewrite (prune_filter _ q) by done.
  assert (Hs' : sorted (List.filter (fun t => negb (fltb t (fsub now (_window_s cfg)))) q ++ [now])).
  { apply snoc_sorted; [by apply filter_sorted|].
    intros t Ht. apply list_elem_of_In, List.filter_In in Ht as [Ht _]. apply Hn. by apply list_elem_of_In. }
  rewrite prune_filter by done. by apply filter_sorted.
Qed.

(** An open breaker keeps the Rust engine out of the evaluation: the
    wrapped call is not made (the outcome does not depend on it) and the
    request fails with the circuit error; a closed breaker that sees a
    successful call forgets every earlier failure. *)
Theorem ffi_guarded_call {A} cfg now (call : option (unit -> option A)) q :
  (snd (circuit_is_open cfg now q) = true ->
     forall call', guarded_call cfg now call q = guarded_call cfg now call' q
       /\ exists n, snd (guarded_call cfg now call q) = CircuitOpen n)
  /\ (forall out, snd (guarded_call cfg now call q) = Returned out ->
        fst (guarded_call cfg now call q) = [] /\ snd (circuit_is_open cfg now q) = false).
Proof.
  unfold guarded_call. destruct (circuit_is_open cfg now q) as [q' o]. simpl. split.
  - intros ->. split; [done|]. simpl. eauto.
  - intros out. destruct o; simpl; [discriminate|]. destruct call as [fn|]; [|discriminate].
    destruct (fn tt); [done|]. destruct (record_rust_ffi_failure cfg now q'). discriminate.
Qed.

End Ffi.

Module Async.

(** The breaker's fields; [recovery] is clamped to at least 0.01 s. *)
Record breaker : Type := Breaker {
  threshold : Z; recovery : float; failures : Z; blocked_until : option float }.

Definition init (failure_threshold : Z) (recovery_seconds : float) : breaker :=
  Breaker (Z.max 1 failure_threshold) (fmax (lit 1 100) recovery_seconds) 0 None.

Definition _is_blocked_locked (now : float) (b : breaker) : breaker * bool :=
  match b.(blocked_until) with
  | None => (b, false)
  | Some until =>
      if fleb until now then (Breaker b.(threshold) b.(recovery) b.(failures) None, false)
      else (b, true)
  end.

(** [call] has two atomic sections around the awaited operation: admission
    and settlement.  Between them other calls run. *)
Definition admission (now : float) (b : breaker) : breaker * bool :=
  let '(b', blocked) := _is_blocked_locked now b in (b', negb blocked).

Definition settle (now : float) (ok : bool) (b : breaker) : breaker :=
  if ok then Breaker b.(threshold) b.(recovery) 0 None
  else
    let n := b.(failures) + 1 in
    Breaker b.(threshold) b.(recovery) n
      (if b.(threshold) <=? n then Some (fadd now b.(recovery)) else b.(blocked_until)).

Inductive event : Type :=
| Enter (now : float)
| Settle (now : float) (ok : bool).

Definition step (b : breaker) (e : event) : breaker :=
  match e with
  | Enter now => fst (admission now b)
  | Settle now ok => settle now ok b
  end.

Record breaker_wf (b : breaker) : Prop := {
  bw_threshold : 1 <= b.(threshold);
  bw_failures : 0 <= b.(failures);
  (** a block is only ever placed after [threshold] consecutive failures *)
  bw_blocked : b.(blocked_until) <> None -> b.(threshold) <= b.(failures);
}.

Lemma init_wf n r : breaker_wf (init n r).
Proof. constructor; simpl; [lia|lia|done]. Qed.

Lemma step_wf b e : breaker_wf b -> breaker_wf (step b e).
Proof.
  intros [H1 H2 H3]. destruct e as [now|now []]; simpl.
  - unfold admission, _is_blocked_locked. destruct (blocked_until b) as [u|] eqn:E; simpl; [|by constructor; rewrite ?E].
    destruct (fleb u now); simpl; constructor; simpl; try done; by rewrite ?E.
  - constructor; simpl; [done|lia|done].
  - constructor; simpl; [done|lia|].
    destruct (Z.leb_spec (threshold b) (failures b + 1)); [done|]. intros H4. specialize (H3 H4). lia.
Qed.

Lemma steps_wf es b : breaker_wf b -> breaker_wf (foldl step b es).
Proof. revert b. induction es as [|e es IH]; intros b Hb; simpl; auto using step_wf. Qed.

(** Failures since the last success, as the history records them. *)
Definition tail_failures (es : list event) : Z :=
  foldl (fun n e => match e with Settle _ true => 0 | Settle _ false => n + 1 | Enter _ => n end) 0 es.

Lemma failures_history es b :
  failures (foldl step b es)
  = foldl (fun n e => match e with Settle _ true => 0 | Settle _ false => n + 1 | Enter _ => n end)
      b.(failures) es.
Proof.
  revert b. induction es as [|e es IH]; intros b; simpl; [done|]. rewrite IH. f_equal.
  destruct e as [now|now []]; simpl; try done.
  unfold admission, _is_blocked_locked. destruct (blocked_until b); [|done]. by destruct (fleb _ now).
Qed.

(** The asynchronous breaker only rejects after a full run of consecutive
    failures: in every interleaving of admissions and settlements of concurrent
    calls, when a call is rejected at least [threshold] calls have failed since
    the last success (or the start), and the recovery time has not come. *)
Theorem rejects_only_after_threshold n r es now :
  let b := foldl step (init n r) es in
  snd (admission now b) = false ->
  Z.max 1 n <= tail_failures es
  /\ exists until, b.(blocked_until) = Some until /\ fleb until now = false.
Proof.
  intros b H. assert (Hwf : breaker_wf b) by (apply steps_wf, init_wf).
  assert (Ht : threshold b = Z.max 1 n).
  { unfold b. clear. assert (G : forall b0, threshold (foldl step b0 es) = threshold b0).
    { induction es as [|e es IH]; intros b0; simpl; [done|]. rewrite IH.
      destruct e as [t|t []]; simpl; try done.
      unfold admission, _is_blocked_locked. destruct (blocked_until b0); [|done]. by destruct (fleb _ t). }
    by rewrite G. }
  unfold admission, _is_blocked_locked in H. destruct (blocked_until b) as [u|] eqn:E; [|discriminate].
  destruct (fleb u now) eqn:Eu; [discriminate|]. split; [|eauto].
  rewrite <- Ht. unfold tail_failures. change 0 with (failures (init n r)).
  rewrite <- failures_history. apply Hwf. by rewrite E.
Qed.

Lemma rejects_only_after_threshold_witness :
  1 <= tail_failures [Enter (litZ 0); Settle (litZ 1) false].
Proof.
  refine (proj1 (rejects_only_after_threshold 1 (litZ 30) [Enter (litZ 0); Settle (litZ 1) false]
                   (litZ 5) _)). vm_compute. reflexivity.
Defined.

(** After the recovery time the breaker is not half open: the first
    admission clears the block, so every call that arrives before one of them
    settles is admitted, not a single probe; the first failure among them
    blocks again at once, because the failure count was never reset. *)
Theorem recovery_admits_all b until nows now' :
  breaker_wf b -> b.(blocked_until) = Some until ->
  Forall (fun now => fleb until now = true) nows ->
  nows <> [] ->
  let b' := foldl (fun b now => fst (admission now b)) b nows in
  (forall now, snd (admission now b') = true)
  /\ (settle now' false b').(blocked_until) = Some (fadd now' b.(recovery)).
Proof.
  intros Hwf Hu Hall Hne. destruct nows as [|t nows]; [done|]. apply Forall_cons in Hall as [Ht _].
  set (b1 := Breaker b.(threshold) b.(recovery) b.(failures) None).
  assert (E : foldl (fun b now => fst (admission now b)) b (t :: nows) = b1).
  { simpl. replace (fst (admission t b)) with b1; [clear|].
    - induction nows as [|t' nows IH]; simpl; done.
    - unfold admission, _is_blocked_locked. by rewrite Hu, Ht. }
  cbv zeta. rewrite E. split; [done|]. unfold settle, b1. simpl.
  destruct Hwf as [_ _ H3]. specialize (H3 ltac:(by rewrite Hu)).
  destruct (Z.leb_spec (threshold b) (failures b + 1)); [done|lia].
Qed.

Lemma recovery_admits_all_witness :
  let b := Breaker 2 (litZ 30) 2 (Some (litZ 40)) in
  let b' := foldl (fun b now => fst (admission now b)) b [litZ 41; litZ 42] in
  snd (admission (litZ 43) b') = true.
Proof.
  refine (proj1 (recovery_admits_all (Breaker 2 (litZ 30) 2 (Some (litZ 40))) (litZ 40)
                   [litZ 41; litZ 42] (litZ 43) _ _ _ _) (litZ 43)).
  - constructor; simpl; [lia|lia|intros _; lia].
  - reflexivity.
  - repeat constructor.
  - discriminate.
Defined.

End Async.
