(* ===== verification/PackEvaluator.v ===== *)
(** Rule pack evaluation: [decision_api/pack_evaluator.py] (the Python engine)
    and the engine selection of [decision_api/json_rules.py] and
    [decision_api/rust_rule_engine_ffi.py].

    The wall-clock budget is an oracle [expired]: the answer of [_expired] at
    its n-th call.  The Rust extension is a parameter; the model says when it is
    called and what is done with its answer. *)

From Stdlib Require Import ZArith Lia Ascii String Bool.
From stdpp Require Import base option list sorting strings gmap.
From S2P Require Import Prelude PyFloat PyValue RuleMatch GraphContract AstRules SignalResolver.
From S2P Require Import JsonRules Circuit.
Import GraphContract.Contract JsonRules.Rollout JsonRules.Store JsonRules.Telemetry.
Local Open Scope Z_scope.

Definition _MAX_RULES_PER_PACK : nat := 200.
Definition RuleEvaluationBudgetExceeded : pyexn := OtherError "RuleEvaluationBudgetExceeded".

Definition eligible_pack (exclude_shadow : bool) (p : dict) : bool :=
  py_eq (get p "version" (PInt 1)) (PInt 1)
  && negb (eq_str (get p "mode" (PStr "active")) "disabled")
  && negb (exclude_shadow && eq_str (get p "mode" (PStr "active")) "shadow").

Definition _iter_eligible_packs (packs : list dict) (exclude_shadow : bool) : list dict :=
  List.filter (eligible_pack exclude_shadow) packs.

Record tel_row : Type := TelRow { tr_pack_file : string; tr_rule_id : string; tr_kind : string }.

(** The accumulators of a pack's loops, with the number of budget checks made. *)
Record pack_out : Type := PackOut {
  po_hits : list string; po_tags : list string; po_delta : float;
  po_telemetry : list tel_row; po_ticks : nat }.

(** [delta += float(score_delta or 0.0)], [TypeError] and [ValueError] suppressed. *)
Definition add_score_delta (delta : float) (v : pyval) : result float :=
  match py_float (por v (PFloat f_zero)) with
  | Ok f => Ok (fadd delta f)
  | Err e => if is_type_or_value_error e then Ok delta else Err e
  end.

(** What a matched rule adds. *)
Definition fire (acc : pack_out) (rule : dict) (pf rid kind : string) : result pack_out :=
  let! tags := iter_or_empty (get rule "tags" PNone) in
  let texts := filter_map (fun t => match t with PStr s => Some s | _ => None end) tags in
  let! delta := add_score_delta acc.(po_delta) (get rule "score_delta" PNone) in
  Ok (PackOut (acc.(po_hits) ++ [rid]) (acc.(po_tags) ++ texts) delta
        (acc.(po_telemetry) ++ [TelRow pf rid kind]) acc.(po_ticks)).

Section evaluator.
Context (reg : registry) (hs : resolver) (expired : nat -> bool) (now : Z).

Definition tick (acc : pack_out) : pack_out :=
  PackOut acc.(po_hits) acc.(po_tags) acc.(po_delta) acc.(po_telemetry) (S acc.(po_ticks)).

Definition rule_id (rule : dict) : string := py_str (por (get rule "id" PNone) (PStr "unknown")).

Definition tag_rule_id (rule : dict) : string :=
  let raw := get rule "id" PNone in
  if negb (truthy raw) || negb (nonempty (strip (py_str raw))) then "tagrule" else py_str raw.

(** One iteration of the [rules] loop. *)
Definition eval_rule (features : dict) (pf : string) (acc : pack_out) (rule : pyval)
    : result pack_out :=
  match rule with
  | PDict d =>
      if expired acc.(po_ticks) then Err RuleEvaluationBudgetExceeded
      else
        let acc := tick acc in
        let! hit := evaluate_rule_when reg d features in
        if hit then fire acc d pf (rule_id d) "rule" else Ok acc
  | _ => Ok acc
  end.

(** One iteration of the [tag_rules] loop. *)
Definition eval_tag_rule (redis_set : list string) (pf : string) (acc : pack_out) (rule : pyval)
    : result pack_out :=
  match rule with
  | PDict d =>
      if expired acc.(po_ticks) then Err RuleEvaluationBudgetExceeded
      else
        let acc := tick acc in
        match por (get d "any_tag" PNone) (PList []) with
        | PList l =>
            if evaluate_tag_rule_when (PList l) redis_set
            then fire acc d pf (tag_rule_id d) "tag_rule" else Ok acc
        | _ => Ok acc
        end
  | _ => Ok acc
  end.

Fixpoint rfold {A B : Type} (f : B -> A -> result B) (acc : B) (l : list A) : result B :=
  match l with
  | [] => Ok acc
  | x :: l' => let! acc' := f acc x in rfold f acc' l'
  end.

Definition rule_slice (v : pyval) : list pyval :=
  match por v (PList []) with PList l => take _MAX_RULES_PER_PACK l | _ => [] end.

Definition pf_base (pack : dict) : string := str_or_empty (get pack "_source_file" PNone).

Definition start (ticks : nat) : pack_out := PackOut [] [] f_zero [] ticks.

(** The accumulators and the contributing file. *)
Definition _evaluate_one_pack (pack features : dict) (redis_set : list string)
    (tenant_id entity_id evaluation_mode : string) (ticks : nat)
    : result (pack_out * option string) :=
  let! (apply, _) := _pack_should_apply pack tenant_id entity_id evaluation_mode now in
  if negb apply then Ok (start ticks, None)
  else
    let pf := str_or (pf_base pack) "unknown" in
    let! acc := rfold (eval_rule features pf) (start ticks) (rule_slice (get pack "rules" PNone)) in
    let! acc := rfold (eval_tag_rule redis_set pf) acc (rule_slice (get pack "tag_rules" PNone)) in
    Ok (acc, match acc.(po_hits) with [] => None | _ => Some (pf_base pack) end).

Record eval_out : Type := EvalOut {
  eo_hits : list string; eo_tags : list string; eo_delta : float;
  eo_files : list string; eo_telemetry : list tel_row; eo_ticks : nat }.

Definition eval_pack (features : dict) (redis_set : list string) (tid eid mode : string)
    (acc : eval_out) (pack : dict) : result eval_out :=
  let! (p, pf) := _evaluate_one_pack pack features redis_set tid eid mode acc.(eo_ticks) in
  Ok (EvalOut (acc.(eo_hits) ++ p.(po_hits)) (acc.(eo_tags) ++ p.(po_tags))
        (fadd acc.(eo_delta) p.(po_delta))
        (acc.(eo_files) ++ match pf with Some f => [f] | None => [] end)
        (acc.(eo_telemetry) ++ p.(po_telemetry)) p.(po_ticks)).

Definition norm_mode (m : string) : string :=
  if mem m ["production"; "simulation"; "challenger"] then m else "production".

Definition eval_start : eval_out := EvalOut [] [] f_zero [] [] 0.

Definition evaluate_packs_python (packs : list dict) (features : dict) (redis_tags : list string)
    (tenant_id entity_id evaluation_mode : string) (exclude_shadow : bool) : result eval_out :=
  let tid := or_default tenant_id in
  let eid := or_default entity_id in
  let mode := norm_mode evaluation_mode in
  let eligible := _iter_eligible_packs packs exclude_shadow in
  let fmap := merge_features_with_resolved_from_packs hs features eligible tid eid in
  let! acc := rfold (eval_pack fmap redis_tags tid eid mode) eval_start eligible in
  Ok (EvalOut acc.(eo_hits) acc.(eo_tags) acc.(eo_delta) (sorted_set acc.(eo_files))
        acc.(eo_telemetry) acc.(eo_ticks)).
End evaluator.

(** The returned dictionary. *)
Definition tel_dict (r : tel_row) : pyval :=
  PDict [("pack_file", PStr r.(tr_pack_file)); ("rule_id", PStr r.(tr_rule_id)); ("kind", PStr r.(tr_kind))].

Definition out_dict (fallback_active : bool) (o : eval_out) : dict :=
  [("rule_hits", str_list o.(eo_hits)); ("tags", str_list o.(eo_tags));
   ("score_delta", PFloat o.(eo_delta)); ("contributing_pack_files", str_list o.(eo_files));
   ("telemetry", PList (map tel_dict o.(eo_telemetry)));
   ("metadata", PDict [("fallback_active", PBool fallback_active); ("engine", PStr "python")])].

(** ** Engine selection *)

Definition _configured_json_rules_engine_mode (setting : option string) : string :=
  let v := lower (strip (str_or (opt_str setting) "auto")) in
  if mem v ["auto"; "rust"; "python"] then v else "auto".

Definition should_use_rust_json_engine (setting : option string) (available : bool) : bool :=
  if bool_decide (_configured_json_rules_engine_mode setting = "python") then false else available.

Record engine : Type := Engine {
  en_store : store; en_tel : tstate; en_ffi : Ffi.deque; en_meta : string * bool }.

(** Everything an evaluation reads from outside the modelled state.
    [rust_cached] and [rust_adhoc] are the extension's two entry points
    ([None]: it raised, or its answer is not JSON). *)
Record eval_env : Type := Env {
  ev_setting : option string;
  ev_available : bool;
  ev_installed : bool;
  ev_reg : registry;
  ev_handlers : resolver;
  ev_expired : nat -> bool;
  ev_now : Z;
  ev_mono : float;
  ev_unix : float;
  ev_ffi : Ffi.settings;
  ev_tel : tconfig;
  rust_cached : dict -> list string -> string -> string -> string -> option (list string) -> option pyval;
  rust_adhoc : list dict -> dict -> list string -> string -> string -> string -> option (list string)
               -> option pyval }.

(** [list(signal_tags)] when it is non-empty. *)
Definition st_opt (signal_tags : option (list string)) : option (list string) :=
  match signal_tags with Some (t :: l) => Some (t :: l) | _ => None end.

Definition ffi_result (q_out : Ffi.deque * Ffi.call_outcome pyval) : Ffi.deque * result dict :=
  (q_out.1, match q_out.2 with
            | Ffi.CircuitOpen _ => Err (OtherError "RustRuleEngineCircuitOpenError")
            | Ffi.NotInstalled => Err (OtherError "RuntimeError")
            | Ffi.InvocationFailed _ => Err (OtherError "RustRuleEngineInvocationFailed")
            | Ffi.Returned (PDict d) => Ok d
            | Ffi.Returned _ => Err AttributeError
            end).

Definition evaluate_cached_packs_via_rust (ev : eval_env) (cached : list dict) (features : dict)
    (redis_tags : list string) (tenant_id entity_id evaluation_mode : string)
    (signal_tags : option (list string)) (q : Ffi.deque) : Ffi.deque * result dict :=
  let tid := or_default tenant_id in
  let eid := or_default entity_id in
  let mode := norm_mode evaluation_mode in
  let merged := merge_features_with_resolved_from_packs ev.(ev_handlers) features cached tid eid in
  ffi_result (Ffi.guarded_call ev.(ev_ffi) ev.(ev_mono)
    (if ev.(ev_installed)
     then Some (fun _ => ev.(rust_cached) merged redis_tags tid eid mode (st_opt signal_tags))
     else None) q).

Definition evaluate_json_rules_via_rust (ev : eval_env) (packs : list dict) (features : dict)
    (redis_tags : list string) (tenant_id entity_id evaluation_mode : string)
    (signal_tags : option (list string)) (q : Ffi.deque) : Ffi.deque * result dict :=
  let tid := or_default tenant_id in
  let eid := or_default entity_id in
  let mode := norm_mode evaluation_mode in
  let merged := merge_features_with_resolved_from_packs ev.(ev_handlers) features packs tid eid in
  ffi_result (Ffi.guarded_call ev.(ev_ffi) ev.(ev_mono)
    (if ev.(ev_installed)
     then Some (fun _ => ev.(rust_adhoc) packs merged redis_tags tid eid mode (st_opt signal_tags))
     else None) q).

Fixpoint telemetry_rows (ev : eval_env) (rows : list pyval) (s : tstate) : tstate * result unit :=
  match rows with
  | [] => (s, Ok tt)
  | PDict row :: rest =>
      let pf := py_str (por (get row "pack_file" PNone) (PStr "unknown")) in
      let rid := py_str (por (get row "rule_id" PNone) (PStr "unknown")) in
      let kind := py_str (por (get row "kind" PNone) (PStr "rule")) in
      match record_rule_hit ev.(ev_tel) ev.(ev_unix) pf rid kind s with
      | (s', Ok _) => telemetry_rows ev rest s'
      | (s', Err e) => (s', Err e)
      end
  | _ :: rest => telemetry_rows ev rest s
  end.

Definition _apply_telemetry_from_rust (ev : eval_env) (out : dict) (s : tstate) : tstate * result unit :=
  match iter_or_empty (get out "telemetry" PNone) with
  | Ok rows => telemetry_rows ev rows s
  | Err e => (s, Err e)
  end.

(** The common tail: telemetry, engine metadata, result. *)
Definition finish (ev : eval_env) (st : engine) (record : bool) (meta : string * bool) (out : result dict)
    : engine * result rule_tuple :=
  match out with
  | Err e => (st, Err e)
  | Ok out =>
      let '(tel, r) := if record then _apply_telemetry_from_rust ev out st.(en_tel)
                       else (st.(en_tel), Ok tt) in
      match r with
      | Err e => (Engine st.(en_store) tel st.(en_ffi) st.(en_meta), Err e)
      | Ok _ => (Engine st.(en_store) tel st.(en_ffi) meta, _rust_eval_to_tuple out)
      end
  end.

Definition with_ffi (st : engine) (q : Ffi.deque) : engine :=
  Engine st.(en_store) st.(en_tel) q st.(en_meta).

Definition evaluate_json_rules (ev : eval_env) (features : dict) (redis_tags : list string)
    (tenant_id entity_id : option string) (evaluation_mode : string)
    (signal_tags : option (list string)) (st : engine) : engine * result rule_tuple :=
  let cfg_mode := _configured_json_rules_engine_mode ev.(ev_setting) in
  let tid := or_default (opt_str tenant_id) in
  let eid := or_default (opt_str entity_id) in
  let mode := norm_mode evaluation_mode in
  let merged := merge_redis_tags_with_signals redis_tags signal_tags in
  if should_use_rust_json_engine ev.(ev_setting) ev.(ev_available) then
    let '(q, out) := evaluate_cached_packs_via_rust ev st.(en_store).(_cached_packs) features redis_tags
                       (opt_str tenant_id) (opt_str entity_id) mode signal_tags st.(en_ffi) in
    finish ev (with_ffi st q) true ("rust", false) out
  else
    let fallback_active := negb (bool_decide (cfg_mode = "python")) in
    finish ev st true ("python", fallback_active)
      (rmap (out_dict fallback_active)
         (evaluate_packs_python ev.(ev_reg) ev.(ev_handlers) ev.(ev_expired) ev.(ev_now)
            st.(en_store).(_cached_packs) features merged tid eid mode true)).

Definition evaluate_adhoc_packs_json (ev : eval_env) (packs : list dict) (features : dict)
    (redis_tags : list string) (tenant_id entity_id : option string) (evaluation_mode : string)
    (signal_tags : option (list string)) (record_telemetry : bool) (st : engine)
    : engine * result rule_tuple :=
  let cfg_mode := _configured_json_rules_engine_mode ev.(ev_setting) in
  let tid := or_default (opt_str tenant_id) in
  let eid := or_default (opt_str entity_id) in
  let mode := norm_mode evaluation_mode in
  let merged := merge_redis_tags_with_signals redis_tags signal_tags in
  if should_use_rust_json_engine ev.(ev_setting) ev.(ev_available) then
    let '(q, out) := evaluate_json_rules_via_rust ev packs features redis_tags
                       (opt_str tenant_id) (opt_str entity_id) mode signal_tags st.(en_ffi) in
    finish ev (with_ffi st q) record_telemetry ("rust", false) out
  else
    let fallback_active := negb (bool_decide (cfg_mode = "python")) in
    finish ev st record_telemetry ("python", fallback_active)
      (rmap (out_dict fallback_active)
         (evaluate_packs_python ev.(ev_reg) ev.(ev_handlers) ev.(ev_expired) ev.(ev_now)
            packs features merged tid eid mode false)).

(** * Lemmas *)

Lemma rfold_app {A B} (f : B -> A -> result B) acc l1 l2 :
  rfold f acc (l1 ++ l2) = rbind (rfold f acc l1) (fun acc' => rfold f acc' l2).
Proof.
  revert acc. induction l1 as [|x l1 IH]; intros acc; simpl; [done|].
  destruct (f acc x); simpl; [apply IH|done].
Qed.

(** Invariant rule for accumulator loops. *)
Lemma rfold_inv {A B} (f : B -> A -> result B) (P : B -> Prop) l acc acc' :
  (forall b x b', x ∈ l -> P b -> f b x = Ok b' -> P b') ->
  P acc -> rfold f acc l = Ok acc' -> P acc'.
Proof.
  revert acc. induction l as [|x l IH]; intros acc Hstep Hacc H; simpl in H; [by injection H as <-|].
  inv_ok. eapply IH; [|eapply (Hstep acc x); [left|done|done]|done].
  intros b y b' Hy. apply Hstep. by right.
Qed.

Section facts.
Context (reg : registry) (hs : resolver) (expired : nat -> bool) (now : Z).

Abbreviation step_rule := (eval_rule reg expired).
Abbreviation step_tag_rule := (eval_tag_rule expired).
Abbreviation evaluate_one_pack := (_evaluate_one_pack reg expired now).
Abbreviation evaluate_packs := (evaluate_packs_python reg hs expired now).

(** [fire] appends one hit and its telemetry row. *)
Lemma fire_Ok acc d pf rid kind acc' :
  fire acc d pf rid kind = Ok acc' ->
  acc'.(po_hits) = acc.(po_hits) ++ [rid]
  /\ acc'.(po_telemetry) = acc.(po_telemetry) ++ [TelRow pf rid kind]
  /\ acc'.(po_ticks) = acc.(po_ticks).
Proof. unfold fire. intros H. inv_ok. by subst. Qed.

(** Hits and telemetry stay in step. *)
Definition synced (acc : pack_out) : Prop := acc.(po_hits) = map tr_rule_id acc.(po_telemetry).

Lemma fire_synced acc d pf rid kind acc' : synced acc -> fire acc d pf rid kind = Ok acc' -> synced acc'.
Proof.
  unfold synced. intros H (Hh & Ht & _)%fire_Ok. by rewrite Hh, Ht, map_app, H.
Qed.

Lemma eval_rule_synced F pf acc r acc' : synced acc -> step_rule F pf acc r = Ok acc' -> synced acc'.
Proof.
  intros Hs H. unfold eval_rule in H.
  destruct r; try (injection H as <-; done). destruct (expired _); [discriminate|]. inv_ok.
  destruct a; [|by injection H as <-]. by eapply fire_synced in H.
Qed.

Lemma eval_tag_rule_synced tags pf acc r acc' :
  synced acc -> step_tag_rule tags pf acc r = Ok acc' -> synced acc'.
Proof.
  intros Hs H. unfold eval_tag_rule in H.
  destruct r; try (injection H as <-; done). destruct (expired _); [discriminate|].
  destruct (por _ _); try (injection H as <-; done).
  destruct (evaluate_tag_rule_when _ _); [|by injection H as <-]. by eapply fire_synced in H.
Qed.

Lemma one_pack_synced pack F tags t e m n out pf :
  evaluate_one_pack pack F tags t e m n = Ok (out, pf) ->
  synced out /\ pf = match out.(po_hits) with [] => None | _ => Some (pf_base pack) end.
Proof.
  intros H. unfold _evaluate_one_pack in H. inv_ok. destruct a as [ap why].
  destruct ap; cbn [negb] in H; [|injection H as <- <-; done]. inv_ok. injection H as <- <-.
  split; [|done]. eapply (rfold_inv _ synced); [|..|exact H2].
  - intros b x b' _. apply eval_tag_rule_synced.
  - eapply (rfold_inv _ synced); [|..|exact H1]; [|done]. intros b x b' _. apply eval_rule_synced.
Qed.

(** A pack the rollout gate refuses adds nothing. *)
Lemma refused_pack_silent pack F tags t e m n why :
  _pack_should_apply pack t e m now = Ok (false, why) ->
  evaluate_one_pack pack F tags t e m n = Ok (start n, None).
Proof. intros H. unfold _evaluate_one_pack. by rewrite H. Qed.

(** Budget checks: at most one per entry of each capped list. *)
Lemma eval_rule_ticks F pf acc r acc' :
  step_rule F pf acc r = Ok acc' -> (acc'.(po_ticks) <= S acc.(po_ticks))%nat.
Proof.
  intros H. unfold eval_rule in H.
  destruct r; try (injection H as <-; lia). destruct (expired _); [discriminate|]. inv_ok.
  destruct a; [|injection H as <-; simpl; lia].
  apply fire_Ok in H as (_ & _ & ->). simpl. lia.
Qed.

Lemma eval_tag_rule_ticks tags pf acc r acc' :
  step_tag_rule tags pf acc r = Ok acc' -> (acc'.(po_ticks) <= S acc.(po_ticks))%nat.
Proof.
  intros H. unfold eval_tag_rule in H.
  destruct r; try (injection H as <-; lia). destruct (expired _); [discriminate|].
  destruct (por _ _); try (injection H as <-; simpl; lia).
  destruct (evaluate_tag_rule_when _ _); [|injection H as <-; simpl; lia].
  apply fire_Ok in H as (_ & _ & ->). simpl. lia.
Qed.

Lemma rfold_ticks {A} (f : pack_out -> A -> result pack_out) l acc acc' :
  (forall b x b', f b x = Ok b' -> (b'.(po_ticks) <= S b.(po_ticks))%nat) ->
  rfold f acc l = Ok acc' -> (acc'.(po_ticks) <= acc.(po_ticks) + length l)%nat.
Proof.
  intros Hf. revert acc. induction l as [|x l IH]; intros acc H; simpl in H; [injection H as <-; simpl; lia|].
  inv_ok. apply Hf in H0. apply IH in H. simpl. lia.
Qed.

Lemma rule_slice_len v : (length (rule_slice v) <= _MAX_RULES_PER_PACK)%nat.
Proof. unfold rule_slice. destruct (por v (PList [])); simpl; try lia. rewrite length_take. lia. Qed.

Lemma one_pack_ticks pack F tags t e m n out pf :
  evaluate_one_pack pack F tags t e m n = Ok (out, pf) -> (out.(po_ticks) <= n + 400)%nat.
Proof.
  intros H. unfold _evaluate_one_pack in H. inv_ok. destruct a as [ap why].
  destruct ap; cbn [negb] in H; [|injection H as <- <-; simpl; lia]. inv_ok. injection H as <- <-.
  apply rfold_ticks in H1; [|intros; by eapply eval_rule_ticks].
  apply rfold_ticks in H2; [|intros; by eapply eval_tag_rule_ticks].
  pose proof (rule_slice_len (get pack "rules" PNone)).
  pose proof (rule_slice_len (get pack "tag_rules" PNone)).
  unfold _MAX_RULES_PER_PACK in *. simpl in *. lia.
Qed.

(** ** Whole evaluation *)

Record eval_inv (packs : list dict) (acc : eval_out) : Prop := {
  ei_synced : acc.(eo_hits) = map tr_rule_id acc.(eo_telemetry);
  ei_files : forall f, f ∈ acc.(eo_files) -> exists p, p ∈ packs /\ pf_base p = f;
  ei_some : acc.(eo_files) = [] <-> acc.(eo_hits) = [];
}.

Lemma eval_pack_inv F tags t e m packs acc pack acc' :
  pack ∈ packs -> eval_inv packs acc ->
  eval_pack reg expired now F tags t e m acc pack = Ok acc' -> eval_inv packs acc'.
Proof.
  intros Hin [Hs Hf Hn] H. unfold eval_pack in H. inv_ok. destruct a as [p pf]. inv_ok. subst acc'.
  apply one_pack_synced in H0 as [Hp ->]. constructor; simpl.
  - by rewrite map_app, Hs, Hp.
  - intros f. rewrite elem_of_app. intros [Hx|Hx]; [auto|].
    destruct (po_hits p); [by apply not_elem_of_nil in Hx|].
    apply list_elem_of_singleton in Hx as ->. eauto.
  - rewrite !app_nil. rewrite Hn. destruct (po_hits p); [tauto|]. split; intros [? ?]; discriminate.
Qed.

Lemma evaluate_packs_inv packs F tags t e m ex out :
  evaluate_packs packs F tags t e m ex = Ok out ->
  exists acc, eval_inv (_iter_eligible_packs packs ex) acc
    /\ out = EvalOut acc.(eo_hits) acc.(eo_tags) acc.(eo_delta) (sorted_set acc.(eo_files))
               acc.(eo_telemetry) acc.(eo_ticks).
Proof.
  intros H. unfold evaluate_packs_python in H. inv_ok. exists a. split; [|done].
  eapply (rfold_inv _ (eval_inv (_iter_eligible_packs packs ex))); [|..|exact H0].
  - intros b x b' Hx. by apply eval_pack_inv.
  - constructor; simpl; [done| |done]. intros f Hf. by apply not_elem_of_nil in Hf.
Qed.

Lemma evaluate_packs_ticks packs F tags t e m ex out :
  evaluate_packs packs F tags t e m ex = Ok out -> (out.(eo_ticks) <= 400 * length packs)%nat.
Proof.
  intros H. unfold evaluate_packs_python in H. inv_ok. subst out. simpl.
  assert (Hle : (length (_iter_eligible_packs packs ex) <= length packs)%nat)
    by apply List.filter_length_le.
  enough (G : forall l acc acc',
    rfold (eval_pack reg expired now
      (merge_features_with_resolved_from_packs hs F (_iter_eligible_packs packs ex)
         (or_default t) (or_default e)) tags (or_default t) (or_default e) (norm_mode m)) acc l
    = Ok acc' -> (acc'.(eo_ticks) <= acc.(eo_ticks) + 400 * length l)%nat).
  { apply G in H0. simpl in H0. lia. }
  intros l. induction l as [|p l IH]; intros acc acc' Hr; simpl in Hr; [injection Hr as <-; lia|].
  inv_ok. apply IH in Hr. unfold eval_pack in H. inv_ok. destruct a1 as [po pf]. inv_ok. subst a0.
  apply one_pack_ticks in H1. simpl in *. lia.
Qed.
End facts.

(** * Theorems *)

Definition demo_rule (id : string) : pyval :=
  PDict [("id", PStr id); ("when", PList [PDict (text_cond "gte" "amount" (PInt 500))]);
         ("tags", PList [PStr "big"]); ("score_delta", PInt 20)].
Definition demo_pack (name mode : string) : dict :=
  [("_source_file", PStr name); ("mode", PStr mode); ("rules", PList [demo_rule "r1"])].

(** The result of an evaluation is consistent: every hit has its telemetry
    row in the same order, the contributing files are sorted without
    duplicates, each names an eligible pack of the input, and there is one
    exactly when some rule hit. *)
Theorem evaluation_consistent reg hs expired now packs F tags t e m ex out :
  evaluate_packs_python reg hs expired now packs F tags t e m ex = Ok out ->
  out.(eo_hits) = map tr_rule_id out.(eo_telemetry)
  /\ NoDup out.(eo_files) /\ Sorted String.le out.(eo_files)
  /\ (forall f, f ∈ out.(eo_files) -> exists p, p ∈ packs /\ eligible_pack ex p = true /\ pf_base p = f)
  /\ (out.(eo_files) = [] <-> out.(eo_hits) = []).
Proof.
  intros H. apply evaluate_packs_inv in H as (acc & [Hs Hf Hn] & ->). simpl.
  split; [done|]. split; [apply sorted_set_NoDup|]. split; [apply sorted_set_sorted|]. split.
  - intros f. rewrite sorted_set_elem. intros (p & Hp & Hpf)%Hf.
    apply list_elem_of_In, List.filter_In in Hp as [Hp He]. exists p.
    split; [by apply list_elem_of_In|done].
  - rewrite <- Hn. split; intros H.
    + destruct (eo_files acc) as [|f l] eqn:E; [done|]. exfalso.
      assert (Hin : f ∈ sorted_set (f :: l)) by (rewrite sorted_set_elem; left).
      rewrite H in Hin. by apply not_elem_of_nil in Hin.
    + rewrite H. done.
Qed.

Lemma evaluation_consistent_witness :
  exists out, evaluate_packs_python empty_registry [] (fun _ => false) 0
    [demo_pack "a.json" "active"] [("amount", PInt 700)] [] "t" "e" "production" true = Ok out
  /\ out.(eo_hits) = ["r1"] /\ out.(eo_hits) = map tr_rule_id out.(eo_telemetry).
Proof.
  eexists. split; [vm_compute; reflexivity|]. split; [reflexivity|].
  refine (proj1 (evaluation_consistent empty_registry [] (fun _ => false) 0
    [demo_pack "a.json" "active"] [("amount", PInt 700)] [] "t" "e" "production" true _ _)).
  vm_compute. reflexivity.
Defined.

(** An evaluation does a bounded amount of work: it checks its wall-clock
    budget at most 400 times per pack (200 rules and 200 tag rules), however
    many rules a pack lists. *)
Theorem evaluation_work_bounded reg hs expired now packs F tags t e m ex out :
  evaluate_packs_python reg hs expired now packs F tags t e m ex = Ok out ->
  (out.(eo_ticks) <= 400 * length packs)%nat.
Proof. apply evaluate_packs_ticks. Qed.

Lemma evaluation_work_bounded_witness :
  exists out, evaluate_packs_python empty_registry [] (fun _ => false) 0
    [demo_pack "a.json" "active"] [("amount", PInt 700)] [] "t" "e" "production" true = Ok out
  /\ (out.(eo_ticks) <= 400)%nat.
Proof.
  eexists. split; [vm_compute; reflexivity|].
  refine (evaluation_work_bounded empty_registry [] (fun _ => false) 0
    [demo_pack "a.json" "active"] [("amount", PInt 700)] [] "t" "e" "production" true _ _).
  vm_compute. reflexivity.
Defined.

(** ** What a pack hits *)

Definition rule_hit (reg : registry) (F : dict) (r : pyval) : option string :=
  match r with
  | PDict d => match evaluate_rule_when reg d F with Ok true => Some (rule_id d) | _ => None end
  | _ => None
  end.

Definition tag_rule_hit (tags : list string) (r : pyval) : option string :=
  match r with
  | PDict d => if evaluate_tag_rule_when (por (get d "any_tag" PNone) (PList [])) tags
               then Some (tag_rule_id d) else None
  | _ => None
  end.

Lemma rfold_hits {A} (f : pack_out -> A -> result pack_out) (hit : A -> option string) l acc acc' :
  (forall b x b', f b x = Ok b' ->
     b'.(po_hits) = b.(po_hits) ++ match hit x with Some h => [h] | None => [] end) ->
  rfold f acc l = Ok acc' -> acc'.(po_hits) = acc.(po_hits) ++ filter_map hit l.
Proof.
  intros Hf. revert acc. induction l as [|x l IH]; intros acc H; simpl in H.
  - injection H as <-. by rewrite app_nil_r.
  - inv_ok. apply Hf in H0. apply IH in H. rewrite H, H0. simpl.
    destruct (hit x); simpl; by rewrite <- (assoc_L (++)).
Qed.

Lemma eval_rule_hits reg expired F pf b x b' :
  eval_rule reg expired F pf b x = Ok b' ->
  b'.(po_hits) = b.(po_hits) ++ match rule_hit reg F x with Some h => [h] | None => [] end.
Proof.
  unfold eval_rule, rule_hit. destruct x; try (intros [= <-]; by rewrite app_nil_r).
  destruct (expired _); [discriminate|]. intros H. inv_ok. rewrite H0. destruct a.
  - by apply fire_Ok in H as [-> _].
  - injection H as <-. by rewrite app_nil_r.
Qed.

Lemma eval_tag_rule_hits expired tags pf b x b' :
  eval_tag_rule expired tags pf b x = Ok b' ->
  b'.(po_hits) = b.(po_hits) ++ match tag_rule_hit tags x with Some h => [h] | None => [] end.
Proof.
  unfold eval_tag_rule, tag_rule_hit. destruct x; try (intros [= <-]; by rewrite app_nil_r).
  destruct (expired _); [discriminate|].
  destruct (por _ _) as [| | | | |l|]; try (intros [= <-]; by rewrite app_nil_r).
  destruct (evaluate_tag_rule_when _ _).
  - by intros [-> _]%fire_Ok.
  - intros [= <-]. by rewrite app_nil_r.
Qed.

Lemma slice_first v : rule_slice v = take 200 (as_list v).
Proof. unfold rule_slice, por. destruct v as [| | | | |[|x l]|]; try done; by destruct (truthy _). Qed.

(** What a pack reports: the ids of the rules that fire among its first 200 rules,
    and of the tag rules that fire among its first 200 tag rules. *)
Definition reports_of (reg : registry) (F : dict) (tags : list string) (pack : dict) : list string :=
  filter_map (rule_hit reg F) (take 200 (as_list (get pack "rules" PNone)))
  ++ filter_map (tag_rule_hit tags) (take 200 (as_list (get pack "tag_rules" PNone))).

Lemma applied_reports reg expired now pack F tags t e m n out pf why :
  _pack_should_apply pack t e m now = Ok (true, why) ->
  _evaluate_one_pack reg expired now pack F tags t e m n = Ok (out, pf) -> out.(po_hits) = reports_of reg F tags pack.
Proof.
  intros Ha H. unfold _evaluate_one_pack in H. rewrite Ha in H. cbn [rbind negb] in H. inv_ok.
  injection H as <- <-. rewrite slice_first in H0. rewrite slice_first in H1.
  apply (rfold_hits _ (rule_hit reg F)) in H0; [|intros; by eapply eval_rule_hits].
  apply (rfold_hits _ (tag_rule_hit tags)) in H1; [|intros; by eapply eval_tag_rule_hits].
  unfold reports_of. by rewrite H1, H0.
Qed.

(** C16: the hits of a pack are exactly the ids of its matching rules, in
    order: when the rollout gate lets the pack apply and the evaluation
    returns, the hits are the ids of the rules whose body fires among the
    pack's first 200 rules, followed by those of the tag rules whose tags are
    present among its first 200 tag rules; nothing else is reported and
    nothing is lost. *)
Theorem pack_hits_exact reg expired now pack F tags t e m n out pf why :
  _pack_should_apply pack t e m now = Ok (true, why) ->
  _evaluate_one_pack reg expired now pack F tags t e m n = Ok (out, pf) ->
  out.(po_hits) = filter_map (rule_hit reg F) (take 200 (as_list (get pack "rules" PNone)))
                  ++ filter_map (tag_rule_hit tags) (take 200 (as_list (get pack "tag_rules" PNone))).
Proof. apply applied_reports. Qed.

Lemma pack_hits_exact_witness :
  exists out pf, _evaluate_one_pack empty_registry (fun _ => false) 0 (demo_pack "a.json" "active")
     [("amount", PInt 700)] [] "t" "e" "production" 0 = Ok (out, pf) /\ out.(po_hits) = ["r1"].
Proof.
  eexists _, _. split; [vm_compute; reflexivity|].
  etransitivity; [refine (pack_hits_exact empty_registry (fun _ => false) 0 (demo_pack "a.json" "active")
     [("amount", PInt 700)] [] "t" "e" "production" 0 _ _ _ _ _); vm_compute; reflexivity|].
  vm_compute. reflexivity.
Defined.

(** ** What an evaluation hits *)








(** No silent fallback: when the Rust engine is selected and its call
    fails (the circuit is open, the extension is missing, or every call to it
    raises), the evaluation fails with an engine error; it never returns the
    Python engine's verdict, records no hits and leaves the engine metadata
    and the pack store alone. *)
Theorem rust_failure_no_fallback ev F tags t e m st_tags st :
  should_use_rust_json_engine ev.(ev_setting) ev.(ev_available) = true ->
  (forall f g a b c d, ev.(rust_cached) f g a b c d = None) ->
  exists name st',
    evaluate_json_rules ev F tags t e m st_tags st = (st', Err (OtherError name))
    /\ name ∈ ["RustRuleEngineCircuitOpenError"; "RuntimeError"; "RustRuleEngineInvocationFailed"]
    /\ st'.(en_tel) = st.(en_tel) /\ st'.(en_meta) = st.(en_meta) /\ st'.(en_store) = st.(en_store).
Proof.
  intros Hr Hn. unfold evaluate_json_rules. rewrite Hr.
  unfold evaluate_cached_packs_via_rust, ffi_result, Ffi.guarded_call.
  destruct (Ffi.circuit_is_open _ _ _) as [q []]; simpl.
  - eexists _, _. split; [done|]. simpl. split; [set_solver|done].
  - destruct (ev_installed ev); simpl.
    + rewrite Hn. simpl. eexists _, _. split; [done|]. simpl. split; [set_solver|done].
    + eexists _, _. split; [done|]. simpl. split; [set_solver|done].
Qed.

Definition demo_env : eval_env :=
  Env (Some "rust") true true empty_registry [] (fun _ => false) 0 f_zero f_zero
    (Ffi.Settings (litZ 60) 5) (TConfig None false true) (fun _ _ _ _ _ _ => None) (fun _ _ _ _ _ _ _ => None).
Definition demo_engine : engine :=
  Engine (MkStore [demo_pack "a.json" "active"] [] [] None 0) (TState [] f_zero 0 true NoFile) [] ("unknown", false).

Lemma rust_failure_no_fallback_witness :
  exists name st', evaluate_json_rules demo_env [("amount", PInt 700)] [] None None "production" None demo_engine
    = (st', Err (OtherError name)).
Proof.
  destruct (rust_failure_no_fallback demo_env [("amount", PInt 700)] [] None None "production" None
              demo_engine eq_refl (fun _ _ _ _ _ _ => eq_refl)) as (name & st' & H & _).
  exists name, st'. exact H.
Defined.

(** ** Unresolved custom signals *)

Lemma dedup_exists (Q : spec -> bool) seen l :
  (forall a b, a.(sp_plugin) = b.(sp_plugin) -> a.(sp_key) = b.(sp_key) -> Q a = Q b) ->
  (forall sp, dedup_key sp ∈ seen -> Q sp = false) ->
  existsb Q (dedup_specs seen l) = existsb Q l.
Proof.
  intros Hq. revert seen. induction l as [|sp l IH]; intros seen Hs; simpl; [done|].
  case_bool_decide as Hk.
  - by rewrite IH, (Hs _ Hk) by done.
  - simpl. destruct (Q sp) eqn:E; [done|]. simpl. apply IH.
    intros sp' [Hx|Hx]%elem_of_cons; [|by apply Hs]. injection Hx as H1 _ H2. by rewrite (Hq sp' sp).
Qed.

Lemma merge_packs_key hs features packs t e k sp :
  sp ∈ flat_map (fun p => flat_map iter_custom_signal_specs (pack_asts p)) packs ->
  valid_spec sp = true -> strip sp.(sp_key) = k ->
  has_key (merge_features_with_resolved_from_packs hs features packs t e) k = true.
Proof.
  intros Hin Hv Hk. unfold merge_features_with_resolved_from_packs.
  rewrite has_key_update, resolve_all_keys. apply orb_true_iff. right.
  unfold collect_custom_signal_specs_from_packs. rewrite dedup_exists.
  - apply existsb_exists. exists sp. split; [by apply list_elem_of_In|].
    rewrite Hv. simpl. by apply bool_decide_eq_true.
  - intros a b H1 H2. unfold valid_spec. by rewrite H1, H2.
  - intros sp' Hx. by apply not_elem_of_nil in Hx.
Qed.

(** A rule whose whole body is one custom signal. *)
Definition signal_rule (id plugin key : string) : dict :=
  [("id", PStr id);
   ("when_ast", PDict [("type", PStr "custom_signal"); ("plugin_id", PStr plugin); ("output_key", PStr key)])].

(** A rule made of one custom signal fires even when no plugin is
    registered for it: the evaluator binds the signal's key to [None] on an
    unknown plugin, a raised exception or a timeout, and the AST evaluator only
    tests that the key is present, so every entity the pack applies to is hit.
    The comment in the AST evaluator says such a node must not match. *)
Theorem unresolved_signal_fires reg hs packs rest pf F t e id plugin key ex :
  strip plugin = plugin -> strip key = key ->
  nonempty plugin = true -> nonempty key = true ->
  str_len plugin <= _MAX_FIELD_LEN -> str_len key <= _MAX_FIELD_LEN ->
  let pack : dict := [("_source_file", PStr pf); ("rules", PList (PDict (signal_rule id plugin key) :: rest))] in
  pack ∈ _iter_eligible_packs packs ex ->
  evaluate_rule_when reg (signal_rule id plugin key)
    (merge_features_with_resolved_from_packs hs F (_iter_eligible_packs packs ex) t e) = Ok true.
Proof.
  intros Sp Sk Np Nk Lp Lk pack Hin.
  set (G := merge_features_with_resolved_from_packs _ _ _ _ _).
  assert (HG : has_key G key = true).
  { apply (merge_packs_key _ _ _ _ _ _ (Spec plugin [] key)); [|unfold valid_spec; simpl; by rewrite Sp, Sk, Np, Nk|done].
    apply list_elem_of_In, in_flat_map. exists pack. split; [by apply list_elem_of_In|].
    apply in_flat_map. exists (PDict [("type", PStr "custom_signal"); ("plugin_id", PStr plugin); ("output_key", PStr key)]).
    split; [left; done|].
    change (iter_custom_signal_specs _) with
      (node_spec [("type", PStr "custom_signal"); ("plugin_id", PStr plugin); ("output_key", PStr key)] ++ []).
    unfold node_spec. change (eq_str _ _) with true. change (get _ "plugin_id" PNone) with (PStr plugin).
    change (get _ "output_key" PNone) with (PStr key). cbv iota zeta.
    rewrite Sp, Sk, Np, Nk. by left. }
  change (evaluate_rule_when reg (signal_rule id plugin key) G) with
    (Ok (eval_when_ast reg (PDict [("type", PStr "custom_signal"); ("plugin_id", PStr plugin); ("output_key", PStr key)]) G)).
  f_equal. unfold eval_when_ast.
  assert (Hv : validate_ast (PDict [("type", PStr "custom_signal"); ("plugin_id", PStr plugin); ("output_key", PStr key)])
               = Some (JsonAstCustomSignal plugin [] key)).
  { change (validate_ast _) with (mk_custom_signal [("type", PStr "custom_signal"); ("plugin_id", PStr plugin); ("output_key", PStr key)]).
    unfold mk_custom_signal. change (extra_forbid _ _) with true. cbn [negb].
    change (dict_lookup "plugin_id" _) with (Some (PStr plugin)).
    change (get _ "params" _) with (PDict []). change (dict_lookup "output_key" _) with (Some (PStr key)).
    cbn match. unfold bounded_str. rewrite Np, Nk. apply Z.leb_le in Lp, Lk. by rewrite Lp, Lk. }
  rewrite Hv. change (enforce_ast_limits _) with (Ok tt). cbn match. cbn [evaluate_json_ast].
  rewrite Sk, Nk, HG. done.
Qed.

Lemma unresolved_signal_fires_witness :
  let pack : dict := [("_source_file", PStr "p.json"); ("rules", PList [PDict (signal_rule "r" "no_such_plugin" "sig")])] in
  evaluate_rule_when empty_registry (signal_rule "r" "no_such_plugin" "sig")
    (merge_features_with_resolved_from_packs [] [] (_iter_eligible_packs [pack] true) "t" "e") = Ok true.
Proof.
  refine (unresolved_signal_fires empty_registry []
    [[("_source_file", PStr "p.json"); ("rules", PList [PDict (signal_rule "r" "no_such_plugin" "sig")])]]
    [] "p.json" [] "t" "e" "r" "no_such_plugin" "sig" true _ _ _ _ _ _ _);
    [vm_compute; congruence..|]. apply list_elem_of_In. left. reflexivity.
Defined.
