(* ===== verification/Score.v ===== *)
(** Scores, degradation tags and their audit text:
    [decision_api/evaluate/score.py]. *)

From Stdlib Require Import ZArith Lia Ascii String Bool.
From Stdlib Require Import SpecFloat.
From stdpp Require Import base option list sorting strings gmap.
From S2P Require Import Prelude PyFloat PyValue JsonRules.
Import JsonRules.Rollout.
Local Open Scope Z_scope.

Abbreviation text_map := (list (string * string)).

Fixpoint text_lookup (k : string) (m : text_map) : option string :=
  match m with
  | [] => None
  | (k', v) :: m' => if bool_decide (k = k') then Some v else text_lookup k m'
  end.

Definition _SIGNAL_UNAVAILABLE_AUDIT : text_map :=
  [("lists:unavailable", "Signal Entity lists was unavailable");
   ("graph:unavailable", "Signal Graph risk was unavailable");
   ("graph:unconfigured", "Signal Graph risk URL unset");
   ("graph:missing", "Signal Graph risk URL unset");
   ("graph:write_failed", "Graph object write failed (evaluate still decided)");
   ("enrichment:unavailable", "Signal Feature enrichment was unavailable");
   ("enrichment:unconfigured", "Signal Feature enrichment URL unset");
   ("ml:unavailable", "Signal ML scoring was unavailable");
   ("ml:unconfigured", "Signal ML scoring URL unset");
   ("ml:disabled", "Signal ML scoring disabled");
   ("opa:unavailable", "Signal Policy (OPA) was unavailable");
   ("opa:unconfigured", "Signal Policy (OPA) URL unset");
   ("calibration:unavailable", "Signal Calibration was unavailable");
   ("calibration:unconfigured", "Signal Calibration URL unset");
   ("location:unavailable", "Signal Location intelligence was unavailable");
   ("location:unconfigured", "Signal Location intelligence URL unset");
   ("redis:tag_merge_unavailable", "Signal Redis tag merge was unavailable");
   ("redis:tenant_flags_unavailable", "Signal Redis tenant flags was unavailable");
   ("redis:entity_tags_unavailable", "Signal Redis entity tags was unavailable");
   ("consortium:unavailable", "Signal Consortium cross-tenant signal was unavailable");
   ("async_osint:unavailable", "Signal Async OSINT cache was unavailable");
   ("async_enrich:stale", "Async OSINT cache exceeded lag budget (stale)")].

(** Hop name to the settings attribute of its URL and its tag. *)
Definition EVALUATE_HOP_UNCONFIGURED : list (string * (string * string)) :=
  [("graph", ("graph_service_url", "graph:unconfigured"));
   ("features", ("feature_service_url", "enrichment:unconfigured"));
   ("ml", ("ml_scoring_url", "ml:unconfigured"));
   ("opa", ("opa_url", "opa:unconfigured"));
   ("location", ("location_service_url", "location:unconfigured"));
   ("calibration", ("calibration_service_url", "calibration:unconfigured"))].

(** The caller's list is extended in place: the first component. *)
Definition tag_unconfigured (degrade_tags : list string) (url tag : string) : list string * bool :=
  if nonempty (strip url) then (degrade_tags, false)
  else (if mem tag degrade_tags then degrade_tags else degrade_tags ++ [tag], true).

Fixpoint hop_lookup (hop : string) (m : list (string * (string * string))) : option (string * string) :=
  match m with
  | [] => None
  | (h, at_) :: m' => if bool_decide (hop = h) then Some at_ else hop_lookup hop m'
  end.

Definition tag_hop_unconfigured (settings : string -> string) (degrade_tags : list string)
    (hop : string) (url : option string) : result (list string * bool) :=
  match hop_lookup hop EVALUATE_HOP_UNCONFIGURED with
  | None => Err KeyError
  | Some (attr, tag) =>
      Ok (tag_unconfigured degrade_tags (match url with Some u => u | None => settings attr end) tag)
  end.

Definition optional_score (data : pyval) (key : string) : result (option float) :=
  match data with
  | PDict d =>
      match get d key PNone with
      | PNone => Ok None
      | v => match py_float v with
             | Ok f => Ok (Some f)
             | Err e => if is_type_or_value_error e then Ok None else Err e
             end
      end
  | _ => Ok None
  end.

Definition unscored (reason : string) : option float * dict := (None, [("unscored_reason", PStr reason)]).

Definition parse_ml_score_payload (data : pyval) : result (option float * dict) :=
  match data with
  | PDict d =>
      if is_false (get d "scored" PNone) || eq_str (get d "model_version" PNone) "disabled"
      then Ok (unscored "disabled")
      else
        let! score := optional_score data "score" in
        match score with
        | None => Ok (unscored "missing_score")
        | Some s =>
            let factors := match get d "ml_top_factors" PNone with PList l => PList l | _ => PList [] end in
            let summary := match get d "ml_summary" PNone with
                           | PNone => PNone
                           | PStr t => PStr t
                           | v => PStr (str_take 500 (py_str v))
                           end in
            let model := match get d "model" PNone with PStr m => PStr m | _ => PNone end in
            Ok (Some s, [("top_factors", factors); ("summary", summary); ("model", model)])
        end
  | _ => Ok (unscored "missing_score")
  end.

Definition clamp100 (x : float) : float := fclamp (litZ 0) (litZ 100) x.

Definition blend_scores (strategy : string) (rule_score : float) (ml_score : option float) : float :=
  match ml_score with
  | None => clamp100 rule_score
  | Some ml =>
      if bool_decide (strategy = "rules_only") then clamp100 rule_score
      else if bool_decide (strategy = "max") then clamp100 (fmax rule_score ml)
      else clamp100 (SFdiv prec emax (fadd rule_score ml) (litZ 2))
  end.

Definition fallback_tag_map : text_map :=
  [("lists:unavailable", "circuit_list"); ("graph:unavailable", "circuit_graph");
   ("graph:unconfigured", "graph_unconfigured"); ("enrichment:unavailable", "circuit_feature");
   ("enrichment:unconfigured", "feature_unconfigured"); ("ml:unavailable", "circuit_ml");
   ("ml:unconfigured", "ml_unconfigured"); ("ml:disabled", "ml_disabled");
   ("opa:unavailable", "circuit_opa"); ("opa:unconfigured", "opa_unconfigured");
   ("calibration:unavailable", "circuit_calibration");
   ("calibration:unconfigured", "calibration_unconfigured");
   ("location:unconfigured", "location_unconfigured"); ("location:unavailable", "circuit_location");
   ("consortium:unavailable", "circuit_consortium");
   ("redis:tenant_flags_unavailable", "circuit_redis_tenant_flags");
   ("redis:entity_tags_unavailable", "circuit_redis_entity_tags");
   ("redis:tag_merge_unavailable", "circuit_redis_tag_merge");
   ("async_osint:unavailable", "async_osint_redis"); ("async_enrich:stale", "async_enrich_stale");
   ("lists:disabled_by_tenant", "tenant_disable_entity_lists");
   ("graph:disabled_by_tenant", "tenant_disable_graph");
   ("enrichment:disabled_by_tenant", "tenant_disable_feature_service");
   ("ml:disabled_by_tenant", "tenant_disable_ml"); ("opa:disabled_by_tenant", "tenant_disable_opa")].

(** The key of a skipped step that carries a reason. *)
Definition step_key (tr : dict) : option string :=
  if eq_str (get tr "status" PNone) "skipped" && truthy (get tr "reason" PNone)
  then Some ("step_" +:+ py_str (get tr "step" (PStr "?")) +:+ ":" +:+ py_str (get tr "reason" PNone))
  else None.

Definition fallback_parts (strategy : string) (degrade_tags : list string) (step_trace : list dict)
    : list string :=
  let parts := append_new [] (filter_map (fun t => text_lookup t fallback_tag_map) degrade_tags) in
  let parts := append_new parts (filter_map step_key step_trace) in
  if bool_decide (strategy = "rules_only") then append_new parts ["rules_only_blend"] else parts.

Definition compute_fallback_reason (strategy : string) (degrade_tags : list string)
    (step_trace : list dict) : option string :=
  match fallback_parts strategy degrade_tags step_trace with
  | [] => None
  | parts => Some (sjoin "; " parts)
  end.

Definition signal_availability_notes_from_tags (degrade_tags : list string) : list string :=
  append_new [] (filter_map (fun t => text_lookup t _SIGNAL_UNAVAILABLE_AUDIT) degrade_tags).

(** The keys of [_DEGRADE_SKIP_SCORE]; every value is [5.0]. *)
Definition _DEGRADE_SKIP_SCORE : list string :=
  ["lists:unavailable"; "graph:unavailable"; "graph:stale_skipped"; "enrichment:unavailable";
   "ml:unavailable"; "opa:unavailable"; "calibration:unavailable"; "location:unavailable";
   "redis:tag_merge_unavailable"; "redis:tenant_flags_unavailable"; "redis:entity_tags_unavailable"].
Definition _DEGRADE_SKIP_CAP : float := litZ 15.

Definition skip_score (tag : string) : float := if mem tag _DEGRADE_SKIP_SCORE then litZ 5 else litZ 0.

Definition degrade_skip_score_delta (degrade_tags : list string) : float :=
  fmin (foldl (fun total tag => fadd total (skip_score tag)) (litZ 0) degrade_tags) _DEGRADE_SKIP_CAP.

Definition decision_runtime_status (degrade_tags notes : list string) : string :=
  match notes with
  | _ :: _ => "Degraded"
  | [] => if mem "load_shedding:active" degrade_tags then "Degraded" else "Healthy"
  end.

(** * Theorems *)

(** The blended score is always between 0 and 100, for every strategy,
    rule score and model score, including infinities and NaN. *)
Theorem blend_scores_range strategy rule ml :
  fleb (litZ 0) (blend_scores strategy rule ml) = true
  /\ fleb (blend_scores strategy rule ml) (litZ 100) = true.
Proof. unfold blend_scores. destruct ml; [cases_if|]; by apply fclamp_range. Qed.

Lemma fmin_mono hi a b : fleb a b = true -> is_nan hi = false -> fleb (fmin hi a) (fmin hi b) = true.
Proof.
  intros Hab Hh. destruct (fleb_not_nan _ _ Hab) as [Ha Hb]. unfold fmin.
  destruct (fltb a hi) eqn:Ea, (fltb b hi) eqn:Eb; auto using fltb_fleb, fleb_refl.
  by rewrite (fltb_mono_l a b hi) in Eb.
Qed.

Lemma fmax_mono lo a b : fleb a b = true -> is_nan lo = false -> fleb (fmax lo a) (fmax lo b) = true.
Proof.
  intros Hab Hl. destruct (fleb_not_nan _ _ Hab) as [Ha Hb]. unfold fmax.
  destruct (fltb lo a) eqn:Ea, (fltb lo b) eqn:Eb; auto using fltb_fleb, fleb_refl.
  rewrite fltb_not_fleb in Eb by done. apply negb_false_iff in Eb.
  by eapply fleb_trans.
Qed.

Lemma clamp100_mono a b : fleb a b = true -> fleb (clamp100 a) (clamp100 b) = true.
Proof. intros H. unfold clamp100, fclamp. apply fmax_mono; [apply fmin_mono|]; done. Qed.

(** The severity of a decision. *)
Definition severity (d : string) : Z :=
  if bool_decide (d = "deny") then 2 else if bool_decide (d = "review") then 1 else 0.

Lemma decision_mono s a b :
  fleb a b = true -> severity (decision_from_rule_score s a) <= severity (decision_from_rule_score s b).
Proof.
  intros H. unfold decision_from_rule_score.
  destruct (fleb (deny_threshold s) a) eqn:Ed.
  - by rewrite (fleb_trans _ _ _ Ed H).
  - destruct (fleb (review_threshold s) a) eqn:Er.
    + rewrite (fleb_trans _ _ _ Er H). cases_if; vm_compute; congruence.
    + cases_if; vm_compute; congruence.
Qed.

(** A higher rule score never softens the decision: under the rules-only
    and the maximum blending strategies, and when there is no model score, the
    decision drawn from the blended score is monotone in the rule score
    (allow, then review, then deny), whatever the two thresholds are. *)
Theorem decision_monotone s strategy a b ml :
  fleb a b = true ->
  ml = None \/ strategy = "rules_only" \/ strategy = "max" /\ (exists m, ml = Some m /\ is_nan m = false) ->
  severity (decision_from_rule_score s (blend_scores strategy a ml))
  <= severity (decision_from_rule_score s (blend_scores strategy b ml)).
Proof.
  intros Hab Hm. apply decision_mono.
  assert (Hc := clamp100_mono a b Hab).
  destruct Hm as [->|[->|[-> (m & -> & Hn)]]]; [done| |].
  - destruct ml; simpl; done.
  - simpl. apply clamp100_mono.
    unfold fmax. destruct (fleb_not_nan _ _ Hab) as [Ha Hb].
    destruct (fltb a m) eqn:Ea, (fltb b m) eqn:Eb; auto using fleb_refl.
    + rewrite fltb_not_fleb in Eb by done. by apply negb_false_iff in Eb.
    + by rewrite (fltb_mono_l a b m) in Eb.
Qed.

Lemma decision_monotone_witness :
  severity (decision_from_rule_score (Thresholds (litZ 80) (litZ 50)) (blend_scores "max" (litZ 40) (Some (litZ 45))))
  <= severity (decision_from_rule_score (Thresholds (litZ 80) (litZ 50)) (blend_scores "max" (litZ 90) (Some (litZ 45)))).
Proof.
  refine (decision_monotone (Thresholds (litZ 80) (litZ 50)) "max" (litZ 40) (litZ 90) (Some (litZ 45)) _ _).
  - vm_compute. reflexivity.
  - right. right. split; [reflexivity|]. exists (litZ 45). split; reflexivity.
Defined.

Lemma skip_total_nonneg tags acc :
  nonneg acc = true -> nonneg (foldl (fun total tag => fadd total (skip_score tag)) acc tags) = true.
Proof.
  revert acc. induction tags as [|t tags IH]; intros acc H; simpl; [done|]. apply IH.
  apply fadd_nonneg; [done|]. unfold skip_score. by destruct (mem t _DEGRADE_SKIP_SCORE).
Qed.

Lemma degrade_range tags :
  fleb (litZ 0) (degrade_skip_score_delta tags) = true
  /\ fleb (degrade_skip_score_delta tags) _DEGRADE_SKIP_CAP = true.
Proof.
  unfold degrade_skip_score_delta. set (total := foldl _ _ _).
  assert (H : nonneg total = true) by by apply skip_total_nonneg.
  unfold fmin. destruct (fltb _DEGRADE_SKIP_CAP total) eqn:E; [done|].
  split; [by apply nonneg_ge0|]. apply nonneg_not_nan in H.
  rewrite fltb_not_fleb in E by done. by apply negb_false_iff in E.
Qed.

(** Unavailable services alone never push a transaction to review: the
    bump for skipped hops lies between 0 and 15 for every list of degradation
    tags, so with a review threshold above 15 and no other signal the decision
    stays allow. *)
Theorem degraded_hops_alone_allow s strategy tags :
  fltb (litZ 15) s.(review_threshold) = true -> fltb (litZ 15) s.(deny_threshold) = true ->
  fleb (litZ 0) (degrade_skip_score_delta tags) = true
  /\ fleb (degrade_skip_score_delta tags) (litZ 15) = true
  /\ decision_from_rule_score s (blend_scores strategy (degrade_skip_score_delta tags) None) = "allow".
Proof.
  intros Hr Hd. destruct (degrade_range tags) as [H0 H15]. split; [done|]. split; [done|].
  assert (Hc : fleb (clamp100 (degrade_skip_score_delta tags)) (litZ 15) = true).
  { eapply fleb_trans; [apply (clamp100_mono _ (litZ 15)); exact H15|]. vm_compute. reflexivity. }
  assert (Hno : forall t, fltb (litZ 15) t = true -> fleb t (clamp100 (degrade_skip_score_delta tags)) = false).
  { intros t Ht. destruct (fleb_not_nan _ _ Hc) as [Hx _].
    destruct (fleb_not_nan _ _ (fltb_fleb _ _ Ht)) as [_ Hn].
    destruct (fleb t (clamp100 _)) eqn:E; [|done].
    pose proof (fleb_trans _ _ _ E Hc) as H. rewrite fltb_not_fleb in Ht by done. by rewrite H in Ht. }
  simpl. unfold decision_from_rule_score. by rewrite !Hno.
Qed.

Lemma degraded_hops_alone_allow_witness :
  decision_from_rule_score (Thresholds (litZ 80) (litZ 50))
    (blend_scores "average" (degrade_skip_score_delta
       ["ml:unavailable"; "graph:unavailable"; "opa:unavailable"; "lists:unavailable"]) None) = "allow".
Proof.
  refine (proj2 (proj2 (degraded_hops_alone_allow (Thresholds (litZ 80) (litZ 50)) "average"
    ["ml:unavailable"; "graph:unavailable"; "opa:unavailable"; "lists:unavailable"] _ _)));
    vm_compute; reflexivity.
Defined.

(** A missing model score is unscored and zero is a score: a payload is
    scored exactly when it is an object, not marked disabled, whose ["score"]
    is present, not null and converts to a number; the score returned is that
    number, and an unscored payload always says why. *)
Theorem ml_payload_scored_iff data f :
  (exists meta, parse_ml_score_payload data = Ok (Some f, meta)) <->
  exists d v, data = PDict d /\ get d "scored" PNone <> PBool false
    /\ get d "model_version" PNone <> PStr "disabled"
    /\ get d "score" PNone = v /\ v <> PNone /\ py_float v = Ok f.
Proof.
  unfold parse_ml_score_payload, optional_score. split.
  - intros [meta H]. destruct data as [| | | | | |d]; try discriminate.
    destruct (is_false (get d "scored" PNone)) eqn:Es; [discriminate|].
    destruct (eq_str (get d "model_version" PNone) "disabled") eqn:Em; [discriminate|].
    cbn [orb] in H. exists d, (get d "score" PNone). split; [done|].
    split; [intros E; by rewrite E in Es|].
    split; [intros E; rewrite E in Em; discriminate|]. split; [done|].
    destruct (get d "score" PNone) as [|b|n|x|s|l|m] eqn:Ev; try discriminate;
      (split; [done|]).
    all: match type of H with context [py_float ?x] => destruct (py_float x) as [g|err] end;
      [|destruct (is_type_or_value_error err)]; cbn [rbind] in H; try discriminate; congruence.
  - intros (d & v & -> & Hs & Hm & Hv & Hn & Hf).
    assert (Es : is_false (get d "scored" PNone) = false).
    { destruct (get d "scored" PNone) as [|[]| | | | |]; done. }
    assert (Em : eq_str (get d "model_version" PNone) "disabled" = false).
    { destruct (get d "model_version" PNone) as [| | | |s| |]; try done. simpl.
      apply bool_decide_eq_false. congruence. }
    rewrite Es, Em. cbn [orb]. rewrite Hv.
    destruct v; try done; cbn match; rewrite Hf; simpl; eauto.
Qed.

(** The fallback reason lists each cause once, in the order it was first
    seen: the parts have no duplicates, hold every mapped degradation tag and
    every skipped step with a reason, and the field is absent exactly when
    there is none. *)
Theorem fallback_reason_parts strategy tags trace :
  NoDup (fallback_parts strategy tags trace)
  /\ (forall p, p ∈ fallback_parts strategy tags trace <->
        (exists t, t ∈ tags /\ text_lookup t fallback_tag_map = Some p)
        \/ (exists tr, tr ∈ trace /\ step_key tr = Some p)
        \/ strategy = "rules_only" /\ p = "rules_only_blend")
  /\ (compute_fallback_reason strategy tags trace = None <-> fallback_parts strategy tags trace = []).
Proof.
  split; [|split].
  - unfold fallback_parts. case_bool_decide; repeat apply append_new_NoDup; constructor.
  - intros p. unfold fallback_parts. case_bool_decide as Hs; rewrite ?append_new_elem, !filter_map_elem;
      rewrite ?list_elem_of_singleton; rewrite elem_of_nil; naive_solver.
  - unfold compute_fallback_reason. destruct (fallback_parts _ _ _); split; done.
Qed.
