(* ===== verification/Enforcement.v ===== *)
(** Enforcement delivery: [decision_api/enforcement.py].

    A decision becomes an enforcement verb, advisory tokens with idempotent
    action ids, and (when a webhook is configured) up to three signed POSTs, each
    recorded in an append-only journal that the delivery query reads back.  The
    HTTP client's replies, the clock text and the settings are inputs; the
    journal is the list of its non-blank lines ([None]: a line that is not JSON). *)

From Stdlib Require Import ZArith Lia Ascii String Bool.
From stdpp Require Import base option list sorting strings gmap.
From S2P Require Import Prelude PyFloat PyValue Sha256.
Local Open Scope Z_scope.

Definition ENFORCEMENT_JOURNAL_SCHEMA : string := "tarka.enforcement_delivery/v1".
Definition ENFORCEMENT_RETRY_ATTEMPTS : Z := 3.
Definition ENFORCEMENT_SCHEMA : string := "tarka.enforcement/v1".
Definition ACTION_ID_SCHEME : string := "tarka.action_id/v1".

Definition _STEP_UP_ACTIONS : list string :=
  ["step_up_mfa"; "step_up_attestation"; "step_up_auth"; "challenge"; "step_up"; "step-up";
   "step-up-mfa"; "step-up-attestation"].

(** * Actions *)

Definition is_step_up_recommended (recommended_action : option string) : bool :=
  let rec := replace_char "-" "_" (replace_char " " "_" (lower (strip (opt_str recommended_action)))) in
  nonempty rec
  && (mem rec _STEP_UP_ACTIONS || startswith rec "step_up" || startswith rec "challenge").

Definition suggested_actions (decision : string) (recommended_action : option string) : list string :=
  let d := lower (strip decision) in
  let rec := lower (strip (opt_str recommended_action)) in
  (if mem d ["deny"; "block"] then ["deny"] else [])
  ++ (if mem d ["review"; "flag"] then [if bool_decide (d = "review") then "review" else "flag"] else [])
  ++ (if contains "payout" rec || contains "hold" rec then ["hold_payout"] else [])
  ++ (if contains "promo" rec then ["deny_promo"] else [])
  ++ (if contains "courier" rec then ["suspend_courier"] else [])
  ++ (if is_step_up_recommended recommended_action then ["step_up"] else []).

Definition resolve_enforcement_action (decision : string) (recommended_action : option string) : string :=
  if bool_decide (lower (strip decision) = "deny") then "block"
  else if is_step_up_recommended recommended_action then "step_up"
  else "allow".

Record EnforcementIntent : Type := Intent {
  action : string; in_decision : string; in_recommended : option string }.

Definition resolve_enforcement_intent (decision : string) (recommended_action : option string)
    : EnforcementIntent :=
  Intent (resolve_enforcement_action decision recommended_action) (lower (strip decision))
    recommended_action.

(** ** Idempotent action ids *)

Definition nl : string := String (ascii_of_N 10) EmptyString.

Definition idempotent_action_id (tenant_id trace_id act pack_hash : string) : string :=
  sha256_hex (sjoin nl [ACTION_ID_SCHEME; strip tenant_id; strip trace_id; lower (strip act); strip pack_hash]).

Definition action_ids_for (tokens : list string) (tenant_id trace_id pack_hash : string) : dict :=
  foldl (fun d token => dict_set token (PStr (idempotent_action_id tenant_id trace_id token pack_hash)) d)
    [] tokens.

Definition _delivery_action_id (tokens : list string) (ids : dict) (tenant_id trace_id pack_hash : string)
    : string :=
  match tokens with
  | token :: _ => py_str (get ids token PNone)
  | [] => idempotent_action_id tenant_id trace_id "" pack_hash
  end.

(** ** HMAC-SHA256 signature of the body *)

Definition word_bytes (n : Z) : list Z := map (fun k => Z.land (Z.shiftr n k) 255) [24; 16; 8; 0].

Definition digest_bytes (h : hstate) : list Z :=
  flat_map word_bytes [ha h; hb h; hc h; hd h; he h; hf h; hg h; hh h].

Definition _sign (body secret : string) : string :=
  let k := utf8 secret in
  let k := if Nat.ltb 64 (length k) then digest_bytes (sha256_bytes k) else k in
  let k := k ++ replicate (64 - length k) 0 in
  let inner := digest_bytes (sha256_bytes (map (Z.lxor 54) k ++ utf8 body)) in
  hex_of (sha256_bytes (map (Z.lxor 92) k ++ inner)).

(** RFC 4231, test case 2. *)
Example hmac_rfc4231 :
  _sign "what do ya want for nothing?" "Jefe"
  = "5bdcc146bf60754e6a042426089575c75a003f089d2739839dec58b964ec3843".
Proof. vm_compute. reflexivity. Qed.

(** * Delivery *)

(** What [http.post] gives: a response (whose [status_code] may be missing) or
    an exception with its text. *)
Inductive reply : Type :=
| Status (code : option Z)
| Raised (msg : string).

Definition _retryable (status : option Z) (error : string) : bool :=
  if nonempty error then true
  else match status with
       | None => true
       | Some code => (500 <=? code) || (code =? 429)
       end.

Definition opt_int (o : option Z) : pyval := match o with Some n => PInt n | None => PNone end.

(** The request and the settings it meets.  [ts n] is the clock text of the
    n-th reading ([0] before the loop). *)
Record request : Type := Request {
  rq_trace_id : string; rq_tenant_id : string; rq_entity_id : string; rq_event_type : string;
  rq_decision : string; rq_score : float; rq_tags : list string;
  rq_recommended : option string; rq_challenge : pyval; rq_pack_hash : string }.

Record delivery_env : Type := Env {
  mode : string; hook_url : string; hook_secret : string;
  ts : nat -> string; post : nat -> reply }.

Definition opt_text (o : option string) : pyval := match o with Some s => PStr s | None => PNone end.

Definition hints (rq : request) : list string := suggested_actions rq.(rq_decision) rq.(rq_recommended).
Definition intent (rq : request) : EnforcementIntent :=
  resolve_enforcement_intent rq.(rq_decision) rq.(rq_recommended).
Definition ids (rq : request) : dict :=
  action_ids_for (hints rq) rq.(rq_tenant_id) rq.(rq_trace_id) rq.(rq_pack_hash).
Definition delivery_id (rq : request) : string :=
  _delivery_action_id (hints rq) (ids rq) rq.(rq_tenant_id) rq.(rq_trace_id) rq.(rq_pack_hash).

Definition is_handoff (ev : delivery_env) : bool := bool_decide (ev.(mode) = "handoff").
Definition webhook_event (ev : delivery_env) : string :=
  if is_handoff ev then "decision.enforced" else "decision.emitted".

Definition payload_hints (it : EnforcementIntent) : list string :=
  suggested_actions it.(in_decision) it.(in_recommended).

Definition _build_payload (ev : delivery_env) (rq : request) (it : EnforcementIntent) : dict :=
  let hs := payload_hints it in
  let tids := action_ids_for hs rq.(rq_tenant_id) rq.(rq_trace_id) rq.(rq_pack_hash) in
  let did := _delivery_action_id hs tids rq.(rq_tenant_id) rq.(rq_trace_id) rq.(rq_pack_hash) in
  [("schema_id", PStr ENFORCEMENT_SCHEMA);
   ("enforcement_action", PStr it.(action));
   ("trace_id", PStr rq.(rq_trace_id));
   ("tenant_id", PStr rq.(rq_tenant_id));
   ("entity_id", PStr rq.(rq_entity_id));
   ("event_type", PStr rq.(rq_event_type));
   ("decision", PStr it.(in_decision));
   ("recommended_action", opt_text it.(in_recommended));
   ("score", PFloat rq.(rq_score));
   ("tags", str_list rq.(rq_tags));
   ("challenge_metadata", PDict (as_dict rq.(rq_challenge)));
   ("suggested_actions", str_list hs);
   ("action_id", PStr did);
   ("idempotency_key", PStr did);
   ("action_ids", PDict tids);
   ("enforcement_mode", PStr ev.(mode));
   ("authority", PBool (is_handoff ev));
   ("webhook_event", PStr (webhook_event ev))].

Definition initial_summary (ev : delivery_env) (rq : request) : dict :=
  [("enforcement_action", PStr (intent rq).(action));
   ("enforcement_mode", PStr ev.(mode));
   ("authority", PBool (is_handoff ev));
   ("suggested_actions", str_list (hints rq));
   ("action_id", PStr (delivery_id rq));
   ("idempotency_key", PStr (delivery_id rq));
   ("action_ids", PDict (ids rq));
   ("webhook", PNone);
   ("webhook_event", PStr (webhook_event ev))].

Definition base_journal (ev : delivery_env) (rq : request) : dict :=
  [("schema_id", PStr ENFORCEMENT_JOURNAL_SCHEMA);
   ("ts", PStr (ev.(ts) 0%nat));
   ("trace_id", PStr rq.(rq_trace_id));
   ("tenant_id", PStr rq.(rq_tenant_id));
   ("entity_id", PStr rq.(rq_entity_id));
   ("enforcement_action", PStr (intent rq).(action));
   ("decision", PStr (intent rq).(in_decision));
   ("recommended_action", opt_text (intent rq).(in_recommended));
   ("enforcement_mode", PStr ev.(mode));
   ("webhook_event", PStr (webhook_event ev));
   ("action_id", PStr (delivery_id rq));
   ("idempotency_key", PStr (delivery_id rq))].

(** [{**d, **extra}]. *)
Definition with_fields (d extra : dict) : dict := dict_update d extra.

Definition attempt_journal (ev : delivery_env) (rq : request) (attempt : nat) : dict :=
  with_fields (base_journal ev rq)
    [("ts", PStr (ev.(ts) attempt)); ("attempt_count", PInt (Z.of_nat attempt))].

Definition journal_status (st : string) (summary : dict) : dict :=
  dict_set "journal" (PDict [("status", PStr st)]) summary.

Definition headers (ev : delivery_env) (rq : request) : dict * string :=
  let raw := json_dumps (DumpOpts true false true) (PDict (_build_payload ev rq (intent rq))) in
  let h := [("content-type", PStr "application/json");
            ("x-tarka-enforcement-event", PStr (intent rq).(action))] in
  (if nonempty ev.(hook_secret) then dict_set "x-tarka-signature" (PStr (_sign raw ev.(hook_secret))) h
   else h, raw).

Record delivery_outcome : Type := Outcome { o_rows : list dict; o_summary : dict; o_posts : list (dict * string) }.

(** What one reply tells: the response's status, the error text, and success. *)
Definition read_reply (r : reply) : option Z * string * bool :=
  match r with
  | Status code => (code, EmptyString, match code with Some c => (200 <=? c) && (c <? 300) | None => false end)
  | Raised msg => (None, str_take 200 msg, false)
  end.

(** The [for attempt in range(1, 4)] loop from [attempt], [fuel] attempts left. *)
Fixpoint attempts (ev : delivery_env) (rq : request) (summary : dict) (attempt fuel : nat) : delivery_outcome :=
  match fuel with
  | O => Outcome [] summary []
  | S fuel' =>
      let '(last_status, last_error, ok) := read_reply (ev.(post) attempt) in
      let aj := attempt_journal ev rq attempt in
      let sent := headers ev rq in
      if ok then
        Outcome [with_fields aj [("status", PStr "acked"); ("http_status", opt_int last_status)]]
          (journal_status "acked"
             (dict_set "webhook" (PDict [("dispatched", PBool true); ("status_code", opt_int last_status);
                                         ("ok", PBool true)]) summary)) [sent]
      else if (Z.of_nat attempt <? ENFORCEMENT_RETRY_ATTEMPTS) && _retryable last_status last_error then
        let row := dict_set "status" (PStr "retrying") aj in
        let row := if nonempty last_error then dict_set "error" (PStr last_error) row
                   else dict_set "http_status" (opt_int last_status) row in
        let rest := attempts ev rq summary (S attempt) fuel' in
        Outcome (row :: rest.(o_rows)) rest.(o_summary) (sent :: rest.(o_posts))
      else
        let wh := [("dispatched", PBool true); ("ok", PBool false)] in
        let wh := match last_status with Some c => dict_set "status_code" (PInt c) wh | None => wh end in
        let wh := if nonempty last_error then dict_set "error" (PStr last_error) wh else wh in
        let summary := dict_set "webhook" (PDict wh) summary in
        if _retryable last_status last_error then
          let last_err := str_or last_error
            ("http_" +:+ match last_status with Some c => Z_to_string c | None => "None" end) in
          Outcome [with_fields aj [("status", PStr "dead_lettered"); ("last_error", PStr last_err);
                                   ("http_status", opt_int last_status)]]
            (journal_status "dead_lettered" summary) [sent]
        else if nonempty last_error then
          Outcome [with_fields aj [("status", PStr "error"); ("error", PStr last_error)]]
            (journal_status "error" summary) [sent]
        else
          Outcome [with_fields aj [("status", PStr "non_2xx"); ("http_status", opt_int last_status)]]
            (journal_status "non_2xx" summary) [sent]
  end.

(** The journal rows appended, the returned summary and the requests posted. *)
Definition apply_enforcement_adapters (ev : delivery_env) (rq : request) : delivery_outcome :=
  let summary := initial_summary ev rq in
  if negb (nonempty ev.(hook_url)) then
    Outcome [with_fields (base_journal ev rq) [("status", PStr "skipped"); ("reason", PStr "webhook_unset")]]
      (journal_status "skipped" summary) []
  else attempts ev rq summary 1 (Z.to_nat ENFORCEMENT_RETRY_ATTEMPTS).

(** * The journal and its queries *)

(** [None]: no such file, or it cannot be read. *)
Abbreviation journal := (option (list (option pyval))).

Definition append_enforcement_journal (writable : bool) (j : journal) (record : dict) : journal :=
  if writable then Some (default [] j ++ [Some (PDict record)]) else j.

Definition enforcement_journal_line_count (j : journal) : Z :=
  match j with Some lines => Z.of_nat (length lines) | None => 0 end.

Definition row_of_line (l : option pyval) : option dict :=
  match l with Some (PDict d) => Some d | _ => None end.

Definition journal_rows (j : journal) : list dict := filter_map row_of_line (default [] j).

Definition read_enforcement_journal (j : journal) (limit : Z) : list dict :=
  let lim := Z.max 1 (Z.min limit 500) in
  match j with
  | None => []
  | Some lines => filter_map row_of_line (drop (length lines - Z.to_nat lim) lines)
  end.

(** [str(row.get(k) or "").strip().lower()]. *)
Definition norm_field (row : dict) (k : string) : string := lower (strip (str_or_empty (get row k PNone))).

(** [int(raw) if raw is not None else 1], failures counting as one attempt. *)
Definition row_attempts (row : dict) : result Z :=
  match get row "attempt_count" PNone with
  | PNone => Ok 1
  | v => try_except (py_int v) is_type_or_value_error 1
  end.

Fixpoint max_attempts (rows : list dict) (acc : Z) : result Z :=
  match rows with
  | [] => Ok acc
  | r :: rows' => let! n := row_attempts r in max_attempts rows' (if acc <? n then n else acc)
  end.

Record logical : Type := Logical {
  lg_action_id : string; lg_attempt_count : Z; lg_status : pyval; lg_trace_id : pyval;
  lg_tenant_id : pyval; lg_last_error : pyval; lg_ts : pyval; lg_reason : pyval }.

Definition logical_enforcement_delivery (j : journal) (action_id : string) : result (option logical) :=
  let key := lower (strip action_id) in
  if negb (nonempty key) then Ok None
  else
    let rows := List.filter (fun r => bool_decide (norm_field r "action_id" = key)
                                      || bool_decide (norm_field r "idempotency_key" = key)) (journal_rows j) in
    match last rows with
    | None => Ok None
    | Some lst =>
        let! n := max_attempts rows 1 in
        Ok (Some (Logical key n (get lst "status" PNone) (get lst "trace_id" PNone)
                    (get lst "tenant_id" PNone)
                    (por (get lst "last_error" PNone) (get lst "error" PNone))
                    (get lst "ts" PNone) (get lst "reason" PNone)))
    end.

Definition map_journal_query_status (status reason : string) : string :=
  let raw := lower (strip status) in
  let why := lower (strip reason) in
  if bool_decide (raw = "skipped") || bool_decide (why = "webhook_unset") then "not_configured"
  else if mem raw ["retrying"; "dead_lettered"] then raw
  else if bool_decide (raw = "acked") then "emitted"
  else str_or raw "emitted".

Definition _action_ids_for_query (j : journal) (trace_id tenant_id : string) (action_id : option string)
    : list string :=
  let tid := strip trace_id in
  let ten := strip tenant_id in
  let wanted := lower (strip (opt_str action_id)) in
  if negb (nonempty tid) || negb (nonempty ten) then []
  else
    append_new [] (filter_map (fun row =>
      let aid := lower (strip (py_str (por (get row "action_id" PNone)
                                         (por (get row "idempotency_key" PNone) (PStr ""))))) in
      if bool_decide (str_or_empty (get row "trace_id" PNone) = tid)
         && bool_decide (str_or_empty (get row "tenant_id" PNone) = ten)
         && nonempty aid && (negb (nonempty wanted) || bool_decide (aid = wanted))
      then Some aid else None) (journal_rows j)).

Record query_row : Type := QueryRow {
  q_trace_id : pyval; q_tenant_id : pyval; q_action_id : string; q_attempt_count : Z;
  q_last_status : string; q_last_error : option string; q_acked_at : option string }.

Definition _logical_to_query_row (l : logical) : query_row :=
  let raw := lower (strip (str_or_empty l.(lg_status))) in
  let reason := lower (strip (str_or_empty l.(lg_reason))) in
  let t := strip (str_or_empty l.(lg_ts)) in
  QueryRow l.(lg_trace_id) l.(lg_tenant_id) l.(lg_action_id)
    (if l.(lg_attempt_count) =? 0 then 1 else l.(lg_attempt_count))
    (map_journal_query_status raw reason)
    (if truthy l.(lg_last_error) then Some (strip (py_str l.(lg_last_error))) else None)
    (if bool_decide (raw = "acked") && nonempty t then Some t else None).

Fixpoint collect_rows (j : journal) (tid ten want_status : string) (aids : list string)
    : result (list query_row) :=
  match aids with
  | [] => Ok []
  | aid :: aids' =>
      let! lg := logical_enforcement_delivery j aid in
      let! rest := collect_rows j tid ten want_status aids' in
      Ok (match lg with
          | None => rest
          | Some l =>
              let row := _logical_to_query_row l in
              if bool_decide (str_or_empty l.(lg_tenant_id) = ten)
                 && bool_decide (str_or_empty l.(lg_trace_id) = tid)
                 && (negb (nonempty want_status) || bool_decide (row.(q_last_status) = want_status))
              then row :: rest else rest
          end)
  end.

Definition query_enforcement_deliveries (j : journal) (trace_id tenant_id : string)
    (action_id status : option string) : result (list query_row) :=
  let tid := strip trace_id in
  let ten := strip tenant_id in
  if negb (nonempty tid) || negb (nonempty ten) then Ok []
  else collect_rows j tid ten (lower (strip (opt_str status)))
         (_action_ids_for_query j tid ten action_id).

(** * Theorems *)

Definition is_2xx (r : reply) : bool :=
  match r with Status (Some c) => (200 <=? c) && (c <? 300) | _ => false end.

(** Every journal row of a delivery carries its identity. *)
Definition row_for (rq : request) (n : nat) (st : string) (r : dict) : Prop :=
  get r "action_id" PNone = PStr (delivery_id rq)
  /\ get r "idempotency_key" PNone = PStr (delivery_id rq)
  /\ get r "trace_id" PNone = PStr rq.(rq_trace_id)
  /\ get r "tenant_id" PNone = PStr rq.(rq_tenant_id)
  /\ get r "attempt_count" PNone = PInt (Z.of_nat n)
  /\ get r "status" PNone = PStr st
  /\ get r "reason" PNone = PNone.

(** The rows of a run of attempts: all but the last are retries. *)
Inductive rows_from (rq : request) : nat -> string -> list dict -> Prop :=
| rows_last n st r : row_for rq n st r -> rows_from rq n st [r]
| rows_retry n st r rs :
    row_for rq n "retrying" r -> rows_from rq (S n) st rs -> rows_from rq n st (r :: rs).

Lemma rows_from_len rq n st rs : rows_from rq n st rs -> (1 <= length rs)%nat.
Proof. destruct 1; simpl; lia. Qed.

Lemma retry_error_unreachable status error : nonempty error = true -> _retryable status error = true.
Proof. unfold _retryable. by intros ->. Qed.

Definition terminal (st : string) : Prop := st ∈ ["acked"; "dead_lettered"; "non_2xx"].

Lemma attempts_spec ev rq summary attempt fuel :
  (1 <= fuel)%nat -> (attempt + fuel = 4)%nat ->
  let o := attempts ev rq summary attempt fuel in
  exists st,
    rows_from rq attempt st o.(o_rows)
    /\ terminal st
    /\ (length o.(o_rows) <= fuel)%nat
    /\ o.(o_posts) = replicate (length o.(o_rows)) (headers ev rq)
    /\ get o.(o_summary) "journal" PNone = PDict [("status", PStr st)]
    /\ (st = "acked" <-> is_2xx (ev.(post) (attempt + length o.(o_rows) - 1)%nat) = true).
Proof.
  revert attempt. induction fuel as [|fuel IH]; intros attempt Hf Ha; [lia|].
  cbn [attempts]. destruct (read_reply (post ev attempt)) as [[ls le] ok] eqn:Er.
  assert (Hok : ok = is_2xx (post ev attempt)).
  { unfold read_reply in Er. by destruct (post ev attempt) as [[c|]|m]; simplify_eq. }
  destruct ok.
  { exists "acked". cbn [o_rows o_summary o_posts length]. replace (attempt + 1 - 1)%nat with attempt by lia.
    split; [apply rows_last; repeat split; reflexivity|]. split; [left|]. split; [lia|].
    split; [done|]. split; [apply get_set_eq|]. done. }
  destruct (Z.ltb_spec (Z.of_nat attempt) ENFORCEMENT_RETRY_ATTEMPTS) as [Hlt|Hge];
    unfold ENFORCEMENT_RETRY_ATTEMPTS in *.
  - destruct (_retryable ls le) eqn:Ery; cbn [andb].
    + destruct (IH (S attempt) ltac:(lia) ltac:(lia)) as (st & Hr & Ht & Hl & Hp & Hj & Hs).
      exists st. cbn [o_rows o_summary o_posts length]. split.
      { apply rows_retry; [|exact Hr]. destruct (nonempty le); repeat split; reflexivity. }
      split; [done|]. split; [lia|]. split; [by rewrite Hp|]. split; [done|].
      rewrite Hs. by replace (attempt + S (length (o_rows (attempts ev rq summary (S attempt) fuel))) - 1)%nat
        with (S attempt + length (o_rows (attempts ev rq summary (S attempt) fuel)) - 1)%nat by lia.
    + destruct (nonempty le) eqn:Ele; [by rewrite retry_error_unreachable in Ery|].
      exists "non_2xx". cbn [o_rows o_summary o_posts length]. replace (attempt + 1 - 1)%nat with attempt by lia.
      split; [apply rows_last; repeat split; reflexivity|]. split; [right; right; left|]. split; [lia|].
      split; [done|]. split; [apply get_set_eq|]. rewrite <- Hok. done.
  - cbn [andb]. destruct (_retryable ls le) eqn:Ery.
    + exists "dead_lettered". cbn [o_rows o_summary o_posts length]. replace (attempt + 1 - 1)%nat with attempt by lia.
      split; [apply rows_last; repeat split; reflexivity|]. split; [right; left|]. split; [lia|].
      split; [done|]. split; [apply get_set_eq|]. rewrite <- Hok. done.
    + destruct (nonempty le) eqn:Ele; [by rewrite retry_error_unreachable in Ery|].
      exists "non_2xx". cbn [o_rows o_summary o_posts length]. replace (attempt + 1 - 1)%nat with attempt by lia.
      split; [apply rows_last; repeat split; reflexivity|]. split; [right; right; left|]. split; [lia|].
      split; [done|]. split; [apply get_set_eq|]. rewrite <- Hok. done.
Qed.

(** C38: with a hook configured, delivery always ends, after one to three
    identical POSTs, with one row per POST handed to the fail-soft journal,
    numbered from 1: every row but the last is a retry,
    the last is acknowledged, dead-lettered or a refusal, the summary reports
    that same status, and it is acknowledged exactly when the last reply was a
    2xx.  The journal's fourth status, error, is unreachable. *)
Theorem delivery_terminates ev rq :
  nonempty ev.(hook_url) = true ->
  let o := apply_enforcement_adapters ev rq in
  exists st,
    rows_from rq 1 st o.(o_rows) /\ terminal st
    /\ (1 <= length o.(o_rows) <= 3)%nat
    /\ o.(o_posts) = replicate (length o.(o_rows)) (headers ev rq)
    /\ get o.(o_summary) "journal" PNone = PDict [("status", PStr st)]
    /\ (st = "acked" <-> is_2xx (ev.(post) (length o.(o_rows))) = true).
Proof.
  intros Hu. unfold apply_enforcement_adapters. rewrite Hu. cbn [negb].
  destruct (attempts_spec ev rq (initial_summary ev rq) 1 3 ltac:(lia) ltac:(lia))
    as (st & Hr & Ht & Hl & Hp & Hj & Hs).
  change (Z.to_nat ENFORCEMENT_RETRY_ATTEMPTS) with 3%nat. exists st. split; [done|]. split; [done|].
  split; [|split; [done|split; [done|]]].
  - split; [|done]. by eapply rows_from_len.
  - rewrite Hs. by replace (1 + length (o_rows (attempts ev rq (initial_summary ev rq) 1 3)) - 1)%nat
      with (length (o_rows (attempts ev rq (initial_summary ev rq) 1 3))) by lia.
Qed.

Definition demo_rq : request :=
  Request "trace-1" "acme" "user-9" "payment" "deny" (litZ 91) ["big"] None PNone "".
Definition demo_ev : delivery_env :=
  Env "emit_only" "https://hook" "" (fun _ => "2026-01-01T00:00:00Z")
    (fun n => match n with 1%nat => Status (Some 503) | _ => Status (Some 200) end).

Lemma delivery_terminates_witness :
  exists st, rows_from demo_rq 1 st (o_rows (apply_enforcement_adapters demo_ev demo_rq)) /\ terminal st.
Proof.
  destruct (delivery_terminates demo_ev demo_rq eq_refl) as (st & H1 & H2 & _). exists st. split; assumption.
Defined.

(** One identity per delivery: the webhook payload carries the same action
    id and idempotency key as the journal rows and the returned summary, and
    every retry posts the same bytes. *)
Theorem delivery_identity ev rq :
  get (_build_payload ev rq (intent rq)) "action_id" PNone = PStr (delivery_id rq)
  /\ get (_build_payload ev rq (intent rq)) "idempotency_key" PNone = PStr (delivery_id rq)
  /\ get (initial_summary ev rq) "action_id" PNone = PStr (delivery_id rq)
  /\ get (_build_payload ev rq (intent rq)) "suggested_actions" PNone = str_list (hints rq).
Proof.
  assert (H : payload_hints (intent rq) = hints rq).
  { unfold payload_hints, hints, intent, resolve_enforcement_intent, suggested_actions. cbn [in_decision in_recommended].
    by rewrite norm_idem. }
  unfold _build_payload. rewrite H. repeat split; reflexivity.
Qed.

(** The enforcement verb follows the decision: block exactly on a deny (in
    any case or spacing), step-up exactly when a step-up is recommended and the
    decision is not a deny, and allow otherwise; a block always comes with the
    advisory token deny first. *)
Theorem enforcement_verb decision rec :
  (resolve_enforcement_action decision rec = "block" <-> lower (strip decision) = "deny")
  /\ (resolve_enforcement_action decision rec = "step_up" <->
        lower (strip decision) <> "deny" /\ is_step_up_recommended rec = true)
  /\ (resolve_enforcement_action decision rec = "block" ->
        exists rest, suggested_actions decision rec = "deny" :: rest)
  /\ (resolve_enforcement_action decision rec = "step_up" -> "step_up" ∈ suggested_actions decision rec).
Proof.
  unfold resolve_enforcement_action.
  destruct (bool_decide_reflect (lower (strip decision) = "deny")) as [Hd|Hd].
  - split; [done|]. split; [naive_solver|]. split; [|discriminate]. intros _.
    unfold suggested_actions. rewrite Hd. eexists. reflexivity.
  - destruct (is_step_up_recommended rec) eqn:Es; (split; [naive_solver|]); (split; [naive_solver|]);
      (split; [discriminate|]); [|discriminate].
    intros _. unfold suggested_actions. rewrite Es. rewrite !elem_of_app. do 5 right. left.
Qed.

(** A query never reports the webhook's own acknowledgement as the product's. *)
Lemma map_status_not_acked status reason : map_journal_query_status status reason <> "acked".
Proof.
  unfold map_journal_query_status. destruct (_ || _); [done|].
  destruct (mem _ _) eqn:Em.
  - apply mem_spec, list_elem_of_In in Em. simpl in Em. intros E. rewrite E in Em.
    destruct Em as [Em|[Em|[]]]; discriminate.
  - destruct (bool_decide_reflect (lower (strip status) = "acked")) as [|Hn]; [done|].
    unfold str_or. by destruct (nonempty _).
Qed.

Lemma collect_rows_scoped j tid ten want aids out r :
  collect_rows j tid ten want aids = Ok out -> r ∈ out ->
  str_or_empty r.(q_tenant_id) = ten /\ str_or_empty r.(q_trace_id) = tid.
Proof.
  revert out. induction aids as [|aid aids IH]; intros out H Hr; simpl in H.
  - injection H as <-. by apply not_elem_of_nil in Hr.
  - inv_ok. subst out. destruct a as [l|]; [|by apply (IH a0)].
    destruct (_ && _ && _) eqn:E in Hr; [|by apply (IH a0)].
    apply elem_of_cons in Hr as [->|Hr]; [|by apply (IH a0)].
    apply andb_prop in E as [[E1%bool_decide_eq_true E2%bool_decide_eq_true]%andb_prop _]. done.
Qed.

Lemma query_rows_scoped j trace tenant aid st out r :
  query_enforcement_deliveries j trace tenant aid st = Ok out -> r ∈ out ->
  str_or_empty r.(q_tenant_id) = strip tenant /\ str_or_empty r.(q_trace_id) = strip trace
  /\ nonempty (strip tenant) = true /\ nonempty (strip trace) = true.
Proof.
  unfold query_enforcement_deliveries. intros H Hr.
  destruct (nonempty (strip trace)) eqn:Et, (nonempty (strip tenant)) eqn:En; simpl in H;
    try (injection H as <-; by apply not_elem_of_nil in Hr).
  by destruct (collect_rows_scoped _ _ _ _ _ _ _ H Hr).
Qed.

Lemma collect_rows_status j tid ten want aids out r :
  collect_rows j tid ten want aids = Ok out -> r ∈ out -> r.(q_last_status) <> "acked".
Proof.
  revert out. induction aids as [|aid aids IH]; intros out H Hr; simpl in H.
  - injection H as <-. by apply not_elem_of_nil in Hr.
  - inv_ok. subst out. destruct a as [l|]; [|by apply (IH a0)].
    destruct (_ && _ && _) in Hr; [|by apply (IH a0)].
    apply elem_of_cons in Hr as [->|Hr]; [apply map_status_not_acked|by apply (IH a0)].
Qed.

Lemma query_rows_not_acked j trace tenant aid st out r :
  query_enforcement_deliveries j trace tenant aid st = Ok out -> r ∈ out -> r.(q_last_status) <> "acked".
Proof.
  unfold query_enforcement_deliveries. destruct (_ || _).
  - intros [= <-] Hr. by apply not_elem_of_nil in Hr.
  - apply collect_rows_status.
Qed.

(** What delivery promises to its readers: rows of the tenant and trace asked
    for, none of which claims the product's acknowledgement. *)
Class DeliverySource (S : Type) : Type := {
  deliveries : S -> string -> string -> option string -> result (list query_row);
  deliveries_scoped s trace tenant aid out r :
    deliveries s trace tenant aid = Ok out -> r ∈ out ->
    str_or_empty r.(q_tenant_id) = strip tenant /\ str_or_empty r.(q_trace_id) = strip trace
    /\ nonempty (strip tenant) = true /\ nonempty (strip trace) = true;
  deliveries_unacked s trace tenant aid out r :
    deliveries s trace tenant aid = Ok out -> r ∈ out -> r.(q_last_status) <> "acked" }.

#[export] Instance journal_source : DeliverySource journal := {|
  deliveries j trace tenant aid := query_enforcement_deliveries j trace tenant aid None;
  deliveries_scoped j trace tenant aid := query_rows_scoped j trace tenant aid None;
  deliveries_unacked j trace tenant aid := query_rows_not_acked j trace tenant aid None |}.

(** Tenant isolation of the delivery query: over any journal, every row
    returned belongs to the tenant and the trace that were asked for, and a
    blank tenant or trace returns nothing. *)
Theorem query_tenant_isolated j trace tenant aid st out r :
  query_enforcement_deliveries j trace tenant aid st = Ok out -> r ∈ out ->
  str_or_empty r.(q_tenant_id) = strip tenant /\ str_or_empty r.(q_trace_id) = strip trace
  /\ nonempty (strip tenant) = true /\ nonempty (strip trace) = true.
Proof. apply query_rows_scoped. Qed.

Definition demo_journal : journal :=
  Some (map (fun r => Some (PDict r)) (o_rows (apply_enforcement_adapters demo_ev demo_rq))).

Lemma query_tenant_isolated_witness :
  exists out r, query_enforcement_deliveries demo_journal "trace-1" "acme" None None = Ok out /\ r ∈ out
    /\ str_or_empty r.(q_tenant_id) = "acme".
Proof.
  destruct (query_enforcement_deliveries demo_journal "trace-1" "acme" None None) as [[|r l]|] eqn:E;
    [vm_compute in E; discriminate| |vm_compute in E; discriminate].
  exists (r :: l), r. split; [reflexivity|]. split; [left|].
  exact (proj1 (query_tenant_isolated demo_journal "trace-1" "acme" None None (r :: l) r E
           (list_elem_of_here r l))).
Defined.

(** ** Deliver, then query *)

Lemma action_ids_get tokens ten tid ph d t :
  (t ∈ tokens \/ get d t PNone = PStr (idempotent_action_id ten tid t ph)) ->
  get (foldl (fun d token => dict_set token (PStr (idempotent_action_id ten tid token ph)) d) d tokens) t PNone
  = PStr (idempotent_action_id ten tid t ph).
Proof.
  revert d. induction tokens as [|k tokens IH]; intros d H; simpl.
  - destruct H as [H|H]; [by apply not_elem_of_nil in H|done].
  - apply IH. destruct (decide (t = k)) as [->|Hne]; [right; apply get_set_eq|].
    destruct H as [H|H]; [|right; by rewrite get_set_ne].
    apply elem_of_cons in H as [H|H]; [done|by left].
Qed.

Lemma delivery_id_hash rq : exists s, delivery_id rq = sha256_hex s.
Proof.
  unfold delivery_id, _delivery_action_id, ids, action_ids_for. destruct (hints rq) as [|t l]; [by eexists|].
  rewrite action_ids_get by (left; left). by eexists.
Qed.

Lemma rows_from_Forall rq n st rs :
  rows_from rq n st rs -> Forall (fun r => exists m st', row_for rq m st' r) rs.
Proof. induction 1; constructor; eauto. Qed.

Lemma rows_from_last rq n st rs :
  rows_from rq n st rs -> exists r, last rs = Some r /\ row_for rq (n + length rs - 1) st r.
Proof.
  induction 1 as [n st r Hr|n st r rs Hr Hrs (lr & Hl & Hf)].
  - exists r. split; [done|]. simpl. by replace (n + 1 - 1)%nat with n by lia.
  - exists lr. split; [by rewrite last_cons, Hl|]. simpl.
    by replace (n + S (length rs) - 1)%nat with (S n + length rs - 1)%nat by lia.
Qed.

Lemma rows_from_max rq n st rs acc :
  rows_from rq n st rs -> acc <= Z.of_nat n -> max_attempts rs acc = Ok (Z.of_nat (n + length rs - 1)).
Proof.
  intros H. revert acc. induction H as [n st r Hr|n st r rs Hr Hrs IH]; intros acc Ha;
    destruct Hr as (_ & _ & _ & _ & Hc & _); cbn [max_attempts]; unfold row_attempts; rewrite Hc; cbn [py_int try_except rbind].
  - simpl. f_equal. destruct (Z.ltb_spec acc (Z.of_nat n)); lia.
  - rewrite IH; [f_equal; simpl; lia|]. destruct (Z.ltb_spec acc (Z.of_nat n)); lia.
Qed.

Lemma journal_rows_written rows : journal_rows (Some (map (fun r => Some (PDict r)) rows)) = rows.
Proof. unfold journal_rows. simpl. induction rows as [|r rows IH]; simpl; [done|]. by f_equal. Qed.

Lemma filter_all {A} (f : A -> bool) l : Forall (fun x => f x = true) l -> List.filter f l = l.
Proof. induction 1 as [|x l Hx _ IH]; simpl; [done|]. by rewrite Hx, IH. Qed.

Lemma append_new_const x (n : nat) : append_new [x] (replicate n x) = [x].
Proof. induction n as [|n IH]; simpl; [done|]. unfold mem. rewrite bool_decide_eq_true_2; [done|left]. Qed.

Lemma filter_map_const {A B} (f : A -> option B) (y : B) l :
  Forall (fun x => f x = Some y) l -> filter_map f l = replicate (length l) y.
Proof. induction 1 as [|x l Hx _ IH]; simpl; [done|]. by rewrite Hx, IH. Qed.

Section written.
Context (rq : request) (st : string) (rows : list dict).
Context (Hrows : rows_from rq 1 st rows).
Let j : journal := Some (map (fun r => Some (PDict r)) rows).

Lemma written_logical :
  logical_enforcement_delivery j (delivery_id rq)
  = Ok (Some (Logical (delivery_id rq) (Z.of_nat (length rows)) (PStr st) (PStr rq.(rq_trace_id))
                (PStr rq.(rq_tenant_id))
                (por (get (default [] (last rows)) "last_error" PNone) (get (default [] (last rows)) "error" PNone))
                (get (default [] (last rows)) "ts" PNone) PNone)).
Proof.
  destruct (delivery_id_hash rq) as [h Hh]. unfold logical_enforcement_delivery, j.
  rewrite Hh, sha256_strip, sha256_lower, sha256_nonempty. cbn [negb].
  rewrite journal_rows_written, filter_all.
  2:{ eapply Forall_impl; [exact (rows_from_Forall _ _ _ _ Hrows)|].
      intros r (m & s' & Ha & _). unfold norm_field. rewrite Ha, str_or_empty_str, Hh, sha256_strip, sha256_lower.
      by rewrite bool_decide_eq_true_2. }
  rewrite (rows_from_max rq 1 st) by (done || lia).
  destruct (rows_from_last _ _ _ _ Hrows) as (r & Hl & (_ & _ & Ht & Hn & _ & Hs & Hr)).
  rewrite Hl. cbn [rbind default]. rewrite Ht, Hn, Hs, Hr. simpl. repeat f_equal. lia.
Qed.

Lemma written_ids :
  strip rq.(rq_trace_id) = rq.(rq_trace_id) -> nonempty rq.(rq_trace_id) = true ->
  strip rq.(rq_tenant_id) = rq.(rq_tenant_id) -> nonempty rq.(rq_tenant_id) = true ->
  _action_ids_for_query j rq.(rq_trace_id) rq.(rq_tenant_id) None = [delivery_id rq].
Proof.
  intros Ht Nt Hn Nn. unfold _action_ids_for_query. rewrite Ht, Hn, Nt, Nn. cbn [negb orb].
  change (lower (strip (opt_str None))) with EmptyString. unfold j. rewrite journal_rows_written.
  rewrite (filter_map_const _ (delivery_id rq)).
  - destruct rows as [|r rs]; [inversion Hrows|]. simpl. apply append_new_const.
  - eapply Forall_impl; [exact (rows_from_Forall _ _ _ _ Hrows)|].
    intros r (m & s' & Ha & _ & Htr & Hte & _). rewrite Ha, Htr, Hte, !str_or_empty_str.
    rewrite !bool_decide_eq_true_2 by done. destruct (delivery_id_hash rq) as [h Hh].
    assert (Hp : forall v, por (PStr (sha256_hex h)) v = PStr (sha256_hex h)).
    { intros v. unfold por. cbn [truthy]. by rewrite sha256_nonempty. }
    rewrite Hh, Hp. cbn [py_str]. by rewrite sha256_strip, sha256_lower, sha256_nonempty.
Qed.

Lemma written_query :
  strip rq.(rq_trace_id) = rq.(rq_trace_id) -> nonempty rq.(rq_trace_id) = true ->
  strip rq.(rq_tenant_id) = rq.(rq_tenant_id) -> nonempty rq.(rq_tenant_id) = true ->
  exists row,
    query_enforcement_deliveries j rq.(rq_trace_id) rq.(rq_tenant_id) None None = Ok [row]
    /\ row.(q_action_id) = delivery_id rq
    /\ row.(q_attempt_count) = Z.of_nat (length rows)
    /\ row.(q_last_status) = map_journal_query_status st "".
Proof.
  intros Ht Nt Hn Nn. unfold query_enforcement_deliveries. rewrite Ht, Hn, Nt, Nn. cbn [negb orb].
  rewrite written_ids by done. cbn [collect_rows].
  rewrite written_logical by done. cbn [rbind lg_tenant_id lg_trace_id].
  rewrite !str_or_empty_str, !bool_decide_eq_true_2 by done.
  change (lower (strip (opt_str None))) with EmptyString. cbn [nonempty negb orb andb].
  eexists _. split; [done|]. unfold _logical_to_query_row. cbn -[map_journal_query_status str_or_empty strip].
  split; [done|]. pose proof (rows_from_len _ _ _ _ Hrows).
  split; [destruct (Z.eqb_spec (Z.of_nat (length rows)) 0); lia|].
  rewrite str_or_empty_str. unfold map_journal_query_status. by rewrite !norm_idem.
Qed.
End written.

Lemma delivery_rows ev rq :
  nonempty ev.(hook_url) = true ->
  exists st, rows_from rq 1 st (o_rows (apply_enforcement_adapters ev rq)) /\ terminal st.
Proof.
  intros Hu. unfold apply_enforcement_adapters. rewrite Hu. cbn [negb].
  destruct (attempts_spec ev rq (initial_summary ev rq) 1 3 ltac:(lia) ltac:(lia)) as (st & Hr & Hte & _).
  by exists st.
Qed.

(** What was delivered can be looked up: after a delivery is journalled,
    querying its tenant and trace returns exactly one logical delivery, under
    the delivery's action id, counting all its attempts, with the terminal
    status translated for the reader (an acknowledged POST reads emitted). *)
Theorem delivery_visible ev rq :
  nonempty ev.(hook_url) = true ->
  strip rq.(rq_trace_id) = rq.(rq_trace_id) -> nonempty rq.(rq_trace_id) = true ->
  strip rq.(rq_tenant_id) = rq.(rq_tenant_id) -> nonempty rq.(rq_tenant_id) = true ->
  let rows := o_rows (apply_enforcement_adapters ev rq) in
  exists row st,
    query_enforcement_deliveries (Some (map (fun r => Some (PDict r)) rows))
      rq.(rq_trace_id) rq.(rq_tenant_id) None None = Ok [row]
    /\ row.(q_action_id) = delivery_id rq
    /\ row.(q_attempt_count) = Z.of_nat (length rows)
    /\ terminal st /\ row.(q_last_status) = map_journal_query_status st "".
Proof.
  intros Hu Ht Nt Hn Nn rows. destruct (delivery_rows ev rq Hu) as (st & Hr & Hte).
  destruct (written_query rq st rows Hr Ht Nt Hn Nn) as (row & H1 & H2 & H3 & H4).
  by exists row, st.
Qed.

Lemma delivery_visible_witness :
  exists row st,
    query_enforcement_deliveries demo_journal "trace-1" "acme" None None = Ok [row]
    /\ row.(q_last_status) = map_journal_query_status st "".
Proof.
  destruct (delivery_visible demo_ev demo_rq eq_refl eq_refl eq_refl eq_refl eq_refl)
    as (row & st & H & _ & _ & _ & Hs).
  exists row, st. split; [exact H|exact Hs].
Defined.
