(* ===== verification/ProductAck.v ===== *)
(** Product acknowledgements: [decision_api/product_ack.py].

    A buyer's system acknowledges an enforcement action; the acknowledgement is
    accepted only for a trace its tenant knows, appended to a log, and overlaid
    on the delivery query.  The acknowledgement log is the list of its rows; the
    audit database lookup and the clock are inputs. *)

From Stdlib Require Import ZArith Lia Ascii String Bool.
From stdpp Require Import base option list sorting strings gmap.
From S2P Require Import Prelude PyFloat PyValue Sha256 Enforcement.
Local Open Scope Z_scope.

Definition ACK_SCHEMA : string := "tarka.product_ack/v1".
Definition ACK_FIELDS : list string := ["trace_id"; "action_id"; "status"; "ts"; "actor"].

Definition is_hex_any (c : ascii) : bool :=
  let n := code c in
  ((48 <=? n) && (n <=? 57))%N || ((97 <=? n) && (n <=? 102))%N || ((65 <=? n) && (n <=? 70))%N.

Definition _HEX64 (s : string) : bool := Nat.eqb (String.length s) 64 && all_chars is_hex_any s.

Record ProductAckError : Type := AckError { ae_error : string; ae_http_status : Z }.

(** [hmac.compare_digest] refuses text outside ASCII. *)
Definition verify_tarka_signature (raw secret : string) (header_sig : option string) : result bool :=
  if negb (nonempty secret) then Ok true
  else match header_sig with
       | Some sig =>
           if negb (nonempty sig) then Ok false
           else if negb (all_chars (fun c => (code c <? 128)%N) (strip sig)) then Err TypeError
           else Ok (bool_decide (_sign raw secret = strip sig))
       | None => Ok false
       end.

Definition _journal_has_trace (j : journal) (trace_id tenant_id : string) : bool :=
  existsb (fun row => bool_decide (str_or_empty (get row "trace_id" PNone) = trace_id)
                      && bool_decide (str_or_empty (get row "tenant_id" PNone) = tenant_id))
    (journal_rows j).

Section acks.
(** [_audit_has_trace]: whether the decision audit table has the trace for the tenant. *)
Context (audit_has_trace : string -> string -> bool) (now : string).

Definition known_trace (j : journal) (trace_id tenant_id : string) : bool :=
  let tid := strip trace_id in
  let ten := strip tenant_id in
  if negb (nonempty tid) || negb (nonempty ten) then false
  else _journal_has_trace j tid ten || audit_has_trace tid ten.

Definition ack_field (payload : dict) (k : string) : string := strip (str_or_empty (get payload k PNone)).

(** [Err] is the [ProductAckError]; [Ok] is the log after the append and the record. *)
Definition accept_product_ack (j : journal) (acks : list dict) (payload : pyval)
    : sum ProductAckError (list dict * dict) :=
  match payload with
  | PDict p =>
      let action_id := ack_field p "action_id" in
      if negb (_HEX64 action_id) then inl (AckError "malformed_action_id" 400)
      else if existsb (fun k => negb (bool_decide (k = "action_id")) && negb (nonempty (ack_field p k))) ACK_FIELDS
      then inl (AckError "malformed_ack" 400)
      else
        let trace_id := strip (py_str (get p "trace_id" PNone)) in
        let actor := strip (py_str (get p "actor" PNone)) in
        if negb (known_trace j trace_id actor) then inl (AckError "unknown_trace" 404)
        else
          let record :=
            [("schema_id", PStr ACK_SCHEMA);
             ("trace_id", PStr trace_id);
             ("action_id", PStr (lower action_id));
             ("status", PStr (strip (py_str (get p "status" PNone))));
             ("ts", PStr (str_or (strip (py_str (get p "ts" PNone))) now));
             ("actor", PStr actor)] in
          inr (acks ++ [record], record)
  | _ => inl (AckError "malformed_ack" 400)
  end.

(** POST /v1/enforcement/acks.  [parsed] is [json.loads] of the body
    ([None]: not UTF-8, or not JSON). *)
Inductive ack_response : Type :=
| Accepted (record : dict)
| HttpError (status : Z) (error : string).

Definition post_product_ack (secret : string) (sig : option string) (raw : string)
    (parsed : option pyval) (j : journal) (acks : list dict) : result (list dict * ack_response) :=
  let! verified := if nonempty secret then verify_tarka_signature raw secret sig else Ok true in
  if negb verified then Ok (acks, HttpError 401 "bad_signature")
  else match parsed with
       | Some (PDict p) =>
           match accept_product_ack j acks (PDict p) with
           | inr (acks', r) => Ok (acks', Accepted r)
           | inl e => Ok (acks, HttpError e.(ae_http_status) e.(ae_error))
           end
       | _ => Ok (acks, HttpError 400 "malformed_ack")
       end.
End acks.

Definition query_product_acks (acks : list dict) (trace_id tenant_id : string) (action_id : option string)
    : list dict :=
  let tid := strip trace_id in
  let ten := strip tenant_id in
  let aid := strip (opt_str action_id) in
  if negb (nonempty tid) || negb (nonempty ten) then []
  else List.filter (fun row =>
         bool_decide (str_or_empty (get row "trace_id" PNone) = tid)
         && bool_decide (str_or_empty (get row "actor" PNone) = ten)
         && (negb (nonempty aid) || bool_decide (str_or_empty (get row "action_id" PNone) = aid))) acks.

Definition _overlay_product_ack (acks : list dict) (row : query_row) : query_row :=
  match last (query_product_acks acks (str_or_empty row.(q_trace_id)) (str_or_empty row.(q_tenant_id))
                (Some row.(q_action_id))) with
  | None => row
  | Some a =>
      let t := strip (str_or_empty (get a "ts" PNone)) in
      QueryRow row.(q_trace_id) row.(q_tenant_id) row.(q_action_id) row.(q_attempt_count) "acked"
        row.(q_last_error) (if nonempty t then Some t else row.(q_acked_at))
  end.

(** GET /v1/enforcement/deliveries, over any source of deliveries; the program's
    is the journal ([journal_source]). *)
Definition get_enforcement_deliveries `{DeliverySource Src} (j : Src) (acks : list dict)
    (trace_id tenant_id : string) (action_id status : option string) : result (list query_row) :=
  let! rows := deliveries j trace_id tenant_id action_id in
  let rows := map (_overlay_product_ack acks) rows in
  let want := lower (strip (opt_str status)) in
  Ok (if nonempty want then List.filter (fun r => bool_decide (r.(q_last_status) = want)) rows else rows).

(** * Theorems *)

Lemma query_acks_strip acks trace tenant aid :
  query_product_acks acks (strip trace) (strip tenant) aid = query_product_acks acks trace tenant aid.
Proof. unfold query_product_acks. by rewrite !strip_idem. Qed.

Lemma overlay_ids acks r :
  (_overlay_product_ack acks r).(q_trace_id) = r.(q_trace_id)
  /\ (_overlay_product_ack acks r).(q_tenant_id) = r.(q_tenant_id)
  /\ (_overlay_product_ack acks r).(q_action_id) = r.(q_action_id).
Proof. unfold _overlay_product_ack. by destruct (last _). Qed.

(** A delivery reads acked exactly when the product acknowledged it: for
    every source of deliveries and every acknowledgement log, a row of the
    deliveries endpoint has status acked if and only if the log holds an
    acknowledgement of its action for the trace and tenant that were asked for;
    a webhook's 2xx alone never makes it so. *)
Theorem delivery_acked_iff `{DeliverySource Src} (j : Src) acks trace tenant aid out r :
  get_enforcement_deliveries j acks trace tenant aid None = Ok out -> r ∈ out ->
  (r.(q_last_status) = "acked" <-> query_product_acks acks trace tenant (Some r.(q_action_id)) <> []).
Proof.
  unfold get_enforcement_deliveries. intros Hd Hr. inv_ok. cbn [opt_str default] in Hd.
  change (lower (strip "")) with EmptyString in Hd. cbn [nonempty] in Hd. subst out.
  apply list_elem_of_In, in_map_iff in Hr as (r0 & <- & Hr0). apply list_elem_of_In in Hr0.
  destruct (overlay_ids acks r0) as (_ & _ & ->).
  destruct (deliveries_scoped _ _ _ _ _ _ H0 Hr0) as (Hten & Htr & _).
  pose proof (deliveries_unacked _ _ _ _ _ _ H0 Hr0) as Hn.
  unfold _overlay_product_ack. rewrite Hten, Htr, query_acks_strip.
  destruct (query_product_acks acks trace tenant _) as [|x l] eqn:E; simpl.
  - split; [done|]. intros Hx. by destruct Hx.
  - destruct (last (x :: l)) eqn:El; [done|]. by apply last_None in El.
Qed.

Definition demo_ack : dict :=
  [("trace_id", PStr "trace-1"); ("actor", PStr "acme"); ("action_id", PStr (delivery_id demo_rq));
   ("ts", PStr "2026-01-02T00:00:00Z"); ("status", PStr "applied")].

Lemma delivery_acked_iff_witness :
  exists out r, get_enforcement_deliveries demo_journal [demo_ack] "trace-1" "acme" None None = Ok out
    /\ r ∈ out /\ r.(q_last_status) = "acked".
Proof.
  destruct (get_enforcement_deliveries demo_journal [demo_ack] "trace-1" "acme" None None) as [[|r l]|] eqn:E;
    [vm_compute in E; discriminate| |vm_compute in E; discriminate].
  exists (r :: l), r. split; [reflexivity|]. split; [left|].
  apply (delivery_acked_iff demo_journal [demo_ack] "trace-1" "acme" None (r :: l) r E (list_elem_of_here r l)).
  vm_compute in E. injection E as <- <-. vm_compute. congruence.
Defined.

(** Acknowledgements are tenant scoped and guarded: the endpoint appends
    at most one row, only for a request whose signature verifies when a secret
    is set, whose action id is 64 hexadecimal digits, and whose trace is known
    for the acknowledging tenant from the journal or the audit table; every
    other request leaves the log untouched. *)
Theorem ack_guarded audit now secret sig raw parsed j acks acks' resp :
  post_product_ack audit now secret sig raw parsed j acks = Ok (acks', resp) ->
  acks' = acks /\ (exists st e, resp = HttpError st e)
  \/ exists rec p,
       acks' = acks ++ [rec] /\ resp = Accepted rec /\ parsed = Some (PDict p)
       /\ (nonempty secret = true -> exists s, sig = Some s /\ strip s = _sign raw secret)
       /\ _HEX64 (ack_field p "action_id") = true
       /\ known_trace audit j (str_or_empty (get rec "trace_id" PNone)) (str_or_empty (get rec "actor" PNone)) = true.
Proof.
  unfold post_product_ack. intros H. inv_ok.
  destruct a; cbn [negb] in H; [|injection H as <- <-; left; eauto].
  destruct parsed as [[| | | | | |p]|]; try (injection H as <- <-; left; eauto; fail).
  unfold accept_product_ack in H.
  destruct (_HEX64 (ack_field p "action_id")) eqn:Eh; cbn [negb] in H; [|injection H as <- <-; left; eauto].
  destruct (existsb _ ACK_FIELDS); [injection H as <- <-; left; eauto|].
  destruct (known_trace audit j _ _) eqn:Ek; cbn [negb] in H; [|injection H as <- <-; left; eauto].
  injection H as <- <-. right. eexists _, p. split; [done|]. split; [done|]. split; [done|].
  split; [|split; [done|etransitivity; [|exact Ek]; f_equal; apply str_or_empty_str]].
  intros Hs. rewrite Hs in H0. unfold verify_tarka_signature in H0. rewrite Hs in H0. cbn [negb] in H0.
  destruct sig as [s|]; [|discriminate]. destruct (nonempty s); cbn [negb] in H0; [|discriminate].
  destruct (all_chars _ (strip s)); cbn [negb] in H0; [|discriminate]. inv_ok.
  apply bool_decide_eq_true in H0. eauto.
Qed.

Lemma ack_guarded_witness :
  exists acks' resp,
    post_product_ack (fun _ _ => false) "now" "" None "{}" (Some (PDict demo_ack)) demo_journal [] = Ok (acks', resp)
    /\ (acks' = [] /\ (exists st e, resp = HttpError st e) \/ acks' <> []).
Proof.
  destruct (post_product_ack (fun _ _ => false) "now" "" None "{}" (Some (PDict demo_ack)) demo_journal [])
    as [[acks' resp]|] eqn:E; [|vm_compute in E; discriminate].
  exists acks', resp. split; [reflexivity|].
  destruct (ack_guarded (fun _ _ => false) "now" "" None "{}" (Some (PDict demo_ack)) demo_journal [] acks' resp E)
    as [H|(rec & p & H & _)]; [left; exact H|right]. rewrite H. discriminate.
Defined.

(** An acknowledgement is stored under the lower-cased action id and the
    acknowledgement query compares without folding case: a query with the very
    id that was posted finds the record exactly when that id has no upper-case
    letter, although the delivery query folds case. *)
Theorem ack_query_case_sensitive audit now j acks p acks' rec :
  accept_product_ack audit now j acks (PDict p) = inr (acks', rec) ->
  rec ∈ query_product_acks acks' (str_or_empty (get rec "trace_id" PNone)) (str_or_empty (get rec "actor" PNone))
          (Some (ack_field p "action_id"))
  <-> lower (ack_field p "action_id") = ack_field p "action_id".
Proof.
  unfold accept_product_ack. intros H.
  destruct (_HEX64 (ack_field p "action_id")) eqn:Eh; cbn [negb] in H; [|discriminate].
  destruct (existsb _ ACK_FIELDS); [discriminate|].
  destruct (known_trace audit j _ _) eqn:Ek; cbn [negb] in H; [|discriminate].
  injection H as <- <-. set (rec := [_; _; _; _; _; _]).
  change (get rec "trace_id" PNone) with (PStr (strip (py_str (get p "trace_id" PNone)))).
  change (get rec "actor" PNone) with (PStr (strip (py_str (get p "actor" PNone)))).
  rewrite !str_or_empty_str. unfold query_product_acks. cbn [opt_str default id].
  assert (Hs : strip (ack_field p "action_id") = ack_field p "action_id") by apply strip_idem.
  rewrite Hs.
  unfold known_trace in Ek. rewrite !strip_idem in Ek |- *.
  destruct (nonempty (strip (py_str (get p "trace_id" PNone)))); [|discriminate].
  destruct (nonempty (strip (py_str (get p "actor" PNone)))); [|discriminate].
  assert (Hn : nonempty (ack_field p "action_id") = true) by (by destruct (ack_field p "action_id")).
  rewrite Hn. cbn [negb orb]. rewrite list_elem_of_In, List.filter_In.
  change (get rec "trace_id" PNone) with (PStr (strip (py_str (get p "trace_id" PNone)))).
  change (get rec "actor" PNone) with (PStr (strip (py_str (get p "actor" PNone)))).
  change (get rec "action_id" PNone) with (PStr (lower (ack_field p "action_id"))).
  rewrite !str_or_empty_str. rewrite !(bool_decide_eq_true_2 (strip _ = strip _)) by done. cbn [andb].
  rewrite bool_decide_eq_true. split; [tauto|]. intros E. split; [|done].
  apply in_app_iff. right. by left.
Qed.

Lemma ack_query_case_sensitive_witness :
  exists acks' rec, accept_product_ack (fun _ _ => false) "now" demo_journal [] (PDict demo_ack) = inr (acks', rec)
    /\ rec ∈ query_product_acks acks' "trace-1" "acme" (Some (delivery_id demo_rq)).
Proof.
  destruct (accept_product_ack (fun _ _ => false) "now" demo_journal [] (PDict demo_ack)) as [e|[acks' rec]] eqn:E;
    [vm_compute in E; discriminate|].
  exists acks', rec. split; [reflexivity|].
  pose proof (proj2 (ack_query_case_sensitive (fun _ _ => false) "now" demo_journal [] demo_ack acks' rec E)) as H.
  vm_compute in E. injection E as <- <-. apply H. vm_compute. reflexivity.
Defined.

(** ** From delivery to acknowledgement *)

Lemma HEX64_sha s : _HEX64 (sha256_hex s) = true.
Proof.
  unfold _HEX64. rewrite sha256_hex_length. cbn [Nat.eqb andb].
  eapply all_chars_impl; [|apply sha256_hex_hex]. intros c Hc. unfold is_hex_any. unfold is_hex in Hc.
  by rewrite Hc.
Qed.

Lemma sign_plain raw secret :
  strip (_sign raw secret) = _sign raw secret /\ nonempty (_sign raw secret) = true
  /\ all_chars (fun c => (code c <? 128)%N) (_sign raw secret) = true.
Proof.
  assert (Hx : all_chars is_hex (_sign raw secret) = true).
  { unfold _sign. cbv zeta. unfold hex_of. by rewrite !all_chars_app, !hex8_hex. }
  split; [|split].
  - apply strip_id. eapply all_chars_impl; [|exact Hx]. intros c Hc. by destruct (is_hex_plain c Hc) as [-> _].
  - unfold _sign. cbv zeta. done.
  - eapply all_chars_impl; [|exact Hx]. intros c. unfold is_hex. rewrite orb_true_iff, !andb_true_iff.
    rewrite !N.leb_le, N.ltb_lt. lia.
Qed.

Lemma signature_accepted raw secret :
  verify_tarka_signature raw secret (Some (_sign raw secret)) = Ok true.
Proof.
  unfold verify_tarka_signature. destruct (sign_plain raw secret) as (Hs & Hn & Ha).
  destruct (nonempty secret); [|done]. cbn [negb]. rewrite Hn, Hs, Ha. cbn [negb]. by rewrite bool_decide_eq_true_2.
Qed.

Lemma journal_knows_delivery rq st rows :
  rows_from rq 1 st rows ->
  _journal_has_trace (Some (map (fun r => Some (PDict r)) rows)) rq.(rq_trace_id) rq.(rq_tenant_id) = true.
Proof.
  intros Hr. unfold _journal_has_trace. rewrite journal_rows_written. apply existsb_exists.
  destruct rows as [|r rs]; [by inversion Hr|]. exists r. split; [by left|].
  pose proof (rows_from_Forall _ _ _ _ Hr) as Hf. inversion Hf as [|? ? (n & s & _ & _ & Ht & Hn & _)]; subst.
  by rewrite Ht, Hn, !str_or_empty_str, !bool_decide_eq_true_2.
Qed.

Section roundtrip.
Context (audit : string -> string -> bool) (now : string) (rq : request) (st : string) (rows : list dict).
Context (Hrows : rows_from rq 1 st rows).
Context (Ht : strip rq.(rq_trace_id) = rq.(rq_trace_id)) (Nt : nonempty rq.(rq_trace_id) = true).
Context (Hn : strip rq.(rq_tenant_id) = rq.(rq_tenant_id)) (Nn : nonempty rq.(rq_tenant_id) = true).
Context (p : dict).
Context (Ptrace : get p "trace_id" PNone = PStr rq.(rq_trace_id)).
Context (Pactor : get p "actor" PNone = PStr rq.(rq_tenant_id)).
Context (Paction : get p "action_id" PNone = PStr (delivery_id rq)).
Context (Pstatus : nonempty (ack_field p "status") = true) (Pts : nonempty (ack_field p "ts") = true).
Let j : journal := Some (map (fun r => Some (PDict r)) rows).

Lemma py_str_field k : nonempty (ack_field p k) = true -> strip (py_str (get p k PNone)) = ack_field p k.
Proof.
  unfold ack_field, str_or_empty, por. by destruct (truthy (get p k PNone)).
Qed.

Lemma issued_accepted acks :
  exists rec, accept_product_ack audit now j acks (PDict p) = inr (acks ++ [rec], rec)
    /\ get rec "trace_id" PNone = PStr rq.(rq_trace_id) /\ get rec "actor" PNone = PStr rq.(rq_tenant_id)
    /\ get rec "action_id" PNone = PStr (delivery_id rq) /\ get rec "ts" PNone = PStr (ack_field p "ts").
Proof.
  destruct (delivery_id_hash rq) as [h Hh].
  assert (Ea : ack_field p "action_id" = delivery_id rq).
  { unfold ack_field. by rewrite Paction, str_or_empty_str, Hh, sha256_strip. }
  assert (Et : ack_field p "trace_id" = rq.(rq_trace_id)) by (unfold ack_field; by rewrite Ptrace, str_or_empty_str).
  assert (Er : ack_field p "actor" = rq.(rq_tenant_id)) by (unfold ack_field; by rewrite Pactor, str_or_empty_str).
  unfold accept_product_ack. rewrite Ea, Hh, HEX64_sha. cbn [negb].
  unfold ACK_FIELDS. cbn [existsb]. rewrite Et, Er, Pstatus, Pts, Nt, Nn, !andb_false_r. cbn [orb].
  rewrite (bool_decide_eq_true_2 ("action_id" = "action_id")) by done. cbn [negb andb orb].
  rewrite (py_str_field "ts"), (py_str_field "status"), Ptrace, Pactor by done. cbn [py_str]. rewrite Ht, Hn.
  unfold known_trace. rewrite Ht, Hn, Nt, Nn. cbn [negb orb].
  unfold j. rewrite (journal_knows_delivery rq st rows Hrows). cbn [orb negb].
  eexists. split; [done|]. split; [done|]. split; [done|]. split; [by rewrite sha256_lower|].
  unfold str_or. rewrite Pts. done.
Qed.

Lemma acked_row acks rec :
  get rec "trace_id" PNone = PStr rq.(rq_trace_id) -> get rec "actor" PNone = PStr rq.(rq_tenant_id) ->
  get rec "action_id" PNone = PStr (delivery_id rq) -> get rec "ts" PNone = PStr (ack_field p "ts") ->
  exists row, get_enforcement_deliveries j (acks ++ [rec]) rq.(rq_trace_id) rq.(rq_tenant_id) None None = Ok [row]
    /\ row.(q_action_id) = delivery_id rq /\ row.(q_last_status) = "acked"
    /\ row.(q_acked_at) = Some (ack_field p "ts") /\ row.(q_attempt_count) = Z.of_nat (length rows).
Proof.
  intros R1 R2 R3 R4. destruct (delivery_id_hash rq) as [h Hh].
  destruct (written_query rq st rows Hrows Ht Nt Hn Nn) as (row & Hq & Ha & Hc & _).
  destruct (query_rows_scoped _ _ _ _ _ _ row Hq (list_elem_of_here row [])) as (Sn & Str & _).
  unfold get_enforcement_deliveries. cbn [deliveries journal_source]. fold j in Hq. rewrite Hq. cbn [rbind opt_str default map].
  change (lower (strip "")) with EmptyString. cbn [nonempty].
  unfold _overlay_product_ack. rewrite Sn, Str, query_acks_strip, Ha. unfold query_product_acks.
  rewrite Ht, Hn, Nt, Nn. cbn [negb orb opt_str default]. cbn [id]. rewrite Hh, sha256_strip, sha256_nonempty. cbn [negb orb].
  rewrite List.filter_app. cbn [List.filter]. rewrite R1, R2, R3, !str_or_empty_str, Hh, !bool_decide_eq_true_2 by done.
  cbn [andb]. rewrite last_snoc, R4, str_or_empty_str.
  assert (Hs : strip (ack_field p "ts") = ack_field p "ts") by apply strip_idem. rewrite Hs, Pts.
  eexists. split; [done|]. done.
Qed.
End roundtrip.

(** What was delivered can be acknowledged: for every journalled delivery,
    posting an acknowledgement with its trace, its tenant as actor and the
    action id the payload carried (signed when a secret is set) is accepted, and
    the deliveries endpoint then reports that delivery, and only it, as acked at
    the time the product gave, with all its attempts. *)
Theorem delivery_ack_roundtrip audit now ev rq secret sig raw p acks :
  nonempty ev.(hook_url) = true ->
  strip rq.(rq_trace_id) = rq.(rq_trace_id) -> nonempty rq.(rq_trace_id) = true ->
  strip rq.(rq_tenant_id) = rq.(rq_tenant_id) -> nonempty rq.(rq_tenant_id) = true ->
  get p "trace_id" PNone = PStr rq.(rq_trace_id) -> get p "actor" PNone = PStr rq.(rq_tenant_id) ->
  get p "action_id" PNone = PStr (delivery_id rq) ->
  nonempty (ack_field p "status") = true -> nonempty (ack_field p "ts") = true ->
  (nonempty secret = true -> sig = Some (_sign raw secret)) ->
  let rows := o_rows (apply_enforcement_adapters ev rq) in
  let j : journal := Some (map (fun r => Some (PDict r)) rows) in
  exists rec row,
    post_product_ack audit now secret sig raw (Some (PDict p)) j acks = Ok (acks ++ [rec], Accepted rec)
    /\ get_enforcement_deliveries j (acks ++ [rec]) rq.(rq_trace_id) rq.(rq_tenant_id) None None = Ok [row]
    /\ row.(q_action_id) = delivery_id rq /\ row.(q_last_status) = "acked"
    /\ row.(q_acked_at) = Some (ack_field p "ts") /\ row.(q_attempt_count) = Z.of_nat (length rows).
Proof.
  intros Hu Ht Nt Hn Nn P1 P2 P3 P4 P5 Hsig rows j.
  destruct (delivery_rows ev rq Hu) as (st & Hr & _).
  destruct (issued_accepted audit now rq st rows Hr Ht Nt Hn Nn p P1 P2 P3 P4 P5 acks) as (rec & Hacc & R1 & R2 & R3 & R4).
  destruct (acked_row rq st rows Hr Ht Nt Hn Nn p P5 acks rec R1 R2 R3 R4) as (row & Hrow).
  exists rec, row. split; [|exact Hrow].
  unfold post_product_ack. destruct (nonempty secret).
  - rewrite (Hsig eq_refl), signature_accepted. cbn [rbind negb]. fold j in Hacc. by rewrite Hacc.
  - cbn [rbind negb]. fold j in Hacc. by rewrite Hacc.
Qed.

Lemma delivery_ack_roundtrip_witness :
  exists rec row,
    post_product_ack (fun _ _ => false) "now" "s3cret" (Some (_sign "{}" "s3cret")) "{}" (Some (PDict demo_ack))
      demo_journal [] = Ok ([rec], Accepted rec)
    /\ get_enforcement_deliveries demo_journal [rec] "trace-1" "acme" None None = Ok [row]
    /\ row.(q_last_status) = "acked".
Proof.
  destruct (delivery_ack_roundtrip (fun _ _ => false) "now" demo_ev demo_rq "s3cret" (Some (_sign "{}" "s3cret")) "{}"
              demo_ack [] eq_refl eq_refl eq_refl eq_refl eq_refl eq_refl eq_refl eq_refl eq_refl eq_refl
              (fun _ => eq_refl)) as (rec & row & H1 & H2 & _ & H3 & _).
  exists rec, row. exact (conj H1 (conj H2 H3)).
Defined.
