(* ===== verification/Outcome.v ===== *)
(** Post-decision side effects: [decision_api/decision_outcome.py], the
    marketplace bridges [payout_hold_bridge.py], [promo_redemption_bridge.py] and
    [seller_integrity_bridge.py], and [degraded_decision_metrics.py].

    [schedule_decision_outcomes] enqueues background tasks; a task is a value of
    [task] carrying the arguments it is called with, and the schedule is the list
    of tasks in the order they are added. *)

From Stdlib Require Import ZArith Lia Ascii String Bool.
From stdpp Require Import base option list sorting strings gmap.
From S2P Require Import Prelude PyFloat PyValue Enforcement.
Local Open Scope Z_scope.

(** [s.rstrip("/")] and [s.strip("_")] for one character. *)
Fixpoint lstrip_char (c : ascii) (s : string) : string :=
  match s with
  | String d s' => if Ascii.eqb c d then lstrip_char c s' else s
  | EmptyString => EmptyString
  end.
Definition rstrip_char (c : ascii) (s : string) : string := String.rev (lstrip_char c (String.rev s)).
Definition strip_char (c : ascii) (s : string) : string := rstrip_char c (lstrip_char c s).

(** [x = float(v)] stored under [k] unless [v] is absent or not a number. *)
Definition set_float (k : string) (v : pyval) (d : dict) : result dict :=
  match v with
  | PNone => Ok d
  | _ => match py_float v with
         | Ok f => Ok (dict_set k (PFloat f) d)
         | Err e => if is_type_or_value_error e then Ok d else Err e
         end
  end.

(** Stored when it is non-blank text. *)
Definition set_text (k : string) (v : pyval) (d : dict) : dict :=
  match v with
  | PStr s => if nonempty (strip s) then dict_set k (PStr (strip s)) d else d
  | _ => d
  end.

(** Keys taken from the payload when the metadata lacks them. *)
Definition fill_from (keys : list string) (pl meta : dict) : dict :=
  foldl (fun m k => if has_key m k then m else match dict_lookup k pl with Some v => dict_set k v m | None => m end)
    meta keys.

Definition field_text (d : dict) (k : string) : string := strip (str_or_empty (get d k PNone)).

(** The guarded POST every bridge makes: target and token, or nothing. *)
Definition bridge_post (base_url token path : string) (payload : dict) : option (string * string * dict) :=
  if nonempty (strip base_url) && nonempty (strip token)
  then Some (rstrip_char "/" (strip base_url) +:+ path, strip token, payload) else None.

Module Payout.

Definition ACTION_TAGS : list string := ["action:payout_hold"; "action:payout_delay"].
Definition HOLD_CHECKPOINTS : list string := ["payout"; "dispatch"; "deliver"; "delivery"].
Definition SPOOF_RISK_TAGS : list string := ["risk:courier_spoof"; "action:payout_hold"].
Definition DEFAULT_HOLD_HOURS : Z := 72.
Definition DEFAULT_DELAY_HOURS : Z := 24.

Definition _resolve_checkpoint (meta : dict) (event_type : string) : string :=
  let checkpoint := lower (field_text meta "checkpoint") in
  if nonempty checkpoint then checkpoint else lower (strip event_type).

Definition _has_spoof_risk_tag (tags : list string) : bool :=
  existsb (fun tag => mem tag SPOOF_RISK_TAGS || startswith tag "vendor:incognia") tags.

Definition _resolve_payout_id (meta : dict) : string :=
  str_or (field_text meta "payout_id")
    (str_or (field_text meta "courier_payout_id") (field_text meta "transfer_id")).

Definition should_create_payout_hold (metadata : pyval) (tags : list string) (event_type : string) : bool :=
  let checkpoint := _resolve_checkpoint (as_dict metadata) event_type in
  if negb (mem checkpoint HOLD_CHECKPOINTS) then false
  else if bool_decide (checkpoint = "payout") then existsb (fun t => mem t ACTION_TAGS) tags
  else _has_spoof_risk_tag tags.

Definition resolve_hold_status_and_hours (tags : list string) : string * Z :=
  if mem "action:payout_hold" tags then ("held", DEFAULT_HOLD_HOURS)
  else if mem "action:payout_delay" tags then ("pending", DEFAULT_DELAY_HOURS)
  else ("held", DEFAULT_HOLD_HOURS).

Fixpoint first_tag (p : string -> bool) (tags : list string) : option string :=
  match tags with [] => None | t :: r => if p t then Some t else first_tag p r end.

Definition _hold_reason_from_tags (tags : list string) : string :=
  match first_tag (fun t => mem t ACTION_TAGS) tags with
  | Some t => "tag:" +:+ t
  | None => match first_tag (fun t => startswith t "action:payout_") tags with
            | Some t => "tag:" +:+ t
            | None => "tag:action:payout_hold"
            end
  end.

Definition build_hold_payload (tenant_id entity_id : string) (tags : list string) (metadata : pyval)
    (decision_id trace_id : string) : result dict :=
  let meta := as_dict metadata in
  let payout_id := _resolve_payout_id meta in
  if negb (nonempty payout_id) then Err ValueError
  else
    let '(status, hours) := resolve_hold_status_and_hours tags in
    let payload :=
      [("tenant_id", PStr tenant_id); ("payout_id", PStr payout_id); ("entity_id", PStr entity_id);
       ("status", PStr status); ("hold_duration_hours", PInt hours);
       ("hold_reason", PStr (_hold_reason_from_tags tags)); ("held_by", PStr "evaluate");
       ("decision_id", PStr decision_id); ("trace_id", PStr trace_id); ("tags", str_list tags)] in
    let! payload := set_float "amount" (get meta "amount" PNone) payload in
    Ok (set_text "currency" (get meta "currency" PNone) payload).

(** The request posted, if any; an exception other than [ValueError] reaches
    the task wrapper, which swallows it. *)
Definition maybe_create_payout_hold_from_evaluate (base_url token tenant_id entity_id : string)
    (tags : list string) (metadata : pyval) (trace_id event_type : string)
    : result (option (string * string * dict)) :=
  if negb (should_create_payout_hold metadata tags event_type) then Ok None
  else if negb (nonempty (_resolve_payout_id (as_dict metadata))) then Ok None
  else match build_hold_payload tenant_id entity_id tags metadata trace_id trace_id with
       | Err ValueError => Ok None
       | Err e => Err e
       | Ok payload => Ok (bridge_post base_url token "/v1/internal/marketplace/payout-holds" payload)
       end.

End Payout.

Module Promo.

Definition PROMO_CHECKPOINTS : list string := ["redeem"; "promo"].
Definition PROMO_FARM_TAG : string := "risk:promo_farm".

Definition _coupon_from_metadata (metadata : dict) : string :=
  strip (py_str (por (get metadata "coupon_code" PNone) (por (get metadata "promo_code" PNone) (PStr "")))).

Definition should_record_promo_redemption (metadata : pyval) (tags : list string) (event_type : string) : bool :=
  let meta := as_dict metadata in
  if negb (nonempty (_coupon_from_metadata meta)) then false
  else if mem (lower (field_text meta "checkpoint")) PROMO_CHECKPOINTS
          || mem (lower (strip event_type)) PROMO_CHECKPOINTS then true
  else mem PROMO_FARM_TAG tags.

Definition build_promo_payload (tenant_id entity_id : string) (tags : list string)
    (metadata payload : pyval) (trace_id : string) : result dict :=
  let meta := fill_from ["coupon_code"; "promo_code"; "device_id"; "order_total"; "currency"; "ip_hint"; "ip"; "ip_address"]
                (as_dict payload) (as_dict metadata) in
  let coupon := _coupon_from_metadata meta in
  if negb (nonempty coupon) then Err ValueError
  else
    let body := [("tenant_id", PStr tenant_id); ("coupon_code", PStr coupon); ("user_id", PStr entity_id);
                 ("flags", str_list tags); ("trace_id", PStr trace_id)] in
    let device_id := field_text meta "device_id" in
    let body := if nonempty device_id then dict_set "device_id" (PStr device_id) body else body in
    let! body := set_float "order_total" (get meta "order_total" PNone) body in
    let body := set_text "currency" (get meta "currency" PNone) body in
    let ip_hint := strip (py_str (por (get meta "ip_hint" PNone)
                     (por (get meta "ip" PNone) (por (get meta "ip_address" PNone) (PStr ""))))) in
    Ok (if nonempty ip_hint then dict_set "ip_hint" (PStr ip_hint) body else body).

Definition maybe_record_promo_redemption_from_evaluate (base_url token tenant_id entity_id : string)
    (tags : list string) (metadata payload : pyval) (trace_id event_type : string)
    : result (option (string * string * dict)) :=
  if negb (should_record_promo_redemption metadata tags event_type) then Ok None
  else if negb (nonempty (_coupon_from_metadata (as_dict metadata))) then Ok None
  else match build_promo_payload tenant_id entity_id tags metadata payload trace_id with
       | Err ValueError => Ok None
       | Err e => Err e
       | Ok body => Ok (bridge_post base_url token "/v1/internal/marketplace/promo-redemptions" body)
       end.

End Promo.

Module Seller.

Definition SELLER_CHECKPOINTS : list string := ["seller_review"; "delivery"; "checkout"].
Definition DEFAULT_WINDOW_DAYS : Z := 30.

Definition _int_field (meta : dict) (key : string) (dflt : Z) : result Z :=
  match get meta key PNone with
  | PNone => Ok dflt
  | raw => match py_int raw with
           | Ok n => Ok (Z.max 0 n)
           | Err e => if is_type_or_value_error e then Ok dflt else Err e
           end
  end.

Definition should_record_seller_integrity (metadata : pyval) (event_type : string) : bool :=
  let meta := as_dict metadata in
  if negb (nonempty (field_text meta "seller_id")) then false
  else if negb (is_none (get meta "successful_deliveries" PNone))
          || negb (is_none (get meta "review_count" PNone)) then true
  else mem (lower (field_text meta "checkpoint")) SELLER_CHECKPOINTS
       || mem (lower (strip event_type)) SELLER_CHECKPOINTS.

Definition build_seller_payload (tenant_id : string) (metadata payload : pyval) : result dict :=
  let meta := fill_from ["seller_id"; "successful_deliveries"; "review_count"; "window_days"; "display_name";
                         "store_slug"; "category"; "avg_rating"] (as_dict payload) (as_dict metadata) in
  let seller_id := field_text meta "seller_id" in
  if negb (nonempty seller_id) then Err ValueError
  else
    let! deliveries := _int_field meta "successful_deliveries" 0 in
    let! reviews := _int_field meta "review_count" 0 in
    let! window := _int_field meta "window_days" DEFAULT_WINDOW_DAYS in
    let body := [("tenant_id", PStr tenant_id); ("seller_id", PStr seller_id);
                 ("successful_deliveries", PInt deliveries); ("review_count", PInt reviews);
                 ("window_days", PInt (if window =? 0 then DEFAULT_WINDOW_DAYS else window))] in
    let body := foldl (fun b k => set_text k (get meta k PNone) b) body ["display_name"; "store_slug"; "category"] in
    set_float "avg_rating" (get meta "avg_rating" PNone) body.

Definition maybe_record_seller_integrity_from_evaluate (base_url token tenant_id : string)
    (metadata payload : pyval) (event_type : string) : result (option (string * string * dict)) :=
  if negb (should_record_seller_integrity metadata event_type) then Ok None
  else match build_seller_payload tenant_id metadata payload with
       | Err ValueError => Ok None
       | Err e => Err e
       | Ok body => Ok (bridge_post base_url token "/v1/internal/marketplace/seller-integrity" body)
       end.

End Seller.

Module Metrics.

Definition _TAG_METRIC_KEYS : list (string * string) :=
  [("circuit_open", "circuit_open"); ("load_shedding:active", "load_shed");
   ("feature:missing_", "missing_feature"); ("feature:catalog_fail_closed", "catalog_fail_closed");
   ("graph:stale_skipped", "graph_stale_skipped"); ("graph:stale_fail_closed", "graph_stale_fail_closed");
   ("graph:unavailable", "graph_unavailable"); ("graph:unconfigured", "graph_unconfigured");
   ("enrichment:unavailable", "enrichment_unavailable"); ("ml:unavailable", "ml_unavailable");
   ("lists:unavailable", "lists_unavailable"); ("opa:unavailable", "opa_unavailable");
   ("async_enrich:stale", "async_enrich_stale")].

Fixpoint first_prefix (t : string) (m : list (string * string)) : option string :=
  match m with
  | [] => None
  | (p, reason) :: m' => if bool_decide (t = p) || startswith t p then Some reason else first_prefix t m'
  end.

Definition _reason_for_tag (tag : string) : option string :=
  let t := strip tag in
  if negb (nonempty t) then None
  else match first_prefix t _TAG_METRIC_KEYS with
       | Some r => Some r
       | None => if startswith t "feature:missing_" then Some "missing_feature" else None
       end.

(** The reasons counted, each once, in order. *)
Definition record_degraded_decision_metrics (degrade_tags : list string) : list string :=
  append_new [] (filter_map _reason_for_tag degrade_tags).

(** The counters one reason increments. *)
Definition degraded_counters (reason : string) : list string :=
  ["tarka_degraded_decision_total"; "tarka_degraded_decision_" +:+ reason +:+ "_total"].

End Metrics.

(** * The schedule *)

Record DecisionOutcomeContext : Type := Ctx {
  trace_id : string; tenant_id : string; entity_id : string; event_type : string; decision : string;
  score : float; tags : list string; rule_hits : list string; signal_tags : list string;
  ml_score : pyval; payload : pyval; recommended_action : option string; pack_hash : string;
  challenge_metadata : pyval; fallback_reason : option string; decision_log_record : option dict;
  degrade_tags : list string; metadata : pyval; device_context : pyval; session_id : option string;
  shadow_request : bool }.

(** The collaborators and settings passed in. *)
Record outcome_config : Type := OutcomeConfig {
  has_graph_upsert : bool; has_shadow_evaluation : bool; case_create_on_deny_review : bool;
  flag_mints_leftover : bool; case_api_url : string; case_internal_token : string;
  ingress_url : string; ingress_token : string; upstream_headers : dict; created_at : string }.

Inductive task : Type :=
| EmitDecisionLog (record : dict)
| GraphUpsert
| ChallengeWebhook (decision : string) (recommended : option string) (meta : pyval)
| EnforcementAdapters (rq : request)
| BroadcastDecision (msg : dict)
| PublishDecision (msg : dict)
| ShadowEvaluation
| QueueUpsert
| CreateCase (url : string) (headers : dict)
| PayoutHold (url token tenant entity : string) (tags : list string) (meta : pyval) (trace event : string)
| PromoRedemption (url token tenant entity : string) (tags : list string) (meta payload : pyval)
    (trace event : string)
| SellerIntegrity (url token tenant : string) (meta payload : pyval) (trace event : string).

Definition dict_or_none (v : pyval) : pyval := match v with PDict d => PDict d | _ => PNone end.

Definition enforcement_request (ctx : DecisionOutcomeContext) : request :=
  Request ctx.(trace_id) ctx.(tenant_id) ctx.(entity_id) ctx.(event_type) ctx.(decision) ctx.(score)
    ctx.(tags) ctx.(recommended_action) (dict_or_none ctx.(challenge_metadata)) ctx.(pack_hash).

Definition broadcast_msg (ctx : DecisionOutcomeContext) : dict :=
  [("trace_id", PStr ctx.(trace_id)); ("tenant_id", PStr ctx.(tenant_id)); ("entity_id", PStr ctx.(entity_id));
   ("event_type", PStr ctx.(event_type)); ("decision", PStr ctx.(decision)); ("score", PFloat ctx.(score));
   ("tags", str_list ctx.(tags));
   ("enforcement_action", PStr (resolve_enforcement_action ctx.(decision) ctx.(recommended_action)))].

Definition publish_msg (cfg : outcome_config) (ctx : DecisionOutcomeContext) : dict :=
  [("trace_id", PStr ctx.(trace_id)); ("tenant_id", PStr ctx.(tenant_id)); ("entity_id", PStr ctx.(entity_id));
   ("event_type", PStr ctx.(event_type)); ("decision", PStr ctx.(decision)); ("score", PFloat ctx.(score));
   ("tags", str_list ctx.(tags)); ("rule_hits", str_list ctx.(rule_hits));
   ("signal_tags", str_list ctx.(signal_tags)); ("ml_score", ctx.(ml_score)); ("payload", ctx.(payload));
   ("enforcement_action", PStr (resolve_enforcement_action ctx.(decision) ctx.(recommended_action)));
   ("recommended_action", opt_text ctx.(recommended_action)); ("created_at", PStr cfg.(created_at))].

Definition mint_decisions (cfg : outcome_config) : list string :=
  if cfg.(flag_mints_leftover) then ["deny"; "review"; "flag"] else ["deny"; "review"].

Definition case_headers (cfg : outcome_config) : dict :=
  if nonempty cfg.(case_internal_token)
  then dict_set "X-Internal-Token" (PStr cfg.(case_internal_token)) cfg.(upstream_headers)
  else cfg.(upstream_headers).

(** [if b: add(t)]. *)
Definition when_ (b : bool) (t : task) : list task := if b then [t] else [].

(** The background tasks, in the order they are added. *)
Definition background_tasks (cfg : outcome_config) (ctx : DecisionOutcomeContext) : list task :=
  let live := negb ctx.(shadow_request) in
  let mints := mem ctx.(decision) (mint_decisions cfg) in
  let meta := dict_or_none ctx.(metadata) in
  let body := dict_or_none ctx.(payload) in
  match ctx.(decision_log_record) with Some r => [EmitDecisionLog r] | None => [] end
  ++ when_ (live && cfg.(has_graph_upsert)) GraphUpsert
  ++ when_ live (ChallengeWebhook ctx.(decision) ctx.(recommended_action) (dict_or_none ctx.(challenge_metadata)))
  ++ when_ live (EnforcementAdapters (enforcement_request ctx))
  ++ [BroadcastDecision (broadcast_msg ctx); PublishDecision (publish_msg cfg ctx)]
  ++ when_ cfg.(has_shadow_evaluation) ShadowEvaluation
  ++ when_ (live && mints) QueueUpsert
  ++ when_ (live && cfg.(case_create_on_deny_review) && mints) (CreateCase cfg.(case_api_url) (case_headers cfg))
  ++ when_ (live && Payout.should_create_payout_hold meta ctx.(tags) ctx.(event_type))
       (PayoutHold cfg.(ingress_url) cfg.(ingress_token) ctx.(tenant_id) ctx.(entity_id) ctx.(tags) meta
          ctx.(trace_id) ctx.(event_type))
  ++ when_ (live && Promo.should_record_promo_redemption meta ctx.(tags) ctx.(event_type))
       (PromoRedemption cfg.(ingress_url) cfg.(ingress_token) ctx.(tenant_id) ctx.(entity_id) ctx.(tags) meta body
          ctx.(trace_id) ctx.(event_type))
  ++ when_ (live && Seller.should_record_seller_integrity meta ctx.(event_type))
       (SellerIntegrity cfg.(ingress_url) cfg.(ingress_token) ctx.(tenant_id) meta body
          ctx.(trace_id) ctx.(event_type)).

(** What a bridge task posts: URL, token and body; other tasks are not bridges. *)
Definition bridge_request (t : task) : result (option (string * string * dict)) :=
  match t with
  | PayoutHold url token tenant entity tags meta trace event =>
      Payout.maybe_create_payout_hold_from_evaluate url token tenant entity tags meta trace event
  | PromoRedemption url token tenant entity tags meta body trace event =>
      Promo.maybe_record_promo_redemption_from_evaluate url token tenant entity tags meta body trace event
  | SellerIntegrity url token tenant meta body _ event =>
      Seller.maybe_record_seller_integrity_from_evaluate url token tenant meta body event
  | _ => Ok None
  end.

(** The POST of [maybe_create_case_for_outcome]: URL and body, or nothing. *)
Definition maybe_create_case_for_outcome (case_url : string) (ctx : DecisionOutcomeContext)
    : option (string * dict) :=
  let base := rstrip_char "/" (strip case_url) in
  if negb (nonempty base) then None
  else
    let labels := "origin:evaluate" ::
      filter_map (fun hit => let token := strip hit in
                             if nonempty token then Some ("hit:" +:+ str_take 80 token) else None)
        (take 12 ctx.(rule_hits)) in
    Some (base +:+ "/v1/cases",
          [("tenant_id", PStr ctx.(tenant_id));
           ("title", PStr ("Auto: " +:+ ctx.(decision) +:+ " " +:+ ctx.(event_type) +:+ " " +:+ ctx.(entity_id)));
           ("entity_id", PStr ctx.(entity_id));
           ("trace_id", PStr ctx.(trace_id));
           ("priority", PStr (if bool_decide (ctx.(decision) = "deny") then "high" else "medium"));
           ("labels", str_list labels);
           ("last_outcome", PStr ctx.(decision))]).

(** [re.sub(r"[^a-zA-Z0-9_]+", "_", s)]. *)
Definition metric_char (c : ascii) : bool :=
  let n := code c in
  ((48 <=? n) && (n <=? 57))%N || ((65 <=? n) && (n <=? 90))%N || ((97 <=? n) && (n <=? 122))%N || (n =? 95)%N.

Fixpoint squash (in_run : bool) (s : string) : string :=
  match s with
  | EmptyString => EmptyString
  | String c s' =>
      if metric_char c then String c (squash false s')
      else if in_run then squash true s' else String "_" (squash true s')
  end.

Definition reason_key (reason : string) : string := str_take 64 (lower (strip_char "_" (squash false reason))).

(** The counters incremented, in order, by a [metrics_inc] that takes the trace id. *)
Definition _emit_decision_metrics (ctx : DecisionOutcomeContext) : list string :=
  ["fraud_decisions_" +:+ ctx.(decision) +:+ "_total"; "fraud_evaluations_total"]
  ++ match ctx.(fallback_reason) with
     | Some r => if nonempty r
                 then "fraud_fallback_total"
                      :: (if nonempty (reason_key r) then ["fraud_fallback_total_" +:+ reason_key r] else [])
                 else []
     | None => []
     end
  ++ map (fun st => "fraud_signal_tag_" +:+ st +:+ "_total") ctx.(signal_tags).

(** Tasks enqueued and counters incremented. *)
Definition schedule_decision_outcomes (cfg : outcome_config) (ctx : DecisionOutcomeContext)
    : list task * list string :=
  (background_tasks cfg ctx,
   _emit_decision_metrics ctx
   ++ concat (map Metrics.degraded_counters (Metrics.record_degraded_decision_metrics ctx.(degrade_tags)))).

Definition force_deny_from_degrade_tags (degrade_tags : list string) : bool :=
  mem "feature:catalog_fail_closed" degrade_tags || mem "graph:stale_fail_closed" degrade_tags.

(** * Theorems *)

(** The tasks that do not act on the world outside the decision stream. *)
Definition passive (t : task) : bool :=
  match t with
  | EmitDecisionLog _ | BroadcastDecision _ | PublishDecision _ | ShadowEvaluation => true
  | _ => false
  end.

Lemma when_elem b t x : x ∈ when_ b t <-> b = true /\ x = t.
Proof. unfold when_. destruct b; set_solver. Qed.

(** A shadow duplicate never acts: for a shadow request no graph write,
    challenge, enforcement, queue, case, payout, promotion or seller task is
    scheduled, whatever the decision, tags, metadata and settings. *)
Theorem shadow_request_passive cfg ctx t :
  ctx.(shadow_request) = true -> t ∈ (schedule_decision_outcomes cfg ctx).1 -> passive t = true.
Proof.
  intros Hs Ht. unfold schedule_decision_outcomes, background_tasks in Ht. cbn [fst] in Ht. rewrite Hs in Ht. cbn [negb andb] in Ht.
  rewrite !elem_of_app, !when_elem in Ht.
  destruct Ht as [Ht|[[? _]|[[? _]|[[? _]|[Ht|[[_ ->]|[[? _]|[[? _]|[[? _]|[[? _]|[? _]]]]]]]]]]]; try done.
  - destruct (decision_log_record ctx); [|by apply not_elem_of_nil in Ht].
    by apply list_elem_of_singleton in Ht as ->.
  - apply list_elem_of_In in Ht. simpl in Ht. by destruct Ht as [<-|[<-|[]]].
Qed.

Definition demo_cfg : outcome_config := OutcomeConfig true false true false "https://cases" "" "" "" [] "now".
Definition demo_ctx (shadow : bool) : DecisionOutcomeContext :=
  Ctx "t1" "acme" "u1" "payment" "deny" (litZ 90) [] ["r1"] [] PNone PNone None "" PNone None None [] PNone PNone None shadow.

Lemma shadow_request_passive_witness :
  passive (BroadcastDecision (broadcast_msg (demo_ctx true))) = true.
Proof.
  apply (shadow_request_passive demo_cfg (demo_ctx true) (BroadcastDecision (broadcast_msg (demo_ctx true))));
    [reflexivity|]. apply list_elem_of_In. left. reflexivity.
Defined.

(** A live deny or review always enters the queue, and a case is created
    exactly when case creation is on: for a live request the queue upsert is
    scheduled if and only if the decision mints, the case task if and only if
    it is also enabled, and every case creation follows the queue upsert of the
    same decision. *)
Theorem live_decision_mints cfg ctx :
  ctx.(shadow_request) = false ->
  (QueueUpsert ∈ (schedule_decision_outcomes cfg ctx).1 <-> ctx.(decision) ∈ mint_decisions cfg)
  /\ ((exists u h, CreateCase u h ∈ (schedule_decision_outcomes cfg ctx).1) <->
      cfg.(case_create_on_deny_review) = true /\ ctx.(decision) ∈ mint_decisions cfg)
  /\ (forall u h, CreateCase u h ∈ (schedule_decision_outcomes cfg ctx).1 ->
        exists before after, (schedule_decision_outcomes cfg ctx).1 = before ++ CreateCase u h :: after
          /\ QueueUpsert ∈ before).
Proof.
  intros Hs.
  assert (Hlog : forall t, t ∈ match decision_log_record ctx with Some r => [EmitDecisionLog r] | None => [] end ->
                 exists r, t = EmitDecisionLog r).
  { intros t Ht. destruct (decision_log_record ctx); [|by apply not_elem_of_nil in Ht].
    apply list_elem_of_singleton in Ht as ->. eauto. }
  assert (Hmsg : forall t, t ∈ [BroadcastDecision (broadcast_msg ctx); PublishDecision (publish_msg cfg ctx)] ->
                 t <> QueueUpsert /\ forall u h, t <> CreateCase u h).
  { intros t Ht. apply list_elem_of_In in Ht. simpl in Ht. by destruct Ht as [<-|[<-|[]]]. }
  assert (Hq : QueueUpsert ∈ (schedule_decision_outcomes cfg ctx).1 <-> ctx.(decision) ∈ mint_decisions cfg).
  { unfold schedule_decision_outcomes, background_tasks. cbn [fst]. rewrite Hs. cbn [negb andb].
    rewrite !elem_of_app, !when_elem, <- mem_spec. split.
    - intros H. destruct_or?; try (destruct H as [? H]; try discriminate; done).
      + by destruct (Hlog _ H).
      + by destruct (Hmsg _ H).
    - intros H. do 6 right. left. done. }
  assert (Hc : forall u h, CreateCase u h ∈ (schedule_decision_outcomes cfg ctx).1 ->
            cfg.(case_create_on_deny_review) = true /\ mem ctx.(decision) (mint_decisions cfg) = true
            /\ u = cfg.(case_api_url) /\ h = case_headers cfg).
  { intros u h. unfold schedule_decision_outcomes, background_tasks. cbn [fst]. rewrite Hs. cbn [negb andb].
    rewrite !elem_of_app, !when_elem. intros H.
    destruct_or?; try (destruct H as [? H]; try discriminate).
    - by destruct (Hlog _ H).
    - by destruct (Hmsg _ H) as [_ Hn]; destruct (Hn u h).
    - injection H as -> ->. apply andb_prop in H0 as [? ?]. done. }
  split; [done|]. split.
  - split.
    + intros (u & h & H). apply Hc in H as (? & ?%mem_spec & _). done.
    + intros [H1 H2%mem_spec]. exists cfg.(case_api_url), (case_headers cfg).
      unfold schedule_decision_outcomes, background_tasks. cbn [fst]. rewrite Hs, H1, H2. cbn [negb andb].
      rewrite !elem_of_app, !when_elem. do 7 right. left. done.
  - intros u h H. apply Hc in H as (H1 & H2 & -> & ->).
    unfold schedule_decision_outcomes, background_tasks. cbn [fst]. rewrite Hs, H1, H2. cbn [negb andb when_].
    lazymatch goal with
    | |- exists b a, ?l0 ++ ?l1 ++ ?l2 ++ ?l3 ++ ?l4 ++ ?l5 ++ ?l6 ++ _ ++ ?rest = _ /\ _ =>
        exists (l0 ++ l1 ++ l2 ++ l3 ++ l4 ++ l5 ++ l6), rest
    end.
    split; [by rewrite <- !(assoc_L (++))|]. rewrite !elem_of_app. do 6 right. left.
Qed.

Lemma live_decision_mints_witness : QueueUpsert ∈ (schedule_decision_outcomes demo_cfg (demo_ctx false)).1.
Proof.
  apply (proj1 (live_decision_mints demo_cfg (demo_ctx false) eq_refl)). left.
Defined.

Lemma set_float_get k v d d' j x :
  set_float k v d = Ok d' -> j <> k -> get d' j x = get d j x.
Proof.
  unfold set_float. intros H Hj.
  destruct v; try (by injection H as <-);
    destruct (py_float _) as [y|err]; try destruct (is_type_or_value_error err); try done;
    injection H as <-; try done; by apply get_set_ne.
Qed.

Lemma set_text_get k v d j x : j <> k -> get (set_text k v d) j x = get d j x.
Proof. intros Hj. destruct v; simpl; try done. destruct (nonempty _); [|done]. by apply get_set_ne. Qed.

Lemma bridge_post_inv url token path body u k b :
  bridge_post url token path body = Some (u, k, b) ->
  nonempty (strip url) = true /\ nonempty k = true /\ k = strip token /\ b = body.
Proof.
  unfold bridge_post. destruct (nonempty (strip url)); [|done]. cbn [andb].
  destruct (nonempty (strip token)) eqn:E; [|done]. intros H. by injection H as <- <- <-.
Qed.

Lemma hold_payload_tenant tenant entity tags meta did trace body :
  Payout.build_hold_payload tenant entity tags meta did trace = Ok body ->
  get body "tenant_id" PNone = PStr tenant.
Proof.
  unfold Payout.build_hold_payload. destruct (nonempty _); [|done]. cbn [negb].
  destruct (Payout.resolve_hold_status_and_hours tags). intros H. inv_ok. subst.
  rewrite set_text_get by done. by erewrite set_float_get by done.
Qed.

Lemma promo_payload_tenant tenant entity tags meta pl trace body :
  Promo.build_promo_payload tenant entity tags meta pl trace = Ok body ->
  get body "tenant_id" PNone = PStr tenant.
Proof.
  unfold Promo.build_promo_payload. destruct (nonempty (Promo._coupon_from_metadata _)); [|done]. cbn [negb].
  intros H. inv_ok. subst.
  match goal with H : set_float _ _ _ = Ok _ |- _ => rename H into Hf end.
  assert (Hd : get a "tenant_id" PNone = PStr tenant).
  { erewrite set_float_get by done. destruct (nonempty _); [by rewrite get_set_ne|done]. }
  match goal with |- context [if ?b then _ else _] => destruct b end;
    rewrite ?get_set_ne by done; rewrite set_text_get by done; done.
Qed.

Lemma seller_payload_tenant tenant meta pl body :
  Seller.build_seller_payload tenant meta pl = Ok body -> get body "tenant_id" PNone = PStr tenant.
Proof.
  unfold Seller.build_seller_payload. destruct (nonempty _); [|done]. cbn [negb]. intros H. inv_ok.
  match goal with H : set_float _ _ _ = Ok _ |- _ => erewrite (set_float_get _ _ _ _ _ _ H) by done end.
  cbn [foldl]. by rewrite !set_text_get by done.
Qed.

Lemma payout_request_inv base tok tenant entity tags meta trace event url token body :
  Payout.maybe_create_payout_hold_from_evaluate base tok tenant entity tags meta trace event
  = Ok (Some (url, token, body)) ->
  nonempty (strip base) = true /\ token = strip tok /\ nonempty token = true
  /\ get body "tenant_id" PNone = PStr tenant.
Proof.
  unfold Payout.maybe_create_payout_hold_from_evaluate. cases_if; try done.
  destruct (Payout.build_hold_payload _ _ _ _ _ _) as [b|e] eqn:Hp; [|by destruct e].
  intros (? & ? & -> & ->)%Ok_inj%bridge_post_inv. by apply hold_payload_tenant in Hp.
Qed.

Lemma promo_request_inv base tok tenant entity tags meta pl trace event url token body :
  Promo.maybe_record_promo_redemption_from_evaluate base tok tenant entity tags meta pl trace event
  = Ok (Some (url, token, body)) ->
  nonempty (strip base) = true /\ token = strip tok /\ nonempty token = true
  /\ get body "tenant_id" PNone = PStr tenant.
Proof.
  unfold Promo.maybe_record_promo_redemption_from_evaluate. cases_if; try done.
  destruct (Promo.build_promo_payload _ _ _ _ _ _) as [b|e] eqn:Hp; [|by destruct e].
  intros (? & ? & -> & ->)%Ok_inj%bridge_post_inv. by apply promo_payload_tenant in Hp.
Qed.

Lemma seller_request_inv base tok tenant meta pl event url token body :
  Seller.maybe_record_seller_integrity_from_evaluate base tok tenant meta pl event
  = Ok (Some (url, token, body)) ->
  nonempty (strip base) = true /\ token = strip tok /\ nonempty token = true
  /\ get body "tenant_id" PNone = PStr tenant.
Proof.
  unfold Seller.maybe_record_seller_integrity_from_evaluate. cases_if; try done.
  destruct (Seller.build_seller_payload _ _ _) as [b|e] eqn:Hp; [|by destruct e].
  intros (? & ? & -> & ->)%Ok_inj%bridge_post_inv. by apply seller_payload_tenant in Hp.
Qed.

(** A bridge never posts for a shadow duplicate, without credentials or
    for another tenant: whatever a scheduled bridge task posts, the request was
    live, the ingress URL and token were configured, the token sent is the
    configured one, and the body names the decision's tenant. *)
Theorem bridge_requests_guarded cfg ctx t url token body :
  t ∈ (schedule_decision_outcomes cfg ctx).1 ->
  bridge_request t = Ok (Some (url, token, body)) ->
  ctx.(shadow_request) = false
  /\ nonempty (strip cfg.(ingress_url)) = true
  /\ token = strip cfg.(ingress_token) /\ nonempty token = true
  /\ get body "tenant_id" PNone = PStr ctx.(tenant_id).
Proof.
  intros Ht Hb. unfold schedule_decision_outcomes, background_tasks in Ht. cbn [fst] in Ht.
  rewrite !elem_of_app, !when_elem in Ht.
  destruct Ht as [Ht|[[_ ->]|[[_ ->]|[[_ ->]|[Ht|[[_ ->]|[[_ ->]|[[_ ->]|[[Hg ->]|[[Hg ->]|[Hg ->]]]]]]]]]]]; try done.
  - destruct (decision_log_record ctx); [|by apply not_elem_of_nil in Ht].
    by apply list_elem_of_singleton in Ht as ->.
  - apply list_elem_of_In in Ht. simpl in Ht. by destruct Ht as [<-|[<-|[]]].
  - apply andb_prop in Hg as [Hs%negb_true_iff _]. split; [done|].
    apply payout_request_inv in Hb as (? & ? & ? & ?). done.
  - apply andb_prop in Hg as [Hs%negb_true_iff _]. split; [done|].
    apply promo_request_inv in Hb as (? & ? & ? & ?). done.
  - apply andb_prop in Hg as [Hs%negb_true_iff _]. split; [done|].
    apply seller_request_inv in Hb as (? & ? & ? & ?). done.
Qed.

Definition bridge_cfg : outcome_config :=
  OutcomeConfig false false false false "" "" "https://ingress/" "s3cret" [] "now".
Definition bridge_ctx : DecisionOutcomeContext :=
  Ctx "t1" "acme" "u1" "payout" "deny" (litZ 90) ["action:payout_hold"] [] [] PNone PNone None "" PNone None None []
    (PDict [("payout_id", PStr "po_1")]) PNone None false.

Lemma bridge_requests_guarded_witness :
  exists url body,
    Payout.maybe_create_payout_hold_from_evaluate "https://ingress/" "s3cret" "acme" "u1" ["action:payout_hold"]
      (PDict [("payout_id", PStr "po_1")]) "t1" "payout" = Ok (Some (url, "s3cret", body))
    /\ get body "tenant_id" PNone = PStr "acme".
Proof.
  eexists _, _. split; [vm_compute; reflexivity|].
  refine (proj2 (proj2 (proj2 (proj2 (bridge_requests_guarded bridge_cfg bridge_ctx
    (PayoutHold "https://ingress/" "s3cret" "acme" "u1" ["action:payout_hold"]
      (PDict [("payout_id", PStr "po_1")]) "t1" "payout") _ _ _ _ _))))).
  - apply list_elem_of_In. vm_compute. auto 10.
  - vm_compute. reflexivity.
Defined.
