(* ===== verification/MakerChecker.v ===== *)
(** Case dispositions with maker-checker: [case_api/disposition.py], and the
    endpoints of [case_api/main.py] that write a case's status or labels.

    [apply_status_with_maker_checker] keeps its pending request in the case's
    own labels.  The safety theorem is over sequences of PATCH requests; the
    endpoints that write labels or status without it are modelled beside it. *)

From Stdlib Require Import ZArith Lia Ascii String Bool.
From stdpp Require Import base option list sorting strings gmap.
From S2P Require Import Prelude PyFloat PyValue.
Local Open Scope Z_scope.

Definition DISPOSITION_REASON_CODES : list (string * string) :=
  [("CONFIRMED_FRAUD", "FRAUD"); ("ACCOUNT_TAKEOVER", "FRAUD"); ("FRIENDLY_FRAUD", "FRAUD");
   ("SAR_FILED", "FRAUD"); ("FALSE_POSITIVE", "LEGITIMATE"); ("CUSTOMER_CLEARED", "LEGITIMATE");
   ("INSUFFICIENT_EVIDENCE", "LEGITIMATE")].

Definition _TERMINAL : list string := ["resolved"; "closed"; "resolved_fraud"; "resolved_legit"; "sar_filed"].
Definition _DEFAULT_MC_STATUSES : list string := ["resolved_fraud"; "sar_filed"].
Definition _MC_PENDING_PREFIX : string := "mc_pending:".
Definition _MC_REQUESTER_PREFIX : string := "mc_requester:".
Definition _REASON_LABEL_PREFIX : string := "disposition:".

(** [s.split(",")] keeps empty parts; they are dropped by the comprehension. *)
Definition parse_maker_checker_statuses (raw : option string) : list string :=
  let token := strip (opt_str raw) in
  if negb (nonempty token) then _DEFAULT_MC_STATUSES
  else
    let out := filter_map (fun p => if nonempty (strip p) then Some (lower (strip p)) else None)
                 (split_on "," token) in
    match out with [] => _DEFAULT_MC_STATUSES | _ => out end.

Fixpoint reason_class (code : string) (m : list (string * string)) : option string :=
  match m with
  | [] => None
  | (k, v) :: m' => if bool_decide (code = k) then Some v else reason_class code m'
  end.

Definition normalize_reason_code (raw : option string) : result string :=
  let token := upper (strip (opt_str raw)) in
  if negb (nonempty token) then Ok EmptyString
  else match reason_class token DISPOSITION_REASON_CODES with
       | None => Err ValueError
       | Some _ => Ok token
       end.

(** [DISPOSITION_REASON_CODES[code]]. *)
Definition reason_lookup (code : string) : result string :=
  match reason_class code DISPOSITION_REASON_CODES with Some y => Ok y | None => Err KeyError end.

Definition y_label_class_for_reason (reason_code : string) : result string :=
  let! code := normalize_reason_code (Some reason_code) in reason_lookup code.

Definition is_terminal_status (status : option string) : bool := mem (lower (strip (opt_str status))) _TERMINAL.

(** [if not reason_code]. *)
Definition given (reason_code : option string) : bool := nonempty (opt_str reason_code).

Definition escalate_status_for_reason (status : string) (reason_code : option string) : result string :=
  let st := lower (strip status) in
  if negb (given reason_code) then Ok st
  else
    let! reason := normalize_reason_code reason_code in
    let! y := reason_lookup reason in
    Ok (if mem st ["resolved"; "closed"] && bool_decide (y = "FRAUD")
        then (if bool_decide (reason = "SAR_FILED") then "sar_filed" else "resolved_fraud")
        else if mem st ["resolved"; "closed"] && bool_decide (y = "LEGITIMATE")
        then (if bool_decide (st = "resolved") then "resolved_legit" else st)
        else st).

Definition is_mc_label (x : string) : bool :=
  startswith x _MC_PENDING_PREFIX || startswith x _MC_REQUESTER_PREFIX.

Definition _strip_mc_labels (labels : list string) : list string :=
  List.filter (fun x => negb (is_mc_label x)) labels.

(** The text after the prefix of the first label that has it. *)
Fixpoint first_suffix (prefix : string) (labels : list string) : option string :=
  match labels with
  | [] => None
  | s :: rest => if startswith s prefix then Some (str_drop (String.length prefix) s)
                 else first_suffix prefix rest
  end.

(** [x or None]. *)
Definition or_none (s : string) : option string := if nonempty s then Some s else None.

Definition pending_target_status (labels : list string) : option string :=
  match first_suffix _MC_PENDING_PREFIX labels with Some s => or_none (lower (strip s)) | None => None end.

Definition pending_requester (labels : list string) : option string :=
  match first_suffix _MC_REQUESTER_PREFIX labels with Some s => or_none (strip s) | None => None end.

Record MakerCheckerResult : Type := MCResult {
  status_applied : bool; pending : bool; target_status : option string; requester : option string;
  mc_labels : list string; mc_status : string; detail : string }.

Definition actor_of (actor : string) : string := str_or (strip actor) "anonymous".

(** The labels with the reason label replaced, when a reason is given. *)
Definition with_reason (clean : list string) (reason_code : option string) : result (list string) :=
  if given reason_code then
    let! code := normalize_reason_code reason_code in
    Ok (List.filter (fun x => negb (startswith x _REASON_LABEL_PREFIX)) clean
          ++ [_REASON_LABEL_PREFIX +:+ code])
  else Ok clean.

Definition apply_status_with_maker_checker (current_status : string) (current_labels : list string)
    (actor : string) (requested_status reason_code : option string) (approve : bool)
    (maker_statuses : list string) : result MakerCheckerResult :=
  let labels := current_labels in
  let actor_id := actor_of actor in
  if approve then
    match pending_target_status labels with
    | None => Err ValueError
    | Some target =>
        let req := pending_requester labels in
        if bool_decide (req = Some actor_id) then Err ValueError
        else
          let! clean := with_reason (_strip_mc_labels labels) reason_code in
          Ok (MCResult true false (Some target) req (sorted_set clean) target "approved")
    end
  else
    match requested_status with
    | None =>
        Ok (MCResult false (match pending_target_status labels with Some _ => true | None => false end)
              (pending_target_status labels) (pending_requester labels) labels current_status
              "no_status_change")
    | Some rs =>
        let! target := escalate_status_for_reason rs reason_code in
        let! clean := with_reason (_strip_mc_labels labels) reason_code in
        if mem target maker_statuses then
          Ok (MCResult false true (Some target) (Some actor_id)
                (sorted_set (clean ++ [_MC_PENDING_PREFIX +:+ target; _MC_REQUESTER_PREFIX +:+ actor_id]))
                current_status "pending_second_actor")
        else
          Ok (MCResult true false (Some target) None (sorted_set clean) target "applied")
    end.

(** ** The endpoints *)

(** The columns of a case these endpoints write. *)
Record case : Type := Case {
  c_status : string; c_labels : list string; c_priority : pyval; c_assigned_team : pyval; c_title : pyval }.

Definition set_if (body : dict) (field : string) (old : pyval) : pyval :=
  default old (dict_lookup field body).

(** PATCH /v1/cases/{id}: [Err ValueError] is the 409 answer, after which
    nothing is committed. *)
Definition update_case (maker_statuses : list string) (actor_id : string) (body : dict) (c : case)
    : result case :=
  let approve := truthy (get body "maker_checker_approve" PNone) in
  let reason_code := match get body "disposition_reason_code" PNone with
                     | PNone => None | v => Some (strip (py_str v)) end in
  let status_requested := match get body "status" PNone with PNone => None | v => Some (py_str v) end in
  let priority := set_if body "priority" c.(c_priority) in
  let team := set_if body "assigned_team" c.(c_assigned_team) in
  let title := set_if body "title" c.(c_title) in
  if approve || match status_requested with Some _ => true | None => false end || given reason_code then
    let! mc := apply_status_with_maker_checker c.(c_status) c.(c_labels) actor_id status_requested
                 reason_code approve maker_statuses in
    Ok (Case (if mc.(status_applied) then mc.(mc_status) else c.(c_status)) mc.(mc_labels)
          priority team title)
  else Ok (Case c.(c_status) c.(c_labels) priority team title).

(** POST /v1/cases/{id}/labels. *)
Definition apply_labels (body_labels : list string) (c : case) : case :=
  Case c.(c_status) (sorted_set (c.(c_labels) ++ body_labels)) c.(c_priority) c.(c_assigned_team) c.(c_title).

(** [apply_case_payload_to_case], as POST /v1/cases/bulk-update calls it. *)
Definition apply_case_payload_to_case (payload : dict) (c : case) : case :=
  let st := get payload "status" PNone in
  let pr := get payload "priority" PNone in
  Case (if truthy st then py_str st else c.(c_status))
    (match get payload "labels" PNone with
     | PList l => sorted_set (c.(c_labels)
                    ++ filter_map (fun x => if nonempty (strip (py_str x)) then Some (py_str x) else None) l)
     | _ => c.(c_labels)
     end)
    (if truthy pr then PStr (py_str pr) else c.(c_priority))
    (set_if payload "assigned_team" c.(c_assigned_team))
    c.(c_title).

(** The resolve action of POST /v1/entities/{entity_id}/act on the leftover's case. *)
Definition object_act_resolve (reason_code : option string) (c : case) : result case :=
  let! reason := normalize_reason_code reason_code in
  if negb (nonempty reason) then Err ValueError
  else
    let! st := escalate_status_for_reason "resolved" (Some reason) in
    Ok (Case st c.(c_labels) c.(c_priority) c.(c_assigned_team) c.(c_title)).

Definition maker_checker_public (labels : list string) (status : string) : dict :=
  let opt o := match o with Some s => PStr s | None => PNone end in
  [("pending", PBool (match pending_target_status labels with Some _ => true | None => false end));
   ("target_status", opt (pending_target_status labels));
   ("requester", opt (pending_requester labels));
   ("status", PStr status)].

(** * Lemmas *)

Lemma first_suffix_unique prefix labels t :
  (prefix +:+ t) ∈ labels ->
  (forall x, x ∈ labels -> startswith x prefix = true -> x = prefix +:+ t) ->
  first_suffix prefix labels = Some t.
Proof.
  intros Hin Hu. induction labels as [|s rest IH]; [by apply not_elem_of_nil in Hin|]. simpl.
  destruct (startswith s prefix) eqn:E.
  - rewrite (Hu s (list_elem_of_here _ _) E), drop_app. done.
  - apply IH; [|intros x Hx; apply Hu; by right].
    apply elem_of_cons in Hin as [Hx|Hin]; [|done]. subst s.
    unfold startswith in E. by rewrite prefix_app in E.
Qed.

Lemma first_suffix_none prefix labels :
  (forall x, x ∈ labels -> startswith x prefix = false) -> first_suffix prefix labels = None.
Proof.
  induction labels as [|s rest IH]; intros H; simpl; [done|].
  rewrite (H s (list_elem_of_here _ _)). apply IH. intros x Hx. apply H. by right.
Qed.

Lemma strip_mc_clean labels x : x ∈ _strip_mc_labels labels -> is_mc_label x = false.
Proof.
  unfold _strip_mc_labels. intros Hx. apply list_elem_of_In, List.filter_In in Hx as [_ Hx].
  by apply negb_true_iff in Hx.
Qed.

Lemma with_reason_clean clean reason out :
  (forall x, x ∈ clean -> is_mc_label x = false) -> with_reason clean reason = Ok out ->
  forall x, x ∈ out -> is_mc_label x = false.
Proof.
  intros Hc H x Hx. unfold with_reason in H. destruct (given reason); [|inv_ok; subst; auto].
  inv_ok. subst out. apply elem_of_app in Hx as [Hx|Hx].
  - apply list_elem_of_In, List.filter_In in Hx as [Hx _]. apply Hc. by apply list_elem_of_In.
  - apply list_elem_of_singleton in Hx as ->. reflexivity.
Qed.

Lemma clean_no_pending labels :
  (forall x, x ∈ labels -> is_mc_label x = false) ->
  pending_target_status (sorted_set labels) = None.
Proof.
  intros H. unfold pending_target_status. rewrite first_suffix_none; [done|].
  intros x Hx. rewrite sorted_set_elem in Hx. apply H in Hx. unfold is_mc_label in Hx.
  by apply orb_false_elim in Hx as [Hx _].
Qed.

Lemma lower_nonempty s : nonempty (lower s) = nonempty s.
Proof. by destruct s. Qed.

Lemma actor_of_stripped a : strip (actor_of a) = actor_of a.
Proof. unfold actor_of, str_or. destruct (nonempty (strip a)); [apply strip_idem|reflexivity]. Qed.

Lemma actor_of_nonempty a : nonempty (actor_of a) = true.
Proof. unfold actor_of, str_or. by destruct (nonempty (strip a)) eqn:E. Qed.

Lemma escalate_norm s r t :
  escalate_status_for_reason s r = Ok t -> lower (strip t) = t.
Proof.
  unfold escalate_status_for_reason. intros H. destruct (given r); cbn [negb] in H.
  - inv_ok. subst t. cases_if; try reflexivity; apply norm_idem.
  - injection H as <-. apply norm_idem.
Qed.

(** After a request the case shows exactly that request. *)
Lemma pending_after_request clean t a :
  (forall x, x ∈ clean -> is_mc_label x = false) -> lower (strip t) = t -> nonempty t = true ->
  let labels := sorted_set (clean ++ [_MC_PENDING_PREFIX +:+ t; _MC_REQUESTER_PREFIX +:+ actor_of a]) in
  pending_target_status labels = Some t /\ pending_requester labels = Some (actor_of a).
Proof.
  intros Hc Ht Hn labels.
  assert (Hin : forall x, x ∈ labels <->
            x ∈ clean \/ x = _MC_PENDING_PREFIX +:+ t \/ x = _MC_REQUESTER_PREFIX +:+ actor_of a).
  { intros x. unfold labels. rewrite sorted_set_elem, elem_of_app. set_solver. }
  unfold pending_target_status, pending_requester. split.
  - rewrite (first_suffix_unique _ _ t).
    + by rewrite Ht; unfold or_none; rewrite Hn.
    + apply Hin. auto.
    + intros x [Hx|[-> | ->]]%Hin Hp; [|done|discriminate].
      apply Hc in Hx. unfold is_mc_label in Hx. by rewrite Hp in Hx.
  - rewrite (first_suffix_unique _ _ (actor_of a)).
    + rewrite actor_of_stripped. unfold or_none. by rewrite actor_of_nonempty.
    + apply Hin. auto.
    + intros x [Hx|[-> | ->]]%Hin Hp; [|discriminate|done].
      apply Hc in Hx. unfold is_mc_label in Hx. rewrite Hp in Hx. by rewrite orb_true_r in Hx.
Qed.

Lemma parse_statuses_nonempty raw t : t ∈ parse_maker_checker_statuses raw -> nonempty t = true.
Proof.
  unfold parse_maker_checker_statuses.
  assert (Hd : t ∈ _DEFAULT_MC_STATUSES -> nonempty t = true).
  { intros H. apply list_elem_of_In in H. simpl in H. by destruct H as [<-|[<-|[]]]. }
  destruct (negb _); [done|]. set (out := filter_map _ _).
  assert (Ho : t ∈ out -> nonempty t = true).
  { unfold out. rewrite filter_map_elem. intros (p & _ & Hp).
    destruct (nonempty (strip p)) eqn:E; [|discriminate]. injection Hp as <-. by rewrite lower_nonempty. }
  by destruct out.
Qed.

(** ** Sequences of PATCH requests *)

Record patch : Type := Patch { p_actor : string; p_body : dict }.

(** What a PATCH asks for: the high-impact status it wants, if any. *)
Definition asks (ms : list string) (p : patch) : option string :=
  let reason := match get p.(p_body) "disposition_reason_code" PNone with
                | PNone => None | v => Some (strip (py_str v)) end in
  if truthy (get p.(p_body) "maker_checker_approve" PNone) then None
  else match get p.(p_body) "status" PNone with
       | PNone => None
       | v => match escalate_status_for_reason (py_str v) reason with
              | Ok t => if mem t ms then Some t else None
              | Err _ => None
              end
       end.

Definition patch_step (ms : list string) (c : case) (p : patch) : case :=
  match update_case ms p.(p_actor) p.(p_body) c with Ok c' => c' | Err _ => c end.

(** The pending request of the case was made by an earlier PATCH. *)
Definition mc_inv (ms : list string) (history : list patch) (c : case) : Prop :=
  forall t, pending_target_status c.(c_labels) = Some t ->
  exists q, q ∈ history /\ asks ms q = Some t
    /\ pending_requester c.(c_labels) = Some (actor_of q.(p_actor)).

Lemma mc_inv_mono ms h p c : mc_inv ms h c -> mc_inv ms (h ++ [p]) c.
Proof.
  intros H t Ht. destruct (H t Ht) as (q & Hq & ?). exists q. split; [|done]. apply elem_of_app. by left.
Qed.

Lemma mc_inv_none ms h c : pending_target_status c.(c_labels) = None -> mc_inv ms h c.
Proof. intros H t Ht. congruence. Qed.

Section safety.
Context (raw : option string).
Let ms := parse_maker_checker_statuses raw.

Lemma update_case_inv h c p c' :
  mc_inv ms h c -> update_case ms p.(p_actor) p.(p_body) c = Ok c' -> mc_inv ms (h ++ [p]) c'.
Proof.
  intros Hi H. unfold update_case in H.
  set (reason := match get (p_body p) "disposition_reason_code" PNone with PNone => None | v => _ end) in H.
  set (st := match get (p_body p) "status" PNone with PNone => None | v => _ end) in H.
  destruct (_ || _ || _) eqn:Ecall; [|injection H as <-; apply mc_inv_mono; exact Hi].
  inv_ok. subst c'. unfold apply_status_with_maker_checker in H0.
  destruct (truthy (get (p_body p) "maker_checker_approve" PNone)) eqn:Ea.
  - destruct (pending_target_status (c_labels c)) as [target|]; [|discriminate].
    destruct (bool_decide _); [discriminate|]. inv_ok. subst a.
    apply mc_inv_none. apply clean_no_pending.
    intros x Hx. eapply with_reason_clean; [apply strip_mc_clean|done|done].
  - destruct st as [rs|] eqn:Est; [|injection H0 as <-; apply mc_inv_mono; exact Hi].
    inv_ok. rename a0 into target, a1 into clean.
    assert (Hc : forall x, x ∈ clean -> is_mc_label x = false).
    { intros x Hx. eapply with_reason_clean; [apply strip_mc_clean|done|done]. }
    destruct (mem target ms) eqn:Em; inv_ok; subst a; [|by apply mc_inv_none, clean_no_pending].
    destruct (pending_after_request clean target (p_actor p)) as [Hp Hr];
      [done|by eapply escalate_norm|by eapply parse_statuses_nonempty, mem_spec|].
    intros t Ht. cbn [c_labels mc_labels] in *. rewrite Hp in Ht. injection Ht as <-.
    exists p. split; [apply elem_of_app; right; left|]. split; [|done].
    unfold asks. fold reason. rewrite Ea. unfold st in Est.
    destruct (get (p_body p) "status" PNone); simplify_eq; rewrite H; by rewrite Em.
Qed.

Lemma patches_inv h ps c : mc_inv ms h c -> mc_inv ms (h ++ ps) (foldl (patch_step ms) c ps).
Proof.
  revert h c. induction ps as [|p ps IH]; intros h c Hi; simpl; [by rewrite app_nil_r|].
  replace (h ++ p :: ps) with ((h ++ [p]) ++ ps) by (by rewrite <- (assoc_L (++))).
  apply IH. unfold patch_step. destruct (update_case ms (p_actor p) (p_body p) c) eqn:E.
  - by eapply update_case_inv.
  - by apply mc_inv_mono.
Qed.
End safety.

(** C15: four eyes on high-impact closes: starting from a case with no pending
    request, in any sequence of PATCH requests, whenever a PATCH moves the case
    into a status under maker-checker, an earlier PATCH by a different actor
    had asked for that very status. *)
Theorem maker_checker_four_eyes raw c0 ps p c' :
  let ms := parse_maker_checker_statuses raw in
  pending_target_status c0.(c_labels) = None ->
  update_case ms p.(p_actor) p.(p_body) (foldl (patch_step ms) c0 ps) = Ok c' ->
  c'.(c_status) ∈ ms -> c'.(c_status) <> (foldl (patch_step ms) c0 ps).(c_status) ->
  exists q, q ∈ ps /\ asks ms q = Some c'.(c_status) /\ actor_of q.(p_actor) <> actor_of p.(p_actor).
Proof.
  intros ms H0 H Hin Hne. set (c := foldl (patch_step ms) c0 ps) in *.
  assert (Hi : mc_inv ms ps c) by (apply (patches_inv raw []), mc_inv_none, H0).
  unfold update_case in H. destruct (_ || _ || _); [|by injection H as <-].
  inv_ok. subst c'. cbn [c_status] in *. unfold apply_status_with_maker_checker in H1.
  destruct (truthy _).
  - destruct (pending_target_status (c_labels c)) as [target|] eqn:Ep; [|discriminate].
    destruct (bool_decide_reflect (pending_requester (c_labels c) = Some (actor_of (p_actor p)))) as [|Hr];
      [discriminate|]. inv_ok. subst a. cbn in *.
    destruct (Hi target Ep) as (q & Hq & Ha & Hrq). exists q. split; [done|]. split; [done|]. congruence.
  - destruct (match get (p_body p) "status" PNone with PNone => None | v => _ end) as [rs|];
      [|injection H1 as <-; done]. inv_ok.
    destruct (mem a0 ms) eqn:Em; inv_ok; subst a; cbn in *; [done|].
    apply mem_false in Em. done.
Qed.

Definition open_case : case := Case "open" [] PNone PNone PNone.
Definition ask_fraud (who : string) : patch := Patch who [("status", PStr "resolved_fraud")].
Definition approve_by (who : string) : patch := Patch who [("maker_checker_approve", PBool true)].

Lemma maker_checker_four_eyes_witness :
  exists q, q ∈ [ask_fraud "alice"]
    /\ asks (parse_maker_checker_statuses None) q = Some "resolved_fraud"
    /\ actor_of q.(p_actor) <> actor_of "bob".
Proof.
  refine (maker_checker_four_eyes None open_case [ask_fraud "alice"] (approve_by "bob")
            (Case "resolved_fraud" [] PNone PNone PNone) _ _ _ _); vm_compute; [reflexivity|reflexivity| |congruence].
  left.
Defined.

(** The labels endpoint defeats the four-eyes rule: since the pending
    request lives in the case's labels and POST .../labels adds any label, one
    analyst can write a request in someone else's name and approve it alone,
    for every high-impact status and every case without pending labels. *)
Theorem forged_request_bypass raw who target c :
  let ms := parse_maker_checker_statuses raw in
  target ∈ ms -> lower (strip target) = target -> actor_of who <> "zz" ->
  (forall x, x ∈ c.(c_labels) -> is_mc_label x = false) ->
  exists c',
    update_case ms who [("maker_checker_approve", PBool true)]
      (apply_labels [_MC_PENDING_PREFIX +:+ target; _MC_REQUESTER_PREFIX +:+ "zz"] c) = Ok c'
    /\ c'.(c_status) = target.
Proof.
  intros ms Hin Ht Hw Hc.
  destruct (pending_after_request c.(c_labels) target "zz") as [Hp Hr];
    [done|done|by eapply parse_statuses_nonempty|].
  unfold update_case. change (truthy _) with true. cbn [orb].
  change (get [("maker_checker_approve", PBool true)] "disposition_reason_code" PNone) with PNone.
  change (get [("maker_checker_approve", PBool true)] "status" PNone) with PNone. cbv iota zeta.
  unfold apply_status_with_maker_checker. cbn [apply_labels c_labels c_status].
  change (actor_of "zz") with "zz" in *. rewrite Hp, Hr.
  rewrite bool_decide_eq_false_2 by congruence. cbn [with_reason given opt_str default nonempty rbind].
  eexists. split; [reflexivity|]. done.
Qed.

Lemma forged_request_bypass_witness :
  exists c', update_case (parse_maker_checker_statuses None) "mallory" [("maker_checker_approve", PBool true)]
      (apply_labels ["mc_pending:sar_filed"; "mc_requester:zz"] open_case) = Ok c'
    /\ c'.(c_status) = "sar_filed".
Proof.
  refine (forged_request_bypass None "mallory" "sar_filed" open_case _ _ _ _).
  - right. left.
  - reflexivity.
  - vm_compute. congruence.
  - intros x Hx. inversion Hx.
Defined.

(** Two more endpoints close a case without a second actor: a bulk update
    writes any status it is given, and the resolve action of the entity desk
    turns every fraud reason code into a status that the default maker-checker
    list covers, in one request. *)
Theorem single_actor_closes c target reason :
  target ∈ _DEFAULT_MC_STATUSES ->
  reason_class reason DISPOSITION_REASON_CODES = Some "FRAUD" ->
  c_status (apply_case_payload_to_case [("status", PStr target)] c) = target
  /\ exists c', object_act_resolve (Some reason) c = Ok c' /\ c'.(c_status) ∈ _DEFAULT_MC_STATUSES.
Proof.
  intros Hin Hr.
  assert (Hn : nonempty target = true).
  { apply list_elem_of_In in Hin. simpl in Hin. by destruct Hin as [<-|[<-|[]]]. }
  split.
  - unfold apply_case_payload_to_case. change (get _ "status" PNone) with (PStr target). cbn [truthy c_status]. by rewrite Hn.
  - unfold reason_class, DISPOSITION_REASON_CODES in Hr.
    repeat (case_bool_decide; [subst; first [discriminate Hr | eexists; split; [reflexivity|vm_compute; set_solver]]|]);
      discriminate.
Qed.

Lemma single_actor_closes_witness :
  exists c', object_act_resolve (Some "CONFIRMED_FRAUD") open_case = Ok c' /\ c'.(c_status) ∈ _DEFAULT_MC_STATUSES.
Proof.
  refine (proj2 (single_actor_closes open_case "resolved_fraud" "CONFIRMED_FRAUD" _ _)).
  - left.
  - reflexivity.
Defined.
