(* ===== verification/Workflow.v ===== *)
(** The case workflow engine and SLA clock: [case_api/workflow.py].

    A workflow file is a JSON object with triggers, conditions and actions.  The
    context accumulates [mutations] (a dict applied to the case afterwards) and
    the list of executed actions; both are explicit state here.  Labels are
    text, as the case model declares them; a label of another type is a
    [TypeError] here.  An SLA override is an [int] or absent, as the case model
    declares it. *)

From Stdlib Require Import ZArith Lia Ascii String Bool.
From stdpp Require Import base option list sorting strings gmap.
From S2P Require Import Prelude PyFloat PyValue PyDateTime RuleMatch.
Local Open Scope Z_scope.

(** ** Loading *)

Inductive workflow_file : Type :=
| WfDocument (v : pyval)
| WfUnreadable.

Definition wf_le (a b : string * workflow_file) : Prop := String.le a.1 b.1.
#[export] Instance wf_le_dec : RelDecision wf_le.
Proof. intros a b. unfold wf_le. apply _. Defined.

Fixpoint load_each (files : list (string * workflow_file)) : result (list dict) :=
  match files with
  | [] => Ok []
  | (_, WfUnreadable) :: rest => load_each rest
  | (_, WfDocument (PDict wf)) :: rest =>
      let! loaded := load_each rest in
      Ok (if truthy (get wf "enabled" (PBool true)) then wf :: loaded else loaded)
  | (_, WfDocument _) :: _ => Err AttributeError
  end.

(** [load_workflows]: [None] is a missing directory. *)
Definition load_workflows (dir : option (list (string * workflow_file))) : result (list dict) :=
  match dir with
  | None => Ok []
  | Some files => load_each (merge_sort wf_le files)
  end.

(** ** Conditions *)

Record WorkflowContext : Type := WfCtx {
  wc_trigger : string; wc_case : dict; wc_decision : dict;
  wc_actions : list dict; wc_mutations : dict }.

(** [x in container]. *)
Definition py_contains (x container : pyval) : result bool :=
  match container with
  | PList l => Ok (py_in x l)
  | PStr s => match x with PStr t => Ok (contains t s) | _ => Err TypeError end
  | PDict d => let! found := dict_get_any d x in Ok (match found with Some _ => true | None => false end)
  | _ => Err TypeError
  end.

(** [actual is not None and cmp(float(actual), float(value))]. *)
Definition float_cmp (cmp : float -> float -> bool) (actual value : pyval) : result bool :=
  match actual with
  | PNone => Ok false
  | _ => let! a := py_float actual in let! v := py_float value in Ok (cmp a v)
  end.

Definition _evaluate_condition (ctx : WorkflowContext) (cond : dict) : result bool :=
  let field := get cond "field" (PStr "") in
  let op := get cond "op" (PStr "eq") in
  let value := get cond "value" PNone in
  let! in_case := dict_get_any ctx.(wc_case) field in
  let! in_decision := dict_get_any ctx.(wc_decision) field in
  let actual := match in_case with Some v => v | None => default PNone in_decision end in
  if eq_str op "eq" then Ok (py_eq actual value)
  else if eq_str op "neq" then Ok (negb (py_eq actual value))
  else if eq_str op "gte" then float_cmp fgeb actual value
  else if eq_str op "lte" then float_cmp fleb actual value
  else if eq_str op "in" then py_contains actual (por value (PList []))
  else if eq_str op "contains" then
    match actual with
    | PList _ | PStr _ => py_contains value actual
    | _ => Ok false
    end
  else if eq_str op "has_tag" then
    py_contains value (por (get ctx.(wc_case) "labels" (PList [])) (get ctx.(wc_decision) "tags" (PList [])))
  else Ok false.

(** ** Actions *)

(** The elements of a set of labels. *)
Definition label_set (v : pyval) : result (list string) :=
  let! l := py_iter v in
  rmapM (fun x => match x with PStr s => Ok s | _ => Err TypeError end) l.

Definition mutate (k : string) (v : pyval) (ctx : WorkflowContext) : WorkflowContext :=
  WfCtx ctx.(wc_trigger) ctx.(wc_case) ctx.(wc_decision) ctx.(wc_actions)
    (dict_set k v ctx.(wc_mutations)).

Definition executed (a : dict) (ctx : WorkflowContext) : WorkflowContext :=
  WfCtx ctx.(wc_trigger) ctx.(wc_case) ctx.(wc_decision) (ctx.(wc_actions) ++ [a]) ctx.(wc_mutations).

(** [webhook url] is the outcome of the POST: [None] sent, [Some e] failed.
    [http] says whether a client was passed. *)
Definition _execute_action (http : bool) (webhook : string -> option string)
    (ctx : WorkflowContext) (action : dict) : result WorkflowContext :=
  let ty := get action "type" (PStr "") in
  if eq_str ty "assign_team" then
    Ok (executed [("type", PStr "assign_team"); ("team", get action "team" PNone)]
          (mutate "assigned_team" (get action "team" (PStr "default")) ctx))
  else if eq_str ty "set_priority" then
    Ok (executed [("type", PStr "set_priority"); ("priority", get action "priority" PNone)]
          (mutate "priority" (get action "priority" (PStr "high")) ctx))
  else if eq_str ty "add_label" then
    let! labels := label_set (por (get ctx.(wc_case) "labels" (PList [])) (PList [])) in
    let new_labels := get action "labels" (PList []) in
    let! new := label_set new_labels in
    Ok (executed [("type", PStr "add_label"); ("labels", new_labels)]
          (mutate "labels" (str_list (sorted_set (labels ++ new))) ctx))
  else if eq_str ty "escalate" then
    Ok (executed [("type", PStr "escalate")]
          (mutate "priority" (PStr "critical") (mutate "status" (PStr "escalated") ctx)))
  else if eq_str ty "add_comment" then
    let old := as_list (get ctx.(wc_mutations) "_comments" (PList [])) in
    let comment := PDict [("author", PStr "workflow-engine");
                          ("body", get action "message" (PStr "Auto-comment from workflow"))] in
    Ok (executed [("type", PStr "add_comment"); ("message", get action "message" PNone)]
          (mutate "_comments" (PList (old ++ [comment])) ctx))
  else if eq_str ty "send_webhook" then
    let url := get action "url" (PStr "") in
    if truthy url && http then
      Ok (executed (match webhook (py_str url) with
                    | None => [("type", PStr "send_webhook"); ("url", url); ("status", PStr "sent")]
                    | Some e => [("type", PStr "send_webhook"); ("url", url); ("status", PStr "failed");
                                 ("error", PStr e)]
                    end) ctx)
    else Ok ctx
  else Ok ctx.

(** ** Running the workflows of a trigger *)

Definition as_object (v : pyval) : result dict :=
  match v with PDict d => Ok d | _ => Err AttributeError end.

Fixpoint all_conditions (ctx : WorkflowContext) (conds : list pyval) : result bool :=
  match conds with
  | [] => Ok true
  | c :: rest =>
      let! d := as_object c in
      let! b := _evaluate_condition ctx d in
      if b then all_conditions ctx rest else Ok false
  end.

Fixpoint run_actions (http : bool) (webhook : string -> option string) (ctx : WorkflowContext)
    (actions : list pyval) : result WorkflowContext :=
  match actions with
  | [] => Ok ctx
  | a :: rest =>
      let! d := as_object a in
      let! ctx' := _execute_action http webhook ctx d in
      run_actions http webhook ctx' rest
  end.

Definition run_workflow (http : bool) (webhook : string -> option string) (ctx : WorkflowContext)
    (wf : dict) : result WorkflowContext :=
  let! fires := py_contains (PStr ctx.(wc_trigger)) (get wf "triggers" (PList [])) in
  if negb fires then Ok ctx
  else
    let conditions := get wf "conditions" (PList []) in
    let! holds := if truthy conditions
                  then let! l := py_iter conditions in all_conditions ctx l
                  else Ok true in
    if negb holds then Ok ctx
    else let! actions := py_iter (get wf "actions" (PList [])) in run_actions http webhook ctx actions.

Fixpoint run_workflows (http : bool) (webhook : string -> option string) (ctx : WorkflowContext)
    (wfs : list dict) : result WorkflowContext :=
  match wfs with
  | [] => Ok ctx
  | wf :: rest => let! ctx' := run_workflow http webhook ctx wf in run_workflows http webhook ctx' rest
  end.

Definition evaluate_workflows (http : bool) (webhook : string -> option string) (wfs : list dict)
    (trigger : string) (case : dict) (decision : option dict) : result WorkflowContext :=
  run_workflows http webhook (WfCtx trigger case (default [] decision) [] []) wfs.

(** ** SLA *)

Definition sla_hours (priority : string) : Z :=
  if bool_decide (priority = "critical") then 1
  else if bool_decide (priority = "high") then 4
  else if bool_decide (priority = "medium") then 24
  else if bool_decide (priority = "low") then 72
  else 24.

(** The hours a case has: a positive override, else its priority's. *)
Definition hours_for (priority : string) (override : option Z) : Z :=
  match override with
  | Some h => if 0 <? h then h else sla_hours priority
  | None => sla_hours priority
  end.

(** [now] is [datetime.now(UTC)], read when no time is passed. *)
Definition compute_sla_deadline (priority : string) (created_at : option datetime)
    (override : option Z) (now : datetime) : result datetime :=
  add_delta (assume_utc (default now created_at)) (hours_for priority override * hour_us).

Definition is_sla_breached_at (priority : string) (created_at : datetime) (override : option Z)
    (as_of : option datetime) (now : datetime) : result bool :=
  let! deadline := compute_sla_deadline priority (Some (assume_utc created_at)) override now in
  let ref := assume_utc (default now as_of) in
  Ok (instant deadline <? instant ref).

Definition is_sla_breached (priority : string) (created_at : datetime) (override : option Z)
    (now : datetime) : result bool :=
  is_sla_breached_at priority created_at override None now.

(** * Theorems *)

Lemma assume_utc_instant d : instant (assume_utc d) = instant d.
Proof. unfold assume_utc, instant. by destruct (dt_offset d) eqn:E; simpl; rewrite ?E. Qed.

Lemma assume_utc_wall d : dt_wall (assume_utc d) = dt_wall d.
Proof. unfold assume_utc. by destruct (dt_offset d). Qed.

Lemma hours_for_pos priority override : 0 < hours_for priority override.
Proof.
  unfold hours_for, sla_hours.
  destruct override as [h|]; [destruct (Z.ltb_spec 0 h); [done|]|]; cases_if; lia.
Qed.

(** The SLA clock is exact and one way: for a case created at a
    representable time, the check raises exactly when the deadline falls past
    the last representable year and otherwise answers whether the reference
    instant is after creation plus the case's hours; a case is never breached
    at creation, and once breached it stays breached. *)
Theorem sla_breach_spec priority created override as_of now :
  dt_min <= dt_wall created ->
  let due := hours_for priority override * hour_us in
  is_sla_breached_at priority created override (Some as_of) now
  = (if dt_wall created + due <=? dt_max
     then Ok (instant created + due <? instant as_of) else Err OverflowError)
  /\ is_sla_breached_at priority created override (Some created) now <> Ok true
  /\ (forall later, instant as_of <= instant later ->
        is_sla_breached_at priority created override (Some as_of) now = Ok true ->
        is_sla_breached_at priority created override (Some later) now = Ok true).
Proof.
  intros Hmin due.
  assert (Hdue : 0 < due) by (pose proof (hours_for_pos priority override); unfold due, hour_us; lia).
  assert (Hspec : forall r, is_sla_breached_at priority created override (Some r) now
    = (if dt_wall created + due <=? dt_max
       then Ok (instant created + due <? instant r) else Err OverflowError)).
  { intros r. unfold is_sla_breached_at, compute_sla_deadline, add_delta. cbn [default id].
    rewrite !assume_utc_wall. fold due.
    rewrite (proj2 (Z.leb_le dt_min _)) by lia. cbn [andb].
    destruct (dt_wall created + due <=? dt_max); [|done]. cbn [rbind].
    f_equal. rewrite assume_utc_instant. f_equal.
    unfold instant, assume_utc. destruct (dt_offset created) eqn:E; simpl; rewrite ?E; simpl; lia. }
  split; [apply Hspec|]. split.
  - rewrite Hspec. destruct (_ <=? dt_max); [|done]. intros H%Ok_inj%Z.ltb_lt. lia.
  - intros later Hl. rewrite !Hspec. destruct (_ <=? dt_max); [|done].
    intros H%Ok_inj%Z.ltb_lt. f_equal. apply Z.ltb_lt. lia.
Qed.

Lemma sla_breach_spec_witness :
  is_sla_breached_at "high" (DateTime 0 None) None (Some (DateTime 14400000001 (Some 0))) (DateTime 0 (Some 0))
  = Ok true.
Proof.
  rewrite (proj1 (sla_breach_spec "high" (DateTime 0 None) None (DateTime 14400000001 (Some 0)) (DateTime 0 (Some 0))
            ltac:(vm_compute; discriminate))).
  vm_compute. reflexivity.
Defined.

Lemma add_label_step http webhook ctx new old nl :
  get ctx.(wc_case) "labels" (PList []) = str_list old -> nl = str_list new ->
  _execute_action http webhook ctx [("type", PStr "add_label"); ("labels", nl)]
  = Ok (executed [("type", PStr "add_label"); ("labels", nl)]
          (mutate "labels" (str_list (sorted_set (old ++ new))) ctx)).
Proof.
  intros Ho ->. unfold _execute_action. change (get [_; _] "type" _) with (PStr "add_label").
  change (get [_; _] "labels" _) with (str_list new).
  assert (Hs : forall l, label_set (str_list l) = Ok l).
  { intros l. unfold label_set, str_list. cbn [py_iter rbind].
    induction l as [|x l IH]; simpl; [done|]. by rewrite IH. }
  assert (Hp : por (str_list old) (PList []) = str_list old) by (by destruct old).
  change (eq_str (PStr "add_label") "assign_team") with false.
  change (eq_str (PStr "add_label") "set_priority") with false.
  change (eq_str (PStr "add_label") "add_label") with true. cbv iota.
  rewrite Ho, Hp, !Hs. done.
Qed.

(** Two label actions for one trigger lose labels: each [add_label] starts
    from the case's stored labels, not from the labels an earlier action set,
    so after two of them the mutation holds the case's labels and the second
    action's labels only. *)
Theorem add_label_overwrites http webhook ctx old first second :
  get ctx.(wc_case) "labels" (PList []) = str_list old ->
  exists ctx',
    run_actions http webhook ctx
      [PDict [("type", PStr "add_label"); ("labels", str_list first)];
       PDict [("type", PStr "add_label"); ("labels", str_list second)]] = Ok ctx'
    /\ get ctx'.(wc_mutations) "labels" PNone = str_list (sorted_set (old ++ second)).
Proof.
  intros Ho. cbn [run_actions as_object rbind].
  rewrite (add_label_step http webhook ctx first old) by done. cbn [rbind].
  rewrite (add_label_step http webhook _ second old) by done. cbn [rbind].
  eexists. split; [done|]. cbn [executed mutate wc_mutations]. apply get_set_eq.
Qed.

Lemma add_label_overwrites_witness :
  exists ctx',
    run_actions false (fun _ => None) (WfCtx "case_created" [("labels", str_list ["vip"])] [] [] [])
      [PDict [("type", PStr "add_label"); ("labels", str_list ["a"])];
       PDict [("type", PStr "add_label"); ("labels", str_list ["b"])]] = Ok ctx'
    /\ get ctx'.(wc_mutations) "labels" PNone = str_list (sorted_set (["vip"] ++ ["b"])).
Proof.
  apply (add_label_overwrites false (fun _ => None) (WfCtx "case_created" [("labels", str_list ["vip"])] [] [] [])
           ["vip"] ["a"] ["b"]). reflexivity.
Defined.

(** Workflows do not rewrite the case they judge: whatever runs, the
    conditions of every workflow read the case and decision the trigger was
    fired with, and a run in which no workflow lists the trigger changes
    nothing. *)
Theorem workflows_read_original http webhook ctx wfs ctx' :
  run_workflows http webhook ctx wfs = Ok ctx' ->
  ctx'.(wc_case) = ctx.(wc_case) /\ ctx'.(wc_decision) = ctx.(wc_decision) /\ ctx'.(wc_trigger) = ctx.(wc_trigger)
  /\ (Forall (fun wf => py_contains (PStr ctx.(wc_trigger)) (get wf "triggers" (PList [])) = Ok false) wfs ->
      ctx' = ctx).
Proof.
  assert (Ha : forall c a c', _execute_action http webhook c a = Ok c' ->
     wc_case c' = wc_case c /\ wc_decision c' = wc_decision c /\ wc_trigger c' = wc_trigger c).
  { intros c a c' H. unfold _execute_action in H.
    repeat match type of H with
    | (if ?b then _ else _) = _ => destruct b
    | rbind _ _ = _ => inv_ok
    end; inv_ok; subst; done. }
  assert (Hr : forall l c c', run_actions http webhook c l = Ok c' ->
     wc_case c' = wc_case c /\ wc_decision c' = wc_decision c /\ wc_trigger c' = wc_trigger c).
  { induction l as [|a l IH]; intros c c' H; simpl in H; [by injection H as <-|]. inv_ok.
    apply IH in H as (F1 & F2 & F3).
    match goal with E : _execute_action _ _ _ _ = Ok _ |- _ => apply Ha in E as (G1 & G2 & G3) end.
    split; [congruence|]. split; congruence. }
  revert ctx. induction wfs as [|wf wfs IH]; intros ctx H; simpl in H; [by injection H as <-|]. inv_ok.
  assert (Hw : wc_case a = wc_case ctx /\ wc_decision a = wc_decision ctx /\ wc_trigger a = wc_trigger ctx
               /\ (py_contains (PStr (wc_trigger ctx)) (get wf "triggers" (PList [])) = Ok false -> a = ctx)).
  { unfold run_workflow in H0. inv_ok. destruct a0; cbn [negb] in H0; [|by injection H0 as <-]. inv_ok.
    destruct a0; cbn [negb] in H0; [|injection H0 as <-; done]. inv_ok.
    apply Hr in H0 as (? & ? & ?). split; [done|]. split; [done|]. split; [done|]. congruence. }
  destruct Hw as (W1 & W2 & W3 & W4). apply IH in H as (E1 & E2 & E3 & E4).
  split; [congruence|]. split; [congruence|]. split; [congruence|].
  intros [Hf Hall]%Forall_cons. pose proof (W4 Hf) as ->. by apply E4.
Qed.

Lemma workflows_read_original_witness :
  exists ctx', run_workflows false (fun _ => None) (WfCtx "case_created" [("priority", PStr "low")] [] [] [])
    [[("triggers", PList [PStr "case_created"]); ("actions", PList [PDict [("type", PStr "escalate")]])]] = Ok ctx'
  /\ ctx'.(wc_case) = [("priority", PStr "low")].
Proof.
  eexists. split; [vm_compute; reflexivity|].
  refine (proj1 (workflows_read_original false (fun _ => None)
     (WfCtx "case_created" [("priority", PStr "low")] [] [] [])
     [[("triggers", PList [PStr "case_created"]); ("actions", PList [PDict [("type", PStr "escalate")]])]] _ _)).
  vm_compute. reflexivity.
Defined.
