(* ===== verification/UnionFind.v ===== *)
(** The disjoint-set forest of ring scoring: class [_UF] of
    [decision_api/ring_score.py].

    The dictionaries [p] (parents) and [r] (ranks) are finite maps; [order] is
    the insertion order of [p]'s keys, which [components] iterates in.  [find]
    halves paths as it walks, so it returns the forest it leaves; its [while]
    loop runs on fuel, one step per key, and the theorems show that this is
    enough and that no lookup ever fails. *)

From Stdlib Require Import Arith Lia String Bool.
From stdpp Require Import base option list strings gmap relations.
From S2P Require Import Prelude.

Module Forest.

Record _UF : Type := UF { order : list string; p : gmap string string; r : gmap string nat }.

Definition empty_uf : _UF := UF [] ∅ ∅.

Definition key {A : Type} (m : gmap string A) (x : string) : result A :=
  match m !! x with Some v => Ok v | None => Err KeyError end.

Definition add (u : _UF) (x : string) : _UF :=
  match u.(p) !! x with
  | Some _ => u
  | None => UF (u.(order) ++ [x]) (<[x := x]> u.(p)) (<[x := 0]> u.(r))
  end.

(** [self.p[x] = y] for a key [x] already present. *)
Definition set_parent (u : _UF) (x y : string) : _UF := UF u.(order) (<[x := y]> u.(p)) u.(r).

Fixpoint find_loop (fuel : nat) (u : _UF) (x : string) : result (string * _UF) :=
  match fuel with
  | O => Err (OtherError "fuel")
  | S fuel' =>
      let! px := key u.(p) x in
      if bool_decide (px = x) then Ok (x, u)
      else
        let! g := key u.(p) px in
        find_loop fuel' (set_parent u x g) g
  end.

Definition find (u : _UF) (x : string) : result (string * _UF) :=
  let u := add u x in find_loop (S (length u.(order))) u x.

Definition union (u : _UF) (a b : string) : result _UF :=
  let! fa := find u a in
  let '(ra, u) := fa in
  let! fb := find u b in
  let '(rb, u) := fb in
  if bool_decide (ra = rb) then Ok u
  else
    let! na := key u.(r) ra in
    let! nb := key u.(r) rb in
    let '(ra, rb, na, nb) := if na <? nb then (rb, ra, nb, na) else (ra, rb, na, nb) in
    let u := set_parent u rb ra in
    Ok (if na =? nb then UF u.(order) u.(p) (<[ra := S na]> u.(r)) else u).

(** [groups.setdefault(root, []).append(x)]. *)
Fixpoint group_add (root x : string) (groups : list (string * list string)) : list (string * list string) :=
  match groups with
  | [] => [(root, [x])]
  | (k, xs) :: rest => if bool_decide (k = root) then (k, xs ++ [x]) :: rest else (k, xs) :: group_add root x rest
  end.

Fixpoint group_all (u : _UF) (xs : list string) (groups : list (string * list string))
    : result (list (string * list string) * _UF) :=
  match xs with
  | [] => Ok (groups, u)
  | x :: xs' =>
      let! f := find u x in
      let '(root, u) := f in
      group_all u xs' (group_add root x groups)
  end.

Definition components (u : _UF) : result (list (string * list string) * _UF) := group_all u u.(order) [].

(** The calls [compute_ring_score] makes: every node added, every edge joined. *)
Fixpoint union_all (u : _UF) (edges : list (string * string)) : result _UF :=
  match edges with
  | [] => Ok u
  | (a, b) :: rest => let! u := union u a b in union_all u rest
  end.

Definition build (nodes : list string) (edges : list (string * string)) : result _UF :=
  union_all (foldl add empty_uf nodes) edges.

(** * Invariant and abstraction *)

Definition rank (u : _UF) (x : string) : nat := default 0 (u.(r) !! x).

(** Keys agree, parents are keys, and ranks grow strictly towards the roots. *)
Record wf (u : _UF) : Prop := {
  wf_nodup : NoDup u.(order);
  wf_keys x : x ∈ u.(order) <-> is_Some (u.(p) !! x);
  wf_ranks x : x ∈ u.(order) <-> is_Some (u.(r) !! x);
  wf_closed x y : u.(p) !! x = Some y -> y ∈ u.(order);
  wf_up x y : u.(p) !! x = Some y -> x = y \/ rank u x < rank u y }.

(** [root u x s]: following parents from [x] ends in [s]. *)
Inductive root (u : _UF) : string -> string -> Prop :=
| root_here x : u.(p) !! x = Some x -> root u x x
| root_step x y s : u.(p) !! x = Some y -> x <> y -> root u y s -> root u x s.

Definition same (u : _UF) (x y : string) : Prop := exists s, root u x s /\ root u y s.

Lemma root_unique u x s t : root u x s -> root u x t -> s = t.
Proof.
  intros H. revert t. induction H as [x Hx|x y s Hx Hne H IH]; intros t Ht; inversion Ht; subst; try congruence.
  apply IH. congruence.
Qed.

Lemma root_key u x s : root u x s -> is_Some (u.(p) !! x).
Proof. destruct 1; eauto. Qed.

Lemma root_fix u x s : root u x s -> u.(p) !! s = Some s.
Proof. induction 1; done. Qed.

(** The keys above [x]: the walk from [x] can only visit these. *)
Definition above (u : _UF) (x : string) : nat :=
  length (List.filter (fun k => rank u x <? rank u k) u.(order)).

Lemma filter_len_le {A} (f g : A -> bool) l :
  (forall x, f x = true -> g x = true) -> length (List.filter f l) <= length (List.filter g l).
Proof.
  intros H. induction l as [|x l IH]; simpl; [lia|].
  destruct (f x) eqn:Ef; [rewrite (H x Ef); simpl; lia|]. destruct (g x); simpl; lia.
Qed.

Lemma filter_len_lt {A} (f g : A -> bool) l y :
  (forall x, f x = true -> g x = true) -> In y l -> f y = false -> g y = true ->
  length (List.filter f l) < length (List.filter g l).
Proof.
  intros H Hy Hf Hg. induction l as [|x l IH]; [done|]. destruct Hy as [-> |Hy]; simpl.
  - rewrite Hf, Hg. pose proof (filter_len_le f g l H). simpl. lia.
  - specialize (IH Hy). destruct (f x) eqn:Ef; [rewrite (H x Ef); simpl; lia|]. destruct (g x); simpl; lia.
Qed.

Lemma above_lt u x y : y ∈ u.(order) -> rank u x < rank u y -> above u y < above u x.
Proof.
  intros Hy Hr. apply (filter_len_lt _ _ _ y).
  - intros k Hk%Nat.ltb_lt. apply Nat.ltb_lt. lia.
  - by apply list_elem_of_In.
  - apply Nat.ltb_irrefl.
  - by apply Nat.ltb_lt.
Qed.

Lemma above_bound u x : above u x <= length u.(order).
Proof. unfold above. induction (order u) as [|k l IH]; simpl; [lia|]. destruct (_ <? _); simpl; lia. Qed.

Lemma root_total u x : wf u -> x ∈ u.(order) -> exists s, root u x s.
Proof.
  intros Hw. remember (above u x) as n eqn:En. revert x En.
  induction n as [n IH] using lt_wf_ind. intros x -> Hx.
  destruct (proj1 (wf_keys u Hw x) Hx) as [y Hy].
  destruct (wf_up u Hw x y Hy) as [-> |Hlt]; [eexists; by apply root_here|].
  destruct (IH (above u y)) with (x := y) as [s Hs]; [|done|by apply (wf_closed u Hw x)|].
  - apply above_lt; [by apply (wf_closed u Hw x)|done].
  - exists s. eapply root_step; [done| |done]. intros ->. lia.
Qed.

(** * Halving a path *)

Lemma key_Ok {A} (m : gmap string A) x v : m !! x = Some v -> key m x = Ok v.
Proof. unfold key. by intros ->. Qed.

(** Two forests over the same keys in which roots only carry over agree. *)
Lemma root_iff u v :
  wf u -> (forall x, is_Some (v.(p) !! x) -> is_Some (u.(p) !! x)) ->
  (forall x s, root u x s -> root v x s) -> forall x s, root v x s <-> root u x s.
Proof.
  intros Hw Hd H x s. split; [|apply H]. intros Hv.
  destruct (root_total u x Hw) as [t Ht]; [apply wf_keys, Hd, (root_key v x s Hv); done|].
  by rewrite (root_unique v x s t Hv (H x t Ht)).
Qed.

Section halve.
Context (u : _UF) (Hw : wf u) (x px g : string).
Context (Hx : u.(p) !! x = Some px) (Hne : px <> x) (Hg : u.(p) !! px = Some g).

Lemma halve_up : rank u x < rank u g.
Proof.
  destruct (wf_up u Hw _ _ Hx) as [-> |H1]; [done|]. destruct (wf_up u Hw _ _ Hg) as [-> |H2]; lia.
Qed.

Lemma halve_lookup y : p (set_parent u x g) !! y = if decide (y = x) then Some g else u.(p) !! y.
Proof. simpl. case_decide; subst; [by rewrite lookup_insert_eq|by rewrite lookup_insert_ne]. Qed.

Lemma halve_some y : is_Some (p (set_parent u x g) !! y) <-> is_Some (u.(p) !! y).
Proof. rewrite halve_lookup. case_decide; [|done]. subst. rewrite Hx. split; eauto. Qed.

Lemma halve_wf : wf (set_parent u x g).
Proof.
  split.
  - apply (wf_nodup u Hw).
  - intros y. rewrite halve_some. apply (wf_keys u Hw).
  - intros y. apply (wf_ranks u Hw).
  - intros y z. rewrite halve_lookup. case_decide; [|apply (wf_closed u Hw)].
    intros [= <-]. by apply (wf_closed u Hw px).
  - intros y z. rewrite halve_lookup. case_decide; [|apply (wf_up u Hw)].
    intros [= <-]. subst. right. apply halve_up.
Qed.

Lemma halve_root y s : root (set_parent u x g) y s <-> root u y s.
Proof.
  apply root_iff; [done|intros z; apply halve_some|]. clear y s. intros y s H.
  induction H as [y Hy|y z s Hy Hyz H IH].
  - apply root_here. rewrite halve_lookup. case_decide; [|done]. subst. congruence.
  - destruct (decide (y = x)) as [-> |Hyx].
    + assert (z = px) as -> by congruence. pose proof halve_up.
      apply root_step with g; [rewrite halve_lookup; by case_decide|intros ->; lia|].
      inversion IH as [? Hp|? z' ? Hp Hz' Hr]; subst; rewrite halve_lookup in Hp; case_decide; try done.
      * assert (g = s) as -> by congruence. done.
      * by assert (g = z') as -> by congruence.
    + apply root_step with z; [rewrite halve_lookup; by case_decide|done|done].
Qed.
End halve.

(** What a call that only moves nodes up within their trees leaves. *)
Definition refines (u v : _UF) : Prop :=
  wf v /\ v.(order) = u.(order) /\ v.(r) = u.(r) /\ forall y s, root v y s <-> root u y s.

Lemma refines_trans u v w : refines u v -> refines v w -> refines u w.
Proof.
  intros (_ & O1 & R1 & S1) (W2 & O2 & R2 & S2). split; [done|]. split; [congruence|]. split; [congruence|].
  intros y s. by rewrite S2.
Qed.

Lemma find_loop_spec fuel u x :
  wf u -> x ∈ u.(order) -> above u x < fuel ->
  exists s v, find_loop fuel u x = Ok (s, v) /\ root u x s /\ refines u v.
Proof.
  revert u x. induction fuel as [|fuel IH]; intros u x Hw Hx Hf; [lia|].
  destruct (proj1 (wf_keys u Hw x) Hx) as [px Hpx]. simpl. rewrite (key_Ok _ _ _ Hpx). cbn [rbind].
  destruct (bool_decide_reflect (px = x)) as [-> |Hne].
  { exists x, u. split; [done|]. split; [by apply root_here|]. by split. }
  assert (Hpo : px ∈ u.(order)) by (by apply (wf_closed u Hw x)).
  destruct (proj1 (wf_keys u Hw px) Hpo) as [g Hg]. rewrite (key_Ok _ _ _ Hg). cbn [rbind].
  assert (Hgo : g ∈ u.(order)) by (by apply (wf_closed u Hw px)).
  destruct (IH (set_parent u x g) g) as (s & v & Hl & Hs & Hv).
  - by apply (halve_wf u Hw x px).
  - done.
  - assert (above u g < above u x) by (apply above_lt; [done|by apply (halve_up u Hw x px)]).
    change (above (set_parent u x g) g) with (above u g). lia.
  - rewrite (halve_root u Hw x px g Hpx Hne Hg) in Hs. exists s, v. split; [done|]. split.
    + apply root_step with px; [done|congruence|].
      destruct (decide (px = g)) as [-> |]; [done|]. by apply root_step with g.
    + eapply refines_trans; [|exact Hv]. split; [by apply (halve_wf u Hw x px)|]. split; [done|]. split; [done|].
      apply (halve_root u Hw x px g Hpx Hne Hg).
Qed.

Lemma add_present u x : wf u -> x ∈ u.(order) -> add u x = u.
Proof. intros Hw [y Hy]%(wf_keys u Hw). unfold add. by rewrite Hy. Qed.

Lemma find_spec u x :
  wf u -> x ∈ u.(order) -> exists s v, find u x = Ok (s, v) /\ root u x s /\ refines u v.
Proof.
  intros Hw Hx. unfold find. rewrite add_present by done. apply find_loop_spec; [done|done|].
  pose proof (above_bound u x). lia.
Qed.

(** * Adding and joining *)

Lemma empty_wf : wf empty_uf.
Proof.
  split; simpl; try (intros; rewrite lookup_empty in *; done); [constructor| |].
  - intros x. rewrite lookup_empty. split; [by intros ?%not_elem_of_nil|by intros [? ?]].
  - intros x. rewrite lookup_empty. split; [by intros ?%not_elem_of_nil|by intros [? ?]].
Qed.

Lemma add_wf u x : wf u -> wf (add u x).
Proof.
  intros Hw. unfold add. destruct (p u !! x) as [y|] eqn:E; [done|].
  assert (Hn : x ∉ order u) by (rewrite (wf_keys u Hw), E; by intros [? ?]).
  assert (Hrk : forall z, z ∈ order u -> rank (UF (order u ++ [x]) (<[x:=x]> (p u)) (<[x:=0]> (r u))) z = rank u z).
  { intros z Hz. unfold rank. simpl. rewrite lookup_insert_ne; [done|]. by intros ->. }
  split; simpl.
  - apply NoDup_app. split; [apply (wf_nodup u Hw)|]. split; [|apply NoDup_singleton].
    intros z Hz ->%list_elem_of_singleton. done.
  - intros z. rewrite elem_of_app, list_elem_of_singleton, lookup_insert_is_Some', (wf_keys u Hw). split; intros [?|?]; auto.
  - intros z. rewrite elem_of_app, list_elem_of_singleton, lookup_insert_is_Some', (wf_ranks u Hw). split; intros [?|?]; auto.
  - intros z y Hz. rewrite elem_of_app, list_elem_of_singleton. apply lookup_insert_Some in Hz as [[-> ->]|[_ Hz]];
      [by right|left; by apply (wf_closed u Hw z)].
  - intros z y Hz. apply lookup_insert_Some in Hz as [[-> ->]|[_ Hz]]; [by left|].
    rewrite !Hrk; [by apply (wf_up u Hw)|by apply (wf_closed u Hw z)|apply (wf_keys u Hw); eauto].
Qed.

Lemma add_order u x y : wf u -> y ∈ order (add u x) <-> y ∈ order u \/ y = x.
Proof.
  intros Hw. unfold add. destruct (p u !! x) as [z|] eqn:E; simpl.
  - assert (x ∈ order u) by (apply (wf_keys u Hw); eauto).
    split; [by left|]. by intros [?| -> ].
  - rewrite elem_of_app, list_elem_of_singleton. done.
Qed.

(** Every key is its own parent. *)
Definition discrete (u : _UF) : Prop := forall x y, p u !! x = Some y -> y = x.

Lemma add_discrete u x : discrete u -> discrete (add u x).
Proof.
  intros Hd. unfold add. destruct (p u !! x) as [z|] eqn:E; [done|]. intros a b. simpl.
  intros [[-> ->]|[_ H]]%lookup_insert_Some; [done|by apply Hd].
Qed.

Lemma add_all nodes u :
  wf u -> discrete u ->
  wf (foldl add u nodes) /\ discrete (foldl add u nodes)
  /\ forall y, y ∈ order (foldl add u nodes) <-> y ∈ order u \/ y ∈ nodes.
Proof.
  revert u. induction nodes as [|x nodes IH]; intros u Hw Hd; simpl.
  - split; [done|]. split; [done|]. intros y. rewrite elem_of_nil. tauto.
  - destruct (IH (add u x)) as (W & D & O); [by apply add_wf|by apply add_discrete|].
    split; [done|]. split; [done|]. intros y. rewrite O, add_order, elem_of_cons by done. tauto.
Qed.

Lemma discrete_same u x y : wf u -> discrete u -> x ∈ order u -> same u x y <-> x = y.
Proof.
  intros Hw Hd Hx.
  assert (Hr : forall z s, root u z s -> z = s).
  { intros z s H. destruct H as [|z y' s H Hne _]; [done|]. by apply Hd in H. }
  split; [intros (s & ->%Hr & ->%Hr); done|]. intros <-. destruct (root_total u x Hw Hx) as [s Hs]. by exists s.
Qed.

Section attach.
(** Hanging the root [b] under the root [a]; [bump] is the rank update. *)
Context (u : _UF) (Hw : wf u) (a b : string) (rk' : gmap string nat).
Context (Ha : p u !! a = Some a) (Hb : p u !! b = Some b) (Hab : a <> b).
Let v := UF (order u) (<[b := a]> (p u)) rk'.
Context (Hrk : forall x, is_Some (rk' !! x) <-> is_Some (r u !! x)).
Context (Hsame : forall x, x <> a -> rank v x = rank u x) (Hup : rank u a <= rank v a) (Hlt : rank u b < rank v a).

Lemma attach_wf : wf v.
Proof.
  assert (Hao : a ∈ order u) by (apply (wf_keys u Hw); eauto). split.
  - apply (wf_nodup u Hw).
  - intros x. simpl. rewrite lookup_insert_is_Some', (wf_keys u Hw).
    split; [by right|]. intros [<- |?]; [by rewrite Hb|done].
  - intros x. simpl. rewrite Hrk. apply (wf_ranks u Hw).
  - intros x y. simpl. intros [[<- <-]|[_ H]]%lookup_insert_Some; [done|by apply (wf_closed u Hw x)].
  - intros x y. simpl. intros [[<- <-]|[Hne H]]%lookup_insert_Some.
    + right. rewrite (Hsame b) by done. done.
    + destruct (wf_up u Hw x y H) as [-> |Hxy]; [by left|]. right.
      destruct (decide (x = a)) as [-> |Hxa]; [assert (y = a) as -> by congruence; lia|].
      rewrite (Hsame x) by done. destruct (decide (y = a)) as [-> |Hya]; [lia|]. by rewrite Hsame.
Qed.

Lemma attach_root_moved x s : root u x s -> root v x (if decide (s = b) then a else s).
Proof using Ha Hb Hab.
  induction 1 as [x Hx|x y s Hx Hne H IH].
  - case_decide as E; [subst x|apply root_here; simpl; by rewrite lookup_insert_ne].
    apply root_step with a; [simpl; by rewrite lookup_insert_eq|done|].
    apply root_here. simpl. by rewrite lookup_insert_ne.
  - apply root_step with y; [|done|done]. simpl. rewrite lookup_insert_ne; [done|]. intros <-. congruence.
Qed.

Lemma attach_same x y : x ∈ order u -> y ∈ order u ->
  same v x y <-> same u x y \/ (same u x a /\ same u y b) \/ (same u x b /\ same u y a).
Proof using Hw Ha Hb Hab.
  clear Hrk Hsame Hup Hlt. intros Hx Hy. destruct (root_total u x Hw Hx) as [s Hs], (root_total u y Hw Hy) as [t Ht].
  assert (Hra : root u a a) by (by apply root_here). assert (Hrb : root u b b) by (by apply root_here).
  assert (Hsu : forall z w s t, root u z s -> root u w t -> same u z w <-> s = t).
  { intros z w s0 t0 H1 H2. split; [|intros <-; by exists s0].
    intros (q & Q1 & Q2). rewrite (root_unique u z s0 q H1 Q1). by apply (root_unique u w). }
  rewrite (Hsu x y s t), (Hsu x a s a), (Hsu y b t b), (Hsu x b s b), (Hsu y a t a) by done.
  pose proof (attach_root_moved x s Hs) as Vx. pose proof (attach_root_moved y t Ht) as Vy.
  split.
  - intros (q & Q1 & Q2). pose proof (root_unique v _ _ _ Q1 Vx). pose proof (root_unique v _ _ _ Q2 Vy).
    repeat case_decide; subst; auto; congruence.
  - intros H. exists (if decide (s = b) then a else s). split; [done|].
    destruct H as [-> |[[-> ->]|[-> ->]]]; [done| |].
    + rewrite decide_False by done. by rewrite decide_True in Vy.
    + rewrite decide_True by done. by rewrite decide_False in Vy.
Qed.
End attach.

Lemma refines_same u v x y : refines u v -> same v x y <-> same u x y.
Proof. intros (_ & _ & _ & S). unfold same. by setoid_rewrite S. Qed.

Lemma same_sym u x y : same u x y -> same u y x.
Proof. intros (s & H1 & H2). by exists s. Qed.

Lemma same_trans u x y z : same u x y -> same u y z -> same u x z.
Proof. intros (s & H1 & H2) (t & H3 & H4). rewrite (root_unique u y t s H3 H2) in H4. by exists s. Qed.

Lemma same_to_root u x a s : root u a s -> same u x s <-> same u x a.
Proof.
  intros H. assert (same u a s) by (exists s; split; [done|]; apply root_here, (root_fix u a), H).
  split; intros Hx; eapply same_trans; eauto using same_sym.
Qed.

Lemma rank_key u x : wf u -> x ∈ order u -> key (r u) x = Ok (rank u x).
Proof. intros Hw [n Hn]%(wf_ranks u Hw). unfold key, rank. by rewrite Hn. Qed.

(** The last three lines of [union]: [b] goes under [a], whose rank is not lower. *)
Lemma hang_spec u a b :
  wf u -> p u !! a = Some a -> p u !! b = Some b -> a <> b -> rank u b <= rank u a ->
  let w := set_parent u b a in
  let v := if rank u a =? rank u b then UF (order w) (p w) (<[a := S (rank u a)]> (r w)) else w in
  wf v /\ order v = order u /\ forall x y, x ∈ order u -> y ∈ order u ->
    same v x y <-> same u x y \/ (same u x a /\ same u y b) \/ (same u x b /\ same u y a).
Proof.
  intros Hw Ha Hb Hab Hle w v.
  assert (Hao : is_Some (r u !! a)) by (apply (wf_ranks u Hw), (wf_keys u Hw); eauto).
  destruct (Nat.eqb_spec (rank u a) (rank u b)) as [E|E]; subst v.
  - assert (Hself : rank (UF (order w) (p w) (<[a:=S (rank u a)]> (r w))) a = S (rank u a))
      by (unfold rank at 1; simpl; by rewrite lookup_insert_eq).
    assert (Hoth : forall x, x <> a -> rank (UF (order w) (p w) (<[a:=S (rank u a)]> (r w))) x = rank u x)
      by (intros x Hx; unfold rank at 1; simpl; by rewrite lookup_insert_ne).
    split; [|split; [done|]].
    + apply (attach_wf u Hw a b (<[a:=S (rank u a)]> (r u))); try done;
        [|change (rank u a <= rank (UF (order w) (p w) (<[a:=S (rank u a)]> (r w))) a); lia
         |change (rank u b < rank (UF (order w) (p w) (<[a:=S (rank u a)]> (r w))) a); lia].
      intros x. rewrite lookup_insert_is_Some'. split; [|by right].
      intros [<- | ?]; done.
    + exact (attach_same u Hw a b (<[a:=S (rank u a)]> (r u)) Ha Hb Hab).
  - split; [|split; [done|]].
    + apply (attach_wf u Hw a b (r u)); try done. change (rank u b < rank u a). lia.
    + exact (attach_same u Hw a b (r u) Ha Hb Hab).
Qed.

Lemma union_spec u a b :
  wf u -> a ∈ order u -> b ∈ order u ->
  exists v, union u a b = Ok v /\ wf v /\ order v = order u /\ forall x y, x ∈ order u -> y ∈ order u ->
    same v x y <-> same u x y \/ (same u x a /\ same u y b) \/ (same u x b /\ same u y a).
Proof.
  intros Hw Ha Hb. destruct (find_spec u a Hw Ha) as (ra & u1 & F1 & R1 & V1).
  destruct (find_spec u1 b) as (rb & u2 & F2 & R2 & V2); [apply V1|by destruct V1 as (_ & -> & _)|].
  apply V1 in R2. pose proof (refines_trans _ _ _ V1 V2) as V. pose proof V as (W2 & O2 & _ & S2).
  unfold union. rewrite F1. cbn [rbind]. rewrite F2. cbn [rbind].
  assert (Hs : forall x y, same u2 x y <-> same u x y) by (intros; by apply refines_same).
  destruct (bool_decide_reflect (ra = rb)) as [E|Hne].
  { exists u2. split; [done|]. split; [done|]. split; [done|]. intros x y _ _. rewrite Hs.
    assert (same u a b) by (exists rb; by rewrite <- E at 1).
    split; [by left|]. intros [?|[[? ?]|[? ?]]]; [done| |]; eauto using same_trans, same_sym. }
  assert (K1 : p u2 !! ra = Some ra) by (apply (root_fix u2 a), S2, R1).
  assert (K2 : p u2 !! rb = Some rb) by (apply (root_fix u2 b), S2, R2).
  rewrite !rank_key by (try done; apply (wf_keys u2 W2); eauto). cbn [rbind].
  assert (HA : forall x, same u2 x ra <-> same u x a) by (intros x; rewrite Hs; by apply same_to_root).
  assert (HB : forall x, same u2 x rb <-> same u x b) by (intros x; rewrite Hs; by apply same_to_root).
  destruct (Nat.ltb_spec (rank u2 ra) (rank u2 rb)).
  - destruct (hang_spec u2 rb ra) as (W & O & S); try done; [lia|].
    eexists. split; [done|]. split; [done|]. split; [by rewrite <- O2|]. intros x y Hx Hy.
    rewrite <- O2 in Hx, Hy. rewrite (S x y Hx Hy), Hs, !HA, !HB. tauto.
  - destruct (hang_spec u2 ra rb) as (W & O & S); try done.
    eexists. split; [done|]. split; [done|]. split; [by rewrite <- O2|]. intros x y Hx Hy.
    rewrite <- O2 in Hx, Hy. rewrite (S x y Hx Hy), Hs, !HA, !HB. tauto.
Qed.

(** * Specification: connected components *)

Definition joined (edges : list (string * string)) (x y : string) : Prop := (x, y) ∈ edges.

(** Connected in the undirected graph of the edges. *)
Definition connected (edges : list (string * string)) : string -> string -> Prop := rtsc (joined edges).

Lemma connected_mono es fs x y : (forall e, e ∈ es -> e ∈ fs) -> connected es x y -> connected fs x y.
Proof. intros H. apply (rtsc_congruence (fun z => z) (joined fs)). intros a b. apply H. Qed.

Lemma connected_add es a b x y :
  connected (es ++ [(a, b)]) x y <->
  connected es x y \/ (connected es x a /\ connected es y b) \/ (connected es x b /\ connected es y a).
Proof.
  assert (HE : Equivalence (connected es)) by apply rtsc_equivalence.
  assert (HF : Equivalence (connected (es ++ [(a, b)]))) by apply rtsc_equivalence.
  split.
  - unfold connected at 1, rtsc. induction 1 as [x|x z y Hs _ IH]; [by left|].
    assert (Hz : connected es x z \/ (x = a /\ z = b) \/ (x = b /\ z = a)).
    { destruct Hs as [Hs|Hs]; unfold joined in Hs; rewrite elem_of_app, list_elem_of_singleton in Hs;
        destruct Hs as [Hs|[= -> ->]]; auto; left; [by apply rtsc_lr|by apply rtsc_rl]. }
    destruct Hz as [Hz|[[-> ->]|[-> ->]]].
    + destruct IH as [H|[[H1 H2]|[H1 H2]]]; [left; by trans z|right; left|right; right]; (split; [by trans z|done]).
    + destruct IH as [H|[[H1 H2]|[H1 H2]]]; [right; left; by split|right; left; by split|left; by symmetry].
    + destruct IH as [H|[[H1 H2]|[H1 H2]]]; [right; right; by split|left; by symmetry|right; right; by split].
  - assert (Hm : forall c d, connected es c d -> connected (es ++ [(a, b)]) c d).
    { intros c d. apply connected_mono. intros e He. apply elem_of_app. by left. }
    assert (Hab : connected (es ++ [(a, b)]) a b).
    { apply rtsc_lr. unfold joined. rewrite elem_of_app, list_elem_of_singleton. by right. }
    intros [H|[[H1 H2]|[H1 H2]]]; [by apply Hm| |].
    + trans a; [by apply Hm|]. trans b; [done|]. symmetry. by apply Hm.
    + trans b; [by apply Hm|]. trans a; [by symmetry|]. symmetry. by apply Hm.
Qed.

(** A forest that represents the graph over its keys. *)
Definition represents (u : _UF) (edges : list (string * string)) : Prop :=
  wf u /\ forall x y, x ∈ order u -> y ∈ order u -> same u x y <-> connected edges x y.

Lemma union_all_spec es done_ u :
  represents u done_ -> (forall a b, (a, b) ∈ es -> a ∈ order u /\ b ∈ order u) ->
  exists v, union_all u es = Ok v /\ order v = order u /\ represents v (done_ ++ es).
Proof.
  revert done_ u. induction es as [|[a b] es IH]; intros done_ u [Hw Hs] He; simpl.
  - exists u. rewrite app_nil_r. done.
  - destruct (He a b) as [Ha Hb]; [left|]. destruct (union_spec u a b Hw Ha Hb) as (v & -> & Wv & Ov & Sv). cbn [rbind].
    destruct (IH (done_ ++ [(a, b)]) v) as (w & Hu & Ow & Rw).
    + split; [done|]. intros x y Hx Hy. rewrite Ov in Hx, Hy. rewrite Sv, connected_add, !Hs by done. done.
    + intros c d Hc. rewrite Ov. apply He. by right.
    + exists w. split; [done|]. split; [congruence|]. by rewrite <- (assoc_L (++)) in Rw.
Qed.

Lemma connected_nil x y : connected [] x y <-> x = y.
Proof.
  split; [|intros ->; by apply rtsc_equivalence]. destruct 1 as [|x y z [H|H] _]; [done| |];
    by apply not_elem_of_nil in H.
Qed.

Lemma build_spec nodes edges :
  (forall a b, (a, b) ∈ edges -> a ∈ nodes /\ b ∈ nodes) ->
  exists u, build nodes edges = Ok u /\ represents u edges /\ forall x, x ∈ order u <-> x ∈ nodes.
Proof.
  intros He. destruct (add_all nodes empty_uf) as (W & D & O); [apply empty_wf|by intros x y H; simpl in H; rewrite lookup_empty in H|].
  assert (Ho : forall x, x ∈ order (foldl add empty_uf nodes) <-> x ∈ nodes).
  { intros x. rewrite O. simpl. rewrite elem_of_nil. tauto. }
  destruct (union_all_spec edges [] (foldl add empty_uf nodes)) as (u & Hu & Ou & Ru).
  - split; [done|]. intros x y Hx Hy. rewrite connected_nil. by apply discrete_same.
  - intros a b H. rewrite !Ho. by apply He.
  - exists u. split; [done|]. split; [done|]. intros x. by rewrite Ou.
Qed.

(** ** Grouping *)

Lemma group_add_keys root_ x g :
  (group_add root_ x g).*1 = if decide (root_ ∈ g.*1) then g.*1 else g.*1 ++ [root_].
Proof.
  induction g as [|[k xs] g IH]; [done|]. cbn [group_add].
  destruct (bool_decide_reflect (k = root_)) as [-> | Hn]; rewrite !fmap_cons; cbn [fst].
  - rewrite decide_True; [done|left].
  - rewrite IH. destruct (decide (root_ ∈ g.*1)); [rewrite decide_True; [done|by right]|].
    rewrite decide_False; [done|]. rewrite elem_of_cons. naive_solver.
Qed.

Lemma group_add_concat root_ x g : concat (group_add root_ x g).*2 ≡ₚ concat g.*2 ++ [x].
Proof.
  induction g as [|[k xs] g IH]; simpl; [done|]. destruct (bool_decide _); simpl.
  - rewrite <- !(assoc_L (++)). apply Permutation_app_head. apply Permutation_app_comm.
  - rewrite IH. by rewrite (assoc_L (++)).
Qed.

Lemma group_add_entry root_ x g k ms :
  (k, ms) ∈ group_add root_ x g ->
  (k, ms) ∈ g \/ (k = root_ /\ exists ms0, ms = ms0 ++ [x] /\ (ms0 = [] \/ (k, ms0) ∈ g)).
Proof.
  induction g as [|[k0 xs] g IH]; simpl.
  - intros [= -> ->]%list_elem_of_singleton. right. split; [done|]. exists []. auto.
  - destruct (bool_decide_reflect (k0 = root_)) as [-> | Hn]; intros [E|H]%elem_of_cons.
    + injection E as -> ->. right. split; [done|]. exists xs. split; [done|]. right. left.
    + left. by right.
    + left. rewrite E. left.
    + destruct (IH H) as [H'|(-> & ms0 & -> & [-> | H'])]; [left; by right| |]; right; (split; [done|]).
      * exists []. auto.
      * exists ms0. split; [done|]. right. by right.
Qed.

Record grouped (u : _UF) (seen : list string) (g : list (string * list string)) : Prop := {
  gr_keys : NoDup g.*1;
  gr_all : concat g.*2 ≡ₚ seen;
  gr_root k ms : (k, ms) ∈ g -> ms <> [] /\ forall x, x ∈ ms -> root u x k }.

Lemma group_all_spec u xs seen g v :
  wf u -> (forall x, x ∈ xs -> x ∈ order u) -> refines u v -> grouped u seen g ->
  exists g' w, group_all v xs g = Ok (g', w) /\ grouped u (seen ++ xs) g'.
Proof.
  revert seen g v. induction xs as [|x xs IH]; intros seen g v Hw Hx Hv Hg; simpl.
  - exists g, v. by rewrite app_nil_r.
  - assert (Hxo : x ∈ order u) by (apply Hx; left).
    destruct (find_spec v x) as (s & w & -> & Hs & Hvw); [apply Hv|by destruct Hv as (_ & -> & _)|]. cbn [rbind].
    apply Hv in Hs.
    destruct (IH (seen ++ [x]) (group_add s x g) w) as (g' & w' & -> & G'); [done| | | |].
    + intros y Hy. apply Hx. by right.
    + by eapply refines_trans.
    + destruct Hg as [K A R]. split.
      * rewrite group_add_keys. case_decide; [done|]. apply NoDup_app. split; [done|]. split; [|apply NoDup_singleton].
        by intros y Hy ->%list_elem_of_singleton.
      * by rewrite group_add_concat, A.
      * intros k ms [H|(-> & ms0 & -> & H)]%group_add_entry; [by apply R|]. split; [by destruct ms0|].
        intros y [Hy| ->%list_elem_of_singleton]%elem_of_app; [|done].
        destruct H as [-> | H]; [by apply not_elem_of_nil in Hy|]. by apply (R s ms0).
    + exists g', w'. rewrite <- (assoc_L (++)) in G'. done.
Qed.

Lemma components_groups u :
  wf u -> exists g v, components u = Ok (g, v) /\ grouped u (order u) g.
Proof.
  intros Hw. destruct (group_all_spec u (order u) [] [] u) as (g & v & H & G); [done|done|by split| |by exists g, v].
  split; [constructor|done|]. intros k ms H%not_elem_of_nil. done.
Qed.

Lemma grouped_class u g k ms x y :
  wf u -> grouped u (order u) g -> (k, ms) ∈ g -> x ∈ ms -> y ∈ order u -> y ∈ ms <-> same u x y.
Proof.
  intros Hw [K A R] Hg Hx Hy. destruct (R k ms Hg) as [_ Hr]. split.
  - intros Hm. exists k. split; by apply Hr.
  - intros (s & S1 & S2). assert (s = k) as -> by (apply (root_unique u x); [done|by apply Hr]).
    rewrite <- A in Hy. apply list_elem_of_In, in_concat in Hy as (ms' & Hms' & Hy).
    apply in_map_iff in Hms' as ((k' & m) & E & H'). simpl in E. subst m.
    apply list_elem_of_In in H', Hy. destruct (R k' ms' H') as [_ Hr'].
    assert (k' = k) as -> by (apply (root_unique u y); [by apply Hr'|done]).
    assert (ms' = ms) as -> ; [|done].
    apply list_elem_of_lookup in Hg as [i Hi], H' as [j Hj].
    assert (i = j) as ->; [|congruence].
    eapply NoDup_lookup; [exact K| |]; rewrite list_lookup_fmap; [rewrite Hi|rewrite Hj]; done.
Qed.

Lemma connected_closed (nodes : list string) edges x y :
  (forall a b, (a, b) ∈ edges -> a ∈ nodes /\ b ∈ nodes) -> connected edges x y -> x ∈ nodes -> y ∈ nodes.
Proof.
  intros He. unfold connected, rtsc. induction 1 as [|x z y Hs _ IH]; [done|]. intros _. apply IH.
  destruct Hs as [Hs|Hs]; by destruct (He _ _ Hs).
Qed.

(** [groups] are the connected components of the graph, each node in one. *)
Record partition (nodes : list string) (edges : list (string * string)) (groups : list (string * list string))
    : Prop := {
  pt_once : NoDup (concat groups.*2);
  pt_nodes x : x ∈ concat groups.*2 <-> x ∈ nodes;
  pt_nonempty k ms : (k, ms) ∈ groups -> ms <> [];
  pt_class k ms x y : (k, ms) ∈ groups -> x ∈ ms -> y ∈ ms <-> connected edges x y }.

Lemma components_partition nodes edges :
  (forall a b, (a, b) ∈ edges -> a ∈ nodes /\ b ∈ nodes) ->
  exists u groups v, build nodes edges = Ok u /\ components u = Ok (groups, v) /\ partition nodes edges groups.
Proof.
  intros He. destruct (build_spec nodes edges He) as (u & Hu & [Hw Hs] & Ho).
  destruct (components_groups u Hw) as (g & v & Hc & Hg). exists u, g, v. split; [done|]. split; [done|].
  pose proof (gr_all _ _ _ Hg) as HA.
  assert (Hin : forall k ms x, (k, ms) ∈ g -> x ∈ ms -> x ∈ order u).
  { intros k ms x Hk Hx. rewrite <- HA. apply list_elem_of_In, in_concat. exists ms.
    split; [|by apply list_elem_of_In]. apply in_map_iff. exists (k, ms). split; [done|]. by apply list_elem_of_In. }
  split.
  - rewrite HA. apply (wf_nodup u Hw).
  - intros x. rewrite HA. apply Ho.
  - intros k ms Hk. by apply (gr_root _ _ _ Hg k).
  - intros k ms x y Hk Hx. pose proof (Hin _ _ _ Hk Hx) as Hxo. split.
    + intros Hy. pose proof (Hin _ _ _ Hk Hy) as Hyo. apply Hs; [done|done|].
      by apply (grouped_class u g k ms x y).
    + intros Hxy. assert (Hyo : y ∈ order u) by (rewrite Ho; rewrite Ho in Hxo; by apply (connected_closed nodes edges x)).
      apply (grouped_class u g k ms x y); try done. by apply Hs.
Qed.

(** C39: the disjoint-set forest computes connected components: for every list
    of nodes and every list of edges between them, adding the nodes, joining the
    edges and grouping by root terminates without a failed lookup, although
    [find] rewrites the forest on every call, and the groups are exactly the
    connected components of the undirected graph, with every node in one. *)
Theorem components_connected nodes edges :
  (forall a b, (a, b) ∈ edges -> a ∈ nodes /\ b ∈ nodes) ->
  exists u groups v,
    build nodes edges = Ok u /\ components u = Ok (groups, v)
    /\ NoDup (concat groups.*2) /\ (forall x, x ∈ concat groups.*2 <-> x ∈ nodes)
    /\ forall k ms x y, (k, ms) ∈ groups -> x ∈ ms -> y ∈ ms <-> connected edges x y.
Proof.
  intros He. destruct (components_partition nodes edges He) as (u & g & v & Hu & Hc & [P1 P2 _ P4]).
  by exists u, g, v.
Qed.

Lemma components_connected_witness :
  exists u groups v,
    build ["a"; "b"; "c"; "d"] [("a", "b"); ("c", "b")] = Ok u /\ components u = Ok (groups, v)
    /\ (forall x, x ∈ concat groups.*2 <-> x ∈ ["a"; "b"; "c"; "d"]).
Proof.
  destruct (components_connected ["a"; "b"; "c"; "d"] [("a", "b"); ("c", "b")]) as (u & g & v & H1 & H2 & _ & H3 & _).
  - intros a b H. apply list_elem_of_In in H. simpl in H. destruct H as [E|[E|[]]]; injection E as <- <-;
      split; apply list_elem_of_In; simpl; tauto.
  - exists u, g, v. exact (conj H1 (conj H2 H3)).
Defined.

End Forest.
