(* ===== verification/RingScore.v ===== *)
(** Multi-party ring scores: [decision_api/ring_score.py].

    A role-labelled party graph from the request is normalised, its largest
    connected component is found with the forest of [UnionFind], and structural
    factors of that component add up to a score between 0 and 100.  A factor is
    its code and weight; the explanatory [detail] text and the [evidence]
    dictionary that displays it are not modelled.  Timestamps are instants in
    microseconds; [now] is the clock, read when the graph gives no time. *)

From Stdlib Require Import ZArith Lia Ascii String Bool SpecFloat.
From stdpp Require Import base option list sorting strings gmap.
From S2P Require Import Prelude PyFloat PyValue PyDateTime UnionFind.
Local Open Scope Z_scope.

Definition _STALE_EDGE_HOURS : float := litZ 72.
Definition _FRESH_EDGE_HOURS : float := litZ 1.
Definition _PERSON_ROLES : list string :=
  ["buyer"; "seller"; "courier"; "driver"; "rider"; "diner"; "merchant"; "worker"].
Definition _BRIDGE_ROLES : list string := ["device"; "place"; "promo"; "payment_instrument"].
Definition _CROSS_ROLE_GROUPS : list (list string) :=
  [["buyer"; "seller"]; ["buyer"; "courier"]; ["diner"; "courier"]; ["diner"; "merchant"];
   ["rider"; "driver"]; ["buyer"; "driver"]].

Record RingFactor : Type := Factor { f_code : string; f_weight : float }.

Record RingScoreResult : Type := RingResult {
  score_0_100 : float; factors : list RingFactor; cross_role_same_device : bool;
  component_size : Z; members : list string; ring_tags : list string; ring_components : Z }.

(** * Normalisation *)

Definition graph_of (src : pyval) : option dict :=
  match src with
  | PDict d =>
      match por (get d "party_graph" PNone) (get d "ring_graph" PNone) with
      | PDict g => if is_list (get g "nodes" PNone) || is_list (get g "edges" PNone) then Some g else None
      | _ => None
      end
  | _ => None
  end.

Definition _extract_graph (payload metadata : pyval) : option dict :=
  match graph_of metadata with Some g => Some g | None => graph_of payload end.

Record node : Type := Node { n_role : string; n_attrs : dict }.

(** A dict of nodes: insertion order, overwriting in place. *)
Abbreviation node_map := (list (string * node)).

Fixpoint node_at (x : string) (ns : node_map) : option node :=
  match ns with
  | [] => None
  | (k, n) :: ns' => if bool_decide (k = x) then Some n else node_at x ns'
  end.

Fixpoint set_node (x : string) (n : node) (ns : node_map) : node_map :=
  match ns with
  | [] => [(x, n)]
  | (k, m) :: ns' => if bool_decide (k = x) then (k, n) :: ns' else (k, m) :: set_node x n ns'
  end.

(** [nodes[x]["role"]] and [nodes.get(x, {}).get("role")] for a known [x]. *)
Definition role_of (ns : node_map) (x : string) : string :=
  match node_at x ns with Some n => n.(n_role) | None => EmptyString end.

(** [str(d.get(k1) or d.get(k2) or ... or last).strip()]. *)
Definition first_text (d : dict) (keys : list string) (last : string) : string :=
  strip (py_str (foldr (fun k acc => por (get d k PNone) acc) (PStr last) keys)).

Fixpoint _norm_nodes (raw : list pyval) (ns : node_map) : node_map :=
  match raw with
  | [] => ns
  | PDict item :: raw' =>
      let nid := first_text item ["id"; "node_id"] "" in
      if negb (nonempty nid) then _norm_nodes raw' ns
      else
        let role := lower (first_text item ["role"; "type"] "unknown") in
        _norm_nodes raw' (set_node nid (Node role (as_dict (get item "attrs" PNone))) ns)
  | _ :: raw' => _norm_nodes raw' ns
  end.

(** [datetime.fromtimestamp(x, tz=utc)]: whole seconds and the fraction rounded
    to microseconds, half to even; [None] on any of the errors caught. *)
Definition fromtimestamp (x : float) : option Z :=
  match f_trunc x with
  | Err _ => None
  | Ok secs =>
      match f_round_int (fmul (fsub x (f_round_Z secs)) (litZ 1000000)) with
      | Err _ => None
      | Ok us => let t := secs * 1000000 + us in if (dt_min <=? t) && (t <=? dt_max) then Some t else None
      end
  end.

Definition _parse_ts (raw : pyval) : option Z :=
  match raw with
  | PBool _ | PInt _ | PFloat _ => match py_float raw with Ok x => fromtimestamp x | Err _ => None end
  | PStr s0 =>
      if negb (nonempty (strip s0)) then None
      else
        let s := sflat (fun c => if Ascii.eqb c "Z" then "+00:00" else String c "") (strip s0) in
        match fromisoformat s with Ok d => Some (instant d) | Err _ => None end
  | _ => None
  end.

Record edge : Type := Edge {
  e_src : string; e_dst : string; e_type : string; e_weight : float; e_count : Z;
  e_ts : option Z; e_age : option float }.

Definition norm_edge (item : dict) (src dst : string) : result edge :=
  let etype := upper (first_text item ["type"; "edge_type"] "RELATED") in
  let! weight := match get item "weight" PNone with
                 | PNone => Ok (litZ 1)
                 | v => try_except (py_float v) is_type_or_value_error (litZ 1)
                 end in
  let! count := try_except (py_int (por (get item "count_24h" PNone) (por (get item "count" PNone) (PInt 0))))
                  is_type_or_value_error 0 in
  let ts := _parse_ts (por (get item "ts" PNone) (por (get item "observed_at" PNone) (get item "at" PNone))) in
  let! age := match get item "age_hours" PNone with
              | PNone => Ok None
              | v => try_except (rmap (fun x => Some (fmax (litZ 0) x)) (py_float v)) is_type_or_value_error None
              end in
  Ok (Edge src dst etype weight (Z.max 0 count) ts age).

Fixpoint _norm_edges (raw : list pyval) : result (list edge) :=
  match raw with
  | [] => Ok []
  | PDict item :: raw' =>
      let src := first_text item ["src"; "from"; "source"] "" in
      let dst := first_text item ["dst"; "to"; "target"] "" in
      if negb (nonempty src) || negb (nonempty dst) then _norm_edges raw'
      else
        let! e := norm_edge item src dst in
        let! rest := _norm_edges raw' in
        Ok (e :: rest)
  | _ :: raw' => _norm_edges raw'
  end.

Definition _edge_age_hours (as_of : Z) (e : edge) : option float :=
  match e.(e_age), e.(e_ts) with
  | Some a, _ => Some a
  | None, Some t => Some (fmax (litZ 0) (SFdiv prec emax (f_of_ratio (as_of - t) 1000000) (litZ 3600)))
  | None, None => None
  end.

Definition _resolve_as_of (edges : list edge) (g : dict) (now : Z) : Z :=
  match _parse_ts (por (get g "as_of" PNone) (get g "observed_at" PNone)) with
  | Some t => t
  | None => match filter_map e_ts edges with
            | [] => now
            | t :: ts => foldl Z.max t ts
            end
  end.

(** The role of an endpoint the node list does not name. *)
Definition inferred_role (endpoint : string) : string :=
  let low := lower endpoint in
  if startswith low "dev" || contains "device" low then "device"
  else if startswith low "plc" || contains "place" low then "place"
  else "unknown".

Definition ensure_node (ns : node_map) (x : string) : node_map :=
  match node_at x ns with Some _ => ns | None => ns ++ [(x, Node (inferred_role x) [])] end.

Definition _ensure_edge_nodes (ns : node_map) (edges : list edge) : node_map :=
  foldl (fun ns e => ensure_node (ensure_node ns e.(e_src)) e.(e_dst)) ns edges.

(** * The primary component *)

(** [sorted(groups, key=len, reverse=True)]: longest first, ties in order. *)
Fixpoint insert_longest (c : list string) (cs : list (list string)) : list (list string) :=
  match cs with
  | [] => [c]
  | d :: cs' => if Nat.leb (length d) (length c) then c :: d :: cs' else d :: insert_longest c cs'
  end.

Definition ranked (groups : list (list string)) : list (list string) := foldr insert_longest [] groups.

Definition multi (c : list string) : bool := Nat.leb 2 (length c).

(** [next((c for c in ranked if len(c) >= 2), ranked[0] if ranked else [])]. *)
Definition primary_of (cs : list (list string)) : list string :=
  match List.filter multi cs with c :: _ => c | [] => default [] (head cs) end.

(** * Factors *)

Definition _add (fs : list RingFactor) (code : string) (weight : float) : list RingFactor :=
  if fleb weight (litZ 0) then fs else fs ++ [Factor code (fmin (litZ 40) weight)].

Definition is_person (ns : node_map) (x : string) : bool := mem (role_of ns x) _PERSON_ROLES.

Definition shared_roles (roles grp : list string) : nat := length (List.filter (fun x => mem x grp) roles).

(** Whether some group has two of the roles. *)
Definition crosses (roles : list string) : bool :=
  existsb (fun grp => Nat.leb 2 (shared_roles roles grp)) _CROSS_ROLE_GROUPS.

Definition inside (ms : list string) (e : edge) : bool := mem e.(e_src) ms && mem e.(e_dst) ms.

(** The other end of an edge at [x], when that end is a member. *)
Definition member_end (ms : list string) (x : string) (e : edge) : option string :=
  if bool_decide (e.(e_src) = x) && mem e.(e_dst) ms then Some e.(e_dst)
  else if bool_decide (e.(e_dst) = x) && mem e.(e_src) ms then Some e.(e_src)
  else None.

Definition _bridge_person_count (bridge : string) (ms : list string) (ns : node_map) (edges : list edge) : Z :=
  Z.of_nat (length (remove_dups (List.filter (is_person ns) (filter_map (member_end ms bridge) edges)))).

(** The neighbours of [x] within the component. *)
Definition neighbours (ms : list string) (edges : list edge) (x : string) : list string :=
  concat (map (fun e => (if bool_decide (e.(e_src) = x) then [e.(e_dst)] else [])
                        ++ (if bool_decide (e.(e_dst) = x) then [e.(e_src)] else []))
            (List.filter (inside ms) edges)).

Definition person_roles_of (ns : node_map) (xs : list string) : list string :=
  remove_dups (map (role_of ns) (List.filter (is_person ns) xs)).

Definition _device_bridges (ms : list string) (ns : node_map) (edges : list edge) : list (string * list string) :=
  filter_map (fun m =>
    if negb (mem (role_of ns m) _BRIDGE_ROLES) then None
    else match person_roles_of ns (neighbours ms edges m) with
         | [] => None
         | roles => Some (m, roles)
         end) ms.

Definition by_bridge {A : Type} (role : string) (payment place other : A) : A :=
  if bool_decide (role = "payment_instrument") then payment
  else if bool_decide (role = "place") then place else other.

Definition bridge_factors (ms : list string) (ns : node_map) (edges : list edge)
    (st : list RingFactor * bool) (b : string * list string) : list RingFactor * bool :=
  let '(fs, cross) := st in
  let '(bid, roles) := b in
  let role := role_of ns bid in
  let '(fs, cross) :=
    if crosses roles
    then (_add fs (by_bridge role "cross_role_payment" "cross_role_place" "cross_role_device")
            (by_bridge role (litZ 32) (litZ 30) (litZ 34)), true)
    else (fs, cross) in
  let fs := if Nat.leb 3 (length roles)
            then _add fs (by_bridge role "multi_role_hub_payment" "multi_role_hub_place" "multi_role_hub_device") (litZ 20)
            else fs in
  let pcount := _bridge_person_count bid ms ns edges in
  let fs := if bool_decide (role = "place") && (4 <=? pcount) then _add fs "place_hub" (litZ 18) else fs in
  let fs := if bool_decide (role = "payment_instrument") && (4 <=? pcount) then _add fs "payment_hub" (litZ 20) else fs in
  (fs, cross).

Definition in_one_group (r1 r2 : string) : bool := existsb (fun grp => mem r1 grp && mem r2 grp) _CROSS_ROLE_GROUPS.

Definition velocity_factor (ms : list string) (ns : node_map) (velocity_mul : float) (fs : list RingFactor) (e : edge)
    : list RingFactor :=
  if negb (inside ms e) then fs
  else
    let r1 := role_of ns e.(e_src) in
    let r2 := role_of ns e.(e_dst) in
    if mem r1 _PERSON_ROLES && mem r2 _PERSON_ROLES && (6 <=? e.(e_count))
       && (in_one_group r1 r2 || negb (bool_decide (r1 = r2)))
    then _add fs "pair_velocity" (fmul (if 10 <=? e.(e_count) then litZ 22 else litZ 14) velocity_mul)
    else fs.

Definition any_end (x : string) (e : edge) : option string :=
  if bool_decide (e.(e_src) = x) then Some e.(e_dst) else if bool_decide (e.(e_dst) = x) then Some e.(e_src) else None.

Definition is_promo (ms : list string) (kn : string * node) : bool :=
  bool_decide (kn.2.(n_role) = "promo") && mem kn.1 ms.

Definition promo_hub (ns : node_map) (edges : list edge) (fs : list RingFactor) (nid : string) : list RingFactor :=
  let buyers := List.filter (fun x => mem (role_of ns x) ["buyer"; "diner"; "rider"]) (filter_map (any_end nid) edges) in
  if Nat.leb 5 (length buyers) then _add fs "promo_hub" (litZ 18) else fs.

(** A device next to the promotion whose people cross roles. *)
Definition promo_chain (ms : list string) (ns : node_map) (edges : list edge) (nid : string) : bool :=
  existsb (fun nb => bool_decide (role_of ns nb = "device")
                     && crosses (person_roles_of ns (filter_map (member_end ms nb) edges)))
    (filter_map (member_end ms nid) edges).

Definition chain_factor (ms : list string) (ns : node_map) (edges : list edge)
    (st : list RingFactor * bool) (nid : string) : list RingFactor * bool :=
  if promo_chain ms ns edges nid then (_add st.1 "promo_device_role_chain" (litZ 22), true) else st.

Definition bipartite (ms : list string) (ns : node_map) (edges : list edge) : bool :=
  let persons := List.filter (is_person ns) ms in
  let pairs := List.filter (fun e => inside ms e && is_person ns e.(e_src) && is_person ns e.(e_dst)) edges in
  let cross := List.filter (fun e => negb (bool_decide (role_of ns e.(e_src) = role_of ns e.(e_dst)))
                                     && in_one_group (role_of ns e.(e_src)) (role_of ns e.(e_dst))) pairs in
  Nat.leb 2 (length persons) && Nat.leb 3 (length pairs)
  && fleb (lit 6 10) (f_of_ratio (Z.of_nat (length cross)) (Pos.of_nat (length pairs))).

Definition has_code (codes : list string) (fs : list RingFactor) : bool := existsb (fun f => mem f.(f_code) codes) fs.

Definition attr_factors (ns : node_map) (fs : list RingFactor) (m : string) : result (list RingFactor) :=
  let attrs := match node_at m ns with Some n => n.(n_attrs) | None => [] end in
  let fs := if is_true (get attrs "worker_auth_failed" PNone) then _add fs "worker_auth_failed" (litZ 28) else fs in
  match get attrs "account_age_days" PNone with
  | PNone => Ok fs
  | v => match py_float v with
         | Ok age => Ok (if fleb age (litZ 7) && is_person ns m && has_code ["pair_velocity"] fs
                         then _add fs "young_account_in_ring" (litZ 10) else fs)
         | Err e => if is_type_or_value_error e then Ok fs else Err e
         end
  end.

Fixpoint attrs_all (ns : node_map) (fs : list RingFactor) (ms : list string) : result (list RingFactor) :=
  match ms with
  | [] => Ok fs
  | m :: ms' => let! fs := attr_factors ns fs m in attrs_all ns fs ms'
  end.

(** [sum] of floats (Python 3.12): Neumaier's compensated summation. *)
Fixpoint neumaier (xs : list float) (acc c : float) : float :=
  match xs with
  | [] => if negb (is_zero c) && negb (is_nan c) && negb (is_inf c) then fadd acc c else acc
  | x :: xs' =>
      let t := fadd acc x in
      let c := if fleb (SFabs x) (SFabs acc) then fadd c (fadd (fsub acc t) x) else fadd c (fadd (fsub x t) acc) in
      neumaier xs' t c
  end.

Definition py_sum (xs : list float) : float := neumaier xs (litZ 0) (litZ 0).

(** * The score *)

Record temporal : Type := Temporal { ages : list float; fresh_n : nat; stale_n : nat; stale_ratio : float }.

Definition temporal_of (ms : list string) (edges : list edge) (as_of : Z) : temporal :=
  let ages := filter_map (fun e => if inside ms e then _edge_age_hours as_of e else None) edges in
  let stale := length (List.filter (fun a => fleb _STALE_EDGE_HOURS a) ages) in
  Temporal ages (length (List.filter (fun a => fleb a _FRESH_EDGE_HOURS) ages)) stale
    (match ages with [] => litZ 0 | _ => f_of_ratio (Z.of_nat stale) (Pos.of_nat (length ages)) end).

Definition velocity_mul (t : temporal) : float :=
  if fleb (lit 7 10) t.(stale_ratio) then lit 45 100
  else if fleb (lit 4 10) t.(stale_ratio) then lit 7 10 else litZ 1.

(** The factors of a component, in the order they are added, and the cross-role flag. *)
Definition ring_factors (ms : list string) (ns : node_map) (edges : list edge) (as_of : Z)
    : result (list RingFactor * bool) :=
  let t := temporal_of ms edges as_of in
  let '(fs, cross) := foldl (bridge_factors ms ns edges) ([], false) (_device_bridges ms ns edges) in
  let fs := foldl (velocity_factor ms ns (velocity_mul t)) fs edges in
  let fs := if Nat.leb 3 t.(fresh_n) && Nat.leb 3 (length t.(ages)) then _add fs "fresh_edge_burst" (litZ 14) else fs in
  let fs := if fleb (lit 7 10) t.(stale_ratio) && Nat.leb 3 (length t.(ages))
            then _add fs "stale_edge_dominance" (litZ 8) else fs in
  let promos := map fst (List.filter (is_promo ms) ns) in
  let fs := foldl (promo_hub ns edges) fs promos in
  let '(fs, cross) := foldl (chain_factor ms ns edges) (fs, cross) promos in
  let fs := if Nat.leb 8 (length ms) then _add fs "large_ring" (litZ 12)
            else if Nat.leb 5 (length ms) then _add fs "medium_ring" (litZ 6) else fs in
  let fs := if bipartite ms ns edges then _add fs "bipartite_density" (litZ 16) else fs in
  let! fs := attrs_all ns fs ms in
  Ok (fs, cross).

Definition tag_if (b : bool) (ts : list string) : list string := if b then ts else [].

Definition tags_of (fs : list RingFactor) (cross : bool) (score : float) : list string :=
  append_new []
    (tag_if (match fs with [] => false | _ => true end) ["risk:collusion_shared_device"]
     ++ tag_if cross ["action:hard_challenge"; "risk:cross_role_device"]
     ++ tag_if (has_code ["cross_role_payment"] fs) ["risk:shared_payment_instrument"]
     ++ tag_if (has_code ["place_hub"; "cross_role_place"] fs) ["risk:place_hub"]
     ++ tag_if (has_code ["pair_velocity"] fs) ["risk:collusion_pair_velocity"]
     ++ tag_if (has_code ["promo_hub"; "promo_device_role_chain"] fs) ["risk:promo_farm"]
     ++ tag_if (has_code ["fresh_edge_burst"] fs) ["risk:ring_edge_burst"]
     ++ tag_if (has_code ["worker_auth_failed"] fs) ["risk:account_rental"; "action:suspend_driving"]
     ++ tag_if (fleb (litZ 70) score) ["action:hard_challenge"]).

Definition edge_pairs (edges : list edge) : list (string * string) := map (fun e => (e.(e_src), e.(e_dst))) edges.

(** The nodes and edges scored: [None] when there is no graph to speak of. *)
Definition party_graph (payload metadata : pyval) : result (option (dict * node_map * list edge)) :=
  match _extract_graph payload metadata with
  | None => Ok None
  | Some g =>
      let! raw_nodes := iter_or_empty (get g "nodes" PNone) in
      let ns := _norm_nodes raw_nodes [] in
      let! raw_edges := iter_or_empty (get g "edges" PNone) in
      let! edges := _norm_edges raw_edges in
      if (match edges with [] => true | _ => false end) && Nat.ltb (length ns) 2 then Ok None
      else Ok (Some (g, _ensure_edge_nodes ns edges, edges))
  end.

Definition compute_ring_score (now : Z) (payload metadata : pyval) : result (option RingScoreResult) :=
  let! pg := party_graph payload metadata in
  match pg with
  | None => Ok None
  | Some (g, ns, edges) =>
      if (match ns with [] => true | _ => false end) then Ok None
      else
        let! u := Forest.build (map fst ns) (edge_pairs edges) in
        let! comps := Forest.components u in
        let cs := ranked (map snd comps.1) in
        let primary := primary_of cs in
        if (match primary with [] => true | _ => false end) then Ok None
        else
          let! fc := ring_factors primary ns edges (_resolve_as_of edges g now) in
          let '(fs, cross) := fc in
          let score := fclamp (litZ 0) (litZ 100) (py_sum (map f_weight fs)) in
          Ok (Some (RingResult score fs cross (Z.of_nat (length primary)) (merge_sort String.le primary)
                      (tags_of fs cross score) (Z.of_nat (length (List.filter multi cs)))))
  end.

Definition _critical : list string :=
  ["cross_role_device"; "cross_role_payment"; "cross_role_place"; "multi_role_hub_device"; "multi_role_hub_payment";
   "pair_velocity"; "worker_auth_failed"; "bipartite_density"; "payment_hub"; "place_hub"; "promo_device_role_chain";
   "fresh_edge_burst"].

(** The features written and the result, if any. *)
Definition apply_ring_score_features (now : Z) (features : dict) (payload metadata : pyval)
    : result (dict * option RingScoreResult) :=
  let! res := compute_ring_score now payload metadata in
  Ok (match res with
      | None => (features, None)
      | Some x =>
          let f := dict_set "ring_score" (PFloat (f_round x.(score_0_100) 2)) features in
          let f := dict_set "ring_score_high"
                     (PBool (fleb (litZ 40) x.(score_0_100) || x.(cross_role_same_device)
                             || has_code _critical x.(factors))) f in
          let f := dict_set "cross_role_same_device" (PBool x.(cross_role_same_device)) f in
          let f := dict_set "ring_component_size" (PInt x.(component_size)) f in
          (foldl (fun f fac => dict_set ("ring_factor:" +:+ fac.(f_code)) (PBool true) f) f x.(factors), Some x)
      end).

(** * Theorems *)

Lemma node_at_keys x ns : is_Some (node_at x ns) <-> x ∈ map fst ns.
Proof.
  induction ns as [|[k n] ns IH]; simpl; [split; [by intros [? ?]|by intros ?%not_elem_of_nil]|].
  rewrite elem_of_cons. destruct (bool_decide_reflect (k = x)) as [-> | Hn]; [split; eauto|].
  rewrite IH. split; [by right|]. intros [-> | ?]; done.
Qed.

Lemma ensure_node_keys ns x y : y ∈ map fst (ensure_node ns x) <-> y ∈ map fst ns \/ y = x.
Proof.
  unfold ensure_node. destruct (node_at x ns) as [n|] eqn:E.
  - assert (x ∈ map fst ns) by (apply node_at_keys; eauto). split; [by left|]. by intros [?| ->].
  - rewrite map_app, elem_of_app. simpl. by rewrite list_elem_of_singleton.
Qed.

Lemma ensure_edge_keys edges ns :
  (forall x, x ∈ map fst ns -> x ∈ map fst (_ensure_edge_nodes ns edges))
  /\ forall a b, (a, b) ∈ edge_pairs edges ->
       a ∈ map fst (_ensure_edge_nodes ns edges) /\ b ∈ map fst (_ensure_edge_nodes ns edges).
Proof.
  unfold _ensure_edge_nodes. revert ns. induction edges as [|e edges IH]; intros ns; simpl.
  - split; [done|]. intros a b H. by apply not_elem_of_nil in H.
  - destruct (IH (ensure_node (ensure_node ns (e_src e)) (e_dst e))) as [K H]. split.
    + intros x Hx. apply K. rewrite !ensure_node_keys. by do 2 left.
    + intros a b [[= -> ->]|Hab]%elem_of_cons; [|by apply H].
      split; apply K; rewrite !ensure_node_keys; [by left; right|by right].
Qed.

(** ** The longest component *)

Lemma insert_longest_elem c cs d : d ∈ insert_longest c cs <-> d = c \/ d ∈ cs.
Proof.
  induction cs as [|e cs IH]; simpl; [by rewrite elem_of_cons|].
  destruct (Nat.leb _ _); [by rewrite elem_of_cons|]. rewrite !elem_of_cons, IH. tauto.
Qed.

Lemma ranked_elem gs d : d ∈ ranked gs <-> d ∈ gs.
Proof.
  unfold ranked. induction gs as [|c gs IH]; simpl; [done|]. by rewrite insert_longest_elem, IH, elem_of_cons.
Qed.

(** Longest first. *)
Definition longest_first (cs : list (list string)) : Prop :=
  forall c, head cs = Some c -> forall d, d ∈ cs -> (length d <= length c)%nat.

Lemma insert_longest_first c cs : longest_first cs -> longest_first (insert_longest c cs).
Proof.
  unfold longest_first. destruct cs as [|d cs]; simpl; intros H x.
  - intros [= <-] y ->%list_elem_of_singleton. done.
  - destruct (Nat.leb_spec (length d) (length c)) as [Hle|Hlt]; simpl; intros [= <-] y.
    + intros [-> | Hy]%elem_of_cons; [done|]. etransitivity; [|exact Hle]. by apply (H d).
    + rewrite elem_of_cons, insert_longest_elem. intros [-> | [-> | Hy]]; [done|lia|].
      apply (H d); [done|by right].
Qed.

Lemma ranked_longest gs : longest_first (ranked gs).
Proof.
  unfold ranked. induction gs as [|c gs IH]; simpl; [done|]. by apply insert_longest_first.
Qed.

Lemma primary_head cs : longest_first cs -> primary_of cs = default [] (head cs).
Proof.
  intros H. unfold primary_of. destruct cs as [|c cs]; [done|]. simpl. destruct (multi c) eqn:E; [done|].
  assert (List.filter multi cs = []) as ->; [|done].
  assert (Hall : forall d, d ∈ cs -> multi d = false).
  { intros d Hd. unfold multi in *. apply Nat.leb_gt in E. apply Nat.leb_gt.
    specialize (H c eq_refl d (list_elem_of_further _ _ _ Hd)). lia. }
  clear -Hall. induction cs as [|d cs IH]; simpl; [done|]. rewrite Hall by left. apply IH. intros x Hx. apply Hall. by right.
Qed.

Lemma primary_longest gs :
  gs <> [] -> primary_of (ranked gs) ∈ gs /\ forall d, d ∈ gs -> (length d <= length (primary_of (ranked gs)))%nat.
Proof.
  intros Hne. rewrite primary_head by apply ranked_longest.
  destruct (ranked gs) as [|c cs] eqn:E.
  - destruct gs as [|g gs]; [done|]. assert (H : g ∈ ranked (g :: gs)) by (apply ranked_elem; left).
    rewrite E in H. by apply not_elem_of_nil in H.
  - simpl. split; [apply ranked_elem; rewrite E; left|]. intros d Hd%ranked_elem.
    pose proof (ranked_longest gs) as HL. rewrite E in HL, Hd. by apply (HL c).
Qed.

(** ** Errors *)

Lemma py_float_err v e : py_float v = Err e -> is_type_or_value_error e = false -> e = OverflowError.
Proof.
  destruct v; simpl; try done; try (by intros [= <-]).
  - unfold f_of_Z. destruct (is_inf _); [by intros [= <-]|done].
  - unfold f_of_string. repeat case_match; intros [= <-]; done.
Qed.

Lemma attrs_all_err ns ms fs e : attrs_all ns fs ms = Err e -> e = OverflowError.
Proof.
  revert fs. induction ms as [|m ms IH]; intros fs; simpl; [done|].
  destruct (attr_factors ns fs m) as [fs'|e'] eqn:E; cbn [rbind]; [apply IH|]. intros [= ->].
  unfold attr_factors in E. destruct (get _ "account_age_days" PNone) eqn:Ev; try done;
    (destruct (py_float _) eqn:Ef; [done|]); destruct (is_type_or_value_error _) eqn:Et; try done;
    injection E as ->; by eapply py_float_err.
Qed.

Lemma ring_factors_err ms ns edges as_of e : ring_factors ms ns edges as_of = Err e -> e = OverflowError.
Proof.
  unfold ring_factors. cbv zeta. destruct (foldl (bridge_factors _ _ _) _ _) as [fs cross].
  destruct (foldl (chain_factor _ _ _) _ _) as [fs' cross'].
  destruct (attrs_all _ _ _) as [|e'] eqn:Ea; cbn [rbind]; [done|]. intros [= ->]. by eapply attrs_all_err.
Qed.

(** ** The ring is a largest connected component *)

Lemma party_graph_ready payload metadata g ns edges :
  party_graph payload metadata = Ok (Some (g, ns, edges)) ->
  ns <> [] /\ forall a b, (a, b) ∈ edge_pairs edges -> a ∈ map fst ns /\ b ∈ map fst ns.
Proof.
  unfold party_graph. destruct (_extract_graph payload metadata) as [g0|]; [|done]. intros H. inv_ok.
  destruct (_ && _) eqn:E in H; [done|]. injection H as <- <- <-.
  destruct (ensure_edge_keys a1 (_norm_nodes a [])) as [K He]. split; [|done].
  intros Hn. rewrite Hn in K, He. destruct a1 as [|e es].
  - destruct (_norm_nodes a []) as [|[k n] ns]; [done|]. specialize (K k (list_elem_of_here _ _)). by apply not_elem_of_nil in K.
  - destruct (He (e_src e) (e_dst e) (list_elem_of_here _ _)) as [H _]. by apply not_elem_of_nil in H.
Qed.

(** A set of nodes that are all connected to each other. *)
Definition clustered (ns : node_map) (edges : list edge) (c : list string) : Prop :=
  NoDup c /\ (forall x, x ∈ c -> x ∈ map fst ns)
  /\ forall x y, x ∈ c -> y ∈ c -> Forest.connected (edge_pairs edges) x y.

Lemma nodup_concat {A} (l : list (list A)) m : NoDup (concat l) -> m ∈ l -> NoDup m.
Proof.
  induction l as [|x l IH]; simpl; [by intros _ ?%not_elem_of_nil|].
  intros (H1 & _ & H2)%NoDup_app [-> | Hm]%elem_of_cons; [done|by apply IH].
Qed.

Lemma partition_largest ns edges groups :
  ns <> [] -> Forest.partition (map fst ns) (edge_pairs edges) groups ->
  let primary := primary_of (ranked (map snd groups)) in
  primary <> [] /\ NoDup primary
  /\ (forall x y, x ∈ primary -> y ∈ primary <-> Forest.connected (edge_pairs edges) x y)
  /\ forall c, clustered ns edges c -> (length c <= length primary)%nat.
Proof.
  intros Hns [P1 P2 P3 P4] primary.
  assert (Hg : map snd groups <> []).
  { destruct ns as [|[k n] ns]; [done|]. assert (Hk : k ∈ concat groups.*2) by (apply P2; left).
    intros E. change (groups.*2) with (map snd groups) in Hk. rewrite E in Hk. by apply not_elem_of_nil in Hk. }
  destruct (primary_longest _ Hg) as [Hin Hmax]. fold primary in Hin, Hmax.
  pose proof Hin as Hin'. apply list_elem_of_In, in_map_iff in Hin' as ((k & ms) & E & Hk).
  simpl in E. subst ms. apply list_elem_of_In in Hk.
  split; [by eapply P3|]. split; [by eapply nodup_concat|]. split; [intros x y; by eapply P4|].
  intros c (Cn & Cx & Cc). destruct c as [|x c]; [simpl; lia|].
  assert (Hx : x ∈ concat groups.*2) by (apply P2, Cx; left).
  apply list_elem_of_In, in_concat in Hx as (ms & Hms & Hx). apply list_elem_of_In in Hms, Hx.
  etransitivity; [|by apply (Hmax ms)]. pose proof Hms as Hms'.
  apply list_elem_of_In, in_map_iff in Hms' as ((k' & ms') & E & Hk'). simpl in E. subst ms'.
  apply list_elem_of_In in Hk'. apply NoDup_incl_length; [by apply NoDup_ListNoDup|].
  intros y Hy. apply list_elem_of_In in Hy. apply list_elem_of_In, (P4 k' ms x y Hk' Hx), Cc; [left|done].
Qed.

(** The ring that is scored is a largest connected component: for every
    request that carries a party graph the computation returns a result, unless
    an account age is an integer too large for a float, and the members it
    reports are pairwise connected, closed under connection, counted once, and
    at least as many as any other set of mutually connected parties. *)
Theorem ring_is_largest_component now payload metadata g ns edges :
  party_graph payload metadata = Ok (Some (g, ns, edges)) ->
  match compute_ring_score now payload metadata with
  | Err e => e = OverflowError
  | Ok None => False
  | Ok (Some res) =>
      res.(members) <> [] /\ NoDup res.(members) /\ res.(component_size) = Z.of_nat (length res.(members))
      /\ (forall x y, x ∈ res.(members) -> y ∈ res.(members) <-> Forest.connected (edge_pairs edges) x y)
      /\ forall c, clustered ns edges c -> (length c <= length res.(members))%nat
  end.
Proof.
  intros Hpg. destruct (party_graph_ready _ _ _ _ _ Hpg) as [Hns He].
  destruct (Forest.components_partition (map fst ns) (edge_pairs edges) He) as (u & groups & v & Hu & Hc & Hp).
  destruct (partition_largest ns edges groups Hns Hp) as (Q1 & Q2 & Q3 & Q4).
  unfold compute_ring_score. rewrite Hpg. cbn [rbind]. destruct ns as [|n0 ns0]; [done|]. set (ns := n0 :: ns0) in *.
  rewrite Hu. cbn [rbind]. rewrite Hc. cbn [rbind fst].
  set (primary := primary_of (ranked (map snd groups))) in *.
  destruct primary as [|m ms] eqn:Em; [done|]. rewrite <- Em in *.
  destruct (ring_factors primary ns edges _) as [[fs cross]|e] eqn:Ef; cbn [rbind].
  - cbn [members component_size]. pose proof (merge_sort_Permutation String.le primary) as HP.
    assert (Hin : forall x, x ∈ merge_sort String.le primary <-> x ∈ primary) by (intros x; by rewrite HP).
    assert (Hlen : length (merge_sort String.le primary) = length primary) by (by rewrite HP).
    rewrite Hlen. split; [intros E; rewrite E in Hlen; rewrite Em in Hlen; done|].
    split; [by rewrite HP|]. split; [done|]. split; [|done]. intros x y. rewrite !Hin. apply Q3.
  - by eapply ring_factors_err.
Qed.

Definition demo_graph : pyval :=
  PDict [("party_graph", PDict
    [("nodes", PList [PDict [("id", PStr "b1"); ("role", PStr "buyer")];
                      PDict [("id", PStr "s1"); ("role", PStr "seller")];
                      PDict [("id", PStr "d1"); ("role", PStr "device")];
                      PDict [("id", PStr "b2"); ("role", PStr "buyer")]]);
     ("edges", PList [PDict [("src", PStr "b1"); ("dst", PStr "d1")]; PDict [("src", PStr "s1"); ("dst", PStr "d1")];
                      PDict [("src", PStr "b1"); ("dst", PStr "s1"); ("count_24h", PInt 12)]])])].

Lemma ring_is_largest_component_witness :
  exists res, compute_ring_score 0 PNone demo_graph = Ok (Some res)
    /\ res.(members) = ["b1"; "d1"; "s1"] /\ NoDup res.(members).
Proof.
  destruct (party_graph PNone demo_graph) as [[[[g ns] edges]|]|] eqn:E; [|vm_compute in E; discriminate E..].
  pose proof (ring_is_largest_component 0 PNone demo_graph g ns edges E) as H.
  destruct (compute_ring_score 0 PNone demo_graph) as [[res|]|] eqn:Ec;
    [|vm_compute in Ec; discriminate Ec..].
  exists res. split; [reflexivity|]. split; [|exact (proj1 (proj2 H))].
  clear E H. vm_compute in Ec. injection Ec as <-. vm_compute. reflexivity.
Defined.

(** ** Meaning of the cross-role flag *)

(** An edge joins [x] and [a] inside the ring. *)
Definition linked (ms : list string) (edges : list edge) (x a : string) : Prop :=
  x ∈ ms /\ a ∈ ms /\ exists e, e ∈ edges /\ ((e.(e_src) = x /\ e.(e_dst) = a) \/ (e.(e_dst) = x /\ e.(e_src) = a)).

(** Two parties whose roles are different and complementary. *)
Definition cross_pair (ns : node_map) (a b : string) : Prop :=
  is_person ns a = true /\ is_person ns b = true /\ role_of ns a <> role_of ns b
  /\ in_one_group (role_of ns a) (role_of ns b) = true.

Lemma neighbours_spec ms edges x a : x ∈ ms -> a ∈ neighbours ms edges x <-> linked ms edges x a.
Proof.
  intros Hx. unfold neighbours, linked. rewrite list_elem_of_In, in_concat. split.
  - intros (l & (e & <- & He)%in_map_iff & Ha%list_elem_of_In).
    apply list_elem_of_In, filter_elem in He as [He [H1%mem_spec H2%mem_spec]%andb_prop].
    rewrite elem_of_app in Ha. split; [done|].
    destruct Ha as [Ha|Ha]; (case_bool_decide; [|by apply not_elem_of_nil in Ha]);
      apply list_elem_of_singleton in Ha as ->; split; try done; exists e; auto.
  - intros (_ & Ha & e & He & H).
    exists ((if bool_decide (e_src e = x) then [e_dst e] else []) ++ (if bool_decide (e_dst e = x) then [e_src e] else [])).
    split.
    + apply in_map_iff. exists e. split; [done|]. apply list_elem_of_In, filter_elem. split; [done|].
      unfold inside. apply andb_true_intro. rewrite !mem_spec. by destruct H as [[<- <-]|[<- <-]].
    + apply list_elem_of_In, elem_of_app. destruct H as [[H1 H2]|[H1 H2]]; [left|right];
        (rewrite bool_decide_eq_true_2 by done); by apply list_elem_of_singleton.
Qed.

Lemma member_end_spec ms edges x a :
  x ∈ ms -> a ∈ filter_map (member_end ms x) edges <-> linked ms edges x a.
Proof.
  intros Hx. rewrite filter_map_elem. unfold linked, member_end. split.
  - intros (e & He & H).
    destruct (_ && _) eqn:E1 in H; [|destruct (_ && _) eqn:E2 in H; [|done]]; injection H as <-;
      [apply andb_prop in E1 as [E1%bool_decide_eq_true E2%mem_spec]
      |apply andb_prop in E2 as [E3%bool_decide_eq_true E4%mem_spec]];
      (split; [done|]); (split; [done|]); exists e; auto.
  - intros (_ & Ha & e & He & H). exists e. split; [done|].
    destruct H as [[H1 H2]|[H1 H2]].
    + rewrite H1, H2, bool_decide_eq_true_2, (proj2 (mem_spec a ms)) by done. done.
    + rewrite H1, H2. destruct (bool_decide_reflect (a = x)) as [-> | Hn]; simpl.
      * by rewrite (proj2 (mem_spec x ms)).
      * by rewrite bool_decide_eq_true_2, (proj2 (mem_spec a ms)) by done.
Qed.

Lemma two_elems {A} (l : list A) :
  NoDup l -> (2 <= length l)%nat <-> exists x y, x ∈ l /\ y ∈ l /\ x <> y.
Proof.
  intros Hn. split.
  - destruct l as [|x [|y l]]; simpl; [lia|lia|]. intros _. exists x, y.
    apply NoDup_cons in Hn as [Hx _]. split; [left|]. split; [right; left|]. intros ->. apply Hx. left.
  - intros (x & y & Hx & Hy & Hxy). destruct l as [|a [|b l]]; simpl; [by apply not_elem_of_nil in Hx| |lia].
    apply list_elem_of_singleton in Hx, Hy. congruence.
Qed.

Lemma crosses_spec ns xs :
  crosses (person_roles_of ns xs) = true <-> exists a b, a ∈ xs /\ b ∈ xs /\ cross_pair ns a b.
Proof.
  assert (Hr : forall q, q ∈ person_roles_of ns xs <-> exists a, a ∈ xs /\ is_person ns a = true /\ q = role_of ns a).
  { intros q. unfold person_roles_of. rewrite elem_of_remove_dups, list_elem_of_In, in_map_iff. split.
    - intros (a & <- & H%list_elem_of_In). apply filter_elem in H as [? ?]. by exists a.
    - intros (a & H1 & H2 & ->). exists a. split; [done|]. apply list_elem_of_In, filter_elem. done. }
  unfold crosses, cross_pair, in_one_group. rewrite existsb_exists.
  assert (Hs : forall grp, Nat.leb 2 (shared_roles (person_roles_of ns xs) grp) = true <->
            exists q s, (q ∈ person_roles_of ns xs /\ q ∈ grp) /\ (s ∈ person_roles_of ns xs /\ s ∈ grp) /\ q <> s).
  { intros grp. rewrite Nat.leb_le. unfold shared_roles.
    rewrite two_elems by (apply NoDup_ListNoDup, List.NoDup_filter, NoDup_ListNoDup, NoDup_remove_dups).
    setoid_rewrite filter_elem. setoid_rewrite mem_spec. done. }
  split.
  - intros (grp & Hg & (q & s & [(a & A1 & A2 & ->)%Hr Hq] & [(b & B1 & B2 & ->)%Hr Hq'] & Hne)%Hs).
    exists a, b. split; [done|]. split; [done|]. split; [done|]. split; [done|]. split; [done|].
    apply existsb_exists. exists grp. split; [done|]. apply andb_true_intro. by rewrite !mem_spec.
  - intros (a & b & Ha & Hb & Pa & Pb & Hne & (grp & Hg & [G1%mem_spec G2%mem_spec]%andb_prop)%existsb_exists).
    exists grp. split; [done|]. apply Hs. exists (role_of ns a), (role_of ns b).
    split; [split; [apply Hr; by exists a|done]|]. split; [split; [apply Hr; by exists b|done]|done].
Qed.

Lemma bridges_cross ms ns edges bs fs c :
  (foldl (bridge_factors ms ns edges) (fs, c) bs).2 = c || existsb (fun b => crosses b.2) bs.
Proof.
  revert fs c. induction bs as [|[m roles] bs IH]; intros fs c; simpl; [by rewrite orb_false_r|].
  destruct (crosses roles); rewrite IH; [by rewrite orb_true_r|done].
Qed.

Lemma chains_cross ms ns edges ps fs c :
  (foldl (chain_factor ms ns edges) (fs, c) ps).2 = c || existsb (promo_chain ms ns edges) ps.
Proof.
  revert fs c. induction ps as [|x ps IH]; intros fs c; cbn [foldl existsb]; [by rewrite orb_false_r|].
  unfold chain_factor at 2. destruct (promo_chain ms ns edges x); rewrite IH; [by rewrite orb_true_r|done].
Qed.

(** A node that bridges two complementary parties. *)
Definition cross_bridge (ms : list string) (ns : node_map) (edges : list edge) (m : string) : Prop :=
  role_of ns m ∈ _BRIDGE_ROLES /\ exists a b, linked ms edges m a /\ linked ms edges m b /\ cross_pair ns a b.

Lemma device_bridges_spec ms ns edges :
  existsb (fun b => crosses b.2) (_device_bridges ms ns edges) = true <->
  exists m, m ∈ ms /\ cross_bridge ms ns edges m.
Proof.
  assert (Hx : forall m, m ∈ ms -> crosses (person_roles_of ns (neighbours ms edges m)) = true <->
            exists a b, linked ms edges m a /\ linked ms edges m b /\ cross_pair ns a b).
  { intros m Hm. rewrite crosses_spec. by setoid_rewrite neighbours_spec. }
  rewrite existsb_exists. unfold cross_bridge. split.
  - intros ([m roles] & Hin & Hc). apply list_elem_of_In, filter_map_elem in Hin as (m' & Hm & H).
    destruct (mem (role_of ns m') _BRIDGE_ROLES) eqn:Er; cbn [negb] in H; [|done].
    assert (m' = m /\ person_roles_of ns (neighbours ms edges m') = roles) as [-> Hr].
    { destruct (person_roles_of _ _); [done|]. by injection H as -> ->. }
    exists m. split; [done|]. split; [by apply mem_spec|]. apply Hx; [done|]. by rewrite Hr.
  - intros (m & Hm & Hr & Hab%Hx); [|done].
    exists (m, person_roles_of ns (neighbours ms edges m)). split; [|done].
    apply list_elem_of_In, filter_map_elem. exists m. split; [done|].
    rewrite (proj2 (mem_spec _ _) Hr). cbn [negb].
    destruct (person_roles_of ns (neighbours ms edges m)); [|done]. by vm_compute in Hab.
Qed.

Lemma promo_chain_bridge ms ns edges x :
  x ∈ ms -> promo_chain ms ns edges x = true -> exists m, m ∈ ms /\ cross_bridge ms ns edges m.
Proof.
  intros Hx (d & Hd & [Hr%bool_decide_eq_true Hc]%andb_prop)%existsb_exists.
  apply list_elem_of_In, member_end_spec in Hd as (_ & Hd & _); [|done].
  apply crosses_spec in Hc as (a & b & Ha & Hb & Hp). rewrite member_end_spec in Ha, Hb by done.
  exists d. split; [done|]. split; [rewrite Hr; left|]. by exists a, b.
Qed.

Lemma ring_factors_cross ms ns edges as_of fs cross :
  ring_factors ms ns edges as_of = Ok (fs, cross) ->
  cross = true <-> exists m, m ∈ ms /\ cross_bridge ms ns edges m.
Proof.
  unfold ring_factors. cbv zeta. intros H.
  pose proof (bridges_cross ms ns edges (_device_bridges ms ns edges) [] false) as HB.
  destruct (foldl (bridge_factors _ _ _) _ _) as [fs1 c1]. simpl in HB.
  match type of H with (let '(_, _) := foldl _ (?f, _) ?l in _) = _ =>
    pose proof (chains_cross ms ns edges l f c1) as HC end.
  destruct (foldl (chain_factor _ _ _) _ _) as [fs2 c2]. simpl in HC. inv_ok. injection H as _ <-.
  rewrite HC, orb_true_iff, HB, device_bridges_spec. split; [|by left]. intros [H|H]; [done|].
  apply existsb_exists in H as (x & Hx & Hc). apply in_map_iff in Hx as ((k & n) & <- & Hk).
  apply list_elem_of_In, filter_elem in Hk as [_ [_ Hk%mem_spec]%andb_prop]. by apply (promo_chain_bridge ms ns edges k).
Qed.

Lemma cross_bridge_perm ms ms' ns edges m :
  (forall x, x ∈ ms <-> x ∈ ms') -> cross_bridge ms ns edges m <-> cross_bridge ms' ns edges m.
Proof. intros H. unfold cross_bridge, linked. by setoid_rewrite H. Qed.

Lemma collusion_tag_iff fs cross score : fs <> [] <-> "risk:collusion_shared_device" ∈ tags_of fs cross score.
Proof.
  unfold tags_of. rewrite append_new_elem, elem_of_nil. split.
  - intros Hf. right. rewrite elem_of_app. left. destruct fs; [done|]. left.
  - intros [[]|H] ->. rewrite !elem_of_app in H. unfold tag_if, has_code in H. simpl in H.
    destruct_or?; try (by apply not_elem_of_nil in H);
      [destruct cross|destruct (fleb _ _)]; try (by apply not_elem_of_nil in H);
      apply list_elem_of_In in H; simpl in H; destruct_or?; done.
Qed.

(** The cross-role flag means what it says, and the score is a score: the
    flag is set exactly when a bridge node of the reported ring (device, place,
    promotion or payment instrument) is linked inside it to two parties with
    different, complementary roles; the hard-challenge tag is then always
    emitted, every factor flags the ring as collusion, and the score lies
    between 0 and 100. *)
Theorem cross_role_flag_exact now payload metadata g ns edges res :
  party_graph payload metadata = Ok (Some (g, ns, edges)) ->
  compute_ring_score now payload metadata = Ok (Some res) ->
  (res.(cross_role_same_device) = true <-> exists m, m ∈ res.(members) /\ cross_bridge res.(members) ns edges m)
  /\ (res.(cross_role_same_device) = true -> "action:hard_challenge" ∈ res.(ring_tags))
  /\ (res.(factors) <> [] <-> "risk:collusion_shared_device" ∈ res.(ring_tags))
  /\ fleb (litZ 0) res.(score_0_100) = true /\ fleb res.(score_0_100) (litZ 100) = true.
Proof.
  intros Hpg H. unfold compute_ring_score in H. rewrite Hpg in H. cbn [rbind] in H.
  destruct ns as [|n0 ns0]; [done|]. set (ns := n0 :: ns0) in *. inv_ok.
  set (primary := primary_of (ranked (map snd a0.1))) in *.
  destruct primary as [|m0 ms0] eqn:Em; [done|]. rewrite <- Em in *. inv_ok. destruct a1 as [fs cross].
  injection H as <-. cbn [cross_role_same_device members ring_tags factors score_0_100].
  apply ring_factors_cross in H2 as Hc.
  assert (Hin : forall x, x ∈ merge_sort String.le primary <-> x ∈ primary)
    by (intros x; by rewrite (merge_sort_Permutation String.le primary)).
  split; [|split; [|split; [|by apply fclamp_range]]].
  - rewrite Hc. split; intros (m & Hm & Hb); exists m; (split; [by apply Hin|]);
      (eapply cross_bridge_perm; [|exact Hb]); intros x; [done|symmetry]; done.
  - intros ->. unfold tags_of. apply append_new_elem. right. rewrite !elem_of_app. right. left. left.
  - apply collusion_tag_iff.
Qed.

Lemma cross_role_flag_exact_witness :
  exists res, compute_ring_score 0 PNone demo_graph = Ok (Some res) /\ res.(cross_role_same_device) = true
    /\ "action:hard_challenge" ∈ res.(ring_tags).
Proof.
  destruct (party_graph PNone demo_graph) as [[[[g ns] edges]|]|] eqn:E; [|vm_compute in E; discriminate E..].
  destruct (compute_ring_score 0 PNone demo_graph) as [[res|]|] eqn:Ec; [|vm_compute in Ec; discriminate Ec..].
  pose proof (cross_role_flag_exact 0 PNone demo_graph g ns edges res E Ec) as (_ & H & _).
  assert (Hc : res.(cross_role_same_device) = true) by (vm_compute in Ec; injection Ec as <-; reflexivity).
  exists res. exact (conj eq_refl (conj Hc (H Hc))).
Defined.
