(* ===== verification/Uuid.v ===== *)
(** [uuid.uuid5] and the SHA-1 digest it is made of.

    The label rows of the orchestrator are anchored to a history row by the
    version-5 UUID of its number, so that the same row always gives the same
    anchor.  SHA-1 is FIPS 180-4 on 32-bit words, over the padding and block
    functions of [Sha256]. *)

From Stdlib Require Import ZArith Lia Ascii String Bool.
From stdpp Require Import base option list strings.
From S2P Require Import Prelude PyFloat PyValue Sha256.
Local Open Scope Z_scope.

Definition rotl (n x : Z) : Z := Z.lor (w32 (Z.shiftl x n)) (Z.shiftr x (32 - n)).

Record s1state : Type := S1 { s1a : Z; s1b : Z; s1c : Z; s1d : Z; s1e : Z }.

Definition S1_0 : s1state := S1 1732584193 4023233417 2562383102 271733878 3285377520.

(** The round function and constant of round [t]. *)
Definition s1_fk (t : Z) (b c d : Z) : Z * Z :=
  if t <? 20 then (ch b c d, 1518500249)
  else if t <? 40 then (Z.lxor (Z.lxor b c) d, 1859775393)
  else if t <? 60 then (maj b c d, 2400959708)
  else (Z.lxor (Z.lxor b c) d, 3395469782).

Definition s1_round (s : s1state) (tw : Z * Z) : s1state :=
  let '(f, k) := s1_fk tw.1 (s1b s) (s1c s) (s1d s) in
  S1 (w32 (rotl 5 (s1a s) + f + s1e s + k + tw.2)) (s1a s) (rotl 30 (s1b s)) (s1c s) (s1d s).

(** The message schedule, newest word first. *)
Fixpoint s1_schedule (n : nat) (ws : list Z) : list Z :=
  match n with
  | O => ws
  | S n' =>
      s1_schedule n' (rotl 1 (Z.lxor (Z.lxor (nthz ws 2) (nthz ws 7)) (Z.lxor (nthz ws 13) (nthz ws 15))) :: ws)
  end.

Definition s1_compress (s : s1state) (block : list Z) : s1state :=
  let ws := reverse (s1_schedule 64 (reverse block)) in
  let r := foldl s1_round s (zip (map Z.of_nat (seq 0 80)) ws) in
  S1 (w32 (s1a s + s1a r)) (w32 (s1b s + s1b r)) (w32 (s1c s + s1c r)) (w32 (s1d s + s1d r)) (w32 (s1e s + s1e r)).

Definition sha1_bytes (bs : list Z) : s1state :=
  let ws := words_of (pad bs) in foldl s1_compress S1_0 (blocks (length ws) ws).

Definition sha1_hex (bs : list Z) : string :=
  let h := sha1_bytes bs in hex8 (s1a h) +:+ hex8 (s1b h) +:+ hex8 (s1c h) +:+ hex8 (s1d h) +:+ hex8 (s1e h).

Definition NAMESPACE_URL : list Z :=
  [107; 167; 184; 17; 157; 173; 17; 209; 128; 180; 0; 192; 79; 212; 48; 200].

(** [str(uuid5(namespace, name))]: the first sixteen bytes of the digest with
    the version and variant bits set. *)
Definition uuid5 (namespace : list Z) (name : string) : string :=
  let h := sha1_bytes (namespace ++ utf8 name) in
  let b := Z.lor (Z.land (s1b h) 4294905855) 20480 in
  let c := Z.lor (Z.land (s1c h) 1073741823) 2147483648 in
  let hb := hex8 b in
  let hc := hex8 c in
  hex8 (s1a h) +:+ "-" +:+ str_take 4 hb +:+ "-" +:+ str_drop 4 hb +:+ "-" +:+ str_take 4 hc
    +:+ "-" +:+ str_drop 4 hc +:+ hex8 (s1d h).

(** FIPS 180 and the standard library agree on these. *)
Example sha1_abc : sha1_hex (utf8 "abc") = "a9993e364706816aba3e25717850c26c9cd0d89d".
Proof. vm_compute. reflexivity. Qed.

Example uuid5_history : uuid5 NAMESPACE_URL "tarka:case_history:1" = "b26bf1de-fd54-54ab-be0b-1e598bea8f2f".
Proof. vm_compute. reflexivity. Qed.

(** * [uuid.UUID(text)] *)

(** [s.replace(sub, "")] for a non-empty [sub]; [skip] characters of a match
    remain to be dropped. *)
Fixpoint remove_sub (skip : nat) (sub s : string) : string :=
  match s with
  | EmptyString => EmptyString
  | String c s' =>
      match skip with
      | S k => remove_sub k sub s'
      | O => if String.prefix sub s then remove_sub (String.length sub - 1) sub s' else String c (remove_sub 0 sub s')
      end
  end.

Fixpoint lstrip_braces (s : string) : string :=
  match s with
  | EmptyString => EmptyString
  | String c s' => if Ascii.eqb c "{"%char || Ascii.eqb c "}"%char then lstrip_braces s' else s
  end.

Definition strip_braces (s : string) : string := String.rev (lstrip_braces (String.rev (lstrip_braces s))).

Definition hex_digit_val (c : ascii) : option Z :=
  let n := Z.of_N (code c) in
  if (48 <=? n) && (n <=? 57) then Some (n - 48)
  else if (97 <=? n) && (n <=? 102) then Some (n - 87)
  else if (65 <=? n) && (n <=? 70) then Some (n - 55)
  else None.

(** Digits with single underscores between them; [prev] says whether the last
    character was a digit. *)
Fixpoint hex_digits (acc : Z) (prev : bool) (s : string) : option Z :=
  match s with
  | EmptyString => if prev then Some acc else None
  | String c s' =>
      if Ascii.eqb c "_"%char then if prev then hex_digits acc false s' else None
      else match hex_digit_val c with Some d => hex_digits (acc * 16 + d) true s' | None => None end
  end.

(** [int(s, 16)]. *)
Definition int_base16 (s0 : string) : option Z :=
  let '(neg, s) := take_sign (strip s0) in
  let r := if String.prefix "0x" s || String.prefix "0X" s
           then match str_drop 2 s with
                | String c s' => if Ascii.eqb c "_"%char then hex_digits 0 false s' else hex_digits 0 false (String c s')
                | EmptyString => None
                end
           else hex_digits 0 false s in
  (fun n => if neg then - n else n) <$> r.

(** The value of [uuid.UUID(text)], [None] when it raises [ValueError]. *)
Definition uuid_of_string (text : string) : option Z :=
  let hex := remove_sub 0 "uuid:" (remove_sub 0 "urn:" text) in
  let hex := remove_sub 0 "-" (strip_braces hex) in
  if negb (str_len hex =? 32) then None
  else match int_base16 hex with
       | Some n => if (0 <=? n) && (n <? 2 ^ 128) then Some n else None
       | None => None
       end.

(** [str(uuid)]. *)
Definition uuid_to_string (n : Z) : string :=
  let w k := Z.land (Z.shiftr n k) 4294967295 in
  let b := hex8 (w 64) in
  let c := hex8 (w 32) in
  hex8 (w 96) +:+ "-" +:+ str_take 4 b +:+ "-" +:+ str_drop 4 b +:+ "-" +:+ str_take 4 c +:+ "-" +:+ str_drop 4 c
    +:+ hex8 (w 0).

Example uuid_parse : map uuid_of_string ["{6BA7B811-9dad-11d1-80b4-00c04fd430c8}"; "urn:uuid:6ba7b8119dad11d180b400c04fd430c8"; "x"]
  = [Some 143098242483405524118141958906375844040; Some 143098242483405524118141958906375844040; None].
Proof. vm_compute. reflexivity. Qed.

Example uuid_print : uuid_to_string 143098242483405524118141958906375844040 = "6ba7b811-9dad-11d1-80b4-00c04fd430c8".
Proof. vm_compute. reflexivity. Qed.
