(* ===== verification/Outbox.v ===== *)
(** The transactional outbox: [orchestrator/models/outbox.py], the worker
    [orchestrator/workers/outbox_processor.py] and the Redis locks of
    [orchestrator/middleware/idempotency.py].

    The table is the list of its rows in insertion order; a statement is a
    function from the table to the table it leaves, and a transaction that
    raises leaves the table it started from.  Redis is a finite map from keys to
    expiry instants.  Instants are microseconds; the clock readings, the side
    effects of the handlers and the failures of the database are inputs. *)

From Stdlib Require Import ZArith Lia Ascii String Bool.
From stdpp Require Import base option list sorting strings gmap.
From S2P Require Import Prelude PyFloat PyValue.
Local Open Scope Z_scope.

Definition OUTBOX_EVENT_GRAPH_INGEST : string := "GRAPH_INGEST".
Definition OUTBOX_EVENT_VELOCITY_UPDATE : string := "VELOCITY_UPDATE".
Definition OUTBOX_EVENT_SHADOW_RETRO_TAG : string := "SHADOW_RETRO_TAG".
Definition OUTBOX_EVENT_LABEL_PROPAGATE : string := "LABEL_PROPAGATE".

(** [timedelta(seconds=OUTBOX_RECLAIM_SECONDS)], in microseconds. *)
Definition OUTBOX_RECLAIM_SECONDS : Z := 600.
Definition seconds (n : Z) : Z := n * 1000000.

Inductive OutboxStatus : Type := PENDING | PROCESSING | COMPLETED | FAILED.
#[export] Instance OutboxStatus_eq_dec : EqDecision OutboxStatus.
Proof. solve_decision. Defined.

Record OutboxORM : Type := Task {
  uid : string; event_type : string; idempotency_key : string; task_payload : dict;
  task_status : OutboxStatus; retry_count : Z; max_retries : Z; last_error : option string;
  claimed_at : option Z; created_at : Z; processed_at : option Z }.

Abbreviation table := (list OutboxORM).

(** The exceptions of the database layer. *)
Definition IntegrityError : pyexn := OtherError "IntegrityError".
Definition OutboxTaskNotFoundError : pyexn := OtherError "OutboxTaskNotFoundError".

(** * Data access *)

Definition _normalize_event_type (event_type : string) : result string :=
  let token := strip event_type in
  if negb (nonempty token) || (100 <? str_len token) then Err ValueError else Ok token.

Definition _normalize_idempotency_key (idempotency_key : string) : result string :=
  let token := strip idempotency_key in
  if negb (nonempty token) || (255 <? str_len token) then Err ValueError else Ok token.

Definition _normalize_payload (payload : pyval) : result dict :=
  match payload with PDict d => Ok d | _ => Err TypeError end.

(** [fresh] is the [uuid4] of the row; the primary key and the unique index on
    the idempotency key make the insert fail when either is taken. *)
Definition create_task (fresh : string) (now : Z) (event_type idempotency_key : string) (payload : pyval)
    (tb : table) : result (table * OutboxORM) :=
  let! et := _normalize_event_type event_type in
  let! ik := _normalize_idempotency_key idempotency_key in
  let! pl := _normalize_payload payload in
  let row := Task fresh et ik pl PENDING 0 5 None None now None in
  if existsb (fun r => bool_decide (r.(Outbox.idempotency_key) = ik) || bool_decide (r.(uid) = fresh)) tb then Err IntegrityError
  else Ok (tb ++ [row], row).

(** The [where] clause of [fetch_pending_tasks]. *)
Definition claimable (now : Z) (t : OutboxORM) : bool :=
  match t.(task_status) with
  | PENDING => true
  | FAILED => t.(retry_count) <? t.(max_retries)
  | PROCESSING => match t.(claimed_at) with
                  | None => true
                  | Some c => c <? now - seconds OUTBOX_RECLAIM_SECONDS
                  end
  | COMPLETED => false
  end.

(** Rows created at the same instant come in table order. *)
Definition fetch_pending_tasks (now batch_size : Z) (tb : table) : result (list OutboxORM) :=
  if batch_size <? 1 then Err ValueError
  else Ok (take (Z.to_nat batch_size) (sort_by created_at (List.filter (claimable now) tb))).

(** [UPDATE ... WHERE id = task_id RETURNING *]. *)
Definition update_row (task_id : string) (f : OutboxORM -> OutboxORM) (tb : table) : table :=
  map (fun t => if bool_decide (t.(uid) = task_id) then f t else t) tb.

Definition row_by_id (task_id : string) (tb : table) : option OutboxORM :=
  head (List.filter (fun t => bool_decide (t.(uid) = task_id)) tb).

Definition update_returning (task_id : string) (f : OutboxORM -> OutboxORM) (tb : table)
    : result (table * OutboxORM) :=
  match row_by_id task_id (update_row task_id f tb) with
  | None => Err OutboxTaskNotFoundError
  | Some t => Ok (update_row task_id f tb, t)
  end.

Definition to_processing (now : Z) (t : OutboxORM) : OutboxORM :=
  Task t.(uid) t.(event_type) t.(idempotency_key) t.(task_payload) PROCESSING t.(retry_count) t.(max_retries)
    t.(last_error) (Some now) t.(created_at) t.(processed_at).

Definition mark_processing (now : Z) (task_id : string) (tb : table) : result (table * OutboxORM) :=
  update_returning task_id (to_processing now) tb.

Definition to_completed (now : Z) (note : option string) (t : OutboxORM) : OutboxORM :=
  Task t.(uid) t.(event_type) t.(idempotency_key) t.(task_payload) COMPLETED t.(retry_count) t.(max_retries)
    (match note with Some e => if nonempty e then Some (str_take 8192 e) else t.(last_error) | None => t.(last_error) end)
    None t.(created_at) (Some now).

Definition mark_completed (now : Z) (task_id : string) (note : option string) (tb : table)
    : result (table * OutboxORM) :=
  update_returning task_id (to_completed now note) tb.

Definition to_failed (msg : string) (t : OutboxORM) : OutboxORM :=
  Task t.(uid) t.(event_type) t.(idempotency_key) t.(task_payload) FAILED (t.(retry_count) + 1) t.(max_retries)
    (Some (str_take 8192 msg)) t.(claimed_at) t.(created_at) t.(processed_at).

Definition mark_failed (task_id error_msg : string) (tb : table) : result (table * OutboxORM) :=
  let msg := strip error_msg in
  if negb (nonempty msg) then Err ValueError else update_returning task_id (to_failed msg) tb.

(** [release_task_claim]: only a row still [PROCESSING] goes back. *)
Definition to_pending (t : OutboxORM) : OutboxORM :=
  match t.(task_status) with
  | PROCESSING =>
      Task t.(uid) t.(event_type) t.(idempotency_key) t.(task_payload) PENDING t.(retry_count) t.(max_retries)
        t.(last_error) t.(claimed_at) t.(created_at) t.(processed_at)
  | _ => t
  end.

Definition release_task_claim (task_id : string) (tb : table) : table := update_row task_id to_pending tb.

(** * Locks *)

Abbreviation locks := (gmap string Z).

Definition held (now : Z) (k : string) (l : locks) : bool :=
  match l !! k with Some expiry => now <? expiry | None => false end.

(** [SET key value NX EX ttl]: the new store and whether the key was set. *)
Definition set_nx_ex (now ttl : Z) (k : string) (l : locks) : locks * bool :=
  if held now k l then (l, false) else (<[k := now + seconds ttl]> l, true).

Definition _MAX_KEY_LEN : Z := 512.
Definition _MAX_TTL_SEC : Z := 86400 * 30.
Definition nul : ascii := ascii_of_N 0.

Definition _normalize_key (key : string) : result string :=
  let token := strip key in
  if negb (nonempty token) then Err ValueError
  else if _MAX_KEY_LEN <? str_len token then Err ValueError
  else if has_char nul token then Err ValueError
  else Ok token.

Definition _normalize_ttl (ttl_seconds : pyval) : result Z :=
  let! ttl := match py_int ttl_seconds with
              | Err TypeError | Err ValueError => Err ValueError
              | r => r
              end in
  if ttl <=? 0 then Err ValueError else Ok (Z.min ttl _MAX_TTL_SEC).

Definition verify_and_lock_event (redis : option locks) (now : Z) (key : string) (ttl_seconds : pyval)
    : result (locks * bool) :=
  match redis with
  | None => Err (OtherError "RuntimeError")
  | Some l =>
      let! k := _normalize_key key in
      let! ex := _normalize_ttl ttl_seconds in
      Ok (set_nx_ex now ex k l)
  end.

Definition release_lock (redis : option locks) (now : Z) (key : string) : result (locks * bool) :=
  match redis with
  | None => Err (OtherError "RuntimeError")
  | Some l => let! k := _normalize_key key in Ok (delete k l, held now k l)
  end.

Definition OUTBOX_LOCK_KEY_PREFIX : string := "outbox_lock:".
Definition OUTBOX_LOCK_TTL_SEC : Z := 600.

Definition _outbox_lock_key (idempotency_key : string) : result string :=
  let token := strip idempotency_key in
  if negb (nonempty token) then Err ValueError else Ok (OUTBOX_LOCK_KEY_PREFIX +:+ token).

Definition _try_acquire_outbox_lock (now : Z) (l : locks) (idempotency_key : string) : result (locks * bool) :=
  let! k := _outbox_lock_key idempotency_key in Ok (set_nx_ex now OUTBOX_LOCK_TTL_SEC k l).

Definition _release_outbox_lock (l : locks) (idempotency_key : string) : result locks :=
  let! k := _outbox_lock_key idempotency_key in Ok (delete k l).

(** * The worker *)

Definition TASK_HANDLERS : list string :=
  [OUTBOX_EVENT_GRAPH_INGEST; OUTBOX_EVENT_VELOCITY_UPDATE; OUTBOX_EVENT_LABEL_PROPAGATE;
   OUTBOX_EVENT_SHADOW_RETRO_TAG].

(** What [handler.execute] does: return (with a note on a no-op) or raise, with
    the text of the exception. *)
Inductive handler_outcome : Type :=
| Done (note : option string)
| Raised (msg : string).

(** One execution of a claimed task: the instant its lock is asked for, what the
    handler does, the instant it is finalised and whether that transaction
    commits. *)
Record attempt : Type := Attempt {
  lock_at : Z; outcome : handler_outcome; final_at : Z; commits : bool }.

Inductive routed : Type :=
| Finished (note : option string)
| LockNotAcquired
| RoutingError (msg : string)
| ExecutionError (msg : string).

(** [resolve_outbox_handler]: the text of the routing error, if any. *)
Definition resolve_outbox_handler (event_type : string) : option string :=
  let token := strip event_type in
  if mem token TASK_HANDLERS then None
  else Some ("no handler registered for event_type=" +:+ repr_str token).

Definition execute (o : handler_outcome) : routed :=
  match o with Done note => Finished note | Raised msg => ExecutionError msg end.

(** The locks left and what the call did. *)
Definition route_outbox_task (redis : option locks) (t : OutboxORM) (a : attempt) : option locks * routed :=
  let key := strip t.(idempotency_key) in
  let run := match resolve_outbox_handler t.(event_type) with
             | Some msg => RoutingError msg
             | None => execute a.(outcome)
             end in
  match redis with
  | Some l =>
      if nonempty key then
        let '(l', acquired) := set_nx_ex a.(lock_at) OUTBOX_LOCK_TTL_SEC (OUTBOX_LOCK_KEY_PREFIX +:+ key) l in
        if negb acquired then (Some l', LockNotAcquired)
        else (Some (match run with
                    | Finished _ => l'
                    | _ => delete (OUTBOX_LOCK_KEY_PREFIX +:+ key) l'
                    end), run)
      else (redis, run)
  | None => (redis, run)
  end.

Record OutboxBatchStats : Type := Stats { claimed : Z; completed : Z; failed : Z }.

Record worker : Type := Worker { tb : table; redis : option locks; stats : OutboxBatchStats }.

(** A finalising transaction: the table it leaves, and whether it committed. *)
Definition transact (commits : bool) (r : result (table * OutboxORM)) (tb : table) : table * bool :=
  match r with
  | Ok (tb', _) => if commits then (tb', true) else (tb, false)
  | Err _ => (tb, false)
  end.

Definition count_failed (b : bool) (s : OutboxBatchStats) : OutboxBatchStats :=
  if b then Stats s.(claimed) s.(completed) (s.(failed) + 1) else s.

Definition finish_failure (t : OutboxORM) (a : attempt) (msg : string) (redis : option locks) (w : worker) : worker :=
  let '(tb', done) := transact a.(commits) (mark_failed t.(uid) msg w.(tb)) w.(tb) in
  Worker tb' redis (count_failed done w.(stats)).

Definition finish_success (t : OutboxORM) (a : attempt) (note : option string) (redis : option locks) (w : worker)
    : worker :=
  let '(tb', done) := transact a.(commits) (mark_completed a.(final_at) t.(uid) note w.(tb)) w.(tb) in
  Worker tb' redis
    (if done then Stats w.(stats).(claimed) (w.(stats).(completed) + 1) w.(stats).(failed)
     else count_failed true w.(stats)).

(** One turn of the loop of [process_outbox_batch]. *)
Definition process_task (t : OutboxORM) (a : attempt) (w : worker) : worker :=
  let '(redis', did) := route_outbox_task w.(redis) t a in
  match did with
  | LockNotAcquired =>
      Worker (if a.(commits) then release_task_claim t.(uid) w.(tb) else w.(tb)) redis' w.(stats)
  | RoutingError msg | ExecutionError msg => finish_failure t a msg redis' w
  | Finished note => finish_success t a note redis' w
  end.

Fixpoint mark_all (now : Z) (rows : list OutboxORM) (tb : table) : result (table * list OutboxORM) :=
  match rows with
  | [] => Ok (tb, [])
  | r :: rows' =>
      let! m := mark_processing now r.(uid) tb in
      let! rest := mark_all now rows' m.1 in
      Ok (rest.1, m.2 :: rest.2)
  end.

(** The claim transaction; its clock is read once. *)
Definition claim_pending_batch (now batch_size : Z) (tb : table) : result (table * list OutboxORM) :=
  let! pending := fetch_pending_tasks now batch_size tb in
  mark_all now pending tb.

(** [env n] is the execution of the n-th task of the batch. *)
Fixpoint process_tasks (n : nat) (tasks : list OutboxORM) (env : nat -> attempt) (w : worker) : worker :=
  match tasks with
  | [] => w
  | t :: tasks' => process_tasks (S n) tasks' env (process_task t (env n) w)
  end.

Definition process_outbox_batch (now batch_size : Z) (env : nat -> attempt) (tb : table) (redis : option locks)
    : result worker :=
  let! c := claim_pending_batch now batch_size tb in
  Ok (process_tasks 0 c.2 env (Worker c.1 redis (Stats (Z.of_nat (length c.2)) 0 0))).

(** The poll loop of [run_worker]: one batch per wake-up, an error leaving the
    table as it was. *)
Fixpoint run_worker (batch_size : Z) (polls : list (Z * (nat -> attempt))) (st : table * option locks)
    : table * option locks :=
  match polls with
  | [] => st
  | (now, env) :: polls' =>
      run_worker batch_size polls'
        (match process_outbox_batch now batch_size env st.1 st.2 with
         | Ok w => (w.(tb), w.(redis))
         | Err _ => st
         end)
  end.

(** * Well-formed tables *)

(** Row ids and idempotency keys are unique and the keys are normalised. *)
Record wf_table (tb : table) : Prop := {
  wt_uids : NoDup (map uid tb);
  wt_keys : NoDup (map idempotency_key tb);
  wt_norm t : t ∈ tb -> strip t.(idempotency_key) = t.(idempotency_key) /\ nonempty t.(idempotency_key) = true }.

Definition keeps_identity (f : OutboxORM -> OutboxORM) : Prop :=
  forall t, (f t).(uid) = t.(uid) /\ (f t).(idempotency_key) = t.(idempotency_key).

Lemma keeps_processing now : keeps_identity (to_processing now). Proof. done. Qed.
Lemma keeps_completed now note : keeps_identity (to_completed now note). Proof. done. Qed.
Lemma keeps_failed msg : keeps_identity (to_failed msg). Proof. done. Qed.
Lemma keeps_pending : keeps_identity to_pending.
Proof. intros t. unfold to_pending. by destruct (task_status t). Qed.

#[export] Hint Resolve keeps_processing keeps_completed keeps_failed keeps_pending : tarka.

Lemma map_elem {A B} (f : A -> B) l y : y ∈ map f l <-> exists x, y = f x /\ x ∈ l.
Proof.
  rewrite list_elem_of_In, in_map_iff. split; intros (x & H1 & H2); exists x; (split; [done|]); by apply list_elem_of_In.
Qed.

Lemma nodup_inj {A B} (f : A -> B) l x y : NoDup (map f l) -> x ∈ l -> y ∈ l -> f x = f y -> x = y.
Proof.
  induction l as [|z l IH]; simpl; [by intros _ ?%not_elem_of_nil|].
  intros [Hz Hl]%NoDup_cons Hx Hy E.
  apply elem_of_cons in Hx as [-> | Hx], Hy as [-> | Hy]; try done.
  - destruct Hz. apply map_elem. eauto.
  - destruct Hz. apply map_elem. eauto.
  - by apply IH.
Qed.

Lemma update_row_map {B} (g : OutboxORM -> B) k f tb :
  (forall t, g (f t) = g t) -> map g (update_row k f tb) = map g tb.
Proof. intros H. unfold update_row. rewrite map_map. apply map_ext. intros t. by case_bool_decide. Qed.

Lemma update_row_elem k f tb t :
  t ∈ update_row k f tb <-> exists s, s ∈ tb /\ t = if bool_decide (s.(uid) = k) then f s else s.
Proof. unfold update_row. rewrite map_elem. naive_solver. Qed.

Lemma update_row_wf k f tb : keeps_identity f -> wf_table tb -> wf_table (update_row k f tb).
Proof.
  intros Hf [U K N]. split.
  - rewrite update_row_map; [done|apply Hf].
  - rewrite update_row_map; [done|apply Hf].
  - intros t (s & Hs & ->)%update_row_elem. case_bool_decide; [|by apply N].
    destruct (Hf s) as [_ ->]. by apply N.
Qed.

Lemma row_by_id_Some k tb t : row_by_id k tb = Some t -> t ∈ tb /\ t.(uid) = k.
Proof.
  unfold row_by_id. intros H. apply head_Some_elem_of in H.
  apply filter_elem in H as [? ?%bool_decide_eq_true]. done.
Qed.

Lemma row_by_id_elem tb t : wf_table tb -> t ∈ tb -> row_by_id t.(uid) tb = Some t.
Proof.
  intros Hw Ht. unfold row_by_id.
  destruct (List.filter (fun s => bool_decide (uid s = uid t)) tb) as [|s l] eqn:E; simpl.
  - assert (H : t ∈ List.filter (fun s => bool_decide (uid s = uid t)) tb)
      by (apply filter_elem; split; [done|by apply bool_decide_eq_true]).
    rewrite E in H. by apply not_elem_of_nil in H.
  - assert (H : s ∈ List.filter (fun s => bool_decide (uid s = uid t)) tb) by (rewrite E; left).
    apply filter_elem in H as [Hs Hu%bool_decide_eq_true]. f_equal. by apply (nodup_inj uid tb s t (wt_uids tb Hw)).
Qed.

Lemma update_returning_Ok k f tb t :
  keeps_identity f -> wf_table tb -> t ∈ tb -> t.(uid) = k ->
  update_returning k f tb = Ok (update_row k f tb, f t).
Proof.
  intros Hf Hw Ht <-. unfold update_returning.
  assert (H : f t ∈ update_row (uid t) f tb).
  { apply update_row_elem. exists t. split; [done|]. by rewrite bool_decide_eq_true_2. }
  pose proof (row_by_id_elem _ _ (update_row_wf (uid t) f tb Hf Hw) H) as E. destruct (Hf t) as [Hu _].
  rewrite Hu in E. by rewrite E.
Qed.

(** What an insert did. *)
Record inserted (tb tb' : table) (t : OutboxORM) : Prop := {
  ins_tb : tb' = tb ++ [t];
  ins_status : t.(task_status) = PENDING;
  ins_uid : t.(uid) ∉ map uid tb;
  ins_key : t.(idempotency_key) ∉ map idempotency_key tb }.

Lemma create_task_Ok fresh now et ik pl tb tb' t :
  create_task fresh now et ik pl tb = Ok (tb', t) ->
  inserted tb tb' t /\ t.(idempotency_key) = strip ik /\ nonempty (strip ik) = true /\ pl = PDict t.(task_payload)
  /\ t.(event_type) = strip et.
Proof.
  intros H. unfold create_task in H. inv_ok.
  destruct (existsb _ tb) eqn:E in H; [done|]. injection H as <- <-.
  unfold _normalize_idempotency_key in H1. destruct (nonempty (strip ik)) eqn:En; [|done].
  cbn [negb orb] in H1. destruct (255 <? _); [done|]. injection H1 as <-.
  unfold _normalize_event_type in H0. destruct (_ || _) in H0; [done|]. injection H0 as <-.
  unfold _normalize_payload in H2. destruct pl; try done. injection H2 as ->.
  assert (Hk : forall s, s ∈ tb -> idempotency_key s <> strip ik /\ uid s <> fresh).
  { intros s Hs. apply not_true_iff_false in E. split; intros Es; apply E, existsb_exists; exists s;
      (split; [by apply list_elem_of_In|]); apply orb_true_iff; [left|right]; by apply bool_decide_eq_true. }
  split; [|done]. split; [done|done| |]; intros (s & Es & Hs)%map_elem; destruct (Hk s Hs) as [H3 H4]; simpl in Es; done.
Qed.

Lemma inserted_wf tb tb' t :
  wf_table tb -> inserted tb tb' t -> strip t.(idempotency_key) = t.(idempotency_key) ->
  nonempty t.(idempotency_key) = true -> wf_table tb'.
Proof.
  intros [U K N] [-> _ Hu Hk] Hs Hn. split.
  - rewrite map_app. apply NoDup_app. split; [done|]. split; [|apply NoDup_singleton].
    by intros x Hx ->%list_elem_of_singleton.
  - rewrite map_app. apply NoDup_app. split; [done|]. split; [|apply NoDup_singleton].
    by intros x Hx ->%list_elem_of_singleton.
  - intros s [Hs'| ->%list_elem_of_singleton]%elem_of_app; [by apply N|done].
Qed.

Lemma create_task_wf fresh now et ik pl tb tb' t :
  wf_table tb -> create_task fresh now et ik pl tb = Ok (tb', t) -> wf_table tb'.
Proof.
  intros Hw H. apply create_task_Ok in H as (Hi & Ek & Hn & _).
  apply (inserted_wf _ _ _ Hw Hi); rewrite Ek; [apply strip_idem|done].
Qed.

(** A taken key refuses the insert. *)
Lemma create_task_taken fresh now et ik pl tb :
  strip ik ∈ map idempotency_key tb -> exists e, create_task fresh now et ik pl tb = Err e.
Proof.
  intros Ht. destruct (create_task fresh now et ik pl tb) as [[tb' t]|e] eqn:E; [|eauto].
  apply create_task_Ok in E as ([_ _ _ Hk] & Ek & _). rewrite Ek in Hk. done.
Qed.

(** * Claiming *)

(** The rows a claim takes. *)
Definition claims (now batch_size : Z) (tb : table) : list OutboxORM :=
  take (Z.to_nat batch_size) (sort_by created_at (List.filter (claimable now) tb)).

Definition with_claim (now : Z) (keys : list string) (tb : table) : table :=
  map (fun t => if mem t.(uid) keys then to_processing now t else t) tb.

Lemma with_claim_wf now ks tb : wf_table tb -> wf_table (with_claim now ks tb).
Proof.
  intros [U K N]. unfold with_claim. split.
  - rewrite map_map. erewrite map_ext; [exact U|]. intros t. by destruct (mem _ _).
  - rewrite map_map. erewrite map_ext; [exact K|]. intros t. by destruct (mem _ _).
  - intros t (s & -> & Hs)%map_elem. destruct (mem _ _); by apply (N s).
Qed.

Lemma claims_elem now b tb t : t ∈ claims now b tb -> t ∈ tb /\ claimable now t = true.
Proof.
  unfold claims. intros H. apply elem_of_take in H as (i & H%list_elem_of_lookup_2 & _).
  rewrite sort_by_perm in H. by apply filter_elem in H.
Qed.

Lemma filter_map_nodup {B} (g : OutboxORM -> B) f tb : NoDup (map g tb) -> NoDup (map g (List.filter f tb)).
Proof.
  induction tb as [|t tb IH]; simpl; [done|]. intros [Ht Hn]%NoDup_cons. destruct (f t); [|by apply IH].
  simpl. constructor; [|by apply IH]. intros (s & E & [Hs _]%filter_elem)%map_elem. apply Ht, map_elem. eauto.
Qed.

Lemma claims_nodup now b tb : wf_table tb -> NoDup (map uid (claims now b tb)).
Proof.
  intros Hw. unfold claims. rewrite <- firstn_map.
  eapply sublist_NoDup; [|apply sublist_take].
  rewrite (Permutation_map uid (sort_by_perm created_at _)). apply filter_map_nodup, Hw.
Qed.

Lemma mark_all_Ok now rows tb :
  wf_table tb -> (forall t, t ∈ rows -> t ∈ tb) -> NoDup (map uid rows) ->
  mark_all now rows tb = Ok (with_claim now (map uid rows) tb, map (to_processing now) rows).
Proof.
  revert tb. induction rows as [|r rows IH]; intros tb Hw Hin Hnd; simpl.
  - f_equal. f_equal. unfold with_claim. erewrite map_ext; [by rewrite map_id|]. done.
  - simpl in Hnd. apply NoDup_cons in Hnd as [Hr Hnd].
    unfold mark_processing. rewrite (update_returning_Ok _ _ tb r) by (try done; apply Hin; left).
    cbn [rbind fst snd]. rewrite IH; [| |intros t Ht|done].
    + cbn [rbind fst snd]. f_equal. f_equal. unfold with_claim, update_row. rewrite map_map. apply map_ext.
      intros t. unfold mem. destruct (bool_decide_reflect (uid t = uid r)) as [E|E]; simpl.
      * rewrite E, bool_decide_eq_false_2 by done. rewrite bool_decide_eq_true_2; [done|]. left.
      * erewrite bool_decide_ext; [done|]. rewrite elem_of_cons. tauto.
    + apply update_row_wf; auto with tarka.
    + apply update_row_elem. exists t. split; [apply Hin; by right|].
      rewrite bool_decide_eq_false_2; [done|]. intros E. apply Hr, map_elem. eauto.
Qed.

Lemma claim_spec now b tb :
  wf_table tb -> 1 <= b ->
  claim_pending_batch now b tb
  = Ok (with_claim now (map uid (claims now b tb)) tb, map (to_processing now) (claims now b tb)).
Proof.
  intros Hw Hb. unfold claim_pending_batch, fetch_pending_tasks.
  destruct (Z.ltb_spec b 1); [lia|]. cbn [rbind]. apply mark_all_Ok; [done| |by apply claims_nodup].
  intros t Ht. by apply (claims_elem now b).
Qed.

Lemma ascending_split {A} (key : A -> Z) n l x y :
  ascending key l -> x ∈ take n l -> y ∈ drop n l -> key x <= key y.
Proof.
  intros H. revert n. induction H as [|z l Hs IH Hf]; intros [|n]; simpl;
    try (by intros ?%not_elem_of_nil); try (by intros _ ?%not_elem_of_nil).
  intros [-> | Hx]%elem_of_cons Hy; [|by apply (IH n)].
  rewrite Forall_forall in Hf. apply Hf.
  rewrite <- (take_drop n l). apply elem_of_app. by right.
Qed.

(** Workers claim fairly and never together: a claim takes the oldest
    claimable rows, every one of them now processing under the claim's own time
    stamp, and a second worker that claims within the reclaim window gets none
    of them. *)
Theorem claims_exclusive now now' b b' tb tb1 c1 tb2 c2 :
  wf_table tb -> 1 <= b -> 1 <= b' -> now <= now' <= now + seconds OUTBOX_RECLAIM_SECONDS ->
  claim_pending_batch now b tb = Ok (tb1, c1) -> claim_pending_batch now' b' tb1 = Ok (tb2, c2) ->
  (forall t, t ∈ c1 -> t ∈ tb1 /\ t.(task_status) = PROCESSING /\ t.(claimed_at) = Some now)
  /\ (forall t s, t ∈ c1 -> s ∈ tb -> claimable now s = true -> s.(uid) ∉ map uid c1 ->
        t.(created_at) <= s.(created_at))
  /\ (forall t s, t ∈ c1 -> s ∈ c2 -> t.(uid) <> s.(uid)).
Proof.
  intros Hw Hb Hb' Hn H1 H2. rewrite claim_spec in H1 by done. injection H1 as <- <-.
  pose proof (with_claim_wf now (map uid (claims now b tb)) tb Hw) as Hw1.
  rewrite claim_spec in H2 by done. injection H2 as <- <-.
  split; [|split].
  - intros t (s & -> & Hs)%map_elem. split; [|done]. unfold with_claim. apply map_elem. exists s.
    split; [|by apply (claims_elem now b)]. rewrite (proj2 (mem_spec _ _)); [done|]. apply map_elem. eauto.
  - intros t s (t' & -> & Ht)%map_elem Hs Hc Hu. simpl. unfold claims in Ht.
    apply (ascending_split created_at _ _ _ _ (sort_by_ascending created_at _) Ht).
    assert (Hin : s ∈ sort_by created_at (List.filter (claimable now) tb)) by (rewrite sort_by_perm; by apply filter_elem).
    rewrite <- (take_drop (Z.to_nat b)) in Hin. apply elem_of_app in Hin as [Hin|Hin]; [|done].
    destruct Hu. rewrite map_map. apply map_elem. by exists s.
  - intros t s (t' & -> & Ht)%map_elem (s' & -> & Hs)%map_elem E. simpl in E.
    apply claims_elem in Hs as [Hs Hc]. unfold with_claim in Hs. apply map_elem in Hs as (s0 & -> & Hs0).
    assert (Hu : uid s0 = uid t') by (destruct (mem (uid s0) _); done).
    rewrite (proj2 (mem_spec _ _)) in Hc by (rewrite Hu; apply map_elem; eauto).
    unfold claimable in Hc. simpl in Hc. apply Z.ltb_lt in Hc. lia.
Qed.

Definition demo_row (k : string) (at_ : Z) : OutboxORM :=
  Task k OUTBOX_EVENT_GRAPH_INGEST k [] PENDING 0 5 None None at_ None.

Lemma demo_rows_wf : wf_table [demo_row "a" 1; demo_row "b" 2].
Proof.
  split; simpl.
  - apply NoDup_cons. split; [by rewrite list_elem_of_singleton|apply NoDup_singleton].
  - apply NoDup_cons. split; [by rewrite list_elem_of_singleton|apply NoDup_singleton].
  - intros t [-> | ->%list_elem_of_singleton]%elem_of_cons; done.
Defined.

Lemma claims_exclusive_witness :
  exists tb1 c1 tb2 c2,
    claim_pending_batch 10 1 [demo_row "a" 1; demo_row "b" 2] = Ok (tb1, c1)
    /\ claim_pending_batch 11 5 tb1 = Ok (tb2, c2)
    /\ length c1 = 1%nat /\ length c2 = 1%nat /\ (forall t s, t ∈ c1 -> s ∈ c2 -> t.(uid) <> s.(uid)).
Proof.
  destruct (claim_pending_batch 10 1 [demo_row "a" 1; demo_row "b" 2]) as [[tb1 c1]|] eqn:E1;
    [|vm_compute in E1; discriminate E1].
  destruct (claim_pending_batch 11 5 tb1) as [[tb2 c2]|] eqn:E2;
    [|pose proof E1 as E1'; vm_compute in E1'; injection E1' as <- <-; vm_compute in E2; discriminate E2].
  exists tb1, c1, tb2, c2. split; [reflexivity|]. split; [exact E2|].
  pose proof (claims_exclusive 10 11 1 5 _ tb1 c1 tb2 c2 demo_rows_wf ltac:(lia) ltac:(lia)
                ltac:(vm_compute; split; discriminate) E1 E2) as (_ & _ & H).
  split; [|split; [|exact H]].
  - vm_compute in E1. injection E1 as <- <-. reflexivity.
  - clear H. vm_compute in E1. injection E1 as <- <-. vm_compute in E2. injection E2 as <- <-. reflexivity.
Defined.

(** * Settling *)

(** A row no poll touches any more. *)
Definition settled (t : OutboxORM) : Prop :=
  t.(task_status) = COMPLETED \/ (t.(task_status) = FAILED /\ t.(max_retries) <= t.(retry_count)).

(** The executions a row can still ask for. *)
Definition rank (t : OutboxORM) : Z :=
  match t.(task_status) with
  | COMPLETED => 0
  | FAILED => Z.max 0 (t.(max_retries) - t.(retry_count))
  | PENDING | PROCESSING => Z.max 1 (t.(max_retries) - t.(retry_count))
  end.

Fixpoint budget (tb : table) : Z :=
  match tb with [] => 0 | t :: tb' => rank t + budget tb' end.

(** Locks belong to completed rows only. *)
Definition clean (tb : table) (redis : option locks) : Prop :=
  match redis with
  | None => True
  | Some l => forall t, t ∈ tb -> is_Some (l !! (OUTBOX_LOCK_KEY_PREFIX +:+ t.(idempotency_key))) ->
                t.(task_status) = COMPLETED
  end.

(** The database commits and an exception has a text. *)
Definition cooperative (a : attempt) : Prop :=
  a.(commits) = true /\ forall msg, a.(outcome) = Raised msg -> nonempty (strip msg) = true.

Definition idle (tb : table) : Prop := forall t, t ∈ tb -> t.(task_status) <> PROCESSING.

Lemma rank_nonneg t : 0 <= rank t.
Proof. unfold rank. destruct (task_status t); lia. Qed.

Lemma budget_nonneg tb : 0 <= budget tb.
Proof. induction tb as [|t tb IH]; simpl; [lia|]. pose proof (rank_nonneg t). lia. Qed.

Lemma rank_settled t : settled t -> rank t = 0.
Proof. unfold settled, rank. intros [-> | [-> ?]]; lia. Qed.

Lemma unsettled_claimable now t : t.(task_status) <> PROCESSING -> ~ settled t <-> claimable now t = true.
Proof.
  unfold settled, claimable. intros Hp. destruct (task_status t) eqn:E; try done.
  - split; [done|]. intros _ [? | [? ?]]; done.
  - split; [intros H; destruct H; by left|done].
  - rewrite Z.ltb_lt. split; [intros H|intros H [? | [? ?]]; [done|lia]].
    destruct (Z.lt_decidable (retry_count t) (max_retries t)); [done|]. destruct H. right. split; [done|lia].
Qed.

Lemma rank_claim now t : claimable now t = true -> rank (to_processing now t) = rank t.
Proof.
  unfold rank, claimable, to_processing. simpl. destruct (task_status t); try done. intros H%Z.ltb_lt. lia.
Qed.

Lemma budget_map (f : OutboxORM -> OutboxORM) tb :
  (forall t, t ∈ tb -> rank (f t) <= rank t) -> budget (map f tb) <= budget tb.
Proof.
  induction tb as [|t tb IH]; simpl; [lia|]. intros H.
  pose proof (H t ltac:(left)). pose proof (IH ltac:(intros; apply H; by right)). lia.
Qed.

Lemma budget_update k f tb t :
  t ∈ tb -> t.(uid) = k -> rank (f t) < rank t -> (forall s, s ∈ tb -> s.(uid) = k -> s = t) ->
  budget (update_row k f tb) < budget tb.
Proof.
  intros Ht Hk Hr Hu. unfold update_row.
  assert (Hle : forall l, (forall s, s ∈ l -> s ∈ tb) -> budget (map (fun s => if bool_decide (uid s = k) then f s else s) l) <= budget l).
  { intros l Hl. apply budget_map. intros s Hs. case_bool_decide; [|lia].
    rewrite (Hu s (Hl s Hs)) by done. lia. }
  apply list_elem_of_split in Ht as (l1 & l2 & ->).
  assert (App : forall l l', budget (l ++ l') = budget l + budget l').
  { intros l l'. induction l as [|x l IH]; simpl; [done|]. rewrite IH. lia. }
  rewrite map_app. simpl. rewrite !App. simpl. rewrite bool_decide_eq_true_2 by done.
  pose proof (Hle l1 ltac:(intros; apply elem_of_app; by left)).
  pose proof (Hle l2 ltac:(intros; apply elem_of_app; right; by right)). lia.
Qed.

Lemma strip_nonblank c s : is_space c = false -> nonempty (strip (String c s)) = true.
Proof. intros H. unfold strip. simpl. rewrite H. by rewrite rstrip_cons. Qed.

Lemma routing_error_nonblank ev msg : resolve_outbox_handler ev = Some msg -> nonempty (strip msg) = true.
Proof.
  unfold resolve_outbox_handler. destruct (mem _ _); [done|]. intros [= <-]. by apply strip_nonblank.
Qed.

(** The locks after a routed task concern the task's own key alone. *)
Lemma route_cases t a r :
  match r with Some l => l !! (OUTBOX_LOCK_KEY_PREFIX +:+ strip t.(idempotency_key)) = None | None => True end ->
  nonempty (strip t.(idempotency_key)) = true ->
  exists r' did, route_outbox_task r t a = (r', did) /\ did <> LockNotAcquired
    /\ (did = match resolve_outbox_handler t.(event_type) with
              | Some msg => RoutingError msg
              | None => execute a.(outcome)
              end)
    /\ match r, r' with
       | None, None => True
       | Some l, Some l' =>
           (forall k, k <> OUTBOX_LOCK_KEY_PREFIX +:+ strip t.(idempotency_key) -> l' !! k = l !! k)
           /\ ((forall note, did <> Finished note) ->
               l' !! (OUTBOX_LOCK_KEY_PREFIX +:+ strip t.(idempotency_key)) = None)
       | _, _ => False
       end.
Proof.
  intros Hl Hk. unfold route_outbox_task.
  set (run := match resolve_outbox_handler _ with Some _ => _ | None => _ end).
  assert (Hrun : run <> LockNotAcquired).
  { unfold run. destruct (resolve_outbox_handler _); [done|]. by destruct (outcome a). }
  destruct r as [l|]; [|eauto 10]. rewrite Hk. unfold set_nx_ex, held. rewrite Hl. cbn [negb].
  set (key := OUTBOX_LOCK_KEY_PREFIX +:+ _) in *.
  eexists _, _. split; [reflexivity|]. split; [done|]. split; [done|]. split.
  - intros k Hne. destruct run; rewrite ?lookup_delete_ne, ?lookup_insert_ne by done; done.
  - intros Hf. destruct run; [by destruct (Hf note)|done| |]; by rewrite lookup_delete_eq.
Qed.

Lemma clean_update tb r r' t f :
  wf_table tb -> t ∈ tb -> keeps_identity f -> clean tb r ->
  match r, r' with
  | None, None => True
  | Some l, Some l' =>
      (forall k, k <> OUTBOX_LOCK_KEY_PREFIX +:+ t.(idempotency_key) -> l' !! k = l !! k)
      /\ (l' !! (OUTBOX_LOCK_KEY_PREFIX +:+ t.(idempotency_key)) = None \/ (f t).(task_status) = COMPLETED)
  | _, _ => False
  end ->
  clean (update_row t.(uid) f tb) r'.
Proof.
  intros Hw Ht Hf Hc. destruct r as [l|], r' as [l'|]; try done. intros [Hne Hk] s (s0 & Hs & ->)%update_row_elem Hs'.
  destruct (bool_decide_reflect (uid s0 = uid t)) as [E|E].
  - assert (s0 = t) as -> by (by apply (nodup_inj uid tb s0 t (wt_uids tb Hw))).
    destruct (Hf t) as [_ Ek]. rewrite Ek in Hs'. destruct Hk as [Hk|Hk]; [|done].
    rewrite Hk in Hs'. by destruct Hs'.
  - apply Hc; [done|]. rewrite <- Hne; [done|]. intros Ek%sapp_inj. destruct E. f_equal.
    by apply (nodup_inj idempotency_key tb s0 t (wt_keys tb Hw)).
Qed.

Lemma process_task_spec t a w :
  wf_table w.(tb) -> t ∈ w.(tb) -> t.(task_status) = PROCESSING -> clean w.(tb) w.(redis) -> cooperative a ->
  exists f r' st,
    process_task t a w = Worker (update_row t.(uid) f w.(tb)) r' st
    /\ keeps_identity f /\ (f t).(task_status) <> PROCESSING /\ rank (f t) < rank t
    /\ clean (update_row t.(uid) f w.(tb)) r'.
Proof.
  intros Hw Ht Hp Hc [Hcm Hmsg]. destruct (wt_norm _ Hw t Ht) as [En Hn].
  destruct (route_cases t a w.(redis)) as (r' & did & Er & Hl & Hd & Hr).
  { destruct (redis w) as [l|] eqn:El; [|done]. rewrite En.
    destruct (l !! _) eqn:Ek; [|done]. simpl in Hc. rewrite (Hc t Ht) in Hp; [done|]. rewrite Ek. eauto. }
  { by rewrite En. }
  rewrite En in Hr. unfold process_task. rewrite Er.
  assert (Hfail : forall msg, nonempty (strip msg) = true -> (forall note, did <> Finished note) ->
    exists f r'' st, finish_failure t a msg r' w = Worker (update_row (uid t) f (tb w)) r'' st
      /\ keeps_identity f /\ task_status (f t) <> PROCESSING /\ rank (f t) < rank t
      /\ clean (update_row (uid t) f (tb w)) r'').
  { intros msg Hb Hnf. exists (to_failed (strip msg)), r', (count_failed true w.(stats)).
    unfold finish_failure, mark_failed. rewrite Hb. cbn [negb].
    rewrite (update_returning_Ok _ _ _ t) by (done || apply keeps_failed). cbn [transact]. rewrite Hcm.
    split; [done|]. split; [apply keeps_failed|]. split; [done|]. split; [unfold rank; rewrite Hp; simpl; lia|].
    apply (clean_update _ (redis w) r' t); [done..|apply keeps_failed|done|].
    destruct (redis w), r'; try done. destruct Hr as [H1 H2]. split; [done|]. left. by apply H2. }
  destruct did as [note| |msg|msg]; [|done| |].
  - exists (to_completed a.(final_at) note), r'. eexists. unfold finish_success, mark_completed.
    rewrite (update_returning_Ok _ _ _ t) by (done || apply keeps_completed). cbn [transact]. rewrite Hcm.
    split; [done|]. split; [apply keeps_completed|]. split; [done|]. split; [unfold rank; rewrite Hp; simpl; lia|].
    apply (clean_update _ (redis w) r' t); [done..|apply keeps_completed|done|].
    destruct (redis w), r'; try done. destruct Hr as [H1 H2]. split; [done|]. by right.
  - apply Hfail; [|done]. destruct (resolve_outbox_handler _) eqn:E.
    + injection Hd as ->. by apply routing_error_nonblank in E.
    + by destruct (outcome a).
  - apply Hfail; [|done]. destruct (resolve_outbox_handler _) eqn:E; [done|].
    destruct (outcome a) eqn:Eo; [done|]. injection Hd as ->. by apply Hmsg.
Qed.

Lemma process_tasks_spec env tasks : forall n w,
  wf_table w.(tb) -> (forall t, t ∈ tasks -> t ∈ w.(tb) /\ t.(task_status) = PROCESSING) ->
  NoDup (map uid tasks) -> (forall t, t ∈ w.(tb) -> t.(task_status) = PROCESSING -> t.(uid) ∈ map uid tasks) ->
  clean w.(tb) w.(redis) -> (forall i, cooperative (env i)) ->
  let w' := process_tasks n tasks env w in
  wf_table w'.(tb) /\ idle w'.(tb) /\ clean w'.(tb) w'.(redis)
  /\ budget w'.(tb) + Z.of_nat (length tasks) <= budget w.(tb).
Proof.
  induction tasks as [|t tasks IH]; intros n w Hw Hin Hnd Hp Hc Hco; simpl.
  - split; [done|]. split; [|split; [done|lia]]. intros t Ht Hs. apply Hp, not_elem_of_nil in Hs; done.
  - destruct (Hin t ltac:(left)) as [Ht Hs]. simpl in Hnd. apply NoDup_cons in Hnd as [Hu Hnd].
    destruct (process_task_spec t (env n) w Hw Ht Hs Hc (Hco n)) as (f & r' & st & -> & Hf & Hf1 & Hf2 & Hc').
    assert (Huniq : forall s, s ∈ tb w -> uid s = uid t -> s = t).
    { intros s Hs' E. by apply (nodup_inj uid (tb w) s t (wt_uids _ Hw)). }
    destruct (IH (S n) (Worker (update_row (uid t) f (tb w)) r' st)) as (H1 & H2 & H3 & H4); simpl; try done.
    + by apply update_row_wf.
    + intros s Hs'. destruct (Hin s ltac:(by right)) as [Hs1 Hs2]. split; [|done].
      apply update_row_elem. exists s. split; [done|]. rewrite bool_decide_eq_false_2; [done|].
      intros E. apply Hu, map_elem. eauto.
    + intros s (s0 & Hs0 & ->)%update_row_elem Hs'. case_bool_decide as E.
      * by rewrite (Huniq s0 Hs0 E) in Hs'.
      * apply Hp, elem_of_cons in Hs' as [? | ?]; done.
    + split; [done|]. split; [done|]. split; [done|].
      pose proof (budget_update (uid t) f (tb w) t Ht eq_refl Hf2 Huniq). simpl in H4. lia.
Qed.

Lemma claims_own now b tb s : wf_table tb -> s ∈ tb -> uid s ∈ map uid (claims now b tb) -> claimable now s = true.
Proof.
  intros Hw Hs (s' & E & [Hs' Hc]%claims_elem)%map_elem.
  by rewrite (nodup_inj uid tb s s' (wt_uids tb Hw) Hs Hs' E).
Qed.

(** One poll of an idle table: it runs, uses up one execution at least per row
    it claims, and leaves the table idle. *)
Lemma process_outbox_batch_spec now b env tb r :
  wf_table tb -> idle tb -> clean tb r -> 1 <= b -> (forall i, cooperative (env i)) ->
  exists w, process_outbox_batch now b env tb r = Ok w
    /\ wf_table w.(Outbox.tb) /\ idle w.(Outbox.tb) /\ clean w.(Outbox.tb) w.(redis)
    /\ budget w.(Outbox.tb) + Z.of_nat (length (claims now b tb)) <= budget tb.
Proof.
  intros Hw Hi Hc Hb Hco. unfold process_outbox_batch. rewrite claim_spec by done. cbn [rbind fst snd].
  set (c := claims now b tb). eexists. split; [reflexivity|].
  edestruct (process_tasks_spec env (map (to_processing now) c) 0
    (Worker (with_claim now (map uid c) tb) r (Stats (Z.of_nat (length (map (to_processing now) c))) 0 0)))
    as (H1 & H2 & H3 & H4); cbn [Outbox.tb redis].
  - by apply with_claim_wf.
  - intros t (s & -> & Hs)%map_elem. split; [|done]. unfold with_claim. apply map_elem. exists s.
    split; [|by apply (claims_elem now b)]. rewrite (proj2 (mem_spec _ _)); [done|]. apply map_elem. eauto.
  - rewrite map_map. by apply claims_nodup.
  - rewrite map_map. intros t (s & -> & Hs)%map_elem Ht. destruct (mem (uid s) (map uid c)) eqn:E.
    + by apply mem_spec in E.
    + by apply Hi in Hs.
  - destruct r as [l|]; [|done]. intros t (s & -> & Hs)%map_elem. destruct (mem (uid s) _) eqn:E; [|by apply Hc].
    intros Hk. apply mem_spec, claims_own in E; [|done..]. unfold claimable in E. by rewrite (Hc s Hs Hk) in E.
  - done.
  - split; [done|]. split; [done|]. split; [done|]. rewrite length_map in H4 |- *. cbn [Outbox.tb] in H4.
    assert (budget (with_claim now (map uid c) tb) <= budget tb); [|lia].
    unfold with_claim. apply budget_map. intros s Hs. destruct (mem (uid s) _) eqn:E; [|lia].
    apply mem_spec, claims_own in E; [|done..]. rewrite rank_claim by done. lia.
Qed.

Lemma unsettled_claims now b tb :
  idle tb -> 1 <= b -> (exists t, t ∈ tb /\ ~ settled t) -> 1 <= Z.of_nat (length (claims now b tb)).
Proof.
  intros Hi Hb (t & Ht & Hs). unfold claims. rewrite length_take.
  assert (H : t ∈ sort_by created_at (List.filter (claimable now) tb)).
  { rewrite sort_by_perm. apply filter_elem. split; [done|]. apply unsettled_claimable; [by apply Hi|done]. }
  destruct (sort_by _ _); [by apply not_elem_of_nil in H|]. simpl. lia.
Qed.

Lemma settled_dec t : Decision (settled t).
Proof. unfold settled. apply _. Defined.
#[export] Existing Instance settled_dec.

(** C34: a working queue drains: from a table with no row in processing and no
    lock left behind by an unfinished row, with the database committing and every
    failure carrying a text, as many polls as the rows have executions left
    (whatever the handlers do, however many rows each poll takes) leave every row
    completed or failed with its retries used up.  (A row whose worker died in
    processing can be claimed again only after 600 seconds.) *)
Theorem outbox_settles b polls tb r :
  wf_table tb -> idle tb -> clean tb r -> 1 <= b ->
  (forall p i, p ∈ polls -> cooperative (p.2 i)) -> budget tb <= Z.of_nat (length polls) ->
  forall t, t ∈ (run_worker b polls (tb, r)).1 -> settled t.
Proof.
  revert tb r. induction polls as [|[now env] polls IH]; intros tb r Hw Hi Hc Hb Hco Hl.
  - simpl in *. intros t Ht. destruct (decide (settled t)) as [|Hn]; [done|].
    assert (0 < budget tb); [|lia]. clear -Ht Hn Hi. induction tb as [|s tb IH]; [by apply not_elem_of_nil in Ht|].
    simpl. apply elem_of_cons in Ht as [<- | Ht].
    + pose proof (budget_nonneg tb). assert (0 < rank t); [|lia]. unfold settled in Hn. unfold rank.
      destruct (task_status t); try lia; [tauto|].
      assert (~ max_retries t <= retry_count t) by tauto. lia.
    + pose proof (rank_nonneg s). assert (0 < budget tb); [|lia]. apply IH; [|done]. intros x Hx. apply Hi. by right.
  - cbn [run_worker fst snd].
    destruct (process_outbox_batch_spec now b env tb r Hw Hi Hc Hb) as (w & -> & H1 & H2 & H3 & H4).
    { intros i. apply (Hco (now, env)). left. }
    apply IH; try done; [intros p i Hp; apply Hco; by right|].
    cbn [length] in Hl. destruct (decide (Exists (fun t => ~ settled t) tb)) as [He|He].
    + apply Exists_exists in He. pose proof (unsettled_claims now b tb Hi Hb He). lia.
    + assert (budget tb = 0); [|pose proof (budget_nonneg w.(Outbox.tb)); lia].
      clear -He. induction tb as [|s tb IHt]; [done|]. simpl. rewrite Exists_cons in He.
      rewrite IHt, rank_settled; [done| |tauto]. destruct (decide (settled s)); [done|tauto].
Qed.

(** Every handler run of the demonstration fails. *)
Definition demo_poll (n : Z) : Z * (nat -> attempt) :=
  (n * seconds 1, fun i => Attempt (n * seconds 1) (Raised "connection refused") (n * seconds 1) true).

Lemma outbox_settles_witness :
  (forall t, t ∈ (run_worker 1 (map demo_poll [1; 2; 3; 4; 5; 6; 7; 8; 9; 10])
                    ([demo_row "a" 1; demo_row "b" 2], Some ∅)).1 -> settled t)
  /\ map retry_count (run_worker 1 (map demo_poll [1; 2; 3; 4; 5; 6; 7; 8; 9; 10])
                    ([demo_row "a" 1; demo_row "b" 2], Some ∅)).1 = [5; 5].
Proof.
  split; [|vm_compute; reflexivity].
  apply (outbox_settles 1 (map demo_poll [1; 2; 3; 4; 5; 6; 7; 8; 9; 10]) [demo_row "a" 1; demo_row "b" 2] (Some ∅)).
  - exact demo_rows_wf.
  - intros t [-> | ->%list_elem_of_singleton]%elem_of_cons; done.
  - intros t _ [x Hx]. rewrite lookup_empty in Hx. done.
  - lia.
  - intros p i (n & -> & _)%map_elem. split; [reflexivity|]. intros msg [= <-]. reflexivity.
  - vm_compute. discriminate.
Defined.

(** * Failures without a text *)

(** [str(exc)] is blank for an exception raised without arguments, as
    [TimeoutError()]. *)
Definition blank (a : attempt) : Prop := exists msg, a.(outcome) = Raised msg /\ nonempty (strip msg) = false.

Record no_progress (s t : OutboxORM) : Prop := {
  np_type : t.(event_type) = s.(event_type);
  np_retry : t.(retry_count) = s.(retry_count);
  np_max : t.(max_retries) = s.(max_retries);
  np_settled : settled t -> settled s }.

Lemma no_progress_refl s : no_progress s s.
Proof. by split. Qed.

Lemma no_progress_trans s t u : no_progress s t -> no_progress t u -> no_progress s u.
Proof. intros [A B C D] [A' B' C' D']. split; [congruence..|tauto]. Qed.

#[export] Hint Resolve no_progress_refl : tarka.

Lemma claimed_unsettled now t : claimable now t = true -> ~ settled t.
Proof.
  unfold claimable, settled. intros H [E | [E ?]]; rewrite E in H; [done|]. apply Z.ltb_lt in H. lia.
Qed.

Lemma Forall2_map_self {A} (R : A -> A -> Prop) (f : A -> A) l :
  (forall x, x ∈ l -> R x (f x)) -> Forall2 R l (map f l).
Proof.
  induction l as [|x l IH]; simpl; intros H; constructor; [apply H; left|apply IH; intros; apply H; by right].
Qed.

Lemma no_progress_claim now b tb :
  wf_table tb -> Forall2 no_progress tb (with_claim now (map uid (claims now b tb)) tb).
Proof.
  intros Hw. apply Forall2_map_self. intros s Hs. destruct (mem _ _) eqn:E; [|auto with tarka].
  split; try done. by intros [? | [? ?]].
Qed.

Lemma no_progress_release k tb : Forall2 no_progress tb (release_task_claim k tb).
Proof.
  apply Forall2_map_self. intros s _. case_bool_decide; [|auto with tarka]. unfold to_pending.
  destruct (task_status s) eqn:E; [auto with tarka| |auto with tarka..].
  split; try done. by intros [? | [? ?]].
Qed.

#[export] Instance no_progress_Transitive : Transitive no_progress.
Proof. intros s t u. apply no_progress_trans. Qed.

Lemma blank_task t a w :
  blank a -> mem (strip t.(event_type)) TASK_HANDLERS = true ->
  (process_task t a w).(tb) = w.(tb) \/ (process_task t a w).(tb) = release_task_claim t.(uid) w.(tb).
Proof.
  intros (msg & Ho & Hb) Hm. unfold process_task, route_outbox_task, resolve_outbox_handler. rewrite Hm, Ho.
  cbn [execute].
  assert (Hf : forall r, (finish_failure t a msg r w).(tb) = w.(tb)).
  { intros r. unfold finish_failure, mark_failed. by rewrite Hb. }
  destruct (redis w) as [l|]; [|left; apply Hf]. destruct (nonempty (strip (idempotency_key t))); [|left; apply Hf].
  destruct (set_nx_ex _ _ _ _) as [l' []]; cbn [negb]; [left; apply Hf|]. destruct (commits a); [by right|by left].
Qed.

Lemma blank_tasks env tasks : forall n w,
  (forall i, blank (env i)) -> (forall t, t ∈ tasks -> mem (strip t.(event_type)) TASK_HANDLERS = true) ->
  wf_table w.(tb) ->
  Forall2 no_progress w.(tb) (process_tasks n tasks env w).(tb) /\ wf_table (process_tasks n tasks env w).(tb).
Proof.
  induction tasks as [|t tasks IH]; intros n w Hb Hm Hw; simpl.
  - split; [|done]. apply Forall_Forall2_diag, Forall_true. auto with tarka.
  - destruct (IH (S n) (process_task t (env n) w)) as [H1 H2].
    + done.
    + intros s Hs. apply Hm. by right.
    + destruct (blank_task t (env n) w (Hb n) (Hm t ltac:(left))) as [-> | ->]; [done|].
      apply update_row_wf; [apply keeps_pending|done].
    + split; [|done]. etrans; [|exact H1].
      destruct (blank_task t (env n) w (Hb n) (Hm t ltac:(left))) as [-> | ->]; [|apply no_progress_release].
      apply Forall_Forall2_diag, Forall_true. auto with tarka.
Qed.

Lemma Forall2_elem_r {A B} (R : A -> B -> Prop) l k y : Forall2 R l k -> y ∈ k -> exists x, x ∈ l /\ R x y.
Proof.
  intros H Hy. apply list_elem_of_lookup in Hy as [i Hi].
  destruct (Forall2_lookup_r _ _ _ _ _ H Hi) as (x & Hx & Hr). exists x. split; [|done].
  by apply list_elem_of_lookup_2 in Hx.
Qed.

(** A handler that fails without a text never settles its task: however
    often the worker polls and whatever the locks do, no retry is counted and
    no row that was not settled becomes so; the task is run again for ever. *)
Theorem blank_failures_never_settle b polls tb r :
  wf_table tb -> (forall t, t ∈ tb -> mem (strip t.(event_type)) TASK_HANDLERS = true) ->
  (forall p i, p ∈ polls -> blank (p.2 i)) ->
  Forall2 no_progress tb (run_worker b polls (tb, r)).1.
Proof.
  revert tb r. induction polls as [|[now env] polls IH]; intros tb r Hw Hm Hb; cbn [run_worker fst snd].
  - apply Forall_Forall2_diag, Forall_true. auto with tarka.
  - assert (Hrest : forall p i, p ∈ polls -> blank (p.2 i)) by (intros; apply Hb; by right).
    destruct (process_outbox_batch now b env tb r) as [w|] eqn:E; [|by apply IH].
    assert (H1 : 1 <= b).
    { unfold process_outbox_batch, claim_pending_batch, fetch_pending_tasks in E. destruct (Z.ltb_spec b 1); [done|lia]. }
    unfold process_outbox_batch in E. rewrite claim_spec in E by done. cbn [rbind fst snd] in E. apply Ok_inj in E as <-.
    set (w0 := Worker (with_claim _ _ _) _ _).
    pose proof (no_progress_claim now b tb Hw) as Hc.
    destruct (blank_tasks env (map (to_processing now) (claims now b tb)) 0 w0) as [H2 H3].
    + intros i. apply (Hb (now, env)). left.
    + intros t (s & -> & Hs)%map_elem. apply (Hm s). by apply (claims_elem now b).
    + by apply with_claim_wf.
    + assert (H4 : Forall2 no_progress tb (process_tasks 0 (map (to_processing now) (claims now b tb)) env w0).(Outbox.tb))
        by (etrans; [exact Hc|exact H2]).
      etrans; [exact H4|]. apply IH; [done| |done].
      intros t Ht. destruct (Forall2_elem_r _ _ _ _ H4 Ht) as (s & Hs & Hn). rewrite (np_type _ _ Hn). by apply Hm.
Qed.

Lemma blank_failures_never_settle_witness :
  let polls := map (fun n => (seconds n, fun _ => Attempt (seconds n) (Raised "") (seconds n) true))
                   [1; 700; 1400; 2100; 2800; 3500; 4200] in
  let final := (run_worker 10 polls ([demo_row "a" 1], Some ∅)).1 in
  Forall2 no_progress [demo_row "a" 1] final /\ map task_status final = [PROCESSING] /\ map retry_count final = [0].
Proof.
  split; [|split; vm_compute; reflexivity].
  apply (blank_failures_never_settle 10 _ [demo_row "a" 1] (Some ∅)).
  - split; [apply NoDup_singleton..|]. intros t ->%list_elem_of_singleton. split; reflexivity.
  - intros t ->%list_elem_of_singleton. vm_compute. reflexivity.
  - intros p i (n & -> & _)%map_elem. exists EmptyString. split; reflexivity.
Defined.

(** * The worker neither adds nor drops tasks *)

Definition same_rows (tb tb' : table) : Prop :=
  map uid tb' = map uid tb /\ map idempotency_key tb' = map idempotency_key tb.

Lemma same_rows_refl tb : same_rows tb tb.
Proof. done. Qed.

Lemma same_rows_trans tb1 tb2 tb3 : same_rows tb1 tb2 -> same_rows tb2 tb3 -> same_rows tb1 tb3.
Proof. intros [A B] [C D]. split; congruence. Qed.

Lemma same_rows_wf tb tb' : same_rows tb tb' -> wf_table tb -> wf_table tb'.
Proof.
  intros [A B] [U K N]. split; [by rewrite A|by rewrite B|]. intros t Ht.
  assert (H : t.(idempotency_key) ∈ map idempotency_key tb) by (rewrite <- B; apply map_elem; eauto).
  apply map_elem in H as (s & -> & Hs). by apply N.
Qed.

Lemma update_row_same k f tb : keeps_identity f -> same_rows tb (update_row k f tb).
Proof. intros Hf. split; apply update_row_map; apply Hf. Qed.

Lemma update_returning_same k f tb tb' t :
  keeps_identity f -> update_returning k f tb = Ok (tb', t) -> same_rows tb tb'.
Proof.
  intros Hf H. unfold update_returning in H. destruct (row_by_id _ _); [|done]. injection H as <- <-.
  by apply update_row_same.
Qed.

#[export] Hint Resolve same_rows_refl update_row_same : tarka.

Lemma mark_all_same now rows : forall tb tb' l, mark_all now rows tb = Ok (tb', l) -> same_rows tb tb'.
Proof.
  induction rows as [|r rows IH]; intros tb tb' l H; simpl in H; [by injection H as <- <-|].
  inv_ok. destruct a as [t1 ?], a0 as [t2 ?]. injection H as <- <-.
  apply (same_rows_trans _ t1); [|by eapply IH]. eapply update_returning_same; [|exact H0]. auto with tarka.
Qed.

Lemma transact_same c f k r tb :
  keeps_identity f -> (forall e, r = Err e \/ r = update_returning k f tb) -> same_rows tb (transact c r tb).1.
Proof.
  intros Hf Hr. destruct (Hr ValueError) as [-> | ->]; [done|].
  destruct (update_returning k f tb) as [[tb' t]|] eqn:E; [|done]. simpl. destruct c; [|done].
  by eapply update_returning_same.
Qed.

Lemma process_task_same t a w : same_rows w.(tb) (process_task t a w).(tb).
Proof.
  assert (Hfail : forall msg r, same_rows w.(tb) (finish_failure t a msg r w).(tb)).
  { intros msg r. unfold finish_failure, mark_failed. destruct (nonempty _); [|done]. cbn [negb].
    pose proof (transact_same a.(commits) (to_failed (strip msg)) t.(uid) _ w.(tb) (keeps_failed _)
                  (fun e => or_intror eq_refl)) as H.
    by destruct (transact _ _ _). }
  unfold process_task. destruct (route_outbox_task _ _ _) as [r' [note| |msg|msg]]; [| |done..].
  - unfold finish_success, mark_completed.
    pose proof (transact_same a.(commits) (to_completed a.(final_at) note) t.(uid) _ w.(tb) (keeps_completed _ _)
                  (fun e => or_intror eq_refl)) as H.
    by destruct (transact _ _ _).
  - simpl. destruct (commits a); [|done]. apply update_row_same, keeps_pending.
Qed.

Lemma process_tasks_same env tasks : forall n w, same_rows w.(tb) (process_tasks n tasks env w).(tb).
Proof.
  induction tasks as [|t tasks IH]; intros n w; simpl; [done|].
  eapply same_rows_trans; [apply process_task_same|apply IH].
Qed.

Lemma run_worker_same b polls : forall st, same_rows st.1 (run_worker b polls st).1.
Proof.
  induction polls as [|[now env] polls IH]; intros st; simpl; [done|].
  destruct (process_outbox_batch now b env st.1 st.2) as [w|] eqn:E; [|apply IH].
  eapply same_rows_trans; [|apply IH]. cbn [fst]. unfold process_outbox_batch in E. inv_ok. subst w. destruct a as [tb1 c].
  cbn [fst snd]. unfold claim_pending_batch in H. inv_ok.
  eapply same_rows_trans; [by eapply mark_all_same|]. apply (process_tasks_same env c 0 (Worker tb1 _ _)).
Qed.
