(* ===== verification/CaseStore.v ===== *)
(** The orchestrator's audit database and its transactions:
    [orchestrator/models/cases.py], [models/normalized_labels.py],
    [audit_case_worker.py], [label_propagation.py] (the enqueue side),
    [enforcement/log_decision.py], [ingest_side_effects.py] and
    [case_transition_api.py].

    A transaction is a function from the database to a [result]: an exception
    rolls the database back, so [Err] stands for an unchanged database.  The
    text of [audit_logs.action_taken] is kept as the value [json.loads] reads
    from it ([None] when it is not JSON).  Columns no modelled code reads
    (server time stamps, assignee) and column widths are left out.  Clock
    readings, [uuid4] draws and the ids of audit logs are arguments. *)

From Stdlib Require Import ZArith Lia Ascii String Bool.
From stdpp Require Import base option list sorting strings gmap.
From S2P Require Import Prelude PyFloat PyValue Sha256 Uuid Outbox.
Local Open Scope Z_scope.

(** * Statuses *)

Inductive CaseStatus : Type :=
| OPEN | UNDER_REVIEW | PENDING_ACTION | RESOLVED_FRAUD | RESOLVED_LEGIT | RESOLVED_AUTO.
#[export] Instance CaseStatus_eq_dec : EqDecision CaseStatus.
Proof. solve_decision. Defined.

Definition status_value (s : CaseStatus) : string :=
  match s with
  | OPEN => "OPEN"
  | UNDER_REVIEW => "UNDER_REVIEW"
  | PENDING_ACTION => "PENDING_ACTION"
  | RESOLVED_FRAUD => "RESOLVED_FRAUD"
  | RESOLVED_LEGIT => "RESOLVED_LEGIT"
  | RESOLVED_AUTO => "RESOLVED_AUTO"
  end.

(** The enum members in declaration order, and [CaseStatus(value)]. *)
Definition all_statuses : list CaseStatus :=
  [OPEN; UNDER_REVIEW; PENDING_ACTION; RESOLVED_FRAUD; RESOLVED_LEGIT; RESOLVED_AUTO].

Definition case_status (value : string) : option CaseStatus :=
  head (List.filter (fun s => bool_decide (status_value s = value)) all_statuses).

Definition in_set (s : CaseStatus) (l : list CaseStatus) : bool := bool_decide (s ∈ l).

Definition _RESOLVED : list CaseStatus := [RESOLVED_FRAUD; RESOLVED_LEGIT; RESOLVED_AUTO].
Definition _REOPEN_TARGETS : list CaseStatus := [OPEN; UNDER_REVIEW; PENDING_ACTION].

Definition _FORWARD (s : CaseStatus) : list CaseStatus :=
  match s with
  | OPEN => [UNDER_REVIEW; PENDING_ACTION; RESOLVED_FRAUD; RESOLVED_LEGIT; RESOLVED_AUTO]
  | UNDER_REVIEW => [OPEN; PENDING_ACTION; RESOLVED_FRAUD; RESOLVED_LEGIT; RESOLVED_AUTO]
  | PENDING_ACTION => [OPEN; UNDER_REVIEW; RESOLVED_FRAUD; RESOLVED_LEGIT; RESOLVED_AUTO]
  | RESOLVED_FRAUD => [RESOLVED_LEGIT; RESOLVED_AUTO]
  | RESOLVED_LEGIT => [RESOLVED_FRAUD; RESOLVED_AUTO]
  | RESOLVED_AUTO => [RESOLVED_FRAUD; RESOLVED_LEGIT]
  end.

Definition StateTransitionError : pyexn := OtherError "StateTransitionError".

Definition transition_status (current_status new_status : CaseStatus) (reopen_reason : option string)
    : result CaseStatus :=
  if bool_decide (current_status = new_status) then Ok new_status
  else if in_set current_status _RESOLVED && in_set new_status _REOPEN_TARGETS then
    match reopen_reason with
    | Some r => if nonempty (strip r) then Ok new_status else Err StateTransitionError
    | None => Err StateTransitionError
    end
  else if in_set current_status _RESOLVED && in_set new_status _RESOLVED then Ok new_status
  else if in_set new_status (_FORWARD current_status) then Ok new_status
  else Err StateTransitionError.

(** * Tables *)

Record CaseORM : Type := CaseRow {
  case_id : string; transaction_id : Z; user_link_key : string; entity_id : string; opened_at : Z;
  case_state : string; priority : Z; case_labels : list string; linked_session_id : option string }.

Record CaseHistoryORM : Type := HistoryRow {
  hist_id : Z; hist_case : string; audit_log_id : option Z;
  from_status : option string; to_status : option string;
  reason_code : option string; auth_token_fingerprint : option string }.

Record AuditLog : Type := Log {
  log_id : Z; log_case : string; action_taken : option pyval; agent_notes : option string;
  shadow_matches : list pyval }.

Record NormalizedLabelORM : Type := Label {
  label_id : string; source_type : string; source_id : string; label_entity : string;
  ground_truth_class : string; tags : list string; propagated_to_consortium : bool }.

Record DecisionORM : Type := Decision {
  decision_id : Z; decision_entity : string; final_decision : string; actions_json : list string;
  execution_trace_json : list pyval; blocking_rule_id : option string; raw_rule_engine_json : dict }.

Inductive SignalType : Type :=
| CHARGEBACK_RECEIVED | CHARGEBACK_REVERSED | REFUND_ISSUED | MANUAL_OVERRIDE | HIL_CONTEXT_OVERRIDE.

Inductive ManualOverrideAction : Type := ALLOW | BLOCK | REVIEW | FLAG.

(** An operational signal as its schema validated it; [sig_action] is the
    [override_action] of the metadata of a manual override. *)
Record OperationalSignalORM : Type := Signal {
  sig_id : string; sig_key : string; target_entity_id : string; signal_type : SignalType;
  sig_action : option ManualOverrideAction; metadata_json : dict }.

(** [anchors] are the ids of the shadow [cases] table, the target of the
    [audit_logs.case_id] foreign key; [fk_enforced] says whether the connection
    enforces it (PostgreSQL does, SQLite by default does not). *)
Record db : Type := DB {
  cases : list CaseORM; history : list CaseHistoryORM; logs : list AuditLog; anchors : list string;
  labels : list NormalizedLabelORM; decisions : list DecisionORM; outbox : table; cursor : option Z;
  fk_enforced : bool; signals : list OperationalSignalORM }.

Definition set_cases (l : list CaseORM) (d : db) : db :=
  DB l d.(history) d.(logs) d.(anchors) d.(labels) d.(decisions) d.(outbox) d.(cursor) d.(fk_enforced) d.(signals).
Definition set_history (l : list CaseHistoryORM) (d : db) : db :=
  DB d.(cases) l d.(logs) d.(anchors) d.(labels) d.(decisions) d.(outbox) d.(cursor) d.(fk_enforced) d.(signals).
Definition set_logs (l : list AuditLog) (d : db) : db :=
  DB d.(cases) d.(history) l d.(anchors) d.(labels) d.(decisions) d.(outbox) d.(cursor) d.(fk_enforced) d.(signals).
Definition set_anchors (l : list string) (d : db) : db :=
  DB d.(cases) d.(history) d.(logs) l d.(labels) d.(decisions) d.(outbox) d.(cursor) d.(fk_enforced) d.(signals).
Definition set_labels (l : list NormalizedLabelORM) (d : db) : db :=
  DB d.(cases) d.(history) d.(logs) d.(anchors) l d.(decisions) d.(outbox) d.(cursor) d.(fk_enforced) d.(signals).
Definition set_decisions (l : list DecisionORM) (d : db) : db :=
  DB d.(cases) d.(history) d.(logs) d.(anchors) d.(labels) l d.(outbox) d.(cursor) d.(fk_enforced) d.(signals).
Definition set_outbox (tb : table) (d : db) : db :=
  DB d.(cases) d.(history) d.(logs) d.(anchors) d.(labels) d.(decisions) tb d.(cursor) d.(fk_enforced) d.(signals).
Definition set_cursor (c : Z) (d : db) : db :=
  DB d.(cases) d.(history) d.(logs) d.(anchors) d.(labels) d.(decisions) d.(outbox) (Some c) d.(fk_enforced) d.(signals).

Definition set_signals (l : list OperationalSignalORM) (d : db) : db :=
  DB d.(cases) d.(history) d.(logs) d.(anchors) d.(labels) d.(decisions) d.(outbox) d.(cursor) d.(fk_enforced) l.

(** Autoincrement: one more than every id of the table. *)
Definition next_id (ids : list Z) : Z := foldr Z.max 0 ids + 1.

(** The inserts, with the constraints the tables declare. *)
Definition insert_history (case_id : string) (audit_log_id : option Z)
    (from_status to_status reason_code fingerprint : option string) (d : db) : result (db * CaseHistoryORM) :=
  let row := HistoryRow (next_id (map hist_id d.(history))) case_id audit_log_id from_status to_status
               reason_code fingerprint in
  if match audit_log_id with
     | Some a => existsb (fun h => bool_decide (h.(CaseStore.audit_log_id) = Some a)) d.(history)
     | None => false
     end
  then Err IntegrityError
  else Ok (set_history (d.(history) ++ [row]) d, row).

Definition insert_case (row : CaseORM) (d : db) : result db :=
  if existsb (fun c => bool_decide (c.(case_id) = row.(case_id))) d.(cases) then Err IntegrityError
  else Ok (set_cases (d.(cases) ++ [row]) d).

(** The id of a log is drawn from the sequence when the row is inserted, before
    the transaction commits: concurrent transactions may commit their ids in any
    order, so the id is an argument. *)
Definition insert_log (id : Z) (case_id : string) (body : option pyval) (notes : option string) (matches : list pyval) (d : db)
    : result (db * AuditLog) :=
  let row := Log id case_id body notes matches in
  if existsb (fun l => l.(log_id) =? id) d.(logs) || (d.(fk_enforced) && negb (mem case_id d.(anchors))) then Err IntegrityError
  else Ok (set_logs (d.(logs) ++ [row]) d, row).

Definition insert_label (row : NormalizedLabelORM) (d : db) : result db :=
  if existsb (fun l => bool_decide (l.(label_id) = row.(label_id))) d.(labels) then Err IntegrityError
  else Ok (set_labels (d.(labels) ++ [row]) d).

Definition insert_task (fresh : string) (now : Z) (event_type idempotency_key : string) (payload : dict) (d : db)
    : result db :=
  let! r := create_task fresh now event_type idempotency_key (PDict payload) d.(outbox) in
  Ok (set_outbox r.1 d).

(** * Case creation from audit logs *)

Definition ORCHESTRATOR_AUDIT_SOURCE : string := "orchestrator_orchestrate".
Definition TRIGGER_ACTIONS_FOR_LIFECYCLE : list string := ["BLOCK"; "FLAG"; "SHADOW_REVIEW"].

(** One turn of the loop of [priority_from_scores]; only [TypeError] and
    [ValueError] are caught. *)
Definition score_candidate (raw : pyval) : result (option float) :=
  if is_none raw then Ok None
  else
    let! v := try_except (rmap Some (py_float raw)) is_type_or_value_error None in
    Ok (match v with
        | Some v => if feqb v v && fleb (litZ 0) v && fleb v (litZ 100) then Some v else None
        | None => None
        end).

Definition priority_from_scores (rule_score ai_score : pyval) : result Z :=
  let! a := score_candidate rule_score in
  let! b := score_candidate ai_score in
  match a, b with
  | None, None => Ok 0
  | Some v, None | None, Some v => f_round_int v
  | Some v, Some w => f_round_int (fmax v w)
  end.

Definition _user_link_key (metadata : dict) (entity_id : string) : string :=
  let uid := get metadata "user_id" PNone in
  if negb (is_none uid) && nonempty (strip (py_str uid)) then py_str uid else entity_id.

(** [_ensure_shadow_case_row], in one transaction. *)
Definition _ensure_shadow_case_row (entity_id : string) (d : db) : db :=
  if mem entity_id d.(anchors) then d else set_anchors (d.(anchors) ++ [entity_id]) d.

(** [x is not None and str(x).strip()]. *)
Definition present (v : pyval) : bool := negb (is_none v) && nonempty (strip (py_str v)).

Definition is_number (v : pyval) : bool :=
  match v with PBool _ | PInt _ | PFloat _ => true | _ => false end.

(** [[str(x) for x in raw if str(x).strip()]]. *)
Definition str_tags (l : list pyval) : list string :=
  List.filter (fun s => nonempty (strip s)) (map py_str l).

(** The chargeback block of the audit payload. *)
Definition chargeback_fields (metadata payload : dict) : dict :=
  let payload := dict_set "ingestion_type" (PStr "CHARGEBACK") payload in
  let ls := por (get metadata "linked_session_id" PNone) (get metadata "session_id" PNone) in
  let payload := if present ls then dict_set "linked_session_id" (PStr (strip (py_str ls))) payload else payload in
  let oe := get metadata "original_entity_id" PNone in
  let payload := if present oe then dict_set "original_entity_id" (PStr (strip (py_str oe))) payload else payload in
  let raw_tags := if is_list (get metadata "case_tags" PNone) then get metadata "case_tags" PNone
                  else get metadata "labels" PNone in
  match raw_tags with
  | PList (x :: l) => dict_set "case_tags" (str_list (str_tags (x :: l))) payload
  | _ => dict_set "case_tags" (str_list ["Dispute"]) payload
  end.

Definition _orchestrator_audit_payload (entity_id : string) (metadata : dict) (actions : list string)
    (rule_data : dict) (shadow_data : pyval) (transaction_envelope : pyval) : result dict :=
  let hits := List.filter (fun a => mem a TRIGGER_ACTIONS_FOR_LIFECYCLE) actions in
  let user_key := _user_link_key metadata entity_id in
  let raw := get (as_dict shadow_data) "risk_score" PNone in
  let! rs := if is_none raw then Ok PNone
             else try_except (rmap PFloat (py_float raw)) is_type_or_value_error PNone in
  let score := get rule_data "risk_score" PNone in
  let! prio := priority_from_scores (if is_number score then score else PNone) rs in
  let payload := [("source", PStr ORCHESTRATOR_AUDIT_SOURCE); ("actions", str_list hits);
                  ("entity_id", PStr entity_id); ("user_id", get metadata "user_id" PNone);
                  ("user_link_key", PStr user_key); ("priority_hint", PInt prio)] in
  let ing := upper (str_or_empty (get metadata "ingestion_type" PNone)) in
  let payload := if bool_decide (ing = "CHARGEBACK") then chargeback_fields metadata payload else payload in
  Ok (match transaction_envelope with
      | PDict (kv :: env) => dict_set "transaction_envelope" (PDict (kv :: env)) payload
      | _ => payload
      end).

(** [set(v)]: iteration, refusing unhashable elements. *)
Definition py_set (v : pyval) : result (list pyval) :=
  let! l := py_iter v in
  if forallb (fun x => negb (is_list x || is_dict x)) l then Ok l else Err TypeError.

(** [set(body.get("actions") or []) & TRIGGER_ACTIONS_FOR_LIFECYCLE] is non-empty. *)
Definition triggers (body : dict) : result bool :=
  let! acts := py_set (por (get body "actions" PNone) (PList [])) in
  Ok (existsb (fun a => py_in (PStr a) acts) TRIGGER_ACTIONS_FOR_LIFECYCLE).

Definition DAY : Z := seconds 86400.

(** The oldest case of the user opened in the last 24 hours. *)
Definition recent_case (user_key : string) (now : Z) (d : db) : option CaseORM :=
  head (sort_by opened_at
    (List.filter (fun c => bool_decide (c.(user_link_key) = user_key) && (now - DAY <=? c.(opened_at))) d.(cases))).

(** [int(body.get("priority_hint") or 0)], clamped. *)
Definition hint_priority (body : dict) : result Z :=
  let! p := try_except (py_int (por (get body "priority_hint" PNone) (PInt 0))) is_type_or_value_error 0 in
  Ok (Z.max 0 (Z.min 100 p)).

Definition new_case_labels (body : dict) : list string :=
  let case_labels := match get body "case_tags" PNone with PList l => str_tags l | _ => [] end in
  if bool_decide (upper (str_or_empty (get body "ingestion_type" PNone)) = "CHARGEBACK")
     && match case_labels with [] => true | _ => false end
  then ["Dispute"] else case_labels.

Definition body_user_key (body : dict) : string :=
  py_str (por (get body "user_link_key" PNone) (por (get body "user_id" PNone) (get body "entity_id" PNone))).

(** The row a payload opens. *)
Definition new_case (cid : string) (audit_log_id now : Z) (body : dict) (entity_id : string) (prio : Z) : CaseORM :=
  let linked_sid := get body "linked_session_id" PNone in
  CaseRow cid audit_log_id (body_user_key body) entity_id now (status_value OPEN) prio (new_case_labels body)
    (if present linked_sid then Some (strip (py_str linked_sid)) else None).

(** [cid] is the [uuid4] drawn when a case is opened.  A duplicate history row
    of a known case is swallowed with its savepoint; one of a new case is not. *)
Definition _upsert_lifecycle_case_from_payload (cid : string) (audit_log_id now : Z) (body : dict) (d : db)
    : result (db * option string) :=
  let! t := triggers body in
  if negb t then Ok (d, None)
  else
    let! entity_id := match dict_lookup "entity_id" body with Some v => Ok (py_str v) | None => Err KeyError end in
    let! prio := hint_priority body in
    match recent_case (body_user_key body) now d with
    | Some existing =>
        match insert_history existing.(case_id) (Some audit_log_id) None None None None d with
        | Ok (d', _) => Ok (d', Some existing.(case_id))
        | Err _ => Ok (d, Some existing.(case_id))
        end
    | None =>
        let! d1 := insert_case (new_case cid audit_log_id now body entity_id prio) d in
        let! r := insert_history cid (Some audit_log_id) None None None None d1 in
        Ok (r.1, Some cid)
    end.

Definition materialize_lifecycle_case_for_ingest (cid : string) (audit_log_id now : Z) (entity_id : string)
    (metadata : dict) (actions : list string) (rule_data : dict) (shadow_data : pyval) (d : db)
    : result (db * option string) :=
  let! payload := _orchestrator_audit_payload entity_id metadata actions rule_data shadow_data PNone in
  if negb (truthy (get payload "actions" PNone)) then Ok (d, None)
  else _upsert_lifecycle_case_from_payload cid audit_log_id now payload d.

Definition persist_orchestrator_audit_log (id : Z) (entity_id : string) (metadata : dict) (actions : list string)
    (rule_data : dict) (shadow_data : pyval) (shadow_matches : list pyval) (transaction_envelope : pyval) (d : db)
    : result (db * Z) :=
  let! payload := _orchestrator_audit_payload entity_id metadata actions rule_data shadow_data transaction_envelope in
  let! r := insert_log id entity_id (Some (PDict payload)) None shadow_matches d in
  Ok (r.1, r.2.(log_id)).

(** One log of the poll: anything that is not an orchestrator payload is
    skipped; [mint] draws the case ids. *)
Definition poll_log (mint : Z -> string) (now : Z) (log : AuditLog) (d : db) : result db :=
  match log.(action_taken) with
  | Some (PDict body) =>
      if eq_str (get body "source" PNone) ORCHESTRATOR_AUDIT_SOURCE
      then rmap fst (_upsert_lifecycle_case_from_payload (mint log.(log_id)) log.(log_id) now body d)
      else Ok d
  | _ => Ok d
  end.

Fixpoint poll_logs (mint : Z -> string) (now : Z) (l : list AuditLog) (d : db) : result db :=
  match l with
  | [] => Ok d
  | log :: l' => let! d' := poll_log mint now log d in poll_logs mint now l' d'
  end.

(** The next 500 logs after the cursor. *)
Definition poll_window (d : db) : list AuditLog :=
  take 500 (sort_by log_id (List.filter (fun l => default 0 d.(cursor) <? l.(log_id)) d.(logs))).

Definition process_new_audit_logs (mint : Z -> string) (now : Z) (d : db) : result db :=
  let window := poll_window d in
  let d := match d.(cursor) with None => set_cursor 0 d | Some _ => d end in
  match window with
  | [] => Ok d
  | _ =>
      let! d' := poll_logs mint now window d in
      Ok (set_cursor (foldl (fun m l => Z.max m l.(log_id)) (default 0 d.(cursor)) window) d')
  end.

(** * Ground-truth labels *)

Definition SOURCE_TYPE_ANALYST_DISPOSITION : string := "ANALYST_DISPOSITION".

Inductive GroundTruthClass : Type := FRAUD | LEGITIMATE.
Definition truth_value (g : GroundTruthClass) : string :=
  match g with FRAUD => "FRAUD" | LEGITIMATE => "LEGITIMATE" end.

Definition ground_truth_class_for_resolved_status (status : CaseStatus) : option GroundTruthClass :=
  match status with
  | RESOLVED_FRAUD => Some FRAUD
  | RESOLVED_LEGIT => Some LEGITIMATE
  | _ => None
  end.

Definition case_history_source_id (case_history_id : Z) : result string :=
  if case_history_id <? 1 then Err ValueError
  else Ok (uuid5 NAMESPACE_URL ("tarka:case_history:" +:+ Z_to_string case_history_id)).

(** The duplicate test looks at the whole token, the list keeps 128 characters. *)
Fixpoint push_tags (out : list string) (raws : list string) : list string :=
  match raws with
  | [] => out
  | raw :: raws' =>
      let token := strip raw in
      push_tags (if nonempty token && negb (mem token out) then out ++ [str_take 128 token] else out) raws'
  end.

Definition _normalize_tags (tags : list string) (reason_code resolved_status : string) : list string :=
  let out := ["analyst_disposition"; strip resolved_status] in
  let rc := strip reason_code in
  push_tags (if nonempty rc then out ++ ["reason:" +:+ rc] else out) tags.

Definition _normalize_entity_id (entity_id : string) : result string :=
  let token := strip entity_id in
  if negb (nonempty token) || (512 <? str_len token) then Err ValueError else Ok token.

Definition create_analyst_disposition (fresh : string) (case_history_id : Z) (entity_id : string)
    (ground_truth : GroundTruthClass) (reason_code resolved_status : string) (tags : list string) (d : db)
    : result (db * NormalizedLabelORM) :=
  let! sid := case_history_source_id case_history_id in
  let! eid := _normalize_entity_id entity_id in
  let row := Label fresh SOURCE_TYPE_ANALYST_DISPOSITION sid eid (truth_value ground_truth)
               (_normalize_tags tags reason_code resolved_status) false in
  let! d' := insert_label row d in
  Ok (d', row).

(** [append_structural_tags]: [seen] holds whole tokens, the list their first
    128 characters. *)
Fixpoint merge_tags (seen merged raws : list string) : list string :=
  match raws with
  | [] => merged
  | raw :: raws' =>
      let token := strip raw in
      if negb (nonempty token) || mem token seen then merge_tags seen merged raws'
      else merge_tags (token :: seen) (merged ++ [str_take 128 token]) raws'
  end.

Definition update_label (id : string) (f : NormalizedLabelORM -> NormalizedLabelORM) (d : db) : result db :=
  if existsb (fun l => bool_decide (l.(label_id) = id)) d.(labels)
  then Ok (set_labels (map (fun l => if bool_decide (l.(label_id) = id) then f l else l) d.(labels)) d)
  else Err (OtherError "LookupError").

Definition append_structural_tags (id : string) (structural_tags : list string) (d : db) : result db :=
  update_label id (fun l =>
    Label l.(label_id) l.(source_type) l.(source_id) l.(label_entity) l.(ground_truth_class)
      (merge_tags l.(tags) l.(tags) structural_tags) l.(propagated_to_consortium)) d.

Definition mark_propagated (id : string) (d : db) : result db :=
  update_label id (fun l =>
    Label l.(label_id) l.(source_type) l.(source_id) l.(label_entity) l.(ground_truth_class) l.(tags) true) d.

Definition LABEL_PROPAGATE_SCHEMA : string := "tarka.label_propagate.v1".

Definition opt_field (k : string) (v : option pyval) (d : dict) : dict :=
  match v with Some x => dict_set k x d | None => d end.

Definition build_label_propagate_payload (normalized_label_id entity_id source_type source_id ground_truth_class
    disposition_text : string) (case_history_id audit_log_id : option Z) (operational_metadata : option dict) : dict :=
  opt_field "operational_metadata" (PDict <$> operational_metadata)
    (opt_field "audit_log_id" (PInt <$> audit_log_id)
      (opt_field "case_history_id" (PInt <$> case_history_id)
        [("schema", PStr LABEL_PROPAGATE_SCHEMA); ("normalized_label_id", PStr normalized_label_id);
         ("entity_id", PStr entity_id); ("source_type", PStr source_type); ("source_id", PStr source_id);
         ("ground_truth_class", PStr ground_truth_class); ("disposition_text", PStr disposition_text)])).

Definition label_propagate_key (normalized_label_id : string) : string := "label_propagate:" +:+ normalized_label_id.

Definition enqueue_label_propagate_task (fresh : string) (now : Z) (normalized_label_id entity_id source_type source_id
    ground_truth_class disposition_text : string) (case_history_id audit_log_id : option Z)
    (operational_metadata : option dict) (d : db) : result db :=
  insert_task fresh now OUTBOX_EVENT_LABEL_PROPAGATE (label_propagate_key normalized_label_id)
    (build_label_propagate_payload normalized_label_id entity_id source_type source_id ground_truth_class
       disposition_text case_history_id audit_log_id operational_metadata) d.

(** * Status transitions *)

Definition LIFECYCLE_STATUS_TRANSITION_SOURCE : string := "lifecycle_case_status_transition".
Definition _TERMINAL_STATUSES : list CaseStatus := [RESOLVED_FRAUD; RESOLVED_LEGIT; RESOLVED_AUTO].

Definition _fingerprint_auth_token (raw : string) : string := sha256_hex raw.

Definition _persist_lifecycle_status_audit_log (id : Z) (shadow_case_id lifecycle_case_id old_status new_status actor_id
    justification : string) (agent_notes : option string) (d : db) : result (db * AuditLog) :=
  insert_log id shadow_case_id
    (Some (PDict [("source", PStr LIFECYCLE_STATUS_TRANSITION_SOURCE); ("lifecycle_case_id", PStr lifecycle_case_id);
                  ("old_status", PStr old_status); ("new_status", PStr new_status); ("actor_id", PStr actor_id);
                  ("justification", PStr justification)]))
    agent_notes [] (_ensure_shadow_case_row shadow_case_id d).

Definition _fetch_lifecycle_case_for_update (cid : string) (d : db) : option CaseORM :=
  head (List.filter (fun c => bool_decide (c.(case_id) = cid)) d.(cases)).

Definition _shadow_retro_case_outbox_payload (entity_id case_id new_status : string) (analyst_notes : option string)
    : dict :=
  let payload := [("entity_id", PStr entity_id); ("case_id", PStr case_id); ("new_status", PStr new_status)] in
  match analyst_notes with
  | Some n => if nonempty (strip n) then dict_set "analyst_notes" (PStr (strip n)) payload else payload
  | None => payload
  end.

Definition shadow_tag_key (case_id new_status : string) : string :=
  "shadow_tag_case:" +:+ case_id +:+ ":" +:+ new_status.

Definition _enqueue_shadow_retro_tag_for_case_resolution (fresh : string) (now : Z) (case_id entity_id new_status : string)
    (analyst_notes : option string) (d : db) : result db :=
  insert_task fresh now OUTBOX_EVENT_SHADOW_RETRO_TAG (shadow_tag_key case_id new_status)
    (_shadow_retro_case_outbox_payload entity_id case_id new_status analyst_notes) d.

(** [row.status = next_status.value]. *)
Definition set_case_state (cid state : string) (d : db) : db :=
  set_cases (map (fun c => if bool_decide (c.(case_id) = cid)
                           then CaseRow c.(case_id) c.(transaction_id) c.(user_link_key) c.(entity_id) c.(opened_at)
                                  state c.(priority) c.(case_labels) c.(linked_session_id)
                           else c) d.(cases)) d.

(** The [uuid4] draws of one request, and the id of its audit log. *)
Record draws : Type := Draws { draw_label : string; draw_label_task : string; draw_retro_task : string; draw_log : Z }.

Record put_request : Type := Put {
  put_case : string; new_status_raw : string; put_reason : string; auth_token : string;
  put_agent_notes : option string; put_analyst_notes : option string }.

Record put_response : Type := Response {
  resp_case : string; resp_status : string; history_row_id : Z; resp_audit_log_id : Z;
  graph_sync : option string  (** the user vertex marked fraudulent afterwards *) }.

(** The label and its propagation task, for the two analyst outcomes. *)
Definition label_resolution (fr : draws) (now : Z) (row : CaseORM) (next : CaseStatus) (rc : string) (hid aid : Z) (d : db)
    : result db :=
  match ground_truth_class_for_resolved_status next with
  | None => Ok d
  | Some g =>
      let! l := create_analyst_disposition fr.(draw_label) hid row.(entity_id) g rc (status_value next) [] d in
      enqueue_label_propagate_task fr.(draw_label_task) now l.2.(label_id) row.(entity_id) l.2.(source_type)
        l.2.(source_id) l.2.(ground_truth_class) rc (Some hid) (Some aid) None l.1
  end.

Definition retro_tag (fr : draws) (now : Z) (row : CaseORM) (next : CaseStatus) (notes : option string) (cid : string) (d : db)
    : result db :=
  if in_set next _TERMINAL_STATUSES
  then _enqueue_shadow_retro_tag_for_case_resolution fr.(draw_retro_task) now cid row.(entity_id) (status_value next) notes d
  else Ok d.

(** The request checks: the trimmed case id, reason, token and target status. *)
Definition check_put (configured : bool) (q : put_request) : result (string * string * string * CaseStatus) :=
  if negb configured then Err (http 503 "audit_database_unconfigured") else
  let cid := strip q.(put_case) in
  if negb (nonempty cid) || (64 <? str_len cid) || has_char nul cid then Err (http 422 "invalid_case_id") else
  let rc := strip q.(put_reason) in
  if negb (nonempty rc) then Err (http 422 "missing_reason_code") else
  let tok := strip q.(auth_token) in
  if negb (nonempty tok) then Err (http 422 "missing_auth_token") else
  match case_status (strip q.(new_status_raw)) with
  | None => Err (http 422 "invalid_status")
  | Some s => Ok (cid, rc, tok, s)
  end.

(** The transaction of [put_lifecycle_case_status]. *)
Definition put_transaction (fr : draws) (now : Z) (cid rc tok : string) (new_status : CaseStatus) (notes : option string)
    (d : db) : result (db * CaseORM * CaseStatus * Z * Z) :=
  match _fetch_lifecycle_case_for_update cid d with
  | None => Err (http 404 "case_not_found")
  | Some row =>
      match case_status row.(case_state) with
      | None => Err (http 409 "corrupt_case_status")
      | Some current =>
          match transition_status current new_status (Some rc) with
          | Err _ => Err (http 409 "illegal_transition")
          | Ok next =>
              let shadow_case_id := strip row.(entity_id) in
              if negb (nonempty shadow_case_id) then Err (http 409 "missing_entity_id") else
              let actor_id := _fingerprint_auth_token tok in
              let! l := _persist_lifecycle_status_audit_log fr.(draw_log) shadow_case_id cid row.(case_state) (status_value next)
                          actor_id rc notes d in
              let aid := l.2.(log_id) in
              let! h := insert_history cid (Some aid) (Some row.(case_state)) (Some (status_value next)) (Some rc)
                          (Some actor_id) (set_case_state cid (status_value next) l.1) in
              let hid := h.2.(hist_id) in
              let! d1 := label_resolution fr now row next rc hid aid h.1 in
              let! d2 := retro_tag fr now row next notes cid d1 in
              Ok (d2, row, next, hid, aid)
          end
      end
  end.

Definition put_lifecycle_case_status (fr : draws) (now : Z) (configured has_graph : bool) (q : put_request) (d : db)
    : result (db * put_response) :=
  let! (cid, rc, tok, new_status) := check_put configured q in
  let notes := match q.(put_analyst_notes) with Some n => Some n | None => q.(put_agent_notes) end in
  let! (d', row, next, hid, aid) := put_transaction fr now cid rc tok new_status notes d in
  let key := strip row.(user_link_key) in
  Ok (d', Response cid (status_value next) hid aid
            (if bool_decide (next = RESOLVED_FRAUD) && has_graph && nonempty key then Some key else None)).

(** * Ingest *)

Definition _actions_from_rule_data (rule_data : dict) : list string :=
  match get rule_data "actions" PNone with PList l => map py_str l | _ => [] end.

Definition _final_decision (actions : list string) : string :=
  match actions with [] => "NONE" | a :: _ => a end.

Definition persist_lekh_decision (entity_id : string) (rule_data : dict) (d : db) : result (db * Z) :=
  let actions := _actions_from_rule_data rule_data in
  let trace := as_list (get rule_data "evaluation_trace" PNone) in
  let blocking_rule_id := match get rule_data "blocking_rule_id" PNone with
                          | PStr s => if nonempty (strip s) then Some (strip s) else None
                          | _ => None
                          end in
  if mem "BLOCK" actions && match blocking_rule_id with None => true | Some _ => false end then Err ValueError
  else
    let row := Decision (next_id (map decision_id d.(decisions))) entity_id (_final_decision actions) actions trace
                 blocking_rule_id rule_data in
    Ok (set_decisions (d.(decisions) ++ [row]) d, row.(decision_id)).

Definition _graph_payload_from_event (event rule_data : dict) (audit_log_id : Z) : dict :=
  let entity_id := str_or_empty (get event "entity_id" PNone) in
  let transaction_id := py_str (por (get rule_data "transaction_id" PNone) (PStr entity_id)) in
  [("schema", PStr "tarka.graph_ingest.v1"); ("transaction_id", PStr transaction_id); ("entity_id", PStr entity_id);
   ("audit_log_id", PInt audit_log_id); ("resolved_rules", PDict []);
   ("blocking_rule_id", get rule_data "blocking_rule_id" PNone); ("event", PDict event)].

(** [int(round(float(amount) * 100))], with [TypeError] and [ValueError] read as
    zero and negative amounts clamped. *)
Definition amount_cents (amount : pyval) : result Z :=
  let! cents := if is_none amount then Ok 0
                else try_except (let! f := py_float amount in f_round_int (fmul f (litZ 100))) is_type_or_value_error 0 in
  Ok (Z.max 0 cents).

(** [now_iso] is [datetime.now(tz=UTC).isoformat()]. *)
Definition _velocity_payload_from_event (now_iso : string) (event : dict) : result dict :=
  let payload := as_dict (get event "payload" PNone) in
  let meta := as_dict (get event "metadata" PNone) in
  let! cents := amount_cents (get payload "amount" PNone) in
  let ts := match get payload "timestamp" PNone with
            | PStr s => if nonempty (strip s) then strip s else now_iso
            | _ => now_iso
            end in
  let ctx := filter_map (fun k => (fun v => (k, v)) <$> dict_lookup k meta)
               ["ip"; "ip_address"; "tenant_id"; "canvas_fingerprint"] in
  Ok [("schema", PStr "tarka.velocity_update.v1"); ("entity_id", PStr (str_or_empty (get event "entity_id" PNone)));
      ("device_hash_string", PNone);
      ("client_browser_metadata_context", match ctx with [] => PNone | _ => PDict ctx end);
      ("amount_cents", PInt cents); ("transaction_timestamp_utc", PStr ts)].

Definition graph_ingest_key (entity_id : string) (audit_log_id : Z) : string :=
  "graph_ingest:" +:+ entity_id +:+ ":" +:+ Z_to_string audit_log_id.
Definition velocity_update_key (entity_id : string) (audit_log_id : Z) : string :=
  "velocity_update:" +:+ entity_id +:+ ":" +:+ Z_to_string audit_log_id.

Record ingest_draws : Type := IngestDraws {
  draw_graph_task : string; draw_velocity_task : string; now_iso : string; draw_ingest_log : Z }.

Definition commit_evaluate_side_effects (fr : ingest_draws) (now : Z) (configured : bool) (event rule_data : dict)
    (actions : list string) (d : db) : result (db * Z) :=
  if negb configured then Err (OtherError "AuditPersistenceError") else
  let entity_id := strip (str_or_empty (get event "entity_id" PNone)) in
  if negb (nonempty entity_id) then Err (http 422 "ingest_entity_id_empty") else
  let meta := as_dict (get event "metadata" PNone) in
  let! p := persist_lekh_decision entity_id rule_data d in
  let! l := persist_orchestrator_audit_log fr.(draw_ingest_log) entity_id meta actions rule_data PNone [] (PDict event) p.1 in
  let! d1 := insert_task fr.(draw_graph_task) now OUTBOX_EVENT_GRAPH_INGEST (graph_ingest_key entity_id l.2)
               (_graph_payload_from_event event rule_data l.2) l.1 in
  let! vp := _velocity_payload_from_event fr.(now_iso) event in
  let! d2 := insert_task fr.(draw_velocity_task) now OUTBOX_EVENT_VELOCITY_UPDATE (velocity_update_key entity_id l.2)
               vp d1 in
  Ok (d2, l.2).

(** The transaction of a posted transaction ([transaction_ingest.py]): the same
    writes, with the Shadow answer and the shadow matches in the log.  The two
    payloads are built from the posted body by functions of the log id and may
    raise. *)
Definition ingest_transaction (fr : ingest_draws) (now : Z) (tid : string) (metadata : dict) (actions : list string)
    (rule_data : dict) (shadow_data : pyval) (shadow_matches : list pyval) (envelope : dict)
    (graph_payload : Z -> result dict) (velocity_payload : result dict) (d : db) : result (db * Z) :=
  let! p := persist_lekh_decision tid rule_data d in
  let! l := persist_orchestrator_audit_log fr.(draw_ingest_log) tid metadata actions rule_data shadow_data shadow_matches
              (PDict envelope) p.1 in
  let! gp := graph_payload l.2 in
  let! d1 := insert_task fr.(draw_graph_task) now OUTBOX_EVENT_GRAPH_INGEST (graph_ingest_key tid l.2) gp l.1 in
  let! vp := velocity_payload in
  let! d2 := insert_task fr.(draw_velocity_task) now OUTBOX_EVENT_VELOCITY_UPDATE (velocity_update_key tid l.2) vp d1 in
  Ok (d2, l.2).

(** [require_internal_ingest_auth]: the secret, the insecure switch and the
    request header. *)
Definition require_internal_ingest_auth (secret allow_insecure header : string) : result unit :=
  let expected := strip secret in
  if negb (nonempty expected) then
    if env_on allow_insecure then Ok tt else Err (http 503 "internal ingest auth misconfigured")
  else
    let got := strip header in
    if negb (nonempty got) || negb (bool_decide (got = expected)) then Err (http 401 "invalid_internal_secret")
    else Ok tt.
