(* ===== verification/LabelHandlers.v ===== *)
(** Who else writes labels: the operational signals of
    [orchestrator/services/operational_signal_persist.py] and
    [services/operational_label_bridge.py], and the two outbox handlers that write
    [normalized_labels], [workers/handlers/label_propagator.py] and
    [workers/handlers/shadow_retro_tag.py].

    A handler reads in one transaction and writes in a later one; between them it
    asks ClickHouse and the Shadow agent for structural tags, which are an argument
    of the write.  Both parts are functions of the database they meet. *)

From Stdlib Require Import ZArith Lia Ascii String Bool.
From stdpp Require Import base option list sorting strings gmap.
From S2P Require Import Prelude PyFloat PyValue Uuid Outbox CaseStore.
Local Open Scope Z_scope.

(** * Operational signals *)

Definition signal_value (t : SignalType) : string :=
  match t with
  | CHARGEBACK_RECEIVED => "CHARGEBACK_RECEIVED"
  | CHARGEBACK_REVERSED => "CHARGEBACK_REVERSED"
  | REFUND_ISSUED => "REFUND_ISSUED"
  | MANUAL_OVERRIDE => "MANUAL_OVERRIDE"
  | HIL_CONTEXT_OVERRIDE => "HIL_CONTEXT_OVERRIDE"
  end.

Definition SOURCE_TYPE_CHARGEBACK : string := "CHARGEBACK".

Definition source_type_for_operational_signal (t : SignalType) : string :=
  match t with CHARGEBACK_RECEIVED | CHARGEBACK_REVERSED => SOURCE_TYPE_CHARGEBACK | _ => signal_value t end.

Definition ground_truth_class_for_operational_signal (s : OperationalSignalORM) : option GroundTruthClass :=
  match s.(signal_type) with
  | CHARGEBACK_RECEIVED => Some FRAUD
  | CHARGEBACK_REVERSED | REFUND_ISSUED => Some LEGITIMATE
  | MANUAL_OVERRIDE =>
      match s.(sig_action) with
      | Some (BLOCK | FLAG) => Some FRAUD
      | Some ALLOW => Some LEGITIMATE
      | Some REVIEW | None => None
      end
  | HIL_CONTEXT_OVERRIDE => None
  end.

(** The columns are the validated fields of the body, which the DAO's checks leave
    as they are. *)
Definition insert_signal (row : OperationalSignalORM) (d : db) : result db :=
  if existsb (fun s => bool_decide (s.(sig_id) = row.(sig_id)) || bool_decide (s.(sig_key) = row.(sig_key))) d.(signals)
  then Err IntegrityError
  else Ok (set_signals (d.(signals) ++ [row]) d).

Definition shadow_tag_ops_key (idempotency_key : string) : string := "shadow_tag_ops:" +:+ idempotency_key.

Definition shadow_retro_outbox_payload (row : OperationalSignalORM) : dict :=
  [("entity_id", PStr row.(target_entity_id)); ("signal_id", PStr row.(sig_id)); ("metadata", PDict row.(metadata_json))].

(** The signal and its retro-tag task, in one transaction. *)
Definition persist_operational_signal_with_shadow_retro_tag (fresh : string) (now : Z) (row : OperationalSignalORM) (d : db) : result db :=
  let! d1 := insert_signal row d in
  insert_task fresh now OUTBOX_EVENT_SHADOW_RETRO_TAG (shadow_tag_ops_key row.(sig_key)) (shadow_retro_outbox_payload row) d1.

(** * Labels of signals *)

(** Tags are kept once, cut to 128 characters. *)
Definition create_operational_signal_label (fresh operational_signal_id source_type entity_id : string) (ground_truth : GroundTruthClass)
    (tags : list string) (d : db) : result (db * NormalizedLabelORM) :=
  let source_token := strip source_type in
  if negb (nonempty source_token) then Err ValueError else
  let! eid := _normalize_entity_id entity_id in
  let row := Label fresh source_token operational_signal_id eid (truth_value ground_truth) (merge_tags [] [] tags) false in
  let! d' := insert_label row d in
  Ok (d', row).

(** * [LABEL_PROPAGATE] *)

(** The write of the handler. *)
Definition propagate_label (label_id : string) (structural_tags : list string) (d : db) : result db :=
  let! d1 := append_structural_tags label_id structural_tags d in
  mark_propagated label_id d1.

(** * [SHADOW_RETRO_TAG] *)

Definition ShadowRetroTagPayloadError : pyexn := OtherError "ShadowRetroTagPayloadError".

(** What a task is about. *)
Inductive retro_target : Type :=
| RetroSignal (signal_id : string)
| RetroCase (case_id new_status : string).

Record ShadowRetroTagPayload : Type := RetroPayload { rp_entity : string; rp_target : retro_target }.

(** A field that is a text with something in it, stripped. *)
Definition text_field (payload : dict) (k : string) : option string :=
  match get payload k PNone with PStr s => if nonempty (strip s) then Some (strip s) else None | _ => None end.

(** Analyst notes and metadata only reach the Shadow agent and are left out. *)
Definition validate_shadow_retro_tag_payload (payload : dict) : result ShadowRetroTagPayload :=
  match text_field payload "entity_id" with
  | None => Err ShadowRetroTagPayloadError
  | Some entity_id =>
      let! signal_id := match get payload "signal_id" PNone with
                        | PNone => Ok None
                        | v => match uuid_of_string (strip (py_str v)) with
                               | Some n => Ok (Some (uuid_to_string n))
                               | None => Err ShadowRetroTagPayloadError
                               end
                        end in
      if negb (is_none (get payload "metadata" PNone) || is_dict (get payload "metadata" PNone)) then Err ShadowRetroTagPayloadError else
      match signal_id, text_field payload "case_id", text_field payload "new_status" with
      | Some sid, None, _ => Ok (RetroPayload entity_id (RetroSignal sid))
      | None, Some cid, Some st => Ok (RetroPayload entity_id (RetroCase cid st))
      | _, _, _ => Err ShadowRetroTagPayloadError
      end
  end.

Record ShadowRetroLabelAnchor : Type := Anchor {
  anchor_type : string; anchor_source : string; anchor_truth : GroundTruthClass }.

Definition _resolve_operational_anchor (signal_id : string) (d : db) : result ShadowRetroLabelAnchor :=
  match head (List.filter (fun s => bool_decide (s.(sig_id) = signal_id)) d.(signals)) with
  | None => Err ShadowRetroTagPayloadError
  | Some s =>
      match ground_truth_class_for_operational_signal s with
      | None => Err ShadowRetroTagPayloadError
      | Some g => Ok (Anchor (source_type_for_operational_signal s.(signal_type)) s.(sig_id) g)
      end
  end.

(** The newest history row of a case with a target status. *)
Definition latest_history (case_id to_status_value : string) (d : db) : option CaseHistoryORM :=
  last (sort_by hist_id
    (List.filter (fun h => bool_decide (h.(hist_case) = case_id) && bool_decide (h.(to_status) = Some to_status_value)) d.(history))).

Definition _resolve_case_anchor (case_id new_status : string) (d : db) : result ShadowRetroLabelAnchor :=
  match case_status (strip new_status) with
  | None => Err ShadowRetroTagPayloadError
  | Some resolved =>
      match ground_truth_class_for_resolved_status resolved with
      | None => Err ShadowRetroTagPayloadError
      | Some g =>
          match latest_history case_id (status_value resolved) d with
          | None => Err ShadowRetroTagPayloadError
          | Some h => let! sid := case_history_source_id h.(hist_id) in Ok (Anchor SOURCE_TYPE_ANALYST_DISPOSITION sid g)
          end
      end
  end.

Definition _fetch_existing_label (source_type source_id : string) (d : db) : option NormalizedLabelORM :=
  head (List.filter (fun l => bool_decide (l.(CaseStore.source_type) = source_type) && bool_decide (l.(CaseStore.source_id) = source_id)) d.(labels)).

(** What the first transaction of the handler finds out: the anchor and the id of
    the label that is there. *)
Definition retro_read (p : ShadowRetroTagPayload) (d : db) : result (ShadowRetroLabelAnchor * option string) :=
  let! a := match p.(rp_target) with
            | RetroSignal sid => _resolve_operational_anchor sid d
            | RetroCase cid st => _resolve_case_anchor cid st d
            end in
  Ok (a, label_id <$> _fetch_existing_label a.(anchor_type) a.(anchor_source) d).

(** Its last transaction. *)
Definition retro_write (fresh : string) (p : ShadowRetroTagPayload) (a : ShadowRetroLabelAnchor) (existing : option string)
    (structural_tags : list string) (d : db) : result db :=
  let! (d1, id) :=
    match existing, p.(rp_target) with
    | Some id, _ => let! d1 := append_structural_tags id structural_tags d in Ok (d1, id)
    | None, RetroSignal _ =>
        let! (d1, row) := create_operational_signal_label fresh a.(anchor_source) a.(anchor_type) p.(rp_entity) a.(anchor_truth)
                            structural_tags d in
        Ok (d1, row.(label_id))
    | None, RetroCase cid st =>
        match latest_history cid st d with
        | None => Err ShadowRetroTagPayloadError
        | Some h =>
            let! (d1, row) := create_analyst_disposition fresh h.(hist_id) p.(rp_entity) a.(anchor_truth)
                                (match h.(reason_code) with Some r => str_or r st | None => st end) st structural_tags d in
            Ok (d1, row.(label_id))
        end
    end in
  mark_propagated id d1.

(** * What the handlers leave alone *)

(** A label without its tags and its propagation mark. *)
Definition label_key (l : NormalizedLabelORM) : string * string * string * string * string :=
  (l.(label_id), l.(CaseStore.source_type), l.(CaseStore.source_id), l.(label_entity), l.(CaseStore.ground_truth_class)).

(** Everything but the tags and marks of labels is the same. *)
Definition relabelled (d d' : db) : Prop := d' = set_labels d'.(labels) d /\ map label_key d'.(labels) = map label_key d.(labels).

Lemma relabelled_trans d1 d2 d3 : relabelled d1 d2 -> relabelled d2 d3 -> relabelled d1 d3.
Proof. intros [E1 K1] [E2 K2]. split; [rewrite E2; by rewrite E1|congruence]. Qed.

Lemma update_label_relabelled id f d d' :
  (forall l, label_key (f l) = label_key l) -> update_label id f d = Ok d' -> relabelled d d'.
Proof.
  intros Hf. unfold update_label. destruct (existsb _ _); [|done]. intros [= <-]. split; [done|]. cbn. rewrite map_map. apply map_ext.
  intros l. by case_bool_decide.
Qed.

Lemma append_relabelled id ts d d' : append_structural_tags id ts d = Ok d' -> relabelled d d'.
Proof. by apply update_label_relabelled. Qed.

Lemma mark_relabelled id d d' : mark_propagated id d = Ok d' -> relabelled d d'.
Proof. by apply update_label_relabelled. Qed.

Lemma propagate_relabelled id ts d d' : propagate_label id ts d = Ok d' -> relabelled d d'.
Proof. unfold propagate_label. intros H. inv_ok. eapply relabelled_trans; [by eapply append_relabelled|by eapply mark_relabelled]. Qed.

(** A label says what a signal says. *)
Definition label_of_signal (s : OperationalSignalORM) (l : NormalizedLabelORM) : Prop :=
  l.(CaseStore.source_type) = source_type_for_operational_signal s.(signal_type) /\ l.(CaseStore.source_id) = s.(sig_id)
  /\ Some l.(CaseStore.ground_truth_class) = truth_value <$> ground_truth_class_for_operational_signal s.

(** Labels of signals are never taken for dispositions of analysts. *)
Lemma label_of_signal_type s l : label_of_signal s l -> l.(CaseStore.source_type) <> SOURCE_TYPE_ANALYST_DISPOSITION.
Proof. intros [-> _]. by destruct (signal_type s). Qed.

(** A write adds the label of a signal the handler knows, or only tags and a
    mark. *)
Inductive retro_written (known : list OperationalSignalORM) (d : db) : db -> Prop :=
| rw_tags d' : relabelled d d' -> retro_written known d d'
| rw_label s l d' : s ∈ known -> label_of_signal s l -> l.(label_id) ∉ map label_id d.(labels) ->
    relabelled (set_labels (d.(labels) ++ [l]) d) d' -> retro_written known d d'.

Lemma insert_label_Ok row d d' : insert_label row d = Ok d' -> d' = set_labels (d.(labels) ++ [row]) d /\ row.(label_id) ∉ map label_id d.(labels).
Proof.
  unfold insert_label. intros H. destruct (existsb _ _) eqn:E; [done|]. injection H as <-. split; [done|].
  intros (s & Es & Hs)%map_elem. apply not_true_iff_false in E. apply E, existsb_exists.
  exists s. split; [by apply list_elem_of_In|]. by apply bool_decide_eq_true.
Qed.

Lemma operational_anchor_spec sid d a :
  _resolve_operational_anchor sid d = Ok a ->
  exists s, s ∈ d.(signals) /\ a.(anchor_type) = source_type_for_operational_signal s.(signal_type) /\ a.(anchor_source) = s.(sig_id)
    /\ ground_truth_class_for_operational_signal s = Some a.(anchor_truth).
Proof.
  unfold _resolve_operational_anchor. destruct (head _) as [s|] eqn:Eh; [|done].
  destruct (ground_truth_class_for_operational_signal s) as [g|] eqn:Eg; [|done]. intros H. injection H as <-.
  exists s. apply head_Some_elem_of, filter_elem in Eh as [Hs _]. done.
Qed.

Lemma create_operational_spec fresh sid ty eid g ts d d' row :
  create_operational_signal_label fresh sid ty eid g ts d = Ok (d', row) ->
  d' = set_labels (d.(labels) ++ [row]) d /\ row.(label_id) ∉ map label_id d.(labels)
  /\ row.(CaseStore.source_type) = strip ty /\ row.(CaseStore.source_id) = sid /\ row.(CaseStore.ground_truth_class) = truth_value g.
Proof.
  unfold create_operational_signal_label. destruct (negb _); [done|]. intros H. inv_ok. injection H as <- <-.
  match goal with Hi : insert_label _ _ = Ok _ |- _ => apply insert_label_Ok in Hi as [-> Hn] end. done.
Qed.

Lemma retro_write_spec fresh p a existing ts d d' d0 :
  retro_read p d0 = Ok (a, existing) -> (forall cid st, p.(rp_target) = RetroCase cid st -> existing <> None) ->
  retro_write fresh p a existing ts d = Ok d' -> retro_written d0.(signals) d d'.
Proof.
  intros Hr Hc H. unfold retro_write in H. apply rbind_Ok in H as ([d1 id] & H & Hm%mark_relabelled). destruct existing as [id0|].
  - apply rbind_Ok in H as (d2 & Ha%append_relabelled & E). injection E as <- <-. apply rw_tags. by eapply relabelled_trans.
  - destruct (rp_target p) as [sid|cid st] eqn:Et; [|by destruct (Hc cid st)].
    apply rbind_Ok in H as ([d2 row] & Hl & E). injection E as <- <-.
    apply create_operational_spec in Hl as (-> & Hn & T1 & T2 & T3).
    unfold retro_read in Hr. rewrite Et in Hr. apply rbind_Ok in Hr as (a0 & Ha & E). injection E as -> _.
    apply operational_anchor_spec in Ha as (s & Hs & A1 & A2 & A3).
    apply (rw_label _ _ s row d' Hs); [|done|done]. split; [|split].
    + rewrite T1, A1. by destruct (signal_type s).
    + by rewrite T2.
    + rewrite A3, T3. done.
Qed.
