(* ===== verification/CaseLifecycle.v ===== *)
(** The life of a case: the operations of [CaseStore] and the label writes of
    [LabelHandlers] in any order, and what holds of every database they reach.

    Transactions follow one another, but the ids of audit logs commit in any order
    and the last transaction of a retro-tag handler acts on what the handler read
    at any earlier point of the run. *)

From Stdlib Require Import ZArith Lia Ascii String Bool.
From stdpp Require Import base option list sorting strings gmap relations.
From S2P Require Import Prelude PyFloat PyValue Sha256 Uuid Outbox CaseStore LabelHandlers.
Local Open Scope Z_scope.

(** * What the transactions do *)

Lemma transition_status_Ok cur new r next : transition_status cur new r = Ok next -> next = new.
Proof. unfold transition_status. intros H. repeat case_match; congruence. Qed.

Lemma insert_task_Ok fresh now et key payload d d' :
  insert_task fresh now et key payload d = Ok d' ->
  exists t, d' = set_outbox (d.(outbox) ++ [t]) d /\ inserted d.(outbox) (d.(outbox) ++ [t]) t
    /\ t.(idempotency_key) = strip key /\ t.(event_type) = strip et /\ t.(task_payload) = payload
    /\ (wf_table d.(outbox) -> wf_table d'.(outbox)).
Proof.
  unfold insert_task. intros H. destruct (create_task _ _ _ _ _ _) as [[tb' t]|] eqn:E; [|done].
  cbn [rbind fst] in H. injection H as <-.
  pose proof (fun Hw => create_task_wf _ _ _ _ _ _ _ _ Hw E) as Hw.
  apply create_task_Ok in E as (Hi & Hk & Hn & Hp & He). pose proof (ins_tb _ _ _ Hi) as ->.
  exists t. injection Hp as Hp. done.
Qed.

Lemma insert_history_Ok cid a f t r p d d' h :
  insert_history cid a f t r p d = Ok (d', h) ->
  h = HistoryRow (next_id (map hist_id d.(history))) cid a f t r p /\ d' = set_history (d.(history) ++ [h]) d
  /\ forall x, a = Some x -> x ∉ omap audit_log_id d.(history).
Proof.
  unfold insert_history. intros H. destruct (match a with Some _ => _ | None => _ end) eqn:E; [done|].
  injection H as <- <-. split; [done|]. split; [done|]. intros x ->.
  intros (s & Hs & Es)%list_elem_of_omap. apply not_true_iff_false in E. apply E, existsb_exists.
  exists s. split; [by apply list_elem_of_In|]. by apply bool_decide_eq_true.
Qed.

Lemma insert_history_taken cid a f t r p d :
  a ∈ omap audit_log_id d.(history) -> insert_history cid (Some a) f t r p d = Err IntegrityError.
Proof.
  intros (s & Hs & Es)%list_elem_of_omap. unfold insert_history.
  rewrite (proj2 (existsb_exists _ _)); [done|]. exists s. split; [by apply list_elem_of_In|].
  by apply bool_decide_eq_true.
Qed.

Lemma insert_case_Ok row d d' :
  insert_case row d = Ok d' -> d' = set_cases (d.(cases) ++ [row]) d /\ row.(case_id) ∉ map case_id d.(cases).
Proof.
  unfold insert_case. intros H. destruct (existsb _ _) eqn:E; [done|]. injection H as <-. split; [done|].
  intros (s & Es & Hs)%map_elem. apply not_true_iff_false in E. apply E, existsb_exists.
  exists s. split; [by apply list_elem_of_In|]. by apply bool_decide_eq_true.
Qed.

Lemma insert_log_Ok id cid b n m d d' l :
  insert_log id cid b n m d = Ok (d', l) ->
  l = Log id cid b n m /\ d' = set_logs (d.(logs) ++ [l]) d /\ id ∉ map log_id d.(logs).
Proof.
  unfold insert_log. intros H. destruct (_ || _) eqn:E; [done|]. apply orb_false_iff in E as [E _]. injection H as <- <-.
  do 2 (split; [done|]). intros (x & Ex & Hx)%map_elem. apply not_true_iff_false in E. apply E, existsb_exists.
  exists x. split; [by apply list_elem_of_In|lia].
Qed.

Lemma fetch_case cid d row :
  _fetch_lifecycle_case_for_update cid d = Some row -> row ∈ d.(cases) /\ row.(case_id) = cid.
Proof.
  unfold _fetch_lifecycle_case_for_update. intros H%head_Some_elem_of.
  apply filter_elem in H as [? ?%bool_decide_eq_true]. done.
Qed.

(** A label is an analyst's verdict, anchored at a history row. *)
Definition disposition_of (hid : Z) (g : GroundTruthClass) (l : NormalizedLabelORM) : Prop :=
  l.(CaseStore.source_type) = SOURCE_TYPE_ANALYST_DISPOSITION /\ case_history_source_id hid = Ok l.(CaseStore.source_id)
  /\ l.(CaseStore.ground_truth_class) = truth_value g.

(** The label and task rows a resolution adds. *)
Lemma label_resolution_Ok fr now row next rc hid aid d d' :
  label_resolution fr now row next rc hid aid d = Ok d' ->
  match ground_truth_class_for_resolved_status next with
  | None => d' = d
  | Some g => exists l t,
      d' = set_outbox (d.(outbox) ++ [t]) (set_labels (d.(labels) ++ [l]) d)
      /\ inserted d.(outbox) (d.(outbox) ++ [t]) t
      /\ disposition_of hid g l /\ l.(label_id) ∉ map label_id d.(labels)
      /\ t.(idempotency_key) = strip (label_propagate_key l.(label_id))
      /\ (wf_table d.(outbox) -> wf_table d'.(outbox))
  end.
Proof.
  unfold label_resolution. destruct (ground_truth_class_for_resolved_status next) as [g|]; [|congruence].
  intros H. inv_ok. destruct a as [d1 l]. cbn [fst snd] in H.
  unfold create_analyst_disposition in H0. inv_ok. injection H0 as <- <-.
  apply insert_label_Ok in H3 as [-> Hn].
  apply insert_task_Ok in H as (t & -> & Hi & Hk & _ & _ & Hw). cbn [outbox set_labels] in *.
  eexists _, t. split; [reflexivity|]. split; [done|]. split; [by repeat split|done].
Qed.

(** [tb'] is [tb] with inserts. *)
Definition tasks_added (tb tb' : table) : Prop :=
  (exists new, tb' = tb ++ new) /\ (wf_table tb -> wf_table tb').

Lemma tasks_added_refl tb : tasks_added tb tb.
Proof. split; [exists []; by rewrite app_nil_r|done]. Qed.

Lemma tasks_added_keys tb tb' k :
  tasks_added tb tb' -> k ∈ map idempotency_key tb -> k ∈ map idempotency_key tb'.
Proof. intros [[new ->] _] H. rewrite map_app. apply elem_of_app. by left. Qed.

Definition moved (cid state : string) (c : CaseORM) : CaseORM :=
  if bool_decide (c.(case_id) = cid)
  then CaseRow c.(case_id) c.(transaction_id) c.(user_link_key) c.(entity_id) c.(opened_at) state c.(priority)
         c.(case_labels) c.(linked_session_id)
  else c.

(** Everything one accepted status change writes. *)
Record put_effect (cid : string) (next : CaseStatus) (row : CaseORM) (hid aid : Z) (rc : string) (d d' : db) : Prop := {
  pe_row : row ∈ d.(cases) /\ row.(case_id) = cid;
  pe_cases : d'.(cases) = map (moved cid (status_value next)) d.(cases);
  pe_history : exists fp, d'.(history) = d.(history) ++
    [HistoryRow hid cid (Some aid) (Some row.(case_state)) (Some (status_value next)) (Some rc) (Some fp)];
  pe_hid : hid = next_id (map hist_id d.(history));
  pe_log : exists l, d'.(logs) = d.(logs) ++ [l] /\ l.(log_id) = aid;
  pe_source : forall l, l ∈ d'.(logs) -> l ∈ d.(logs) \/ exists b, l.(action_taken) = Some (PDict b)
      /\ get b "source" PNone = PStr LIFECYCLE_STATUS_TRANSITION_SOURCE;
  pe_aid : aid ∉ map log_id d.(logs) /\ aid ∉ omap audit_log_id d.(history);
  pe_outbox : tasks_added d.(outbox) d'.(outbox);
  pe_retro : next ∈ _TERMINAL_STATUSES ->
    strip (shadow_tag_key cid (status_value next)) ∈ map idempotency_key d'.(outbox)
    /\ strip (shadow_tag_key cid (status_value next)) ∉ map idempotency_key d.(outbox);
  pe_labels : match ground_truth_class_for_resolved_status next with
    | None => d'.(labels) = d.(labels)
    | Some g => exists l, d'.(labels) = d.(labels) ++ [l] /\ disposition_of hid g l
        /\ l.(label_id) ∉ map label_id d.(labels)
        /\ strip (label_propagate_key l.(label_id)) ∈ map idempotency_key d'.(outbox)
    end;
  pe_cursor : d'.(cursor) = d.(cursor);
  pe_signals : d'.(signals) = d.(signals) }.

Lemma retro_tag_Ok fr now row next notes cid d d' :
  retro_tag fr now row next notes cid d = Ok d' ->
  (d' = set_outbox d'.(outbox) d) /\ tasks_added d.(outbox) d'.(outbox)
  /\ (next ∈ _TERMINAL_STATUSES ->
      strip (shadow_tag_key cid (status_value next)) ∈ map idempotency_key d'.(outbox)
      /\ strip (shadow_tag_key cid (status_value next)) ∉ map idempotency_key d.(outbox)).
Proof.
  unfold retro_tag, in_set. case_bool_decide as Hin.
  - intros (t & -> & Hi & Hk & _ & _ & Hw)%insert_task_Ok. cbn [outbox set_outbox] in *. split; [done|].
    split; [split; [eauto|done]|]. intros _. rewrite map_app. split.
    + apply elem_of_app. right. rewrite <- Hk. left.
    + rewrite <- Hk. apply Hi.
  - intros [= <-]. split; [by destruct d|]. split; [apply tasks_added_refl|done].
Qed.

(** The part of the database a resolution leaves alone, and what it adds. *)
Lemma label_resolution_frame fr now row next rc hid aid d d' :
  label_resolution fr now row next rc hid aid d = Ok d' ->
  d'.(cases) = d.(cases) /\ d'.(history) = d.(history) /\ d'.(logs) = d.(logs) /\ d'.(cursor) = d.(cursor)
  /\ d'.(signals) = d.(signals) /\ tasks_added d.(outbox) d'.(outbox)
  /\ match ground_truth_class_for_resolved_status next with
     | None => d'.(labels) = d.(labels)
     | Some g => exists l, d'.(labels) = d.(labels) ++ [l] /\ disposition_of hid g l
         /\ l.(label_id) ∉ map label_id d.(labels)
         /\ strip (label_propagate_key l.(label_id)) ∈ map idempotency_key d'.(outbox)
     end.
Proof.
  intros H%label_resolution_Ok. destruct (ground_truth_class_for_resolved_status next) as [g|].
  - destruct H as (l & t & -> & Hi & Hg & Hf & Hk & Hw). do 5 (split; [done|]). split; [split; [by exists [t]|done]|].
    exists l. do 3 (split; [done|]). cbn. rewrite map_app, <- Hk. apply elem_of_app. right. left.
  - subst d'. do 5 (split; [done|]). split; [apply tasks_added_refl|done].
Qed.

Lemma ensure_frame e d :
  let d' := _ensure_shadow_case_row e d in
  d'.(cases) = d.(cases) /\ d'.(history) = d.(history) /\ d'.(logs) = d.(logs) /\ d'.(labels) = d.(labels)
  /\ d'.(outbox) = d.(outbox) /\ d'.(cursor) = d.(cursor) /\ d'.(signals) = d.(signals).
Proof. unfold _ensure_shadow_case_row. by destruct (mem _ _). Qed.

Lemma put_transaction_effect fr now cid rc tok s notes d d' row next hid aid :
  put_transaction fr now cid rc tok s notes d = Ok (d', row, next, hid, aid) ->
  next = s /\ put_effect cid next row hid aid rc d d'.
Proof.
  unfold put_transaction. destruct (_fetch_lifecycle_case_for_update cid d) as [row0|] eqn:Ef; [|done].
  destruct (case_status _) as [cur|] eqn:Ec; [|done].
  destruct (transition_status cur s (Some rc)) as [next0|] eqn:Et; [|done].
  destruct (nonempty _) eqn:En; [|done]. cbn [negb]. intros H. inv_ok.
  destruct a as [d1 l], a0 as [d2 h]. cbn [fst snd] in *. injection H as <- <- <- <- <-.
  apply transition_status_Ok in Et. split; [done|].
  unfold _persist_lifecycle_status_audit_log in H0. apply insert_log_Ok in H0 as (Hl & Hd1 & Hnew).
  apply insert_history_Ok in H1 as (Hh & Hd2 & Hfresh). specialize (Hfresh _ eq_refl).
  apply retro_tag_Ok in H3 as (Ha2 & Hadd & Hret). apply label_resolution_frame in H2.
  set (e := _ensure_shadow_case_row _ d) in *.
  destruct (ensure_frame (strip row0.(entity_id)) d) as (E1 & E2 & E3 & E4 & E5 & E6 & E7). fold e in E1, E2, E3, E4, E5, E6, E7.
  destruct H2 as (M1 & M2 & M3 & M4 & M7 & M5 & M6).
  assert (Hout : d2.(outbox) = d.(outbox)) by (rewrite Hd2, Hd1; cbn; exact E5).
  assert (Hlab : d2.(labels) = d.(labels)) by (rewrite Hd2, Hd1; cbn; exact E4).
  rewrite Ha2. split; cbn [cases history logs labels outbox cursor signals set_outbox].
  - apply fetch_case in Ef as [? <-]. done.
  - rewrite M1, Hd2, Hd1. cbn. by rewrite E1.
  - exists (_fingerprint_auth_token tok). rewrite M2, Hd2, Hh, Hd1. cbn. by rewrite E2.
  - rewrite Hh, Hd1. cbn. by rewrite E2.
  - exists l. rewrite M3, Hd2, Hd1. cbn. by rewrite E3.
  - intros l' Hl'. rewrite M3, Hd2, Hd1 in Hl'. cbn in Hl'. rewrite E3 in Hl'.
    apply elem_of_app in Hl' as [? | ->%list_elem_of_singleton]; [by left|]. right. rewrite Hl. cbn. eauto.
  - rewrite Hd1 in Hfresh. cbn in Hfresh. rewrite E2 in Hfresh. rewrite Hl in Hfresh |- *. cbn in *. by rewrite E3 in *.
  - rewrite Hout in M5. destruct M5 as [[n1 Hn1] W1], Hadd as [[n2 Hn2] W2]. split; [|tauto].
    exists (n1 ++ n2). by rewrite Hn2, Hn1, app_assoc.
  - intros Hin. destruct (Hret Hin) as [R1 R2]. split; [done|]. intros Hk. apply R2.
    apply (tasks_added_keys d2.(outbox)); [done|]. by rewrite Hout.
  - destruct (ground_truth_class_for_resolved_status next0); [|by rewrite M6, Hlab].
    destruct M6 as (l0 & L1 & L2 & L3 & L4). exists l0. rewrite Hlab in L1, L3. do 3 (split; [done|]).
    by apply (tasks_added_keys a1.(outbox)).
  - rewrite M4, Hd2, Hd1. cbn. exact E6.
  - rewrite M7, Hd2, Hd1. cbn. exact E7.
Qed.

(** A history row that links a case to an ingest log. *)
Definition link_row (d : db) (cid : string) (aid : Z) : CaseHistoryORM :=
  HistoryRow (next_id (map hist_id d.(history))) cid (Some aid) None None None None.

(** The four ways an ingest log is consumed. *)
Inductive upserted (cid : string) (aid now : Z) (body : dict) (d : db) : db -> option string -> Prop :=
| up_skip : triggers body = Ok false -> upserted cid aid now body d d None
| up_known c :
    triggers body = Ok true -> recent_case (body_user_key body) now d = Some c ->
    aid ∈ omap audit_log_id d.(history) -> upserted cid aid now body d d (Some c.(case_id))
| up_link c :
    triggers body = Ok true -> recent_case (body_user_key body) now d = Some c ->
    aid ∉ omap audit_log_id d.(history) ->
    upserted cid aid now body d (set_history (d.(history) ++ [link_row d c.(case_id) aid]) d) (Some c.(case_id))
| up_open eid prio :
    triggers body = Ok true -> recent_case (body_user_key body) now d = None ->
    aid ∉ omap audit_log_id d.(history) -> cid ∉ map case_id d.(cases) -> 0 <= prio <= 100 ->
    upserted cid aid now body d
      (set_history (d.(history) ++ [link_row d cid aid])
         (set_cases (d.(cases) ++ [new_case cid aid now body eid prio]) d)) (Some cid).

Lemma hint_priority_range body p : hint_priority body = Ok p -> 0 <= p <= 100.
Proof. unfold hint_priority. intros H. inv_ok. lia. Qed.

Lemma upsert_spec cid aid now body d d' r :
  _upsert_lifecycle_case_from_payload cid aid now body d = Ok (d', r) -> upserted cid aid now body d d' r.
Proof.
  unfold _upsert_lifecycle_case_from_payload. intros H. inv_ok. destruct a; cbn [negb] in H;
    [|injection H as <- <-; by constructor]. inv_ok.
  destruct (recent_case _ _ _) as [c|] eqn:Er.
  - destruct (insert_history _ _ _ _ _ _ _) as [[d1 h]|] eqn:Ei; injection H as <- <-.
    + apply insert_history_Ok in Ei as (-> & -> & Hf). apply up_link; try done. by apply Hf.
    + apply up_known; try done. unfold insert_history in Ei. destruct (existsb _ _) eqn:E; [|done].
      apply existsb_exists in E as (h & Hh & Eh%bool_decide_eq_true). apply list_elem_of_omap. exists h.
      split; [by apply list_elem_of_In|done].
  - inv_ok. destruct a2 as [d2 h]. injection H as <- <-.
    apply insert_case_Ok in H3 as [-> Hc]. apply insert_history_Ok in H4 as (-> & -> & Hf).
    refine (up_open cid aid now body d a a0 H0 Er _ _ _); [by apply Hf|done|by apply (hint_priority_range body)].
Qed.

(** * Operations in any order *)

(** One unit of work on the database: the commit of either ingest, the synchronous case
    creation, a poll, a status request, outbox workers claiming and settling
    tasks, an operational signal, or the last transaction of one of the two
    handlers that write labels, which acts on what the handler read before. *)
Inductive op : Type :=
| Ingest (fr : ingest_draws) (now : Z) (event rule_data : dict) (actions : list string)
| IngestTransaction (fr : ingest_draws) (now : Z) (tid : string) (metadata : dict) (actions : list string) (rule_data : dict)
    (shadow_data : pyval) (shadow_matches : list pyval) (envelope : dict) (graph_payload : Z -> result dict)
    (velocity_payload : result dict)
| Materialize (cid : string) (aid now : Z) (entity_id : string) (metadata : dict) (actions : list string)
    (rule_data : dict) (shadow_data : pyval)
| Poll (mint : Z -> string) (now : Z)
| PutStatus (fr : draws) (now : Z) (has_graph : bool) (q : put_request)
| Work (batch_size : Z) (polls : list (Z * (nat -> attempt))) (redis : option locks)
| SignalIn (fresh : string) (now : Z) (row : OperationalSignalORM)
| Propagate (label_id : string) (structural_tags : list string)
| RetroTag (fresh : string) (p : ShadowRetroTagPayload) (a : ShadowRetroLabelAnchor) (existing : option string)
    (structural_tags : list string).

Definition kept (d : db) (r : result db) : db := match r with Ok d' => d' | Err _ => d end.

Definition apply_op (o : op) (d : db) : db :=
  match o with
  | Ingest fr now event rule_data actions =>
      kept d (rmap fst (commit_evaluate_side_effects fr now true event rule_data actions d))
  | IngestTransaction fr now tid meta actions rule_data shadow matches env gp vp =>
      kept d (rmap fst (ingest_transaction fr now tid meta actions rule_data shadow matches env gp vp d))
  | Materialize cid aid now eid meta actions rule_data shadow =>
      kept d (rmap fst (materialize_lifecycle_case_for_ingest cid aid now eid meta actions rule_data shadow d))
  | Poll mint now => kept d (process_new_audit_logs mint now d)
  | PutStatus fr now g q => kept d (rmap fst (put_lifecycle_case_status fr now true g q d))
  | Work b polls r => set_outbox (run_worker b polls (d.(outbox), r)).1 d
  | SignalIn fresh now row => kept d (persist_operational_signal_with_shadow_retro_tag fresh now row d)
  | Propagate id tags => kept d (propagate_label id tags d)
  | RetroTag fresh p a existing tags => kept d (retro_write fresh p a existing tags d)
  end.

Definition run_ops (ops : list op) (d : db) : db := foldl (fun d o => apply_op o d) d ops.

(** What an ingest commits: the decision, the log under the drawn id, and its
    two tasks. *)
Inductive ingested (aid : Z) (d : db) : db -> Prop :=
| ingested_intro eid dec payload matches d' :
    d'.(cases) = d.(cases) -> d'.(history) = d.(history) -> d'.(labels) = d.(labels) -> d'.(cursor) = d.(cursor) ->
    d'.(signals) = d.(signals) -> d'.(decisions) = d.(decisions) ++ [dec] -> aid ∉ map log_id d.(logs) ->
    d'.(logs) = d.(logs) ++ [Log aid eid (Some (PDict payload)) None matches] ->
    get payload "source" PNone = PStr ORCHESTRATOR_AUDIT_SOURCE ->
    tasks_added d.(outbox) d'.(outbox) ->
    strip (graph_ingest_key eid aid) ∈ map idempotency_key d'.(outbox) ->
    strip (velocity_update_key eid aid) ∈ map idempotency_key d'.(outbox) -> ingested aid d d'.

(** The committed steps an operation is made of: these are what the invariants
    are checked against. *)
Inductive micro (d : db) : db -> Prop :=
| m_upsert cid aid now body d' r : upserted cid aid now body d d' r -> micro d d'
| m_put cid next row hid aid rc d' : put_effect cid next row hid aid rc d d' -> micro d d'
| m_ingest aid d' : ingested aid d d' -> micro d d'
| m_work b polls r : micro d (set_outbox (run_worker b polls (d.(outbox), r)).1 d)
| m_signal row tb : tasks_added d.(outbox) tb -> strip (shadow_tag_ops_key row.(sig_key)) ∈ map idempotency_key tb ->
    micro d (set_outbox tb (set_signals (d.(signals) ++ [row]) d)).

Lemma audit_payload_source eid meta acts rd sd env p :
  _orchestrator_audit_payload eid meta acts rd sd env = Ok p ->
  get p "source" PNone = PStr ORCHESTRATOR_AUDIT_SOURCE.
Proof.
  unfold _orchestrator_audit_payload. intros H. inv_ok. subst p.
  set (p0 := [("source", _); _; _; _; _; _]).
  assert (Hc : get (chargeback_fields meta p0) "source" PNone = PStr ORCHESTRATOR_AUDIT_SOURCE).
  { unfold chargeback_fields. destruct (if is_list _ then _ else _) as [| | | | |[|]|];
      rewrite get_set_ne by done; repeat case_match; rewrite !get_set_ne by done; reflexivity. }
  assert (Hb : forall b : bool, get (if b then chargeback_fields meta p0 else p0) "source" PNone
                         = PStr ORCHESTRATOR_AUDIT_SOURCE) by (intros []; done).
  destruct env as [| | | | | |[|kv env]]; try apply Hb. rewrite get_set_ne by done. apply Hb.
Qed.

(** The decision, the log and the two tasks, however the payloads are made. *)
Lemma ingest_writes fr now eid meta acts rd sd ms env gp vp d d1 d2 d3 d4 did lid :
  persist_lekh_decision eid rd d = Ok (d1, did) ->
  persist_orchestrator_audit_log fr.(draw_ingest_log) eid meta acts rd sd ms env d1 = Ok (d2, lid) ->
  insert_task fr.(draw_graph_task) now OUTBOX_EVENT_GRAPH_INGEST (graph_ingest_key eid lid) gp d2 = Ok d3 ->
  insert_task fr.(draw_velocity_task) now OUTBOX_EVENT_VELOCITY_UPDATE (velocity_update_key eid lid) vp d3 = Ok d4 ->
  ingested fr.(draw_ingest_log) d d4.
Proof.
  intros H0 H1 H2 H4. unfold persist_lekh_decision in H0. destruct (_ && _) in H0; [done|]. injection H0 as <- <-.
  unfold persist_orchestrator_audit_log in H1. inv_ok. destruct a0 as [d5 l]. cbn [fst snd] in H1. injection H1 as <- <-.
  apply insert_log_Ok in H0 as (-> & -> & Hnew). cbn [log_id] in *.
  apply insert_task_Ok in H2 as (t1 & -> & I1 & K1 & _ & _ & W1).
  apply insert_task_Ok in H4 as (t2 & -> & I2 & K2 & _ & _ & W2). cbn [outbox logs set_outbox set_logs set_decisions] in *.
  eapply (ingested_intro _ _ eid); try reflexivity.
  - done.
  - by eapply audit_payload_source.
  - cbn. split; [|tauto]. exists ([t1] ++ [t2]). by rewrite app_assoc.
  - cbn. rewrite !map_app, <- K1. apply elem_of_app. left. apply elem_of_app. right. left.
  - cbn. rewrite map_app, <- K2. apply elem_of_app. right. left.
Qed.

Lemma ingest_effect fr now event rd acts d d' aid :
  commit_evaluate_side_effects fr now true event rd acts d = Ok (d', aid) -> ingested fr.(draw_ingest_log) d d'.
Proof.
  unfold commit_evaluate_side_effects. cbn [negb]. destruct (nonempty _); [|done]. cbn [negb].
  intros H. inv_ok. destruct a as [d1 did], a0 as [d2 lid]. cbn [fst snd] in *. injection H as <- <-. by eapply ingest_writes.
Qed.

Lemma ingest_transaction_effect fr now tid meta acts rd sd ms env gp vp d d' aid :
  ingest_transaction fr now tid meta acts rd sd ms env gp vp d = Ok (d', aid) -> ingested fr.(draw_ingest_log) d d'.
Proof.
  unfold ingest_transaction. intros H. inv_ok. destruct a as [d1 did], a0 as [d2 lid]. cbn [fst snd] in *.
  injection H as <- <-. by eapply ingest_writes.
Qed.

Lemma poll_logs_micro mint now l : forall d d', poll_logs mint now l d = Ok d' -> rtc micro d d'.
Proof.
  induction l as [|x l IH]; intros d d' H; simpl in H; [injection H as <-; apply rtc_refl|]. inv_ok.
  transitivity a; [|by apply IH]. clear IH H. unfold poll_log in H0.
  destruct (action_taken x) as [[]|]; try (by injection H0 as <-).
  destruct (eq_str _ _); [|by injection H0 as <-].
  destruct (_upsert_lifecycle_case_from_payload _ _ _ _ _) as [[d1 r]|] eqn:E; [|done]. injection H0 as <-.
  apply rtc_once. eapply m_upsert, upsert_spec, E.
Qed.

(** The operations that only touch labels. *)
Definition writes_labels (o : op) : bool := match o with Propagate _ _ | RetroTag _ _ _ _ _ => true | _ => false end.

Lemma signal_micro fresh now row d d' :
  persist_operational_signal_with_shadow_retro_tag fresh now row d = Ok d' -> micro d d'.
Proof.
  unfold persist_operational_signal_with_shadow_retro_tag. intros H. inv_ok. unfold insert_signal in H0.
  destruct (existsb _ _) in H0; [done|]. injection H0 as <-. apply insert_task_Ok in H as (t & -> & Hi & Hk & _ & _ & Hw).
  apply m_signal; [split; [eauto|exact Hw]|]. rewrite map_app, <- Hk. apply elem_of_app. right. left.
Qed.

Lemma create_analyst_labels fr hid eid g rc st ts d d' row :
  create_analyst_disposition fr hid eid g rc st ts d = Ok (d', row) -> d' = set_labels d'.(labels) d.
Proof. unfold create_analyst_disposition. intros H. inv_ok. injection H as <- <-. by apply insert_label_Ok in H2 as [-> _]. Qed.

Lemma retro_write_labels fresh p a existing ts d d' :
  retro_write fresh p a existing ts d = Ok d' -> d' = set_labels d'.(labels) d.
Proof.
  unfold retro_write. intros H. apply rbind_Ok in H as ([d1 id] & H & [Em _]%mark_relabelled).
  assert (E : d1 = set_labels d1.(labels) d); [|rewrite Em, E; reflexivity].
  destruct existing as [id0|]; [apply rbind_Ok in H as (d2 & [Ea _]%append_relabelled & E); injection E as <- <-; done|].
  destruct (rp_target p) as [sid|cid st].
  - apply rbind_Ok in H as ([d2 row] & Hl & E). injection E as <- <-. by apply create_operational_spec in Hl as [-> _].
  - destruct (latest_history _ _ _); [|done]. apply rbind_Ok in H as ([d2 row] & Hl & E). injection E as <- <-.
    by apply create_analyst_labels in Hl.
Qed.

Lemma apply_op_labels o d : writes_labels o = true -> exists l, apply_op o d = set_labels l d.
Proof.
  destruct o as [| | | | | | |id ts|fresh p a ex ts]; intros Ho; try done; cbn [apply_op].
  - destruct (propagate_label id ts d) as [d'|] eqn:E; [|exists d.(labels); by destruct d].
    apply propagate_relabelled in E as [E _]. eauto.
  - destruct (retro_write fresh p a ex ts d) as [d'|] eqn:E; [|exists d.(labels); by destruct d].
    apply retro_write_labels in E. eauto.
Qed.

(** Every operation but the poll and the label writers is one committed step, or
    none. *)
Lemma apply_op_micro o d :
  (forall mint now, o <> Poll mint now) -> writes_labels o = false -> apply_op o d = d \/ micro d (apply_op o d).
Proof.
  intros Hn Hl. destruct o as [fr now ev rd acts|fr now tid meta acts rd sd ms env gp vp|cid aid now eid meta acts rd sd|mint now|fr now g q|b polls r|fresh now row| |];
    try done; cbn [apply_op].
  - destruct (commit_evaluate_side_effects _ _ _ _ _ _ _) as [[d' aid]|] eqn:E; [|by left].
    right. by eapply m_ingest, ingest_effect.
  - destruct (ingest_transaction _ _ _ _ _ _ _ _ _ _ _ _) as [[d' aid]|] eqn:E; [|by left].
    right. by eapply m_ingest, ingest_transaction_effect.
  - destruct (materialize_lifecycle_case_for_ingest _ _ _ _ _ _ _ _ _) as [[d' r]|] eqn:E; [|by left].
    unfold materialize_lifecycle_case_for_ingest in E. inv_ok.
    destruct (negb _); [injection E as <- <-; by left|]. right. eapply m_upsert, upsert_spec, E.
  - by destruct (Hn mint now).
  - destruct (put_lifecycle_case_status _ _ _ _ _ _) as [[d' resp]|] eqn:E; [|by left].
    right. unfold put_lifecycle_case_status in E. inv_ok. destruct a as [[[cid rc] tok] s]. inv_ok.
    destruct a as [[[[d1 row] next] hid] aid]. injection E as <- <-.
    apply put_transaction_effect in H0 as [_ Hp]. by eapply m_put.
  - right. apply m_work.
  - destruct (persist_operational_signal_with_shadow_retro_tag fresh now row d) as [d'|] eqn:E; [|by left].
    right. by eapply signal_micro.
Qed.

(** What the committed steps and a move of the cursor preserve is preserved by
    every operation but the label writers. *)
Lemma apply_op_invariant (P : db -> Prop) o d :
  (forall d1 d2, P d1 -> micro d1 d2 -> P d2) -> (forall d1 c, P d1 -> P (set_cursor c d1)) ->
  writes_labels o = false -> P d -> P (apply_op o d).
Proof.
  intros Hs Hc Ho Hd.
  assert (Hrtc : forall d1 d2, rtc micro d1 d2 -> P d1 -> P d2)
    by (induction 1 as [|d1 d2 d3 Hm _ IH]; [done|]; intros H1; by apply IH, (Hs d1)).
  assert (Hop : (forall mint now, o <> Poll mint now) -> P (apply_op o d)).
  { intros Hn. destruct (apply_op_micro o d Hn Ho) as [-> |Hm]; [done|]. by apply (Hs d). }
  destruct o as [| | |mint now| | | | |]; try (by apply Hop). cbn [apply_op]. unfold process_new_audit_logs.
  set (d0 := match cursor d with Some _ => d | None => _ end).
  assert (H0 : P d0) by (unfold d0; destruct (cursor d); auto).
  destruct (poll_window d) as [|x l]; [done|].
  destruct (poll_logs _ _ _ _) as [d'|] eqn:E; [|done]. apply Hc, (Hrtc d0); [by eapply poll_logs_micro|done].
Qed.

(** What does not look at the labels besides holds of every run. *)
Lemma run_ops_invariant (P : db -> Prop) ops d :
  (forall d1 d2, P d1 -> micro d1 d2 -> P d2) -> (forall d1 c, P d1 -> P (set_cursor c d1)) ->
  (forall d1 l, P d1 -> P (set_labels l d1)) -> P d -> P (run_ops ops d).
Proof.
  intros Hs Hc Hl. unfold run_ops. revert d. induction ops as [|o ops IH]; intros d Hd; simpl; [done|]. apply IH. clear IH.
  destruct (writes_labels o) eqn:Ho; [|by apply apply_op_invariant].
  destruct (apply_op_labels o d Ho) as [l ->]. by apply Hl.
Qed.

(** An audit database before its first operation; the shadow cases are written
    by another program. *)
Definition fresh_db (anchors : list string) (fk_enforced : bool) : db := DB [] [] [] anchors [] [] [] None fk_enforced [].
Definition empty_db : db := fresh_db [] true.

(** Outbox keys are for ever. *)
Lemma micro_keys d d' k : micro d d' -> k ∈ map idempotency_key d.(outbox) -> k ∈ map idempotency_key d'.(outbox).
Proof.
  destruct 1 as [cid aid now body d' r Hu|cid next row hid aid rc d' Hp|aid d' [eid dec p ms d1 ? ? ? ? ? ? ? ? ? Ht ? ?]|b polls r|row tb Ht _];
    intros Hk.
  - by destruct Hu.
  - by apply (tasks_added_keys _ _ _ (pe_outbox _ _ _ _ _ _ _ _ Hp)).
  - by apply (tasks_added_keys _ _ _ Ht).
  - cbn. by destruct (run_worker_same b polls (d.(outbox), r)) as [_ ->].
  - by apply (tasks_added_keys _ _ _ Ht).
Qed.

Lemma put_status_effect fr now g q d d' resp :
  put_lifecycle_case_status fr now true g q d = Ok (d', resp) ->
  exists s row hid aid, case_status (strip q.(new_status_raw)) = Some s /\ resp.(resp_status) = status_value s
    /\ put_effect (strip q.(put_case)) s row hid aid (strip q.(put_reason)) d d'.
Proof.
  unfold put_lifecycle_case_status, check_put. cbn [negb]. intros H. inv_ok.
  destruct (_ || _ || _) in H0; [done|]. destruct (negb _) in H0; [done|]. destruct (negb _) in H0; [done|].
  destruct (case_status _) as [s|]; [|done]. injection H0 as <-. inv_ok.
  destruct a as [[[[d1 row] next] hid] aid]. injection H as <- <-.
  apply put_transaction_effect in H0 as [-> Hp]. exists s, row, hid, aid. done.
Qed.

(** A case can be given a resolved status once only: after one accepted
    request, whatever else is ingested, polled, reopened, resolved otherwise or
    worked off in between, every later request for the same status of the same
    case fails, because the retro-tag task's idempotency key names the case and
    the status and not the transition. *)
Theorem resolve_once fr now g q d d' resp s ops fr' now' g' q' :
  put_lifecycle_case_status fr now true g q d = Ok (d', resp) ->
  case_status (strip q.(new_status_raw)) = Some s -> s ∈ _TERMINAL_STATUSES ->
  strip q'.(put_case) = strip q.(put_case) -> case_status (strip q'.(new_status_raw)) = Some s ->
  exists e, put_lifecycle_case_status fr' now' true g' q' (run_ops ops d') = Err e.
Proof.
  intros H Hs Ht Hc Hs'. apply put_status_effect in H as (s0 & row & hid & aid & E & _ & Hp).
  rewrite Hs in E. injection E as <-.
  destruct (put_lifecycle_case_status fr' now' true g' q' _) as [[d2 resp2]|e] eqn:E; [|eauto]. exfalso.
  apply put_status_effect in E as (s0 & row2 & hid2 & aid2 & E & _ & Hp2). rewrite Hs' in E. injection E as <-.
  destruct (pe_retro _ _ _ _ _ _ _ _ Hp2 Ht) as [_ Hn]. apply Hn. rewrite Hc.
  apply (run_ops_invariant (fun d => strip (shadow_tag_key (strip (put_case q)) (status_value s)) ∈ map idempotency_key d.(outbox))).
  - intros d1 d3 Hk Hm. by apply (micro_keys d1).
  - done.
  - done.
  - by destruct (pe_retro _ _ _ _ _ _ _ _ Hp Ht).
Qed.

(** A database with one open case. *)
Definition demo_event : dict := [("entity_id", PStr "tx-1"); ("metadata", PDict [("user_id", PStr "u-1")])].
Definition demo_db : db := DB [CaseRow "c-1" 1 "u-1" "tx-1" 0 "OPEN" 0 [] None] [] [] ["tx-1"] [] [] [] None true [].
Definition demo_put (status : string) : put_request := Put "c-1" status "confirmed" "token" None None.
Definition demo_draws (k : string) (log : Z) : draws := Draws ("l" +:+ k) ("t" +:+ k) ("r" +:+ k) log.
Definition demo_after : db :=
  kept demo_db (rmap fst (put_lifecycle_case_status (demo_draws "1" 1) 10 true false (demo_put "RESOLVED_FRAUD") demo_db)).

(** Reopening works; resolving again as fraud does not. *)
Lemma resolve_once_witness :
  is_ok (put_lifecycle_case_status (demo_draws "1" 1) 10 true false (demo_put "RESOLVED_FRAUD") demo_db) = true
  /\ map case_state (run_ops [PutStatus (demo_draws "2" 2) 20 false (demo_put "OPEN")] demo_after).(cases) = ["OPEN"]
  /\ exists e, put_lifecycle_case_status (demo_draws "3" 3) 30 true false (demo_put "RESOLVED_FRAUD")
                 (run_ops [PutStatus (demo_draws "2" 2) 20 false (demo_put "OPEN")] demo_after) = Err e.
Proof.
  assert (E : exists resp, put_lifecycle_case_status (demo_draws "1" 1) 10 true false (demo_put "RESOLVED_FRAUD") demo_db
              = Ok (demo_after, resp)) by (eexists; vm_compute; reflexivity).
  split; [vm_compute; reflexivity|]. split; [vm_compute; reflexivity|]. destruct E as [resp E].
  apply (resolve_once (demo_draws "1" 1) 10 false (demo_put "RESOLVED_FRAUD") demo_db demo_after resp RESOLVED_FRAUD);
    [exact E|vm_compute; reflexivity|left|reflexivity|vm_compute; reflexivity].
Defined.

(** * Invariants *)

Lemma recent_case_Some k now d c :
  recent_case k now d = Some c -> c ∈ d.(cases) /\ c.(user_link_key) = k /\ now - DAY <= c.(opened_at).
Proof.
  unfold recent_case. intros H%head_Some_elem_of. rewrite sort_by_perm in H.
  apply filter_elem in H as [Hc [Hk%bool_decide_eq_true Ho%Z.leb_le]%andb_true_iff]. done.
Qed.

Lemma recent_case_None k now d c :
  recent_case k now d = None -> c ∈ d.(cases) -> c.(user_link_key) = k -> c.(opened_at) < now - DAY.
Proof.
  unfold recent_case. intros H Hc Hk. destruct (Z.lt_decidable (opened_at c) (now - DAY)) as [|Hn]; [done|].
  exfalso. set (l := List.filter _ _) in H.
  assert (Hin : c ∈ sort_by opened_at l).
  { rewrite sort_by_perm. apply filter_elem. split; [done|]. apply andb_true_iff.
    split; [by apply bool_decide_eq_true|apply Z.leb_le; lia]. }
  destruct (sort_by opened_at l); [by apply not_elem_of_nil in Hin|done].
Qed.

Lemma moved_id cid s c : case_id (moved cid s c) = case_id c.
Proof. unfold moved. by case_bool_decide. Qed.

(** Two cases of one user are more than a day apart. *)
Definition spaced (d : db) : Prop :=
  forall c1 c2, c1 ∈ d.(cases) -> c2 ∈ d.(cases) -> c1.(case_id) <> c2.(case_id) ->
    c1.(user_link_key) = c2.(user_link_key) -> DAY < Z.abs (c1.(opened_at) - c2.(opened_at)).

Lemma spaced_same d d' : d'.(cases) = d.(cases) -> spaced d -> spaced d'.
Proof. intros E H. unfold spaced. by rewrite E. Qed.

Lemma spaced_micro d d' : spaced d -> micro d d' -> spaced d'.
Proof.
  intros Hs Hm.
  destruct Hm as [cid aid now body d' r Hu|cid next row hid aid rc d' Hp|aid d' [eid dec p ms d1 Ec _ _ _ _ _ _ _ _ _ _ _]|b polls r|row tb _ _];
    try (by apply (spaced_same d)).
  - destruct Hu as [|c|c|eid prio _ Hn _ _ _]; try done.
    intros c1 c2 [H1| ->%list_elem_of_singleton]%elem_of_app [H2| ->%list_elem_of_singleton]%elem_of_app Hne Hk;
      [by apply Hs| | |done].
    + pose proof (recent_case_None _ _ _ _ Hn H1 Hk). cbn. lia.
    + pose proof (recent_case_None _ _ _ _ Hn H2 (eq_sym Hk)). cbn. lia.
  - unfold spaced. rewrite (pe_cases _ _ _ _ _ _ _ _ Hp).
    intros c1 c2 (a & -> & Ha)%map_elem (b & -> & Hb)%map_elem. rewrite !moved_id.
    intros Hne. assert (Hf : forall c, user_link_key (moved cid (status_value next) c) = user_link_key c
      /\ opened_at (moved cid (status_value next) c) = opened_at c) by (intros c; unfold moved; by case_bool_decide).
    destruct (Hf a) as [-> ->], (Hf b) as [-> ->]. by apply Hs.
Qed.

(** In every database the operations reach, whatever their order and their
    clocks, two cases of one user were opened more than 24 hours apart. *)
Theorem one_case_per_day ops anchors fk : spaced (run_ops ops (fresh_db anchors fk)).
Proof.
  apply run_ops_invariant; [apply spaced_micro|done|done|]. intros c1 c2 Hc. by apply not_elem_of_nil in Hc.
Qed.

(** The status the history gives a case. *)
Definition transitions_of (cid : string) (h : list CaseHistoryORM) : list string :=
  filter_map (fun r => if bool_decide (r.(hist_case) = cid) then r.(to_status) else None) h.

Definition status_from_history (cid : string) (h : list CaseHistoryORM) : string :=
  default (status_value OPEN) (last (transitions_of cid h)).

Record journal_ok (d : db) : Prop := {
  jo_ids : NoDup (map case_id d.(cases));
  jo_cases h : h ∈ d.(history) -> h.(hist_case) ∈ map case_id d.(cases);
  jo_logs : NoDup (omap audit_log_id d.(history));
  jo_state c : c ∈ d.(cases) -> c.(case_state) = status_from_history c.(case_id) d.(history);
  jo_priority c : c ∈ d.(cases) -> 0 <= c.(priority) <= 100 }.

Lemma transitions_app cid h r :
  transitions_of cid (h ++ [r])
  = transitions_of cid h ++ (if bool_decide (r.(hist_case) = cid) then option_list r.(to_status) else []).
Proof.
  unfold transitions_of. induction h as [|x h IH]; simpl.
  - case_bool_decide; [by destruct (to_status r)|done].
  - rewrite IH. destruct (bool_decide (hist_case x = cid)); [by destruct (to_status x)|done].
Qed.

Lemma status_link cid h x c a : status_from_history cid (h ++ [HistoryRow x c a None None None None]) = status_from_history cid h.
Proof. unfold status_from_history. rewrite transitions_app. simpl. case_bool_decide; by rewrite app_nil_r. Qed.

Lemma status_other cid h r : r.(hist_case) <> cid -> status_from_history cid (h ++ [r]) = status_from_history cid h.
Proof.
  intros Hn. unfold status_from_history. by rewrite transitions_app, bool_decide_eq_false_2, app_nil_r by done.
Qed.

Lemma status_moved cid h r s : r.(hist_case) = cid -> r.(to_status) = Some s -> status_from_history cid (h ++ [r]) = s.
Proof.
  intros Hc Hs. unfold status_from_history. rewrite transitions_app, bool_decide_eq_true_2, Hs by done. simpl.
  by rewrite last_snoc.
Qed.

Lemma nodup_snoc {A} (l : list A) x : NoDup l -> x ∉ l -> NoDup (l ++ [x]).
Proof.
  intros Hl Hx. apply NoDup_app. split; [done|]. split; [|apply NoDup_singleton]. by intros y Hy ->%list_elem_of_singleton.
Qed.

Lemma omap_snoc {A B} (f : A -> option B) l x y : f x = Some y -> omap f (l ++ [x]) = omap f l ++ [y].
Proof. intros H. rewrite omap_app. simpl. by rewrite H. Qed.

Lemma journal_upsert cid aid now body d d' r : journal_ok d -> upserted cid aid now body d d' r -> journal_ok d'.
Proof.
  intros [I C L S P] [|c|c _ Hr Hf|eid prio _ Hn Hf Hcid Hp]; try done.
  - split; cbn [cases history set_history]; try done.
    + intros h [Hh| ->%list_elem_of_singleton]%elem_of_app; [by apply C|]. cbn. apply map_elem.
      apply recent_case_Some in Hr as [Hr _]. eauto.
    + erewrite omap_snoc by reflexivity. by apply nodup_snoc.
    + intros x Hx. unfold link_row. rewrite status_link. by apply S.
  - split; cbn [cases history set_history set_cases].
    + rewrite map_app. by apply nodup_snoc.
    + intros h Hh. rewrite map_app. apply elem_of_app.
      apply elem_of_app in Hh as [Hh| ->%list_elem_of_singleton]; [left; by apply C|right; left].
    + erewrite omap_snoc by reflexivity. by apply nodup_snoc.
    + intros x Hx. unfold link_row. rewrite status_link. apply elem_of_app in Hx as [Hx| ->%list_elem_of_singleton]; [by apply S|].
      cbn [case_state case_id new_case]. unfold status_from_history.
      replace (transitions_of cid (history d)) with (@nil string); [done|]. symmetry. unfold transitions_of.
      assert (Hno : forall h, h ∈ history d -> hist_case h <> cid) by (intros h Hh <-; by apply Hcid, C).
      clear -Hno. induction (history d) as [|h l IH]; [done|]. simpl.
      rewrite bool_decide_eq_false_2 by (apply Hno; left). apply IH. intros y Hy. apply Hno. by right.
    + intros x [Hx| ->%list_elem_of_singleton]%elem_of_app; [by apply P|]. exact Hp.
Qed.

Lemma journal_put cid next row hid aid rc d d' :
  journal_ok d -> put_effect cid next row hid aid rc d d' -> journal_ok d'.
Proof.
  intros [I C L S P] [Hrow Hcases [fp Hh] _ _ _ [_ Hfresh] _ _ _ _ _].
  assert (Eids : map case_id d'.(cases) = map case_id d.(cases)).
  { rewrite Hcases, map_map. apply map_ext. intros c. apply moved_id. }
  split.
  - by rewrite Eids.
  - rewrite Eids, Hh. intros h [H| ->%list_elem_of_singleton]%elem_of_app; [by apply C|]. cbn. apply map_elem.
    destruct Hrow as [Hr <-]. eauto.
  - rewrite Hh. erewrite omap_snoc by reflexivity. by apply nodup_snoc.
  - rewrite Hcases, Hh. intros x (c & -> & Hc)%map_elem. rewrite moved_id. unfold moved. case_bool_decide as E.
    + cbn [case_state]. symmetry. by apply status_moved.
    + rewrite status_other; [by apply S|]. cbn. congruence.
  - rewrite Hcases. intros x (c & -> & Hc)%map_elem. unfold moved. case_bool_decide; by apply (P c).
Qed.

Lemma journal_micro d d' : journal_ok d -> micro d d' -> journal_ok d'.
Proof.
  intros Hj [cid aid now body d1 r Hu|cid next row hid aid rc d1 Hp|aid d0 [eid dec p ms d1 Ec Eh _ _ _ _ _ _ _ _ _ _]|b polls r|row tb _ _].
  - by eapply journal_upsert.
  - by eapply journal_put.
  - destruct Hj as [I C L S P]. split; rewrite ?Ec, ?Eh; done.
  - by destruct Hj.
  - by destruct Hj.
Qed.

(** The journal tells the truth: in every database the operations reach,
    each case has the status of its last recorded transition (or is still open
    as created), case ids are unique, every history row belongs to a case, no
    audit log is linked twice and priorities lie between 0 and 100. *)
Theorem status_is_last_transition ops anchors fk : journal_ok (run_ops ops (fresh_db anchors fk)).
Proof. apply run_ops_invariant; [apply journal_micro|by intros d c []|by intros d c []|]. split; try (intros ? ?%not_elem_of_nil; done); apply NoDup_nil_2. Qed.

(** * The transactional outbox *)

Definition row_truth (r : CaseHistoryORM) : option string :=
  match r.(to_status) ≫= case_status with
  | Some s => truth_value <$> ground_truth_class_for_resolved_status s
  | None => None
  end.

(** The source and class of an analyst's label, and what a history row calls for. *)
Definition verdict (l : NormalizedLabelORM) : option (result string * string) :=
  if bool_decide (l.(CaseStore.source_type) = SOURCE_TYPE_ANALYST_DISPOSITION)
  then Some (Ok l.(CaseStore.source_id), l.(CaseStore.ground_truth_class)) else None.

Definition row_verdict (r : CaseHistoryORM) : option (result string * string) :=
  (fun t => (case_history_source_id r.(hist_id), t)) <$> row_truth r.

(** Every write that other systems must hear of has its task, and every label
    its reason. *)
Record announced (d : db) : Prop := {
  an_wf : wf_table d.(outbox);
  an_resolved h s : h ∈ d.(history) -> h.(to_status) = Some (status_value s) -> s ∈ _TERMINAL_STATUSES ->
    strip (shadow_tag_key h.(hist_case) (status_value s)) ∈ map idempotency_key d.(outbox);
  an_labels l : l ∈ d.(labels) -> l.(CaseStore.source_type) = SOURCE_TYPE_ANALYST_DISPOSITION ->
    strip (label_propagate_key l.(label_id)) ∈ map idempotency_key d.(outbox);
  an_truth : omap verdict d.(labels) = omap row_verdict d.(history);
  an_ingest l b : l ∈ d.(logs) -> l.(action_taken) = Some (PDict b) ->
    get b "source" PNone = PStr ORCHESTRATOR_AUDIT_SOURCE ->
    strip (graph_ingest_key l.(log_case) l.(log_id)) ∈ map idempotency_key d.(outbox)
    /\ strip (velocity_update_key l.(log_case) l.(log_id)) ∈ map idempotency_key d.(outbox);
  an_signals s : s ∈ d.(signals) -> strip (shadow_tag_ops_key s.(sig_key)) ∈ map idempotency_key d.(outbox);
  an_operational l : l ∈ d.(labels) -> l.(CaseStore.source_type) <> SOURCE_TYPE_ANALYST_DISPOSITION ->
    exists s, s ∈ d.(signals) /\ label_of_signal s l }.

Lemma case_status_value s : case_status (status_value s) = Some s.
Proof. by destruct s. Qed.

Lemma status_value_inj s s' : status_value s = status_value s' -> s = s'.
Proof. by destruct s, s'. Qed.

Lemma announced_put cid next row hid aid rc d d' :
  announced d -> put_effect cid next row hid aid rc d d' -> announced d'.
Proof.
  intros [W R A T G O B] Hp. pose proof (pe_outbox _ _ _ _ _ _ _ _ Hp) as Hadd.
  pose proof (fun k => tasks_added_keys _ _ k Hadd) as Hk. destruct (pe_history _ _ _ _ _ _ _ _ Hp) as [fp Hh].
  pose proof (pe_labels _ _ _ _ _ _ _ _ Hp) as Hl. split.
  - by apply Hadd.
  - intros h s. rewrite Hh. intros [H| ->%list_elem_of_singleton]%elem_of_app Hs Ht; [by apply Hk, (R h)|].
    cbn in Hs |- *. injection Hs as Hs%status_value_inj. subst s. by destruct (pe_retro _ _ _ _ _ _ _ _ Hp Ht).
  - intros l H Hty. destruct (ground_truth_class_for_resolved_status next); [|rewrite Hl in H; by apply Hk, A].
    destruct Hl as (l0 & E & _ & _ & Hl0). rewrite E in H.
    apply elem_of_app in H as [H| ->%list_elem_of_singleton]; [by apply Hk, A|done].
  - rewrite Hh, omap_app. simpl. unfold row_verdict at 2, row_truth. cbn [to_status mbind option_bind hist_id].
    rewrite case_status_value. destruct (ground_truth_class_for_resolved_status next) as [g|]; simpl.
    + destruct Hl as (l0 & E & (E1 & E2 & E3) & _). rewrite E, omap_app, T. simpl. unfold verdict at 1.
      by rewrite bool_decide_eq_true_2, E2, E3.
    + by rewrite app_nil_r, Hl, T.
  - intros l b H Hb Hs. destruct (pe_source _ _ _ _ _ _ _ _ Hp l H) as [Hin|(b' & Hb' & Hs')].
    + destruct (G l b Hin Hb Hs). auto.
    + rewrite Hb in Hb'. injection Hb' as <-. rewrite Hs in Hs'. discriminate Hs'.
  - intros s. rewrite (pe_signals _ _ _ _ _ _ _ _ Hp). intros. by apply Hk, O.
  - intros l H Hty. rewrite (pe_signals _ _ _ _ _ _ _ _ Hp). apply B; [|done].
    destruct (ground_truth_class_for_resolved_status next); [|by rewrite Hl in H].
    destruct Hl as (l0 & E & (E1 & _) & _). rewrite E in H. by apply elem_of_app in H as [H| ->%list_elem_of_singleton].
Qed.

Lemma announced_link d cid aid cs :
  announced d -> announced (set_history (d.(history) ++ [link_row d cid aid]) (set_cases cs d)).
Proof.
  intros [W R A T G O B]. split; cbn [outbox history labels logs signals set_history set_cases]; try done.
  - intros h s [H| ->%list_elem_of_singleton]%elem_of_app; [by apply R|done].
  - by rewrite omap_app, T, app_nil_r.
Qed.

Lemma announced_micro d d' : announced d -> micro d d' -> announced d'.
Proof.
  intros Ha [cid aid now body d1 r Hu|cid next row hid aid rc d1 Hp|aid d0 [eid dec p ms d1 Ec Eh El _ Es _ _ Eg Hs Ht K1 K2]|b polls r|row tb Ht Hr].
  - destruct Hu as [|c|c|eid prio]; try done.
    + replace d with (set_cases d.(cases) d) at 3 by (by destruct d). by apply announced_link.
    + by apply announced_link.
  - by eapply announced_put.
  - destruct Ha as [W R A T G O B]. pose proof (fun k => tasks_added_keys _ _ k Ht) as Hk. split.
    + by apply Ht.
    + intros h s. rewrite Eh. intros. by apply Hk, R.
    + intros l. rewrite El. intros. by apply Hk, A.
    + by rewrite El, Eh.
    + intros l b'. rewrite Eg. intros [H| ->%list_elem_of_singleton]%elem_of_app Hb Hs'; [|done].
      destruct (G l b' H Hb Hs'). auto.
    + intros s. rewrite Es. intros. by apply Hk, O.
    + intros l. rewrite El, Es. apply B.
  - pose proof (run_worker_same b polls (d.(outbox), r)) as Hw. destruct Ha as [W R A T G O B]. destruct Hw as [U E].
    cbn [fst] in U, E. split; cbn [outbox set_outbox history labels logs signals]; rewrite ?E; try done.
    by apply (same_rows_wf d.(outbox)).
  - destruct Ha as [W R A T G O B]. pose proof (fun k => tasks_added_keys _ _ k Ht) as Hk.
    split; cbn [outbox set_outbox set_signals history labels logs signals].
    + by apply Ht.
    + intros. by apply Hk, R.
    + intros. by apply Hk, A.
    + done.
    + intros l b' H Hb Hs'. destruct (G l b' H Hb Hs'). auto.
    + intros s [H| ->%list_elem_of_singleton]%elem_of_app; [by apply Hk, O|done].
    + intros l Hl Hty. destruct (B l Hl Hty) as (s & Hin & Hsl). exists s. split; [apply elem_of_app; by left|done].
Qed.

(** Labels that differ in tags and marks only. *)
Lemma relabelled_label d d' l' :
  relabelled d d' -> l' ∈ d'.(labels) -> exists l, l ∈ d.(labels) /\ label_key l = label_key l'.
Proof. intros [_ E] H. assert (Hin : label_key l' ∈ map label_key d.(labels)) by (rewrite <- E; apply map_elem; eauto). apply map_elem in Hin as (l & ? & ?). eauto. Qed.

Lemma verdict_keys ls ls' : map label_key ls' = map label_key ls -> omap verdict ls' = omap verdict ls.
Proof.
  revert ls'. induction ls as [|l ls IH]; intros [|l' ls'] E; try done. cbn [map] in E. injection E as E1 E2 E3 E4 E5 E.
  specialize (IH ls' E). assert (Ev : verdict l' = verdict l) by (unfold verdict; by rewrite E2, E3, E5). csimpl. by rewrite Ev, IH.
Qed.

Lemma announced_relabelled d d' : announced d -> relabelled d d' -> announced d'.
Proof.
  intros [W R A T G O B] Hr. pose proof (fun l => relabelled_label d d' l Hr) as Hl. destruct Hr as [E K].
  assert (E' : d'.(outbox) = d.(outbox) /\ d'.(history) = d.(history) /\ d'.(logs) = d.(logs) /\ d'.(signals) = d.(signals))
    by (by rewrite E). destruct E' as (E1 & E2 & E3 & E4).
  split; rewrite ?E1, ?E2, ?E3, ?E4; try done.
  - intros l (l0 & H0 & Hk)%Hl Hty. injection Hk as K1 K2 _ _ _. rewrite <- K1. apply A; congruence.
  - by rewrite (verdict_keys _ _ K).
  - intros l (l0 & H0 & Hk)%Hl Hty. injection Hk as _ K2 K3 _ K5. destruct (B l0 H0) as (s & Hs & L1 & L2 & L3); [congruence|].
    exists s. split; [done|]. split; [congruence|]. split; congruence.
Qed.

Lemma announced_signal_label d s l :
  announced d -> s ∈ d.(signals) -> label_of_signal s l -> announced (set_labels (d.(labels) ++ [l]) d).
Proof.
  intros [W R A T G O B] Hs Hl. pose proof (label_of_signal_type _ _ Hl) as Hty.
  split; cbn [outbox set_labels history labels logs signals]; try done.
  - intros l0 [H| ->%list_elem_of_singleton]%elem_of_app; [by apply A|done].
  - rewrite omap_app, T. simpl. unfold verdict. by rewrite bool_decide_eq_false_2, app_nil_r.
  - intros l0 [H| ->%list_elem_of_singleton]%elem_of_app H0; [by apply B|]. eauto.
Qed.

Lemma announced_retro known d d' :
  announced d -> (forall s, s ∈ known -> s ∈ d.(signals)) -> retro_written known d d' -> announced d'.
Proof.
  intros Ha Hk [d1 Hr|s l d1 Hs Hl _ Hr]; [by apply (announced_relabelled d)|].
  eapply announced_relabelled; [|exact Hr]. apply (announced_signal_label d s); auto.
Qed.

(** The retro-tag handler of a resolved case finds the label of the resolution. *)
Lemma case_label_there p cid st d a existing :
  announced d -> retro_read p d = Ok (a, existing) -> p.(rp_target) = RetroCase cid st -> existing <> None.
Proof.
  intros Ha H Et. unfold retro_read in H. rewrite Et in H. apply rbind_Ok in H as (a0 & H & E). injection E as -> <-.
  unfold _resolve_case_anchor in H. destruct (case_status (strip st)) as [s|]; [|done].
  destruct (ground_truth_class_for_resolved_status s) as [g|] eqn:Eg; [|done].
  destruct (latest_history cid (status_value s) d) as [h|] eqn:Eh; [|done]. apply rbind_Ok in H as (sid & Hsid & E). injection E as <-.
  cbn [anchor_type anchor_source]. unfold latest_history in Eh. apply last_Some_elem_of in Eh. rewrite sort_by_perm in Eh.
  apply filter_elem in Eh as [Hh [_ Hto%bool_decide_eq_true]%andb_true_iff].
  assert (Hv : (Ok sid, truth_value g) ∈ omap verdict d.(labels)).
  { rewrite (an_truth d Ha). apply list_elem_of_omap. exists h. split; [done|]. unfold row_verdict, row_truth. rewrite Hto. cbn.
    by rewrite case_status_value, Eg, Hsid. }
  apply list_elem_of_omap in Hv as (l & Hl & Ev). unfold verdict in Ev. case_bool_decide as Hty; [|done]. injection Ev as Es _.
  unfold _fetch_existing_label. intros Hn.
  assert (Hin : l ∈ List.filter (fun l => bool_decide (CaseStore.source_type l = SOURCE_TYPE_ANALYST_DISPOSITION)
                    && bool_decide (CaseStore.source_id l = sid)) (labels d)).
  { apply filter_elem. split; [done|]. apply andb_true_iff. split; by apply bool_decide_eq_true. }
  destruct (List.filter _ _); [by apply not_elem_of_nil in Hin|done].
Qed.

(** What a retro-tag handler writes it has read, in the database it writes to or
    in an earlier one. *)
Fixpoint genuine (past : list db) (ops : list op) (d : db) : Prop :=
  match ops with
  | [] => True
  | o :: ops' =>
      match o with
      | RetroTag _ p a existing _ => exists d0, d0 ∈ d :: past /\ retro_read p d0 = Ok (a, existing)
      | _ => True
      end /\ genuine (d :: past) ops' (apply_op o d)
  end.

Lemma micro_signals d d' s : micro d d' -> s ∈ d.(signals) -> s ∈ d'.(signals).
Proof.
  intros [cid aid now body d1 r Hu|cid next row hid aid rc d1 Hp|aid d0 [eid dec p ms d1 Ec Eh El _ Es _ _ Eg Hs Ht K1 K2]|b polls r|row tb Ht Hr] Hin.
  - by destruct Hu.
  - by rewrite (pe_signals _ _ _ _ _ _ _ _ Hp).
  - by rewrite Es.
  - done.
  - apply elem_of_app. by left.
Qed.

Lemma apply_op_signals o d s : s ∈ d.(signals) -> s ∈ (apply_op o d).(signals).
Proof.
  intros Hs. apply (run_ops_invariant (fun d => s ∈ d.(signals)) [o]); [|done..]. intros d1 d2 H Hm. by apply (micro_signals d1).
Qed.

Lemma announced_op past o d :
  (forall d0, d0 ∈ past -> announced d0 /\ forall s, s ∈ d0.(signals) -> s ∈ d.(signals)) -> announced d ->
  genuine past [o] d -> announced (apply_op o d).
Proof.
  intros Hp Ha [Hg _]. destruct (writes_labels o) eqn:Ho; [|apply apply_op_invariant; [apply announced_micro|by intros ? ? []|done..]].
  destruct o as [| | | | | | |id ts|fresh p a ex ts]; try done; cbn [apply_op].
  - destruct (propagate_label id ts d) as [d'|] eqn:E; [|done]. apply (announced_relabelled d); [done|]. by eapply propagate_relabelled.
  - destruct (retro_write fresh p a ex ts d) as [d'|] eqn:E; [|done]. destruct Hg as (d0 & H0 & Hr).
    assert (Hk : announced d0 /\ forall s, s ∈ d0.(signals) -> s ∈ d.(signals))
      by (apply elem_of_cons in H0 as [-> |H0]; [done|by apply Hp]).
    destruct Hk as [Ha0 Hk]. apply (announced_retro d0.(signals) d d' Ha Hk).
    eapply (retro_write_spec fresh p a ex ts d d' d0 Hr); [|exact E]. intros cid st Et. by eapply case_label_there.
Qed.

Lemma announced_run ops : forall past d,
  (forall d0, d0 ∈ past -> announced d0 /\ forall s, s ∈ d0.(signals) -> s ∈ d.(signals)) -> announced d ->
  genuine past ops d -> announced (run_ops ops d).
Proof.
  unfold run_ops. induction ops as [|o ops IH]; intros past d Hp Ha Hg; [done|]. cbn [foldl]. destruct Hg as [H0 Hg].
  apply (IH (d :: past)); [|by apply (announced_op past)|done].
  intros d0 [-> |Hin]%elem_of_cons; [split; [done|]; intros; by apply apply_op_signals|].
  destruct (Hp d0 Hin) as [? Hs]. split; [done|]. intros s ?. by apply apply_op_signals, Hs.
Qed.

Lemma announced_fresh anchors fk : announced (fresh_db anchors fk).
Proof.
  split; try (intros; by match goal with H : _ ∈ _ |- _ => apply not_elem_of_nil in H end).
  - split; [apply NoDup_nil_2..|]. by intros t ?%not_elem_of_nil.
  - done.
Qed.

(** C35: nothing is written without its notification: in every database the
    operations reach, the label writes of the outbox handlers included, each
    resolution has its retro-tag task, each analyst label its propagation task,
    each ingested event its graph and velocity tasks and each operational signal
    its retro-tag task in the outbox; the analyst labels are, in order and with
    their source ids, exactly the fraud and legitimate resolutions of the
    history; and every other label is that of a stored operational signal, of the
    class the signal stands for.  Assumed is only that a retro-tag handler writes
    what it read in this or an earlier database of the run. *)
Theorem writes_announced ops anchors fk :
  genuine [] ops (fresh_db anchors fk) -> announced (run_ops ops (fresh_db anchors fk)).
Proof. apply announced_run; [by intros d0 ?%not_elem_of_nil|apply announced_fresh]. Qed.

(** An event is ingested and its case opened and resolved as fraud; a chargeback
    comes in, its retro-tag handler reads that it has no label yet and writes one;
    the retro-tag handler of the case finds the label of the resolution. *)
Definition demo_signal : OperationalSignalORM := Signal "s-1" "k-1" "tx-1" CHARGEBACK_RECEIVED None [].
Definition demo_retro : ShadowRetroTagPayload := RetroPayload "tx-1" (RetroSignal "s-1").
Definition demo_retro_case : ShadowRetroTagPayload := RetroPayload "tx-1" (RetroCase "c-1" "RESOLVED_FRAUD").
Definition demo_ingest (fresh : string) (id : Z) : op :=
  Ingest (IngestDraws ("g" +:+ fresh) ("v" +:+ fresh) "2026-01-01T00:00:00+00:00" id) 0 demo_event [] ["FLAG"].
Definition demo_source : string := default "" (match case_history_source_id 2 with Ok s => Some s | Err _ => None end).
Definition signal_ops : list op :=
  [demo_ingest "1" 1; Materialize "c-1" 1 0 "tx-1" [("user_id", PStr "u-1")] ["FLAG"] [] PNone;
   PutStatus (demo_draws "2" 2) 10 false (demo_put "RESOLVED_FRAUD");
   SignalIn "t-1" 0 demo_signal; RetroTag "l-1" demo_retro (Anchor "CHARGEBACK" "s-1" FRAUD) None ["velocity"];
   RetroTag "l-9" demo_retro_case (Anchor SOURCE_TYPE_ANALYST_DISPOSITION demo_source FRAUD) (Some "l2") ["velocity"]].

Lemma writes_announced_witness :
  map (fun l => (l.(label_id), l.(CaseStore.source_type), l.(CaseStore.ground_truth_class)))
    (run_ops signal_ops (fresh_db ["tx-1"] true)).(labels)
  = [("l2", "ANALYST_DISPOSITION", "FRAUD"); ("l-1", "CHARGEBACK", "FRAUD")]
  /\ map idempotency_key (run_ops signal_ops (fresh_db ["tx-1"] true)).(outbox)
     = ["graph_ingest:tx-1:1"; "velocity_update:tx-1:1"; "label_propagate:l2"; "shadow_tag_case:c-1:RESOLVED_FRAUD";
        "shadow_tag_ops:k-1"]
  /\ announced (run_ops signal_ops (fresh_db ["tx-1"] true)).
Proof.
  split; [vm_compute; reflexivity|]. split; [vm_compute; reflexivity|]. apply writes_announced.
  cbn [genuine signal_ops demo_ingest]. do 4 (split; [exact I|]).
  split; [eexists; split; [left|vm_compute; reflexivity]|].
  split; [eexists; split; [left|vm_compute; reflexivity]|exact I].
Defined.

(** * The poll *)

(** A log the poll must turn into a case or link to one. *)
Definition calls_for_case (l : AuditLog) : Prop :=
  exists b, l.(action_taken) = Some (PDict b) /\ eq_str (get b "source" PNone) ORCHESTRATOR_AUDIT_SOURCE = true
    /\ triggers b = Ok true.

Definition linked (d : db) (l : AuditLog) : Prop := l.(log_id) ∈ omap audit_log_id d.(history).

Lemma upserted_frame cid aid now body d d' r :
  upserted cid aid now body d d' r ->
  d'.(logs) = d.(logs) /\ d'.(cursor) = d.(cursor) /\ d'.(outbox) = d.(outbox)
  /\ (forall x, x ∈ omap audit_log_id d.(history) -> x ∈ omap audit_log_id d'.(history))
  /\ (triggers body = Ok true -> aid ∈ omap audit_log_id d'.(history)).
Proof.
  intros [Ht|c Ht Hr Hk|c Ht Hr Hk|eid prio Ht Hn Hf Hc Hp]; cbn [logs cursor outbox history set_history set_cases].
  - do 4 (split; [done|]). by rewrite Ht.
  - done.
  - do 3 (split; [done|]). rewrite (omap_snoc _ _ _ aid) by done. split; [intros x Hx; apply elem_of_app; by left|].
    intros _. apply elem_of_app. right. left.
  - do 3 (split; [done|]). rewrite (omap_snoc _ _ _ aid) by done. split; [intros x Hx; apply elem_of_app; by left|].
    intros _. apply elem_of_app. right. left.
Qed.

Lemma poll_log_cover mint now x d d' :
  poll_log mint now x d = Ok d' ->
  d'.(logs) = d.(logs) /\ d'.(cursor) = d.(cursor) /\ (forall y, linked d y -> linked d' y)
  /\ (calls_for_case x -> linked d' x).
Proof.
  unfold poll_log. intros H.
  assert (Hskip : d' = d -> ~ calls_for_case x -> d'.(logs) = d.(logs) /\ d'.(cursor) = d.(cursor)
     /\ (forall y, linked d y -> linked d' y) /\ (calls_for_case x -> linked d' x)) by (intros ->; done).
  destruct (action_taken x) as [[]|] eqn:Ea; try (injection H as <-; apply Hskip; [done|]; intros (? & E & _); congruence).
  destruct (eq_str _ _) eqn:Es; [|injection H as <-; apply Hskip; [done|]; intros (? & E & E' & _); congruence].
  destruct (_upsert_lifecycle_case_from_payload _ _ _ _ _) as [[d1 r]|] eqn:E; [|done]. injection H as <-.
  apply upsert_spec, upserted_frame in E as (H1 & H2 & _ & H3 & H4). do 2 (split; [done|]).
  split; [intros y; apply H3|]. intros (b & Eb & _ & Ht). apply H4. congruence.
Qed.

Lemma poll_logs_cover mint now w : forall d d',
  poll_logs mint now w d = Ok d' ->
  d'.(logs) = d.(logs) /\ d'.(cursor) = d.(cursor) /\ (forall y, linked d y -> linked d' y)
  /\ (forall x, x ∈ w -> calls_for_case x -> linked d' x).
Proof.
  induction w as [|x w IH]; intros d d' H; simpl in H.
  - injection H as <-. do 3 (split; [done|]). by intros x ?%not_elem_of_nil.
  - inv_ok. apply poll_log_cover in H0 as (A1 & A2 & A3 & A4). apply IH in H as (B1 & B2 & B3 & B4).
    split; [congruence|]. split; [congruence|]. split; [auto|].
    intros y [-> | Hy]%elem_of_cons Hc; [by apply B3, A4|by apply B4].
Qed.

Lemma cursor_max (w : list AuditLog) : forall c,
  let m := foldl (fun m l => Z.max m l.(log_id)) c w in
  c <= m /\ (forall x, x ∈ w -> x.(log_id) <= m) /\ (m = c \/ exists x, x ∈ w /\ x.(log_id) = m).
Proof.
  induction w as [|y w IH]; intros c; simpl.
  - split; [lia|]. split; [by intros x ?%not_elem_of_nil|by left].
  - destruct (IH (Z.max c (log_id y))) as (H1 & H2 & H3). split; [lia|]. split.
    + intros x [-> | Hx]%elem_of_cons; [lia|by apply H2].
    + destruct H3 as [H3|(x & Hx & E)]; [|right; exists x; split; [by right|done]].
      destruct (Z.max_spec c (log_id y)) as [[_ E]|[_ E]]; [right; exists y; split; [left|]|left]; lia.
Qed.

(** The poll keeps up: no log behind the cursor is without its case. *)
Record caught_up (d : db) : Prop := {
  cu_ids : NoDup (map log_id d.(logs));
  cu_linked l : l ∈ d.(logs) -> calls_for_case l -> l.(log_id) <= default 0 d.(cursor) -> linked d l }.

Lemma caught_up_poll mint now d d' :
  caught_up d -> process_new_audit_logs mint now d = Ok d' -> caught_up d'.
Proof.
  intros [I L] H. unfold process_new_audit_logs in H.
  set (d0 := match cursor d with Some _ => d | None => _ end) in H.
  assert (E0 : d0.(logs) = d.(logs) /\ d0.(history) = d.(history) /\ default 0 d0.(cursor) = default 0 d.(cursor))
    by (unfold d0; destruct (cursor d) eqn:E; cbn; rewrite ?E; done).
  destruct E0 as (E1 & E2 & E3).
  destruct (poll_window d) as [|x w] eqn:Ew.
  { injection H as <-. split; rewrite ?E1, ?E3; try done. unfold linked. by rewrite E2. }
  rewrite <- Ew in H. inv_ok. subst d'. apply poll_logs_cover in H0 as (A1 & A2 & A3 & A4).
  destruct (cursor_max (poll_window d) (default 0 d0.(cursor))) as (M1 & M2 & M3). set (m := foldl _ _ _) in *.
  rewrite E3 in M1, M3. rewrite E1 in A1.
  assert (Hwin : forall y, y ∈ poll_window d -> y ∈ logs d).
  { intros y Hy. unfold poll_window in Hy. apply elem_of_take in Hy as (i & Hy%list_elem_of_lookup_2 & _).
    rewrite sort_by_perm in Hy. by apply filter_elem in Hy as [? _]. }
  split; cbn [logs cursor set_cursor]; rewrite ?A1; [done|].
  - intros l Hl Hc Hm. change (log_id l <= m) in Hm. unfold linked. cbn [history set_cursor]. fold (linked a l).
    destruct (Z.le_gt_cases (log_id l) (default 0 (cursor d))) as [Hle|Hgt].
    + apply A3. unfold linked. rewrite E2. by apply L.
    + apply A4; [|done]. set (s := sort_by log_id (List.filter (fun l => default 0 (cursor d) <? log_id l) (logs d))).
      assert (Hs : l ∈ s) by (unfold s; rewrite sort_by_perm; apply filter_elem; split; [done|by apply Z.ltb_lt]).
      rewrite <- (take_drop 500 s) in Hs. apply elem_of_app in Hs as [Hs|Hs]; [done|].
      destruct M3 as [M3|(y & Hy & Ey)]; [lia|].
      pose proof (ascending_split log_id 500 s y l (sort_by_ascending log_id _) Hy Hs).
      assert (l = y) as -> by (apply (nodup_inj log_id (logs d)); [done..|by apply Hwin|lia]). done.
Qed.

(** One more log: the poll has not passed it, or it is none of its business. *)
Lemma caught_up_snoc d d' l :
  caught_up d -> d'.(cursor) = d.(cursor) -> d'.(logs) = d.(logs) ++ [l] -> log_id l ∉ map log_id d.(logs) ->
  (calls_for_case l -> default 0 d.(cursor) < log_id l) -> (forall y, linked d y -> linked d' y) -> caught_up d'.
Proof.
  intros [I L] Ec El Hid Hb Hm. split; rewrite ?Ec, ?El, ?map_app.
  - by apply nodup_snoc.
  - intros y [Hy| ->%list_elem_of_singleton]%elem_of_app Hc Hle; [by apply Hm, L|]. specialize (Hb Hc). lia.
Qed.

Lemma caught_up_same d d' :
  d'.(logs) = d.(logs) -> d'.(cursor) = d.(cursor) -> (forall y, linked d y -> linked d' y) -> caught_up d -> caught_up d'.
Proof. intros E1 E2 E3 [I L]. split; rewrite ?E1, ?E2; auto. Qed.

Lemma caught_up_put cid next row hid aid rc d d' :
  caught_up d -> put_effect cid next row hid aid rc d d' -> caught_up d'.
Proof.
  intros Hu Hp. destruct (pe_log _ _ _ _ _ _ _ _ Hp) as (l & El & Hl). destruct (pe_history _ _ _ _ _ _ _ _ Hp) as [fp Hh].
  destruct (pe_aid _ _ _ _ _ _ _ _ Hp) as [Hnew _]. rewrite <- Hl in Hnew.
  apply (caught_up_snoc d d' l Hu (pe_cursor _ _ _ _ _ _ _ _ Hp) El Hnew).
  - intros (b & Eb & Es & _). exfalso. destruct (pe_source _ _ _ _ _ _ _ _ Hp l) as [Hin|(b' & Eb' & Es')].
    + rewrite El. apply elem_of_app. right. left.
    + apply Hnew, map_elem. eauto.
    + rewrite Eb in Eb'. injection Eb' as <-. rewrite Es' in Es. discriminate Es.
  - intros y Hy. unfold linked. rewrite Hh, omap_app. apply elem_of_app. by left.
Qed.

Lemma caught_up_ingest aid d d' : caught_up d -> default 0 d.(cursor) < aid -> ingested aid d d' -> caught_up d'.
Proof.
  intros Hu Hc [eid dec p ms d1 _ Eh _ Ecu _ _ Hnew El _ _ _ _]. eapply (caught_up_snoc d _ _ Hu Ecu El Hnew); [done|].
  unfold linked. by rewrite Eh.
Qed.

(** Every ingest commits a log the cursor has not passed. *)
Fixpoint ordered (ops : list op) (d : db) : Prop :=
  match ops with
  | [] => True
  | o :: ops' =>
      match o with
      | Ingest fr _ _ _ _ | IngestTransaction fr _ _ _ _ _ _ _ _ _ _ => default 0 d.(cursor) < fr.(draw_ingest_log)
      | _ => True
      end /\ ordered ops' (apply_op o d)
  end.

Lemma caught_up_op o d : caught_up d -> ordered [o] d -> caught_up (apply_op o d).
Proof.
  intros Hu [Ho _]. destruct (writes_labels o) eqn:Hw.
  { destruct (apply_op_labels o d Hw) as [l ->]. by apply (caught_up_same d). }
  destruct o as [fr now ev rd acts|fr now tid meta acts rd sd ms env gp vp|cid aid now eid meta acts rd sd|mint now|fr now g q|b polls r|fresh now row| |];
    try done; cbn [apply_op].
  - destruct (commit_evaluate_side_effects _ _ _ _ _ _ _) as [[d' aid]|] eqn:E; [|done].
    apply ingest_effect in E. by eapply caught_up_ingest.
  - destruct (ingest_transaction _ _ _ _ _ _ _ _ _ _ _ _) as [[d' aid]|] eqn:E; [|done].
    apply ingest_transaction_effect in E. by eapply caught_up_ingest.
  - destruct (materialize_lifecycle_case_for_ingest _ _ _ _ _ _ _ _ _) as [[d' r]|] eqn:E; [|done].
    unfold materialize_lifecycle_case_for_ingest in E. inv_ok. destruct (negb _); [by injection E as <- <-|].
    apply upsert_spec, upserted_frame in E as (E1 & E2 & _ & E3 & _). by apply (caught_up_same d); [..|intros y; apply E3|].
  - destruct (process_new_audit_logs mint now d) eqn:E; [|done]. by apply (caught_up_poll mint now d).
  - destruct (put_lifecycle_case_status _ _ _ _ _ _) as [[d' resp]|] eqn:E; [|done].
    apply put_status_effect in E as (s & row & hid & aid & _ & _ & Hp). by eapply caught_up_put.
  - by apply (caught_up_same d).
  - destruct (persist_operational_signal_with_shadow_retro_tag fresh now row d) as [d'|] eqn:E; [|done].
    unfold persist_operational_signal_with_shadow_retro_tag in E. inv_ok. unfold insert_signal in H.
    destruct (existsb _ _) in H; [done|]. injection H as <-. apply insert_task_Ok in E as (t & -> & _). by apply (caught_up_same d).
Qed.

(** C36: the poll misses nothing the cursor has not already passed: in every
    database reached by operations whose ingests commit log ids above the cursor,
    however many logs are written between polls, in whatever order their ids
    commit ahead of the cursor and however the 500-row windows fall, each
    orchestrator log with a triggering action that the cursor has passed is linked
    to a case by a history row. *)
Theorem poll_misses_nothing ops anchors fk :
  ordered ops (fresh_db anchors fk) -> caught_up (run_ops ops (fresh_db anchors fk)).
Proof.
  assert (H : forall d, caught_up d -> ordered ops d -> caught_up (run_ops ops d)).
  { unfold run_ops. induction ops as [|o ops IH]; intros d Hd Ho; [done|]. destruct Ho as [H0 Ho]. cbn [foldl].
    apply IH; [|done]. by apply caught_up_op. }
  apply H. split; [apply NoDup_nil_2|]. by intros l ?%not_elem_of_nil.
Qed.

(** Two ingests commit their ids in the wrong order, before the poll: nothing is
    lost. *)
Definition swapped_ops : list op := [demo_ingest "1" 2; demo_ingest "2" 1; Poll (fun _ => "c-1") 0].

Lemma poll_misses_nothing_witness :
  omap audit_log_id (run_ops swapped_ops (fresh_db ["tx-1"] true)).(history) = [1; 2]
  /\ caught_up (run_ops swapped_ops (fresh_db ["tx-1"] true)).
Proof.
  split; [vm_compute; reflexivity|]. apply poll_misses_nothing. cbn [ordered swapped_ops demo_ingest].
  repeat split; vm_compute; reflexivity.
Defined.

(** The poll comes between the two commits: it moves the cursor to 2 and log 1,
    which commits behind it, is never linked, though later polls run. *)
Definition overtaken_ops : list op :=
  [demo_ingest "1" 2; Poll (fun _ => "c-1") 0; demo_ingest "2" 1; Poll (fun _ => "c-2") 60; Poll (fun _ => "c-3") 120].

Example overtaken_log_lost :
  map log_id (run_ops overtaken_ops (fresh_db ["tx-1"] true)).(logs) = [2; 1]
  /\ omap audit_log_id (run_ops overtaken_ops (fresh_db ["tx-1"] true)).(history) = [2]
  /\ ~ caught_up (run_ops overtaken_ops (fresh_db ["tx-1"] true)).
Proof.
  split; [vm_compute; reflexivity|]. split; [vm_compute; reflexivity|]. intros [_ L].
  destruct (logs (run_ops overtaken_ops (fresh_db ["tx-1"] true)) !! 1%nat) as [l|] eqn:E; [|vm_compute in E; discriminate E].
  assert (Hl : linked (run_ops overtaken_ops (fresh_db ["tx-1"] true)) l).
  { apply L; [by eapply list_elem_of_lookup_2| |]; vm_compute in E; injection E as <-; [|vm_compute; discriminate].
    eexists. split; [reflexivity|]. split; vm_compute; reflexivity. }
  vm_compute in E. injection E as <-. unfold linked in Hl. vm_compute in Hl.
  inversion Hl as [|? ? ? Hn]; inversion Hn.
Qed.

(** A poll that comes a day late never comes back: when the next log to poll
    was already linked by the synchronous path and its user has no case of the
    last 24 hours, the poll opens a second case, its history row violates the
    unique index, and the whole window rolls back, cursor included; no later
    poll, at any time, changes the database again. *)
Theorem late_poll_wedges d x w b now polls :
  poll_window d = x :: w -> x.(action_taken) = Some (PDict b) ->
  eq_str (get b "source" PNone) ORCHESTRATOR_AUDIT_SOURCE = true -> triggers b = Ok true -> linked d x ->
  recent_case (body_user_key b) now d = None -> (forall p, p ∈ polls -> now <= p.2) ->
  run_ops (map (fun p => Poll p.1 p.2) polls) d = d.
Proof.
  intros Ew Ea Es Ht Hl Hr Hp. induction polls as [|[mint now'] polls IH]; [done|].
  unfold run_ops in *. cbn [map foldl fst snd].
  replace (apply_op (Poll mint now') d) with d; [apply IH; intros; apply Hp; by right|]. clear IH.
  cbn [apply_op]. destruct (process_new_audit_logs mint now' d) as [d'|] eqn:E; [|done]. exfalso.
  unfold process_new_audit_logs in E. rewrite Ew in E. set (d0 := match cursor d with Some _ => d | None => _ end) in E.
  assert (E0 : d0.(history) = d.(history) /\ d0.(cases) = d.(cases)) by (unfold d0; by destruct (cursor d)).
  destruct E0 as [Eh Ec]. inv_ok. cbn [poll_logs] in H. inv_ok. unfold poll_log in H0. rewrite Ea, Es in H0.
  destruct (_upsert_lifecycle_case_from_payload _ _ _ _ _) as [[d1 r]|] eqn:Eu; [|done].
  apply upsert_spec in Eu. destruct Eu as [Ht'|c _ Hc _|c _ Hc _|eid prio _ _ Hf _ _].
  - congruence.
  - apply recent_case_Some in Hc as (Hc & Hk & Ho). rewrite Ec in Hc.
    pose proof (recent_case_None _ _ _ _ Hr Hc Hk). pose proof (Hp (mint, now') ltac:(left)). simpl in *. lia.
  - apply recent_case_Some in Hc as (Hc & Hk & Ho). rewrite Ec in Hc.
    pose proof (recent_case_None _ _ _ _ Hr Hc Hk). pose proof (Hp (mint, now') ltac:(left)). simpl in *. lia.
  - apply Hf. by rewrite Eh.
Qed.

(** An event is ingested and its case opened at once; the first poll comes 25
    hours later. *)
Definition late_ops : list op :=
  [Ingest (IngestDraws "g" "v" "2026-01-01T00:00:00+00:00" 1) 0 demo_event [] ["FLAG"];
   Materialize "c-1" 1 0 "tx-1" [("user_id", PStr "u-1")] ["FLAG"] [] PNone].

Definition late_db : db := run_ops late_ops (set_anchors ["tx-1"] empty_db).

Lemma late_poll_wedges_witness :
  length late_db.(cases) = 1%nat
  /\ run_ops (map (fun p => Poll p.1 p.2) [(fun _ => "c-2", seconds 90000); (fun _ => "c-3", seconds 900000)]) late_db
     = late_db.
Proof.
  split; [vm_compute; reflexivity|].
  destruct (poll_window late_db) as [|x [|]] eqn:Ew; [vm_compute in Ew; discriminate Ew| |vm_compute in Ew; discriminate Ew].
  assert (Hx : exists b, x.(action_taken) = Some (PDict b) /\ eq_str (get b "source" PNone) ORCHESTRATOR_AUDIT_SOURCE = true
    /\ triggers b = Ok true /\ linked late_db x /\ recent_case (body_user_key b) (seconds 90000) late_db = None).
  { vm_compute in Ew. injection Ew as <-. eexists. split; [reflexivity|]. split; [vm_compute; reflexivity|].
    split; [vm_compute; reflexivity|]. split; [unfold linked; vm_compute; left|vm_compute; reflexivity]. }
  destruct Hx as (b & H1 & H2 & H3 & H4 & H5).
  apply (late_poll_wedges late_db x [] b (seconds 90000)); [exact Ew|exact H1|exact H2|exact H3|exact H4|exact H5|].
  intros p [-> | ->%list_elem_of_singleton]%elem_of_cons; vm_compute; discriminate.
Defined.
