(* ===== verification/Autoresolve.v ===== *)
(** Automatic resolution after an ingest: [orchestrator/shadow_autoresolve.py]
    and [orchestrator/shadow/hooks/resolve_case.py].

    A high enough confidence of the Shadow model closes the case at once, over
    the transactions of [CaseStore].  The environment variables are arguments.
    The HTTP client of [maybe_autoresolve_lifecycle_case] is not modelled. *)

From Stdlib Require Import ZArith Lia Ascii String Bool.
From stdpp Require Import base option list sorting strings gmap relations.
From S2P Require Import Prelude PyFloat PyValue Sha256 Uuid Outbox CaseStore CaseLifecycle.
From Stdlib Require Import SpecFloat.
Local Open Scope Z_scope.

Definition CONFIDENCE_THRESHOLD : float := lit 95 100.
Definition RESOLVED_AUTO_STATUS : string := "RESOLVED_AUTO".
Definition DEFAULT_REASON_CODE : string := "SHADOW_AI_AUTO_RESOLVE".

Definition _AUTO_RESOLVE_RECOMMENDATIONS : list string :=
  ["APPROVE"; "ALLOW"; "AUTO_RESOLVE"; "AUTO_RESOLVE_LEGIT"; "RESOLVED_AUTO"; "RESOLVED_LEGIT"; "CLEAR"; "CLEARED"].

Definition _CONFIDENCE_METRIC_KEYS : list string :=
  ["confidence"; "p_legit"; "p_clear"; "auto_resolve_confidence"; "model_confidence"].

(** [try: float(raw)] with [TypeError] and [ValueError] read as absent. *)
Definition float_or_none (raw : pyval) : result (option float) :=
  try_except (rmap Some (py_float raw)) is_type_or_value_error None.

(** The first metric that is a number between 0 and 1. *)
Fixpoint first_metric (keys : list string) (metrics : dict) : result (option float) :=
  match keys with
  | [] => Ok None
  | key :: keys' =>
      let raw := get metrics key PNone in
      if is_none raw then first_metric keys' metrics
      else
        let! v := float_or_none raw in
        match v with
        | Some val => if fleb (litZ 0) val && fleb val (litZ 1) then Ok (Some val) else first_metric keys' metrics
        | None => first_metric keys' metrics
        end
  end.

(** [max(0.0, min(1.0, x))]. *)
Definition clamp01 (x : float) : float := fclamp (litZ 0) (litZ 1) x.

Definition risk_confidence (shadow_data : dict) : result (option float) :=
  let! risk := float_or_none (get shadow_data "risk_score" (PFloat (litZ 0))) in
  Ok ((fun r => clamp01 (fsub (litZ 1) (SFdiv prec emax r (litZ 100)))) <$> risk).

Definition extract_shadow_autoresolve_confidence (shadow_data : dict) : result (option float) :=
  match get shadow_data "confidence_metrics" PNone with
  | PDict metrics =>
      let! v := first_metric _CONFIDENCE_METRIC_KEYS metrics in
      match v with
      | Some val => Ok (Some val)
      | None =>
          let p_fraud := get metrics "p_fraud" PNone in
          if is_none p_fraud then risk_confidence shadow_data
          else
            let! p := float_or_none p_fraud in
            match p with
            | Some f => Ok (Some (clamp01 (fsub (litZ 1) f)))
            | None => risk_confidence shadow_data
            end
      end
  | _ => risk_confidence shadow_data
  end.

Definition disposition_keys : list string := ["recommended_action"; "disposition"; "recommended_disposition"].

Definition metrics_recommend (metrics : dict) : bool :=
  is_true (get metrics "auto_resolve" PNone) || is_true (get metrics "recommend_auto_resolve" PNone)
  || existsb (fun key => let raw := get metrics key PNone in
                         negb (is_none raw) && mem (upper (strip (py_str raw))) _AUTO_RESOLVE_RECOMMENDATIONS)
       disposition_keys.

Definition shadow_recommends_autoresolve (shadow_data : dict) : result bool :=
  if truthy (get shadow_data "is_fraud" PNone) then Ok false
  else if match get shadow_data "confidence_metrics" PNone with PDict m => metrics_recommend m | _ => false end
  then Ok true
  else
    let! risk := float_or_none (get shadow_data "risk_score" (PFloat (litZ 100))) in
    Ok (match risk with Some r => fleb r (litZ 25) | None => false end).

Definition shadow_autoresolve_eligible (shadow_data : dict) : result (bool * option float * option string) :=
  let! confidence := extract_shadow_autoresolve_confidence shadow_data in
  match confidence with
  | Some c =>
      if fltb CONFIDENCE_THRESHOLD c then
        let! rec := shadow_recommends_autoresolve shadow_data in
        if rec then Ok (true, confidence, None)
        else Ok (false, confidence, Some "shadow_does_not_recommend_autoresolve")
      else Ok (false, confidence, Some "confidence_not_above_threshold")
  | None => Ok (false, None, Some "confidence_not_above_threshold")
  end.

Definition build_autoresolve_reason_code (shadow_data : dict) : string :=
  let disposition := match get shadow_data "confidence_metrics" PNone with
                     | PDict m => head (filter_map (fun key => let raw := get m key PNone in
                                          if present raw then Some (upper (strip (py_str raw))) else None) disposition_keys)
                     | _ => None
                     end in
  match disposition with
  | Some x => if nonempty x then str_take 128 (DEFAULT_REASON_CODE +:+ ":" +:+ x) else DEFAULT_REASON_CODE
  | None => DEFAULT_REASON_CODE
  end.

Definition build_autoresolve_agent_notes (shadow_data : dict) (confidence : option float) : string :=
  str_take 32768 (json_dumps (DumpOpts false true false)
    (PDict [("source", PStr "shadow_autoresolve");
            ("confidence", match confidence with Some c => PFloat c | None => PNone end);
            ("risk_score", get shadow_data "risk_score" PNone); ("is_fraud", get shadow_data "is_fraud" PNone);
            ("reasoning", get shadow_data "reasoning" PNone);
            ("confidence_metrics", get shadow_data "confidence_metrics" PNone);
            ("ai_reasoning", get shadow_data "ai_reasoning" PNone)])).

(** * After an ingest *)

Record IngestAutoresolveOutcome : Type := Outcome {
  attempted : bool; lifecycle_case_id : option string; transition : option put_response;
  skipped_reason : option string; confidence : option float }.

(** [ORCHESTRATOR_AUTORESOLVE_AUTH_TOKEN], then [SHADOW_API_KEY]. *)
Definition resolve_autoresolve_auth_token (token_env api_key_env : string) : option string :=
  if nonempty (strip token_env) then Some (strip token_env)
  else if nonempty (strip api_key_env) then Some (strip api_key_env)
  else None.

Definition _shadow_data_is_timeout_fallback (shadow_data : dict) : bool :=
  is_true (get shadow_data "timeout_fallback" PNone)
  || match get shadow_data "confidence_metrics" PNone with
     | PDict m => is_true (get m "timeout_fallback" PNone)
     | _ => false
     end
  || match get shadow_data "reasoning" PNone with
     | PList l => existsb (fun x => bool_decide (upper (strip (py_str x)) = "TIMEOUT_FALLBACK")) l
     | _ => false
     end.

Record autoresolve_env : Type := Env {
  autoresolve_enabled : string; autoresolve_token : string; shadow_api_key : string }.

Definition skip (reason : option string) (conf : option float) : IngestAutoresolveOutcome :=
  Outcome false None None reason conf.

(** The two transactions: the case is committed before its status is asked for,
    so an exception of the second leaves it.  Only an [HTTPException] of the
    status request is caught. *)
Definition resolve_now (fr : draws) (cid : string) (now : Z) (has_graph : bool) (tok : string) (conf : option float)
    (aid : Z) (entity_id : string) (metadata : dict) (materialize_actions : list string) (rule_data shadow_data : dict)
    (d : db) : db * result IngestAutoresolveOutcome :=
  match materialize_lifecycle_case_for_ingest cid aid now entity_id metadata materialize_actions rule_data
          (PDict shadow_data) d with
  | Err e => (d, Err e)
  | Ok (d1, None) => (d1, Ok (skip (Some "no_lifecycle_case_materialized") conf))
  | Ok (d1, Some c) =>
      if negb (nonempty c) then (d1, Ok (skip (Some "no_lifecycle_case_materialized") conf)) else
      let q := Put c RESOLVED_AUTO_STATUS (build_autoresolve_reason_code shadow_data) tok
                 (Some (build_autoresolve_agent_notes shadow_data conf)) None in
      match put_lifecycle_case_status fr now true has_graph q d1 with
      | Ok (d2, resp) => (d2, Ok (Outcome true (Some c) (Some resp) None conf))
      | Err e =>
          (d1, match is_http e with
               | Some code => Ok (Outcome true (Some c) None (Some ("transition_http_" +:+ code)) conf)
               | None => Err e
               end)
      end
  end.

Definition try_shadow_autoresolve_after_ingest (env : autoresolve_env) (auth_token : option string) (fr : draws)
    (cid : string) (now : Z) (has_graph : bool) (aid : Z) (entity_id : string) (metadata : dict)
    (actions : list string) (lifecycle_actions : option (list string)) (rule_data shadow_data : dict) (d : db)
    : db * result IngestAutoresolveOutcome :=
  if negb (env_on env.(autoresolve_enabled)) then (d, Ok (skip (Some "autoresolve_disabled") None))
  else if _shadow_data_is_timeout_fallback shadow_data then (d, Ok (skip (Some "timeout_fallback") None))
  else match shadow_autoresolve_eligible shadow_data with
       | Err e => (d, Err e)
       | Ok (false, conf, why) => (d, Ok (skip why conf))
       | Ok (true, conf, _) =>
           let tok := strip (str_or (opt_str auth_token)
                        (opt_str (resolve_autoresolve_auth_token env.(autoresolve_token) env.(shadow_api_key)))) in
           if negb (nonempty tok) then (d, Ok (skip (Some "missing_autoresolve_auth_token") conf))
           else resolve_now fr cid now has_graph tok conf aid entity_id metadata
                  (match lifecycle_actions with Some l => l | None => actions end) rule_data shadow_data d
       end.

(** * Theorems *)

(** What must hold before a case is touched. *)
Record cleared (env : autoresolve_env) (shadow_data : dict) : Prop := {
  cl_enabled : env_on env.(autoresolve_enabled) = true;
  cl_timely : _shadow_data_is_timeout_fallback shadow_data = false;
  cl_confident : exists c, extract_shadow_autoresolve_confidence shadow_data = Ok (Some c)
                   /\ fltb CONFIDENCE_THRESHOLD c = true;
  cl_legit : truthy (get shadow_data "is_fraud" PNone) = false }.

Lemma recommends_not_fraud sd : shadow_recommends_autoresolve sd = Ok true -> truthy (get sd "is_fraud" PNone) = false.
Proof. unfold shadow_recommends_autoresolve. by destruct (truthy _). Qed.

Lemma eligible_true sd conf why :
  shadow_autoresolve_eligible sd = Ok (true, conf, why) ->
  (exists c, extract_shadow_autoresolve_confidence sd = Ok (Some c) /\ fltb CONFIDENCE_THRESHOLD c = true)
  /\ truthy (get sd "is_fraud" PNone) = false.
Proof.
  unfold shadow_autoresolve_eligible. intros H. inv_ok. destruct a as [c|]; [|done].
  destruct (fltb _ c) eqn:E; [|done]. inv_ok. destruct a; [|done]. split; [eauto|]. by apply recommends_not_fraud.
Qed.

Lemma materialize_upserted cid aid now eid meta acts rd sd d d' r :
  materialize_lifecycle_case_for_ingest cid aid now eid meta acts rd sd d = Ok (d', r) ->
  d' = d \/ exists body, upserted cid aid now body d d' r.
Proof.
  unfold materialize_lifecycle_case_for_ingest. intros H. inv_ok. destruct (negb _); [injection H as <- <-; by left|].
  right. eexists. by apply upsert_spec.
Qed.

Lemma upserted_states cid aid now body d d' r c :
  upserted cid aid now body d d' r -> c ∈ d'.(cases) -> c ∈ d.(cases) \/ c.(case_state) = status_value OPEN.
Proof.
  intros [|x|x|eid prio]; try by left. intros [Hc| ->%list_elem_of_singleton]%elem_of_app; [by left|by right].
Qed.

Lemma resolve_now_states fr cid now g tok conf aid eid meta acts rd sd d d' r c :
  resolve_now fr cid now g tok conf aid eid meta acts rd sd d = (d', r) -> c ∈ d'.(cases) ->
  c ∈ d.(cases) \/ c.(case_state) = status_value OPEN \/ c.(case_state) = RESOLVED_AUTO_STATUS.
Proof.
  unfold resolve_now. destruct (materialize_lifecycle_case_for_ingest _ _ _ _ _ _ _ _ _) as [[d1 o]|] eqn:E;
    [|intros [= <- _]; by left].
  assert (H1 : forall x, x ∈ d1.(cases) -> x ∈ d.(cases) \/ x.(case_state) = status_value OPEN).
  { intros x Hx. apply materialize_upserted in E as [-> |[body Hu]]; [by left|]. by eapply upserted_states. }
  assert (H2 : c ∈ d1.(cases) -> c ∈ d.(cases) \/ c.(case_state) = status_value OPEN \/ c.(case_state) = RESOLVED_AUTO_STATUS)
    by (intros Hx; destruct (H1 c Hx); tauto).
  destruct o as [k|]; [|by intros [= <- _]]. destruct (negb _); [by intros [= <- _]|].
  destruct (put_lifecycle_case_status _ _ _ _ _ _) as [[d2 resp]|] eqn:Ep; [|by intros [= <- _]].
  intros [= <- _] Hc. apply put_status_effect in Ep as (s & row & hid & a & Es & _ & Hp). cbn [new_status_raw] in Es.
  vm_compute in Es. injection Es as <-. rewrite (pe_cases _ _ _ _ _ _ _ _ Hp) in Hc.
  apply map_elem in Hc as (x & -> & Hx). unfold moved in *. case_bool_decide; [by right; right|]. by apply H2.
Qed.

(** The model closes no case on its own authority: an autoresolve attempt
    writes to the database only when the switch is on, the Shadow answer is not
    a time-out fallback, does not say fraud and is more than 95 % confident; and
    the only statuses it ever writes are a new case's OPEN and RESOLVED_AUTO. *)
Theorem autoresolve_guarded env auth fr cid now g aid eid meta acts lacts rd sd d d' r :
  try_shadow_autoresolve_after_ingest env auth fr cid now g aid eid meta acts lacts rd sd d = (d', r) ->
  (d' = d \/ cleared env sd)
  /\ forall c, c ∈ d'.(cases) ->
       c ∈ d.(cases) \/ c.(case_state) = status_value OPEN \/ c.(case_state) = RESOLVED_AUTO_STATUS.
Proof.
  unfold try_shadow_autoresolve_after_ingest.
  assert (Hno : forall r0, (d, r0) = (d', r) -> (d' = d \/ cleared env sd)
    /\ forall c, c ∈ d'.(cases) -> c ∈ d.(cases) \/ c.(case_state) = status_value OPEN \/ c.(case_state) = RESOLVED_AUTO_STATUS)
    by (intros r0 [= <- _]; split; by left).
  destruct (env_on _) eqn:Een; [|apply Hno]. destruct (_shadow_data_is_timeout_fallback sd) eqn:Et; [apply Hno|].
  cbn [negb]. destruct (shadow_autoresolve_eligible sd) as [[[[] conf] why]|] eqn:Ee; [|apply Hno..].
  destruct (negb _); [apply Hno|]. intros H. split; [|intros c Hc; by eapply resolve_now_states].
  right. apply eligible_true in Ee as [Hc Hf]. by split.
Qed.

Definition demo_env : autoresolve_env := Env "1" "svc" "".
Definition demo_shadow : dict :=
  [("risk_score", PInt 3); ("is_fraud", PBool false); ("confidence_metrics", PDict [("confidence", PFloat (lit 99 100))])].
Definition demo_try (k : string) (aid : Z) (d : db) : db * result IngestAutoresolveOutcome :=
  try_shadow_autoresolve_after_ingest demo_env None (demo_draws k 1) ("c-" +:+ k) 0 false aid ("tx-" +:+ k)
    [("user_id", PStr "u-1")] ["FLAG"] None [] demo_shadow d.

Lemma autoresolve_guarded_witness :
  map case_state (demo_try "1" 7 empty_db).1.(cases) = ["RESOLVED_AUTO"]
  /\ ((demo_try "1" 7 empty_db).1 = empty_db \/ cleared demo_env demo_shadow).
Proof.
  split; [vm_compute; reflexivity|].
  apply (autoresolve_guarded demo_env None (demo_draws "1" 1) "c-1" 0 false 7 "tx-1" [("user_id", PStr "u-1")] ["FLAG"] None []
           demo_shadow empty_db _ (demo_try "1" 7 empty_db).2).
  unfold demo_try. change ("c-" +:+ "1") with "c-1". change ("tx-" +:+ "1") with "tx-1".
  by destruct (try_shadow_autoresolve_after_ingest _ _ _ _ _ _ _ _ _ _ _ _ _ _).
Defined.

(** A user's second automatic resolution in a day fails: once an attempt has
    resolved a case, no later attempt that is linked to the same case ever
    reports a transition, whatever happened to the case in between, and all it
    leaves is the link to the case. *)
Theorem autoresolve_repeat_fails fr cid now g tok conf aid eid meta acts rd sd d d1 c resp ops
    fr' cid' now' g' tok' conf' aid' eid' meta' acts' rd' sd' d2 d3 r :
  resolve_now fr cid now g tok conf aid eid meta acts rd sd d = (d1, Ok (Outcome true (Some c) (Some resp) None conf)) ->
  materialize_lifecycle_case_for_ingest cid' aid' now' eid' meta' acts' rd' (PDict sd') (run_ops ops d1) = Ok (d2, Some c) ->
  resolve_now fr' cid' now' g' tok' conf' aid' eid' meta' acts' rd' sd' (run_ops ops d1) = (d3, r) ->
  d3 = d2 /\ forall out, r = Ok out -> out.(transition) = None.
Proof.
  intros H1 Hm H2. unfold resolve_now in H1.
  destruct (materialize_lifecycle_case_for_ingest _ _ _ _ _ _ _ _ d) as [[da [k|]]|]; try done.
  destruct (negb _) in H1; [done|].
  destruct (put_lifecycle_case_status _ _ _ _ _ da) as [[db' rs]|e] eqn:Ep in H1; [|by destruct (is_http e)].
  injection H1 as -> -> <-. apply put_status_effect in Ep as (s & row & hid & a & Es & _ & Hp). vm_compute in Es.
  injection Es as <-.
  assert (Ht : RESOLVED_AUTO ∈ _TERMINAL_STATUSES) by (right; right; left).
  destruct (pe_retro _ _ _ _ _ _ _ _ Hp Ht) as [Hk _]. cbn [put_case] in Hk. clear Hp.
  unfold resolve_now in H2. rewrite Hm in H2. destruct (negb _); [injection H2 as <- <-; split; [done|]; by intros out [= <-]|].
  destruct (put_lifecycle_case_status _ _ _ _ _ d2) as [[dd rs']|e] eqn:Ep2.
  - exfalso. apply put_status_effect in Ep2 as (s & row2 & hid2 & a2 & Es & _ & Hp2). vm_compute in Es. injection Es as <-.
    destruct (pe_retro _ _ _ _ _ _ _ _ Hp2 Ht) as [_ Hn]. apply Hn. cbn [put_case].
    assert (Hk2 : strip (shadow_tag_key (strip c) (status_value RESOLVED_AUTO)) ∈ map idempotency_key (run_ops ops d1).(outbox)).
    { apply (run_ops_invariant (fun d => _ ∈ map idempotency_key d.(outbox))); [|done..].
      intros x y Hx Hxy. by apply (micro_keys x). }
    apply materialize_upserted in Hm as [-> |[body Hu]]; [done|]. apply upserted_frame in Hu as (_ & _ & -> & _). done.
  - injection H2 as <- <-. split; [done|]. intros out Ho. destruct (is_http e); [|done]. by injection Ho as <-.
Qed.

Definition demo_now (k cid eid : string) (aid : Z) (d : db) : db * result IngestAutoresolveOutcome :=
  resolve_now (demo_draws k (100 + aid)) cid aid false "svc" (Some (lit 99 100)) aid eid
    [("user_id", PStr "u-1")] ["FLAG"] [] demo_shadow d.

(** The second event of the user, one minute later: the integrity error is not
    an HTTP error and is raised to the ingest request. *)
Lemma autoresolve_repeat_fails_witness :
  exists d2, (demo_now "2" "c-2" "tx-2" 8 (demo_now "1" "c-1" "tx-1" 7 empty_db).1) = (d2, Err IntegrityError)
    /\ forall out, (demo_now "2" "c-2" "tx-2" 8 (demo_now "1" "c-1" "tx-1" 7 empty_db).1).2 = Ok out -> out.(transition) = None.
Proof.
  destruct (demo_now "1" "c-1" "tx-1" 7 empty_db) as [d1 r1] eqn:E1.
  destruct (demo_now "2" "c-2" "tx-2" 8 d1) as [d3 r] eqn:E3.
  destruct (materialize_lifecycle_case_for_ingest "c-2" 8 8 "tx-2" [("user_id", PStr "u-1")] ["FLAG"] []
              (PDict demo_shadow) d1) as [[d2 o]|] eqn:E2;
    [|vm_compute in E1; injection E1 as <- <-; vm_compute in E2; discriminate E2].
  assert (Ho : o = Some "c-1" /\ r = Err IntegrityError /\ exists resp, r1 = Ok (Outcome true (Some "c-1") (Some resp) None (Some (lit 99 100)))).
  { vm_compute in E1. injection E1 as <- <-. vm_compute in E2. injection E2 as <- <-. vm_compute in E3. injection E3 as <- <-.
    split; [reflexivity|]. split; [reflexivity|]. eexists. reflexivity. }
  destruct Ho as (-> & -> & resp & ->). cbn [fst]. rewrite E3. exists d3. split; [reflexivity|].
  unfold demo_now in E1, E3.
  exact (proj2 (autoresolve_repeat_fails (demo_draws "1" (100 + 7)) "c-1" 7 false "svc" (Some (lit 99 100)) 7 "tx-1"
    [("user_id", PStr "u-1")] ["FLAG"] [] demo_shadow empty_db d1 "c-1" resp []
    (demo_draws "2" (100 + 8)) "c-2" 8 false "svc" (Some (lit 99 100)) 8 "tx-2" [("user_id", PStr "u-1")] ["FLAG"] [] demo_shadow
    d2 d3 (Err IntegrityError) E1 E2 E3)).
Defined.

(** A model that does not know is taken to be certain: with no usable
    confidence metric and a fraud probability that is NaN, the extracted
    confidence is exactly 1, above the threshold. *)
Theorem nan_probability_is_certainty shadow_data metrics raw :
  get shadow_data "confidence_metrics" PNone = PDict metrics ->
  (forall k, k ∈ _CONFIDENCE_METRIC_KEYS -> get metrics k PNone = PNone) ->
  get metrics "p_fraud" PNone = raw -> py_float raw = Ok S754_nan ->
  extract_shadow_autoresolve_confidence shadow_data = Ok (Some (litZ 1)) /\ fltb CONFIDENCE_THRESHOLD (litZ 1) = true.
Proof.
  intros Hm Hk Hp Hf. split; [|reflexivity]. unfold extract_shadow_autoresolve_confidence. rewrite Hm, Hp.
  assert (Hn : first_metric _CONFIDENCE_METRIC_KEYS metrics = Ok None).
  { revert Hk. induction _CONFIDENCE_METRIC_KEYS as [|k l IH]; intros Hk; simpl; [done|].
    rewrite (Hk k) by left. simpl. apply IH. intros j Hj. apply Hk. by right. }
  rewrite Hn. cbn [rbind]. destruct (is_none raw) eqn:E; [by destruct raw|].
  unfold float_or_none. rewrite Hf. reflexivity.
Qed.

Lemma nan_probability_is_certainty_witness :
  extract_shadow_autoresolve_confidence [("confidence_metrics", PDict [("p_fraud", PStr "nan")]); ("risk_score", PInt 10)]
  = Ok (Some (litZ 1))
  /\ shadow_autoresolve_eligible [("confidence_metrics", PDict [("p_fraud", PStr "nan")]); ("risk_score", PInt 10)]
     = Ok (true, Some (litZ 1), None).
Proof.
  split; [|vm_compute; reflexivity].
  apply (nan_probability_is_certainty _ [("p_fraud", PStr "nan")] (PStr "nan")); [reflexivity| |reflexivity|vm_compute; reflexivity].
  intros k Hk. repeat (apply elem_of_cons in Hk as [-> | Hk]; [reflexivity|]). by apply not_elem_of_nil in Hk.
Defined.
