(* ===== verification/Auth.v ===== *)
(** Authentication, roles and tenant binding: [shared/auth.py],
    [shared/auth_rbac.py] and [shared/tenant_binding.py].

    The environment and the request are records; a header or parameter that is
    absent is the empty string, as the source reads it.  [API_KEY_TENANT_MAP] is
    the value [json.loads] gives ([None] when it raises), and the verification
    of a JWT against the issuer's keys, PyJWT's, is the parameter [verify_jwt],
    an [HTTPException] when it fails.  [setup_auth] installs
    [AuthMiddleware.dispatch] on an application. *)

From Stdlib Require Import ZArith Lia Ascii String Bool.
From stdpp Require Import base option list sorting strings.
From S2P Require Import Prelude PyFloat PyValue.
Local Open Scope Z_scope.

(** The environment variables the three modules read. *)
Record environ : Type := Environ {
  TENANT_BINDING_REQUIRED : string;
  TARKA_HELM_ENVIRONMENT : string;
  TARKA_ENVIRONMENT : string;
  TARKA_DEPLOYMENT_PROFILE : string;
  API_KEY_TENANT_MAP : option (option pyval);  (** [None] when blank *)
  API_KEYS : string;
  ALLOW_INSECURE_NO_AUTH : string;
  CASE_INTERNAL_TOKEN : string;
  SERVICE_API_KEY_ROLE : option string;
  OIDC_ISSUER : string;
  OIDC_ROLES_CLAIM : string }.

Record Request : Type := Req {
  url_path : string;
  query_tenant : string;
  path_tenant : string;
  x_tenant_id : string;
  content_type : string;
  x_internal_token : string;
  x_api_key : string;
  authorization : string;
  tarka_access : string;       (** the cookie *)
  json_body : option pyval }.  (** [None] when [request.json()] raises *)

(** * Tenant binding *)

Definition _PROBE_PATHS : list string :=
  ["/v1/health"; "/v1/ready"; "/v1/health/deep"; "/health"; "/health/deep"; "/metrics"; "/decisions/v1/health";
   "/decisions/v1/ready"; "/cases/v1/health"; "/cases/v1/ready"].

Definition tenant_binding_required (e : environ) : bool := env_on e.(TENANT_BINDING_REQUIRED).

Definition TenantMapConfigError : pyexn := OtherError "TenantMapConfigError".

Definition helm_environment_is_prod (e : environ) : bool :=
  bool_decide (lower (strip (str_or e.(TARKA_HELM_ENVIRONMENT) e.(TARKA_ENVIRONMENT))) = "prod").

Definition production_tenant_lock (e : environ) : bool :=
  bool_decide (lower (strip e.(TARKA_DEPLOYMENT_PROFILE)) = "production") || helm_environment_is_prod e.

Abbreviation tenant_map := (list (string * list string)).

Fixpoint map_get (k : string) (m : tenant_map) : option (list string) :=
  match m with
  | [] => None
  | (k', v) :: m' => if bool_decide (k = k') then Some v else map_get k m'
  end.

Fixpoint map_set (k : string) (v : list string) (m : tenant_map) : tenant_map :=
  match m with
  | [] => [(k, v)]
  | (k', v') :: m' => if bool_decide (k = k') then (k, v) :: m' else (k', v') :: map_set k v m'
  end.

(** The tenants of one entry. *)
Definition tenant_values (value : pyval) : list string :=
  match value with
  | PStr s => if nonempty (strip s) then [strip s] else []
  | PList l => List.filter nonempty (map (fun item => strip (py_str item)) l)
  | _ => []
  end.

Fixpoint collect_map (out : tenant_map) (payload : dict) : tenant_map :=
  match payload with
  | [] => out
  | (key, value) :: payload' =>
      let k := strip key in
      collect_map (if nonempty k then map_set k (tenant_values value) out else out) payload'
  end.

Definition parse_api_key_tenant_map (e : environ) : result tenant_map :=
  match e.(API_KEY_TENANT_MAP) with
  | None => Ok []
  | Some (Some (PDict payload)) =>
      let out := collect_map [] payload in
      if production_tenant_lock e && existsb (fun kv => mem "*" kv.2) out then Err TenantMapConfigError else Ok out
  | Some _ => Err TenantMapConfigError
  end.

Definition claim_values (item : pyval) : list string :=
  match item with
  | PStr s => if nonempty (strip s) then [strip s] else []
  | PList l => List.filter nonempty (map (fun v => strip (py_str v)) l)
  | _ => []
  end.

Definition tenants_from_claims (claims : pyval) : list string :=
  match claims with
  | PDict d => concat (map (fun k => claim_values (get d k PNone)) ["tenant_id"; "tenant"; "tenant_ids"; "tenants"])
  | _ => []
  end.

Definition non_blank (s : string) : option string := if nonempty (strip s) then Some (strip s) else None.

(** The first of the query, the path, the header and the JSON body that names a
    tenant. *)
Definition request_tenant_id (q : Request) : option string :=
  match non_blank q.(query_tenant) with
  | Some t => Some t
  | None =>
      match non_blank q.(path_tenant) with
      | Some t => Some t
      | None =>
          match non_blank q.(x_tenant_id) with
          | Some t => Some t
          | None =>
              if negb (contains "application/json" (lower q.(content_type))) then None
              else match q.(json_body) with
                   | Some (PDict payload) => non_blank (str_or_empty (get payload "tenant_id" PNone))
                   | _ => None
                   end
          end
      end
  end.

Definition _is_tenant_allowed (allowed_tenants : list string) (tenant_id : string) : bool :=
  mem "*" allowed_tenants || mem tenant_id allowed_tenants.

Definition enforce_tenant_access (e : environ) (q : Request) (allowed_tenants : option (list string)) (strict : option bool)
    : result unit :=
  if mem q.(url_path) _PROBE_PATHS then Ok tt
  else if negb (default (tenant_binding_required e) strict) then Ok tt
  else match request_tenant_id q with
       | None => Err (http 400 "tenant_id is required")
       | Some tenant_id =>
           match allowed_tenants with
           | None => Err (http 403 "tenant binding is required but caller has no tenant scope")
           | Some allowed => if _is_tenant_allowed allowed tenant_id then Ok tt
                             else Err (http 403 "tenant is outside caller scope")
           end
       end.

(** * API keys *)

Definition _deployment_profile_is_production (e : environ) : bool :=
  bool_decide (lower (strip e.(TARKA_DEPLOYMENT_PROFILE)) = "production").

Definition _allow_insecure_no_auth (e : environ) : bool :=
  if _deployment_profile_is_production e then false else env_on e.(ALLOW_INSECURE_NO_AUTH).

Definition comma : ascii := ","%char.

Definition _get_valid_keys (e : environ) : list string :=
  let raw := strip e.(API_KEYS) in
  if negb (nonempty raw) then [] else List.filter nonempty (map strip (split_on comma raw)).

Definition API_KEY_PROBES : list string :=
  ["/v1/health"; "/v1/ready"; "/v1/health/deep"; "/health"; "/health/deep"; "/metrics"].

(** An unusable tenant map is a 503. *)
Definition map_or_503 (e : environ) : result tenant_map :=
  match parse_api_key_tenant_map e with
  | Ok m => Ok m
  | Err x => if bool_decide (x = TenantMapConfigError) then Err (http 503 "tenant map") else Err x
  end.

Definition is_nil {A : Type} (l : list A) : bool := match l with [] => true | _ => false end.

Definition map_missing : pyexn := http 503 "API_KEY_TENANT_MAP is required when TENANT_BINDING_REQUIRED is set".

Definition require_api_key (e : environ) (q : Request) : result unit :=
  if mem q.(url_path) API_KEY_PROBES then Ok tt else
  let keys := _get_valid_keys e in
  let! m := map_or_503 e in
  if is_nil keys then
    if _allow_insecure_no_auth e then
      if tenant_binding_required e && is_nil m then Err map_missing
      else enforce_tenant_access e q (Some ["*"]) None
    else Err (http 503 "service auth misconfigured")
  else if negb (mem q.(x_api_key) keys) then Err (http 401 "invalid or missing API key")
  else if negb (is_nil m) then enforce_tenant_access e q (Some (default [] (map_get q.(x_api_key) m))) None
  else if tenant_binding_required e then Err map_missing
  else Ok tt.

(** * Roles *)

Definition ROLE_HIERARCHY (r : string) : option Z :=
  if bool_decide (r = "admin") then Some 4
  else if bool_decide (r = "analyst") then Some 3
  else if bool_decide (r = "viewer") then Some 2
  else if bool_decide (r = "service") then Some 1
  else None.

Definition level (r : string) : Z := default 0 (ROLE_HIERARCHY r).

(** [ROLE_HIERARCHY.get(r, 0)] for a claim's element: unhashable values raise. *)
Definition role_level (r : pyval) : result Z :=
  match r with
  | PStr s => Ok (level s)
  | PList _ | PDict _ => Err TypeError
  | _ => Ok 0
  end.

Record AuthUser : Type := User {
  user_id : pyval; roles : pyval; auth_type : string; claims : dict; tenant_ids : list string }.

Fixpoint any_level (required_level : Z) (l : list pyval) : result bool :=
  match l with
  | [] => Ok false
  | r :: l' => let! lv := role_level r in if required_level <=? lv then Ok true else any_level required_level l'
  end.

Definition has_role (u : AuthUser) (required : string) : result bool :=
  let! l := py_iter u.(roles) in any_level (level required) l.

Definition allows_tenant (u : AuthUser) (tenant_id : string) : bool :=
  if is_nil u.(tenant_ids) then false else mem "*" u.(tenant_ids) || mem tenant_id u.(tenant_ids).

(** * The middleware *)

Section Middleware.
Context (verify_jwt : string -> result dict).

(** [hmac.compare_digest] on text: only ASCII is accepted. *)
Definition is_ascii (s : string) : bool := all_chars (fun c => (code c <? 128)%N) s.

Definition compare_digest (a b : string) : result bool :=
  if is_ascii a && is_ascii b then Ok (bool_decide (a = b)) else Err TypeError.

(** Whether the internal token of the request is the configured one. *)
Definition internal_ok (e : environ) (q : Request) : result bool :=
  let expected := strip e.(CASE_INTERNAL_TOKEN) in
  if nonempty q.(x_internal_token) && nonempty expected && (str_len q.(x_internal_token) =? str_len expected)
  then compare_digest q.(x_internal_token) expected else Ok false.

Definition bearer (q : Request) : string :=
  let token := if startswith (lower q.(authorization)) "bearer " then strip (str_drop 7 q.(authorization)) else EmptyString in
  if nonempty token then token else strip q.(tarka_access).

Definition key_user (e : environ) (m : tenant_map) (q : Request) : result AuthUser :=
  let role := lower (strip (default "admin" e.(SERVICE_API_KEY_ROLE))) in
  let role := match ROLE_HIERARCHY role with Some _ => role | None => "admin" end in
  let rs := str_list (sorted_set ["service"; role]) in
  let! tids := if negb (is_nil m) then Ok (default [] (map_get q.(x_api_key) m))
               else if tenant_binding_required e then Err map_missing
               else Ok ["*"] in
  Ok (User (PStr "service") rs "api_key" [] tids).

Definition jwt_user (e : environ) (token : string) : result AuthUser :=
  let! cl := verify_jwt token in
  let uid := get cl "sub" (get cl "email" (PStr "unknown")) in
  let rs := get cl e.(OIDC_ROLES_CLAIM) (str_list ["viewer"]) in
  let rs := match rs with PStr s => PList [PStr s] | _ => rs end in
  let tids := tenants_from_claims (PDict cl) in
  if tenant_binding_required e && is_nil tids
  then Err (http 403 "tenant binding is required but caller has no tenant scope")
  else Ok (User uid rs "jwt" cl tids).

Definition _authenticate (e : environ) (q : Request) : result AuthUser :=
  let! internal := internal_ok e q in
  if internal then Ok (User (PStr "internal-service") (str_list ["service"; "analyst"]) "internal_token" [] ["*"]) else
  let valid_keys := _get_valid_keys e in
  let! m := map_or_503 e in
  if nonempty q.(x_api_key) && mem q.(x_api_key) valid_keys then key_user e m q
  else if nonempty q.(x_api_key) && negb (is_nil valid_keys) then Err (http 401 "invalid API key")
  else
    let token := bearer q in
    if nonempty token then jwt_user e token
    else if is_nil valid_keys && negb (nonempty e.(OIDC_ISSUER)) then
      if _allow_insecure_no_auth e then Ok (User (PStr "anonymous") (str_list ["viewer"]) "none" [] ["*"])
      else Err (http 503 "authentication misconfigured")
    else Err (http 401 "authentication required").

Definition SKIP_PATHS : list string :=
  ["/v1/health"; "/v1/ready"; "/v1/health/deep"; "/health"; "/health/deep"; "/metrics"; "/v1/slo";
   "/v1/ops/evaluation-posture"].

(** The request goes on with a user, or is answered with a status code. *)
Inductive verdict : Type :=
| Pass (u : AuthUser)
| Refused (status : string).

Definition dispatch (e : environ) (skip_prefixes : list string) (q : Request) : verdict :=
  if mem q.(url_path) SKIP_PATHS || existsb (startswith q.(url_path)) skip_prefixes
  then Pass (User (PStr "system") (str_list ["viewer"]) "bypass" [] ["*"])
  else match (let! u := _authenticate e q in
              let! _ := if tenant_binding_required e then enforce_tenant_access e q (Some u.(tenant_ids)) None else Ok tt in
              Ok u) with
       | Ok u => Pass u
       | Err x => Refused (default "401" (is_http x))
       end.

(** [require_role] and its insecure-desk variant, after the middleware. *)
Definition require_role (role : string) (u : AuthUser) : result AuthUser :=
  let! ok := has_role u role in if ok then Ok u else Err (http 403 "role required").

Definition require_role_or_insecure_desk (e : environ) (role : string) (u : AuthUser) : result AuthUser :=
  let! ok := has_role u role in
  if ok then Ok u
  else if _allow_insecure_no_auth e && bool_decide (u.(auth_type) = "none") then Ok u
  else Err (http 403 "role required").
End Middleware.

(** * Theorems *)

Lemma map_get_elem k m v : map_get k m = Some v -> (k, v) ∈ m.
Proof.
  induction m as [|[k' v'] m IH]; simpl; [done|]. case_bool_decide as E; [intros [= <-]; subst; left|].
  intros H. right. by apply IH.
Qed.

(** In production no key of an accepted map has the wildcard. *)
Lemma map_no_wildcard e m k :
  parse_api_key_tenant_map e = Ok m -> production_tenant_lock e = true -> "*" ∉ default [] (map_get k m).
Proof.
  unfold parse_api_key_tenant_map. intros H Hl. destruct (API_KEY_TENANT_MAP e) as [[[]|]|]; try done.
  - rewrite Hl in H. cbn [andb] in H. destruct (existsb _ _) eqn:E; [done|]. injection H as <-.
    destruct (map_get k (collect_map [] d)) as [v|] eqn:Ek; [|apply not_elem_of_nil]. cbn [default id].
    apply map_get_elem in Ek. intros Hs. apply not_true_iff_false in E. apply E, existsb_exists. exists (k, v).
    split; [by apply list_elem_of_In|by apply mem_spec].
  - injection H as <-. apply not_elem_of_nil.
Qed.

Lemma enforce_Ok e q allowed :
  tenant_binding_required e = true -> q.(url_path) ∉ _PROBE_PATHS ->
  enforce_tenant_access e q (Some allowed) None = Ok tt ->
  exists t, request_tenant_id q = Some t /\ ("*" ∈ allowed \/ t ∈ allowed).
Proof.
  intros Hb Hp H. unfold enforce_tenant_access in H. rewrite (proj2 (mem_false _ _) Hp), Hb in H. cbn in H.
  destruct (request_tenant_id q) as [t|]; [|done]. destruct (_is_tenant_allowed allowed t) eqn:E; [|done].
  exists t. split; [done|]. unfold _is_tenant_allowed in E. apply orb_true_iff in E. by rewrite !mem_spec in E.
Qed.

Lemma map_or_503_Ok e m : map_or_503 e = Ok m -> parse_api_key_tenant_map e = Ok m.
Proof. unfold map_or_503. destruct (parse_api_key_tenant_map e); [done|]. by case_bool_decide. Qed.

Section Middleware_theorems.
Context (verify_jwt : string -> result dict).

Lemma authenticate_cases e q u :
  _authenticate verify_jwt e q = Ok u ->
  (internal_ok e q = Ok true /\ u.(auth_type) = "internal_token")
  \/ (q.(x_api_key) ∈ _get_valid_keys e /\ u.(auth_type) = "api_key" /\
      exists m, parse_api_key_tenant_map e = Ok m /\
        (u.(tenant_ids) = default [] (map_get q.(x_api_key) m) \/ tenant_binding_required e = false))
  \/ (u.(auth_type) = "jwt" /\ exists cl, verify_jwt (bearer q) = Ok cl)
  \/ (u.(auth_type) = "none" /\ _allow_insecure_no_auth e = true).
Proof.
  unfold _authenticate. intros H. inv_ok. destruct a; [injection H as <-; by left|]. inv_ok.
  apply map_or_503_Ok in H1. destruct (nonempty (x_api_key q)) eqn:Ek, (mem (x_api_key q) _) eqn:Em; cbn [andb] in H.
  1: { right. left. apply mem_spec in Em. unfold key_user in H. inv_ok. subst u. do 2 (split; [done|]). exists a.
       split; [done|]. cbn. destruct (is_nil a); cbn [negb] in H2; [|injection H2 as <-; by left].
       destruct (tenant_binding_required e); [done|by right]. }
  all: right; right; destruct (is_nil (_get_valid_keys e)); cbn [negb andb] in H; try discriminate H;
    destruct (nonempty (bearer q)) eqn:Eb;
    first [unfold jwt_user in H; inv_ok; destruct (_ && _) in H; [discriminate H|]; injection H as <-; left; by eauto
          |idtac].
  all: try discriminate H; right; destruct (negb _) in H; try discriminate H;
    destruct (_allow_insecure_no_auth e); try discriminate H; by injection H as <-.
Qed.

(** C26: with tenant binding on, an API key reaches only its own tenants: a
    request the middleware passes under a key names a tenant that the map grants
    to that key, by name or, outside production alone, by the wildcard. *)
Theorem api_key_tenant_bound e prefixes q u :
  tenant_binding_required e = true -> q.(url_path) ∉ _PROBE_PATHS ->
  dispatch verify_jwt e prefixes q = Pass u -> u.(auth_type) = "api_key" ->
  exists t m, request_tenant_id q = Some t /\ parse_api_key_tenant_map e = Ok m
    /\ q.(x_api_key) ∈ _get_valid_keys e
    /\ (t ∈ default [] (map_get q.(x_api_key) m)
        \/ ("*" ∈ default [] (map_get q.(x_api_key) m) /\ production_tenant_lock e = false)).
Proof.
  intros Hb Hp Hd Ht. unfold dispatch in Hd. destruct (_ || _); [by injection Hd as <-|].
  destruct (_authenticate verify_jwt e q) as [u0|x] eqn:Ea; [|done]. cbn [rbind] in Hd. rewrite Hb in Hd.
  destruct (enforce_tenant_access e q _ None) as [[]|] eqn:Ee; [|done]. injection Hd as <-.
  apply (enforce_Ok e q _ Hb Hp) in Ee as (t & Eq & Hall).
  apply authenticate_cases in Ea as [[_ E]|[(Hk & _ & m & Em & [Etid|E])|[[E _]|[E _]]]]; try congruence.
  exists t, m. do 3 (split; [done|]). rewrite Etid in Hall. destruct Hall as [Hw|Hin]; [|by left].
  right. split; [done|]. destruct (production_tenant_lock e) eqn:El; [|done].
  by destruct (map_no_wildcard e m (x_api_key q) Em El).
Qed.

(** C27: production fails closed: under the production profile every request the
    middleware passes, probe paths aside, carries a configured API key, a
    token the verifier accepted, or the configured internal token; nobody is
    anonymous, whatever the insecure switch says. *)
Theorem production_fails_closed e prefixes q u :
  _deployment_profile_is_production e = true -> dispatch verify_jwt e prefixes q = Pass u ->
  mem q.(url_path) SKIP_PATHS = true \/ existsb (startswith q.(url_path)) prefixes = true
  \/ q.(x_api_key) ∈ _get_valid_keys e
  \/ (exists cl, verify_jwt (bearer q) = Ok cl)
  \/ (q.(x_internal_token) = strip e.(CASE_INTERNAL_TOKEN) /\ nonempty q.(x_internal_token) = true).
Proof.
  intros Hp Hd. unfold dispatch in Hd. destruct (mem _ _); [by left|]. destruct (existsb _ _); [by right; left|].
  cbn [orb] in Hd. destruct (_authenticate verify_jwt e q) as [u0|x] eqn:Ea; [|done].
  apply authenticate_cases in Ea as [[Hi _]|[[Hk _]|[[_ Hj]|[_ Ha]]]].
  - do 4 right. unfold internal_ok in Hi. destruct (nonempty (x_internal_token q)); [|done]. split; [|done].
    cbn [andb] in Hi. destruct (_ && _) in Hi; [|done]. unfold compare_digest in Hi. destruct (_ && _) in Hi; [|done].
    apply Ok_inj in Hi. by apply bool_decide_eq_true in Hi.
  - by do 2 right; left.
  - by do 3 right; left.
  - unfold _allow_insecure_no_auth in Ha. by rewrite Hp in Ha.
Qed.
End Middleware_theorems.

Lemma any_level_mono a b l : b <= a -> any_level a l = Ok true -> any_level b l = Ok true.
Proof.
  intros Hab. induction l as [|r l IH]; simpl; [done|]. destruct (role_level r) as [lv|]; [|done]. cbn [rbind].
  destruct (Z.leb_spec a lv); [intros _; destruct (Z.leb_spec b lv); [done|lia]|]. intros Hl.
  destruct (b <=? lv); [done|by apply IH].
Qed.

(** Roles are a hierarchy: whoever has a role has every role below it. *)
Theorem has_role_downward u r r' : level r' <= level r -> has_role u r = Ok true -> has_role u r' = Ok true.
Proof.
  intros Hl. unfold has_role. destruct (py_iter (roles u)); [|done]. cbn [rbind]. by apply any_level_mono.
Qed.

Definition demo_environ : environ :=
  Environ "true" "" "" "production" (Some (Some (PDict [("key-a", PStr "tenant-a")]))) "key-a" "true" "" None "" "roles".
Definition demo_request : Request :=
  Req "/v1/replay" "tenant-a" "" "" "application/json" "" "key-a" "" "" (Some (PDict [("tenant_id", PStr "tenant-b")])).
Definition no_jwt (token : string) : result dict := Err (http 401 "JWT verification failed").
Definition demo_user : AuthUser := User (PStr "service") (str_list ["admin"; "service"]) "api_key" [] ["tenant-a"].

Lemma demo_pass : dispatch no_jwt demo_environ [] demo_request = Pass demo_user.
Proof. vm_compute. reflexivity. Qed.

Lemma api_key_tenant_bound_witness :
  exists t m, request_tenant_id demo_request = Some t /\ parse_api_key_tenant_map demo_environ = Ok m
    /\ demo_request.(x_api_key) ∈ _get_valid_keys demo_environ
    /\ (t ∈ default [] (map_get demo_request.(x_api_key) m)
        \/ ("*" ∈ default [] (map_get demo_request.(x_api_key) m) /\ production_tenant_lock demo_environ = false)).
Proof.
  apply (api_key_tenant_bound no_jwt demo_environ [] demo_request demo_user); [reflexivity| |exact demo_pass|reflexivity].
  apply mem_false. vm_compute. reflexivity.
Defined.

Lemma production_fails_closed_witness :
  demo_request.(x_api_key) ∈ _get_valid_keys demo_environ.
Proof.
  pose proof (production_fails_closed no_jwt demo_environ [] demo_request demo_user eq_refl demo_pass) as H.
  destruct H as [H|[H|[H|[[cl H]|[_ H]]]]]; [vm_compute in H; discriminate H..|exact H|discriminate H|vm_compute in H; discriminate H].
Defined.

Lemma has_role_downward_witness : has_role demo_user "viewer" = Ok true.
Proof. apply (has_role_downward demo_user "admin" "viewer"); [vm_compute; discriminate|vm_compute; reflexivity]. Defined.
