(* ===== verification/Replay.v ===== *)
(** Replay of audited events under caller-supplied rules:
    [decision_api/replay.py], and its composition with the tenant guard of
    [Auth].

    The audit table is a list of rows, a row's id being the integer of its
    UUID; the request body is as Pydantic validated it. *)

From Stdlib Require Import ZArith Lia Ascii String Bool.
From stdpp Require Import base option list sorting strings.
From S2P Require Import Prelude PyFloat PyValue Sha256 Uuid RuleMatch Auth.
From Stdlib Require Import SpecFloat.
Local Open Scope Z_scope.

Record AuditRecord : Type := Audit {
  trace_id : Z; tenant_id : string; entity_id : string; event_type : string; decision : string; score : float;
  rule_hits : list string; payload_snapshot : pyval; created_at : Z }.

Record ReplayCondition : Type := Condition { field : string; op : string; value : pyval }.
Record ReplayRule : Type := Rule { rule_name : string; when : list ReplayCondition; rule_tags : list string; score_delta : float }.
Record ReplayRequest : Type := Replay {
  replay_tenant : string; rules_override : list ReplayRule; limit : Z; trace_ids : list string }.

Record ReplayResultItem : Type := Item {
  item_trace : string; item_entity : string; item_event_type : string; original_decision : string; original_score : float;
  original_rule_hits : list string; new_decision : string; new_score : float; new_rule_hits : list string;
  new_tags : list string; score_diff : float; decision_changed : bool }.

Record ReplayResponse : Type := ReplayAnswer {
  answer_tenant : string; events_evaluated : Z; decisions_changed : Z; results : list ReplayResultItem;
  missing_trace_ids : list string }.

Definition condition_dict (c : ReplayCondition) : dict :=
  [("field", PStr c.(field)); ("op", PStr c.(op)); ("value", c.(value))].

(** [all(_match_condition(...) for c in conditions)]. *)
Fixpoint all_match (features : dict) (cs : list ReplayCondition) : result bool :=
  match cs with
  | [] => Ok true
  | c :: cs' => let! b := _match_condition features (condition_dict c) in if b then all_match features cs' else Ok false
  end.

Fixpoint override_loop (features : dict) (rules : list ReplayRule) (acc : list string * list string * float)
    : result (list string * list string * float) :=
  match rules with
  | [] => Ok acc
  | rule :: rules' =>
      if is_nil rule.(when) then override_loop features rules' acc
      else
        let! fired := all_match features rule.(when) in
        let '(hits, tags, delta) := acc in
        override_loop features rules'
          (if fired then (hits ++ [str_or rule.(rule_name) "anon"], tags ++ rule.(rule_tags), fadd delta rule.(score_delta))
           else acc)
  end.

Definition _evaluate_override_rules (features : dict) (rules : list ReplayRule) : result (list string * list string * float) :=
  override_loop features rules ([], [], litZ 0).

(** [_decide] with its default thresholds. *)
Definition _decide (s : float) : string :=
  if fleb (litZ 80) s then "deny" else if fleb (litZ 50) s then "review" else "allow".

Fixpoint parse_traces (raws : list string) : result (list Z) :=
  match raws with
  | [] => Ok []
  | raw :: raws' =>
      match uuid_of_string (strip raw) with
      | None => Err (http 400 "invalid trace_id")
      | Some u => let! us := parse_traces raws' in Ok (u :: us)
      end
  end.

(** [{**snapshot.get(k, {})}]: only a mapping can be unpacked. *)
Definition unpack (snapshot : dict) (k : string) : result dict :=
  match get snapshot k (PDict []) with PDict d => Ok d | _ => Err TypeError end.

Definition snapshot_features (rec : AuditRecord) : result dict :=
  match por rec.(payload_snapshot) (PDict []) with
  | PDict snapshot =>
      let! p := unpack snapshot "payload" in
      let! m := unpack snapshot "metadata" in
      Ok (dict_update (dict_update [] p) m)
  | _ => Err AttributeError
  end.

Definition replay_one (rules : list ReplayRule) (rec : AuditRecord) : result ReplayResultItem :=
  let! features := snapshot_features rec in
  let! (hits, tags, delta) := _evaluate_override_rules features rules in
  let ns := fclamp (litZ 0) (litZ 100) (fadd rec.(score) delta) in
  let nd := _decide ns in
  Ok (Item (uuid_to_string rec.(trace_id)) rec.(entity_id) rec.(event_type) rec.(decision) rec.(score) rec.(rule_hits)
        nd ns hits tags (f_round (fsub ns rec.(score)) 4) (negb (bool_decide (nd = rec.(decision))))).

Definition of_tenant (t : string) (rows : list AuditRecord) : list AuditRecord :=
  List.filter (fun r => bool_decide (r.(tenant_id) = t)) rows.

(** The rows a request selects, and the requested ids that are not there. *)
Definition select_records (q : ReplayRequest) (rows : list AuditRecord) : result (list AuditRecord * list string) :=
  let mine := of_tenant q.(replay_tenant) rows in
  if negb (is_nil q.(trace_ids)) then
    if (200 <? Z.of_nat (length q.(trace_ids))) then Err (http 400 "trace_ids must contain at most 200 entries")
    else
      let! parsed := parse_traces q.(trace_ids) in
      let find u := last (List.filter (fun r => bool_decide (r.(trace_id) = u)) mine) in
      Ok (filter_map find parsed,
          filter_map (fun u => match find u with Some _ => None | None => Some (uuid_to_string u) end) parsed)
  else Ok (take (Z.to_nat q.(limit)) (sort_by (fun r => - r.(created_at)) mine), []).

Definition replay_events (q : ReplayRequest) (rows : list AuditRecord) : result ReplayResponse :=
  if is_nil q.(rules_override) then Err (http 400 "rules_override must contain at least one rule") else
  let! (records, missing) := select_records q rows in
  if is_nil records then Err (http 404 "no audit records found") else
  let! items := rmapM (replay_one q.(rules_override)) records in
  Ok (ReplayAnswer q.(replay_tenant) (Z.of_nat (length items))
        (Z.of_nat (length (List.filter decision_changed items))) items missing).

(** The endpoint behind the middleware. *)
Definition replay_route (verify_jwt : string -> result dict) (e : environ) (prefixes : list string) (r : Request)
    (q : ReplayRequest) (rows : list AuditRecord) : result ReplayResponse :=
  match dispatch verify_jwt e prefixes r with
  | Pass _ => replay_events q rows
  | Refused status => Err (OtherError ("HTTP " +:+ status))
  end.

(** * Theorems *)

(** The reference reading of a rule: it has conditions and all of them hold. *)
Definition fires (features : dict) (rule : ReplayRule) : bool :=
  negb (is_nil rule.(when))
  && forallb (fun c => match _match_condition features (condition_dict c) with Ok b => b | Err _ => false end) rule.(when).

Lemma all_match_spec features cs :
  all_match features cs
  = Ok (forallb (fun c => match _match_condition features (condition_dict c) with Ok b => b | Err _ => false end) cs).
Proof.
  induction cs as [|c cs IH]; simpl; [done|].
  destruct (match_condition_total features (condition_dict c) c.(field) eq_refl) as [b ->]. cbn [rbind]. by destruct b.
Qed.

Lemma override_loop_spec features rules : forall h t d,
  override_loop features rules (h, t, d)
  = Ok (h ++ map (fun r => str_or r.(rule_name) "anon") (List.filter (fires features) rules),
        t ++ concat (map rule_tags (List.filter (fires features) rules)),
        foldl (fun d r => fadd d r.(score_delta)) d (List.filter (fires features) rules)).
Proof.
  induction rules as [|r rules IH]; intros h t d; simpl; [by rewrite !app_nil_r|].
  rewrite all_match_spec. cbn [rbind].
  destruct (fires features r) eqn:E; unfold fires in E; destruct (is_nil (when r)); cbn [negb andb] in E; try done;
    rewrite ?E, IH; simpl; by rewrite <- ?app_assoc.
Qed.

Lemma rmapM_elem {A B} (f : A -> result B) l ys y : rmapM f l = Ok ys -> y ∈ ys -> exists x, x ∈ l /\ f x = Ok y.
Proof.
  revert ys. induction l as [|x l IH]; intros ys H Hy; simpl in H; [injection H as <-; by apply not_elem_of_nil in Hy|].
  inv_ok. subst ys. apply elem_of_cons in Hy as [-> | Hy]; [exists x; split; [left|done]|].
  destruct (IH _ H1 Hy) as (z & Hz & E). exists z. split; [by right|done].
Qed.

Lemma select_records_own q rows recs missing r :
  select_records q rows = Ok (recs, missing) -> r ∈ recs -> r ∈ rows /\ r.(tenant_id) = q.(replay_tenant).
Proof.
  unfold select_records. intros H Hr.
  assert (Hm : r ∈ of_tenant q.(replay_tenant) rows -> r ∈ rows /\ r.(tenant_id) = q.(replay_tenant)).
  { intros [H1 H2%bool_decide_eq_true]%filter_elem. done. }
  apply Hm. destruct (negb _).
  - destruct (200 <? _); [done|]. inv_ok. injection H as <- <-. apply filter_map_elem in Hr as (u & _ & E).
    apply last_Some_elem_of in E. by apply filter_elem in E as [E _].
  - injection H as <- <-. apply elem_of_take in Hr as (i & Hr%list_elem_of_lookup_2 & _). by rewrite sort_by_perm in Hr.
Qed.

(** A replay answers for its tenant and rules exactly: every result comes
    from an audit row of the requested tenant, its hits are the override rules
    whose conditions all hold on the stored payload and metadata, in order, and
    its new score lies between 0 and 100 and decides the new decision, whatever
    the stored score and the deltas, infinities and NaN included. *)
Theorem replay_exact q rows a item :
  replay_events q rows = Ok a -> item ∈ a.(results) ->
  exists rec features,
    rec ∈ rows /\ rec.(tenant_id) = q.(replay_tenant) /\ snapshot_features rec = Ok features
    /\ item.(item_trace) = uuid_to_string rec.(trace_id)
    /\ item.(new_rule_hits) = map (fun r => str_or r.(rule_name) "anon") (List.filter (fires features) q.(rules_override))
    /\ fleb (litZ 0) item.(new_score) = true /\ fleb item.(new_score) (litZ 100) = true
    /\ item.(new_decision) = _decide item.(new_score)
    /\ (item.(decision_changed) = true <-> item.(new_decision) <> rec.(decision)).
Proof.
  unfold replay_events. destruct (is_nil _); [done|]. intros H Hi. inv_ok. destruct a0 as [recs missing].
  destruct (is_nil recs); [done|]. inv_ok. subst a. cbn [results] in Hi.
  destruct (rmapM_elem _ _ _ _ H1 Hi) as (rec & Hrec & E). destruct (select_records_own _ _ _ _ _ H0 Hrec) as [Hr Ht].
  unfold replay_one in E. apply rbind_Ok in E as (a & Hf & E).
  unfold _evaluate_override_rules in E. rewrite override_loop_spec in E. cbn [rbind] in E.
  injection E as <-. exists rec, a. cbn. destruct (fclamp_range (litZ 0) (litZ 100)
    (fadd (score rec) (foldl (fun d r => fadd d (score_delta r)) (litZ 0) (List.filter (fires a) (rules_override q)))) eq_refl) as [L U].
  do 5 (split; [done|]). do 2 (split; [done|]). split; [done|]. by rewrite negb_true_iff, bool_decide_eq_false.
Qed.

Definition with_body (body : pyval) (r : Request) : Request :=
  Req r.(url_path) r.(query_tenant) r.(path_tenant) r.(x_tenant_id) r.(content_type) r.(x_internal_token) r.(x_api_key)
    r.(authorization) r.(tarka_access) (Some body).

(** The tenant guard and the endpoint look at different tenants: a caller
    whose key passes for a tenant named in the query string is given the replay
    of any tenant named in the body, in full. *)
Theorem body_tenant_unchecked verify_jwt e prefixes r u body q rows :
  dispatch verify_jwt e prefixes r = Pass u -> nonempty (strip r.(query_tenant)) = true ->
  replay_route verify_jwt e prefixes (with_body body r) q rows = replay_events q rows.
Proof.
  intros Hd Hq. unfold replay_route.
  assert (E : dispatch verify_jwt e prefixes (with_body body r) = dispatch verify_jwt e prefixes r).
  { unfold dispatch. cbn [url_path with_body]. destruct (_ || _); [done|].
    assert (Ea : _authenticate verify_jwt e (with_body body r) = _authenticate verify_jwt e r) by reflexivity.
    rewrite Ea. destruct (_authenticate verify_jwt e r) as [u'|]; [|done]. cbn [rbind].
    destruct (tenant_binding_required e); [|done]. unfold enforce_tenant_access, request_tenant_id, non_blank. cbn [url_path query_tenant with_body].
    by rewrite Hq. }
  by rewrite E, Hd.
Qed.

Definition foreign_row : AuditRecord := Audit 7 "tenant-b" "e" "payment" "allow" (litZ 10) [] PNone 0.
Definition demo_replay (tenant : string) : ReplayRequest :=
  Replay tenant [Rule "r1" [Condition "amount" "exists" PNone] [] (litZ 90)] 100 [].

(** The key is bound to [tenant-a] under the production lock; the row read back
    belongs to [tenant-b]. *)
Lemma body_tenant_unchecked_witness :
  replay_route no_jwt demo_environ [] (with_body (PDict [("tenant_id", PStr "tenant-b")]) demo_request)
    (demo_replay "tenant-b") [foreign_row]
  = replay_events (demo_replay "tenant-b") [foreign_row]
  /\ rmap (fun a => map item_trace a.(results)) (replay_events (demo_replay "tenant-b") [foreign_row])
     = Ok ["00000000-0000-0000-0000-000000000007"].
Proof.
  split; [|vm_compute; reflexivity].
  apply (body_tenant_unchecked no_jwt demo_environ [] demo_request demo_user); [exact demo_pass|vm_compute; reflexivity].
Defined.

Lemma replay_exact_witness :
  exists a item, replay_events (demo_replay "tenant-b") [foreign_row] = Ok a /\ item ∈ a.(results)
    /\ fleb item.(new_score) (litZ 100) = true.
Proof.
  destruct (replay_events (demo_replay "tenant-b") [foreign_row]) as [a|] eqn:E; [|vm_compute in E; discriminate E].
  destruct (results a) as [|item l] eqn:Er; [vm_compute in E; injection E as <-; discriminate Er|].
  exists a, item. split; [reflexivity|]. split; [rewrite Er; left|].
  assert (Hi : item ∈ results a) by (rewrite Er; left).
  destruct (replay_exact (demo_replay "tenant-b") [foreign_row] a item E Hi) as (rec & f & _ & _ & _ & _ & _ & _ & H & _).
  exact H.
Defined.
