(* ===== verification/RateLimits.v ===== *)
(** Request limits: [shared/minute_rate_limit.py] and the Redis limiter and
    middleware of [shared/rate_limiter.py].

    Instants and window lengths are integers in one unit (the source's doubles
    are taken as exact).  The state of a limiter is a finite map from keys to
    the recorded instants, oldest first.  The in-memory token bucket, whose
    fractional refill is floating point, is not modelled. *)

From Stdlib Require Import ZArith Lia Ascii String Bool.
From stdpp Require Import base option list sorting strings gmap.
From S2P Require Import Prelude PyFloat PyValue.
Local Open Scope Z_scope.

Abbreviation store := (gmap string (list Z)).

(** * The sliding window *)

Record MinuteRateLimiter : Type := Limiter { max_events : Z; window : Z }.

Definition make_limiter (max_events window : Z) : MinuteRateLimiter := Limiter (Z.max 1 max_events) window.

(** [while d and d[0] < cutoff: d.popleft()]. *)
Fixpoint popleft_while (cutoff : Z) (d : list Z) : list Z :=
  match d with
  | [] => []
  | t :: d' => if t <? cutoff then popleft_while cutoff d' else d
  end.

Definition queue (k : string) (st : store) : list Z := default [] (st !! k).

Definition allow (l : MinuteRateLimiter) (key : string) (now : Z) (st : store) : store * bool :=
  let d := popleft_while (now - l.(window)) (queue key st) in
  if l.(max_events) <=? Z.of_nat (length d) then (<[key := d]> st, false)
  else (<[key := d ++ [now]]> st, true).

(** A run: the verdict of each call. *)
Fixpoint run (l : MinuteRateLimiter) (calls : list (Z * string)) (st : store) : list bool :=
  match calls with
  | [] => []
  | (now, key) :: calls' => let '(st', ok) := allow l key now st in ok :: run l calls' st'
  end.

(** * The Redis limiter *)

(** [ZADD] of the member [str(now)]: an instant is held once. *)
Definition zadd (now : Z) (z : list Z) : list Z := if bool_decide (now ∈ z) then z else z ++ [now].

(** The pipeline of [RedisTokenBucket.allow]: drop what is a window old, count,
    record the call, whatever the verdict. *)
Definition redis_allow (rpm window : Z) (key : string) (now : Z) (st : store) : store * bool :=
  let z := List.filter (fun s => now - window <? s) (queue key st) in
  (<[key := zadd now z]> st, negb (rpm <=? Z.of_nat (length z))).

Fixpoint redis_run (rpm window : Z) (calls : list (Z * string)) (st : store) : list bool :=
  match calls with
  | [] => []
  | (now, key) :: calls' =>
      let '(st', ok) := redis_allow rpm window key now st in ok :: redis_run rpm window calls' st'
  end.

Definition RATE_SKIP_PATHS : list string := ["/v1/health"; "/v1/health/deep"; "/health/deep"; "/metrics"].

(** The key of a request: the API key header or the client's address, and one
    shared key when the client is unknown. *)
Definition limiter_key (x_api_key : string) (client_host : option string) : string :=
  match client_host with
  | Some host => str_or x_api_key host
  | None => "unknown"
  end.

(** [RateLimitMiddleware.dispatch] over the Redis limiter: [true] when the
    request goes on, [false] when it is answered with 429. *)
Definition rate_dispatch (rpm window : Z) (path x_api_key : string) (client_host : option string) (now : Z) (st : store)
    : store * bool :=
  if mem path RATE_SKIP_PATHS then (st, true)
  else redis_allow rpm window (limiter_key x_api_key client_host) now st.

(** * The reference limiter *)

(** The recorded instants of a key, and those since [from]. *)
Definition times (key : string) (h : list (Z * string)) : list Z :=
  map fst (List.filter (fun c => bool_decide (c.2 = key)) h).

Definition since (from : Z) (ts : list Z) : list Z := List.filter (fun t => from <=? t) ts.

(** Admit a call exactly when fewer than [max_events] admitted calls of its key
    are at most a window old; [h] is everything admitted so far. *)
Fixpoint run_ref (l : MinuteRateLimiter) (calls h : list (Z * string)) : list bool :=
  match calls with
  | [] => []
  | (now, key) :: calls' =>
      let ok := Z.of_nat (length (since (now - l.(window)) (times key h))) <? l.(max_events) in
      ok :: run_ref l calls' (if ok then h ++ [(now, key)] else h)
  end.

(** The calls a list of verdicts admits. *)
Fixpoint admitted (calls : list (Z * string)) (oks : list bool) : list (Z * string) :=
  match calls, oks with
  | c :: calls', ok :: oks' => if ok then c :: admitted calls' oks' else admitted calls' oks'
  | _, _ => []
  end.

(** A monotonic clock. *)
Fixpoint monotonic (from : Z) (calls : list (Z * string)) : Prop :=
  match calls with
  | [] => True
  | (now, _) :: calls' => from <= now /\ monotonic now calls'
  end.

(** * Refinement *)

Lemma times_app key h c : times key (h ++ [c]) = times key h ++ (if bool_decide (c.2 = key) then [c.1] else []).
Proof. unfold times. rewrite List.filter_app, map_app. simpl. by case_bool_decide. Qed.

Lemma since_app from a b : since from (a ++ b) = since from a ++ since from b.
Proof. unfold since. apply List.filter_app. Qed.

Lemma since_none from ts : Forall (fun t => t < from) ts -> since from ts = [].
Proof.
  induction 1 as [|t ts Ht _ IH]; simpl; [done|]. destruct (Z.leb_spec from t); [lia|]. done.
Qed.

Lemma since_all from ts : Forall (fun t => from <= t) ts -> since from ts = ts.
Proof.
  induction 1 as [|t ts Ht _ IH]; simpl; [done|]. destruct (Z.leb_spec from t); [|lia]. by rewrite IH.
Qed.

Lemma popleft_split cutoff d :
  StronglySorted Z.le d ->
  exists old, d = old ++ popleft_while cutoff d /\ Forall (fun t => t < cutoff) old
    /\ Forall (fun t => cutoff <= t) (popleft_while cutoff d).
Proof.
  induction 1 as [|t d Hs IH Hf]; simpl; [by exists []|].
  destruct (Z.ltb_spec t cutoff) as [Hlt|Hge].
  - destruct IH as (old & E & H1 & H2). exists (t :: old). simpl. rewrite <- E. split; [done|]. split; [by constructor|done].
  - exists []. split; [done|]. split; [constructor|]. constructor; [done|]. eapply Forall_impl; [exact Hf|]. simpl. lia.
Qed.

(** The queue of a key is its admitted calls less some that are too old to
    matter again. *)
Record tracks (l : MinuteRateLimiter) (now : Z) (st : store) (h : list (Z * string)) : Prop := {
  tr_sorted key : StronglySorted Z.le (times key h);
  tr_past key : Forall (fun t => t <= now) (times key h);
  tr_queue key : exists old, times key h = old ++ queue key st /\ Forall (fun t => t < now - l.(window)) old }.

Lemma sorted_snoc ts t : StronglySorted Z.le ts -> Forall (fun x => x <= t) ts -> StronglySorted Z.le (ts ++ [t]).
Proof.
  induction 1 as [|x ts Hs IH Hf]; intros Ht; simpl; [repeat constructor|]. inversion Ht as [|? ? Hx Hts]; subst.
  constructor; [by apply IH|]. apply Forall_app. split; [done|]. by constructor.
Qed.

Lemma sorted_suffix a b : StronglySorted Z.le (a ++ b) -> StronglySorted Z.le b.
Proof. induction a as [|x a IH]; simpl; [done|]. intros H. inversion H; subst. by apply IH. Qed.

Lemma queue_insert k k' v st : queue k (<[k' := v]> st) = if bool_decide (k' = k) then v else queue k st.
Proof.
  unfold queue. case_bool_decide as E; [subst; by rewrite lookup_insert_eq|]. by rewrite lookup_insert_ne by done.
Qed.

Lemma tracks_step l now0 now key st h :
  tracks l now0 st h -> now0 <= now ->
  let '(st', ok) := allow l key now st in
  ok = (Z.of_nat (length (since (now - l.(window)) (times key h))) <? l.(max_events))
  /\ tracks l now st' (if ok then h ++ [(now, key)] else h).
Proof.
  intros [S P Q] Hn. unfold allow. set (cutoff := now - window l). set (d := popleft_while cutoff (queue key st)).
  destruct (Q key) as (old & E & Ho).
  assert (Hsq : StronglySorted Z.le (queue key st)) by (apply (sorted_suffix old); rewrite <- E; apply S).
  destruct (popleft_split cutoff (queue key st) Hsq) as (old2 & E2 & Ho2 & Hd). fold d in E2, Hd.
  assert (Hold : Forall (fun t => t < cutoff) (old ++ old2)).
  { apply Forall_app. split; [|done]. eapply Forall_impl; [exact Ho|]. unfold cutoff. simpl. lia. }
  assert (Et : times key h = (old ++ old2) ++ d) by (rewrite <- app_assoc, <- E2; exact E).
  assert (Hc : since cutoff (times key h) = d).
  { rewrite Et, since_app, (since_none _ (old ++ old2)) by done. by rewrite since_all. }
  rewrite Hc.
  assert (Hother : forall k v, k <> key -> exists old, times k h = old ++ queue k (<[key := v]> st)
      /\ Forall (fun t => t < now - window l) old).
  { intros k v Hk. rewrite queue_insert, bool_decide_eq_false_2 by done. destruct (Q k) as (o & Eo & Fo). exists o.
    split; [done|]. eapply Forall_impl; [exact Fo|]. simpl. lia. }
  assert (Hpast : forall k, Forall (fun t => t <= now) (times k h)).
  { intros k. eapply Forall_impl; [apply P|]. simpl. lia. }
  destruct (Z.leb_spec (max_events l) (Z.of_nat (length d))) as [Hm|Hm].
  - split; [symmetry; apply Z.ltb_ge; lia|]. split; [done|done|]. intros k.
    destruct (decide (k = key)) as [-> |Hk]; [|by apply Hother]. exists (old ++ old2).
    rewrite queue_insert, bool_decide_eq_true_2 by done. done.
  - split; [symmetry; apply Z.ltb_lt; lia|]. split; intros k; rewrite times_app; simpl; case_bool_decide as Ek.
    + by apply sorted_snoc.
    + by rewrite app_nil_r.
    + apply Forall_app. split; [done|]. by constructor.
    + by rewrite app_nil_r.
    + subst k. exists (old ++ old2). rewrite queue_insert, bool_decide_eq_true_2 by done. by rewrite Et, app_assoc.
    + rewrite app_nil_r. apply Hother. congruence.
Qed.

Lemma run_tracks l calls : forall now0 st h,
  tracks l now0 st h -> monotonic now0 calls -> run l calls st = run_ref l calls h.
Proof.
  induction calls as [|[now key] calls IH]; intros now0 st h Ht Hm; simpl; [done|]. destruct Hm as [Hn Hm].
  pose proof (tracks_step l now0 now key st h Ht Hn) as Hs. destruct (allow l key now st) as [st' ok].
  destruct Hs as [-> Hs]. f_equal. by apply (IH now).
Qed.

Lemma tracks_empty l start : tracks l start ∅ [].
Proof. split; intros key; [constructor|constructor|]. exists []. unfold queue. by rewrite lookup_empty. Qed.

(** The deques implement the specification: on a monotonic clock, a fresh
    limiter admits a call exactly when fewer than [max_events] calls of its key
    that it admitted before are at most a window old. *)
Theorem limiter_refines l calls start :
  monotonic start calls -> run l calls ∅ = run_ref l calls [].
Proof.
  apply run_tracks, tracks_empty.
Qed.

Definition demo_calls : list (Z * string) := [(0, "a"); (10, "a"); (20, "a"); (30, "b"); (60, "a"); (61, "a"); (62, "a")].

Lemma limiter_refines_witness :
  run (make_limiter 2 60) demo_calls ∅ = run_ref (make_limiter 2 60) demo_calls []
  /\ run (make_limiter 2 60) demo_calls ∅ = [true; true; false; true; false; true; false].
Proof.
  split; [|vm_compute; reflexivity]. apply (limiter_refines (make_limiter 2 60) demo_calls 0). simpl. lia.
Defined.

(** * The promise *)

(** The calls of [ts] in the closed interval of a window from [from]. *)
Definition in_window (from w : Z) (ts : list Z) : list Z := List.filter (fun t => (from <=? t) && (t <=? from + w)) ts.

Lemma in_window_since from w t ts :
  from <= t <= from + w -> (length (in_window from w ts) <= length (since (t - w) ts))%nat.
Proof.
  intros Ht. unfold in_window, since. induction ts as [|x ts IH]; simpl; [lia|].
  destruct (Z.leb_spec from x), (Z.leb_spec x (from + w)), (Z.leb_spec (t - w) x); simpl; lia.
Qed.

Lemma ref_bounded l calls : 1 <= l.(max_events) -> forall h,
  (forall key from, Z.of_nat (length (in_window from l.(window) (times key h))) <= l.(max_events)) ->
  forall key from, Z.of_nat (length (in_window from l.(window) (times key (h ++ admitted calls (run_ref l calls h)))))
    <= l.(max_events).
Proof.
  intros H1. induction calls as [|[now k] calls IH]; intros h Hh key from; simpl; [by rewrite app_nil_r|].
  destruct (Z.ltb_spec (Z.of_nat (length (since (now - window l) (times k h)))) (max_events l)) as [Hok|_]; [|by apply IH].
  replace (h ++ (now, k) :: _) with ((h ++ [(now, k)]) ++ admitted calls (run_ref l calls (h ++ [(now, k)])))
    by (by rewrite <- app_assoc).
  apply IH. clear key from. intros key from. rewrite times_app. simpl. case_bool_decide as E; [|rewrite app_nil_r; apply Hh].
  subst key. unfold in_window. rewrite List.filter_app, length_app. simpl.
  destruct (Z.leb_spec from now), (Z.leb_spec now (from + window l)); simpl; fold (in_window from (window l) (times k h));
    rewrite ?Nat.add_0_r; try apply Hh.
  pose proof (in_window_since from (window l) now (times k h) ltac:(lia)). lia.
Qed.

(** At most [max_events] calls per window per key, as the class promises: on
    a monotonic clock no closed interval of the window's length, wherever it
    starts, holds more than [max_events] admitted calls of one key. *)
Theorem limiter_bound m w calls start key from :
  monotonic start calls ->
  Z.of_nat (length (in_window from w (times key (admitted calls (run (make_limiter m w) calls ∅))))) <= Z.max 1 m.
Proof.
  intros Hm.
  assert (E : run (make_limiter m w) calls ∅ = run_ref (make_limiter m w) calls []).
  { apply (run_tracks _ _ start); [apply tracks_empty|done]. }
  rewrite E. apply (ref_bounded (make_limiter m w) calls ltac:(simpl; lia) []).
  intros k f. simpl. lia.
Qed.

Lemma limiter_bound_witness :
  Z.of_nat (length (in_window 5 60 (times "a" (admitted demo_calls (run (make_limiter 2 60) demo_calls ∅))))) <= 2.
Proof. apply (limiter_bound 2 60 demo_calls 0 "a" 5). simpl. lia. Defined.

(** * The Redis limiter counts refusals *)

(** Admit a call exactly when fewer than [rpm] instants less than a window old
    saw a call of its key; [h] is every call so far, refused ones included. *)
Fixpoint redis_ref (rpm w : Z) (calls h : list (Z * string)) : list bool :=
  match calls with
  | [] => []
  | (now, key) :: calls' =>
      (Z.of_nat (length (remove_dups (List.filter (fun t => now - w <? t) (times key h)))) <? rpm)
      :: redis_ref rpm w calls' (h ++ [(now, key)])
  end.

Record mirrors (w now : Z) (st : store) (h : list (Z * string)) : Prop := {
  mi_nodup key : NoDup (queue key st);
  mi_elem key t : now - w < t -> t ∈ queue key st <-> t ∈ times key h }.

Lemma mirrors_step rpm w now0 now key st h :
  mirrors w now0 st h -> now0 <= now ->
  let '(st', ok) := redis_allow rpm w key now st in
  ok = (Z.of_nat (length (remove_dups (List.filter (fun t => now - w <? t) (times key h)))) <? rpm)
  /\ mirrors w now st' (h ++ [(now, key)]).
Proof.
  intros [N E] Hn. unfold redis_allow. set (z := List.filter (fun s => now - w <? s) (queue key st)).
  assert (Nz : NoDup z) by apply filter_nodup, N.
  assert (Ez : forall t, t ∈ z <-> t ∈ List.filter (fun t => now - w <? t) (times key h)).
  { intros t. unfold z. rewrite !filter_elem, Z.ltb_lt. split; intros [H1 H2]; (split; [|done]); apply E; (done || lia). }
  split.
  - rewrite Z.leb_antisym, negb_involutive. do 2 f_equal. apply Permutation_length, NoDup_Permutation;
      [done|apply NoDup_remove_dups|]. intros t. rewrite elem_of_remove_dups. apply Ez.
  - split; intros k; rewrite queue_insert; case_bool_decide as Ek.
    + unfold zadd. case_bool_decide; [done|]. apply NoDup_app. split; [done|].
      split; [by intros x Hx ->%list_elem_of_singleton|apply NoDup_singleton].
    + apply N.
    + intros t Ht. subst k. rewrite times_app. simpl. rewrite bool_decide_eq_true_2 by done.
      rewrite elem_of_app, list_elem_of_singleton. unfold zadd. case_bool_decide as Hz;
        [|rewrite elem_of_app, list_elem_of_singleton]; rewrite Ez, filter_elem, Z.ltb_lt; split.
      * tauto.
      * intros [H| ->]; [tauto|]. by apply Ez, filter_elem in Hz as [? ?%Z.ltb_lt].
      * tauto.
      * intros [H| ->]; tauto.
    + intros t Ht. rewrite times_app. simpl. rewrite bool_decide_eq_false_2, app_nil_r by congruence. apply E. lia.
Qed.

(** The Redis limiter counts the calls it refuses: on a monotonic clock it
    admits a call exactly when fewer than [rpm] distinct instants of the last
    window saw a call of the same key, admitted or not, so a client that keeps
    retrying at the limit is never admitted again. *)
Theorem redis_counts_refusals rpm w calls start :
  monotonic start calls -> redis_run rpm w calls ∅ = redis_ref rpm w calls [].
Proof.
  assert (H : forall calls now0 st h, mirrors w now0 st h -> monotonic now0 calls ->
    redis_run rpm w calls st = redis_ref rpm w calls h).
  { clear calls start. induction calls as [|[now key] calls IH]; intros now0 st h Hi Hm; cbn [redis_run redis_ref]; [done|]. destruct Hm as [Hn Hm].
    pose proof (mirrors_step rpm w now0 now key st h Hi Hn) as Hs. destruct (redis_allow rpm w key now st) as [st' ok].
    destruct Hs as [-> Hs]. f_equal. by apply (IH now). }
  apply H. split; intros key; unfold queue; rewrite lookup_empty; [constructor|]. done.
Qed.

(** Two calls a minute are allowed; one call every 25 seconds is refused for
    ever after the second. *)
Lemma redis_counts_refusals_witness :
  redis_run 2 60 [(0, "a"); (25, "a"); (50, "a"); (75, "a"); (100, "a"); (125, "a")] ∅
  = redis_ref 2 60 [(0, "a"); (25, "a"); (50, "a"); (75, "a"); (100, "a"); (125, "a")] []
  /\ redis_run 2 60 [(0, "a"); (25, "a"); (50, "a"); (75, "a"); (100, "a"); (125, "a")] ∅
     = [true; true; false; false; false; false].
Proof.
  split; [|vm_compute; reflexivity].
  apply (redis_counts_refusals 2 60 [(0, "a"); (25, "a"); (50, "a"); (75, "a"); (100, "a"); (125, "a")] 0). simpl. lia.
Defined.
