(* ===== verification/RuleEngine.v ===== *)
(** The stand-alone rule engine: [rule_engine/evaluator.py], the rule schema
    [tarka_shared/ast_schemas.py], the versioned rule table of
    [rule_engine/rules_store.py] and [tarka_shared/fraud_rules.py], and
    [rule_engine/graph_context.py] (which rules need the graph).

    A rule's comparison values are JSON values, as rules read from the table
    have.  The decoding of a rule is what the Pydantic classes declare: keys are
    exact ([extra="forbid"]) and a union takes the first member that accepts the
    value, which is Pydantic's documented tie-break. *)

From Stdlib Require Import ZArith Lia Ascii String Bool.
From stdpp Require Import base option list sorting strings.
From S2P Require Import Prelude PyFloat PyValue PyDateTime Sha256 Uuid Auth.
From Stdlib Require Import SpecFloat.
Local Open Scope Z_scope.

(** * Schema *)

Inductive Operator : Type := EQ | NE | GT | LT | CONTAINS.
#[export] Instance Operator_eq_dec : EqDecision Operator.
Proof. solve_decision. Defined.

Definition operator_value (o : Operator) : string :=
  match o with EQ => "EQ" | NE => "NE" | GT => "GT" | LT => "LT" | CONTAINS => "CONTAINS" end.

Definition operator_of (s : string) : option Operator :=
  head (List.filter (fun o => bool_decide (operator_value o = s)) [EQ; NE; GT; LT; CONTAINS]).

Definition TransactionSchemaField : list string :=
  ["entity_id"; "amount"; "timestamp"; "metadata"; "country"; "graph_linked_to_blocked_count"].

Inductive LogicalNode : Type :=
| ConditionNode (field : string) (op : Operator) (value : pyval)
| AndNode (children : list LogicalNode)
| OrNode (children : list LogicalNode).

Inductive Action : Type := FLAG | BLOCK | ALLOW | SHADOW_REVIEW.
#[export] Instance Action_eq_dec : EqDecision Action.
Proof. solve_decision. Defined.

Definition action_value (a : Action) : string :=
  match a with FLAG => "FLAG" | BLOCK => "BLOCK" | ALLOW => "ALLOW" | SHADOW_REVIEW => "SHADOW_REVIEW" end.

Record Rule : Type := MkRule {
  id : Z; name : string; root_node : LogicalNode; action : Action; priority : Z; metadata_of : option dict }.

Record TransactionSchema : Type := Transaction {
  entity_id : Z; amount : float; timestamp : datetime; metadata : dict; country : option string }.

(** [validate_value_matches_operator], on JSON values. *)
Definition value_matches (o : Operator) (v : pyval) : bool :=
  match o with
  | GT | LT => match v with PInt _ | PFloat _ => true | _ => false end
  | CONTAINS => is_str v
  | EQ | NE => true
  end.

(** * Evaluation *)

(** The left-hand sides: a UUID, a datetime, or a JSON value. *)
Inductive lhs : Type := LUuid (u : Z) | LTime (d : datetime) | LVal (v : pyval).

Definition _transaction_field_value (t : TransactionSchema) (field_name : string) (graph_context : option dict)
    : result lhs :=
  if bool_decide (field_name = "entity_id") then Ok (LUuid t.(entity_id))
  else if bool_decide (field_name = "amount") then Ok (LVal (PFloat t.(amount)))
  else if bool_decide (field_name = "timestamp") then Ok (LTime t.(timestamp))
  else if bool_decide (field_name = "metadata") then Ok (LVal (PDict t.(metadata)))
  else if bool_decide (field_name = "country") then
    Ok (LVal (match t.(country) with Some c => PStr c | None => PNone end))
  else if bool_decide (field_name = "graph_linked_to_blocked_count") then
    match graph_context with
    | None => Ok (LVal (PInt 0))
    | Some g =>
        let! n := try_except (py_int (get g "graph_linked_to_blocked_count" (PInt 0))) is_type_or_value_error 0 in
        Ok (LVal (PInt n))
    end
  else Err ValueError.

(** [s.replace("Z", "+00:00")]. *)
Definition replace_z (s : string) : string :=
  sflat (fun c => if Ascii.eqb c "Z"%char then "+00:00" else String c EmptyString) s.

(** [==] on datetimes: a naive and an aware one are never equal. *)
Definition datetime_eqb (a b : datetime) : bool :=
  match a.(dt_offset), b.(dt_offset) with
  | Some _, Some _ => instant a =? instant b
  | None, None => a.(dt_wall) =? b.(dt_wall)
  | _, _ => false
  end.

(** [operator.eq(lhs, _normalize_eq_rhs(lhs, rhs))]. *)
Definition eq_normalized (l : lhs) (rhs : pyval) : bool :=
  match l, rhs with
  | LUuid u, PStr s => match uuid_of_string s with Some v => u =? v | None => false end
  | LUuid _, _ => false
  | LTime d, PStr s => match fromisoformat (replace_z s) with Ok d' => datetime_eqb d d' | Err _ => false end
  | LTime _, _ => false
  | LVal v, _ => py_eq v rhs
  end.

(** [operator.lt] on numbers and on strings; every other pair raises
    [TypeError], which the caller reads as false. *)
Definition num_lt (a b : pyval) : bool :=
  let z (x : pyval) := match x with PBool true => Some 1 | PBool false => Some 0 | PInt n => Some n | _ => None end in
  match a, b with
  | PFloat x, PFloat y => fltb x y
  | PFloat x, _ => match z b with Some n => match cmp_Z_float n x with Some Gt => true | _ => false end | None => false end
  | _, PFloat y => match z a with Some n => match cmp_Z_float n y with Some Lt => true | _ => false end | None => false end
  | PStr s, PStr t => String.ltb s t
  | _, _ => match z a, z b with Some n, Some m => n <? m | _, _ => false end
  end.

Definition lt_lhs (l : lhs) (rhs : pyval) : bool := match l with LVal v => num_lt v rhs | _ => false end.
Definition gt_lhs (l : lhs) (rhs : pyval) : bool := match l with LVal v => num_lt rhs v | _ => false end.

Definition _evaluate_contains (l : lhs) (rhs : string) : bool :=
  match l with
  | LVal (PStr s) => contains rhs s
  | LVal (PDict d) => contains rhs (json_dumps (DumpOpts true false true) (PDict d))
  | LVal (PList x) => contains rhs (json_dumps (DumpOpts false false true) (PList x))
  | LVal v => contains rhs (py_str v)
  | LUuid u => contains rhs (uuid_to_string u)
  | LTime d => contains rhs (isoformat " " d)
  end.

Definition _evaluate_condition (field : string) (op : Operator) (value : pyval) (t : TransactionSchema)
    (graph_context : option dict) : result bool :=
  let! l := _transaction_field_value t field graph_context in
  Ok (match op with
      | CONTAINS => match value with PStr s => _evaluate_contains l s | _ => false end
      | EQ => eq_normalized l value
      | NE => negb (eq_normalized l value)
      | GT => gt_lhs l value
      | LT => lt_lhs l value
      end).

(** Conjunctions stop at the first false child, disjunctions at the first true
    one. *)
Fixpoint evaluate_node (node : LogicalNode) (t : TransactionSchema) (g : option dict) : result bool :=
  match node with
  | ConditionNode field op value => _evaluate_condition field op value t g
  | AndNode children =>
      (fix all (l : list LogicalNode) : result bool :=
         match l with
         | [] => Ok true
         | c :: l' => let! b := evaluate_node c t g in if b then all l' else Ok false
         end) children
  | OrNode children =>
      (fix any (l : list LogicalNode) : result bool :=
         match l with
         | [] => Ok false
         | c :: l' => let! b := evaluate_node c t g in if b then Ok true else any l'
         end) children
  end.

(** A row of the evaluation trace. *)
Record trace_row : Type := Row { row_rule : string; row_name : string; row_priority : Z; row_matched : bool;
  row_action : option Action }.

Record RulesetEvaluation : Type := Evaluation {
  actions : list Action; trace : list trace_row; blocking_rule_id : option string }.

Definition rule_row (r : Rule) (matched : bool) : trace_row :=
  Row (uuid_to_string r.(id)) r.(name) r.(priority) matched (if matched then Some r.(action) else None).

Fixpoint evaluate_ordered (rules : list Rule) (t : TransactionSchema) (g : option dict) (results : list Action)
    (tr : list trace_row) : result RulesetEvaluation :=
  match rules with
  | [] => Ok (Evaluation results tr None)
  | r :: rules' =>
      let! matched := evaluate_node r.(root_node) t g in
      let tr := tr ++ [rule_row r matched] in
      if matched then
        if bool_decide (r.(action) = BLOCK) then Ok (Evaluation [BLOCK] tr (Some (uuid_to_string r.(id))))
        else evaluate_ordered rules' t g (results ++ [r.(action)]) tr
      else evaluate_ordered rules' t g results tr
  end.

Definition evaluate_ruleset_detailed (rules : list Rule) (t : TransactionSchema) (g : option dict) : result RulesetEvaluation :=
  evaluate_ordered (sort_by priority rules) t g [] [].

Definition evaluate_ruleset (rules : list Rule) (t : TransactionSchema) (g : option dict) : result (list Action) :=
  rmap actions (evaluate_ruleset_detailed rules t g).

(** Which rules need the graph fetched first. *)
Fixpoint logical_node_uses_graph_field (node : LogicalNode) : bool :=
  match node with
  | ConditionNode field _ _ => bool_decide (field = "graph_linked_to_blocked_count")
  | AndNode children | OrNode children => existsb logical_node_uses_graph_field children
  end.

Definition ruleset_needs_graph_context (rules : list Rule) : bool :=
  existsb (fun r => logical_node_uses_graph_field r.(root_node)) rules.

(** * The stored form *)

(** [Rule.model_dump(mode="json")]. *)
Fixpoint dump_node (node : LogicalNode) : pyval :=
  match node with
  | ConditionNode field op value =>
      PDict [("field", PDict [("field", PStr field)]); ("operator", PStr (operator_value op)); ("value", value)]
  | AndNode children => PDict [("children", PList (map dump_node children))]
  | OrNode children => PDict [("children", PList (map dump_node children))]
  end.

Definition dump_rule (r : Rule) : pyval :=
  PDict [("id", PStr (uuid_to_string r.(id))); ("name", PStr r.(name)); ("root_node", dump_node r.(root_node));
         ("action", PStr (action_value r.(action))); ("priority", PInt r.(priority));
         ("metadata", match r.(metadata_of) with Some m => PDict m | None => PNone end)].

(** Exactly the keys of the class. *)
Definition exact_keys (d : dict) (ks : list string) : bool := bool_decide (dict_keys d ≡ₚ ks).

Definition validate_condition (d : dict) : option LogicalNode :=
  if negb (exact_keys d ["field"; "operator"; "value"]) then None else
  match get d "field" PNone, get d "operator" PNone with
  | PDict [("field", PStr f)], PStr o =>
      match operator_of o with
      | Some op => if mem f TransactionSchemaField && value_matches op (get d "value" PNone)
                   then Some (ConditionNode f op (get d "value" PNone)) else None
      | None => None
      end
  | _, _ => None
  end.

(** [mapM] over an option-valued function, for the nested decoder. *)
Definition sequence_options {A : Type} (l : list (option A)) : option (list A) :=
  foldr (fun o acc => match o, acc with Some x, Some xs => Some (x :: xs) | _, _ => None end) (Some []) l.

(** The union [ConditionNode | AndNode | OrNode]: the two groups have the same
    fields, so a group is always read as the first of them. *)
Fixpoint validate_node (fuel : nat) (v : pyval) : option LogicalNode :=
  match fuel with
  | O => None
  | S fuel' =>
      match v with
      | PDict d =>
          match validate_condition d with
          | Some n => Some n
          | None =>
              if negb (exact_keys d ["children"]) then None
              else match get d "children" PNone with
                   | PList l =>
                       if Nat.ltb (length l) 2 then None
                       else AndNode <$> sequence_options (map (validate_node fuel') l)
                   | _ => None
                   end
          end
      | _ => None
      end
  end.

Fixpoint depth (v : pyval) : nat :=
  match v with
  | PList l => S (foldr (fun x n => Nat.max (depth x) n) 0%nat l)
  | PDict d => S (foldr (fun kv n => Nat.max (depth kv.2) n) 0%nat d)
  | _ => 1%nat
  end.

Definition action_of (s : string) : option Action :=
  head (List.filter (fun a => bool_decide (action_value a = s)) [FLAG; BLOCK; ALLOW; SHADOW_REVIEW]).

(** [Rule.model_validate(item)] on the types [model_dump] writes ([metadata] may
    be absent); Pydantic's coercions of other types are not modelled. *)
Definition validate_rule (v : pyval) : option Rule :=
  match v with
  | PDict d =>
      if negb (exact_keys d ["id"; "name"; "root_node"; "action"; "priority"; "metadata"]
               || exact_keys d ["id"; "name"; "root_node"; "action"; "priority"]) then None
      else match get d "id" PNone, get d "name" PNone, get d "action" PNone, get d "priority" PNone with
           | PStr i, PStr n, PStr a, PInt p =>
               match uuid_of_string i, validate_node (depth v) (get d "root_node" PNone), action_of a, get d "metadata" PNone with
               | Some u, Some root, Some act, PNone => if nonempty n then Some (MkRule u n root act p None) else None
               | Some u, Some root, Some act, PDict m => if nonempty n then Some (MkRule u n root act p (Some m)) else None
               | _, _, _, _ => None
               end
           | _, _, _, _ => None
           end
  | _ => None
  end.

(** * The version table *)

(** [rules_payload] is the JSON list a deploy writes. *)
Record FraudRulesVersion : Type := VersionRow {
  version : Z; is_active : bool; rules_payload : list pyval; created_at : datetime }.

(** [_rules_from_payload] on a stored list: rules that do not validate are
    skipped. *)
Definition _rules_from_payload (payload : list pyval) : list Rule :=
  filter_map (fun item => if is_dict item then validate_rule item else None) payload.

(** The legacy table [engine_rules]: [None] when the query raises, a definition
    being the value after its text is parsed, an error when that raises. *)
Definition engine_rules_fallback (definitions : option (list (result pyval))) : result (option (list Rule)) :=
  match definitions with
  | None => Ok None
  | Some defs =>
      let! ds := rmapM (fun d => d) defs in
      let out := filter_map (fun d => if is_dict d then validate_rule d else None) ds in
      Ok (if is_nil out then None else Some (sort_by priority out))
  end.

(** The active row of the highest version, its rules by priority; without one,
    the legacy rules; [None] leaves the caller its in-process demonstration
    rules. *)
Definition load_rules_from_db (rows : list FraudRulesVersion) (legacy : option (list (result pyval)))
    : result (option (list Rule)) :=
  match head (sort_by (fun r => - r.(version)) (List.filter is_active rows)) with
  | Some row => Ok (Some (sort_by priority (_rules_from_payload row.(rules_payload))))
  | None => engine_rules_fallback legacy
  end.

Definition _ast_payload_hash (payload : list pyval) : string :=
  str_take 16 (sha256_hex (json_dumps (DumpOpts true true true) (PList payload))).

(** The public fields of a row. *)
Definition version_summary (row : FraudRulesVersion) : dict :=
  [("version", PInt row.(version)); ("is_active", PBool row.(is_active));
   ("rule_count", PInt (Z.of_nat (length row.(rules_payload)))); ("created_at", PStr (isoformat "T" row.(created_at)));
   ("ast_hash", PStr (_ast_payload_hash row.(rules_payload)))].

Definition list_fraud_rules_versions (rows : list FraudRulesVersion) : list dict :=
  map version_summary (sort_by (fun r => - r.(version)) rows).

Definition get_fraud_rules_version_payload (rows : list FraudRulesVersion) (v : Z) : option dict :=
  match List.filter (fun r => r.(version) =? v) rows with
  | [] => None
  | row :: _ => Some (version_summary row ++ [("rules_payload", PList row.(rules_payload))])
  end.

Definition set_active (b : bool) (r : FraudRulesVersion) : FraudRulesVersion := 
  VersionRow r.(version) b r.(rules_payload) r.(created_at).

Definition activate_fraud_rules_version (target : Z) (rows : list FraudRulesVersion) : result (list FraudRulesVersion) :=
  if existsb (fun r => r.(version) =? target) rows
  then Ok (map (fun r => set_active (r.(version) =? target) r) rows)
  else Err (OtherError "LookupError").

Definition next_version (rows : list FraudRulesVersion) : Z :=
  match map version rows with [] => 1 | v :: vs => foldl Z.max v vs + 1 end.

(** [now] is the database's clock, the column's default. *)
Definition deploy_new_rules_version (now : datetime) (rules : list Rule) (rows : list FraudRulesVersion)
    : list FraudRulesVersion * Z :=
  let next_v := next_version rows in
  (map (set_active false) rows ++ [VersionRow next_v true (map dump_rule rules) now], next_v).

(** * The evaluation, by reference *)

Definition matches (t : TransactionSchema) (g : option dict) (r : Rule) : bool :=
  match evaluate_node r.(root_node) t g with Ok b => b | Err _ => false end.

Definition blocks (t : TransactionSchema) (g : option dict) (r : Rule) : bool :=
  matches t g r && bool_decide (r.(action) = BLOCK).

(** The rules up to and including the first that satisfies [p]. *)
Fixpoint upto {A : Type} (p : A -> bool) (l : list A) : list A :=
  match l with
  | [] => []
  | x :: l' => if p x then [x] else x :: upto p l'
  end.

(** The first blocking rule by priority decides alone; otherwise every matching
    rule contributes its action. *)
Definition reference_evaluation (rules : list Rule) (t : TransactionSchema) (g : option dict) : RulesetEvaluation :=
  let ordered := sort_by priority rules in
  let rows l := map (fun r => rule_row r (matches t g r)) l in
  match head (List.filter (blocks t g) ordered) with
  | Some r => Evaluation [BLOCK] (rows (upto (blocks t g) ordered)) (Some (uuid_to_string r.(id)))
  | None => Evaluation (map action (List.filter (matches t g) ordered)) (rows ordered) None
  end.

Lemma evaluate_ordered_spec t g rules : forall results tr,
  (forall r, r ∈ rules -> exists b, evaluate_node r.(root_node) t g = Ok b) ->
  evaluate_ordered rules t g results tr
  = Ok (match head (List.filter (blocks t g) rules) with
        | Some r => Evaluation [BLOCK] (tr ++ map (fun r => rule_row r (matches t g r)) (upto (blocks t g) rules))
                      (Some (uuid_to_string r.(id)))
        | None => Evaluation (results ++ map action (List.filter (matches t g) rules))
                    (tr ++ map (fun r => rule_row r (matches t g r)) rules) None
        end).
Proof.
  induction rules as [|r rules IH]; intros results tr Hok; simpl; [by rewrite !app_nil_r|].
  destruct (Hok r ltac:(left)) as [b Hb]. rewrite Hb. cbn [rbind].
  assert (Hm : matches t g r = b) by (unfold matches; by rewrite Hb).
  assert (Hbl : blocks t g r = b && bool_decide (r.(action) = BLOCK)) by (unfold blocks; by rewrite Hm).
  rewrite Hbl, Hm. destruct b; cbn [andb].
  - case_bool_decide as Ea; simpl; [by rewrite Hm|]. rewrite IH by (intros; apply Hok; by right).
    rewrite Hm. destruct (head _); by rewrite <- !app_assoc.
  - rewrite IH by (intros; apply Hok; by right). simpl. rewrite Hm. destruct (head _); by rewrite <- !app_assoc.
Qed.

(** C30: the ruleset is evaluated as documented: by ascending priority, the first
    matching blocking rule makes the outcome exactly BLOCK, names itself and
    ends the trace, and without one every matching rule's action is collected
    in order with a trace row for every rule. *)
Theorem ruleset_exact rules t g :
  (forall r, r ∈ rules -> exists b, evaluate_node r.(root_node) t g = Ok b) ->
  evaluate_ruleset_detailed rules t g = Ok (reference_evaluation rules t g).
Proof.
  intros Hok. unfold evaluate_ruleset_detailed, reference_evaluation. rewrite evaluate_ordered_spec.
  - by destruct (head _).
  - intros r Hr. rewrite sort_by_perm in Hr. by apply Hok.
Qed.

Definition demo_tx : TransactionSchema := Transaction 7 (litZ 5000) (DateTime 0 (Some 0)) [("channel", PStr "web")] (Some "US").
Definition over (n : Z) : LogicalNode := ConditionNode "amount" GT (PInt n).
Definition from_country (c : string) : LogicalNode := ConditionNode "country" EQ (PStr c).
Definition either_rule : Rule := MkRule 1 "either" (OrNode [over 100; from_country "XX"]) BLOCK 5 None.

Lemma ruleset_exact_witness :
  evaluate_ruleset_detailed [MkRule 2 "flag" (over 10) FLAG 9 None; either_rule] demo_tx None
  = Ok (reference_evaluation [MkRule 2 "flag" (over 10) FLAG 9 None; either_rule] demo_tx None)
  /\ evaluate_ruleset [MkRule 2 "flag" (over 10) FLAG 9 None; either_rule] demo_tx None = Ok [BLOCK].
Proof.
  split; [|vm_compute; reflexivity]. apply ruleset_exact.
  intros r [-> | ->%list_elem_of_singleton]%elem_of_cons; eexists; vm_compute; reflexivity.
Defined.

(** * Reading rules back *)

Section node_ind.
Context (P : LogicalNode -> Prop).
Hypothesis HC : forall f o v, P (ConditionNode f o v).
Hypothesis HA : forall l, Forall P l -> P (AndNode l).
Hypothesis HO : forall l, Forall P l -> P (OrNode l).

Fixpoint node_nested_ind (n : LogicalNode) : P n :=
  let go := fix go (l : list LogicalNode) : Forall P l :=
    match l with
    | [] => List.Forall_nil P
    | x :: l' => List.Forall_cons P x l' (node_nested_ind x) (go l')
    end in
  match n with
  | ConditionNode f o v => HC f o v
  | AndNode l => HA l (go l)
  | OrNode l => HO l (go l)
  end.
End node_ind.

(** What the schema accepts. *)
Fixpoint valid_node (n : LogicalNode) : bool :=
  match n with
  | ConditionNode f o v => mem f TransactionSchemaField && value_matches o v
  | AndNode l | OrNode l => negb (Nat.ltb (length l) 2) && forallb valid_node l
  end.

Definition valid_rule (r : Rule) : bool :=
  valid_node r.(root_node) && nonempty r.(name) && bool_decide (uuid_of_string (uuid_to_string r.(id)) = Some r.(id)).

(** Every disjunction made a conjunction. *)
Fixpoint as_and (n : LogicalNode) : LogicalNode :=
  match n with
  | ConditionNode f o v => ConditionNode f o v
  | AndNode l | OrNode l => AndNode (map as_and l)
  end.

Definition and_rule (r : Rule) : Rule := MkRule r.(id) r.(name) (as_and r.(root_node)) r.(action) r.(priority) r.(metadata_of).

Lemma exact_keys_self d ks : dict_keys d = ks -> exact_keys d ks = true.
Proof. intros <-. unfold exact_keys. by apply bool_decide_eq_true_2. Qed.

Lemma exact_keys_length d ks : length (dict_keys d) <> length ks -> exact_keys d ks = false.
Proof. intros H. unfold exact_keys. apply bool_decide_eq_false_2. by intros E%Permutation_length. Qed.

Lemma operator_of_value o : operator_of (operator_value o) = Some o.
Proof. by destruct o. Qed.

Lemma action_of_value a : action_of (action_value a) = Some a.
Proof. by destruct a. Qed.

Lemma depth_child x l : x ∈ l -> (depth x < depth (PList l))%nat.
Proof.
  intros H. simpl. induction l as [|y l IH]; [by apply not_elem_of_nil in H|]. simpl.
  apply elem_of_cons in H as [-> | H]; [lia|]. specialize (IH H). lia.
Qed.

Lemma sequence_map {A B} (f : A -> option B) (g : A -> B) l :
  (forall x, x ∈ l -> f x = Some (g x)) -> sequence_options (map f l) = Some (map g l).
Proof.
  induction l as [|x l IH]; intros H; simpl; [done|]. unfold sequence_options in *. simpl.
  rewrite (H x) by left. rewrite IH by (intros; apply H; by right). done.
Qed.

(** A dumped group reads back as a conjunction. *)
Lemma validate_group l fuel :
  Forall (fun n => forall fuel, valid_node n = true -> (depth (dump_node n) <= fuel)%nat ->
                   validate_node fuel (dump_node n) = Some (as_and n)) l ->
  Nat.ltb (length l) 2 = false -> forallb valid_node l = true ->
  (depth (PDict [("children", PList (map dump_node l))]) <= fuel)%nat ->
  validate_node fuel (PDict [("children", PList (map dump_node l))]) = Some (AndNode (map as_and l)).
Proof.
  intros IH Hlen Hv Hd. destruct fuel as [|fuel]; [simpl in Hd; lia|]. cbn [validate_node].
  unfold validate_condition. rewrite exact_keys_length by done. cbn [negb].
  rewrite exact_keys_self by done. cbn [negb]. change (get _ "children" PNone) with (PList (map dump_node l)). cbv iota beta.
  rewrite length_map, Hlen. rewrite map_map, (sequence_map _ as_and); [done|].
  intros n Hn. rewrite Forall_forall in IH. apply IH; [done| |].
  - rewrite forallb_forall in Hv. apply Hv. by apply list_elem_of_In.
  - assert (Hc : (depth (dump_node n) < depth (PList (map dump_node l)))%nat).
    { apply depth_child, list_elem_of_In, in_map. by apply list_elem_of_In. }
    assert ((depth (PList (map dump_node l)) < S fuel)%nat); [|lia]. eapply Nat.lt_le_trans; [|exact Hd]. simpl. lia.
Qed.

Lemma validate_dump n : forall fuel,
  valid_node n = true -> (depth (dump_node n) <= fuel)%nat -> validate_node fuel (dump_node n) = Some (as_and n).
Proof.
  induction n as [f o v|l IH|l IH] using node_nested_ind; intros fuel Hv Hd.
  - destruct fuel as [|fuel]; [simpl in Hd; lia|]. cbn [dump_node validate_node]. unfold validate_condition.
    rewrite exact_keys_self by done. cbn [negb]. simpl in Hv.
    change (get _ "field" PNone) with (PDict [("field", PStr f)]). change (get _ "operator" PNone) with (PStr (operator_value o)).
    change (get _ "value" PNone) with v. cbv iota beta. rewrite operator_of_value, Hv. done.
  - simpl in Hv. apply andb_true_iff in Hv as [Hl Hv]. apply negb_true_iff in Hl. by apply validate_group.
  - simpl in Hv. apply andb_true_iff in Hv as [Hl Hv]. apply negb_true_iff in Hl. by apply validate_group.
Qed.

Lemma validate_dump_rule r : valid_rule r = true -> validate_rule (dump_rule r) = Some (and_rule r).
Proof.
  unfold valid_rule. intros [[Hv Hn]%andb_true_iff Hu%bool_decide_eq_true]%andb_true_iff.
  unfold dump_rule, validate_rule. rewrite exact_keys_self by done. cbn [negb orb].
  set (v := PDict _). change (get _ "id" PNone) with (PStr (uuid_to_string (id r))).
  change (get _ "name" PNone) with (PStr (name r)). change (get _ "action" PNone) with (PStr (action_value (action r))).
  change (get _ "priority" PNone) with (PInt (priority r)). change (get _ "root_node" PNone) with (dump_node (root_node r)).
  cbv iota beta. rewrite Hu, action_of_value, (validate_dump (root_node r)), Hn; [|done|unfold v; simpl; lia].
  change (get _ "metadata" PNone) with (match metadata_of r with Some m => PDict m | None => PNone end).
  unfold and_rule. by destruct (metadata_of r).
Qed.

Lemma deployed_row now rules rows :
  List.filter is_active (deploy_new_rules_version now rules rows).1
  = [VersionRow (next_version rows) true (map dump_rule rules) now].
Proof.
  unfold deploy_new_rules_version. cbn [fst]. rewrite List.filter_app. simpl.
  assert (E : List.filter is_active (map (set_active false) rows) = []) by (induction rows; done). by rewrite E.
Qed.

(** Deploying rules and loading them back turns every disjunction into a
    conjunction, since the two stored forms are the same: what the engine
    evaluates after a deploy is exactly the ruleset with each OR read as AND,
    by priority. *)
Theorem reload_reads_or_as_and now rules rows legacy :
  forallb valid_rule rules = true ->
  load_rules_from_db (deploy_new_rules_version now rules rows).1 legacy
  = Ok (Some (sort_by priority (map and_rule rules))).
Proof.
  intros Hv. unfold load_rules_from_db. rewrite deployed_row. cbn [head sort_by foldr insert_by rules_payload]. do 3 f_equal.
  unfold _rules_from_payload. induction rules as [|r rules IH]; [done|]. cbn [map forallb filter_map] in *.
  apply andb_true_iff in Hv as [Hr Hv]. rewrite validate_dump_rule by done. cbn [is_dict dump_rule]. by rewrite IH.
Qed.

(** The blocking rule of the demonstration fires before the deploy and is lost
    after it. *)
Lemma reload_reads_or_as_and_witness :
  load_rules_from_db (deploy_new_rules_version (DateTime 0 None) [either_rule] []).1 None
  = Ok (Some (sort_by priority (map and_rule [either_rule])))
  /\ evaluate_ruleset [either_rule] demo_tx None = Ok [BLOCK]
  /\ evaluate_ruleset (map and_rule [either_rule]) demo_tx None = Ok [].
Proof.
  split; [|split; vm_compute; reflexivity]. apply reload_reads_or_as_and. vm_compute. reflexivity.
Defined.

Lemma all_true_children t g l :
  Forall (fun n => valid_node n = true -> evaluate_node (as_and n) t g = Ok true -> evaluate_node n t g = Ok true) l ->
  forallb valid_node l = true -> evaluate_node (AndNode (map as_and l)) t g = Ok true ->
  Forall (fun n => evaluate_node n t g = Ok true) l.
Proof.
  induction 1 as [|n l Hn Hl IH]; intros Hv H; [constructor|]. cbn [map evaluate_node] in H.
  simpl in Hv. apply andb_true_iff in Hv as [Hv1 Hv2].
  destruct (evaluate_node (as_and n) t g) as [[]|] eqn:E; try done. cbn [rbind] in H. constructor; [by apply Hn|by apply IH].
Qed.

(** A reloaded rule is only ever weaker: wherever the stored form of a valid
    rule fires, the deployed rule fired too. *)
Theorem reloaded_rule_weaker n t g :
  valid_node n = true -> evaluate_node (as_and n) t g = Ok true -> evaluate_node n t g = Ok true.
Proof.
  induction n as [f o v|l IH|l IH] using node_nested_ind; intros Hv H; [done| |]; simpl in Hv;
    apply andb_true_iff in Hv as [Hl Hv]; pose proof (all_true_children t g l IH Hv H) as Hall.
  - clear -Hall. induction Hall as [|n l Hn _ IHl]; [done|]. cbn [evaluate_node]. by rewrite Hn.
  - destruct Hall as [|n l Hn _]; [done|]. cbn [evaluate_node]. by rewrite Hn.
Qed.

Lemma reloaded_rule_weaker_witness :
  evaluate_node (OrNode [over 100; from_country "US"]) demo_tx None = Ok true.
Proof. apply reloaded_rule_weaker; vm_compute; reflexivity. Defined.

(** * Versions *)

Inductive version_op : Type := Deploy (now : datetime) (rules : list Rule) | Activate (v : Z).

Definition apply_version (rows : list FraudRulesVersion) (o : version_op) : list FraudRulesVersion :=
  match o with
  | Deploy now rules => (deploy_new_rules_version now rules rows).1
  | Activate v => match activate_fraud_rules_version v rows with Ok rows' => rows' | Err _ => rows end
  end.

(** What a version says never changes. *)
Definition contents (rows : list FraudRulesVersion) : list (Z * list pyval * datetime) :=
  map (fun r => (r.(version), r.(rules_payload), r.(created_at))) rows.

Record versions_ok (rows : list FraudRulesVersion) : Prop := {
  vo_unique : NoDup (map version rows);
  vo_active : rows <> [] -> exists r, List.filter is_active rows = [r] }.

Lemma max_above vs : forall v x, x ∈ v :: vs -> x <= foldl Z.max v vs.
Proof.
  induction vs as [|w vs IH]; intros v x H; simpl.
  - apply list_elem_of_singleton in H. lia.
  - apply elem_of_cons in H as [-> | H].
    + pose proof (IH (Z.max v w) (Z.max v w) ltac:(left)). lia.
    + apply elem_of_cons in H as [-> | H].
      * pose proof (IH (Z.max v w) (Z.max v w) ltac:(left)). lia.
      * apply IH. by right.
Qed.

Lemma next_version_fresh rows x : x ∈ map version rows -> x < next_version rows.
Proof.
  unfold next_version. destruct (map version rows) as [|v vs]; [by intros ?%not_elem_of_nil|]. intros H%max_above. lia.
Qed.

Lemma contents_set f rows : contents (map (fun r => set_active (f r) r) rows) = contents rows.
Proof. unfold contents. rewrite map_map. by apply map_ext. Qed.

Lemma versions_map f rows : map version (map (fun r => set_active (f r) r) rows) = map version rows.
Proof. rewrite map_map. by apply map_ext. Qed.

Lemma active_exactly target rows :
  NoDup (map version rows) -> existsb (fun r => r.(version) =? target) rows = true ->
  exists r, List.filter is_active (map (fun r => set_active (r.(version) =? target) r) rows) = [r].
Proof.
  induction rows as [|r rows IH]; simpl; [done|]. intros [Hr Hn]%NoDup_cons. destruct (Z.eqb_spec (version r) target) as [E|E]; simpl.
  - intros _. exists (set_active true r). f_equal.
    assert (H : forall s, s ∈ rows -> (version s =? target) = false).
    { intros s Hs. apply Z.eqb_neq. intros Es. apply Hr. rewrite E, <- Es. apply list_elem_of_In, in_map. by apply list_elem_of_In. }
    clear -H. induction rows as [|s rows IHr]; simpl; [done|]. rewrite (H s) by left. apply IHr. intros; apply H; by right.
  - by apply IH.
Qed.

Lemma apply_version_ok rows o : versions_ok rows -> versions_ok (apply_version rows o).
Proof.
  destruct o as [now rules|v]; intros [U A]; cbn [apply_version].
  - split; [|intros _; rewrite deployed_row; eauto]. unfold deploy_new_rules_version. cbn [fst].
    rewrite map_app, (versions_map (fun _ => false)). apply NoDup_app. split; [done|]. split; [|apply NoDup_singleton].
    intros x Hx%next_version_fresh ->%list_elem_of_singleton. simpl in Hx. lia.
  - unfold activate_fraud_rules_version. destruct (existsb _ rows) eqn:E; [|done]. split.
    + by rewrite (versions_map (fun r => version r =? v)).
    + intros _. by apply active_exactly.
Qed.

Lemma apply_versions_ok ops : forall rows, versions_ok rows -> versions_ok (foldl apply_version rows ops).
Proof. induction ops as [|o ops IH]; intros rows Hr; simpl; [done|]. apply IH. by apply apply_version_ok. Qed.

(** A step only ever appends to what the versions say. *)
Lemma contents_grow rows o : contents rows `prefix_of` contents (apply_version rows o).
Proof.
  destruct o as [now rules|v]; cbn [apply_version].
  - unfold deploy_new_rules_version, contents. cbn [fst]. rewrite map_app. fold (contents (map (set_active false) rows)).
    rewrite (contents_set (fun _ => false)). by apply prefix_app_r.
  - unfold activate_fraud_rules_version. destruct (existsb _ rows); [|done]. by rewrite (contents_set (fun r => version r =? v)).
Qed.

Lemma version_determines rows r s : NoDup (map version rows) -> r ∈ rows -> s ∈ rows -> version s = version r -> s = r.
Proof.
  assert (Hm : forall (x : FraudRulesVersion) l, x ∈ l -> version x ∈ map version l)
    by (intros x l H; apply list_elem_of_In, in_map; by apply list_elem_of_In).
  induction rows as [|x l IH]; intros U Hr Hs E; [by apply not_elem_of_nil in Hr|].
  simpl in U. apply NoDup_cons in U as [Hx U].
  apply elem_of_cons in Hr as [-> | Hr], Hs as [-> | Hs]; try done; [| |by apply IH];
    destruct Hx; [rewrite <- E|rewrite E]; by apply Hm.
Qed.

Lemma activated_loads rows r legacy :
  versions_ok rows -> r ∈ rows ->
  load_rules_from_db (apply_version rows (Activate r.(version))) legacy
  = Ok (Some (sort_by priority (_rules_from_payload r.(rules_payload)))).
Proof.
  intros Hok Hin. cbn [apply_version]. unfold activate_fraud_rules_version.
  assert (E : existsb (fun s => version s =? version r) rows = true).
  { apply existsb_exists. exists r. split; [by apply list_elem_of_In|apply Z.eqb_refl]. }
  rewrite E. unfold load_rules_from_db. destruct (active_exactly (version r) rows (vo_unique _ Hok) E) as [a Ha].
  rewrite Ha. cbn [sort_by foldr insert_by head]. do 4 f_equal.
  assert (Hel : a ∈ [a]) by left. rewrite <- Ha in Hel. apply filter_elem in Hel as [Hel Hact].
  apply list_elem_of_In, in_map_iff in Hel as (s & <- & Hs%list_elem_of_In). cbn in Hact |- *. apply Z.eqb_eq in Hact.
  f_equal. by apply (version_determines rows r s (vo_unique _ Hok)).
Qed.

(** The rule table is an append-only log with one live entry: whatever is
    deployed and rolled back, version numbers are unique, exactly one version is
    active once there is one, no version's rules ever change, and a rollback to
    an existing version makes its rules the ones loaded. *)
Theorem version_log ops legacy :
  let rows := foldl apply_version [] ops in
  versions_ok rows
  /\ (forall o, contents rows `prefix_of` contents (apply_version rows o))
  /\ (forall r, r ∈ rows ->
        load_rules_from_db (apply_version rows (Activate r.(version))) legacy
        = Ok (Some (sort_by priority (_rules_from_payload r.(rules_payload))))).
Proof.
  intros rows. assert (Hr : versions_ok rows) by (apply apply_versions_ok; split; [constructor|done]).
  split; [done|]. split; [apply contents_grow|]. intros r. by apply activated_loads.
Qed.

(** Two deploys and a rollback. *)
Example rolled_back :
  map (fun r => (version r, is_active r))
    (foldl apply_version [] [Deploy (DateTime 0 None) [either_rule]; Deploy (DateTime 5 None) []; Activate 1; Activate 9]) = [(1, true); (2, false)].
Proof. vm_compute. reflexivity. Qed.
