(* ===== verification/LabelStore.v ===== *)
(** The ground-truth label store: [decision_api/y_label_store.py].

    The directory of label files is a finite map from the hexadecimal token of
    the file name to what reading the file gives; a file that is written holds
    the value that was dumped.  The eleven maps of a store are indexed by
    [label_field]; the order of their keys is never observed, so a map is a
    finite map.  Label arguments are text, as the callers pass it. *)

From Stdlib Require Import ZArith Lia Ascii String Bool.
From stdpp Require Import base option list sorting strings gmap.
From S2P Require Import Prelude PyFloat PyValue Sha256 SignalResolver RuleMatch AstRules JsonRules.
Import JsonRules.Store.
Local Open Scope Z_scope.

(** * File names *)

Definition is_ascii_alnum (c : ascii) : bool :=
  let n := code c in
  ((48 <=? n) && (n <=? 57) || (65 <=? n) && (n <=? 90) || (97 <=? n) && (n <=? 122))%N.

Definition is_dot_dash (c : ascii) : bool :=
  Ascii.eqb c "."%char || Ascii.eqb c "_"%char || Ascii.eqb c "-"%char.

(** [str.isalnum] on one code point below 256: letters, digits, and the
    superscripts, fractions and ordinal signs of Latin-1. *)
Definition py_isalnum (c : ascii) : bool :=
  let n := code c in
  is_ascii_alnum c
  || existsb (N.eqb n) [170; 178; 179; 181; 185; 186; 188; 189; 190]%N
  || ((192 <=? n) && negb (n =? 215) && negb (n =? 247))%N.

Definition _SAFE_TENANT (raw : string) : bool :=
  (1 <=? str_len raw) && (str_len raw <=? 120) && all_chars (fun c => is_ascii_alnum c || is_dot_dash c) raw.

Definition is_dots (s : string) : bool := mem s ["."; ".."].

Definition slug_char (c : ascii) : ascii := if py_isalnum c || is_dot_dash c then c else "_"%char.

Definition _tenant_slug (tenant_id : string) : string :=
  let raw := strip tenant_id in
  if _SAFE_TENANT raw && negb (is_dots raw) then raw
  else
    let safe := str_take 120 (smap slug_char raw) in
    if negb (nonempty safe) || is_dots safe then "default" else safe.

(** The digest in the file name; it always matches [_HEX64]. *)
Definition _file_token (tenant_id : string) : string := sha256_hex ("tarka.y_labels:" +:+ _tenant_slug tenant_id).

(** * Records *)

Inductive label_field : Type :=
| by_trace | by_entity | why_by_trace | why_by_entity | dispute_outcome_by_trace | chargeback_class_by_trace
| label_kind_by_trace | label_source_by_trace | prior_override_id_by_trace | fp_cost_by_trace | labeled_at_by_trace.
#[export] Instance label_field_eq_dec : EqDecision label_field.
Proof. solve_decision. Defined.

Definition field_key (f : label_field) : string :=
  match f with
  | by_trace => "by_trace" | by_entity => "by_entity" | why_by_trace => "why_by_trace" | why_by_entity => "why_by_entity"
  | dispute_outcome_by_trace => "dispute_outcome_by_trace" | chargeback_class_by_trace => "chargeback_class_by_trace"
  | label_kind_by_trace => "label_kind_by_trace" | label_source_by_trace => "label_source_by_trace"
  | prior_override_id_by_trace => "prior_override_id_by_trace" | fp_cost_by_trace => "fp_cost_by_trace"
  | labeled_at_by_trace => "labeled_at_by_trace"
  end.

Definition label_fields : list label_field :=
  [by_trace; by_entity; why_by_trace; why_by_entity; dispute_outcome_by_trace; chargeback_class_by_trace;
   label_kind_by_trace; label_source_by_trace; prior_override_id_by_trace; fp_cost_by_trace; labeled_at_by_trace].

Abbreviation records := (label_field -> gmap string string).

Definition _LABEL_KINDS : list string := ["fp"; "fraud"; "other"; "promo_abuse"; "collusion"; "chargeback"].
Definition _LABEL_SOURCES : list string := ["care"; "finance"; "crm"; "evaluate"].
Definition chargeback_classes : list string := ["FRAUD"; "FRIENDLY"; "SERVICE"; "UNKNOWN"].
Definition y_values : list string := ["0"; "1"].

(** [_str_map]'s test of an entry. *)
Definition str_entry (k v : string) : bool := nonempty (strip k) && nonempty v.

(** The entries a load keeps. *)
Definition keep (f : label_field) (k v : string) : bool :=
  match f with
  | by_trace | by_entity => mem v y_values
  | label_kind_by_trace => str_entry k v && mem v _LABEL_KINDS
  | label_source_by_trace => str_entry k v && mem v _LABEL_SOURCES
  | _ => str_entry k v
  end.

Definition load_map (kp : string -> string -> bool) (raw : pyval) : gmap string string :=
  list_to_map (List.filter (fun kv => kp kv.1 kv.2) (map (fun kv => (kv.1, py_str kv.2)) (as_dict raw))).

Definition _empty_records : records := fun _ => ∅.

(** Bytes that are not UTF-8 raise past the handler. *)
Definition load_label_records (files : gmap string file_read) (tenant_id : string) : result records :=
  match files !! _file_token tenant_id with
  | Some (Document (PDict raw)) => Ok (fun f => load_map (keep f) (get raw (field_key f) PNone))
  | Some NotUtf8 => Err ValueError
  | _ => Ok _empty_records
  end.

Definition load_y_labels (files : gmap string file_read) (tenant_id : string)
    : result (gmap string string * gmap string string) :=
  let! r := load_label_records files tenant_id in Ok (r by_trace, r by_entity).

(** * Merging *)

Definition trimmed (n : nat) (v : string) : option string :=
  if nonempty (strip v) then Some (str_take n (strip v)) else None.

Definition one_of (l : list string) (token : string) : option string := if mem token l then Some token else None.

(** The value a loop stores for an argument, if any. *)
Definition accept (f : label_field) (v : string) : option string :=
  match f with
  | by_trace | by_entity => one_of y_values v
  | why_by_trace | why_by_entity => trimmed 2000 v
  | dispute_outcome_by_trace | prior_override_id_by_trace => trimmed 256 v
  | chargeback_class_by_trace => one_of chargeback_classes (upper (strip v))
  | label_kind_by_trace => one_of _LABEL_KINDS (lower (strip v))
  | label_source_by_trace => one_of _LABEL_SOURCES (lower (strip v))
  | fp_cost_by_trace => trimmed 512 v
  | labeled_at_by_trace => trimmed 64 v
  end.

(** Only the time of the first label is kept for good. *)
Definition first_write_wins (f : label_field) : bool := bool_decide (f = labeled_at_by_trace).

Definition put_one (f : label_field) (m : gmap string string) (kv : string * string) : gmap string string :=
  let key := strip kv.1 in
  match accept f kv.2 with
  | Some t => if nonempty key && negb (first_write_wins f && bool_decide (is_Some (m !! key))) then <[key := t]> m else m
  | None => m
  end.

Definition put_all (f : label_field) (items : list (string * string)) (m : gmap string string) : gmap string string :=
  foldl (put_one f) m items.

(** How many trace labels were new or changed. *)
Fixpoint count_added (items : list (string * string)) (m : gmap string string) : Z :=
  match items with
  | [] => 0
  | kv :: items' =>
      (if nonempty (strip kv.1) && mem kv.2 y_values && negb (bool_decide (m !! strip kv.1 = Some kv.2)) then 1 else 0)
      + count_added items' (put_one by_trace m kv)
  end.

(** [json.dumps(..., sort_keys=True)] of one map, as the value it denotes. *)
Definition dump_map (m : gmap string string) : pyval :=
  PDict (map (fun kv => (kv.1, PStr kv.2)) (merge_sort key_le (map_to_list m))).

Definition dump_records (r : records) : pyval := PDict (map (fun f => (field_key f, dump_map (r f))) label_fields).

Record merge_answer : Type := MergeAnswer {
  answer_tenant : string; trace_labels : Z; entity_labels : Z; updated : Z; merged : records }.

Definition merge_y_labels (files : gmap string file_read) (tenant_id : string)
    (args : label_field -> list (string * string)) : result (gmap string file_read * merge_answer) :=
  let! cur := load_label_records files tenant_id in
  let r : records := fun f => put_all f (args f) (cur f) in
  Ok (<[_file_token tenant_id := Document (dump_records r)]> files,
      MergeAnswer tenant_id (Z.of_nat (size (r by_trace))) (Z.of_nat (size (r by_entity)))
        (count_added (args by_trace) (cur by_trace)) r).

(** * What a merge leaves behind *)

(** The values accepted for a key, in argument order. *)
Definition accepted (f : label_field) (items : list (string * string)) (key : string) : list string :=
  filter_map (fun kv => if bool_decide (strip kv.1 = key) && nonempty key then accept f kv.2 else None) items.

(** The stored value of a key: the first ever for the labelling time, the last
    accepted for every other field. *)
Definition settled (f : label_field) (old : option string) (new : list string) : option string :=
  if first_write_wins f then match old with Some _ => old | None => head new end
  else match last new with Some t => Some t | None => old end.

Lemma settled_cons f old t new : settled f (settled f old [t]) new = settled f old (t :: new).
Proof.
  unfold settled. destruct (first_write_wins f); [by destruct old|]. destruct new as [|x new]; [done|].
  change (last (t :: x :: new)) with (last (x :: new)). destruct (last (x :: new)) eqn:E; [done|]. by apply last_None in E.
Qed.

Lemma lookup_if_ne (b : bool) (m : gmap string string) k key t : k <> key -> (if b then <[k := t]> m else m) !! key = m !! key.
Proof. intros H. destruct b; [by rewrite lookup_insert_ne|done]. Qed.

Lemma put_one_lookup f m kv key :
  put_one f m kv !! key
  = settled f (m !! key) (accepted f [kv] key).
Proof.
  unfold put_one, accepted, settled. cbn [filter_map]. destruct (accept f kv.2) as [t|] eqn:Ea.
  - destruct (decide (strip kv.1 = key)) as [Ek|Ek]; [rewrite (bool_decide_eq_true_2 _ Ek)|rewrite (bool_decide_eq_false_2 _ Ek)]; cbn [andb].
    + rewrite Ek. destruct (nonempty key); cbn [andb]; [|by destruct (first_write_wins f), (m !! key)].
      destruct (first_write_wins f); cbn [andb negb]; [|by rewrite lookup_insert_eq].
      case_bool_decide as Hs; cbn [negb]; [by destruct Hs as [x ->]|]. apply eq_None_not_Some in Hs. by rewrite lookup_insert_eq, Hs.
    + rewrite lookup_if_ne by done. by destruct (first_write_wins f), (m !! key).
  - destruct (_ && _); by destruct (first_write_wins f), (m !! key).
Qed.

Lemma put_all_lookup f items : forall m key, put_all f items m !! key = settled f (m !! key) (accepted f items key).
Proof.
  induction items as [|kv items IH]; intros m key; [unfold put_all, accepted, settled; simpl; by destruct (first_write_wins f), (m !! key)|].
  unfold put_all in *. cbn [foldl]. rewrite IH, put_one_lookup.
  unfold accepted. cbn [filter_map]. destruct (if bool_decide _ && _ then _ else None); [apply settled_cons|].
  f_equal. unfold settled. by destruct (first_write_wins f), (m !! key).
Qed.

(** ** The stored form *)

Definition kept (f : label_field) (m : gmap string string) : Prop := forall k v, m !! k = Some v -> keep f k v = true.

Lemma nonempty_take n s : nonempty s = true -> nonempty (str_take (S n) s) = true.
Proof. by destruct s. Qed.

Lemma accept_keep f k v t : accept f v = Some t -> nonempty k = true -> strip k = k -> keep f k t = true.
Proof.
  assert (Ht : forall n, trimmed (S n) v = Some t -> nonempty t = true).
  { intros n. unfold trimmed. destruct (nonempty (strip v)) eqn:E; [|done]. intros [= <-]. by apply nonempty_take. }
  assert (Ho : forall l w, one_of l w = Some t -> mem t l = true).
  { intros l w. unfold one_of. destruct (mem w l) eqn:E; [|done]. by intros [= <-]. }
  intros Ha Hk Es. assert (Hn : forall l, mem t l = true -> forallb nonempty l = true -> nonempty t = true).
  { intros l Hm Hl. rewrite forallb_forall in Hl. apply Hl, list_elem_of_In. by apply mem_spec. }
  destruct f; cbn [keep accept] in *; unfold str_entry; rewrite ?Es, ?Hk; cbn [andb];
    first [by eapply Ho | by eapply Ht | idtac].
  - apply Ho in Ha. by eapply Hn.
  - apply Ho in Ha. by rewrite Ha, (Hn _ Ha eq_refl).
  - apply Ho in Ha. by rewrite Ha, (Hn _ Ha eq_refl).
Qed.

Lemma put_one_kept f m kv : kept f m -> kept f (put_one f m kv).
Proof.
  intros Hm k v H. unfold put_one in H. destruct (accept f kv.2) as [t|] eqn:Ea; [|by apply Hm].
  destruct (_ && _) eqn:E; [|by apply Hm]. apply andb_true_iff in E as [En _].
  apply lookup_insert_Some in H as [[<- <-]|[_ H]]; [|by apply Hm].
  eapply accept_keep; [exact Ea|done|apply strip_idem].
Qed.

Lemma put_all_kept f items : forall m, kept f m -> kept f (put_all f items m).
Proof.
  induction items as [|kv items IH]; intros m Hm; [done|]. unfold put_all in *. cbn [foldl]. by apply IH, put_one_kept.
Qed.

Lemma load_map_kept f raw : kept f (load_map (keep f) raw).
Proof.
  intros k v H. apply elem_of_list_to_map_2 in H. by apply filter_elem in H as [_ H].
Qed.

Lemma load_records_kept files t r f : load_label_records files t = Ok r -> kept f (r f).
Proof.
  unfold load_label_records. destruct (files !! _) as [[[]| |]|]; try done; intros [= <-]; try apply load_map_kept;
    intros k v H; unfold _empty_records in H; by rewrite lookup_empty in H.
Qed.

Lemma load_dump_map f m : kept f m -> load_map (keep f) (dump_map m) = m.
Proof.
  intros Hm. unfold load_map, dump_map. cbn [as_dict]. rewrite map_map. cbn [fst snd py_str].
  rewrite (map_ext _ (fun kv => kv)) by (by intros []). rewrite map_id.
  assert (Hp : merge_sort key_le (map_to_list m) ≡ₚ map_to_list m) by apply merge_sort_Permutation.
  assert (E : List.filter (fun kv => keep f kv.1 kv.2) (merge_sort key_le (map_to_list m)) = merge_sort key_le (map_to_list m)).
  { apply forallb_filter_id, forallb_forall. intros [k v] Hin%list_elem_of_In. rewrite Hp in Hin.
    apply elem_of_map_to_list in Hin. by apply Hm. }
  rewrite E. rewrite <- (list_to_map_to_list m) at 2. apply list_to_map_proper; [|done].
  rewrite Hp. apply NoDup_fst_map_to_list.
Qed.

Lemma get_dumped r f : get (map (fun f => (field_key f, dump_map (r f))) label_fields) (field_key f) PNone = dump_map (r f).
Proof. by destruct f. Qed.

Lemma load_written files t r f :
  (forall f, kept f (r f)) ->
  exists r', load_label_records (<[_file_token t := Document (dump_records r)]> files) t = Ok r' /\ r' f = r f.
Proof.
  intros Hr. unfold load_label_records. rewrite lookup_insert_eq. unfold dump_records. eexists. split; [done|].
  cbn beta. rewrite get_dumped. by apply load_dump_map.
Qed.

(** C37: merging labels and loading them again gives exactly the merge: for every
    field and key the last accepted value wins, except that the time of the
    first label is kept for good; nothing is lost, and no file of another
    digest changes. *)
Theorem merge_labels_exact files t args r :
  load_label_records files t = Ok r ->
  exists files' ans,
    merge_y_labels files t args = Ok (files', ans)
    /\ (forall f, exists r', load_label_records files' t = Ok r' /\ r' f = ans.(merged) f)
    /\ (forall f key, ans.(merged) f !! key = settled f (r f !! key) (accepted f (args f) key))
    /\ (forall t', _file_token t' <> _file_token t -> load_label_records files' t' = load_label_records files t').
Proof.
  intros Hr. unfold merge_y_labels. rewrite Hr. cbn [rbind]. eexists _, _. split; [reflexivity|]. cbn [merged]. split; [|split].
  - intros f. apply (load_written files t (fun f => put_all f (args f) (r f))). intros g. apply put_all_kept. by eapply load_records_kept.
  - intros f key. apply put_all_lookup.
  - intros t' Ht. unfold load_label_records. by rewrite lookup_insert_ne.
Qed.

Definition demo_args (f : label_field) : list (string * string) :=
  match f with
  | by_trace => [(" t1 ", "0"); ("t1", "1"); ("t2", "maybe")]
  | labeled_at_by_trace => [("t1", "2026-01-01"); ("t1", "2026-02-01")]
  | label_kind_by_trace => [("t1", " FRAUD ")]
  | _ => []
  end.

Lemma merge_labels_exact_witness :
  exists files' ans,
    merge_y_labels ∅ "acme" demo_args = Ok (files', ans)
    /\ (ans.(merged) by_trace !! "t1", ans.(merged) labeled_at_by_trace !! "t1", ans.(merged) label_kind_by_trace !! "t1")
       = (Some "1", Some "2026-01-01", Some "fraud")
    /\ ans.(merged) by_trace !! "t2" = None.
Proof.
  assert (E0 : load_label_records ∅ "acme" = Ok _empty_records) by (unfold load_label_records; by rewrite lookup_empty).
  destruct (merge_labels_exact ∅ "acme" demo_args _empty_records E0) as (files' & ans & E & _ & H & _).
  exists files', ans. split; [done|]. rewrite !H. split; vm_compute; reflexivity.
Defined.

(** ** Tenants that share a store *)

Definition slug_ok (c : ascii) : bool := py_isalnum c || is_dot_dash c.

Lemma slug_char_ok c : slug_ok (slug_char c) = true.
Proof. unfold slug_char. destruct (py_isalnum c || is_dot_dash c) eqn:E; [exact E|done]. Qed.

Lemma slug_char_id c : slug_ok c = true -> slug_char c = c.
Proof. unfold slug_char, slug_ok. by intros ->. Qed.

Lemma slug_ok_not_space c : slug_ok c = true -> negb (is_space c) = true.
Proof.
  intros H. assert (Hi : implb (slug_ok c) (negb (is_space c)) = true).
  { revert c H. intros c _. revert c. apply all_ascii. vm_compute. reflexivity. }
  by rewrite H in Hi.
Qed.

Lemma all_chars_smap p f s : (forall c, p (f c) = true) -> all_chars p (smap f s) = true.
Proof. intros H. induction s as [|c s IH]; simpl; [done|]. by rewrite H, IH. Qed.

Lemma all_chars_take p n : forall s, all_chars p s = true -> all_chars p (str_take n s) = true.
Proof.
  induction n as [|n IH]; intros [|c s] H; try done. simpl in *. apply andb_true_iff in H as [Hc H].
  rewrite Hc. by apply IH.
Qed.

Lemma smap_id_on (p : ascii -> bool) f s : (forall c, p c = true -> f c = c) -> all_chars p s = true -> smap f s = s.
Proof.
  intros Hf. induction s as [|c s IH]; simpl; [done|]. intros [Hc H]%andb_true_iff. by rewrite Hf, IH.
Qed.

Lemma take_take n : forall s, str_take n (str_take n s) = str_take n s.
Proof. induction n as [|n IH]; intros [|c s]; try done. unfold str_take in *. simpl. by rewrite IH. Qed.

Lemma slug_fixed safe :
  all_chars slug_ok safe = true -> str_take 120 safe = safe -> nonempty safe = true -> is_dots safe = false ->
  _tenant_slug safe = safe.
Proof.
  intros Hc Ht Hn Hd. unfold _tenant_slug. rewrite strip_id by (eapply all_chars_impl; [|exact Hc]; apply slug_ok_not_space).
  rewrite Hd. destruct (_SAFE_TENANT safe); [done|]. cbn [andb]. rewrite (smap_id_on slug_ok) by (done || apply slug_char_id).
  by rewrite Ht, Hn, Hd.
Qed.

Lemma slug_idem t : _tenant_slug (_tenant_slug t) = _tenant_slug t.
Proof.
  unfold _tenant_slug at 2 3. destruct (_SAFE_TENANT (strip t) && negb (is_dots (strip t))) eqn:E.
  - unfold _tenant_slug. by rewrite strip_idem, E.
  - set (safe := str_take 120 (smap slug_char (strip t))). destruct (negb (nonempty safe) || is_dots safe) eqn:Ed; [done|].
    apply orb_false_iff in Ed as [Hn%negb_false_iff Hd]. apply slug_fixed; [|apply take_take|done|done].
    apply all_chars_take, all_chars_smap, slug_char_ok.
Qed.

(** Tenants are not kept apart: a tenant's labels are the labels of the
    tenant named by its sanitised id, so two tenants whose ids differ only in
    characters that are replaced read and overwrite each other's labels. *)
Theorem tenants_share_labels files t args :
  load_label_records files t = load_label_records files (_tenant_slug t)
  /\ rmap fst (merge_y_labels files t args) = rmap fst (merge_y_labels files (_tenant_slug t) args).
Proof.
  assert (E : _file_token (_tenant_slug t) = _file_token t) by (unfold _file_token; by rewrite slug_idem).
  assert (El : load_label_records files t = load_label_records files (_tenant_slug t)) by (unfold load_label_records; by rewrite E).
  split; [done|]. unfold merge_y_labels. rewrite <- El, E. by destruct (load_label_records files t).
Qed.

(** Three different tenants, one store. *)
Example shared_slug : map _tenant_slug ["acme corp"; "acme/corp"; "acme_corp"; "acme"; ".."] = ["acme_corp"; "acme_corp"; "acme_corp"; "acme"; "default"].
Proof. vm_compute. reflexivity. Qed.
