(* ===== verification/Promotion.v ===== *)
(** Promotion gates: the champion and challenger audit and its gates
    ([decision_api/champion_challenger_audit.py]), the calibration window
    ([decision_api/calibration_window.py]), the leftover gate and the desk gate
    ([decision_api/leftover_promote_gate.py]), the backtest gate
    ([decision_api/backtest_promote_gate.py], with the kill criteria of
    [decision_api/vertical_packs.py]) and the label posture of
    [decision_api/label_join.py].

    A gate is a record of the fields that decide and that are read again; schema
    ids and explanatory notes are left out.  The complementary error function of
    [math] is the parameter [erfc]. *)

From Stdlib Require Import ZArith Lia Ascii String Bool SpecFloat.
From stdpp Require Import base option list sorting strings gmap.
From S2P Require Import Prelude PyFloat PyValue PyDateTime Sha256 SignalResolver RuleMatch AstRules JsonRules LabelStore.
Local Open Scope Z_scope.

Definition no_items {A : Type} (l : list A) : bool := match l with [] => true | _ => false end.

(** What every gate answers. *)
Record gate : Type := Gate { promote_allowed : bool; blockers : list string }.

Definition gate_of (bs : list string) : gate := Gate (no_items bs) bs.

(** [if b: [x]]. *)
Definition block_if (b : bool) (x : string) : list string := if b then [x] else [].

(** [if b and b not in seen], in order. *)
Fixpoint dedupe (seen bs : list string) : list string :=
  match bs with
  | [] => []
  | b :: bs' => if nonempty b && negb (mem b seen) then b :: dedupe (b :: seen) bs' else dedupe seen bs'
  end.

(** * Champion and challenger *)

Record cc_row : Type := CcRow {
  cc_trace : string; cc_entity : string; champion_decision : string; challenger_decision : string; decisions_agree : bool }.

Definition extract_policy_routing (payload_snapshot : pyval) : option dict :=
  match payload_snapshot with
  | PDict d => match get d "policy_routing" PNone with PDict pr => Some pr | _ => None end
  | _ => None
  end.

Definition norm (v : pyval) : string := lower (strip (str_or_empty v)).

(** The routing block of an audit row. *)
Definition row_routing (item : dict) : option dict :=
  match (if has_key item "champion_decision" then get item "policy_routing" PNone else PNone) with
  | PNone => extract_policy_routing (get item "payload_snapshot" PNone)
  | PDict pr => Some pr
  | _ => None
  end.

(** A row takes part when it is a mapping with both decisions. *)
Definition cc_row_of (item : pyval) : option cc_row :=
  match item with
  | PDict d =>
      match row_routing d with
      | Some pr =>
          let champ := norm (get pr "champion_decision" PNone) in
          let chall := norm (get pr "challenger_decision" PNone) in
          if negb (nonempty champ) || negb (nonempty chall) then None
          else Some (CcRow (str_or_empty (get d "trace_id" PNone)) (str_or_empty (get d "entity_id" PNone)) champ chall
                       (if has_key pr "decisions_agree" then truthy (get pr "decisions_agree" PNone)
                        else bool_decide (champ = chall)))
      | None => None
      end
  | _ => None
  end.

Definition mapped_cc_decision_rows (audits : list pyval) : list cc_row := filter_map cc_row_of audits.

Record cc_audit : Type := CcAudit {
  rows_with_policy_routing : Z;
  decisions_agree_count : Z;
  decision_agreement_rate : option float;
  b_champion_allow_challenger_stricter : Z;
  c_challenger_allow_champion_stricter : Z }.

Definition is_allow (s : string) : bool := bool_decide (s = "allow").
Definition challenger_stricter (r : cc_row) : bool := is_allow r.(champion_decision) && negb (is_allow r.(challenger_decision)).
Definition champion_stricter (r : cc_row) : bool := is_allow r.(challenger_decision) && negb (is_allow r.(champion_decision)).

Definition count {A : Type} (p : A -> bool) (l : list A) : Z := Z.of_nat (length (List.filter p l)).

(** [a / n] on integers, for a positive [n]. *)
Definition ratio (a n : Z) : float := f_of_ratio a (Z.to_pos n).

(** The first fifty rows the source also returns are for display. *)
Definition aggregate_champion_challenger (audits : list pyval) : cc_audit :=
  let rows := filter_map cc_row_of audits in
  let n := Z.of_nat (length rows) in
  let agree := count decisions_agree rows in
  CcAudit n agree (if n =? 0 then None else Some (f_round (ratio agree n) 4))
    (count challenger_stricter rows) (count champion_stricter rows).

(** * McNemar's test *)

(** [math.comb], by the rows of Pascal's triangle. *)
Fixpoint add_shifted (prev : Z) (row : list Z) : list Z :=
  match row with
  | [] => [prev]
  | x :: row' => (prev + x) :: add_shifted x row'
  end.

Fixpoint pascal_row (n : nat) : list Z :=
  match n with
  | O => [1]
  | S n' => add_shifted 0 (pascal_row n')
  end.

Definition comb (n k : nat) : Z := nth k (pascal_row n) 0.

Example comb_ex : map (comb 5) (seq 0 7) = [1; 5; 10; 10; 5; 1; 0].
Proof. reflexivity. Qed.

Definition comb_sum (n k : nat) : Z := foldr Z.add 0 (map (comb n) (seq 0 (S k))).

Record mcnemar_stats : Type := Stats { p_value : option float; mid_p : option float; method : string; n_discordant : Z }.

Section Mcnemar.
Context (erfc : float -> float).

Definition mcnemar_pvalue (b c : Z) : result mcnemar_stats :=
  let bb := Z.max 0 b in
  let cc := Z.max 0 c in
  let n := bb + cc in
  if n =? 0 then Ok (Stats None None "empty" 0)
  else if n <? 25 then
    let k := Z.min bb cc in
    let denom := Z.shiftl 1 n in
    let p_one := ratio (comb_sum (Z.to_nat n) (Z.to_nat k)) denom in
    let even := k * 2 =? n in
    let p := if even then litZ 1 else fmin (litZ 1) (fmul (litZ 2) p_one) in
    let p_obs := ratio (comb (Z.to_nat n) (Z.to_nat k)) denom in
    let mid := if even then litZ 1 else fmin (litZ 1) (fmax (litZ 0) (fsub p p_obs)) in
    Ok (Stats (Some (f_round p 6)) (Some (f_round mid 6)) "exact_binomial" n)
  else
    let! num := f_of_Z ((Z.abs (bb - cc) - 1) * (Z.abs (bb - cc) - 1)) in
    let! den := f_of_Z n in
    let! chi2 := fdiv num den in
    let! half := fdiv chi2 (litZ 2) in
    let p := erfc (SFsqrt prec emax half) in
    let v := Some (f_round (fmin (litZ 1) (fmax (litZ 0) p)) 6) in
    Ok (Stats v v "chi2_continuity" n).

Definition mcnemar_promote_gate (audit : cc_audit) (min_discordant_pairs : Z) (alpha : float) (require_significance : bool)
    : result gate :=
  let b := audit.(b_champion_allow_challenger_stricter) in
  let c := audit.(c_challenger_allow_champion_stricter) in
  let! stats := mcnemar_pvalue b c in
  let p_gate := match stats.(mid_p) with Some p => Some p | None => stats.(p_value) end in
  Ok (gate_of
    (block_if (audit.(rows_with_policy_routing) <? 1) "no_champion_challenger_rows"
     ++ block_if (b + c <? min_discordant_pairs) ("discordant_pairs<" +:+ Z_to_string min_discordant_pairs)
     ++ (if require_significance then
           match p_gate with
           | None => ["mcnemar_p_unavailable"]
           | Some p => block_if (fleb alpha p) ("mcnemar_mid_p>=" +:+ f_repr alpha)
           end
         else []))).

(** With the defaults the desk uses. *)
Definition mcnemar_default (audit : cc_audit) : result gate := mcnemar_promote_gate audit 20 (lit 5 100) true.
End Mcnemar.

(** * Labels, drift and the calibration window *)

(** [label_coverage_posture], as the mapping the gate reads. *)
Definition label_coverage_posture (label_coverage min_coverage : float) (proxy_only : bool) : dict :=
  let bad := proxy_only || fltb label_coverage min_coverage in
  [("healthy", PBool (negb bad)); ("status", PStr (if bad then "insufficient_labels" else "ok"));
   ("label_coverage", PFloat label_coverage); ("min_coverage", PFloat min_coverage)].

Definition kill_blockers (kill_gate : option gate) : list string :=
  match kill_gate with
  | None => []
  | Some k => if k.(promote_allowed) then []
              else k.(blockers) ++ block_if (no_items k.(blockers)) "kill_criteria_blocked"
  end.

Definition label_gated_promote (label_posture : dict) (kill_gate : option gate) : gate :=
  gate_of (dedupe []
    (block_if (negb (truthy (get label_posture "healthy" PNone)))
       (py_str (por (get label_posture "status" PNone) (PStr "insufficient_labels")))
     ++ block_if (eq_str (get label_posture "label_source" PNone) "proxy_from_decision") "proxy_labels_only"
     ++ kill_blockers kill_gate)).

(** [float(psi)] when it converts. *)
Definition psi_of (v : pyval) : result (option float) :=
  match v with
  | PNone => Ok None
  | _ => try_except (rmap Some (py_float v)) is_type_or_value_error None
  end.

Definition drift_promote_gate (drift : pyval) (block_elevated : bool) (max_psi : float) : result gate :=
  let d := as_dict drift in
  let! psi := psi_of (get d "psi" PNone) in
  Ok (gate_of
    (block_if (block_elevated && bool_decide (str_or_empty (get d "hint" PNone) = "elevated_bin_shift_review_calibration"))
       "calibration_drift_elevated"
     ++ match psi with Some x => block_if (fltb max_psi x) ("psi>" +:+ f_repr max_psi) | None => [] end)).

(** Environment numbers: blank or unreadable text gives the default. *)
Definition _env_int (raw : string) (dflt : Z) : Z :=
  if negb (nonempty (strip raw)) then dflt else match Z_of_string (strip raw) with Ok n => n | Err _ => dflt end.

Definition _env_float (raw : string) (dflt : float) : float :=
  if negb (nonempty (strip raw)) then dflt else match f_of_string (strip raw) with Ok x => x | Err _ => dflt end.

Record window_env : Type := WindowEnv {
  TARKA_CALIBRATION_MIN_DAYS : string; TARKA_CALIBRATION_MIN_LABELS : string; TARKA_CALIBRATION_MAX_FP : string }.

Definition resolve_window_limits (e : window_env) : Z * Z * float :=
  (Z.max 0 (_env_int e.(TARKA_CALIBRATION_MIN_DAYS) 7), Z.max 0 (_env_int e.(TARKA_CALIBRATION_MIN_LABELS) 20),
   fmax (litZ 0) (_env_float e.(TARKA_CALIBRATION_MAX_FP) (lit 5 100))).

(** [(now - first).days], a naive reading counting as UTC. *)
Definition days_between (now first : datetime) : Z := Z.max 0 ((instant now - instant first) / day_us).

Definition calibration_window (e : window_env) (first_label_at : option datetime) (label_count : Z) (fp_rate : option float)
    (now : datetime) : gate :=
  let '(days_lim, labels_lim, fp_lim) := resolve_window_limits e in
  gate_of
    (block_if (match first_label_at with None => 0 <? days_lim | Some first => days_between now first <? days_lim end)
       "window_open"
     ++ block_if (label_count <? labels_lim) "thin_labels"
     ++ match fp_rate with Some rate => block_if (fltb fp_lim rate) "fp_above_cap" | None => [] end).

Definition WINDOW_BLOCKERS : list string := ["window_open"; "thin_labels"; "fp_above_cap"].

Definition can_override_calibration_window (roles : list string) (reason : string) : bool :=
  if str_len (strip reason) <? 8 then false
  else let have := map strip roles in mem "RiskArchitect" have || mem "admin" have.

Definition apply_window_override (desk window : gate) (reason : string) (roles : list string) : gate * bool :=
  if window.(promote_allowed) then (desk, false)
  else if negb (can_override_calibration_window roles reason) then (desk, false)
  else (gate_of (List.filter (fun b => negb (mem b WINDOW_BLOCKERS)) desk.(blockers)), true).

(** * Leftovers *)

Definition MINTING : list string := ["deny"; "review"].

Definition extra_review_or_deny_rows (rows : list cc_row) : list cc_row :=
  List.filter (fun r =>
    let champ := lower (strip r.(champion_decision)) in
    let chall := lower (strip r.(challenger_decision)) in
    nonempty champ && nonempty chall && negb (mem champ MINTING) && mem chall MINTING) rows.

Definition extra_leftover_mint_count (extras : list cc_row) (mint_on : bool) : Z :=
  if mint_on then Z.of_nat (length extras) else 0.

Record labels : Type := Labels { label_by_trace : gmap string string; label_by_entity : gmap string string }.

(** The label of a row: by trace, else by entity. *)
Definition row_label (ls : labels) (r : cc_row) : option string :=
  let tid := strip r.(cc_trace) in
  let eid := strip r.(cc_entity) in
  match (if nonempty tid then ls.(label_by_trace) !! tid else None) with
  | Some l => Some l
  | None => if nonempty eid then ls.(label_by_entity) !! eid else None
  end.

Record helpfulness : Type := Helpfulness {
  labeled_extras : Z; extra_tp : Z; extra_fp : Z; fp_rate : option float; underpowered : bool; help_blockers : list string }.

(** The loop over the extras: labelled, true and false positives. *)
Fixpoint tally (ls : labels) (extras : list cc_row) (acc : Z * Z * Z) : Z * Z * Z :=
  match extras with
  | [] => acc
  | r :: extras' =>
      let '(n, tp, fp) := acc in
      tally ls extras'
        (match row_label ls r with
         | Some l => if bool_decide (l = "1") then (n + 1, tp + 1, fp)
                     else if bool_decide (l = "0") then (n + 1, tp, fp + 1) else acc
         | None => acc
         end)
  end.

Definition leftover_helpfulness (extras : list cc_row) (ls : labels) (min_labeled_extras : Z) (fp_rate_cap : float)
    : helpfulness :=
  let '(n, tp, fp) := tally ls extras (0, 0, 0) in
  let rate := if n =? 0 then None else Some (ratio fp n) in
  let under := n <? min_labeled_extras in
  Helpfulness n tp fp (match rate with Some x => Some (f_round x 4) | None => None end) under
    (block_if (negb under && match rate with Some x => fltb fp_rate_cap x | None => false end) "leftover_extras_fp_over_cap"
     ++ block_if (negb under && (tp =? 0) && (min_labeled_extras <=? fp)) "leftover_extras_no_lift").

Definition ack_is_valid (ack : option dict) (claimers : list string) : bool :=
  match ack with
  | None | Some [] => false
  | Some a =>
      let who := strip (str_or_empty (get a "acked_by" PNone)) in
      nonempty who && mem who (List.filter nonempty (map strip claimers))
  end.

(** [row.get(...)] on a row of the answer. *)
Definition need_dict (v : pyval) : result dict := match v with PDict d => Ok d | _ => Err AttributeError end.

(** Breached rows and distinct claimers. *)
Fixpoint scan_leftovers (rows : list pyval) (sla_n : Z) (claimers : list string) : result (Z * list string) :=
  match rows with
  | [] => Ok (sla_n, claimers)
  | v :: rows' =>
      let! row := need_dict v in
      let sla_n := if truthy (get row "sla_breached" PNone) then sla_n + 1 else sla_n in
      let who := strip (str_or_empty (get row "claimed_by" PNone)) in
      scan_leftovers rows' sla_n (if nonempty who && negb (mem who claimers) then claimers ++ [who] else claimers)
  end.

Fixpoint add_missing (bs : list string) (new : list string) : list string :=
  match new with
  | [] => bs
  | b :: new' => add_missing (if mem b bs then bs else bs ++ [b]) new'
  end.

Record leftover_gate : Type := LeftoverGate {
  lg_gate : gate; extra_leftover_mint : Z; sla_breached_count : Z; leftover_count : Z; claimers : list string;
  lg_helpfulness : helpfulness }.

Definition leftover_promote_gate (leftovers : option (list pyval)) (extras : list cc_row) (mint_on : bool) (add_cap : Z)
    (help : helpfulness) (ack : option dict) : result leftover_gate :=
  let! (sla_n, who) := scan_leftovers (default [] leftovers) 0 [] in
  let mint_n := extra_leftover_mint_count extras mint_on in
  let bs :=
    block_if (match leftovers with None => true | _ => false end) "leftover_queue_unavailable"
    ++ block_if (negb (sla_n =? 0)) "leftover_sla_breached"
    ++ block_if (add_cap <? mint_n) "leftover_add_over_cap"
    ++ block_if (negb (no_items who) && negb (ack_is_valid ack who)) "leftover_claimer_ack_required" in
  Ok (LeftoverGate (gate_of (add_missing bs help.(help_blockers))) mint_n sla_n (Z.of_nat (length (default [] leftovers)))
        who help).

Definition _desk_promote_from_parts (parts : list gate) : gate := gate_of (dedupe [] (concat (map blockers parts))).

(** * Backtests *)

Definition number (v : pyval) : result float := py_float (por v (PFloat (litZ 0))).

(** [criteria.get("max_false_positive_rate")], when set. *)
Definition fpr_above (criteria : dict) (fpr : float) : result bool :=
  match get criteria "max_false_positive_rate" PNone with
  | PNone => Ok false
  | v => let! m := py_float v in Ok (fltb m fpr)
  end.

Definition _DEFAULT_KILL : dict :=
  [("min_events", PInt 100); ("min_precision", PFloat (lit 1 100)); ("min_recall", PFloat (lit 1 100));
   ("max_false_positive_rate", PFloat (lit 95 100))].

(** [kill or _DEFAULT_KILL]: an empty mapping is the default too. *)
Definition criteria_of (kill : option dict) : dict := match kill with Some (kv :: d) => kv :: d | _ => _DEFAULT_KILL end.

Definition evaluate_kill_criteria (metrics : dict) (kill : option dict) (events_evaluated : Z) : result gate :=
  let criteria := criteria_of kill in
  let! precision := number (get metrics "precision" PNone) in
  let! recall := number (get metrics "recall" PNone) in
  let! fpr := number (por (get metrics "false_positive_rate" PNone) (get metrics "fpr" PNone)) in
  let! min_events := py_int (por (get criteria "min_events" PNone) (PInt 100)) in
  let! min_precision := number (get criteria "min_precision" PNone) in
  let! min_recall := number (get criteria "min_recall" PNone) in
  let! above := fpr_above criteria fpr in
  Ok (gate_of
    (block_if (events_evaluated <? min_events) ("events_evaluated<" +:+ Z_to_string min_events)
     ++ block_if (fltb precision min_precision) "precision_below_min"
     ++ block_if (fltb recall min_recall) "recall_below_min"
     ++ block_if above "false_positive_rate_above_max")).

Definition metrics_from_backtest (metrics_json : pyval) : result (dict * Z) :=
  let m := as_dict metrics_json in
  let! rows := py_int (por (get m "rows_processed" PNone) (PInt 0)) in
  let! precision := number (get m "precision" PNone) in
  let! recall := number (get m "recall" PNone) in
  let! fpr := number (get m "false_positive_rate" PNone) in
  let! f1 := number (get m "f1_score" PNone) in
  Ok ([("precision", PFloat precision); ("recall", PFloat recall); ("false_positive_rate", PFloat fpr);
       ("f1_score", PFloat f1); ("events_evaluated", PInt rows);
       ("decision_agreement_rate", get m "decision_agreement_rate" PNone); ("true_positives", get m "true_positives" PNone);
       ("false_positives", get m "false_positives" PNone); ("false_negatives", get m "false_negatives" PNone)], rows).

(** The verdict, and whether the gate was waived. *)
Definition backtest_before_promote_gate (job_status : string) (metrics_json : pyval) (kill_criteria : option dict)
    (require_job : bool) (job_id : string) : result (gate * bool) :=
  if negb (nonempty (strip job_id)) then
    if require_job then Ok (gate_of ["backtest_job_id_required"], false) else Ok (gate_of [], true)
  else
    let status := lower (strip job_status) in
    if negb (bool_decide (status = "succeeded"))
    then Ok (gate_of ["backtest_status_not_succeeded:" +:+ str_or status "missing"], false)
    else
      let! (metrics, rows) := metrics_from_backtest metrics_json in
      let! kill := evaluate_kill_criteria metrics kill_criteria rows in
      let bs := if kill.(promote_allowed) then []
                else kill.(blockers) ++ block_if (no_items kill.(blockers)) "backtest_kill_criteria_blocked" in
      Ok (gate_of bs, false).

(** * What the gates decide *)

Lemma no_items_app {A : Type} (l m : list A) : no_items (l ++ m) = no_items l && no_items m.
Proof. by destruct l. Qed.

Lemma no_items_block b x : no_items (block_if b x) = negb b.
Proof. by destruct b. Qed.

Lemma no_items_true {A : Type} (l : list A) : no_items l = true <-> l = [].
Proof. by destruct l. Qed.

#[export] Hint Rewrite @no_items_app no_items_block : gates.

(** ** McNemar *)

(** The test that the significance blocker makes. *)
Definition significant (stats : mcnemar_stats) (alpha : float) : bool :=
  match (match stats.(mid_p) with Some p => Some p | None => stats.(p_value) end) with
  | None => false
  | Some p => negb (fleb alpha p)
  end.

Lemma mcnemar_allowed erfc audit m alpha stats g :
  mcnemar_pvalue erfc audit.(b_champion_allow_challenger_stricter) audit.(c_challenger_allow_champion_stricter) = Ok stats ->
  mcnemar_promote_gate erfc audit m alpha true = Ok g ->
  g.(promote_allowed)
  = (1 <=? audit.(rows_with_policy_routing))
    && (m <=? audit.(b_champion_allow_challenger_stricter) + audit.(c_challenger_allow_champion_stricter))
    && significant stats alpha.
Proof.
  intros Es Hg. unfold mcnemar_promote_gate in Hg. rewrite Es in Hg. cbn [rbind] in Hg. apply Ok_inj in Hg. subst g.
  unfold gate_of. cbn [promote_allowed]. autorewrite with gates. rewrite <- !Z.leb_antisym, <- andb_assoc. do 2 f_equal.
  unfold significant. destruct (match mid_p stats with Some _ => _ | None => _ end); [|done]. apply no_items_block.
Qed.

Lemma mcnemar_pvalue_sym erfc b c : mcnemar_pvalue erfc b c = mcnemar_pvalue erfc c b.
Proof.
  unfold mcnemar_pvalue. rewrite (Z.add_comm (Z.max 0 c)), (Z.min_comm (Z.max 0 c)).
  replace (Z.abs (Z.max 0 c - Z.max 0 b)) with (Z.abs (Z.max 0 b - Z.max 0 c)) by lia. done.
Qed.

(** The verdict of the exact test on every pair of counts with 20 to 24
    discordant rows. *)
Definition exact_rule (b c : Z) : bool := Z.min b c <=? (b + c) / 2 - 5.

Definition exact_pairs : list (Z * Z) :=
  concat (map (fun n => map (fun k => (Z.of_nat k, Z.of_nat (n - k))) (seq 0 (S n))) (seq 20 5)).

Lemma exact_pairs_elem b c : 0 <= b -> 0 <= c -> 20 <= b + c < 25 -> (b, c) ∈ exact_pairs.
Proof.
  intros Hb Hc Hn. apply list_elem_of_In, in_concat.
  exists (map (fun k => (Z.of_nat k, Z.of_nat (Z.to_nat (b + c) - k))) (seq 0 (S (Z.to_nat (b + c))))). split.
  - apply (in_map (fun n => map (fun k => (Z.of_nat k, Z.of_nat (n - k))) (seq 0 (S n)))). apply in_seq. lia.
  - apply in_map_iff. exists (Z.to_nat b). split; [|apply in_seq; lia]. f_equal; lia.
Qed.

Lemma exact_table erfc b c :
  0 <= b -> 0 <= c -> 20 <= b + c < 25 ->
  exists stats, mcnemar_pvalue erfc b c = Ok stats /\ significant stats (lit 5 100) = exact_rule b c.
Proof.
  intros Hb Hc Hn.
  assert (H : forallb (fun p => match mcnemar_pvalue (fun x => x) p.1 p.2 with
                                | Ok s => Bool.eqb (significant s (lit 5 100)) (exact_rule p.1 p.2) | Err _ => false end)
                exact_pairs = true) by (vm_compute; reflexivity).
  rewrite forallb_forall in H. specialize (H (b, c)). cbn [fst snd] in H.
  assert (E : mcnemar_pvalue erfc b c = mcnemar_pvalue (fun x => x) b c).
  { unfold mcnemar_pvalue. destruct (_ =? 0); [done|]. destruct (Z.ltb_spec (Z.max 0 b + Z.max 0 c) 25); [done|lia]. }
  rewrite E. destruct (mcnemar_pvalue (fun x => x) b c) as [s|]; [|by discriminate H; apply list_elem_of_In, exact_pairs_elem].
  exists s. split; [done|]. apply Bool.eqb_prop, H. by apply list_elem_of_In, exact_pairs_elem.
Qed.

(** On fewer than 25 discordant rows the McNemar gate opens exactly when there
    are at least 20 of them and the smaller side is at most half of them less
    five (with any audited row at all); and it never depends on which of the
    two policies was the stricter one. *)
Theorem mcnemar_gate_exact erfc audit :
  let b := audit.(b_champion_allow_challenger_stricter) in
  let c := audit.(c_challenger_allow_champion_stricter) in
  1 <= audit.(rows_with_policy_routing) -> 0 <= b -> 0 <= c -> b + c < 25 ->
  exists g, mcnemar_default erfc audit = Ok g
    /\ (g.(promote_allowed) = true <-> 20 <= b + c /\ Z.min b c <= (b + c) / 2 - 5)
    /\ mcnemar_default erfc (CcAudit audit.(rows_with_policy_routing) audit.(decisions_agree_count)
                               audit.(decision_agreement_rate) c b) = Ok g.
Proof.
  intros b c Hr Hb Hc Hn.
  assert (Hs : exists stats, mcnemar_pvalue erfc b c = Ok stats /\ (20 <= b + c -> significant stats (lit 5 100) = exact_rule b c)).
  { destruct (Z.leb_spec 20 (b + c)) as [Hl|Hl].
    - destruct (exact_table erfc b c Hb Hc ltac:(lia)) as (s & E & Hs). by exists s.
    - unfold mcnemar_pvalue. destruct (_ =? 0); [eexists; split; [done|lia]|].
      destruct (Z.ltb_spec (Z.max 0 b + Z.max 0 c) 25); [|lia]. eexists; split; [done|lia]. }
  destruct Hs as (stats & Es & Hs). unfold mcnemar_default.
  destruct (mcnemar_promote_gate erfc audit 20 (lit 5 100) true) as [g|e] eqn:Eg;
    [|unfold mcnemar_promote_gate in Eg; fold b c in Eg; by rewrite Es in Eg].
  exists g. split; [done|]. split.
  - rewrite (mcnemar_allowed _ _ _ _ _ _ Es Eg), !andb_true_iff, !Z.leb_le. fold b c. unfold exact_rule in Hs. split.
    + intros [[_ H20] Hsig]. split; [done|]. rewrite Hs in Hsig by done. by apply Z.leb_le.
    + intros [H20 Hmin]. split; [done|]. rewrite Hs by done. by apply Z.leb_le.
  - rewrite <- Eg. unfold mcnemar_promote_gate. cbn [b_champion_allow_challenger_stricter c_challenger_allow_champion_stricter
      rows_with_policy_routing]. fold b c. by rewrite mcnemar_pvalue_sym, (Z.add_comm c b).
Qed.

Lemma mcnemar_gate_exact_witness :
  exists g, mcnemar_default (fun x => x) (CcAudit 40 20 None 15 5) = Ok g /\ g.(promote_allowed) = true.
Proof.
  destruct (mcnemar_gate_exact (fun x => x) (CcAudit 40 20 None 15 5) ltac:(cbn; lia) ltac:(cbn; lia) ltac:(cbn; lia)
    ltac:(cbn; lia)) as (g & E & H & _).
  exists g. split; [done|]. apply H. split; apply Z.leb_le; reflexivity.
Defined.

(** ** Leftovers *)

(** The claimer a row names, if any. *)
Definition claimer (v : pyval) : string := strip (str_or_empty (get (as_dict v) "claimed_by" PNone)).
Definition breached (v : pyval) : bool := truthy (get (as_dict v) "sla_breached" PNone).

Lemma scan_spec rows : forall sla who sla' who',
  scan_leftovers rows sla who = Ok (sla', who') ->
  sla' = sla + count breached rows
  /\ (forall x, x ∈ who' <-> x ∈ who \/ (nonempty x = true /\ exists v, v ∈ rows /\ claimer v = x)).
Proof.
  induction rows as [|v rows IH]; intros sla who sla' who' H; simpl in H.
  - injection H as <- <-. split; [unfold count; simpl; lia|]. intros x. split; [by left|]. intros [H|(_ & v & Hv & _)]; [done|].
    by apply not_elem_of_nil in Hv.
  - destruct (need_dict v) as [d|] eqn:Ed; [|done]. destruct v; try done. injection Ed as ->. cbn [rbind] in H. apply IH in H as [-> Hw]. split.
    + unfold count. cbn [List.filter]. unfold breached at 2. cbn [as_dict].
      destruct (truthy (get d "sla_breached" PNone)); cbn [length]; lia.
    + intros x. rewrite Hw. fold (claimer (PDict d)). clear Hw IH.
      assert (Hc : x ∈ (if nonempty (claimer (PDict d)) && negb (mem (claimer (PDict d)) who) then who ++ [claimer (PDict d)] else who)
                   <-> x ∈ who \/ (nonempty x = true /\ claimer (PDict d) = x)).
      { destruct (nonempty (claimer (PDict d))) eqn:En; cbn [andb]; [|split; [by left|intros [H|[H <-]]; [done|congruence]]].
        destruct (mem _ who) eqn:Em; cbn [negb].
        - apply mem_spec in Em. split; [by left|]. intros [H|[_ <-]]; done.
        - rewrite elem_of_app, list_elem_of_singleton. split; (intros [H|H]; [by left|right]); [by subst|by destruct H]. }
      rewrite Hc. setoid_rewrite elem_of_cons. split.
      * intros [[H|[H1 H2]]|(H1 & v & Hv & H2)]; [by left| |]; right; (split; [done|]).
        -- exists (PDict d). split; [by left|done].
        -- exists v. split; [by right|done].
      * intros [H|(H1 & v & [-> | Hv] & H2)]; [by left; left|by left; right|]. right. split; [done|]. by exists v.
Qed.

Lemma count_zero {A : Type} (p : A -> bool) l : count p l = 0 <-> forall x, x ∈ l -> p x = false.
Proof.
  unfold count. split.
  - intros H x Hx. destruct (p x) eqn:E; [|done]. assert (Hf : x ∈ List.filter p l) by (by apply filter_elem).
    destruct (List.filter p l); [by apply not_elem_of_nil in Hf|simpl in H; lia].
  - intros H. destruct (List.filter p l) as [|x l'] eqn:E; [done|].
    assert (Hx : x ∈ List.filter p l) by (rewrite E; left). apply filter_elem in Hx as [Hx Hp]. by rewrite H in Hp.
Qed.

Lemma add_missing_nil bs new : add_missing bs new = [] <-> bs = [] /\ new = [].
Proof.
  revert bs. induction new as [|b new IH]; intros bs; simpl; [tauto|]. rewrite IH. split; [|by intros [_ ?]].
  intros [H _]. destruct (mem b bs) eqn:E; [|by destruct bs]. subst bs. by apply mem_spec, not_elem_of_nil in E.
Qed.

Lemma gate_of_allowed bs : (gate_of bs).(promote_allowed) = true <-> bs = [].
Proof. apply no_items_true. Qed.

Lemma block_nil b x : block_if b x = [] <-> b = false.
Proof. by destruct b. Qed.

(** The leftover floor: the gate opens exactly when the queue could be read,
    no leftover is past its deadline, the leftovers the challenger would add
    stay within the cap, a claimer of the queue acknowledged the draft whenever
    somebody claimed a leftover, and the labelled extras raise no objection. *)
Lemma leftover_gate_exact leftovers extras mint_on add_cap help ack lg :
  leftover_promote_gate leftovers extras mint_on add_cap help ack = Ok lg ->
  lg.(lg_gate).(promote_allowed) = true <->
  exists rows, leftovers = Some rows
    /\ (forall v, v ∈ rows -> breached v = false)
    /\ extra_leftover_mint_count extras mint_on <= add_cap
    /\ ((exists v, v ∈ rows /\ nonempty (claimer v) = true) -> ack_is_valid ack lg.(claimers) = true)
    /\ help.(help_blockers) = [].
Proof.
  unfold leftover_promote_gate. intros H. apply rbind_Ok in H as ([sla who] & Hs & H). apply Ok_inj in H. subst lg.
  cbn [lg_gate claimers]. rewrite gate_of_allowed, add_missing_nil, !app_nil, !block_nil.
  apply scan_spec in Hs as [-> Hw]. rewrite Z.add_0_l, negb_false_iff, Z.eqb_eq, count_zero, Z.ltb_ge.
  assert (Hc : negb (no_items who) = true <-> exists v, v ∈ default [] leftovers /\ nonempty (claimer v) = true).
  { rewrite negb_true_iff. split.
    - destruct who as [|x who]; [done|]. intros _. destruct (proj1 (Hw x) ltac:(left)) as [Hx|(Hn & v & Hv & <-)]; [by apply not_elem_of_nil in Hx|].
      by exists v.
    - intros (v & Hv & Hn). assert (Hx : claimer v ∈ who) by (apply Hw; right; eauto).
      destruct who; [by apply not_elem_of_nil in Hx|done]. }
  rewrite andb_false_iff, !negb_false_iff. destruct leftovers as [rows|]; cbn [default id] in *.
  - split.
    + intros [(_ & Hb & Hcap & Hack) Hh]. exists rows. split; [done|]. split; [done|].
      split; [done|]. split; [|done]. intros E%Hc. destruct Hack as [Hn|]; [by rewrite Hn in E|done].
    + intros (rows' & [= <-] & Hb & Hm & Hack & Hh). split; [|done]. split; [done|]. split; [done|].
      split; [done|]. destruct (no_items who); [by left|right; by apply Hack, Hc].
  - split; [by intros [[? _] _]|by intros (rows & ? & _)].
Qed.

Definition quiet : helpfulness := Helpfulness 0 0 0 None true [].
Definition claimed_queue : list pyval := [PDict [("claimed_by", PStr " ana "); ("sla_breached", PBool false)]].

(** A claimed leftover needs the acknowledgement of its claimer. *)
Example claimed_needs_ack :
  map (fun ack => rmap (fun lg => blockers lg.(lg_gate)) (leftover_promote_gate (Some claimed_queue) [] true 10 quiet ack))
    [Some [("acked_by", PStr "ana")]; Some [("acked_by", PStr "bob")]; None]
  = [Ok []; Ok ["leftover_claimer_ack_required"]; Ok ["leftover_claimer_ack_required"]].
Proof. vm_compute. reflexivity. Qed.

(** ** Helpfulness *)

Definition labelled_as (ls : labels) (l : string) (r : cc_row) : bool := bool_decide (row_label ls r = Some l).

(** Componentwise equality of triples of integers. *)
Ltac triple :=
  match goal with
  | |- (?a, ?b, ?c) = (?d, ?e, ?f) =>
      replace d with a by lia; replace e with b by lia; replace f with c by lia; reflexivity
  end.

Lemma tally_spec ls extras : forall n tp fp,
  tally ls extras (n, tp, fp)
  = (n + count (labelled_as ls "1") extras + count (labelled_as ls "0") extras,
     tp + count (labelled_as ls "1") extras, fp + count (labelled_as ls "0") extras).
Proof.
  induction extras as [|r extras IH]; intros n tp fp; cbn [tally]; [unfold count; simpl; triple|].
  assert (Hc : forall l, count (labelled_as ls l) (r :: extras) = (if labelled_as ls l r then 1 else 0) + count (labelled_as ls l) extras).
  { intros l. unfold count. cbn [List.filter]. destruct (labelled_as ls l r); cbn [length]; lia. }
  rewrite !Hc. unfold labelled_as at 1 3 5 7. destruct (row_label ls r) as [l|].
  - destruct (decide (l = "1")) as [-> |N1].
    { rewrite !(bool_decide_eq_true_2 (_ = _)), (bool_decide_eq_false_2 (Some "1" = Some "0")) by done.
      rewrite IH; triple. }
    rewrite (bool_decide_eq_false_2 (l = "1")) by done. rewrite (bool_decide_eq_false_2 (Some l = Some "1")) by congruence.
    destruct (decide (l = "0")) as [-> |N0].
    { rewrite !(bool_decide_eq_true_2 (_ = _)) by done. rewrite IH; triple. }
    rewrite (bool_decide_eq_false_2 (l = "0")) by done. rewrite (bool_decide_eq_false_2 (Some l = Some "0")) by congruence.
    rewrite IH; triple.
  - rewrite !bool_decide_eq_false_2 by done. rewrite IH; triple.
Qed.

Lemma count_nonneg {A : Type} (p : A -> bool) l : 0 <= count p l.
Proof. unfold count. lia. Qed.

(** The labelled extras object exactly when there are at least the minimum
    of them and either the share of false positives exceeds the cap or there is
    not one true positive; a cap that is not a number never objects by itself. *)
Theorem helpfulness_exact extras ls m cap :
  1 <= m ->
  let tp := count (labelled_as ls "1") extras in
  let fp := count (labelled_as ls "0") extras in
  let h := leftover_helpfulness extras ls m cap in
  (h.(extra_tp), h.(extra_fp), h.(labeled_extras)) = (tp, fp, tp + fp)
  /\ (h.(help_blockers) <> [] <-> m <= tp + fp /\ (fltb cap (ratio fp (tp + fp)) = true \/ tp = 0))
  /\ (is_nan cap = true -> 1 <= tp -> h.(help_blockers) = []).
Proof.
  intros Hm tp fp h. unfold h, leftover_helpfulness. rewrite tally_spec. fold tp fp. rewrite !Z.add_0_l.
  pose proof (count_nonneg (labelled_as ls "1") extras) as Htp. pose proof (count_nonneg (labelled_as ls "0") extras) as Hfp.
  fold tp in Htp. fold fp in Hfp. cbn [extra_tp extra_fp labeled_extras help_blockers]. split; [done|].
  destruct (Z.ltb_spec (tp + fp) m) as [Hu|Hu]; cbn [negb andb block_if app].
  - split; [split; [done|lia]|done].
  - destruct (Z.eqb_spec (tp + fp) 0) as [E0|E0]; [lia|]. destruct (fltb cap (ratio fp (tp + fp))) eqn:Ef; cbn [block_if app].
    + split; [split; [auto|done]|]. intros Hn. destruct cap; try done; by rewrite fltb_nan_l in Ef.
    + destruct (Z.eqb_spec tp 0) as [Et|Et]; cbn [andb].
      * destruct (Z.leb_spec m fp); [|lia]. split; [split; [auto|done]|lia].
      * split; [split; [done|intros [_ [?|?]]; [done|lia]]|done].
Qed.

Definition two_extras : list cc_row := [CcRow "t1" "e1" "allow" "deny" false; CcRow "t2" "e2" "allow" "review" false].
Definition demo_labels : labels := Labels {["t1" := "0"]} {["e2" := "0"]}.

Lemma helpfulness_exact_witness :
  (leftover_helpfulness two_extras demo_labels 2 (lit 4 10)).(help_blockers)
  = ["leftover_extras_fp_over_cap"; "leftover_extras_no_lift"]
  /\ (leftover_helpfulness two_extras demo_labels 2 (lit 4 10)).(help_blockers) <> [].
Proof.
  split; [vm_compute; reflexivity|].
  apply (helpfulness_exact two_extras demo_labels 2 (lit 4 10) ltac:(lia)). split; [apply Z.leb_le; vm_compute; reflexivity|].
  right. vm_compute. reflexivity.
Defined.

(** ** The desk *)

Lemma dedupe_nil bs : forall seen, dedupe seen bs = [] <-> forall b, b ∈ bs -> nonempty b = true -> b ∈ seen.
Proof.
  induction bs as [|b bs IH]; intros seen; simpl; [split; [by intros _ b ?%not_elem_of_nil|done]|].
  destruct (nonempty b) eqn:En; cbn [andb].
  - destruct (mem b seen) eqn:Em; cbn [negb].
    + rewrite IH. apply mem_spec in Em. split; intros H x Hx Hn; [apply elem_of_cons in Hx as [-> | Hx]; auto|].
      apply H; [by right|done].
    + split; [done|]. intros H. apply mem_false in Em. destruct Em. apply H; [left|done].
  - rewrite IH. split; intros H x Hx Hn; [apply elem_of_cons in Hx as [-> | Hx]; [congruence|auto]|]. apply H; [by right|done].
Qed.

(** A gate whose verdict is the absence of blockers, each with a text. *)
Definition gate_wf (g : gate) : Prop := g.(promote_allowed) = no_items g.(blockers) /\ Forall (fun b => nonempty b = true) g.(blockers).

Lemma desk_allowed parts :
  Forall gate_wf parts ->
  (_desk_promote_from_parts parts).(promote_allowed) = true <-> Forall (fun g => g.(promote_allowed) = true) parts.
Proof.
  intros Hwf. unfold _desk_promote_from_parts. rewrite gate_of_allowed, dedupe_nil. split.
  - intros H. rewrite Forall_forall in *. intros g Hg. destruct (Hwf g Hg) as [-> Hn]. destruct (blockers g) as [|b bs] eqn:E; [done|].
    assert (Hb : b ∈ @nil string); [|by apply not_elem_of_nil in Hb]. apply H; [|by inversion Hn].
    apply list_elem_of_In, in_concat. exists (b :: bs). split; [rewrite <- E; apply in_map; by apply list_elem_of_In|by left].
  - intros H b Hb Hn. exfalso. apply list_elem_of_In, in_concat in Hb as (l & Hl & Hb). apply in_map_iff in Hl as (g & <- & Hg).
    apply list_elem_of_In in Hg. rewrite Forall_forall in H, Hwf. destruct (Hwf g Hg) as [E _]. rewrite (H g Hg) in E.
    symmetry in E. apply no_items_true in E. by rewrite E in Hb.
Qed.

(** ** Overriding the window *)

Lemma can_override_spec roles reason :
  can_override_calibration_window roles reason = true ->
  8 <= str_len (strip reason) /\ ("RiskArchitect" ∈ map strip roles \/ "admin" ∈ map strip roles).
Proof.
  unfold can_override_calibration_window. destruct (Z.ltb_spec (str_len (strip reason)) 8); [done|]. intros E. split; [done|].
  apply orb_true_iff in E as [E|E]; apply mem_spec in E; [by left|by right].
Qed.

(** Overriding the calibration window drops nothing but window blockers, and
    only for a risk architect or an administrator with a reason of at least
    eight characters: whatever else blocked the desk still does. *)
Lemma override_spec desk window reason roles :
  let '(desk', applied) := apply_window_override desk window reason roles in
  (forall b, b ∈ desk.(blockers) -> b ∉ WINDOW_BLOCKERS -> b ∈ desk'.(blockers))
  /\ (forall b, b ∈ desk'.(blockers) -> b ∈ desk.(blockers))
  /\ (applied = true -> window.(promote_allowed) = false /\ 8 <= str_len (strip reason)
        /\ ("RiskArchitect" ∈ map strip roles \/ "admin" ∈ map strip roles))
  /\ (applied = false -> desk' = desk).
Proof.
  unfold apply_window_override. destruct (promote_allowed window) eqn:Ew; [done|].
  destruct (can_override_calibration_window roles reason) eqn:Ec; cbn [negb]; [|done]. cbn [gate_of blockers].
  split; [intros b Hb Hw; apply filter_elem; split; [done|]; by rewrite (proj2 (mem_false _ _) Hw)|].
  split; [by intros b [? _]%filter_elem|]. split; [|done]. intros _. split; [done|]. by apply can_override_spec.
Qed.

(** ** Backtests *)

(** The kill criteria pass exactly when enough events were evaluated and no
    comparison with a threshold is violated; a metric that is not a number
    violates none. *)
Lemma kill_criteria_exact metrics kill events g precision recall fpr min_events min_precision min_recall above :
  number (get metrics "precision" PNone) = Ok precision -> number (get metrics "recall" PNone) = Ok recall ->
  number (por (get metrics "false_positive_rate" PNone) (get metrics "fpr" PNone)) = Ok fpr ->
  py_int (por (get (criteria_of kill) "min_events" PNone) (PInt 100)) = Ok min_events ->
  number (get (criteria_of kill) "min_precision" PNone) = Ok min_precision ->
  number (get (criteria_of kill) "min_recall" PNone) = Ok min_recall -> fpr_above (criteria_of kill) fpr = Ok above ->
  evaluate_kill_criteria metrics kill events = Ok g ->
  g.(promote_allowed) = true <->
  min_events <= events /\ fltb precision min_precision = false /\ fltb recall min_recall = false /\ above = false.
Proof.
  intros E1 E2 E3 E4 E5 E6 E7 H. unfold evaluate_kill_criteria in H. rewrite E1, E2, E3, E4, E5, E6 in H. cbn [rbind] in H.
  rewrite E7 in H. cbn [rbind] in H.
  apply Ok_inj in H. subst g. rewrite gate_of_allowed, !app_nil, !block_nil, Z.ltb_ge. done.
Qed.

Example nan_metrics_pass :
  rmap promote_allowed (evaluate_kill_criteria [("precision", PFloat f_nan); ("recall", PFloat f_nan)] None 100) = Ok true.
Proof. vm_compute. reflexivity. Qed.

(** The backtest gate opens exactly when it is waived, or the job succeeded and
    its metrics pass the kill criteria. *)
Lemma backtest_gate_exact status metrics_json kill require_job job_id g waived :
  backtest_before_promote_gate status metrics_json kill require_job job_id = Ok (g, waived) ->
  g.(promote_allowed) = true <->
  (nonempty (strip job_id) = false /\ require_job = false)
  \/ (nonempty (strip job_id) = true /\ lower (strip status) = "succeeded"
      /\ exists metrics rows k, metrics_from_backtest metrics_json = Ok (metrics, rows)
           /\ evaluate_kill_criteria metrics kill rows = Ok k /\ k.(promote_allowed) = true).
Proof.
  unfold backtest_before_promote_gate. destruct (nonempty (strip job_id)); cbn [negb].
  - case_bool_decide as Es; cbn [negb]; [|intros [= <- _]; split; [done|intros [[? _]|(_ & ? & _)]; done]].
    intros H. apply rbind_Ok in H as ([m rows] & Em & H). apply rbind_Ok in H as (k & Ek & H). apply Ok_inj in H. injection H as <- _.
    rewrite gate_of_allowed. split.
    + intros Hb. right. split; [done|]. split; [done|]. exists m, rows, k. split; [done|]. split; [done|].
      destruct (promote_allowed k); [done|]. apply app_nil in Hb as [-> Hb]. done.
    + intros [[? _]|(_ & _ & m' & rows' & k' & Em' & Ek' & Hk)]; [done|]. rewrite Em in Em'. injection Em' as <- <-.
      rewrite Ek in Ek'. apply Ok_inj in Ek'. subst k'. by rewrite Hk.
  - destruct require_job; intros [= <- _]; (split; [|intros [[_ ?]|[? _]]]); try done. intros _. by left.
Qed.
