(* ===== verification/AutoPromote.v ===== *)
(** Promotion of shadow packs: the tenant provisions, the automatic tick and the
    activation of [decision_api/shadow_auto_promote.py], the composition of the
    gates in [decision_api/leftover_promote_gate.py], the promote endpoint of
    [decision_api/rule_api.py] and the switch of [shared/desk_provision.py].

    The rules directory is a list of file names and contents, the loaded packs
    are [JsonRules.Store]'s state and the change log a list.  What the audit
    scan, the drift computation and the case service deliver are inputs of the
    gates; the copy of a promotion that is exported afterwards, whose failures
    are swallowed, is left out. *)

From Stdlib Require Import ZArith Lia Ascii String Bool SpecFloat.
From stdpp Require Import base option list sorting strings gmap.
From S2P Require Import Prelude PyFloat PyValue PyDateTime Sha256 SignalResolver RuleMatch AstRules JsonRules LabelStore Promotion.
Import JsonRules.Store.
Local Open Scope Z_scope.

(** * Provisions *)

Definition PROVISION_SCHEMA : string := "tarka.shadow_auto_promote_provision/v1".

Record provision : Type := Provision {
  schema_id : string; tenant_of : string; auto_promote : bool; leftover_add_cap : Z; leftover_fp_rate_cap : float;
  min_labeled_extras : Z; provisioned_by : string; provisioned_at : string; version : Z }.

Definition provision_token (tenant_id : string) : string :=
  sha256_hex ("tarka.shadow_auto_promote:" +:+ _tenant_slug tenant_id).

Definition default_provision (tenant_id : string) : provision :=
  Provision PROVISION_SCHEMA tenant_id false 10 (lit 4 10) 5 EmptyString EmptyString 0.

(** [int(raw.get(k, dflt))] and [float(...)], with the default on a bad value. *)
Definition int_or (raw : dict) (k : string) (dflt : Z) : result Z :=
  try_except (py_int (get raw k (PInt dflt))) is_type_or_value_error dflt.

Definition float_or (raw : dict) (k : string) (dflt : float) : result float :=
  try_except (py_float (get raw k (PFloat dflt))) is_type_or_value_error dflt.

Definition load_provision (files : gmap string file_read) (tenant_id : string) : result provision :=
  match files !! provision_token tenant_id with
  | Some (Document (PDict raw)) =>
      let! add_cap := int_or raw "leftover_add_cap" 10 in
      let! fp_cap := float_or raw "leftover_fp_rate_cap" (lit 4 10) in
      let! min_l := int_or raw "min_labeled_extras" 5 in
      let! v := int_or raw "version" 0 in
      Ok (Provision
            (if truthy (get raw "schema_id" PNone) then py_str (get raw "schema_id" PNone) else PROVISION_SCHEMA)
            tenant_id (truthy (get raw "auto_promote" PNone)) add_cap fp_cap min_l
            (str_or_empty (get raw "provisioned_by" PNone)) (str_or_empty (get raw "provisioned_at" PNone)) v)
  | Some NotUtf8 => Err ValueError
  | _ => Ok (default_provision tenant_id)
  end.

Definition _validate_caps (add_cap : Z) (fp_cap : float) (min_l : Z) : result unit :=
  if add_cap <? 0 then Err ValueError
  else if fltb fp_cap (litZ 0) || fltb (litZ 1) fp_cap then Err ValueError
  else if min_l <? 1 then Err ValueError
  else Ok tt.

Definition provision_dict (p : provision) : dict :=
  [("schema_id", PStr p.(schema_id)); ("tenant_id", PStr p.(tenant_of)); ("auto_promote", PBool p.(auto_promote));
   ("leftover_add_cap", PInt p.(leftover_add_cap)); ("leftover_fp_rate_cap", PFloat p.(leftover_fp_rate_cap));
   ("min_labeled_extras", PInt p.(min_labeled_extras)); ("provisioned_by", PStr p.(provisioned_by));
   ("provisioned_at", PStr p.(provisioned_at)); ("version", PInt p.(version))].

Definition save_provision (files : gmap string file_read) (now tenant_id : string) (auto : bool) (add_cap : Z) (fp_cap : float)
    (min_l : Z) (by_whom : string) : result (gmap string file_read * provision) :=
  let! _ := _validate_caps add_cap fp_cap min_l in
  let! cur := load_provision files tenant_id in
  let p := Provision PROVISION_SCHEMA tenant_id auto add_cap fp_cap min_l (str_take 256 by_whom) now (cur.(version) + 1) in
  Ok (<[provision_token tenant_id := Document (PDict (provision_dict p))]> files, p).

(** * The named desk *)

Definition DESK_SCHEMA : string := "tarka.desk_provision/v1".

(** [None]: no path configured or no such file. *)
Definition load_desk_provision (file : option file_read) : result dict :=
  match file with
  | Some (Document (PDict d)) => if bool_decide (str_or_empty (get d "schema_id" PNone) = DESK_SCHEMA) then Ok d else Ok []
  | Some NotUtf8 => Err ValueError
  | _ => Ok []
  end.

Definition observe_flag (data : dict) : option bool :=
  match data with
  | [] => None
  | _ => match get data "observe" PNone with
         | PDict o => if has_key o "auto_promote" then Some (truthy (get o "auto_promote" PNone)) else Some false
         | _ => Some false
         end
  end.

(** A non-blank variable wins over the file. *)
Definition observe_auto_promote (env : option string) (file : option file_read) : result (option bool) :=
  if nonempty (strip (opt_str env)) then Ok (Some (env_on (opt_str env)))
  else let! data := load_desk_provision file in Ok (observe_flag data).

Definition host_auto_promote (env : option string) (file : option file_read) (file_flag : bool) : result bool :=
  let! o := observe_auto_promote env file in
  Ok (match o with Some false => false | _ => file_flag end).

(** [GET]: the file with the host's switch applied. *)
Definition public_provision (env : option string) (file : option file_read) (files : gmap string file_read) (tenant_id : string)
    : result provision :=
  let! p := load_provision files tenant_id in
  let! on := host_auto_promote env file p.(auto_promote) in
  Ok (Provision p.(schema_id) p.(tenant_of) on p.(leftover_add_cap) p.(leftover_fp_rate_cap) p.(min_labeled_extras)
        p.(provisioned_by) p.(provisioned_at) p.(version)).

(** * The gates of one tenant *)

(** The reply of an HTTP call: [None] when it raises, else the status and the
    body, [None] when that is not JSON. *)
Abbreviation reply := (option (Z * option pyval)).

Definition fetch_leftover_list (base tenant_id : string) (r : reply) : option (list pyval) :=
  if negb (nonempty base) || negb (nonempty (strip tenant_id)) then None
  else match r with
       | Some (status, Some (PDict payload)) =>
           if 400 <=? status then None
           else match get payload "leftovers" PNone with
                | PList rows => if is_true (get payload "truncated" PNone) then None else Some rows
                | _ => None
                end
       | _ => None
       end.

Definition fetch_promote_ack (base tenant_id draft_id : string) (r : reply) : option dict :=
  if negb (nonempty base) || negb (nonempty (strip tenant_id)) || negb (nonempty (strip draft_id)) then None
  else match r with
       | Some (status, Some (PDict payload)) =>
           if (status <? 200) || (300 <=? status) then None
           else match get payload "ack" PNone with PDict a => Some a | _ => None end
       | _ => None
       end.

Record caps_env : Type := CapsEnv { ADD_CAP : option string; FP_RATE_CAP : option string; MIN_LABELED_EXTRAS : option string }.

Definition env_int_or (raw : option string) (dflt : Z) : Z :=
  match raw with None => dflt | Some s => match Z_of_string s with Ok n => n | Err _ => dflt end end.

Definition env_float_or (raw : option string) (dflt : float) : float :=
  match raw with None => dflt | Some s => match f_of_string s with Ok x => x | Err _ => dflt end end.

Definition leftover_caps_for_tenant (e : caps_env) (files : gmap string file_read) (tenant_id : string) : result (Z * float * Z) :=
  let tid := strip tenant_id in
  let fallback := (env_int_or e.(ADD_CAP) 10, env_float_or e.(FP_RATE_CAP) (lit 4 10), env_int_or e.(MIN_LABELED_EXTRAS) 5) in
  if negb (nonempty tid) then Ok fallback
  else let! p := load_provision files tid in
       Ok (if 1 <=? p.(version) then (p.(leftover_add_cap), p.(leftover_fp_rate_cap), p.(min_labeled_extras)) else fallback).

(** What the scans and services deliver for the tenant; [in_case_base] is the
    case service's address, trimmed. *)
Record gate_inputs : Type := Inputs {
  in_posture : dict; in_audits : list pyval; in_labels : labels; in_drift : pyval; in_first_label : option datetime;
  in_case_base : string; in_leftovers : reply; in_ack : reply; in_mint_on : bool; in_caps : caps_env; in_window : window_env;
  in_now : datetime }.

Record gates : Type := Gates { g_leftover : leftover_gate; g_desk : gate; g_window : gate }.

Section Gates.
Context (erfc : float -> float).

(** The reports on live rules that the source attaches gate nothing and are
    left out. *)
Definition compute_desk_and_leftover_gates (i : gate_inputs) (files : gmap string file_read) (tenant_id draft_id : string)
    : result gates :=
  let tid := strip tenant_id in
  let live_promote := label_gated_promote i.(in_posture) None in
  let! mcnemar := mcnemar_default erfc (aggregate_champion_challenger i.(in_audits)) in
  let! drift_gate := drift_promote_gate (if nonempty tid then i.(in_drift) else PDict [("hint", PStr "no_tenant")]) true (lit 25 100) in
  let extras := extra_review_or_deny_rows (mapped_cc_decision_rows i.(in_audits)) in
  let! (add_cap, fp_cap, min_l) := leftover_caps_for_tenant i.(in_caps) files tid in
  let help := leftover_helpfulness extras i.(in_labels) min_l fp_cap in
  let! lg := leftover_promote_gate (fetch_leftover_list i.(in_case_base) tid i.(in_leftovers)) extras i.(in_mint_on) add_cap help
               (fetch_promote_ack i.(in_case_base) tid (strip draft_id) i.(in_ack)) in
  let window := calibration_window i.(in_window) i.(in_first_label)
                  (Z.of_nat (size i.(in_labels).(label_by_trace)) + Z.of_nat (size i.(in_labels).(label_by_entity)))
                  lg.(lg_helpfulness).(fp_rate) i.(in_now) in
  Ok (Gates lg (_desk_promote_from_parts [live_promote; mcnemar; drift_gate; lg.(lg_gate); window]) window).

(** * Activation *)

Record change : Type := Change { ch_action : string; ch_file : string; ch_actor : string; ch_detail : dict }.

Record world : Type := World { w_store : store; w_dir : list (string * file_read); w_log : list change }.

Definition ObserveLocked : pyexn := OtherError "ObserveLocked".

Definition raise_if_observe_locked (pack : dict) : result unit :=
  if is_true (get pack "observe_locked" PNone) then Err ObserveLocked else Ok tt.

Definition shadow_packs_eligible_for_auto_promote (packs : list dict) : list string :=
  filter_map (fun pack =>
    let name := strip (str_or_empty (get pack "name" PNone)) in
    if negb (truthy (get pack "is_ai_authored" PNone)) || is_true (get pack "observe_locked" PNone) || negb (nonempty name)
    then None else Some name) packs.

(** [mark_promoted]: a lifecycle that is set and not a mapping raises (the
    list of pairs that [dict] would also take is not modelled). *)
Definition mark_promoted (now : string) (pack : dict) : result dict :=
  match por (get pack "lifecycle" PNone) (PDict []) with
  | PDict life => Ok (dict_set "lifecycle" (PDict (dict_set "promoted_at" (PStr now) (dict_set "state" (PStr "promoted") life))) pack)
  | PStr _ => Err ValueError
  | _ => Err TypeError
  end.

(** What is written back. *)
Definition activated (now : string) (pack : dict) : result dict :=
  let pack := dict_set "mode" (PStr "active") pack in
  if is_dict (get pack "lifecycle" PNone) || truthy (get pack "source_key" PNone) then mark_promoted now pack else Ok pack.

Definition read_file (name : string) (dir : list (string * file_read)) : result pyval :=
  match List.filter (fun f => bool_decide (f.1 = name)) dir with
  | [] => Err (OtherError "FileNotFoundError")
  | (_, Document v) :: _ => Ok v
  | (_, _) :: _ => Err ValueError
  end.

Definition write_file (name : string) (v : pyval) (dir : list (string * file_read)) : list (string * file_read) :=
  map (fun f => if bool_decide (f.1 = name) then (f.1, Document v) else f) dir.

Definition first_named (want : string) (packs : list dict) : option dict :=
  head (List.filter (fun p => bool_decide (str_or_empty (get p "name" PNone) = want)) packs).

(** The details logged with an activation. *)
Definition activation_record (want : string) (detail : dict) : dict :=
  dict_update [("draft_id", PStr want); ("mode", PStr "active")] detail.

Definition activate_shadow_pack (now : string) (w : world) (draft_id actor reason : string) (detail : dict) : world * result string :=
  let want := strip draft_id in
  match first_named want (get_shadow_packs w.(w_store)) with
  | None => (w, Err KeyError)
  | Some m =>
      let fname := strip (py_str (por (por (get m "_source_file" PNone) (get m "_file" PNone)) (PStr EmptyString))) in
      if negb (nonempty fname) then (w, Err KeyError)
      else match (let! v := read_file fname w.(w_dir) in
                  let! pack := need_dict v in
                  let! _ := raise_if_observe_locked pack in
                  activated now pack) with
           | Err e => (w, Err e)
           | Ok pack =>
               let dir := write_file fname (PDict pack) w.(w_dir) in
               match load_rules w.(w_store) (Some dir) with
               | (s, Err e) => (World s dir w.(w_log), Err e)
               | (s, Ok _) => (World s dir (w.(w_log) ++ [Change reason fname actor (activation_record want detail)]), Ok fname)
               end
           end
  end.

(** * The tick *)

Fixpoint promote_each (now : string) (detail : dict) (w : world) (names promoted : list string) : world * result (list string) :=
  match names with
  | [] => (w, Ok promoted)
  | name :: names' =>
      match activate_shadow_pack now w name "auto_promote" "auto_promote_shadow_pack" detail with
      | (w', Ok _) => promote_each now detail w' names' (promoted ++ [name])
      | (w', Err e) => if bool_decide (e = ObserveLocked) then promote_each now detail w' names' promoted else (w', Err e)
      end
  end.

Record tick_answer : Type := Tick { tick_on : bool; tick_promoted : list string; tick_reason : option string }.

(** The reason reported for a blocked tick. *)
Definition block_reason (lb db : list string) : string :=
  if mem "leftover_claimer_ack_required" lb then "leftover_claimer_ack_required"
  else match lb with b :: _ => b | [] => match db with b :: _ => b | [] => "promote_blocked" end end.

(** The provision's version, logged with each promotion. *)
Definition tick_detail (files : gmap string file_read) (tid : string) : dict :=
  match load_provision files tid with Ok p => [("provision_version", PInt p.(version))] | Err _ => [] end.

Definition maybe_auto_promote_shadow (desk_env : option string) (desk_file : option file_read) (i : gate_inputs)
    (files : gmap string file_read) (now : string) (w : world) (tenant_id : string) : world * result tick_answer :=
  let tid := strip tenant_id in
  match (let! p := load_provision files tid in host_auto_promote desk_env desk_file p.(auto_promote)) with
  | Err e => (w, Err e)
  | Ok false => (w, Ok (Tick false [] (Some "not_provisioned")))
  | Ok true =>
      match compute_desk_and_leftover_gates i files tid EmptyString with
      | Err e => (w, Err e)
      | Ok g =>
          let lb := g.(g_leftover).(lg_gate).(blockers) in
          let db := g.(g_desk).(blockers) in
          if negb (no_items lb) || negb (no_items db) || negb g.(g_desk).(promote_allowed)
          then (w, Ok (Tick true [] (Some (block_reason lb db))))
          else
            let names := shadow_packs_eligible_for_auto_promote (get_shadow_packs w.(w_store)) in
            let '(w', r) := promote_each now (tick_detail files tid) w names [] in
            (w', rmap (fun ps => Tick true ps None) r)
      end
  end.

(** * The promote endpoint *)

Definition promote_shadow_pack (i : gate_inputs) (files : gmap string file_read) (now : string) (w : world)
    (tenant_id draft_id override actor : string) (roles : list string) : world * result string :=
  let want := strip draft_id in
  match first_named want (get_shadow_packs w.(w_store)) with
  | None => (w, Err (http 404 "no_shadow_draft"))
  | Some _ =>
      match compute_desk_and_leftover_gates i files tenant_id want with
      | Err e => (w, Err e)
      | Ok g =>
          let reason := strip override in
          if nonempty reason && negb (can_override_calibration_window roles reason) then (w, Err (http 403 "override")) else
          let '(desk, applied) := if nonempty reason then apply_window_override g.(g_desk) g.(g_window) reason roles
                                  else (g.(g_desk), false) in
          if negb (no_items g.(g_leftover).(lg_gate).(blockers)) || negb (no_items desk.(blockers)) || negb desk.(promote_allowed)
          then (w, Err (http 409 "promote_blocked"))
          else match activate_shadow_pack now w want actor
                       (if applied then "promote_shadow_pack_calibration_override" else "promote_shadow_pack")
                       (if applied then [("calibration_override_reason", PStr reason)] else []) with
               | (w', Err e) => (w', Err (if bool_decide (e = ObserveLocked) then http 409 "observe_locked" else e))
               | (w', Ok f) => (w', Ok f)
               end
      end
  end.
End Gates.

(** * Provisions survive the file *)

Lemma load_saved files t p :
  p.(schema_id) = PROVISION_SCHEMA -> p.(tenant_of) = t ->
  load_provision (<[provision_token t := Document (PDict (provision_dict p))]> files) t = Ok p.
Proof.
  intros Hs Ht. unfold load_provision. rewrite lookup_insert_eq. destruct p as [sc te au ac fc mi pb pa ve]. cbn in Hs, Ht. subst.
  unfold int_or, float_or. cbn. unfold str_or_empty. cbn. by destruct pb, pa.
Qed.

(** A saved provision is read back exactly, one version on, and only caps in
    range are saved, except that a false-positive cap that is not a number
    passes for one in range. *)
Theorem provision_roundtrip files now t auto add_cap fp_cap min_l who files' p :
  save_provision files now t auto add_cap fp_cap min_l who = Ok (files', p) ->
  load_provision files' t = Ok p
  /\ (exists cur, load_provision files t = Ok cur /\ p.(version) = cur.(version) + 1)
  /\ (p.(auto_promote), p.(leftover_add_cap), p.(leftover_fp_rate_cap), p.(min_labeled_extras)) = (auto, add_cap, fp_cap, min_l)
  /\ 0 <= add_cap /\ 1 <= min_l
  /\ (is_nan fp_cap = true \/ (fleb (litZ 0) fp_cap = true /\ fleb fp_cap (litZ 1) = true)).
Proof.
  unfold save_provision. intros H. apply rbind_Ok in H as ([] & Hv & H). apply rbind_Ok in H as (cur & Hc & H).
  apply Ok_inj in H. injection H as <- <-. split; [by apply load_saved|]. split; [by exists cur|]. split; [done|].
  unfold _validate_caps in Hv. destruct (Z.ltb_spec add_cap 0); [done|]. destruct (fltb fp_cap (litZ 0)) eqn:E0; [done|].
  destruct (fltb (litZ 1) fp_cap) eqn:E1; [done|]. cbn [orb] in Hv. destruct (Z.ltb_spec min_l 1); [done|].
  split; [lia|]. split; [lia|]. destruct (is_nan fp_cap) eqn:En; [by left|right].
  split; [rewrite fleb_negb_fltb, E0|rewrite fleb_negb_fltb, E1]; done.
Qed.

Lemma provision_roundtrip_witness :
  exists files' p, save_provision ∅ "now" "acme" true 3 f_nan 1 "ana" = Ok (files', p)
    /\ load_provision files' "acme" = Ok p /\ p.(leftover_fp_rate_cap) = f_nan.
Proof.
  destruct (save_provision ∅ "now" "acme" true 3 f_nan 1 "ana") as [[files' p]|] eqn:E;
    [|unfold save_provision, load_provision in E; rewrite lookup_empty in E; discriminate].
  destruct (provision_roundtrip ∅ "now" "acme" true 3 f_nan 1 "ana" files' p E) as (H1 & _ & [= _ _ H2 _] & _).
  by exists files', p.
Defined.

(** * Nothing is promoted past the gates *)

Section Guards.
Context (erfc : float -> float).

Lemma leftover_allowed i files t d g :
  compute_desk_and_leftover_gates erfc i files t d = Ok g ->
  exists extras add_cap help,
    leftover_promote_gate (fetch_leftover_list i.(in_case_base) (strip t) i.(in_leftovers)) extras i.(in_mint_on) add_cap help
      (fetch_promote_ack i.(in_case_base) (strip t) (strip d) i.(in_ack)) = Ok g.(g_leftover).
Proof.
  unfold compute_desk_and_leftover_gates. intros H. inv_ok. destruct a1 as [[add_cap fp_cap] min_l]. inv_ok. subst g. eauto.
Qed.

Lemma no_items_orb {A B : Type} (l : list A) (m : list B) b :
  negb (no_items l) || negb (no_items m) || b = false -> l = [] /\ m = [] /\ b = false.
Proof. intros [[H1 H2]%orb_false_iff H3]%orb_false_iff. apply negb_false_iff, no_items_true in H1, H2. done. Qed.

(** The tick promotes nothing unless the tenant is provisioned for it, the
    named desk does not forbid it, every gate is open, the leftover queue could
    be read, and in it nothing is overdue and nothing is claimed: with no draft
    named, no acknowledgement is ever looked up. *)
Theorem tick_guarded env file i files now w t w' r :
  maybe_auto_promote_shadow erfc env file i files now w t = (w', r) -> w' <> w ->
  (exists p, load_provision files (strip t) = Ok p /\ p.(auto_promote) = true)
  /\ observe_auto_promote env file <> Ok (Some false)
  /\ (exists g, compute_desk_and_leftover_gates erfc i files (strip t) EmptyString = Ok g /\ g.(g_desk).(blockers) = [])
  /\ (exists rows, fetch_leftover_list i.(in_case_base) (strip t) i.(in_leftovers) = Some rows
        /\ forall v, v ∈ rows -> breached v = false /\ nonempty (claimer v) = false).
Proof.
  unfold maybe_auto_promote_shadow. intros H Hw.
  destruct (let! p := _ in _) as [on|] eqn:Eon; [|by injection H as <- _]. destruct on; [|by injection H as <- _].
  destruct (compute_desk_and_leftover_gates _ _ _ _ _) as [g|] eqn:Eg; [|by injection H as <- _].
  destruct (_ || _) eqn:Eb; [by injection H as <- _|]. apply no_items_orb in Eb as (El & Ed & _).
  apply rbind_Ok in Eon as (p & Hp & Hh). unfold host_auto_promote in Hh. apply rbind_Ok in Hh as (o & Ho & Hh). apply Ok_inj in Hh.
  split; [exists p; split; [done|by destruct o as [[]|]]|]. split; [rewrite Ho; intros [= ->]; done|].
  split; [by exists g|]. apply leftover_allowed in Eg as (extras & add_cap & help & Eg). rewrite strip_idem in Eg.
  destruct (proj1 (leftover_gate_exact _ _ _ _ _ _ _ Eg)) as (rows & Er & Hb & _ & Hc & _).
  { unfold leftover_promote_gate in Eg. apply rbind_Ok in Eg as ([] & _ & Eg). apply Ok_inj in Eg. rewrite <- Eg in El |- *.
    cbn [lg_gate gate_of blockers promote_allowed] in *. by rewrite El. }
  exists rows. split; [done|]. intros v Hv. split; [by apply Hb|]. destruct (nonempty (claimer v)) eqn:En; [|done].
  assert (Hack : fetch_promote_ack (in_case_base i) (strip t) (strip EmptyString) (in_ack i) = None).
  { unfold fetch_promote_ack. cbn [strip rstrip lstrip String.rev String.rev_app nonempty negb]. by rewrite orb_true_r. }
  rewrite Hack in Hc. discriminate Hc. by exists v.
Qed.

(** The promote endpoint changes the rules only when the leftover gate is
    open and nothing blocks the desk, the calibration window aside, which only a
    risk architect or an administrator can override with a reason. *)
Theorem promote_guarded i files now w t d override actor roles w' r :
  promote_shadow_pack erfc i files now w t d override actor roles = (w', r) -> w' <> w ->
  exists g, compute_desk_and_leftover_gates erfc i files t (strip d) = Ok g
    /\ g.(g_leftover).(lg_gate).(blockers) = []
    /\ (forall b, b ∈ g.(g_desk).(blockers) -> b ∈ WINDOW_BLOCKERS)
    /\ (g.(g_desk).(blockers) <> [] ->
          8 <= str_len (strip override) /\ ("RiskArchitect" ∈ map strip roles \/ "admin" ∈ map strip roles)).
Proof.
  unfold promote_shadow_pack. intros H Hw. destruct (first_named _ _); [|by injection H as <- _].
  destruct (compute_desk_and_leftover_gates _ _ _ _ _) as [g|] eqn:Eg; [|by injection H as <- _]. exists g. split; [done|].
  destruct (nonempty (strip override)) eqn:En; cbn [andb] in H.
  - destruct (can_override_calibration_window roles (strip override)) eqn:Ec; [|by injection H as <- _]. cbn [negb] in H.
    pose proof (override_spec (g_desk g) (g_window g) (strip override) roles) as Ho.
    destruct (apply_window_override _ _ _ _) as [desk applied]. destruct (_ || _) eqn:Eb; [by injection H as <- _|].
    apply no_items_orb in Eb as (El & Ed & _). split; [done|]. destruct Ho as (Hkeep & _ & _ & _). split.
    + intros b Hb. destruct (mem b WINDOW_BLOCKERS) eqn:Em; [by apply mem_spec|]. apply mem_false in Em.
      specialize (Hkeep b Hb Em). rewrite Ed in Hkeep. by apply not_elem_of_nil in Hkeep.
    + intros _. rewrite <- (strip_idem override). by apply can_override_spec.
  - destruct (_ || _) eqn:Eb; [by injection H as <- _|]. apply no_items_orb in Eb as (El & Ed & _). split; [done|].
    rewrite Ed. split; [by intros b ?%not_elem_of_nil|done].
Qed.
End Guards.

(** * A tick on a tidy directory *)

Lemma list_merge_map {A : Type} (R : relation A) `{!RelDecision R} (g : A -> A) :
  (forall x y, R (g x) (g y) <-> R x y) ->
  forall l1 l2, list_merge R (map g l1) (map g l2) = map g (list_merge R l1 l2).
Proof.
  intros Hg. induction l1 as [|x l1 IH1]; intros l2; [by destruct l2|]. induction l2 as [|y l2 IH2]; [done|].
  cbn [map list_merge]. rewrite (decide_ext (R (g x) (g y)) (R x y)) by apply Hg.
  destruct (decide (R x y)); cbn [map]; f_equal; [apply (IH1 (y :: l2))|exact IH2].
Qed.

Definition map_stack {A : Type} (g : A -> A) (st : list (option (list A))) : list (option (list A)) :=
  map (fun o => match o with Some l => Some (map g l) | None => None end) st.

Section SortMap.
Context {A : Type} (R : relation A) `{!RelDecision R} (g : A -> A).
Hypothesis Hg : forall x y, R (g x) (g y) <-> R x y.

Lemma merge_to_stack_map st : forall l,
  merge_list_to_stack R (map_stack g st) (map g l) = map_stack g (merge_list_to_stack R st l).
Proof.
  induction st as [|[l'|] st IH]; intros l; simpl; [done| |done]. by rewrite list_merge_map, IH.
Qed.

Lemma merge_stack_map st : merge_stack R (map_stack g st) = map g (merge_stack R st).
Proof. induction st as [|[l|] st IH]; simpl; [done| |done]. by rewrite IH, list_merge_map. Qed.

Lemma merge_sort_map l : merge_sort R (map g l) = map g (merge_sort R l).
Proof.
  unfold merge_sort. change (@nil (option (list A))) with (map_stack g []) at 1. generalize (@nil (option (list A))) as st.
  induction l as [|x l IH]; intros st; simpl; [apply merge_stack_map|].
  change [g x] with (map g [x]). rewrite merge_to_stack_map. apply IH.
Qed.
End SortMap.

(** The pack a file contributes to the shadow list. *)
Definition is_shadow (d : dict) : bool := supported d && pack_mode_is "shadow" d.

Definition shadow_file (f : string * file_read) : option dict :=
  match f.2 with
  | Document (PDict d) => if is_shadow d then Some (dict_set "_source_file" (PStr f.1) d) else None
  | _ => None
  end.

Definition shadows (dir : list (string * file_read)) : list dict := filter_map shadow_file (merge_sort name_le dir).

Definition document (f : string * file_read) : Prop := exists d, f.2 = Document (PDict d).

Lemma load_files_shadow files : forall acc,
  Forall document files ->
  exists ld, load_files acc files = Ok ld /\ ld.(ld_shadow) = acc.(ld_shadow) ++ filter_map shadow_file files.
Proof.
  induction files as [|[f fr] files IH]; intros acc H; simpl; [exists acc; by rewrite app_nil_r|].
  inversion H as [|? ? [d Hd] H']; subst. cbn [snd] in Hd. subst fr. unfold load_file. cbn [snd fst rbind].
  destruct (IH (load_pack acc f d) H') as (ld & El & Es). exists ld. split; [exact El|]. rewrite Es.
  unfold load_pack, shadow_file, is_shadow, supported, pack_mode_is. cbn [snd fst].
  destruct (py_eq (get d "version" (PInt 1)) (PInt 1)); cbn [negb andb]; [|done].
  rewrite !get_set_ne by done. destruct (eq_str (get d "mode" (PStr "active")) "disabled") eqn:Ed.
  - assert (En : eq_str (get d "mode" (PStr "active")) "shadow" = false); [|by rewrite En].
    destruct (get d "mode" (PStr "active")) as [| | | |s| |]; try done. unfold eq_str in *. simpl in *.
    destruct (decide (s = "shadow")) as [-> |]; [done|]. by apply bool_decide_eq_false_2.
  - destruct (eq_str (get d "mode" (PStr "active")) "shadow"); [|done]. cbn [ld_shadow]. by rewrite <- app_assoc.
Qed.

Lemma load_rules_shadow s dir :
  Forall document dir ->
  exists s', load_rules s (Some dir) = (s', Ok tt) /\ get_shadow_packs s' = shadows dir.
Proof.
  intros H. destruct (load_files_shadow (merge_sort name_le dir) (Loading [] [] [])) as (ld & El & Es).
  { by rewrite merge_sort_Permutation. }
  unfold load_rules. rewrite El. eexists. split; [done|]. cbn [get_shadow_packs bump_policy_set_generation _shadow_mode_packs].
  by rewrite Es.
Qed.

Definition pack_name (d : dict) : string := str_or_empty (get d "name" PNone).

Definition ai_unlocked (d : dict) : bool :=
  truthy (get d "is_ai_authored" PNone) && negb (is_true (get d "observe_locked" PNone)) && nonempty (strip (pack_name d)).

Definition shadow_doc (dir : list (string * file_read)) (f : string) (d : dict) : Prop :=
  (f, Document (PDict d)) ∈ dir /\ is_shadow d = true.

(** The directory with the shadow packs that satisfy [p] made active. *)
Definition activate_if (now : string) (p : dict -> bool) (f : string * file_read) : string * file_read :=
  match f.2 with
  | Document (PDict d) =>
      if is_shadow d && p d
      then (f.1, Document (PDict (match activated now d with Ok d' => d' | Err _ => d end))) else f
  | _ => f
  end.

(** Every file is a pack with a plain name, the loaded shadow packs are those of
    the directory, and their names are trimmed and distinct. *)
Record tidy (now : string) (w : world) : Prop := {
  td_docs : Forall document w.(w_dir);
  td_files : NoDup (map fst w.(w_dir));
  td_fnames : Forall (fun f => strip f.1 = f.1 /\ nonempty f.1 = true) w.(w_dir);
  td_synced : get_shadow_packs w.(w_store) = shadows w.(w_dir);
  td_unique f d f' d' : shadow_doc w.(w_dir) f d -> shadow_doc w.(w_dir) f' d' -> pack_name d = pack_name d' -> f = f';
  td_strip f d : shadow_doc w.(w_dir) f d -> strip (pack_name d) = pack_name d;
  td_life f d : shadow_doc w.(w_dir) f d -> exists d', activated now d = Ok d' }.

Lemma activate_if_fst now p f : (activate_if now p f).1 = f.1.
Proof. destruct f as [f [[]| |]]; try done. unfold activate_if. cbn. by destruct (_ && _). Qed.

Lemma activated_mode now d d' dflt : activated now d = Ok d' -> get d' "mode" dflt = PStr "active".
Proof.
  intros H. unfold activated in H. destruct (_ || _).
  - unfold mark_promoted in H. destruct (por _ _); try done. apply Ok_inj in H. subst d'. by rewrite get_set_ne, get_set_eq.
  - apply Ok_inj in H. subst d'. apply get_set_eq.
Qed.

Lemma activated_inactive now d d' : activated now d = Ok d' -> is_shadow d' = false.
Proof.
  intros H. unfold is_shadow, pack_mode_is. rewrite (activated_mode _ _ _ _ H). apply andb_false_r.
Qed.

Lemma shadows_elem dir m : m ∈ shadows dir <-> exists f d, shadow_doc dir f d /\ m = dict_set "_source_file" (PStr f) d.
Proof.
  unfold shadows. rewrite filter_map_elem. setoid_rewrite merge_sort_Permutation. split.
  - intros ([f fr] & Hf & E). unfold shadow_file in E. cbn in E. destruct fr as [[]| |]; try done.
    destruct (is_shadow d) eqn:Es; [|done]. injection E as <-. by exists f, d.
  - intros (f & d & [Hf Hs] & ->). eexists. split; [exact Hf|]. unfold shadow_file. cbn. by rewrite Hs.
Qed.

Lemma file_content (dir : list (string * file_read)) f x y : NoDup (map fst dir) -> (f, x) ∈ dir -> (f, y) ∈ dir -> x = y.
Proof.
  induction dir as [|[g z] dir IH]; intros Hn Hx Hy; [by apply not_elem_of_nil in Hx|]. cbn in Hn. apply NoDup_cons in Hn as [Hg Hn].
  assert (Hin : forall v, (g, v) ∈ dir -> False) by (intros v Hv; apply Hg; apply (list_elem_of_fmap_2 fst _ _ Hv)).
  apply elem_of_cons in Hx as [Hx|Hx], Hy as [Hy|Hy].
  - congruence.
  - injection Hx as -> ->. by destruct (Hin y).
  - injection Hy as -> ->. by destruct (Hin x).
  - by apply IH.
Qed.

Lemma shadow_doc_map now p dir f d :
  (forall f d, shadow_doc dir f d -> exists d', activated now d = Ok d') ->
  shadow_doc (map (activate_if now p) dir) f d <-> shadow_doc dir f d /\ p d = false.
Proof.
  intros Hlife. split.
  - intros [Hin Hs]. apply list_elem_of_In, in_map_iff in Hin as ([g fr] & E & Hin%list_elem_of_In).
    unfold activate_if in E. cbn in E. destruct fr as [[]| |]; try done.
    destruct (is_shadow d0) eqn:Es; cbn [andb] in E; [|injection E as -> ->; congruence].
    destruct (p d0) eqn:Ep; [|by injection E as -> ->].
    destruct (Hlife g d0 (conj Hin Es)) as [d' Ed]. rewrite Ed in E. injection E as -> ->. by rewrite (activated_inactive _ _ _ Ed) in Hs.
  - intros [[Hin Hs] Hp]. split; [|done]. apply list_elem_of_In, in_map_iff. exists (f, Document (PDict d)).
    split; [|by apply list_elem_of_In]. unfold activate_if. cbn. by rewrite Hs, Hp.
Qed.

Lemma documents_map now p dir : Forall document dir -> Forall document (map (activate_if now p) dir).
Proof.
  intros Hd. apply Forall_map. eapply Forall_impl; [exact Hd|]. intros [f fr] [d E]. cbn in E. subst fr.
  unfold activate_if, document. cbn. destruct (_ && _); eauto.
Qed.

Lemma tidy_map now w p s log :
  tidy now w -> get_shadow_packs s = shadows (map (activate_if now p) w.(w_dir)) ->
  tidy now (World s (map (activate_if now p) w.(w_dir)) log).
Proof.
  intros [Hd Hf Hn Hs Hu Ht Hl] Hsh. assert (Hm : forall f d, shadow_doc (map (activate_if now p) (w_dir w)) f d -> shadow_doc (w_dir w) f d)
    by (intros f d H; by apply shadow_doc_map in H as [H _]).
  split; cbn [w_dir w_store].
  - by apply documents_map.
  - rewrite map_map. by rewrite (map_ext _ fst) by apply activate_if_fst.
  - apply Forall_map. eapply Forall_impl; [exact Hn|]. intros f H. by rewrite activate_if_fst.
  - done.
  - intros f d f' d' H1%Hm H2%Hm. by apply Hu.
  - intros f d H%Hm. by apply (Ht f).
  - intros f d H%Hm. by apply (Hl f).
Qed.

Lemma pack_name_source d f : pack_name (dict_set "_source_file" (PStr f) d) = pack_name d.
Proof. unfold pack_name. by rewrite get_set_ne. Qed.

Lemma first_named_tidy now w f d :
  tidy now w -> shadow_doc w.(w_dir) f d ->
  first_named (pack_name d) (get_shadow_packs w.(w_store)) = Some (dict_set "_source_file" (PStr f) d).
Proof.
  intros Ht Hd. rewrite (td_synced _ _ Ht). unfold first_named. fold pack_name.
  assert (Hin : dict_set "_source_file" (PStr f) d ∈ List.filter (fun p => bool_decide (pack_name p = pack_name d)) (shadows (w_dir w))).
  { apply filter_elem. split; [apply shadows_elem; eauto|]. rewrite pack_name_source. by apply bool_decide_eq_true_2. }
  destruct (List.filter _ _) as [|m ms] eqn:E; [by apply not_elem_of_nil in Hin|]. cbn [head]. f_equal.
  assert (Hm : m ∈ m :: ms) by left. rewrite <- E in Hm. apply filter_elem in Hm as [Hm Hn%bool_decide_eq_true].
  apply shadows_elem in Hm as (f' & d' & Hd' & ->). rewrite pack_name_source in Hn.
  assert (f' = f) by (by eapply (td_unique _ _ Ht)). subst f'. destruct Hd as [Hd _], Hd' as [Hd' _].
  pose proof (file_content _ _ _ _ (td_files _ _ Ht) Hd Hd') as [= <-]. done.
Qed.

Lemma read_file_elem dir f v : NoDup (map fst dir) -> (f, Document v) ∈ dir -> read_file f dir = Ok v.
Proof.
  intros Hn Hin. unfold read_file.
  assert (Hf : (f, Document v) ∈ List.filter (fun g => bool_decide (g.1 = f)) dir).
  { apply filter_elem. split; [done|]. by apply bool_decide_eq_true_2. }
  destruct (List.filter _ dir) as [|[g x] l] eqn:E; [by apply not_elem_of_nil in Hf|].
  assert (Hg : (g, x) ∈ (g, x) :: l) by left. rewrite <- E in Hg. apply filter_elem in Hg as [Hg Eg%bool_decide_eq_true]. cbn in Eg. subst g.
  by rewrite <- (file_content _ _ _ _ Hn Hin Hg).
Qed.

(** On a tidy directory, writing one pack back is activating it by name. *)
Lemma write_file_map now w f d d' :
  tidy now w -> shadow_doc w.(w_dir) f d -> activated now d = Ok d' ->
  write_file f (PDict d') w.(w_dir) = map (activate_if now (fun e => bool_decide (pack_name e = pack_name d))) w.(w_dir).
Proof.
  intros Ht Hd Ha. unfold write_file. apply map_ext_in. intros [g fr] Hg%list_elem_of_In. cbn [fst].
  destruct Hd as [Hin Hs]. unfold activate_if. cbn [fst snd]. destruct (decide (g = f)) as [-> |N].
  - rewrite (bool_decide_eq_true_2 (f = f)) by done. rewrite (file_content _ _ _ _ (td_files _ _ Ht) Hg Hin).
    rewrite Hs, (bool_decide_eq_true_2 (_ = _)) by done. cbn [andb]. by rewrite Ha.
  - rewrite (bool_decide_eq_false_2 (g = f)) by done. destruct fr as [[]| |]; try done.
    destruct (is_shadow d0) eqn:Es; [|done]. cbn [andb]. case_bool_decide as En; [|done]. destruct N.
    by apply (td_unique _ _ Ht g d0 f d).
Qed.

Lemma activate_step now w f d actor reason detail :
  tidy now w -> shadow_doc w.(w_dir) f d -> is_true (get d "observe_locked" PNone) = false ->
  exists s,
    let w' := World s (map (activate_if now (fun e => bool_decide (pack_name e = pack_name d))) w.(w_dir))
                (w.(w_log) ++ [Change reason f actor (activation_record (pack_name d) detail)]) in
    activate_shadow_pack now w (pack_name d) actor reason detail = (w', Ok f) /\ tidy now w'.
Proof.
  intros Ht Hd Hl. pose proof (write_file_map now w f d) as Hw. destruct (td_life _ _ Ht f d Hd) as [d' Ha].
  specialize (Hw d' Ht Hd Ha). unfold activate_shadow_pack. rewrite (td_strip _ _ Ht f d Hd), (first_named_tidy now w f d Ht Hd).
  assert (Hf : strip f = f /\ nonempty f = true).
  { pose proof (td_fnames _ _ Ht) as Hn. rewrite Forall_forall in Hn. by apply (Hn _ (proj1 Hd)). }
  destruct Hf as [Ef En]. rewrite get_set_eq. assert (Ep : por (PStr f) (get (dict_set "_source_file" (PStr f) d) "_file" PNone) = PStr f)
    by (unfold por; cbn [truthy]; by rewrite En).
  rewrite Ep. assert (Ep2 : por (PStr f) (PStr "") = PStr f) by (unfold por; cbn [truthy]; by rewrite En).
  rewrite Ep2. cbn [py_str]. rewrite Ef, En. cbn [negb]. rewrite (read_file_elem _ _ _ (td_files _ _ Ht) (proj1 Hd)).
  cbn [rbind need_dict]. unfold raise_if_observe_locked. rewrite Hl. cbn [rbind]. rewrite Ha, Hw.
  set (dir' := map _ _). assert (Hdocs : Forall document dir').
  { apply documents_map, (td_docs _ _ Ht). }
  destruct (load_rules_shadow w.(w_store) dir' Hdocs) as (s & El & Es). exists s. rewrite El. split; [done|]. by apply tidy_map.
Qed.

Lemma activate_if_twice now (p q : dict -> bool) dir :
  (forall f d, shadow_doc dir f d -> exists d', activated now d = Ok d') ->
  map (activate_if now q) (map (activate_if now p) dir) = map (activate_if now (fun d => p d || q d)) dir.
Proof.
  intros Hlife. rewrite map_map. apply map_ext_in. intros [f fr] Hin%list_elem_of_In. destruct fr as [[]| |]; try done.
  unfold activate_if at 2 3. cbn [fst snd]. destruct (is_shadow d) eqn:Es; cbn [andb]; [|unfold activate_if; cbn; by rewrite Es].
  destruct (p d) eqn:Ep; cbn [orb]; [|unfold activate_if; cbn; by rewrite Es].
  destruct (Hlife f d (conj Hin Es)) as [d' Ea]. rewrite Ea. unfold activate_if. cbn. by rewrite (activated_inactive _ _ _ Ea).
Qed.

Abbreviation target_names := (map (fun t : string * dict => pack_name t.2)).

Lemma promote_each_tidy now detail targets : forall w promoted,
  tidy now w ->
  Forall (fun t => shadow_doc w.(w_dir) t.1 t.2 /\ is_true (get t.2 "observe_locked" PNone) = false) targets ->
  NoDup (target_names targets) ->
  exists s log,
    promote_each now detail w (target_names targets) promoted
    = (World s (map (activate_if now (fun e => mem (pack_name e) (target_names targets))) w.(w_dir)) log,
       Ok (promoted ++ target_names targets))
    /\ tidy now (World s (map (activate_if now (fun e => mem (pack_name e) (target_names targets))) w.(w_dir)) log).
Proof.
  induction targets as [|[f d] ts IH]; intros w promoted Ht Hall Hn.
  - exists (w_store w), (w_log w). cbn [map promote_each]. rewrite app_nil_r.
    assert (E : map (activate_if now (fun e => mem (pack_name e) [])) (w_dir w) = w_dir w).
    { rewrite <- map_id. apply map_ext. intros [g fr]. unfold activate_if. destruct fr as [[]| |]; try done. cbn. by rewrite andb_false_r. }
    rewrite E. by destruct w.
  - inversion Hall as [|? ? [Hd Hl] Hts]; subst. cbn in Hd, Hl, Hn. apply NoDup_cons in Hn as [Hnew Hn].
    destruct (activate_step now w f d "auto_promote" "auto_promote_shadow_pack" detail Ht Hd Hl) as (s & Ea & Ht').
    set (w1 := World s _ _) in Ea, Ht'. destruct (IH w1 (promoted ++ [pack_name d]) Ht') as (s' & log & Ep & Ht''); [|done|].
    { eapply Forall_impl; [apply Forall_and; split; [exact Hts|apply Forall_forall; intros t Hin; exact (list_elem_of_fmap_2 (fun t : string * dict => pack_name t.2) _ _ Hin)]|].
      intros t [[Hs Hk] Hin]. split; [|done]. apply shadow_doc_map; [apply (td_life _ _ Ht)|]. split; [done|].
      apply bool_decide_eq_false_2. intros E. apply Hnew. by rewrite <- E. }
    assert (E : map (activate_if now (fun e => mem (pack_name e) (target_names ts))) (w_dir w1)
                = map (activate_if now (fun e => mem (pack_name e) (target_names ((f, d) :: ts)))) (w_dir w)).
    { unfold w1. cbn [w_dir]. rewrite activate_if_twice by apply (td_life _ _ Ht). apply map_ext. intros [g fr].
      unfold activate_if. destruct fr as [[]| |]; try done. cbn [snd fst map]. unfold mem at 2.
      by rewrite (bool_decide_ext (pack_name d0 ∈ pack_name d :: target_names ts) (pack_name d0 = pack_name d \/ pack_name d0 ∈ target_names ts)
        ltac:(apply elem_of_cons)), bool_decide_or. }
    exists s', log. cbn [map promote_each snd]. rewrite Ea. fold w1. rewrite Ep, E, <- app_assoc. rewrite E in Ht''. done.
Qed.

(** The files of the packs the tick is for, in directory order. *)
Definition target_of (f : string * file_read) : option (string * dict) :=
  match f.2 with
  | Document (PDict d) => if is_shadow d && ai_unlocked d then Some (f.1, d) else None
  | _ => None
  end.

Definition targets (dir : list (string * file_read)) : list (string * dict) := filter_map target_of (merge_sort name_le dir).

Lemma targets_elem dir f d : (f, d) ∈ targets dir <-> shadow_doc dir f d /\ ai_unlocked d = true.
Proof.
  unfold targets. rewrite filter_map_elem. setoid_rewrite merge_sort_Permutation. split.
  - intros ([g fr] & Hg & E). unfold target_of in E. cbn in E. destruct fr as [[]| |]; try done.
    destruct (is_shadow d0) eqn:Es; [|done]. destruct (ai_unlocked d0) eqn:Ea; [|done]. by injection E as -> ->.
  - intros [[Hin Hs] Ha]. eexists. split; [exact Hin|]. unfold target_of. cbn. by rewrite Hs, Ha.
Qed.

Lemma eligible_names dir :
  (forall f d, shadow_doc dir f d -> strip (pack_name d) = pack_name d) ->
  shadow_packs_eligible_for_auto_promote (shadows dir) = target_names (targets dir).
Proof.
  intros Hs. unfold shadows, targets.
  assert (Hin : forall f, f ∈ merge_sort name_le dir -> f ∈ dir) by (intros f; by rewrite merge_sort_Permutation).
  induction (merge_sort name_le dir) as [|[f fr] l IH]; [done|].
  assert (Hl : forall g, g ∈ l -> g ∈ dir) by (intros g Hg; apply Hin; by right). specialize (IH Hl).
  assert (Hf : (f, fr) ∈ dir) by (apply Hin; left). clear Hin Hl.
  cbn [filter_map]. unfold shadow_file at 1, target_of at 1. cbn [fst snd]. destruct fr as [[]| |]; try exact IH.
  destruct (is_shadow d) eqn:Es; cbn [andb]; [|exact IH]. unfold shadow_packs_eligible_for_auto_promote in *. cbn [filter_map].
  rewrite !get_set_ne by done. fold (pack_name d). rewrite (Hs f d (conj Hf Es)).
  unfold ai_unlocked at 1. rewrite (Hs f d (conj Hf Es)). destruct (truthy _), (is_true _), (nonempty _); cbn [negb andb orb map snd]; by rewrite ?IH.
Qed.

Lemma filter_map_NoDup {A B : Type} (g : A -> option B) l :
  NoDup l -> (forall x y b, g x = Some b -> g y = Some b -> x = y) -> NoDup (filter_map g l).
Proof.
  intros Hn Hg. induction Hn as [|x l Hx Hn IH]; simpl; [constructor|]. destruct (g x) as [b|] eqn:E; [|done].
  constructor; [|done]. intros (y & Hy & Ey)%filter_map_elem. by rewrite (Hg x y b E Ey) in Hx.
Qed.

Lemma target_names_NoDup now w : tidy now w -> NoDup (target_names (targets w.(w_dir))).
Proof.
  intros Ht. assert (Hn : NoDup (targets (w_dir w))).
  { unfold targets. apply filter_map_NoDup.
    - rewrite merge_sort_Permutation. apply (NoDup_fmap_1 fst). apply (td_files _ _ Ht).
    - intros [f fr] [g gr] [h d]. unfold target_of. cbn. destruct fr as [[]| |], gr as [[]| |]; try done.
      destruct (_ && _), (_ && _); try done. intros [= -> ->] [= -> ->]. done. }
  assert (He : forall t, t ∈ targets (w_dir w) -> shadow_doc (w_dir w) t.1 t.2) by (intros [f d] H; by apply targets_elem in H as [H _]).
  induction Hn as [|[f d] l Hx Hn IH]; cbn [map snd]; constructor.
  - intros Hin. apply list_elem_of_In, in_map_iff in Hin as ([g e] & E & Hg%list_elem_of_In). cbn in E.
    pose proof (He (f, d) ltac:(left)) as H1. pose proof (He (g, e) ltac:(by right)) as H2.
    assert (f = g) by (by apply (td_unique _ _ Ht f d g e)). subst g. destruct H1 as [H1 _], H2 as [H2 _].
    pose proof (file_content _ _ _ _ (td_files _ _ Ht) H1 H2) as [= ->]. done.
  - apply IH. intros t H. apply He. by right.
Qed.

(** With distinct names, the packs of the target names are the targets. *)
Lemma target_by_name now w :
  tidy now w ->
  map (activate_if now (fun e => mem (pack_name e) (target_names (targets w.(w_dir))))) w.(w_dir)
  = map (activate_if now ai_unlocked) w.(w_dir).
Proof.
  intros Ht. apply map_ext_in. intros [f fr] Hin%list_elem_of_In. unfold activate_if. destruct fr as [[]| |]; try done. cbn [snd fst].
  destruct (is_shadow d) eqn:Es; [|done]. cbn [andb].
  assert (Em : mem (pack_name d) (target_names (targets (w_dir w))) = ai_unlocked d); [|by rewrite Em].
  destruct (ai_unlocked d) eqn:Ea.
  - apply mem_spec. apply (list_elem_of_fmap_2 (fun t : string * dict => pack_name t.2) _ (f, d)). by apply targets_elem.
  - apply mem_false. intros Hm. apply list_elem_of_In, in_map_iff in Hm as ([h e] & En & Ht2%list_elem_of_In). cbn in En.
    apply targets_elem in Ht2 as [Hh Hae]. assert (h = f) by (by apply (td_unique _ _ Ht h e f d)). subst h.
    pose proof (file_content _ _ _ _ (td_files _ _ Ht) (proj1 Hh) Hin) as [= ->]. congruence.
Qed.

(** On a tidy rules directory an open tick does its whole job and no more:
    it succeeds, reports the names of the AI-authored shadow packs that are not
    locked, makes exactly their files active and leaves every other file as it
    was, and the packs still loaded as shadow are the other ones. *)
Theorem tick_exact erfc env file i files now w t g :
  tidy now w ->
  (let! p := load_provision files (strip t) in host_auto_promote env file p.(auto_promote)) = Ok true ->
  compute_desk_and_leftover_gates erfc i files (strip t) EmptyString = Ok g ->
  g.(g_leftover).(lg_gate).(blockers) = [] -> g.(g_desk) = gate_of [] ->
  exists w',
    maybe_auto_promote_shadow erfc env file i files now w t = (w', Ok (Tick true (target_names (targets w.(w_dir))) None))
    /\ w'.(w_dir) = map (activate_if now ai_unlocked) w.(w_dir)
    /\ (forall m, m ∈ get_shadow_packs w'.(w_store) <-> m ∈ get_shadow_packs w.(w_store) /\ ai_unlocked m = false).
Proof.
  intros Ht Hon Hg Hl Hd. unfold maybe_auto_promote_shadow. rewrite Hon, Hg, Hl, Hd. cbn [gate_of blockers promote_allowed no_items negb orb].
  rewrite (td_synced _ _ Ht), eligible_names by apply (td_strip _ _ Ht).
  destruct (promote_each_tidy now (tick_detail files (strip t)) (targets w.(w_dir)) w [] Ht) as (s & log & Ep & Ht'); [|by apply (target_names_NoDup now)|].
  { apply Forall_forall. intros [f d] [H1 H2]%targets_elem. split; [done|]. unfold ai_unlocked in H2. cbn [snd].
    destruct (truthy _); [|done]. by destruct (is_true _). }
  pose proof (target_by_name now w Ht) as E.
  rewrite Ep. eexists. split; [done|]. cbn [w_dir w_store]. split; [done|]. intros m.
  pose proof (td_synced _ _ Ht') as Hsy. cbn [w_store w_dir] in Hsy. rewrite Hsy, E, !shadows_elem.
  assert (Hai : forall f d, ai_unlocked (dict_set "_source_file" (PStr f) d) = ai_unlocked d)
    by (intros f d; unfold ai_unlocked; rewrite pack_name_source, !get_set_ne; done).
  split.
  - intros (f & d & [Hs Ha]%shadow_doc_map & ->); [|apply (td_life _ _ Ht)]. split; [by exists f, d|]. by rewrite Hai.
  - intros [(f & d & Hs & ->) Ha]. exists f, d. split; [|done]. apply shadow_doc_map; [apply (td_life _ _ Ht)|]. by rewrite Hai in Ha.
Qed.

(** ** A green tenant *)

Definition stricter_audit : pyval :=
  PDict [("payload_snapshot", PDict [("policy_routing", PDict [("champion_decision", PStr "allow"); ("challenger_decision", PStr "deny")])])].

Definition green : gate_inputs :=
  Inputs [("healthy", PBool true)] (repeat stricter_audit 20) (Labels ∅ ∅) PNone None "http://cases"
    (Some (200, Some (PDict [("leftovers", PList [])]))) None false (CapsEnv None None None) (WindowEnv "0" "0" EmptyString)
    (DateTime 0 (Some 0)).

Definition acme_files : gmap string file_read :=
  {[provision_token "acme" := Document (PDict [("auto_promote", PBool true)])]}.

Definition shadow_pack (name : string) (ai : bool) : file_read :=
  Document (PDict [("name", PStr name); ("mode", PStr "shadow"); ("is_ai_authored", PBool ai)]).

Definition loaded (dir : list (string * file_read)) : world := World (load_rules (MkStore [] [] [] None 0) (Some dir)).1 dir [].

Definition two_packs : world := loaded [("ai.json", shadow_pack "p" true); ("human.json", shadow_pack "q" false)].
Definition same_names : world := loaded [("human.json", shadow_pack "p" false); ("later_ai.json", shadow_pack "p" true)].

Definition demo_tick (w : world) : world * result tick_answer :=
  maybe_auto_promote_shadow (fun x => x) None None green acme_files "now" w "acme".

Definition modes (w : world) : list (string * pyval) :=
  map (fun f => (f.1, match f.2 with Document (PDict d) => get d "mode" PNone | _ => PNone end)) w.(w_dir).

Lemma two_packs_docs f d : shadow_doc two_packs.(w_dir) f d ->
  (f, d) = ("ai.json", [("name", PStr "p"); ("mode", PStr "shadow"); ("is_ai_authored", PBool true)])
  \/ (f, d) = ("human.json", [("name", PStr "q"); ("mode", PStr "shadow"); ("is_ai_authored", PBool false)]).
Proof.
  intros [Hin _]. cbn in Hin. apply elem_of_cons in Hin as [[= -> ->]|Hin]; [by left|].
  apply list_elem_of_singleton in Hin. injection Hin as -> ->. by right.
Qed.

Lemma two_packs_tidy : tidy "now" two_packs.
Proof.
  split.
  - repeat constructor; unfold document, shadow_pack; cbn; eauto.
  - apply (bool_decide_unpack _). vm_compute. exact I.
  - repeat constructor.
  - vm_compute. reflexivity.
  - intros f d f' d' [E|E]%two_packs_docs [E'|E']%two_packs_docs; injection E as -> ->; injection E' as -> ->; done.
  - intros f d [E|E]%two_packs_docs; injection E as -> ->; reflexivity.
  - intros f d [E|E]%two_packs_docs; injection E as -> ->; eexists; reflexivity.
Qed.

Definition green_gates : gates :=
  match compute_desk_and_leftover_gates (fun x => x) green acme_files "acme" EmptyString with
  | Ok g => g
  | Err _ => Gates (LeftoverGate (gate_of []) 0 0 0 [] (Helpfulness 0 0 0 None true [])) (gate_of []) (gate_of [])
  end.

Lemma tick_exact_witness :
  exists w', demo_tick two_packs = (w', Ok (Tick true ["p"] None))
    /\ modes w' = [("ai.json", PStr "active"); ("human.json", PStr "shadow")].
Proof.
  destruct (tick_exact (fun x => x) None None green acme_files "now" two_packs "acme" green_gates two_packs_tidy
    ltac:(vm_compute; reflexivity) ltac:(vm_compute; reflexivity) ltac:(vm_compute; reflexivity) ltac:(vm_compute; reflexivity))
    as (w' & E & Ed & _).
  exists w'. split; [exact E|]. unfold modes. rewrite Ed. vm_compute. reflexivity.
Defined.

Lemma tick_guarded_witness : exists p, load_provision acme_files "acme" = Ok p /\ p.(auto_promote) = true.
Proof.
  assert (Hw : (demo_tick two_packs).1 <> two_packs).
  { intros E%(f_equal (fun w => length w.(w_log))). vm_compute in E. discriminate. }
  apply (proj1 (tick_guarded (fun x => x) None None green acme_files "now" two_packs "acme" (demo_tick two_packs).1
    (demo_tick two_packs).2 (surjective_pairing _) Hw)).
Defined.

Definition demo_promote : world * result string :=
  promote_shadow_pack (fun x => x) green acme_files "now" two_packs "acme" "q" EmptyString "ana" ["analyst"].

Lemma promote_guarded_witness :
  exists g, compute_desk_and_leftover_gates (fun x => x) green acme_files "acme" "q" = Ok g
    /\ g.(g_leftover).(lg_gate).(blockers) = [].
Proof.
  assert (Hw : demo_promote.1 <> two_packs).
  { intros E%(f_equal (fun w => length w.(w_log))). vm_compute in E. discriminate. }
  destruct (promote_guarded (fun x => x) green acme_files "now" two_packs "acme" "q" EmptyString "ana" ["analyst"] demo_promote.1
    demo_promote.2 (surjective_pairing _) Hw) as (g & E & Hl & _).
  exists g. split; [exact E|exact Hl].
Defined.

(** ** Activation is by name *)

Lemma read_written f v g dir : g <> f -> read_file g (write_file f v dir) = read_file g dir.
Proof.
  intros N. unfold read_file, write_file. induction dir as [|[h x] dir IH]; [done|]. cbn [map List.filter fst].
  destruct (decide (h = f)) as [-> |Nf].
  - rewrite (bool_decide_eq_true_2 (f = f)) by done. cbn [fst]. by rewrite (bool_decide_eq_false_2 (f = g)).
  - rewrite (bool_decide_eq_false_2 (h = f)) by done. cbn [fst]. by destruct (bool_decide (h = g)).
Qed.

Lemma read_own_write f v dir u : read_file f dir = Ok u -> read_file f (write_file f v dir) = Ok v.
Proof.
  unfold read_file, write_file. induction dir as [|[h x] dir IH]; [done|]. cbn [map List.filter fst].
  destruct (decide (h = f)) as [-> |N].
  - rewrite (bool_decide_eq_true_2 (f = f)) by done. cbn [fst]. by rewrite (bool_decide_eq_true_2 (f = f)).
  - rewrite (bool_decide_eq_false_2 (h = f)) by done. cbn [fst]. by rewrite (bool_decide_eq_false_2 (h = f)).
Qed.

(** A promotion goes by name alone: the file it makes active is the one of
    the first loaded shadow pack with that name, whoever wrote that pack, and no
    other file changes. *)
Theorem promotion_by_name now w name actor reason detail w' f :
  activate_shadow_pack now w name actor reason detail = (w', Ok f) ->
  (exists m, first_named (strip name) (get_shadow_packs w.(w_store)) = Some m
     /\ f = strip (py_str (por (por (get m "_source_file" PNone) (get m "_file" PNone)) (PStr EmptyString))))
  /\ (exists d, read_file f w'.(w_dir) = Ok (PDict d) /\ get d "mode" PNone = PStr "active")
  /\ (forall g, g <> f -> read_file g w'.(w_dir) = read_file g w.(w_dir)).
Proof.
  unfold activate_shadow_pack. destruct (first_named _ _) as [m|]; [|done]. set (fname := strip _).
  destruct (negb (nonempty fname)); [done|]. destruct (let! v := _ in _) as [pack|] eqn:Ep; [|done].
  destruct (load_rules _ _) as [s [[]|]]; [|done]. intros [= <- <-]. cbn [w_dir]. split; [by exists m|]. split.
  - exists pack. apply rbind_Ok in Ep as (v & Hr & Ep). split; [by eapply read_own_write|].
    apply rbind_Ok in Ep as (d & _ & Ep). apply rbind_Ok in Ep as (u & _ & Ep). by eapply activated_mode.
  - intros g N. by apply read_written.
Qed.

(** The tick is for the AI-authored pack; the analyst's pack of the same name
    goes live, and the AI-authored one stays in shadow. *)
Lemma promotion_by_name_witness :
  (exists m, first_named "p" (get_shadow_packs same_names.(w_store)) = Some m /\ get m "is_ai_authored" PNone = PBool false)
  /\ shadow_packs_eligible_for_auto_promote (get_shadow_packs same_names.(w_store)) = ["p"]
  /\ modes (demo_tick same_names).1 = [("human.json", PStr "active"); ("later_ai.json", PStr "shadow")].
Proof.
  split; [|split; vm_compute; reflexivity].
  destruct (promotion_by_name "now" same_names "p" "auto_promote" "auto_promote_shadow_pack" []
    (activate_shadow_pack "now" same_names "p" "auto_promote" "auto_promote_shadow_pack" []).1 "human.json"
    ltac:(vm_compute; reflexivity)) as ((m & E & _) & _).
  exists m. split; [exact E|]. vm_compute in E. injection E as <-. reflexivity.
Defined.

(** A name with blanks around it is eligible but never found: the tick raises,
    and the packs after it are not promoted. *)
Example blank_name_aborts_tick :
  map (fun w => (rmap tick_promoted (demo_tick w).2, modes (demo_tick w).1))
    [loaded [("a.json", shadow_pack " p " true); ("b.json", shadow_pack "q" true)]]
  = [(Err KeyError, [("a.json", PStr "shadow"); ("b.json", PStr "shadow")])].
Proof. vm_compute. reflexivity. Qed.
