(* ===== verification/PackRules.v ===== *)
(** What may be written as a rule pack: the structural validation of
    [decision_api/rule_pack_validation.py] and, from [decision_api/rule_api.py],
    the request bodies, their translation to packs, the field check and the
    contract of AI-authored packs; and that a pack written from a request body
    cannot make an evaluation raise.

    Request bodies are as Pydantic validated them; the field catalogue of the
    tenant is an argument. *)

From Stdlib Require Import ZArith Lia Ascii String Bool SpecFloat.
From stdpp Require Import base option list strings gmap.
From S2P Require Import Prelude PyFloat PyValue RuleMatch GraphContract AstRules SignalResolver JsonRules PackEvaluator Promotion.
Import GraphContract.Contract JsonRules.Rollout.
Local Open Scope Z_scope.

(** * Structural validation *)

(** [abs(x)]. *)
Definition fabs (x : float) : float := SFabs x.

(** [for i, x in enumerate(l)]. *)
Definition enumerate {A : Type} (l : list A) : list (Z * A) := imap (fun i x => (Z.of_nat i, x)) l.

Definition errors_if (b : bool) (msg : string) : list string := if b then [msg] else [].

Definition condition_errors (rid : string) (jc : Z * pyval) : list string :=
  let at_j := "Rule " +:+ rid +:+ ", condition " +:+ Z_to_string jc.1 +:+ ": " in
  match jc.2 with
  | PDict c =>
      errors_if (negb (truthy (get c "field" PNone))) (at_j +:+ "missing 'field'")
      ++ errors_if (eq_str (get c "op" PNone) "regex" && (256 <? str_len (py_str (get c "value" (PStr EmptyString)))))
           (at_j +:+ "regex pattern too long")
  | _ => [at_j +:+ "must be an object"]
  end.

Definition rule_errors (ir : Z * pyval) : result (list string) :=
  let! rule := need_dict ir.2 in
  let rid := py_str (get rule "id" (PStr ("rule_" +:+ Z_to_string ir.1))) in
  let conditions := por (get rule "when" (PList [])) (PList []) in
  let has_ast := negb (is_none (get rule "when_ast" PNone)) in
  let has_flat := is_list conditions && truthy conditions in
  let! n := py_len conditions in
  let! cs := py_iter conditions in
  let sd := get rule "score_delta" (PInt 0) in
  let! x := py_float sd in
  Ok (errors_if (has_ast && has_flat) ("Rule " +:+ rid +:+ ": cannot set both non-empty when and when_ast (ambiguous)")
      ++ errors_if (negb has_ast && (n =? 0)) ("Rule " +:+ rid +:+ ": requires non-empty when or when_ast")
      ++ errors_if (20 <? n) ("Rule " +:+ rid +:+ ": too many conditions (" +:+ Z_to_string n +:+ ", max 20)")
      ++ concat (map (condition_errors rid) (enumerate cs))
      ++ errors_if (fltb (litZ 100) (fabs x)) ("Rule " +:+ rid +:+ ": score_delta " +:+ py_str sd +:+ " exceeds bounds (-100, 100)")).

Definition canary_errors (canary : pyval) : result (list string) :=
  match canary with
  | PNone => Ok []
  | _ => match py_float canary with
         | Ok c => Ok (errors_if (fltb c (litZ 0) || fltb (litZ 100) c) "canary_percent must be between 0 and 100")
         | Err e => if is_type_or_value_error e then Ok ["canary_percent must be a number"] else Err e
         end
  end.

Definition validate_rule_pack (pack : dict) : result (list string) :=
  let! canary := canary_errors (get pack "canary_percent" PNone) in
  let eff := get pack "effective_at" PNone in
  let appr := get pack "approved_by" PNone in
  let rules := get pack "rules" (PList []) in
  let! n := py_len rules in
  let! rs := py_iter rules in
  let! ess := rmapM rule_errors (enumerate rs) in
  Ok (errors_if (negb (py_eq (get pack "version" PNone) (PInt 1))) "version must be 1"
      ++ canary
      ++ errors_if (negb (is_none eff) && negb (is_str eff)) "effective_at must be an ISO-8601 string when set"
      ++ errors_if (negb (is_none appr) && (negb (is_str appr) || (256 <? str_len (py_str appr)))) "approved_by must be a short string when set"
      ++ errors_if (200 <? n) ("Too many rules: " +:+ Z_to_string n +:+ " (max 200)")
      ++ concat ess).

(** * The field check and the AI contract *)

(** [x in s] for a set of strings: an unhashable [x] raises. *)
Definition in_str_set (x : pyval) (s : list string) : result bool :=
  match x with
  | PStr t => Ok (mem t s)
  | PList _ | PDict _ => Err TypeError
  | _ => Ok false
  end.

Definition field_error (allowed : list string) (rid : string) (cond : pyval) : result (list string) :=
  match cond with
  | PDict c =>
      let field := por (get c "field" PNone) (PStr EmptyString) in
      if negb (truthy field) then Ok []
      else
        let! ok := in_str_set field allowed in
        Ok (errors_if (negb ok)
              ("rule " +:+ rid +:+ ": unknown field '" +:+ py_str field
               +:+ "'; map it or add a registry row via GET /v1/fields/discover"))
  | _ => Ok []
  end.

Definition rule_field_errors (allowed : list string) (rule : pyval) : result (list string) :=
  match rule with
  | PDict rule =>
      let! conds := iter_or_empty (get rule "when" PNone) in
      rmap (@concat _) (rmapM (field_error allowed (py_str (get rule "id" (PStr "unknown")))) conds)
  | _ => Ok []
  end.

Definition when_field_errors (pack : dict) (allowed : list string) : result (list string) :=
  let! rules := iter_or_empty (get pack "rules" PNone) in
  rmap (@concat _) (rmapM (rule_field_errors allowed) rules).

Definition _AI_PACK_ALLOWED_OPS : list string :=
  ["eq"; "not_eq"; "gt"; "gte"; "lt"; "lte"; "in"; "not_in"; "contains"; "starts_with"; "ends_with"; "exists"; "not_exists";
   "is_true"; "is_false"].

Definition _AI_PACK_SCORE_DELTA_MIN : float := litZ 5.
Definition _AI_PACK_SCORE_DELTA_MAX : float := litZ 30.

Definition op_error (rid : string) (cond : pyval) : result (list string) :=
  match cond with
  | PDict c =>
      let op := get c "op" (PStr "eq") in
      let! ok := in_str_set op _AI_PACK_ALLOWED_OPS in
      Ok (errors_if (negb ok) ("rule " +:+ rid +:+ ": disallowed op '" +:+ py_str op +:+ "'"))
  | _ => Ok []
  end.

Definition ai_rule_errors (rule : pyval) : result (list string) :=
  match rule with
  | PDict rule =>
      let rid := py_str (get rule "id" (PStr "unknown")) in
      match py_float (get rule "score_delta" PNone) with
      | Err e => if is_type_or_value_error e then Ok ["rule " +:+ rid +:+ ": score_delta is not a number"] else Err e
      | Ok sd =>
          let! conds := iter_or_empty (get rule "when" PNone) in
          let! ops := rmapM (op_error rid) conds in
          Ok (errors_if (fltb sd _AI_PACK_SCORE_DELTA_MIN || fltb _AI_PACK_SCORE_DELTA_MAX sd)
                ("rule " +:+ rid +:+ ": score_delta " +:+ f_repr sd +:+ " outside [5.0, 30.0]") ++ concat ops)
      end
  | _ => Ok []
  end.

Definition _validate_ai_authored_pack (allowed : list string) (pack : dict) : result (list string) :=
  let rules := por (get pack "rules" PNone) (PList []) in
  let! fields := when_field_errors pack allowed in
  let! rs := py_iter rules in
  let! ess := rmapM ai_rule_errors rs in
  Ok (errors_if (negb (eq_str (get pack "mode" PNone) "shadow")) "mode must be 'shadow'"
      ++ errors_if (negb (is_true (get pack "is_ai_authored" PNone))) "is_ai_authored must be true"
      ++ errors_if (negb (truthy rules)) "rules must not be empty"
      ++ fields ++ concat ess).

(** * Request bodies *)

Record RuleCondition : Type := MkCondition { rc_field : string; rc_op : string; rc_value : pyval }.

Record RuleIn : Type := MkRuleIn {
  ri_id : string; ri_when : list RuleCondition; ri_when_ast : option dict; ri_tags : list string; ri_score_delta : float;
  ri_description : string }.

Record TagRuleIn : Type := MkTagRuleIn {
  ti_id : string; ti_any_tag : list string; ti_tags : list string; ti_score_delta : float; ti_description : string }.

Record RulePackIn : Type := MkPackIn {
  pi_name : string; pi_rules : list RuleIn; pi_tag_rules : list TagRuleIn; pi_canary_percent : option float;
  pi_effective_at : option string; pi_approved_by : option string }.

(** [hex8] is the random part of an id that is not given. *)
Definition _rule_to_dict (hex8 : string) (r : RuleIn) : dict :=
  [("id", PStr (str_or r.(ri_id) ("rule_" +:+ hex8)));
   ("when", PList (map (fun c => PDict [("field", PStr c.(rc_field)); ("op", PStr c.(rc_op)); ("value", c.(rc_value))]) r.(ri_when)));
   ("tags", str_list r.(ri_tags)); ("score_delta", PFloat r.(ri_score_delta)); ("description", PStr r.(ri_description))]
  ++ match r.(ri_when_ast) with Some a => [("when_ast", PDict a)] | None => [] end.

Definition _tag_rule_to_dict (hex8 : string) (r : TagRuleIn) : dict :=
  [("id", PStr (str_or r.(ti_id) ("tagrule_" +:+ hex8))); ("any_tag", str_list r.(ti_any_tag)); ("tags", str_list r.(ti_tags));
   ("score_delta", PFloat r.(ti_score_delta)); ("description", PStr r.(ti_description))].

Definition opt_val {A : Type} (f : A -> pyval) (o : option A) : pyval := match o with Some x => f x | None => PNone end.

(** The pack [create_rule_pack] and [update_rule_pack] write; [fresh] supplies
    the random ids. *)
Definition authored_pack (fresh : nat -> string) (body : RulePackIn) : dict :=
  [("version", PInt 1); ("name", PStr body.(pi_name)); ("mode", PStr "shadow");
   ("rules", PList (imap (fun i r => PDict (_rule_to_dict (fresh i) r)) body.(pi_rules)));
   ("tag_rules", PList (imap (fun i r => PDict (_tag_rule_to_dict (fresh (length body.(pi_rules) + i)%nat) r)) body.(pi_tag_rules)));
   ("canary_percent", opt_val PFloat body.(pi_canary_percent)); ("effective_at", opt_val PStr body.(pi_effective_at));
   ("approved_by", opt_val PStr body.(pi_approved_by))].

(** * Packs that cannot make an evaluation raise *)

Definition cond_typed (v : pyval) : bool := match v with PDict c => is_str (get c "field" PNone) | _ => true end.

Definition delta_typed (v : pyval) : bool :=
  match v with PNone | PFloat _ => true | PInt n => Z.abs n <=? 100 | _ => false end.

Definition tags_typed (v : pyval) : bool := match v with PNone | PList _ => true | _ => false end.

Definition body_typed (r : dict) : bool := tags_typed (get r "tags" PNone) && delta_typed (get r "score_delta" PNone).

Definition rule_typed (v : pyval) : bool :=
  match v with PDict r => forallb cond_typed (as_list (get r "when" PNone)) && body_typed r | _ => true end.

Definition tag_rule_typed (v : pyval) : bool := match v with PDict r => body_typed r | _ => true end.

Definition canary_typed (v : pyval) : bool := match v with PNone | PFloat _ => true | _ => false end.

Definition pack_typed (p : dict) : bool :=
  forallb rule_typed (as_list (get p "rules" PNone)) && forallb tag_rule_typed (as_list (get p "tag_rules" PNone))
  && canary_typed (get p "canary_percent" PNone) && is_ok (_parse_effective_at (get p "effective_at" PNone)).

Lemma is_ok_spec {A : Type} (m : result A) : is_ok m = true <-> exists a, m = Ok a.
Proof. destruct m; simpl; split; [eauto|done|done|by intros [? ?]]. Qed.

Lemma rfold_total {A B : Type} (f : B -> A -> result B) l :
  (forall b x, x ∈ l -> exists b', f b x = Ok b') -> forall b, exists b', rfold f b l = Ok b'.
Proof.
  induction l as [|x l IH]; intros H b; simpl; [by exists b|].
  destruct (H b x ltac:(left)) as [b' ->]. apply IH. intros. apply H. by right.
Qed.

Lemma small_int_float n : Z.abs n <= 100 -> exists x, f_of_Z n = Ok x.
Proof.
  intros Hn. apply is_ok_spec.
  assert (Hall : forallb (fun k => is_ok (f_of_Z (Z.of_nat k - 100))) (seq 0 201) = true) by (vm_compute; reflexivity).
  rewrite forallb_forall in Hall. specialize (Hall (Z.to_nat (n + 100))). rewrite in_seq in Hall.
  rewrite Z2Nat.id in Hall by lia. replace (n + 100 - 100) with n in Hall by lia. apply Hall. lia.
Qed.

Lemma add_delta_total delta v : delta_typed v = true -> exists x, add_score_delta delta v = Ok x.
Proof.
  destruct v as [| |n|f| | |]; try done; intros H; unfold add_score_delta, por; cbn [truthy py_float].
  - eauto.
  - apply Z.leb_le in H. destruct (small_int_float n H) as [x E]. destruct (n =? 0); cbn [negb py_float]; [eauto|]. rewrite E. eauto.
  - destruct (f_truthy f); cbn [py_float]; eauto.
Qed.

Lemma fire_total acc r pf rid kind : body_typed r = true -> exists acc', fire acc r pf rid kind = Ok acc'.
Proof.
  intros [Ht Hd]%andb_prop. unfold fire, iter_or_empty. destruct (add_delta_total (po_delta acc) _ Hd) as [x Ex].
  destruct (get r "tags" PNone) as [| | | | |l|]; try done; [|destruct l]; cbn [truthy py_iter rbind]; rewrite Ex; eauto.
Qed.

Lemma eval_flat_total F cs : forallb cond_typed cs = true -> exists b, eval_flat F cs = Ok b.
Proof.
  induction cs as [|c cs IH]; [by exists true|]. cbn [forallb]. intros [Hc Hcs]%andb_prop.
  destruct c as [| | | | | |d]; cbn [eval_flat]; eauto. destruct (_ || _); [eauto|]. cbn [cond_typed] in Hc.
  destruct (get d "field" PNone) as [| | | |k| |] eqn:Ek; try done. cbn [dict_get_any rbind].
  destruct (match_condition_total F d k Ek) as [b ->]. cbn [rbind]. destruct b; eauto.
Qed.

Lemma rule_when_total reg r F :
  forallb cond_typed (as_list (get r "when" PNone)) = true -> exists b, evaluate_rule_when reg r F = Ok b.
Proof.
  intros H. unfold evaluate_rule_when. destruct (_ && _); [eauto|]. destruct (negb (is_none _)); [eauto|].
  destruct (negb _); [eauto|]. destruct (_ <? _); [eauto|]. by apply eval_flat_total.
Qed.

Section Progress.
Context (reg : registry) (expired : nat -> bool) (now : Z).
Hypothesis Htime : forall n, expired n = false.

Lemma eval_rule_total F pf acc v : rule_typed v = true -> exists acc', eval_rule reg expired F pf acc v = Ok acc'.
Proof.
  destruct v as [| | | | | |r]; cbn [eval_rule rule_typed]; eauto. intros [Hw Hb]%andb_prop. rewrite Htime.
  destruct (rule_when_total reg r F Hw) as [b ->]. cbn [rbind]. destruct b; [by apply fire_total|eauto].
Qed.

Lemma eval_tag_rule_total tags pf acc v : tag_rule_typed v = true -> exists acc', eval_tag_rule expired tags pf acc v = Ok acc'.
Proof.
  destruct v as [| | | | | |r]; cbn [eval_tag_rule tag_rule_typed]; eauto. intros Hb. rewrite Htime.
  destruct (por _ _); eauto. destruct (evaluate_tag_rule_when _ _); [by apply fire_total|eauto].
Qed.

Lemma rule_slice_typed (p : pyval -> bool) v : forallb p (as_list v) = true -> forall x, x ∈ rule_slice v -> p x = true.
Proof.
  rewrite forallb_forall. intros H x Hx. apply H. apply list_elem_of_In. unfold rule_slice, por in Hx.
  destruct (truthy v); [|rewrite take_nil in Hx; by apply not_elem_of_nil in Hx].
  destruct v as [| | | | |l|]; try by apply not_elem_of_nil in Hx. apply elem_of_take in Hx as (i & Hi & _).
  by apply list_elem_of_lookup_2 in Hi.
Qed.

Lemma should_apply_total p t e m : canary_typed (get p "canary_percent" PNone) = true ->
  is_ok (_parse_effective_at (get p "effective_at" PNone)) = true -> exists r, _pack_should_apply p t e m now = Ok r.
Proof.
  intros Hc [eff He]%is_ok_spec. unfold _pack_should_apply. destruct (bool_decide _); [eauto|]. rewrite He. cbn [rbind].
  destruct (before _ _); [eauto|]. destruct (bool_decide _); [eauto|]. destruct (get p "canary_percent" PNone); try done; cbn [canary_gate py_float]; [eauto|].
  repeat case_match; eauto.
Qed.

(** Progress: a well-typed pack evaluates. *)
Lemma one_pack_total p F tags t e m n :
  pack_typed p = true -> exists out, _evaluate_one_pack reg expired now p F tags t e m n = Ok out.
Proof.
  unfold pack_typed. intros [[[Hr Ht]%andb_prop Hc]%andb_prop He]%andb_prop. unfold _evaluate_one_pack.
  destruct (should_apply_total p t e m Hc He) as [[ap why] ->]. cbn [rbind]. destruct (negb ap); [eauto|].
  destruct (rfold_total (eval_rule reg expired F (str_or (pf_base p) "unknown")) (rule_slice (get p "rules" PNone))
    ltac:(intros; by apply eval_rule_total; eapply rule_slice_typed) (start n)) as [acc ->]. cbn [rbind].
  destruct (rfold_total (eval_tag_rule expired tags (str_or (pf_base p) "unknown")) (rule_slice (get p "tag_rules" PNone))
    ltac:(intros; by apply eval_tag_rule_total; eapply rule_slice_typed) acc) as [acc' ->]. cbn [rbind]. eauto.
Qed.

Lemma packs_total (hs : resolver) packs F tags t e m ex :
  forallb pack_typed packs = true -> exists out, evaluate_packs_python reg hs expired now packs F tags t e m ex = Ok out.
Proof.
  rewrite forallb_forall. intros H. unfold evaluate_packs_python. set (el := _iter_eligible_packs packs ex).
  destruct (rfold_total (eval_pack reg expired now (merge_features_with_resolved_from_packs hs F el (or_default t) (or_default e)) tags
    (or_default t) (or_default e) (norm_mode m)) el) with (b := eval_start) as [acc ->]; [|cbn [rbind]; eauto].
  intros b p Hp. unfold eval_pack. assert (Hty : pack_typed p = true).
  { apply H. apply list_elem_of_In. unfold el, _iter_eligible_packs in Hp. by apply filter_elem in Hp as [Hp _]. }
  match goal with |- context [_evaluate_one_pack _ _ _ p ?F ?g ?t ?e ?m ?n] => destruct (one_pack_total p F g t e m n Hty) as [[po pf] ->] end.
  cbn [rbind]. eauto.
Qed.
End Progress.

Lemma imap_elem {A B : Type} (f : nat -> A -> B) l y : y ∈ imap f l -> exists i x, x ∈ l /\ y = f i x.
Proof. intros (i & Hi)%list_elem_of_lookup_1. rewrite list_lookup_imap in Hi. apply fmap_Some in Hi as (x & Hx & ->). exists i, x. split; [by eapply list_elem_of_lookup_2|done]. Qed.

Lemma rule_dict_typed hex r : rule_typed (PDict (_rule_to_dict hex r)) = true.
Proof.
  unfold rule_typed, _rule_to_dict, body_typed, str_list. cbn [app get dict_lookup bool_decide decide default].
  cbn. rewrite andb_true_r. induction (ri_when r) as [|c cs IH]; [done|]. cbn. exact IH.
Qed.

(** A pack written from a request body is well typed, its activation time aside. *)
Lemma authored_pack_typed fresh body :
  pack_typed (authored_pack fresh body) = is_ok (_parse_effective_at (opt_val PStr body.(pi_effective_at))).
Proof.
  unfold pack_typed, authored_pack.
  match goal with |- forallb ?p ?l && forallb ?q ?m && ?c && ?e = _ => assert (H1 : forallb p l = true); [|assert (H2 : forallb q m = true)] end.
  - apply forallb_forall. intros v Hv%list_elem_of_In. cbn in Hv. apply imap_elem in Hv as (i & r & _ & ->). apply rule_dict_typed.
  - apply forallb_forall. intros v Hv%list_elem_of_In. cbn in Hv. apply imap_elem in Hv as (i & r & _ & ->). done.
  - rewrite H1, H2. cbn. by destruct (pi_canary_percent body).
Qed.
