(* ===== verification/L2Draft.v ===== *)
(** Drafts from leftovers and analyst overrides, and the demotion of live packs:
    [decision_api/l2_draft.py].

    An [L2DraftError] is the HTTP error it becomes, with its status and code;
    [now] is the timestamp [_now] returns.  A receipt is the dictionary of its
    attributes.  Updates of a pack in place are returned as the new pack. *)

From Stdlib Require Import ZArith Lia Ascii String Bool SpecFloat.
From stdpp Require Import base option list strings gmap.
From S2P Require Import Prelude PyFloat PyValue Sha256 JsonRules Promotion AutoPromote PackRules.
Local Open Scope Z_scope.

Definition SCHEMA_VERSION : Z := 1.
Definition OVERRIDE_WHY_MIN : Z := 8.
Definition _HUMAN : list string := ["human"; "seed"; EmptyString].
Definition _AI_MARKERS : list string := ["scout"; "vllm"; "vertex"; "ai"; "llm"; "byom"; "assist"; "openai"; "anthropic"].
Definition _CLOSED : list string := ["abandoned"; "promoted"].
Definition _DEMOTE_PREFIXES : list string := ["scout"; "byom"; "llm"; "vllm"; "vertex"; "openai"; "anthropic"].
Definition DEMOTE_PROPOSED : string := "proposed".
Definition DEMOTE_CONFIRMED : string := "confirmed".

(** * Sources and open drafts *)

Definition source_key (leftover_id hil_event_id : string) : string :=
  let leftover := strip leftover_id in
  if nonempty leftover then "leftover:" +:+ leftover else "hil:" +:+ strip hil_event_id.

Definition compute_pack_hash (pack : dict) : string :=
  sha256_hex (json_dumps (DumpOpts true true true)
    (PDict [("name", get pack "name" PNone); ("mode", get pack "mode" PNone); ("rules", get pack "rules" PNone)])).

(** [(v or {}).get(...)]: the mapping, or [AttributeError]. *)
Definition mapping_or_empty (v : pyval) : result dict := need_dict (por v (PDict [])).

Definition draft_key (pack : dict) : result string :=
  let! ev := mapping_or_empty (get pack "evidence" PNone) in
  Ok (str_or (strip (str_or_empty (get pack "source_key" PNone)))
        (source_key (str_or_empty (get ev "leftover_id" PNone)) (str_or_empty (get ev "hil_event_id" PNone)))).

Definition draft_state (pack : dict) : result string :=
  let! life := mapping_or_empty (get pack "lifecycle" PNone) in
  Ok (py_str (por (get life "state" PNone) (PStr "observe"))).

Fixpoint first_open (want : string) (packs : list dict) : result (option dict) :=
  match packs with
  | [] => Ok None
  | pack :: packs' =>
      let! key := draft_key pack in
      let! state := draft_state pack in
      if bool_decide (key = want) && negb (mem state _CLOSED) then Ok (Some pack) else first_open want packs'
  end.

Definition find_open_draft (packs : list dict) (leftover_id hil_event_id : string) : result (option dict) :=
  let want := source_key leftover_id hil_event_id in
  if endswith want ":" then Ok None else first_open want packs.

(** * Building a draft *)

Definition _field (obj : dict) (name : string) : string := strip (str_or_empty (get obj name PNone)).

Definition authored_by_kind (authored_by : string) (is_ai_authored : bool) (llm_url : string) : string * bool :=
  let token := lower (strip authored_by) in
  let human := (if mem token _HUMAN then token else "human", false) in
  if negb (nonempty (strip llm_url)) then human
  else if is_ai_authored || mem token _AI_MARKERS then (str_or token "scout", true)
  else human.

Definition seed_rule (soften : bool) (entity : string) : pyval :=
  PDict [("id", PStr (if soften then "leftover_soften" else "leftover_observe"));
         ("when", PList [PDict [("field", PStr "entity_id"); ("op", PStr "eq"); ("value", PStr entity)]]);
         ("tags", PList []); ("score_delta", PInt (if soften then -5 else 5));
         ("description", PStr (if soften then "fp soften seed; not model-authored"
                               else "leftover/override seed; not model-authored"))].

Record draft_args : Type := DraftArgs {
  da_leftover : string; da_hil : string; da_why : string; da_authored_by : string; da_is_ai : bool; da_llm_url : string;
  da_skip_backtest : bool; da_backtest_ok : bool; da_artifact : string; da_actor : string; da_skip_reason : string;
  da_intent : string; da_rules : list dict }.

Definition soft_intent (a : draft_args) : bool := bool_decide (lower (strip a.(da_intent)) = "soften").

(** The rules given, or one that watches the entity. *)
Definition draft_rules (a : draft_args) (entity : string) : list pyval :=
  match a.(da_rules) with [] => [seed_rule (soft_intent a) entity] | rs => map PDict rs end.

Definition draft_body (receipt : dict) (a : draft_args) (kind : string) (ai : bool) (tenant entity : string) : dict :=
  let leftover := strip a.(da_leftover) in
  let hil := strip a.(da_hil) in
  let soften := soft_intent a in
  [("version", PInt 1); ("name", PStr (str_take 80 ("l2_" +:+ str_or leftover hil))); ("mode", PStr "shadow");
   ("rules", PList (draft_rules a entity));
   ("tag_rules", PList []); ("authored_by", PStr kind); ("is_ai_authored", PBool ai); ("tenant_id", PStr tenant);
   ("evidence", PDict [("leftover_id", PStr leftover); ("hil_event_id", PStr hil); ("trace_id", PStr (_field receipt "trace_id"));
                       ("override_why", PStr (strip a.(da_why)));
                       ("source", PStr (if nonempty leftover then "leftover" else "hil_override"));
                       ("intent", PStr (if soften then "soften" else EmptyString))])].

Definition draft_gate (ai skip_backtest : bool) : string :=
  if ai then "backtest_passed" else if skip_backtest then "backtest_skipped_human" else "backtest_passed".

Definition build_l2_draft (now : string) (receipt : dict) (a : draft_args) : result dict :=
  let leftover := strip a.(da_leftover) in
  let hil := strip a.(da_hil) in
  if negb (nonempty leftover) && negb (nonempty hil) then Err (http 400 "source_required") else
  let tenant := _field receipt "tenant_id" in
  let entity := str_or (_field receipt "entity_id") (_field receipt "user_id") in
  if negb (nonempty tenant) || negb (nonempty entity) then Err (http 404 "receipt_incomplete") else
  let '(kind, ai) := authored_by_kind a.(da_authored_by) a.(da_is_ai) a.(da_llm_url) in
  if ai && (a.(da_skip_backtest) || negb a.(da_backtest_ok)) then Err (http 409 "backtest_required") else
  let who := strip a.(da_actor) in
  let why_skip := strip a.(da_skip_reason) in
  if a.(da_skip_backtest) && negb ai && (negb (nonempty who) || negb (nonempty why_skip)) then Err (http 400 "skip_audit_required") else
  if nonempty leftover && (str_len (strip a.(da_why)) <? OVERRIDE_WHY_MIN) then Err (http 400 "why_required") else
  let pack := draft_body receipt a kind ai tenant entity in
  let! errors := validate_rule_pack pack in
  match errors with
  | _ :: _ => Err (http 422 "schema_invalid")
  | [] =>
      let gate := draft_gate ai a.(da_skip_backtest) in
      let pack := dict_set "schema_version" (PInt SCHEMA_VERSION) pack in
      let pack := dict_set "source_key" (PStr (source_key leftover hil)) pack in
      let pack := dict_set "pack_hash" (PStr (compute_pack_hash pack)) pack in
      Ok (dict_set "lifecycle"
            (PDict [("state", PStr "observe"); ("gate", PStr gate); ("backtest_artifact_id", PStr (strip a.(da_artifact)));
                    ("created_at", PStr now); ("observe_entered_at", PStr now);
                    ("skip", if bool_decide (gate = "backtest_skipped_human")
                             then PDict [("actor", PStr who); ("reason", PStr why_skip); ("at", PStr now)] else PNone)]) pack)
  end.

(** * Closing a draft *)

(** [dict(v or {})] (the list of pairs that [dict] would also take is not
    modelled). *)
Definition dict_of (v : pyval) : result dict :=
  match por v (PDict []) with PDict d => Ok d | PStr _ => Err ValueError | _ => Err TypeError end.

Definition abandon_draft (now : string) (pack : dict) (actor : string) : result dict :=
  let! life := dict_of (get pack "lifecycle" PNone) in
  if mem (str_or_empty (get life "state" PNone)) _CLOSED then Err (http 409 "draft_closed") else
  let who := strip actor in
  if negb (nonempty who) then Err (http 400 "actor_required") else
  Ok (dict_set "lifecycle"
        (PDict (dict_set "abandoned_by" (PStr who) (dict_set "abandoned_at" (PStr now) (dict_set "state" (PStr "abandoned") life)))) pack).

(** * Demotion *)

Definition is_forbidden_demote_actor (actor : string) : bool :=
  let token := lower (strip actor) in
  negb (nonempty token) || contains "assist" token || mem token ["ai"; "llm"; "byom"] || existsb (startswith token) _DEMOTE_PREFIXES.

Definition _demote_blob (pack : dict) : dict := as_dict (get (as_dict (get pack "lifecycle" PNone)) "demote" PNone).

Definition _require_demote_audit (actor reason : string) : result (string * string) :=
  let who := strip actor in
  let why := strip reason in
  if negb (nonempty who) || negb (nonempty why) then Err (http 400 "demote_audit_required")
  else if is_forbidden_demote_actor who then Err (http 403 "demote_human_only")
  else Ok (who, why).

(** [str(pack.get("mode") or "active")]. *)
Definition mode_of (pack : dict) : string := py_str (por (get pack "mode" PNone) (PStr "active")).

Definition propose_demote (now : string) (pack : dict) (actor reason : string) : result dict :=
  if negb (mem (mode_of pack) ["active"; EmptyString]) then Err (http 409 "not_live") else
  let! (who, why) := _require_demote_audit actor reason in
  let state := str_or_empty (get (_demote_blob pack) "state" PNone) in
  if bool_decide (state = DEMOTE_PROPOSED) then Err (http 409 "demote_already_proposed")
  else if bool_decide (state = DEMOTE_CONFIRMED) then Err (http 409 "already_demoted")
  else
    let life := as_dict (get pack "lifecycle" PNone) in
    Ok (dict_set "lifecycle"
          (PDict (dict_set "demote" (PDict [("state", PStr DEMOTE_PROPOSED); ("proposed_by", PStr who);
                                            ("proposed_reason", PStr why); ("proposed_at", PStr now)]) life)) pack).

Definition confirm_demote (now : string) (pack : dict) (actor reason : string) : result dict :=
  if negb (mem (mode_of pack) ["active"; EmptyString]) then Err (http 409 "not_live") else
  let! (who, why) := _require_demote_audit actor reason in
  let blob := _demote_blob pack in
  if negb (bool_decide (str_or_empty (get blob "state" PNone) = DEMOTE_PROPOSED)) then Err (http 409 "demote_propose_first")
  else
    let blob := dict_set "confirmed_at" (PStr now) (dict_set "confirmed_reason" (PStr why)
                  (dict_set "confirmed_by" (PStr who) (dict_set "state" (PStr DEMOTE_CONFIRMED) blob))) in
    let life := as_dict (get pack "lifecycle" PNone) in
    Ok (dict_set "mode" (PStr "shadow") (dict_set "lifecycle" (PDict (dict_set "demote" (PDict blob) life)) pack)).
