(* ===== verification/RuleApi.v ===== *)
(** The rule endpoints of [decision_api/rule_api.py]: the guards, the creation,
    update and deletion of packs and rules, the modes, force-live, the two-step
    demotion and the drafts.

    The state is [AutoPromote]'s: the rules directory, the loaded packs and the
    change log.  A handler's random names, the clock, the tenant's field
    catalogue, the audit table and the environment are arguments; the
    notification after a proposed demotion, whose failures are swallowed, and the
    timestamps of log rows are left out. *)

From Stdlib Require Import ZArith Lia Ascii String Bool SpecFloat.
From stdpp Require Import base option list sorting strings gmap.
From S2P Require Import Prelude PyFloat PyValue Uuid Replay JsonRules Promotion AutoPromote PackRules L2Draft.
Import JsonRules.Store.
Local Open Scope Z_scope.

(** * Files *)

Definition filename_char (c : ascii) : bool :=
  let n := code c in
  ((97 <=? n) && (n <=? 122) || (65 <=? n) && (n <=? 90) || (48 <=? n) && (n <=? 57) || (n =? 95) || (n =? 45))%N.

(** [^[a-zA-Z0-9_-]{1,120}\.json$], matched in full. *)
Definition safe_filename (s : string) : bool :=
  let stem := str_take (String.length s - 5) s in
  endswith s ".json" && (1 <=? str_len stem) && (str_len stem <=? 120) && all_chars filename_char stem.

Definition file_exists (name : string) (dir : list (string * file_read)) : bool := mem name (map fst dir).

Definition _existing_pack_path (filename : string) (dir : list (string * file_read)) : result unit :=
  if negb (safe_filename filename) then Err (http 400 "invalid filename")
  else if negb (file_exists filename dir) then Err (http 404 "pack not found")
  else Ok tt.

(** [fpath.write_text(...)]: the file is made if it is not there. *)
Definition put_file (name : string) (v : pyval) (dir : list (string * file_read)) : list (string * file_read) :=
  if file_exists name dir then write_file name v dir else dir ++ [(name, Document v)].

Definition unlink (name : string) (dir : list (string * file_read)) : list (string * file_read) :=
  List.filter (fun f => negb (bool_decide (f.1 = name))) dir.

(** The JSON document of a file, used as a mapping. *)
Definition read_pack (name : string) (dir : list (string * file_read)) : result dict :=
  let! v := read_file name dir in need_dict v.

Fixpoint read_packs (files : list (string * file_read)) : result (list dict) :=
  match files with
  | [] => Ok []
  | (f, Document (PDict d)) :: files' => let! ps := read_packs files' in Ok (dict_set "_file" (PStr f) d :: ps)
  | (_, Document _) :: _ => Err TypeError
  | (_, Unreadable) :: files' => read_packs files'
  | (_, NotUtf8) :: _ => Err ValueError
  end.

Definition _read_all_packs (dir : list (string * file_read)) : result (list dict) := read_packs (merge_sort name_le dir).

Definition pack_slug_char (c : ascii) : bool :=
  let n := code c in ((97 <=? n) && (n <=? 122) || (48 <=? n) && (n <=? 57) || (n =? 95) || (n =? 45))%N.

Fixpoint keep_chars (p : ascii -> bool) (s : string) : string :=
  match s with EmptyString => EmptyString | String c s' => if p c then String c (keep_chars p s') else keep_chars p s' end.

Fixpoint lstrip_of (p : ascii -> bool) (s : string) : string :=
  match s with String c s' => if p c then lstrip_of p s' else s | EmptyString => EmptyString end.

Definition strip_of (p : ascii -> bool) (s : string) : string := String.rev (lstrip_of p (String.rev (lstrip_of p s))).

(** [name.strip().lower().replace(" ", "_")]. *)
Definition name_token (name : string) : string := replace_char " " "_" (lower (strip name)).

Definition _slugify_pack_name (name : string) : result string :=
  let slug := strip_of (fun c => mem (String c EmptyString) ["."; "_"; "-"]) (keep_chars pack_slug_char (name_token name)) in
  if negb (nonempty slug) then Err (http 400 "invalid pack name") else Ok (str_take 80 slug).

(** * Guards *)

Record rule_env : Type := RuleEnv {
  rule_governance_secret : string; RULE_CHANGE_ACTOR : option string; RULE_FORCE_LIVE_TWO_PERSON : option string;
  OPENAI_BASE_URL : option string; SHADOW_LLM_BASE_URL : option string }.

(** The headers of a request. *)
Record headers : Type := Headers { x_actor : option string; x_secret : option string; x_approver : option string }.

Definition _actor_from_headers (e : rule_env) (h : headers) : string :=
  let a := strip (str_or (opt_str h.(x_actor)) (str_or (opt_str e.(RULE_CHANGE_ACTOR)) "api")) in
  if nonempty a then str_take 256 a else "api".

Definition model_fingerprint (actor : string) : bool :=
  let low := lower actor in startswith low "scout" || contains "assist" low.

Definition _require_force_live_human (h : headers) : result string :=
  let actor := strip (opt_str h.(x_actor)) in
  if negb (nonempty actor) || model_fingerprint actor then Err (http 403 "force_live_human_only") else Ok (str_take 256 actor).

Definition _require_demote_human (h : headers) : result string :=
  let actor := strip (opt_str h.(x_actor)) in
  if is_forbidden_demote_actor actor then Err (http 403 "demote_human_only") else Ok (str_take 256 actor).

Definition _force_live_two_person_required (e : rule_env) : bool := env_on (opt_str e.(RULE_FORCE_LIVE_TWO_PERSON)).

Definition _require_force_live_approver (e : rule_env) (actor : string) (h : headers) : result (option string) :=
  if negb (_force_live_two_person_required e) then Ok None
  else
    let approver := strip (opt_str h.(x_approver)) in
    if negb (nonempty approver) then Err (http 403 "force_live_approver_required")
    else if model_fingerprint approver then Err (http 403 "force_live_human_only")
    else if bool_decide (lower approver = lower (strip actor)) then Err (http 403 "force_live_approver_must_differ")
    else Ok (Some (str_take 256 approver)).

Definition _require_rule_governance (e : rule_env) (h : headers) : result unit :=
  let expected := e.(rule_governance_secret) in
  if negb (nonempty expected) then Ok tt
  else
    let got := strip (opt_str h.(x_secret)) in
    if negb (nonempty got) || negb (bool_decide (got = expected)) then Err (http 403 "rule governance secret required") else Ok tt.

(** * Writing, reloading and logging *)

Definition guarded {A B : Type} (w : world) (m : result A) (k : A -> world * result B) : world * result B :=
  match m with Err e => (w, Err e) | Ok a => k a end.

(** [fpath.write_text(...); load_rules(); _append_rule_change(...)]: the log row
    is written last. *)
Definition commit {A : Type} (w : world) (dir : list (string * file_read)) (c : change) (answer : A) : world * result A :=
  match load_rules w.(w_store) (Some dir) with
  | (s, Err e) => (World s dir w.(w_log), Err e)
  | (s, Ok _) => (World s dir (w.(w_log) ++ [c]), Ok answer)
  end.

Section Handlers.
Context (e : rule_env).

Definition list_rule_packs (w : world) : result dict := rmap (fun ps => [("packs", PList (map PDict ps))]) (_read_all_packs w.(w_dir)).

Definition get_rule_pack (w : world) (filename : string) : result dict :=
  let! _ := _existing_pack_path filename w.(w_dir) in
  let! v := read_file filename w.(w_dir) in
  match v with PDict d => Ok (dict_set "_file" (PStr filename) d) | _ => Err TypeError end.

(** * Packs and rules *)

(** Whether a file holds a pack of that name; unreadable files are skipped. *)
Fixpoint name_taken (slug : string) (files : list (string * file_read)) : result bool :=
  match files with
  | [] => Ok false
  | (_, Unreadable) :: files' => name_taken slug files'
  | (_, NotUtf8) :: _ => Err ValueError
  | (_, Document v) :: files' =>
      let! d := need_dict v in
      if bool_decide (name_token (py_str (get d "name" (PStr EmptyString))) = slug) then Ok true else name_taken slug files'
  end.

Definition checked_pack (allowed : list string) (pack : dict) : result dict :=
  let! errors := validate_rule_pack pack in
  if negb (no_items errors) then Err (http 422 "validation_errors") else
  let! ferr := when_field_errors pack allowed in
  if negb (no_items ferr) then Err (http 422 "validation_errors") else Ok pack.

Definition create_rule_pack (w : world) (h : headers) (allowed : list string) (fresh : nat -> string) (hex12 : string)
    (body : RulePackIn) : world * result dict :=
  guarded w
    (let! _ := _require_rule_governance e h in
     let! slug := _slugify_pack_name body.(pi_name) in
     let! taken := name_taken slug w.(w_dir) in
     if taken : bool then Err (http 409 "pack name already exists") else checked_pack allowed (authored_pack fresh body))
    (fun pack =>
       let f := "pack_" +:+ hex12 +:+ ".json" in
       commit w (put_file f (PDict pack) w.(w_dir))
         (Change "create" f (_actor_from_headers e h) [("name", PStr body.(pi_name))])
         [("file", PStr f); ("pack", PDict pack)]).

Definition update_rule_pack (w : world) (h : headers) (allowed : list string) (fresh : nat -> string) (filename : string)
    (body : RulePackIn) : world * result dict :=
  guarded w
    (let! _ := _require_rule_governance e h in
     let! _ := _existing_pack_path filename w.(w_dir) in
     checked_pack allowed (authored_pack fresh body))
    (fun pack =>
       commit w (write_file filename (PDict pack) w.(w_dir))
         (Change "update" filename (_actor_from_headers e h)
            [("name", PStr body.(pi_name)); ("rule_count", PInt (Z.of_nat (length body.(pi_rules))))])
         [("file", PStr filename); ("pack", PDict pack)]).

Definition delete_rule_pack (w : world) (h : headers) (filename : string) : world * result dict :=
  guarded w
    (let! _ := _require_rule_governance e h in _existing_pack_path filename w.(w_dir))
    (fun _ => commit w (unlink filename w.(w_dir)) (Change "delete" filename (_actor_from_headers e h) []) [("deleted", PStr filename)]).

Definition add_rule (w : world) (h : headers) (allowed : list string) (hex8 : string) (filename : string) (body : RuleIn)
    : world * result dict :=
  let rid := str_or body.(ri_id) ("rule_" +:+ hex8) in
  let rule := _rule_to_dict hex8 body in
  guarded w
    (let! _ := _require_rule_governance e h in
     let! _ := _existing_pack_path filename w.(w_dir) in
     let! v := read_file filename w.(w_dir) in
     let! ferr := when_field_errors [("rules", PList [PDict rule])] allowed in
     if negb (no_items ferr) then Err (http 422 "validation_errors") else
     let! pack := need_dict v in
     match get pack "rules" (PList []) with
     | PList rules => Ok (dict_set "mode" (PStr "shadow") (dict_set "rules" (PList (rules ++ [PDict rule])) pack))
     | _ => Err AttributeError
     end)
    (fun pack =>
       commit w (write_file filename (PDict pack) w.(w_dir))
         (Change "add_rule" filename (_actor_from_headers e h) [("rule_id", PStr rid)]) [("added", PStr rid)]).

(** [[r for r in rules if r.get("id") != rule_id]]. *)
Fixpoint without_rule (rule_id : string) (rules : list pyval) : result (list pyval) :=
  match rules with
  | [] => Ok []
  | r :: rules' =>
      let! d := need_dict r in
      let! rest := without_rule rule_id rules' in
      Ok (if eq_str (get d "id" PNone) rule_id then rest else r :: rest)
  end.

Definition remove_rule (w : world) (h : headers) (filename rule_id : string) : world * result dict :=
  guarded w
    (let! _ := _require_rule_governance e h in
     let! _ := _existing_pack_path filename w.(w_dir) in
     let! pack := read_pack filename w.(w_dir) in
     let! original := py_len (get pack "rules" (PList [])) in
     let! rules := py_iter (get pack "rules" (PList [])) in
     let! kept := without_rule rule_id rules in
     if Z.of_nat (length kept) =? original then Err (http 404 "rule not found") else Ok (dict_set "rules" (PList kept) pack))
    (fun pack =>
       commit w (write_file filename (PDict pack) w.(w_dir))
         (Change "remove_rule" filename (_actor_from_headers e h) [("rule_id", PStr rule_id)]) [("deleted", PStr rule_id)]).

(** * Modes *)

Definition set_pack_mode (w : world) (h : headers) (filename mode : string) : world * result dict :=
  guarded w
    (let! _ := _require_rule_governance e h in
     let! _ := _existing_pack_path filename w.(w_dir) in
     if negb (mem mode ["active"; "shadow"; "disabled"]) then Err (http 400 "mode must be 'active', 'shadow', or 'disabled'") else
     let! pack := read_pack filename w.(w_dir) in
     if bool_decide (mode = "shadow") && mem (mode_of pack) ["active"; EmptyString]
     then let! _ := _require_demote_human h in Err (http 409 "demote_propose_first")
     else
       let! actor := if bool_decide (mode = "active") then _require_force_live_human h else Ok (_actor_from_headers e h) in
       Ok (dict_set "mode" (PStr mode) pack, actor))
    (fun '(pack, actor) =>
       commit w (write_file filename (PDict pack) w.(w_dir)) (Change "set_mode" filename actor [("mode", PStr mode)])
         [("file", PStr filename); ("mode", PStr mode)]).

(** [except ObserveLocked: raise HTTPException(409, ...)]. *)
Definition observe_locked_409 {A : Type} (m : result A) : result A :=
  match m with Err e => Err (if bool_decide (e = ObserveLocked) then http 409 "observe_locked" else e) | Ok a => Ok a end.

Definition with_approver (approver : option string) (d : dict) : dict :=
  match approver with Some a => d ++ [("approver", PStr a)] | None => d end.

Definition force_live_pack (w : world) (h : headers) (filename reason : string) : world * result dict :=
  guarded w
    (let! _ := _require_rule_governance e h in
     let! actor := _require_force_live_human h in
     let! approver := _require_force_live_approver e actor h in
     let! _ := _existing_pack_path filename w.(w_dir) in
     let! pack := read_pack filename w.(w_dir) in
     let! _ := observe_locked_409 (raise_if_observe_locked pack) in
     Ok (pack, actor, approver))
    (fun '(pack, actor, approver) =>
       commit w (write_file filename (PDict (dict_set "mode" (PStr "active") pack)) w.(w_dir))
         (Change "rule_force_live" filename actor
            (with_approver approver [("actor", PStr actor); ("reason", PStr reason); ("file", PStr filename);
                                     ("prior_mode", PStr (mode_of pack))]))
         (with_approver approver [("mode", PStr "active"); ("forced", PBool true); ("file", PStr filename)])).

Definition demote_answer (filename : string) (mode : pyval) (pack : dict) : dict :=
  [("file", PStr filename); ("mode", mode); ("demote", get (as_dict (get pack "lifecycle" PNone)) "demote" PNone)].

(** The proposal is written without a reload. *)
Definition propose_demote_pack (now : string) (w : world) (h : headers) (filename reason : string) : world * result dict :=
  guarded w
    (let! _ := _require_rule_governance e h in
     let! actor := _require_demote_human h in
     let! _ := _existing_pack_path filename w.(w_dir) in
     let! pack := read_pack filename w.(w_dir) in
     let! pack := propose_demote now pack actor reason in
     Ok (pack, actor))
    (fun '(pack, actor) =>
       (World w.(w_store) (write_file filename (PDict pack) w.(w_dir))
          (w.(w_log) ++ [Change "rule_propose_demote" filename actor
                           [("reason", PStr reason); ("file", PStr filename); ("mode", get pack "mode" PNone)]]),
        Ok (demote_answer filename (get pack "mode" PNone) pack))).

Definition confirm_demote_pack (now : string) (w : world) (h : headers) (filename reason : string) : world * result dict :=
  guarded w
    (let! _ := _require_rule_governance e h in
     let! actor := _require_demote_human h in
     let! _ := _existing_pack_path filename w.(w_dir) in
     let! pack := read_pack filename w.(w_dir) in
     let! pack := confirm_demote now pack actor reason in
     Ok (pack, actor))
    (fun '(pack, actor) =>
       commit w (write_file filename (PDict pack) w.(w_dir))
         (Change "rule_confirm_demote" filename actor [("reason", PStr reason); ("file", PStr filename); ("mode", PStr "shadow")])
         (demote_answer filename (PStr "shadow") pack)).

(** * Drafts *)

Fixpoint keep_drafts (packs : list dict) : result (list dict) :=
  match packs with
  | [] => Ok []
  | p :: packs' =>
      let! keep :=
        (if truthy (get p "source_key" PNone) then Ok true
         else let! ev := mapping_or_empty (get p "evidence" PNone) in
              Ok (truthy (get ev "leftover_id" PNone) || truthy (get ev "hil_event_id" PNone))) in
      let! rest := keep_drafts packs' in
      Ok (if keep : bool then p :: rest else rest)
  end.

Definition list_l2_drafts (w : world) : result dict :=
  let! ps := _read_all_packs w.(w_dir) in
  let! items := keep_drafts ps in
  Ok [("items", PList (map PDict items))].

Record L2DraftIn : Type := MkDraftIn {
  di_leftover_id : string; di_hil_event_id : string; di_trace_id : string; di_override_why : string; di_authored_by : string;
  di_is_ai_authored : bool; di_skip_backtest : bool; di_skip_reason : string; di_rules : list RuleIn }.

(** The attributes of an audit row that a draft reads. *)
Definition receipt_of (rec : AuditRecord) : dict :=
  [("trace_id", PStr (uuid_to_string rec.(Replay.trace_id))); ("tenant_id", PStr rec.(Replay.tenant_id)); ("entity_id", PStr rec.(Replay.entity_id))].

(** A draft's rule as the replay takes it: its [when_ast] is not handed on. *)
Definition override_rule (hex8 : string) (r : RuleIn) : ReplayRule :=
  Rule (str_or r.(ri_id) ("rule_" +:+ hex8)) (map (fun c => Condition c.(rc_field) c.(rc_op) c.(rc_value)) r.(ri_when)) r.(ri_tags)
    (if f_truthy r.(ri_score_delta) then r.(ri_score_delta) else f_zero).

Definition replay_rules (fresh : nat -> string) (rec : AuditRecord) (rules : list RuleIn) : list ReplayRule :=
  match rules with
  | [] => [Rule "leftover_observe" [Condition "entity_id" "eq" (PStr rec.(Replay.entity_id))] [] (litZ 5)]
  | _ => imap (fun i r => override_rule (fresh i) r) rules
  end.

(** The default [limit] of a replay request plays no part with trace ids. *)
Definition draft_backtest (rows : list AuditRecord) (rec : AuditRecord) (rules : list ReplayRule) : result bool :=
  let! a := replay_events (Replay rec.(Replay.tenant_id) rules 50 [uuid_to_string rec.(Replay.trace_id)]) rows in
  Ok ((1 <=? a.(events_evaluated)) && no_items a.(missing_trace_ids)).

Definition llm_url (v : rule_env) : string := strip (str_or (opt_str v.(OPENAI_BASE_URL)) (opt_str v.(SHADOW_LLM_BASE_URL))).

Definition find_receipt (rows : list AuditRecord) (trace : string) : result AuditRecord :=
  match uuid_of_string (strip trace) with
  | None => Err (http 400 "invalid_trace_id")
  | Some u => match List.filter (fun r => bool_decide (r.(Replay.trace_id) = u)) rows with
              | [] => Err (http 404 "receipt_not_found")
              | rec :: _ => Ok rec
              end
  end.

(** The replay that an AI-authored draft must pass. *)
Definition backtest_verdict (rows : list AuditRecord) (rec : AuditRecord) (fresh : nat -> string) (ai : bool) (body : L2DraftIn) : result bool :=
  if negb ai then Ok false
  else if body.(di_skip_backtest) then Err (http 409 "backtest_required")
  else let! ok := draft_backtest rows rec (replay_rules fresh rec body.(di_rules)) in
       if ok : bool then Ok true else Err (http 409 "backtest_required").

Definition draft_args_of (actor llm : string) (rec : AuditRecord) (fresh : nat -> string) (ai backtest_ok : bool) (body : L2DraftIn)
    : draft_args :=
  DraftArgs body.(di_leftover_id) body.(di_hil_event_id) body.(di_override_why) body.(di_authored_by) body.(di_is_ai_authored) llm
    body.(di_skip_backtest) backtest_ok (if ai then "replay:" +:+ uuid_to_string rec.(Replay.trace_id) else EmptyString) actor
    body.(di_skip_reason) EmptyString (imap (fun i r => _rule_to_dict (fresh i) r) body.(di_rules)).

(** The checks of [create_l2_draft] and the pack it writes. *)
Definition new_draft (now : string) (rows : list AuditRecord) (w : world) (h : headers) (tenant : option string)
    (allowed : list string) (fresh : nat -> string) (body : L2DraftIn) : result dict :=
  let! _ := _require_rule_governance e h in
  let! rec := find_receipt rows body.(di_trace_id) in
  if nonempty (opt_str tenant) && negb (bool_decide (strip (opt_str tenant) = strip rec.(Replay.tenant_id)))
  then Err (http 403 "tenant_mismatch") else
  let! packs := _read_all_packs w.(w_dir) in
  let! hit := find_open_draft packs body.(di_leftover_id) body.(di_hil_event_id) in
  if negb (bool_decide (hit = None)) then Err (http 409 "draft_exists") else
  let llm := llm_url e in
  let ai := (authored_by_kind body.(di_authored_by) body.(di_is_ai_authored) llm).2 in
  let! backtest_ok := backtest_verdict rows rec fresh ai body in
  let! pack := build_l2_draft now (receipt_of rec) (draft_args_of (_actor_from_headers e h) llm rec fresh ai backtest_ok body) in
  let! ferr := when_field_errors pack allowed in
  if negb (no_items ferr) then Err (http 422 "schema_invalid") else Ok pack.

Definition create_l2_draft (now : string) (rows : list AuditRecord) (w : world) (h : headers) (tenant : option string)
    (allowed : list string) (fresh : nat -> string) (hex12 : string) (body : L2DraftIn) : world * result dict :=
  guarded w (new_draft now rows w h tenant allowed fresh body)
    (fun pack =>
       let f := "l2_" +:+ hex12 +:+ ".json" in
       commit w (put_file f (PDict pack) w.(w_dir))
         (Change "l2_draft" f (_actor_from_headers e h) [("name", get pack "name" PNone); ("source_key", get pack "source_key" PNone)])
         [("file", PStr f); ("pack", PDict pack)]).

Definition dict_remove (k : string) (d : dict) : dict := List.filter (fun kv => negb (bool_decide (kv.1 = k))) d.

Definition abandon_l2_draft (now : string) (w : world) (h : headers) (draft_name : string) : world * result dict :=
  let actor := _actor_from_headers e h in
  let want := strip draft_name in
  guarded w
    (let! _ := _require_rule_governance e h in
     let! packs := _read_all_packs w.(w_dir) in
     match first_named want packs with
     | None => Err (http 404 "draft_not_found")
     | Some hit =>
         let! hit := abandon_draft now hit actor in
         let fname := strip (str_or_empty (get hit "_file" PNone)) in
         if negb (nonempty fname) then Err (http 404 "draft_not_found") else Ok (fname, dict_remove "_file" hit)
     end)
    (fun '(fname, pack) =>
       commit w (put_file fname (PDict pack) w.(w_dir)) (Change "l2_abandon" fname actor [("name", PStr want)])
         [("file", PStr fname); ("pack", PDict pack)]).
End Handlers.

(** * Vertical packs *)

Definition _PACK_ALIASES : list (string * string) :=
  [("marketplace_goods", "marketplace"); ("last_mile", "logistics"); ("goods_marketplace", "marketplace");
   ("ride_hailing", "e_hailing"); ("ehailing", "e_hailing")].

Definition resolve_pack_name (name : string) : string :=
  let key := lower (strip name) in
  match List.find (fun kv => bool_decide (kv.1 = key)) _PACK_ALIASES with Some kv => kv.2 | None => key end.

Record PromoteVerticalPackBody : Type := MkVerticalBody {
  vb_precision : float; vb_recall : float; vb_f1_score : float; vb_false_positive_rate : option float; vb_events_evaluated : Z;
  vb_backtest_job_id : option string }.

Definition vertical_metrics (body : PromoteVerticalPackBody) : dict :=
  [("precision", PFloat body.(vb_precision)); ("recall", PFloat body.(vb_recall)); ("f1_score", PFloat body.(vb_f1_score))]
  ++ match body.(vb_false_positive_rate) with Some x => [("false_positive_rate", PFloat x)] | None => [] end.

(** A warehouse backtest: its status and its metrics. *)
Record backtest_run : Type := BacktestRun { run_id : Z; run_status : string; run_metrics : pyval }.

Section Vertical.
(** [catalogue] holds the packs by their own name; [require_backtest] is the
    setting and [runs] the table of backtests. *)
Context (e : rule_env) (catalogue : string -> option dict) (require_backtest : bool) (runs : list backtest_run).

Definition get_vertical_pack (name : string) : option dict := catalogue (resolve_pack_name name).

Definition known_vertical (name : string) : result dict :=
  match get_vertical_pack name with
  | None | Some [] => Err (http 404 "unknown vertical pack")
  | Some pack => Ok pack
  end.

Definition kill_criteria_of (pack : dict) : option dict :=
  match get pack "kill_criteria" PNone with PDict k => Some k | _ => None end.

Definition _kill_gate_for_vertical (name : string) (body : PromoteVerticalPackBody) : result gate :=
  let! pack := known_vertical name in
  evaluate_kill_criteria (vertical_metrics body) (kill_criteria_of pack) body.(vb_events_evaluated).

Definition _backtest_gate_for_vertical (name : string) (body : PromoteVerticalPackBody) : result gate :=
  let! pack := known_vertical name in
  let jid := strip (opt_str body.(vb_backtest_job_id)) in
  if negb (nonempty jid)
  then rmap fst (backtest_before_promote_gate EmptyString PNone (kill_criteria_of pack) require_backtest EmptyString)
  else match uuid_of_string jid with
       | None => Err (http 400 "invalid backtest_job_id")
       | Some uid =>
           match List.find (fun r => r.(run_id) =? uid) runs with
           | None => Err (http 404 "backtest job not found")
           | Some job => rmap fst (backtest_before_promote_gate job.(run_status)
                                     (if is_dict job.(run_metrics) then job.(run_metrics) else PNone) (kill_criteria_of pack) true
                                     (uuid_to_string job.(run_id)))
           end
       end.

(** The file that holds a vertical pack of that id. *)
Fixpoint find_vertical (vid : string) (files : list (string * file_read)) : result (option string) :=
  match files with
  | [] => Ok None
  | (_, Unreadable) :: files' => find_vertical vid files'
  | (_, NotUtf8) :: _ => Err ValueError
  | (f, Document v) :: files' =>
      let! d := need_dict v in
      if bool_decide (py_str (get d "__vertical_id" (PStr EmptyString)) = vid) then Ok (Some f) else find_vertical vid files'
  end.

(** What is written and where; the caller reloads and logs. *)
Definition _install_vertical_pack_core (w : world) (name : string) (overwrite : bool) (hex12 : string) : result (string * dict) :=
  let! pack := known_vertical name in
  let! vid := _slugify_pack_name name in
  let! existing := find_vertical vid w.(w_dir) in
  if negb (bool_decide (existing = None)) && negb overwrite then Err (http 409 "already exists") else
  let! errors := validate_rule_pack pack in
  if negb (no_items errors) then Err (http 422 "validation_errors") else
  Ok (default ("vertical_" +:+ hex12 +:+ ".json") existing, dict_set "__vertical_id" (PStr vid) pack).

Definition vertical_handler (action : string) (extra : dict) (w : world) (h : headers) (name : string)
    (body : PromoteVerticalPackBody) (overwrite : bool) (hex12 : string) : world * result dict :=
  guarded w
    (let! _ := _require_rule_governance e h in
     let! gate := _kill_gate_for_vertical name body in
     let! bt_gate := _backtest_gate_for_vertical name body in
     if negb gate.(promote_allowed) then Err (http 409 "promote_gate")
     else if negb bt_gate.(promote_allowed) then Err (http 409 "backtest_promote_gate")
     else _install_vertical_pack_core w name overwrite hex12)
    (fun '(f, pack) =>
       commit w (put_file f (PDict pack) w.(w_dir))
         (Change action f (_actor_from_headers e h)
            [("vertical", PStr (lower name)); ("overwrite", PBool overwrite); ("events_evaluated", PInt body.(vb_events_evaluated));
             ("metrics", PDict (vertical_metrics body))])
         ([("installed", PStr f); ("vertical", PStr (lower name)); ("rules", PInt (Z.of_nat (length (as_list (get pack "rules" PNone)))))] ++ extra)).

Definition install_vertical_pack := vertical_handler "install_vertical" [].
Definition promote_vertical_pack := vertical_handler "promote_vertical" [("promoted", PBool true)].
End Vertical.
