(* ===== verification/RuleSlip.v ===== *)
(** Precision of live rules after labels ([decision_api/rule_label_metrics.py])
    and the critic that parks a shadow pack for a live rule that slips
    ([decision_api/live_rule_slip.py]).

    Audit rows are dictionaries, newest first; the labels, caps and rules
    directory are those of [LabelStore], [AutoPromote] and [JsonRules].  The
    notifications, whose failures are swallowed, and the fields of the precision
    report that describe label coverage are left out. *)

From Stdlib Require Import ZArith Lia Ascii String Bool SpecFloat.
From stdpp Require Import base option list sorting strings gmap.
From S2P Require Import Prelude PyFloat PyValue PyDateTime JsonRules LabelStore Promotion AutoPromote PackRules L2Draft RuleApi.
Import JsonRules.Store.
Local Open Scope Z_scope.

(** * Precision after labels *)

Definition _as_hits (raw : pyval) : list string :=
  match raw with
  | PList l => List.filter nonempty (map (fun item => strip (str_or_empty item)) l)
  | _ => []
  end.

(** [labeled_hits], [fraud_hits] and [fp_hits] of one rule. *)
Record bucket : Type := Bucket { bk_hits : Z; bk_fraud : Z; bk_fp : Z }.

Definition add_hit (y decision : string) (b : bucket) : bucket :=
  if bool_decide (y = "1") then Bucket (b.(bk_hits) + 1) (b.(bk_fraud) + 1) b.(bk_fp)
  else if mem decision ["deny"; "block"; "review"] then Bucket (b.(bk_hits) + 1) b.(bk_fraud) (b.(bk_fp) + 1)
  else Bucket (b.(bk_hits) + 1) b.(bk_fraud) b.(bk_fp).

Fixpoint bump_rule (y decision : string) (per : list (string * bucket)) (rid : string) : list (string * bucket) :=
  match per with
  | [] => [(rid, add_hit y decision (Bucket 0 0 0))]
  | (r, b) :: per' => if bool_decide (r = rid) then (r, add_hit y decision b) :: per' else (r, b) :: bump_rule y decision per' rid
  end.

Definition label_row (acc : Z * list (string * bucket)) (row : dict) : Z * list (string * bucket) :=
  let y := strip (str_or_empty (get row "y_label" PNone)) in
  if negb (mem y ["0"; "1"]) then acc
  else (acc.1 + 1, foldl (bump_rule y (lower (strip (str_or_empty (get row "decision" PNone))))) acc.2 (_as_hits (get row "rule_hits" PNone))).

Record rule_metric : Type := Metric {
  rm_rule_id : string; rm_labeled_hits : Z; rm_fraud_hits : Z; rm_fp_hits : Z; rm_precision : float; rm_fp_rate : float;
  rm_enough_support : bool }.

(** [x / n if n else 0.0]. *)
Definition share (x n : Z) : float := if n =? 0 then f_zero else ratio x n.

Definition metric_of (min_labeled_hits : Z) (rb : string * bucket) : rule_metric :=
  let '(rid, b) := rb in
  Metric rid b.(bk_hits) b.(bk_fraud) b.(bk_fp) (f_round (share b.(bk_fraud) b.(bk_hits)) 4) (f_round (share b.(bk_fp) b.(bk_hits)) 4)
    (min_labeled_hits <=? b.(bk_hits)).

Definition metric_le (a b : rule_metric) : Prop :=
  b.(rm_labeled_hits) < a.(rm_labeled_hits) \/ (a.(rm_labeled_hits) = b.(rm_labeled_hits) /\ String.le a.(rm_rule_id) b.(rm_rule_id)).
#[export] Instance metric_le_dec : RelDecision metric_le.
Proof. intros a b. unfold metric_le. apply _. Defined.

(** Rows scanned, rows labelled and the metrics of each rule. *)
Record precision_report : Type := Precision { rows_scanned : Z; labeled_rows : Z; report_rules : list rule_metric }.

Definition rule_precision_after_labels (rows : list dict) (min_labeled_hits : Z) : precision_report :=
  let '(labeled, per) := foldl label_row (0, []) rows in
  Precision (Z.of_nat (length rows)) labeled (merge_sort metric_le (map (metric_of min_labeled_hits) per)).

(** * Slip of a live rule *)

Definition MIX_FIELDS : list string := ["event_type"; "geo_country"; "device_fingerprint"; "canvas_hash"].
Definition LEGAL_WHEN_FIELDS : list string := MIX_FIELDS.
Definition MIN_HALF : Z := 50.
Definition MIN_HITS : Z := 5.
Definition MIN_MISSES : Z := 5.

Definition resolve_y (ls : labels) (row : dict) : option string :=
  let tid := strip (str_or_empty (get row "trace_id" PNone)) in
  let eid := strip (str_or_empty (get row "entity_id" PNone)) in
  let ok o := match o with Some l => if mem l ["0"; "1"] then Some l else None | None => None end in
  match ok (if nonempty tid then ls.(label_by_trace) !! tid else None) with
  | Some l => Some l
  | None => ok (if nonempty eid then ls.(label_by_entity) !! eid else None)
  end.

Definition mix_value (row : dict) (field : string) : string :=
  if bool_decide (field = "event_type") then strip (str_or_empty (get row "event_type" PNone))
  else
    let snap := get row "payload_snapshot" PNone in
    let payload := match snap with PDict d => get d "payload" PNone | _ => PNone end in
    strip (str_or_empty (get (if is_dict payload then as_dict payload else as_dict snap) field PNone)).

(** The two halves of the window and its verdict. *)
Definition split_window (rows : list dict) : list dict * list dict * string :=
  let mid := Nat.div (length rows) 2 in
  let current := take mid rows in
  let prior := drop mid rows in
  (current, prior,
   if (Z.of_nat (length current) <? MIN_HALF) || (Z.of_nat (length prior) <? MIN_HALF) then "underpowered" else "ok").

Definition _hits (row : dict) : list string :=
  match get row "rule_hits" PNone with
  | PList raw => List.filter nonempty (map (fun x => strip (py_str x)) raw)
  | _ => []
  end.

Definition fired (rid : string) (row : dict) : bool := mem rid (_hits row).

Definition hit_count (rid : string) (half : list dict) : Z := Z.of_nat (length (List.filter (fired rid) half)).

Definition _rate (rid : string) (half : list dict) : float * Z :=
  (share (hit_count rid half) (Z.of_nat (length half)), hit_count rid half).

Definition _fire_rate_on (rid : string) (current prior : list dict) : bool :=
  let '(rc, hc) := _rate rid current in
  let '(rp, hp) := _rate rid prior in
  if Z.max hc hp <? MIN_HITS then false
  else
    let gap := fabs (fsub rc rp) in
    fleb (lit 1 10) gap
    || (fltb f_zero rp && match fdiv gap rp with Ok q => fleb (lit 5 10) q | Err _ => false end).

(** [Counter(vals).most_common(1)[0]]: the first value of the greatest count. *)
Fixpoint count_in (vals : list string) (v : string) : Z :=
  match vals with [] => 0 | x :: vals' => (if bool_decide (x = v) then 1 else 0) + count_in vals' v end.

Fixpoint best_of (all vals : list string) (best : option (string * Z)) : option (string * Z) :=
  match vals with
  | [] => best
  | v :: vals' =>
      let n := count_in all v in
      best_of all vals' (match best with Some (_, m) => if m <? n then Some (v, n) else best | None => Some (v, n) end)
  end.

Definition most_common (vals : list string) : option (string * Z) := best_of vals vals None.

Definition _dominant (rid : string) (half : list dict) (field : string) : string :=
  let vals := List.filter nonempty (map (fun r => mix_value r field) (List.filter (fired rid) half)) in
  if Z.of_nat (length vals) <? MIN_HITS then EmptyString else match most_common vals with Some (v, _) => v | None => EmptyString end.

Definition _mix_on (rid : string) (current prior : list dict) : bool :=
  existsb (fun field =>
    let a := _dominant rid current field in
    let b := _dominant rid prior field in
    nonempty a && nonempty b && negb (bool_decide (a = b))) MIX_FIELDS.

Record slip_rule : Type := SlipRule {
  sr_rule_id : string; sr_triggers : list string; sr_hypothesis : string; sr_fp_rate : option float; sr_labeled_hits : Z;
  sr_miss_count : Z; sr_parked_draft : option string }.

Definition hypothesis (h1 h2 : bool) : string :=
  if h1 && h2 then "ambiguous" else if h1 then "retire" else if h2 then "successor" else "underpowered".

Definition is_slip_name (name : string) : bool := startswith name "slip_retire_" || startswith name "slip_successor_".

Definition live_rule_id (p : dict) : string := strip (str_or_empty (get (as_dict (get p "evidence" PNone)) "live_rule_id" PNone)).

Definition pack_title (p : dict) : string := strip (str_or_empty (get p "name" PNone)).

(** [str(p.get("mode") or "shadow") == "shadow"]. *)
Definition shadow_or_unset (p : dict) : bool := bool_decide (py_str (por (get p "mode" PNone) (PStr "shadow")) = "shadow").

(** The parked draft of a rule; a later pack replaces an earlier one. *)
Definition slot_of (parked : list dict) (rid : string) : option string :=
  last (filter_map (fun p =>
    if nonempty (live_rule_id p) && nonempty (pack_title p) && shadow_or_unset p && is_slip_name (pack_title p)
       && bool_decide (live_rule_id p = rid)
    then Some (pack_title p) else None) parked).

Definition misses (ls : labels) (rid : string) (current : list dict) : list dict :=
  List.filter (fun r => bool_decide (resolve_y ls r = Some "1") && negb (fired rid r)) current.

Definition slip_of (ls : labels) (fp_cap : float) (parked : list dict) (prec : list rule_metric) (current prior : list dict) (rid : string)
    : option slip_rule :=
  let mix := _mix_on rid current prior in
  let triggers := (if _fire_rate_on rid current prior then ["fire_rate"] else []) ++ (if mix then ["mix"] else []) in
  if no_items triggers then None
  else
    let metrics := List.find (fun m => bool_decide (m.(rm_rule_id) = rid)) prec in
    let h1 := match metrics with Some m => m.(rm_enough_support) && fltb fp_cap m.(rm_fp_rate) | None => false end in
    let miss_n := Z.of_nat (length (misses ls rid current)) in
    let h2 := (MIN_MISSES <=? miss_n) && mix in
    Some (SlipRule rid triggers (hypothesis h1 h2) (option_map rm_fp_rate metrics)
            (match metrics with Some m => m.(rm_labeled_hits) | None => 0 end) miss_n (slot_of parked rid)).

Definition live_rule_slip (rows : list dict) (ls : labels) (fp_cap : float) (parked : list dict) : string * list slip_rule :=
  let '(current, prior, window) := split_window rows in
  if negb (bool_decide (window = "ok")) then (window, [])
  else
    let labeled := map (fun r => dict_set "y_label" (PStr (opt_str (resolve_y ls r))) r) (current ++ prior) in
    let prec := report_rules (rule_precision_after_labels labeled 5) in
    let ids := sorted_set (concat (map _hits (current ++ prior))) in
    ("ok", filter_map (slip_of ls fp_cap parked prec current prior) ids).

(** * Parked packs *)

Definition safe_id_char (c : ascii) : bool :=
  let n := code c in ((97 <=? n) && (n <=? 122) || (65 <=? n) && (n <=? 90) || (48 <=? n) && (n <=? 57) || (n =? 95))%N.

(** [_SAFE.sub("_", s)]: each run of other characters becomes one underscore. *)
Fixpoint sub_runs (in_run : bool) (s : string) : string :=
  match s with
  | EmptyString => EmptyString
  | String c s' => if safe_id_char c then String c (sub_runs false s')
                   else if in_run then sub_runs true s' else String "_" (sub_runs true s')
  end.

Definition sanitize_rule_id (rid : string) : string := str_or (str_take 80 (sub_runs false (strip rid))) "rule".

Definition named_rule (want : string) (r : pyval) : option dict :=
  match r with PDict d => if bool_decide (strip (str_or_empty (get d "id" PNone)) = want) then Some d else None | _ => None end.

(** The conditions of the first live rule of that id. *)
Fixpoint find_live_rule (want : string) (packs : list dict) : result (option (list pyval)) :=
  match packs with
  | [] => Ok None
  | pack :: packs' =>
      if negb (mem (mode_of pack) ["active"; EmptyString]) then find_live_rule want packs'
      else
        let! rules := iter_or_empty (get pack "rules" PNone) in
        match filter_map (named_rule (strip want)) rules with
        | d :: _ => Ok (Some (as_list (get d "when" PNone)))
        | [] => find_live_rule want packs'
        end
  end.

Definition existing_slip_slot (rid : string) (packs : list dict) : option string :=
  head (filter_map (fun p =>
    if bool_decide (live_rule_id p = strip rid) && is_slip_name (pack_title p) && shadow_or_unset p then Some (pack_title p) else None) packs).

Definition slip_draft_would_clobber (name : string) (evidence : dict) (shadow_packs : list dict) : bool :=
  is_slip_name (strip name)
  || (let lid := strip (str_or_empty (get evidence "live_rule_id" PNone)) in
      nonempty lid && match existing_slip_slot lid shadow_packs with Some _ => true | None => false end).

Definition is_slip_successor_suggest (name : string) (evidence : dict) : bool :=
  is_slip_name (strip name) || mem (lower (strip (str_or_empty (get evidence "slip_kind" PNone)))) ["successor"; "retire"].

Definition build_retire_pack (rid : string) (when : list pyval) (fp_rate : option float) (triggers : list string) : dict :=
  [("version", PInt 1); ("name", PStr ("slip_retire_" +:+ sanitize_rule_id rid)); ("mode", PStr "shadow"); ("is_ai_authored", PBool false);
   ("authored_by", PStr "slip_critic");
   ("rules", PList [PDict [("id", PStr rid); ("when", PList when); ("score_delta", PInt 5)]]);
   ("evidence", PDict [("slip_kind", PStr "retire"); ("live_rule_id", PStr rid); ("fp_rate", opt_val PFloat fp_rate);
                       ("triggers", str_list triggers); ("miss_is_not_recall", PBool true)])].

Definition build_successor_pack (rid field value : string) (miss_count : Z) (triggers : list string) : option dict :=
  if negb (mem field LEGAL_WHEN_FIELDS) || negb (nonempty (strip value)) then None
  else
    let safe := sanitize_rule_id rid in
    let token := str_take 16 (sanitize_rule_id value) in
    Some [("version", PInt 1); ("name", PStr ("slip_successor_" +:+ safe)); ("mode", PStr "shadow"); ("is_ai_authored", PBool false);
          ("authored_by", PStr "slip_critic");
          ("rules", PList [PDict [("id", PStr (str_take 80 ("slip_" +:+ safe +:+ "_" +:+ token)));
                                  ("when", PList [PDict [("field", PStr field); ("op", PStr "eq"); ("value", PStr value)]]);
                                  ("score_delta", PInt 15)]]);
          ("evidence", PDict [("slip_kind", PStr "successor"); ("live_rule_id", PStr rid); ("miss_count", PInt miss_count);
                              ("mix_field", PStr field); ("mix_value", PStr value); ("triggers", str_list triggers);
                              ("miss_is_not_recall", PBool true)])].

(** The file name of a slip pack. *)
Definition slip_file (pack : dict) : string :=
  let ev := as_dict (get pack "evidence" PNone) in
  "slip_" +:+ py_str (por (get ev "slip_kind" PNone) (PStr "slip")) +:+ "_"
    +:+ sanitize_rule_id (py_str (por (get ev "live_rule_id" PNone) (PStr "rule"))) +:+ ".json".

(** A file that is there is left as it is. *)
Definition write_slip_pack (pack : dict) (dir : list (string * file_read)) : list (string * file_read) * string :=
  let f := slip_file pack in
  (if file_exists f dir then dir else put_file f (PDict pack) dir, f).

(** The most frequent value among the misses, by field; a later field wins a tie. *)
Definition candidate (ls : labels) (current : list dict) (rid field : string) : option (string * string * Z) :=
  let vals := List.filter nonempty (map (fun r => mix_value r field) (misses ls rid current)) in
  if Z.of_nat (length vals) <? MIN_MISSES then None
  else match most_common vals with
       | Some (v, n) => if MIN_MISSES <=? n then Some (field, v, n) else None
       | None => None
       end.

Fixpoint best_candidate (cs : list (string * string * Z)) (best : option (string * string * Z)) : option (string * string * Z) :=
  match cs with
  | [] => best
  | c :: cs' => best_candidate cs' (match best with Some b => if b.2 <=? c.2 then Some c else best | None => Some c end)
  end.

Definition successor_mix (current : list dict) (rid : string) (ls : labels) : option (string * string) :=
  option_map fst (best_candidate (filter_map (candidate ls current rid) MIX_FIELDS) None).

(** * The tick *)

(** The pack a slip asks for, or why there is none. *)
Definition pack_for (active current : list dict) (ls : labels) (row : slip_rule) : result (dict + string) :=
  let rid := row.(sr_rule_id) in
  if bool_decide (row.(sr_hypothesis) = "retire") then
    let! found := find_live_rule rid active in
    Ok (match found with
        | Some (c :: when) => inl (build_retire_pack rid (c :: when) row.(sr_fp_rate) row.(sr_triggers))
        | _ => inr "no_live_when"
        end)
  else if bool_decide (row.(sr_hypothesis) = "successor") then
    Ok (match successor_mix current rid ls with
        | None => inr "no_legal_when"
        | Some (field, value) =>
            match build_successor_pack rid field value row.(sr_miss_count) row.(sr_triggers) with
            | Some p => inl p
            | None => inr "no_legal_when"
            end
        end)
  else Ok (inr row.(sr_hypothesis)).

Record park_answer : Type := Parked { pk_parked : list string; pk_skipped : list (string * string) }.

Fixpoint park_rules (active current : list dict) (ls : labels) (w : world) (rows : list slip_rule) (out : park_answer)
    : world * result park_answer :=
  match rows with
  | [] => (w, Ok out)
  | row :: rows' =>
      let rid := row.(sr_rule_id) in
      let skip why := park_rules active current ls w rows' (Parked out.(pk_parked) (out.(pk_skipped) ++ [(rid, why)])) in
      match existing_slip_slot rid (get_shadow_packs w.(w_store)) with
      | Some _ => skip "already_parked"
      | None =>
          match pack_for active current ls row with
          | Err e => (w, Err e)
          | Ok (inr why) => skip why
          | Ok (inl pack) =>
              let '(dir, f) := write_slip_pack pack w.(w_dir) in
              match commit w dir (Change "park_live_rule_slip" f "slip_critic"
                                    [("live_rule_id", PStr rid); ("hypothesis", PStr row.(sr_hypothesis))]) tt with
              | (w', Err e) => (w', Err e)
              | (w', Ok _) => park_rules active current ls w' rows' (Parked (out.(pk_parked) ++ [py_str (get pack "name" PNone)]) out.(pk_skipped))
              end
          end
      end
  end.

Definition maybe_park_live_rule_slip (caps : caps_env) (provisions label_files : gmap string file_read) (rows : list dict) (w : world)
    (tenant_id : string) : world * result park_answer :=
  let tid := strip tenant_id in
  if negb (nonempty tid) then (w, Ok (Parked [] [(EmptyString, "no_tenant")]))
  else
    guarded w
      (let! (t, e) := load_y_labels label_files tid in
       let! (_, fp_cap, _) := leftover_caps_for_tenant caps provisions tid in
       Ok (Labels t e, fp_cap))
      (fun '(ls, fp_cap) =>
         let slip := live_rule_slip rows ls fp_cap (get_shadow_packs w.(w_store)) in
         park_rules (get_active_packs_snapshot w.(w_store)) (split_window rows).1.1 ls w slip.2 (Parked [] [])).

(** * What parking may do *)

(** Every file is kept, and every new one is a shadow pack that is not
    AI-authored. *)
Definition only_parks (w w' : world) : Prop :=
  (forall f, f ∈ w.(w_dir) -> f ∈ w'.(w_dir))
  /\ (forall f x, (f, x) ∈ w'.(w_dir) -> (f, x) ∈ w.(w_dir) \/
        exists d, x = Document (PDict d) /\ is_shadow d = true /\ truthy (get d "is_ai_authored" PNone) = false
          /\ get d "authored_by" PNone = PStr "slip_critic")
  /\ exists new, w'.(w_log) = w.(w_log) ++ new
       /\ Forall (fun c => c.(ch_action) = "park_live_rule_slip" /\ c.(ch_actor) = "slip_critic") new.

Lemma only_parks_refl w : only_parks w w.
Proof. split; [done|]. split; [by left|]. exists []. by rewrite app_nil_r. Qed.

Lemma only_parks_trans w1 w2 w3 : only_parks w1 w2 -> only_parks w2 w3 -> only_parks w1 w3.
Proof.
  intros (K1 & N1 & l1 & E1 & F1) (K2 & N2 & l2 & E2 & F2). split; [auto|]. split.
  - intros f x Hf. destruct (N2 f x Hf) as [H|H]; [apply N1, H|by right].
  - exists (l1 ++ l2). rewrite E2, E1, app_assoc. split; [done|]. by apply Forall_app.
Qed.

(** The packs the critic builds. *)
Definition slip_pack (p : dict) : Prop :=
  is_shadow p = true /\ truthy (get p "is_ai_authored" PNone) = false /\ get p "authored_by" PNone = PStr "slip_critic".

Lemma pack_for_slip active current ls row p : pack_for active current ls row = Ok (inl p) -> slip_pack p.
Proof.
  unfold pack_for. destruct (bool_decide _).
  - intros H. apply rbind_Ok in H as (found & _ & H). apply Ok_inj in H. destruct found as [[|c when]|]; try done. by injection H as <-.
  - destruct (bool_decide _); [|done]. intros H. apply Ok_inj in H. destruct (successor_mix _ _ _) as [[field value]|]; [|done].
    unfold build_successor_pack in H. destruct (_ || _); [done|]. by injection H as <-.
Qed.

Lemma park_one w p f c : slip_pack p -> (c.(ch_action) = "park_live_rule_slip" /\ c.(ch_actor) = "slip_critic") ->
  only_parks w (commit w (if file_exists f w.(w_dir) then w.(w_dir) else put_file f (PDict p) w.(w_dir)) c tt).1.
Proof.
  intros (Hs & Ha & Hb) Hc. set (dir := if file_exists f (w_dir w) then _ else _).
  assert (Hkeep : forall g, g ∈ w.(w_dir) -> g ∈ dir).
  { intros g Hg. unfold dir, put_file. destruct (file_exists f (w_dir w)) eqn:E; [done|]. apply elem_of_app. by left. }
  assert (Hnew : forall g x, (g, x) ∈ dir -> (g, x) ∈ w.(w_dir) \/ exists d, x = Document (PDict d) /\ is_shadow d = true
      /\ truthy (get d "is_ai_authored" PNone) = false /\ get d "authored_by" PNone = PStr "slip_critic").
  { intros g x. unfold dir, put_file. destruct (file_exists f (w_dir w)) eqn:E; [by left|].
    intros [H|H%list_elem_of_singleton]%elem_of_app; [by left|]. injection H as -> ->. right. by exists p. }
  unfold commit. destruct (load_rules _ _) as [s [u|err]]; split; try exact Hkeep; split; try exact Hnew; cbn [fst w_log].
  - exists [c]. split; [done|]. by constructor.
  - exists []. by rewrite app_nil_r.
Qed.

Lemma park_rules_safe active current ls rows : forall w out, only_parks w (park_rules active current ls w rows out).1.
Proof.
  induction rows as [|row rows IH]; intros w out; [apply only_parks_refl|]. cbn [park_rules].
  destruct (existing_slip_slot _ _); [apply IH|]. destruct (pack_for active current ls row) as [[p|why]|err] eqn:Ep; [|apply IH|apply only_parks_refl].
  apply pack_for_slip in Ep. unfold write_slip_pack. cbv zeta. set (c := Change _ _ _ _).
  pose proof (park_one w p (slip_file p) c Ep (conj eq_refl eq_refl)) as Hp.
  destruct (commit w _ c tt) as [w' [u|err]]; cbn [fst] in Hp; [|exact Hp]. eapply only_parks_trans; [exact Hp|apply IH].
Qed.

(** Parking is safe.  Whatever the audit rows, the labels and the caps, the
    critic's tick changes no file that is there: it adds packs that are in
    shadow and not AI-authored, so that neither a live decision nor the automatic
    promotion sees them, and appends to the log under its own name. *)
Theorem park_safe caps provisions label_files rows w t :
  only_parks w (maybe_park_live_rule_slip caps provisions label_files rows w t).1.
Proof.
  unfold maybe_park_live_rule_slip. destruct (negb _); [apply only_parks_refl|]. unfold guarded.
  match goal with |- context [match ?m with Ok a => _ | Err e => _ end] => destruct m as [[ls cap]|] end;
    [apply park_rules_safe|apply only_parks_refl].
Qed.

(** A rule that fires on every recent event, all labelled legitimate, and on no
    earlier one. *)
Definition slip_rows : list dict :=
  repeat [("trace_id", PStr "t1"); ("decision", PStr "deny"); ("rule_hits", PList [PStr "r1"])] 50
  ++ repeat [("trace_id", PStr "t2"); ("decision", PStr "allow"); ("rule_hits", PList [])] 50.

Definition slip_labels : gmap string file_read :=
  {[_file_token "acme" := Document (PDict [("by_trace", PDict [("t1", PStr "0")])])]}.

Definition live_r1 : string * file_read :=
  ("live.json", Document (PDict [("name", PStr "live"); ("rules", PList [PDict [("id", PStr "r1");
     ("when", PList [PDict [("field", PStr "amount"); ("op", PStr "gt"); ("value", PInt 1)]])]])])).

Definition demo_park (dir : list (string * file_read)) : world * result park_answer :=
  maybe_park_live_rule_slip (CapsEnv None None None) ∅ slip_labels slip_rows (loaded dir) "acme".

Example parks_a_retirement :
  map fst (demo_park [live_r1]).1.(w_dir) = ["live.json"; "slip_retire_r1.json"]
  /\ (demo_park [live_r1]).2 = Ok (Parked ["slip_retire_r1"] []).
Proof. vm_compute. done. Qed.

(** Once that file is no longer in shadow, every tick reports and logs a park
    that writes nothing. *)
Example parked_without_writing :
  let dir := [live_r1; ("slip_retire_r1.json", Document (PDict [("name", PStr "slip_retire_r1"); ("mode", PStr "disabled")]))] in
  let r := demo_park dir in
  (r.1).(w_dir) = dir /\ r.2 = Ok (Parked ["slip_retire_r1"] []) /\ map ch_action (r.1).(w_log) = ["park_live_rule_slip"].
Proof. vm_compute. done. Qed.
