(* ===== verification/BrainWire.v ===== *)
(** AI-authored packs after labels: the verdict on a proposed pack, the killed
    fingerprints and the kill of shadow packs ([decision_api/brain_wire.py]), and
    the scout endpoint and the observe tick of [decision_api/rule_api.py] that
    compose them with the promotion tick and the slip critic.

    The killed-fingerprint files are a finite map from file token to contents.
    What the scans and services deliver is the input record of [AutoPromote]'s
    gates; the notifications, whose failures are swallowed, are left out. *)

From Stdlib Require Import ZArith Lia Ascii String Bool SpecFloat.
From stdpp Require Import base option list sorting strings gmap.
From S2P Require Import Prelude PyFloat PyValue PyDateTime Sha256 GraphContract JsonRules PackEvaluator LabelStore Promotion AutoPromote.
From S2P Require Import PackRules L2Draft RuleApi RuleSlip.
Import JsonRules.Store.
Local Open Scope Z_scope.

(** * The verdict *)

Record verdict : Type := Verdict {
  publish_allowed : bool; vd_reason : option string; keep_rule_ids : list string; stamp_underpowered : bool; should_kill : bool }.

Definition drop_reason (h : helpfulness) : option string :=
  head (List.filter (fun b => mem b h.(help_blockers)) ["leftover_extras_fp_over_cap"; "leftover_extras_no_lift"]).

(** A rule known to fire on legitimate events above the cap. *)
Definition over_cap (precision : list rule_metric) (fp_cap : float) (rid : string) : bool :=
  match List.find (fun m => bool_decide (m.(rm_rule_id) = rid)) precision with
  | Some m => m.(rm_enough_support) && fltb fp_cap m.(rm_fp_rate)
  | None => false
  end.

Definition brain_wire_verdict (h : helpfulness) (precision : list rule_metric) (proposed_rule_ids : list string) (fp_cap : float) : verdict :=
  match drop_reason h with
  | Some b => Verdict false (Some b) [] false true
  | None =>
      let tokens := List.filter nonempty (map strip proposed_rule_ids) in
      let keep := List.filter (fun t => negb (over_cap precision fp_cap t)) tokens in
      if negb (no_items proposed_rule_ids) && no_items keep
      then Verdict false (Some "rule_fp_over_cap") [] false false
      else Verdict true None keep h.(underpowered) false
  end.

(** * Killed fingerprints *)

Abbreviation fingerprint := (string * string)%type.

Definition KILLED_SCHEMA : string := "tarka.killed_scout_fingerprints/v1".

Definition killed_token (tenant_id : string) : string := sha256_hex ("tarka.killed_scout:" +:+ _tenant_slug tenant_id).

Definition _pair (raw : pyval) : option fingerprint :=
  match raw with
  | PList [k; v] =>
      let kind := strip (str_or_empty k) in
      let value := strip (str_or_empty v) in
      if nonempty kind && nonempty value then Some (kind, value) else None
  | _ => None
  end.

Definition load_killed_fingerprints (files : gmap string file_read) (tenant_id : string) : result (gset fingerprint) :=
  match files !! killed_token tenant_id with
  | Some (Document (PDict raw)) =>
      let! items := iter_or_empty (get raw "fingerprints" PNone) in
      Ok (list_to_set (filter_map _pair items))
  | Some NotUtf8 => Err ValueError
  | _ => Ok ∅
  end.

Definition pair_le (a b : fingerprint) : Prop := a.1 <> b.1 /\ String.le a.1 b.1 \/ (a.1 = b.1 /\ String.le a.2 b.2).
#[export] Instance pair_le_dec : RelDecision pair_le.
Proof. intros a b. unfold pair_le. apply _. Defined.

Definition pair_val (p : fingerprint) : pyval := PList [PStr p.1; PStr p.2].

Definition add_killed_fingerprints (files : gmap string file_read) (tenant_id : string) (keys : list fingerprint)
    : result (gmap string file_read) :=
  match filter_map (fun p => _pair (pair_val p)) keys with
  | [] => Ok files
  | incoming =>
      let! cur := load_killed_fingerprints files tenant_id in
      let all := cur ∪ list_to_set incoming in
      Ok (<[killed_token tenant_id := Document (PDict [("schema_id", PStr KILLED_SCHEMA); ("tenant_id", PStr tenant_id);
             ("fingerprints", PList (map pair_val (merge_sort pair_le (elements all))))])]> files)
  end.

Definition fingerprint_from_pack (pack : dict) : option fingerprint :=
  let ev := as_dict (get pack "evidence" PNone) in
  let kind := strip (str_or_empty (get ev "fingerprint_kind" PNone)) in
  let value := strip (str_or_empty (get ev "fingerprint_value" PNone)) in
  if nonempty kind && nonempty value then Some (kind, value)
  else
    let rid := strip (str_or_empty (get pack "scout_report_id" PNone)) in
    if nonempty rid then Some ("scout_report_id", rid) else None.

(** * The kill *)

(** AI-authored, in shadow, and not the critic's. *)
Definition killable (d : dict) : bool :=
  eq_str (get d "mode" PNone) "shadow" && is_true (get d "is_ai_authored" PNone)
  && negb (bool_decide (str_or_empty (get d "authored_by" PNone) = "slip_critic")).

(** The report without the caps it was computed with. *)
Definition help_dict (h : helpfulness) : dict :=
  [("labeled_extras", PInt h.(labeled_extras)); ("extra_tp", PInt h.(extra_tp)); ("extra_fp", PInt h.(extra_fp));
   ("fp_rate", opt_val PFloat h.(fp_rate)); ("underpowered", PBool h.(underpowered)); ("blockers", str_list h.(help_blockers))].

Record kill_out : Type := KillOut { ko_killed : list string; ko_keys : list fingerprint }.

(** The loop over the loaded shadow packs, each checked again on disk. *)
Fixpoint kill_packs (h : helpfulness) (packs : list dict) (w : world) (out : kill_out) : world * result kill_out :=
  match packs with
  | [] => (w, Ok out)
  | pack :: packs' =>
      let fname := strip (str_or_empty (get pack "_source_file" PNone)) in
      if negb (killable pack) || negb (file_exists fname w.(w_dir)) then kill_packs h packs' w out
      else
        match head (List.filter (fun f => bool_decide (f.1 = fname)) w.(w_dir)) with
        | Some (_, NotUtf8) => (w, Err ValueError)
        | Some (_, Document (PDict d)) =>
            if negb (killable d) then kill_packs h packs' w out
            else
              let d' := dict_set "mode" (PStr "disabled") d in
              let key := match fingerprint_from_pack d' with Some k => Some k | None => fingerprint_from_pack pack end in
              kill_packs h packs'
                (World w.(w_store) (write_file fname (PDict d') w.(w_dir))
                   (w.(w_log) ++ [Change "kill_shadow_pack_leftover_fp" fname "api" [("helpfulness", PDict (help_dict h))]]))
                (KillOut (out.(ko_killed) ++ [fname]) (out.(ko_keys) ++ option_list key))
        | _ => kill_packs h packs' w out
        end
  end.

(** The rules and the killed-fingerprint files. *)
Record observe_state : Type := Observe { os_world : world; os_killed : gmap string file_read }.

Definition disable_ai_shadow_packs (h : helpfulness) (tenant_id : string) (s : observe_state) : observe_state * result (list string) :=
  if negb (should_kill (brain_wire_verdict h [] [] (lit 4 10))) then (s, Ok [])
  else
    match kill_packs h (get_shadow_packs s.(os_world).(w_store)) s.(os_world) (KillOut [] []) with
    | (w, Err e) => (Observe w s.(os_killed), Err e)
    | (w, Ok out) =>
        match (if nonempty tenant_id && negb (no_items out.(ko_keys)) then add_killed_fingerprints s.(os_killed) tenant_id out.(ko_keys)
               else Ok s.(os_killed)) with
        | Err e => (Observe w s.(os_killed), Err e)
        | Ok files =>
            let '(st, r) := load_rules w.(w_store) (Some w.(w_dir)) in
            (Observe (World st w.(w_dir) w.(w_log)) files, rmap (fun _ => out.(ko_killed)) r)
        end
    end.

(** * The endpoints *)

(** What an observe tick reads: [erfc] is the library function, the rest as in
    [AutoPromote] and [RuleSlip]. *)
Record observe_env : Type := ObserveEnv {
  oe_erfc : float -> float; oe_desk_env : option string; oe_desk_file : option file_read; oe_inputs : gate_inputs;
  oe_provisions : gmap string file_read; oe_label_files : gmap string file_read; oe_slip_rows : list dict; oe_now : string }.

Definition observe_gates (oe : observe_env) (tid : string) : result gates :=
  compute_desk_and_leftover_gates oe.(oe_erfc) oe.(oe_inputs) oe.(oe_provisions) tid EmptyString.

Definition maybe_kill_leftover_fp_shadows (oe : observe_env) (tenant_id : string) (s : observe_state) : observe_state * result (list string) :=
  let tid := strip tenant_id in
  match observe_gates oe tid with
  | Err e => (s, Err e)
  | Ok g => disable_ai_shadow_packs g.(g_leftover).(lg_helpfulness) tid s
  end.

Definition tick_promote (oe : observe_env) (tid : string) (s : observe_state) : observe_state * result tick_answer :=
  let '(w, r) := maybe_auto_promote_shadow oe.(oe_erfc) oe.(oe_desk_env) oe.(oe_desk_file) oe.(oe_inputs) oe.(oe_provisions) oe.(oe_now)
                   s.(os_world) tid in
  (Observe w s.(os_killed), r).

Definition tick_park (oe : observe_env) (tid : string) (s : observe_state) : observe_state * result park_answer :=
  let '(w, r) := maybe_park_live_rule_slip oe.(oe_inputs).(in_caps) oe.(oe_provisions) oe.(oe_label_files) oe.(oe_slip_rows) s.(os_world) tid in
  (Observe w s.(os_killed), r).

(** [m1; m2] in a state monad with exceptions. *)
Definition seq_s {S A B : Type} (m : S -> S * result A) (k : A -> S -> S * result B) (s : S) : S * result B :=
  match m s with (s', Ok a) => k a s' | (s', Err e) => (s', Err e) end.

(** [POST /shadow-packs/auto-promote-tick]: only the kill is guarded. *)
Definition auto_promote_tick (oe : observe_env) (tid : string) : observe_state -> observe_state * result (tick_answer * park_answer) :=
  seq_s (tick_promote oe tid) (fun out =>
  seq_s (tick_park oe tid) (fun parked s =>
    ((maybe_kill_leftover_fp_shadows oe tid s).1, Ok (out, parked)))).

Record ScoutPackIn : Type := MkScoutIn {
  si_name : string; si_mode : string; si_rules : list dict; si_tag_rules : list dict; si_authored_by : string;
  si_is_ai_authored : bool; si_scout_report_id : string; si_tenant_id : string; si_evidence : dict }.

Definition scout_author (body : ScoutPackIn) : string :=
  let a := str_or (strip body.(si_authored_by)) "scout_coordinated_burst" in
  if bool_decide (a = "slip_critic") then "scout_coordinated_burst" else a.

Definition scout_pack (body : ScoutPackIn) : dict :=
  [("version", PInt 1); ("name", PStr body.(si_name)); ("mode", PStr "shadow"); ("rules", PList (map PDict body.(si_rules)));
   ("tag_rules", PList (map PDict body.(si_tag_rules))); ("canary_percent", PNone); ("effective_at", PNone); ("approved_by", PNone);
   ("authored_by", PStr (scout_author body)); ("is_ai_authored", PBool body.(si_is_ai_authored));
   ("scout_report_id", PStr body.(si_scout_report_id)); ("evidence", PDict body.(si_evidence)); ("tenant_id", PStr (strip body.(si_tenant_id)))].

(** The rows of the precision report of the gates. *)
Definition precision_rows (ls : labels) (rows : list dict) : list dict :=
  map (fun row =>
    let tid := strip (str_or_empty (get row "trace_id" PNone)) in
    let eid := strip (str_or_empty (get row "entity_id" PNone)) in
    let lab := match (if nonempty tid then ls.(label_by_trace) !! tid else None) with
               | Some l => Some l
               | None => if nonempty eid then ls.(label_by_entity) !! eid else None
               end in
    dict_set "y_label" (PStr (match lab with Some l => if mem l ["0"; "1"] then l else EmptyString | None => EmptyString end)) row) rows.

Definition rule_token (r : dict) : string := strip (str_or_empty (get r "id" PNone)).

(** The cap of the verdict: a cap of zero is read as the default. *)
Definition verdict_cap (cap : float) : float := if f_truthy cap then cap else lit 4 10.

Definition tenant_precision (oe : observe_env) : list rule_metric :=
  report_rules (rule_precision_after_labels (precision_rows oe.(oe_inputs).(in_labels) oe.(oe_slip_rows)) 5).

Definition _scout_leftover_verdict (oe : observe_env) (tid : string) (body : ScoutPackIn) : result (verdict * helpfulness) :=
  let! g := observe_gates oe tid in
  let! (_, fp_cap, _) := leftover_caps_for_tenant oe.(oe_inputs).(in_caps) oe.(oe_provisions) (strip tid) in
  let h := g.(g_leftover).(lg_helpfulness) in
  Ok (brain_wire_verdict h (tenant_precision oe) (List.filter nonempty (map rule_token body.(si_rules))) (verdict_cap fp_cap), h).

(** The rules kept, when any of them has an id. *)
Definition kept_rules (keep : list string) (rules : list dict) : list dict :=
  let proposed := List.filter (fun r => nonempty (rule_token r)) rules in
  if no_items proposed then rules else List.filter (fun r => mem (rule_token r) keep) proposed.

Definition stamp (h : helpfulness) (pack : dict) : dict :=
  let note := PDict [("labeled_extras", PInt h.(labeled_extras)); ("extra_tp", PInt h.(extra_tp)); ("extra_fp", PInt h.(extra_fp));
                     ("hint", PStr "helpfulness_underpowered")] in
  dict_set "evidence" (PDict (dict_set "leftover_helpfulness" note (as_dict (get pack "evidence" PNone)))) pack.

Section Scout.
Context (e : rule_env) (byo_suggest : string) (allowed : list string) (oe : observe_env).

(** The checks of the endpoint and the pack it writes. *)
Definition new_scout_pack (h : headers) (body : ScoutPackIn) (s : observe_state) : result dict :=
  let! _ := _require_rule_governance e h in
  if negb (bool_decide (body.(si_mode) = "shadow")) then Err (http 400 "scout packs must use mode='shadow'") else
  if slip_draft_would_clobber body.(si_name) body.(si_evidence) (get_shadow_packs s.(os_world).(w_store)) then Err (http 409 "slip_draft_exists") else
  if is_slip_successor_suggest body.(si_name) body.(si_evidence) && negb (env_on byo_suggest) then Err (http 403 "byo_successor_suggest_off") else
  let tid := strip body.(si_tenant_id) in
  if negb (nonempty tid) then Err (http 409 "leftover_helpfulness_no_tenant") else
  let pack := scout_pack body in
  let! killed := (match fingerprint_from_pack pack with
                  | None => Ok false
                  | Some fp => let! ks := load_killed_fingerprints s.(os_killed) tid in Ok (bool_decide (fp ∈ ks))
                  end) in
  if killed : bool then Err (http 409 "leftover_helpfulness_killed") else
  let! ai_errors := _validate_ai_authored_pack allowed pack in
  if negb (no_items ai_errors) then Err (http 422 "ai_authored_pack") else
  let! errors := validate_rule_pack pack in
  if negb (no_items errors) then Err (http 422 "validation_errors") else
  let! (v, help) := _scout_leftover_verdict oe tid body in
  if negb v.(publish_allowed) then Err (http 409 (str_or (opt_str v.(vd_reason)) "leftover_helpfulness_refused")) else
  let rules := kept_rules v.(keep_rule_ids) body.(si_rules) in
  if no_items rules && negb (no_items body.(si_rules)) then Err (http 409 "rule_fp_over_cap") else
  let pack := dict_set "rules" (PList (map PDict rules)) pack in
  Ok (if v.(stamp_underpowered) then stamp help pack else pack).

(** The ticks after the write: an exception ends them and is swallowed. *)
Definition after_scout (tid : string) (s : observe_state) : observe_state :=
  (seq_s (tick_promote oe tid) (fun _ => seq_s (tick_park oe tid) (fun _ => maybe_kill_leftover_fp_shadows oe tid)) s).1.

Definition create_scout_pack (h : headers) (hex12 : string) (body : ScoutPackIn) (s : observe_state) : observe_state * result dict :=
  match new_scout_pack h body s with
  | Err err => (s, Err err)
  | Ok pack =>
      let f := "scout_" +:+ hex12 +:+ ".json" in
      let actor := if nonempty (opt_str h.(x_actor)) then _actor_from_headers e h else scout_author body in
      match commit s.(os_world) (put_file f (PDict pack) s.(os_world).(w_dir))
              (Change "create_scout_pack" f actor
                 [("name", PStr body.(si_name)); ("authored_by", PStr (scout_author body)); ("is_ai_authored", PBool body.(si_is_ai_authored));
                  ("scout_report_id", PStr body.(si_scout_report_id)); ("rule_count", PInt (Z.of_nat (length (as_list (get pack "rules" PNone)))))]) tt with
      | (w, Err err) => (Observe w s.(os_killed), Err err)
      | (w, Ok _) => (after_scout (strip body.(si_tenant_id)) (Observe w s.(os_killed)),
                      Ok [("file", PStr f); ("pack", PDict pack); ("mode", PStr "shadow")])
      end
  end.
End Scout.

(** * Fingerprints are remembered *)

Definition normal (p : fingerprint) : Prop := strip p.1 = p.1 /\ strip p.2 = p.2 /\ nonempty p.1 = true /\ nonempty p.2 = true.

Lemma pair_normal v p : _pair v = Some p -> normal p.
Proof.
  unfold _pair. destruct v as [| | | | |[|k [|x [|? ?]]]|]; try done. destruct (nonempty _) eqn:E1; [|done]. destruct (nonempty (strip (str_or_empty x))) eqn:E2; [|done].
  intros [= <-]. by repeat split; try apply strip_idem.
Qed.

Lemma pair_val_normal p : normal p -> _pair (pair_val p) = Some p.
Proof.
  destruct p as [k v]. intros (H1 & H2 & H3 & H4). cbn [fst snd] in *. unfold _pair, pair_val. cbn [fst snd].
  rewrite !str_or_empty_str. by rewrite H1, H2, H3, H4.
Qed.

Lemma pairs_back l : Forall normal l -> filter_map _pair (map pair_val l) = l.
Proof. induction 1 as [|p l Hp Hl IH]; [done|]. cbn [map filter_map]. by rewrite pair_val_normal, IH. Qed.

Lemma loaded_normal files t ks k : load_killed_fingerprints files t = Ok ks -> k ∈ ks -> normal k.
Proof.
  unfold load_killed_fingerprints. intros H Hk. repeat case_match; try done; try (apply Ok_inj in H; subst ks; by apply not_elem_of_empty in Hk).
  inv_ok. subst ks. apply elem_of_list_to_set, filter_map_elem in Hk as (raw' & _ & Hv). by eapply pair_normal.
Qed.

Lemma killed_added files t keys files' t' :
  add_killed_fingerprints files t keys = Ok files' -> Forall normal keys -> keys <> [] -> killed_token t' = killed_token t ->
  exists cur, load_killed_fingerprints files t = Ok cur /\ load_killed_fingerprints files' t' = Ok (cur ∪ list_to_set keys).
Proof.
  intros H Hn Hk Ht. unfold add_killed_fingerprints in H.
  assert (E : filter_map (fun p => _pair (pair_val p)) keys = keys).
  { clear -Hn. induction Hn as [|p l Hp Hl IH]; [done|]. cbn [filter_map]. by rewrite pair_val_normal, IH. }
  rewrite E in H. destruct keys as [|k keys]; [done|]. inv_ok. rename a into cur. exists cur. split; [done|]. subst files'.
  unfold load_killed_fingerprints at 1. rewrite Ht, lookup_insert_eq.
  set (all := cur ∪ list_to_set (k :: keys)). unfold iter_or_empty. change (get _ "fingerprints" PNone) with (PList (map pair_val (merge_sort pair_le (elements all)))).
  assert (Hall : Forall normal (merge_sort pair_le (elements all))).
  { rewrite merge_sort_Permutation. apply Forall_forall. intros p Hp. apply elem_of_elements, elem_of_union in Hp as [Hp|Hp].
    - by eapply loaded_normal.
    - apply elem_of_list_to_set in Hp. rewrite Forall_forall in Hn. by apply Hn. }
  assert (Hb : (if truthy (PList (map pair_val (merge_sort pair_le (elements all)))) then py_iter (PList (map pair_val (merge_sort pair_le (elements all)))) else Ok [])
    = Ok (map pair_val (merge_sort pair_le (elements all)))) by (destruct (map pair_val (merge_sort pair_le (elements all))); done).
  rewrite Hb. cbn [rbind]. rewrite pairs_back by done. f_equal. apply leibniz_equiv. rewrite (merge_sort_Permutation pair_le (elements all)).
  apply list_to_set_elements.
Qed.

Lemma fingerprint_normal d k : fingerprint_from_pack d = Some k -> normal k.
Proof.
  unfold fingerprint_from_pack. destruct (nonempty (strip (str_or_empty (get _ "fingerprint_kind" PNone)))) eqn:E1; cbn [andb].
  - destruct (nonempty (strip (str_or_empty (get _ "fingerprint_value" PNone)))) eqn:E2.
    + intros [= <-]. by repeat split; try apply strip_idem.
    + destruct (nonempty (strip (str_or_empty (get d "scout_report_id" PNone)))) eqn:E3; [|done]. intros [= <-]. by repeat split; try apply strip_idem.
  - destruct (nonempty (strip (str_or_empty (get d "scout_report_id" PNone)))) eqn:E3; [|done]. intros [= <-]. by repeat split; try apply strip_idem.
Qed.

(** * The kill, exactly *)

(** The loaded packs a kill is for. *)
Definition doomed (d : dict) : bool := is_shadow d && killable d.

Definition disabled (d : dict) : dict := dict_set "mode" (PStr "disabled") d.

Definition disable_if (p : string -> bool) (f : string * file_read) : string * file_read :=
  match f.2 with
  | Document (PDict d) => if doomed d && p f.1 then (f.1, Document (PDict (disabled d))) else f
  | _ => f
  end.

Definition doomed_file (f : string * file_read) : option (string * dict) :=
  match f.2 with Document (PDict d) => if doomed d then Some (f.1, d) else None | _ => None end.

Lemma disable_if_fst p f : (disable_if p f).1 = f.1.
Proof. destruct f as [f [[]| |]]; try done. unfold disable_if. cbn. by destruct (_ && _). Qed.

Lemma disabled_not_killable d : killable (disabled d) = false.
Proof. unfold killable, disabled. by rewrite get_set_eq. Qed.

Lemma killable_source f d : killable (dict_set "_source_file" (PStr f) d) = killable d.
Proof. unfold killable. by rewrite !get_set_ne. Qed.

Lemma fingerprint_disabled d : fingerprint_from_pack (disabled d) = fingerprint_from_pack d.
Proof. unfold fingerprint_from_pack, disabled. by rewrite !get_set_ne. Qed.

Lemma fingerprint_source f d : fingerprint_from_pack (dict_set "_source_file" (PStr f) d) = fingerprint_from_pack d.
Proof. unfold fingerprint_from_pack. by rewrite !get_set_ne. Qed.

Lemma lookup_file p dir f x :
  NoDup (map fst dir) -> (f, x) ∈ dir ->
  head (List.filter (fun g => bool_decide (g.1 = f)) (map (disable_if p) dir)) = Some (disable_if p (f, x)).
Proof.
  induction dir as [|g dir IH]; intros Hn Hin; [by apply not_elem_of_nil in Hin|]. cbn [map] in Hn. apply NoDup_cons in Hn as [Hg Hn].
  cbn [map List.filter]. rewrite disable_if_fst. apply elem_of_cons in Hin as [<-|Hin]; [by rewrite bool_decide_eq_true_2|].
  rewrite bool_decide_eq_false_2; [by apply IH|]. intros E. apply Hg. rewrite E. exact (list_elem_of_fmap_2 fst _ _ Hin).
Qed.

Lemma write_disabled p dir f d :
  NoDup (map fst dir) -> (f, Document (PDict d)) ∈ dir -> doomed d = true -> p f = false ->
  write_file f (PDict (disabled d)) (map (disable_if p) dir) = map (disable_if (fun n => p n || bool_decide (n = f))) dir.
Proof.
  intros Hn Hin Hd Hp. unfold write_file. rewrite map_map. apply map_ext_in. intros [g x] Hg%list_elem_of_In. rewrite disable_if_fst. cbn [fst].
  case_bool_decide as E.
  - subst g. rewrite (file_content _ _ _ _ Hn Hg Hin). unfold disable_if. cbn [fst snd]. by rewrite Hd, (bool_decide_eq_true_2 (f = f)), orb_true_r.
  - destruct x as [v| |]; try done. destruct v; try done. unfold disable_if. cbn [fst snd]. by rewrite (bool_decide_eq_false_2 (g = f)), orb_false_r.
Qed.

Lemma file_exists_map p dir f x : (f, x) ∈ dir -> file_exists f (map (disable_if p) dir) = true.
Proof.
  intros Hin. unfold file_exists. apply mem_spec. rewrite map_map, (map_ext _ fst) by apply disable_if_fst. exact (list_elem_of_fmap_2 fst _ _ Hin).
Qed.

Definition kill_row (h : helpfulness) (f : string) : change :=
  Change "kill_shadow_pack_leftover_fp" f "api" [("helpfulness", PDict (help_dict h))].

Definition named_doc (f : string * file_read) : Prop := document f /\ strip f.1 = f.1.

Lemma kill_packs_exact h dir : NoDup (map fst dir) -> Forall named_doc dir -> forall fs w p out,
  (forall f, f ∈ fs -> f ∈ dir) -> NoDup (map fst fs) -> (forall f, f ∈ fs -> p f.1 = false) -> w.(w_dir) = map (disable_if p) dir ->
  let ds := filter_map doomed_file fs in
  kill_packs h (filter_map shadow_file fs) w out
  = (World w.(w_store) (map (disable_if (fun n => p n || mem n (map fst fs))) dir) (w.(w_log) ++ map (fun t => kill_row h t.1) ds),
     Ok (KillOut (out.(ko_killed) ++ map fst ds) (out.(ko_keys) ++ filter_map (fun t => fingerprint_from_pack t.2) ds))).
Proof.
  intros Hn Hdoc. induction fs as [|[f x] fs IH]; intros w p out Hsub Hnf Hp Hw ds.
  - assert (E : map (disable_if (fun n => p n || mem n (map fst (@nil (string * file_read))))) dir = map (disable_if p) dir).
    { apply map_ext. intros [g y]. unfold disable_if. cbn [fst snd map]. destruct y as [v| |]; try done. destruct v; try done.
      by rewrite orb_false_r. }
    rewrite E. cbn [filter_map kill_packs map]. rewrite !app_nil_r. destruct w, out. cbn in Hw |- *. by rewrite Hw.
  - assert (Hin : (f, x) ∈ dir) by (apply Hsub; left). cbn [map] in Hnf. apply NoDup_cons in Hnf as [Hnew Hnf].
    assert (Hpf : p f = false) by (apply (Hp (f, x)); left).
    rewrite Forall_forall in Hdoc. destruct (Hdoc _ Hin) as [[d Ed] Hs]. cbn [fst snd] in Ed, Hs. subst x.
    assert (Hext : forall q, (forall n, n <> f -> q n = p n) -> (doomed d = true -> q f = true) ->
      map (disable_if (fun n => q n || mem n (map fst fs))) dir = map (disable_if (fun n => p n || mem n (map fst ((f, Document (PDict d)) :: fs)))) dir).
    { intros q Hq Hqf. apply map_ext_in. intros [g y] Hg%list_elem_of_In. unfold disable_if. cbn [fst snd]. destruct y as [v| |]; try done. destruct v as [| | | | | |d']; try done.
      destruct (doomed d') eqn:Ed; [|done]. cbn [andb]. assert (E : (q g || mem g (map fst fs)) = (p g || mem g (map fst ((f, Document (PDict d)) :: fs)))); [|by rewrite E].
      cbn [map fst]. unfold mem. destruct (decide (g = f)) as [-> |N].
      - pose proof (file_content _ _ _ _ Hn Hg Hin) as [= ->]. rewrite Hqf by done. rewrite (bool_decide_eq_true_2 (f ∈ f :: _)) by left. by rewrite orb_true_r.
      - rewrite Hq by done. f_equal. apply bool_decide_ext. rewrite elem_of_cons. naive_solver. }
    unfold ds. cbn [filter_map]. change (shadow_file (f, Document (PDict d))) with (if is_shadow d then Some (dict_set "_source_file" (PStr f) d) else None).
    change (doomed_file (f, Document (PDict d))) with (if doomed d then Some (f, d) else None).
    assert (Hskip : doomed d = false -> kill_packs h (filter_map shadow_file fs) w out
      = (World (w_store w) (map (disable_if (fun n => p n || mem n (map fst ((f, Document (PDict d)) :: fs)))) dir)
           (w_log w ++ map (fun t => kill_row h t.1) (filter_map doomed_file fs)),
         Ok (KillOut (ko_killed out ++ map fst (filter_map doomed_file fs)) (ko_keys out ++ filter_map (fun t => fingerprint_from_pack t.2) (filter_map doomed_file fs))))).
    { intros Hnd. rewrite (IH w p out) by (try done; intros; first [apply Hsub; by right|apply Hp; by right]). by rewrite (Hext p) by (try done; by rewrite Hnd). }
    destruct (is_shadow d) eqn:Esh; [|assert (Hnd : doomed d = false) by (unfold doomed; by rewrite Esh); rewrite Hnd; by apply Hskip].
    cbn [kill_packs]. rewrite killable_source, get_set_eq, str_or_empty_str, Hs, Hw, (file_exists_map p dir f _ Hin).
    destruct (killable d) eqn:Ek; cbn [negb orb];
      [|assert (Hnd : doomed d = false) by (unfold doomed; by rewrite Esh, Ek); rewrite Hnd; by apply Hskip].
    assert (Hdm : doomed d = true) by (unfold doomed; by rewrite Esh, Ek).
    rewrite (lookup_file p dir f _ Hn Hin). unfold disable_if at 1. cbn [fst snd]. rewrite !Hdm, Hpf. cbn [andb]. rewrite Ek. cbn [negb].
    fold (disabled d). rewrite fingerprint_source, (write_disabled p dir f d Hn Hin Hdm Hpf).
    rewrite (IH (World (w_store w) _ _) (fun n => p n || bool_decide (n = f))); [|intros; apply Hsub; by right|done| |done].
    + cbn [w_store w_log ko_killed ko_keys map filter_map fst snd]. rewrite <- !app_assoc. rewrite fingerprint_disabled.
      rewrite (Hext (fun n => p n || bool_decide (n = f))); [|intros n N; by rewrite bool_decide_eq_false_2, orb_false_r|intros _; by rewrite bool_decide_eq_true_2, orb_true_r].
      destruct (fingerprint_from_pack d); reflexivity.
    + intros g Hg. rewrite (Hp g) by (by right). apply bool_decide_eq_false_2. intros E. apply Hnew. cbn [fst]. rewrite <- E.
      exact (list_elem_of_fmap_2 fst _ _ Hg).
Qed.

(** The rules as the kill finds them: readable packs under distinct plain names,
    loaded as they are on disk. *)
Record synced (w : world) : Prop := {
  sy_names : NoDup (map fst w.(w_dir));
  sy_docs : Forall named_doc w.(w_dir);
  sy_loaded : get_shadow_packs w.(w_store) = shadows w.(w_dir) }.

Definition victims (w : world) : list (string * dict) := filter_map doomed_file (merge_sort name_le w.(w_dir)).

Definition victim_keys (w : world) : list fingerprint := filter_map (fun t => fingerprint_from_pack t.2) (victims w).

Lemma victims_elem w f d : (f, d) ∈ victims w <-> (f, Document (PDict d)) ∈ w.(w_dir) /\ doomed d = true.
Proof.
  unfold victims. rewrite filter_map_elem. setoid_rewrite merge_sort_Permutation. split.
  - intros ([g x] & Hg & E). unfold doomed_file in E. cbn in E. destruct x as [v| |]; try done. destruct v as [| | | | | |d']; try done.
    destruct (doomed d') eqn:Ed; [|done]. by injection E as -> ->.
  - intros [Hin Hd]. eexists. split; [exact Hin|]. unfold doomed_file. cbn. by rewrite Hd.
Qed.

Lemma victim_keys_normal w : Forall normal (victim_keys w).
Proof. apply Forall_forall. intros k (t & _ & Hk)%filter_map_elem. by eapply fingerprint_normal. Qed.

Lemma disable_all dir : map (disable_if (fun n => false || mem n (map fst (merge_sort name_le dir)))) dir = map (disable_if (fun _ => true)) dir.
Proof.
  apply map_ext_in. intros [g x] Hg%list_elem_of_In. unfold disable_if. cbn [fst snd]. destruct x as [v| |]; try done. destruct v; try done.
  assert (E : mem g (map fst (merge_sort name_le dir)) = true); [|by rewrite E].
  apply mem_spec. assert (Hg' : (g, Document (PDict d)) ∈ merge_sort name_le dir) by (by rewrite merge_sort_Permutation). exact (list_elem_of_fmap_2 fst _ _ Hg').
Qed.

Lemma map_disable_none dir : map (disable_if (fun _ => false)) dir = dir.
Proof. rewrite <- map_id. apply map_ext. intros [g x]. unfold disable_if. cbn. destruct x as [v| |]; try done. destruct v; try done. by rewrite andb_false_r. Qed.

Lemma kill_loop h w : synced w ->
  kill_packs h (get_shadow_packs w.(w_store)) w (KillOut [] [])
  = (World w.(w_store) (map (disable_if (fun _ => true)) w.(w_dir)) (w.(w_log) ++ map (fun t => kill_row h t.1) (victims w)),
     Ok (KillOut (map fst (victims w)) (victim_keys w))).
Proof.
  intros [Hn Hd Hl]. rewrite Hl. unfold shadows.
  rewrite (kill_packs_exact h w.(w_dir) Hn Hd (merge_sort name_le w.(w_dir)) w (fun _ => false) (KillOut [] [])).
  - by rewrite disable_all.
  - intros f. by rewrite merge_sort_Permutation.
  - assert (E : map fst (merge_sort name_le (w_dir w)) ≡ₚ map fst (w_dir w)) by (apply fmap_Permutation, merge_sort_Permutation). by rewrite E.
  - done.
  - by rewrite map_disable_none.
Qed.

Lemma documents_disabled p dir : Forall named_doc dir -> Forall document (map (disable_if p) dir).
Proof.
  intros Hd. apply Forall_map. eapply Forall_impl; [exact Hd|]. intros [f x] [[d E] _]. cbn in E. subst x. unfold disable_if, document. cbn.
  destruct (_ && _); eauto.
Qed.

Lemma kill_spec h t s :
  synced s.(os_world) -> drop_reason h <> None -> is_ok (load_killed_fingerprints s.(os_killed) t) = true ->
  exists s', disable_ai_shadow_packs h t s = (s', Ok (map fst (victims s.(os_world))))
    /\ s'.(os_world).(w_dir) = map (disable_if (fun _ => true)) s.(os_world).(w_dir)
    /\ s'.(os_world).(w_log) = s.(os_world).(w_log) ++ map (fun t => kill_row h t.1) (victims s.(os_world))
    /\ get_shadow_packs s'.(os_world).(w_store) = shadows s'.(os_world).(w_dir)
    /\ (nonempty t = true -> forall t' k, killed_token t' = killed_token t -> k ∈ victim_keys s.(os_world) ->
          exists ks, load_killed_fingerprints s'.(os_killed) t' = Ok ks /\ k ∈ ks).
Proof.
  intros Hs Hd [cur Hc]%is_ok_spec. unfold disable_ai_shadow_packs, brain_wire_verdict. destruct (drop_reason h) as [b|] eqn:Eb; [|done].
  cbn [should_kill negb]. rewrite (kill_loop h (os_world s) Hs). cbn [ko_keys ko_killed].
  destruct (load_rules_shadow (w_store (os_world s)) (map (disable_if (fun _ => true)) (w_dir (os_world s)))) as (st & El & Esh).
  { apply documents_disabled, Hs. }
  cbn [w_store w_dir w_log]. destruct (nonempty t) eqn:En; cbn [andb].
  - destruct (victim_keys (os_world s)) as [|k0 ks0] eqn:Ek; cbn [no_items negb].
    + rewrite El. eexists. split; [reflexivity|]. cbn [os_world os_killed w_dir w_log w_store]. do 3 (split; [done|]). intros _ t' k _ Hk. by apply not_elem_of_nil in Hk.
    + rewrite <- Ek. destruct (add_killed_fingerprints (os_killed s) t (victim_keys (os_world s))) as [files|err] eqn:Ea.
      2:{ exfalso. unfold add_killed_fingerprints in Ea. destruct (filter_map _ _); [done|]. by rewrite Hc in Ea. }
      rewrite El. eexists. split; [reflexivity|]. cbn [os_world os_killed w_dir w_log w_store]. do 3 (split; [done|]). intros _ t' k Ht Hk.
      destruct (killed_added _ _ _ _ t' Ea (victim_keys_normal _)) as (cur' & _ & Hl); [by rewrite Ek|done|]. eexists. split; [exact Hl|].
      apply elem_of_union. right. by apply elem_of_list_to_set.
  - rewrite El. eexists. split; [reflexivity|]. cbn [os_world os_killed w_dir w_log w_store]. do 3 (split; [done|]). done.
Qed.

(** The kill is exact.  On a directory of readable packs, loaded as they are,
    a report of unhelpful extras disables exactly the AI-authored shadow packs
    that are not the critic's, whichever tenant they were written for, leaves
    every other file as it was, logs one row per pack, reports their files and
    leaves the loaded shadow packs those of the directory. *)
Theorem kill_exact h t s :
  synced s.(os_world) -> drop_reason h <> None -> is_ok (load_killed_fingerprints s.(os_killed) t) = true ->
  exists s', disable_ai_shadow_packs h t s = (s', Ok (map fst (victims s.(os_world))))
    /\ s'.(os_world).(w_dir) = map (disable_if (fun _ => true)) s.(os_world).(w_dir)
    /\ s'.(os_world).(w_log) = s.(os_world).(w_log) ++ map (fun t => kill_row h t.1) (victims s.(os_world))
    /\ get_shadow_packs s'.(os_world).(w_store) = shadows s'.(os_world).(w_dir).
Proof.
  intros Hs Hd Hk. destruct (kill_spec h t s Hs Hd Hk) as (s' & H1 & H2 & H3 & H4 & _). by exists s'.
Qed.

Lemma killed_refused e byo allowed oe h body s k ks :
  fingerprint_from_pack (scout_pack body) = Some k -> load_killed_fingerprints s.(os_killed) (strip body.(si_tenant_id)) = Ok ks -> k ∈ ks ->
  exists err, new_scout_pack e byo allowed oe h body s = Err err.
Proof.
  intros Hf Hl Hk. unfold new_scout_pack. destruct (_require_rule_governance e h) as [u|err]; [cbn [rbind]|by exists err].
  repeat (match goal with |- exists _, (if ?b then _ else _) = _ => destruct b end; [by eexists|]).
  rewrite Hf, Hl. cbn [rbind]. rewrite (bool_decide_eq_true_2 (k ∈ ks)) by done. by eexists.
Qed.

(** What was killed stays out.  After a kill for a tenant, every scout pack of
    that tenant that carries the fingerprint of a disabled pack is refused,
    whatever its rules, as long as the killed-fingerprint file is kept. *)
Theorem killed_stays_out h t s f d k s' r s2 e byo allowed oe hd hex12 body :
  synced s.(os_world) -> drop_reason h <> None -> nonempty t = true -> is_ok (load_killed_fingerprints s.(os_killed) t) = true ->
  (f, Document (PDict d)) ∈ s.(os_world).(w_dir) -> doomed d = true -> fingerprint_from_pack d = Some k ->
  disable_ai_shadow_packs h t s = (s', r) -> s2.(os_killed) = s'.(os_killed) ->
  strip body.(si_tenant_id) = t -> fingerprint_from_pack (scout_pack body) = Some k ->
  exists err, create_scout_pack e byo allowed oe hd hex12 body s2 = (s2, Err err).
Proof.
  intros Hs Hd Ht Hk Hin Hdm Hfp Hkill Hs2 Hten Hbody.
  destruct (kill_spec h t s Hs Hd Hk) as (s1 & H1 & _ & _ & _ & H5). rewrite Hkill in H1. injection H1 as -> _.
  destruct (H5 Ht t k eq_refl) as (ks & Hl & Hkk).
  { apply filter_map_elem. exists (f, d). split; [by apply victims_elem|done]. }
  rewrite <- Hs2, <- Hten in Hl. destruct (killed_refused e byo allowed oe hd body s2 k ks Hbody Hl Hkk) as [err Herr].
  unfold create_scout_pack. rewrite Herr. by exists err.
Qed.

(** * The contract of a scout pack *)

Definition cond_within (allowed : list string) (c : pyval) : Prop :=
  forall d, c = PDict d ->
    (truthy (get d "field" PNone) = true -> exists f, get d "field" PNone = PStr f /\ f ∈ allowed)
    /\ exists o, get d "op" (PStr "eq") = PStr o /\ o ∈ _AI_PACK_ALLOWED_OPS.

Definition rule_within (allowed : list string) (r : dict) : Prop :=
  (exists sd, py_float (get r "score_delta" PNone) = Ok sd
     /\ (is_nan sd = true \/ (fleb _AI_PACK_SCORE_DELTA_MIN sd = true /\ fleb sd _AI_PACK_SCORE_DELTA_MAX = true)))
  /\ forall l c, get r "when" PNone = PList l -> c ∈ l -> cond_within allowed c.

Lemma rmapM_all {A B : Type} (f : A -> result B) l ys x : rmapM f l = Ok ys -> x ∈ l -> exists y, y ∈ ys /\ f x = Ok y.
Proof.
  revert ys. induction l as [|a l IH]; intros ys H Hx; [by apply not_elem_of_nil in Hx|]. cbn [rmapM] in H. inv_ok. subst ys.
  apply elem_of_cons in Hx as [-> |Hx]; [exists a0; split; [left|done]|]. destruct (IH a1 H1 Hx) as (y & Hy & E). exists y. split; [by right|done].
Qed.

Lemma no_items_concat {A : Type} (l : list (list A)) x : no_items (concat l) = true -> x ∈ l -> x = [].
Proof.
  induction l as [|y l IH]; intros H Hx; [by apply not_elem_of_nil in Hx|]. cbn [concat] in H. rewrite no_items_app in H. apply andb_prop in H as [H1 H2].
  apply elem_of_cons in Hx as [-> |Hx]; [by apply no_items_true|auto].
Qed.

Lemma errors_if_none b msg : no_items (errors_if b msg) = true -> b = false.
Proof. by destruct b. Qed.

Lemma in_str_set_true x l : in_str_set x l = Ok true -> exists s, x = PStr s /\ s ∈ l.
Proof. destruct x; try done. cbn. intros H. apply Ok_inj in H. exists s. split; [done|]. by apply mem_spec. Qed.

Lemma field_error_none allowed rid c :
  field_error allowed rid c = Ok [] -> forall d, c = PDict d -> truthy (get d "field" PNone) = true -> exists f, get d "field" PNone = PStr f /\ f ∈ allowed.
Proof.
  intros H d -> Ht. cbn [field_error] in H. unfold por in H. rewrite !Ht in H. cbn [negb] in H. inv_ok.
  destruct a; [by apply in_str_set_true|done].
Qed.

Lemma op_error_none rid c :
  op_error rid c = Ok [] -> forall d, c = PDict d -> exists o, get d "op" (PStr "eq") = PStr o /\ o ∈ _AI_PACK_ALLOWED_OPS.
Proof. intros H d ->. cbn [op_error] in H. inv_ok. destruct a; [by apply in_str_set_true|done]. Qed.

Lemma iter_list v l : v = PList l -> iter_or_empty v = Ok l.
Proof. intros ->. by destruct l. Qed.

Lemma rule_contract allowed r :
  rule_field_errors allowed (PDict r) = Ok [] -> ai_rule_errors (PDict r) = Ok [] -> rule_within allowed r.
Proof.
  intros Hf Ha. cbn [rule_field_errors ai_rule_errors] in Hf, Ha. apply rbind_Ok in Hf as (conds & Hc & Hf).
  destruct (py_float (get r "score_delta" PNone)) as [sd|err] eqn:Es; [|by destruct (is_type_or_value_error err)].
  apply rbind_Ok in Ha as (conds' & Hc' & Ha). rewrite Hc in Hc'. apply Ok_inj in Hc'. subst conds'.
  apply rbind_Ok in Ha as (ops & Ho & Ha). apply Ok_inj in Ha. apply app_eq_nil in Ha as [Hd Hops].
  destruct (rmapM (field_error allowed _) conds) as [fs|] eqn:Ef; [|done]. cbn [rmap] in Hf. apply Ok_inj in Hf.
  split.
  - exists sd. split; [done|]. destruct (fltb sd _) eqn:E1; [done|]. destruct (fltb _ sd) eqn:E2; [done|].
    destruct (is_nan sd) eqn:En; [by left|right]. by rewrite !fleb_negb_fltb, E1, E2.
  - intros l c Hl Hin d Hd'. rewrite (iter_list _ _ Hl) in Hc. apply Ok_inj in Hc. subst conds. split.
    + intros Ht. destruct (rmapM_all _ _ _ _ Ef Hin) as (y & Hy & Ey). assert (y = []) as -> by (eapply no_items_concat; [by rewrite Hf|done]).
      by eapply field_error_none.
    + destruct (rmapM_all _ _ _ _ Ho Hin) as (y & Hy & Ey). assert (y = []) as -> by (eapply no_items_concat; [by rewrite Hops|done]).
      by eapply op_error_none.
Qed.

Lemma ai_pack_contract allowed pack rules :
  get pack "rules" PNone = PList (map PDict rules) -> _validate_ai_authored_pack allowed pack = Ok [] -> Forall (rule_within allowed) rules.
Proof.
  intros Hr H. unfold _validate_ai_authored_pack in H. apply rbind_Ok in H as (fields & Hf & H). apply rbind_Ok in H as (rs & Hrs & H).
  apply rbind_Ok in H as (ess & He & H). apply Ok_inj in H. apply app_eq_nil in H as [_ H]. apply app_eq_nil in H as [_ H]. apply app_eq_nil in H as [_ H].
  apply app_eq_nil in H as [Hfe Hess]. assert (Ers : rs = map PDict rules).
  { rewrite Hr in Hrs. unfold por in Hrs. destruct (map PDict rules); cbn in Hrs; congruence. }
  subst rs. unfold when_field_errors in Hf. rewrite (iter_list _ _ Hr) in Hf. cbn [rbind] in Hf.
  destruct (rmapM (rule_field_errors allowed) _) as [fs|] eqn:Efs; [|done]. cbn [rmap] in Hf. apply Ok_inj in Hf.
  apply Forall_forall. intros r Hin. assert (Hin' : PDict r ∈ map PDict rules) by (apply (list_elem_of_fmap_2 PDict _ _ Hin)).
  apply rule_contract.
  - destruct (rmapM_all _ _ _ _ Efs Hin') as (y & Hy & Ey). assert (y = []) as -> by (eapply no_items_concat; [by rewrite Hf, Hfe|done]). done.
  - destruct (rmapM_all _ _ _ _ He Hin') as (y & Hy & Ey). assert (y = []) as -> by (eapply no_items_concat; [by rewrite Hess|done]). done.
Qed.

Lemma kept_rules_sub keep rules r : r ∈ kept_rules keep rules -> r ∈ rules /\ (nonempty (rule_token r) = true -> rule_token r ∈ keep).
Proof.
  unfold kept_rules. destruct (no_items _) eqn:E.
  - intros Hr. split; [done|]. intros Ht. exfalso. apply no_items_true in E. assert (Hin : r ∈ List.filter (fun r => nonempty (rule_token r)) rules) by (by apply filter_elem).
    rewrite E in Hin. by apply not_elem_of_nil in Hin.
  - intros [[Hr _]%filter_elem Hm]%filter_elem. split; [done|]. intros _. by apply mem_spec.
Qed.

(** What a scout pack may contain.  Every rule the endpoint writes has a
    score delta between 5 and 30 (or one that is not a number), its flat
    conditions read only catalogue fields with the listed operators, and no rule
    is known to fire on legitimate events above the tenant's cap; nothing is
    said of a rule's condition tree, tags or tag rules. *)
Theorem scout_pack_contract e byo allowed oe h body s p :
  new_scout_pack e byo allowed oe h body s = Ok p ->
  get p "mode" PNone = PStr "shadow" /\ get p "is_ai_authored" PNone = PBool body.(si_is_ai_authored)
  /\ exists rules add_cap cap min_l, get p "rules" PNone = PList (map PDict rules) /\ Forall (rule_within allowed) rules
     /\ leftover_caps_for_tenant oe.(oe_inputs).(in_caps) oe.(oe_provisions) (strip body.(si_tenant_id)) = Ok (add_cap, cap, min_l)
     /\ forall r, r ∈ rules -> nonempty (rule_token r) = true -> over_cap (tenant_precision oe) (verdict_cap cap) (rule_token r) = false.
Proof.
  unfold new_scout_pack. intros H. apply rbind_Ok in H as (u & _ & H).
  do 4 (match type of H with (if ?b then _ else _) = _ => destruct b; [done|] end). cbv zeta in H.
  apply rbind_Ok in H as (killed & _ & H). destruct killed; [done|].
  apply rbind_Ok in H as (ai & Hai & H). destruct ai; [|done]. apply rbind_Ok in H as (errs & _ & H). destruct errs; [|done].
  apply rbind_Ok in H as ([v help] & Hv & H). destruct (publish_allowed v) eqn:Ep; [|done]. cbn [no_items negb] in H.
  destruct (_ && _); [done|]. apply Ok_inj in H.
  assert (Hrules : Forall (rule_within allowed) body.(si_rules)) by (apply (ai_pack_contract allowed (scout_pack body)); [reflexivity|exact Hai]).
  set (rules := kept_rules (keep_rule_ids v) (si_rules body)) in *. set (q := dict_set "rules" (PList (map PDict rules)) (scout_pack body)) in *.
  assert (Hq : forall k dflt, k <> "evidence" -> get p k dflt = get q k dflt).
  { intros k dflt N. subst p. destruct (stamp_underpowered v); [|done]. unfold stamp. by rewrite get_set_ne. }
  rewrite !Hq by done. split; [done|]. split; [done|]. unfold _scout_leftover_verdict in Hv. apply rbind_Ok in Hv as (g & _ & Hv).
  apply rbind_Ok in Hv as ([[add_cap cap] min_l] & Hcaps & Hv). apply Ok_inj in Hv. injection Hv as Hv _. rewrite strip_idem in Hcaps.
  exists rules, add_cap, cap, min_l. split; [unfold q; apply get_set_eq|]. split; [|split; [exact Hcaps|]].
  - apply Forall_forall. intros r Hr. apply kept_rules_sub in Hr as [Hr _]. rewrite Forall_forall in Hrules. by apply Hrules.
  - intros r Hr Ht. apply kept_rules_sub in Hr as [_ Hk]. specialize (Hk Ht). unfold brain_wire_verdict in Hv.
    destruct (drop_reason _); [by subst v|]. destruct (_ && _); [by subst v|]. subst v. cbn [keep_rule_ids] in Hk.
    apply filter_elem in Hk as [_ Hk]. by apply negb_true_iff in Hk.
Qed.

(** * Examples *)

Definition acme_env (i : gate_inputs) : observe_env :=
  ObserveEnv (fun x => x) None None i acme_files ∅ [] "now".

Definition burst_rule (extra : dict) : dict :=
  dict_update [("id", PStr "r1"); ("when", PList [PDict [("field", PStr "amount"); ("op", PStr "gt"); ("value", PInt 100)]]);
               ("score_delta", PInt 20)] extra.

Definition burst (rules : list dict) : ScoutPackIn :=
  MkScoutIn "burst" "shadow" rules [] "scout_coordinated_burst" true "rep-1" "acme" [].

Definition no_auth : rule_env := RuleEnv EmptyString None None None None.
Definition scout_header : headers := Headers (Some "scout-7") None None.
Definition nothing_loaded : observe_state := Observe (loaded []) ∅.

Definition post_burst (rules : list dict) : observe_state * result dict :=
  create_scout_pack no_auth EmptyString ["amount"] (acme_env green) scout_header "a1" (burst rules) nothing_loaded.

Lemma scout_pack_contract_witness :
  exists p, new_scout_pack no_auth EmptyString ["amount"] (acme_env green) scout_header (burst [burst_rule []]) nothing_loaded = Ok p
    /\ get p "mode" PNone = PStr "shadow".
Proof.
  destruct (new_scout_pack no_auth EmptyString ["amount"] (acme_env green) scout_header (burst [burst_rule []]) nothing_loaded) as [p|err] eqn:E;
    [|revert E; vm_compute; discriminate].
  exists p. split; [reflexivity|]. exact (proj1 (scout_pack_contract _ _ _ _ _ _ _ _ E)).
Defined.

(** For a tenant whose tick is open, the request that creates a scout pack also
    makes it live. *)
Example scout_pack_live_at_once :
  let s := (post_burst [burst_rule []]).1 in
  map ch_action s.(os_world).(w_log) = ["create_scout_pack"; "auto_promote_shadow_pack"]
  /\ length (get_active_packs_snapshot s.(os_world).(w_store)) = 1%nat.
Proof. vm_compute. done. Qed.

(** A delta that is not a number and a condition tree on any field with any
    operator pass the contract. *)
Example contract_gaps :
  is_ok (post_burst [burst_rule [("score_delta", PStr "nan")]]).2 = true
  /\ is_ok (post_burst [dict_set "when_ast" (PDict [("type", PStr "condition"); ("op", PStr "regex"); ("field", PStr "secret"); ("value", PStr "*")])
                          (dict_set "when" PNone (burst_rule []))]).2 = true.
Proof. vm_compute. done. Qed.

(** Tags are not checked: a live rule with a number for its tags makes every
    evaluation on which it matches raise. *)
Example unchecked_tags_raise :
  let s := (post_burst [burst_rule [("tags", PInt 5)]]).1 in
  PackEvaluator.evaluate_packs_python GraphContract.Contract.empty_registry [] (fun _ => false) 0
    s.(os_world).(w_store).(_cached_packs) [("amount", PInt 700)] [] "acme" "e" "production" true = Err TypeError.
Proof. vm_compute. reflexivity. Qed.

(** ** The kill crosses tenants *)

Definition ai_pack_of (tenant report : string) : file_read :=
  Document (PDict [("name", PStr report); ("mode", PStr "shadow"); ("is_ai_authored", PBool true); ("tenant_id", PStr tenant);
                   ("scout_report_id", PStr report)]).

Definition two_tenants : observe_state := Observe (loaded [("a.json", ai_pack_of "acme" "rep-1"); ("b.json", ai_pack_of "beta" "rep-2")]) ∅.

Definition unhelpful : helpfulness := Helpfulness 10 0 10 (Some (litZ 1)) false ["leftover_extras_fp_over_cap"].

Lemma two_tenants_synced : synced two_tenants.(os_world).
Proof.
  split.
  - vm_compute. repeat constructor; set_solver.
  - repeat constructor; (eexists; reflexivity) || reflexivity.
  - vm_compute. reflexivity.
Qed.

Lemma kill_exact_witness :
  exists s', disable_ai_shadow_packs unhelpful "acme" two_tenants = (s', Ok ["a.json"; "b.json"])
    /\ modes s'.(os_world) = [("a.json", PStr "disabled"); ("b.json", PStr "disabled")].
Proof.
  destruct (kill_exact unhelpful "acme" two_tenants two_tenants_synced) as (s' & H1 & H2 & _); [vm_compute; discriminate|vm_compute; reflexivity|].
  exists s'. split; [exact H1|]. unfold modes. rewrite H2. vm_compute. reflexivity.
Defined.

Lemma killed_stays_out_witness :
  exists err, create_scout_pack no_auth EmptyString ["amount"] (acme_env green) scout_header "a1" (burst [burst_rule []])
      (disable_ai_shadow_packs unhelpful "acme" two_tenants).1
    = ((disable_ai_shadow_packs unhelpful "acme" two_tenants).1, Err err).
Proof.
  refine (killed_stays_out unhelpful "acme" two_tenants "a.json"
    [("name", PStr "rep-1"); ("mode", PStr "shadow"); ("is_ai_authored", PBool true); ("tenant_id", PStr "acme"); ("scout_report_id", PStr "rep-1")]
    ("scout_report_id", "rep-1") (disable_ai_shadow_packs unhelpful "acme" two_tenants).1 (disable_ai_shadow_packs unhelpful "acme" two_tenants).2
    _ no_auth EmptyString ["amount"] (acme_env green) scout_header "a1" (burst [burst_rule []]) two_tenants_synced _ _ _ _ _ _ _ _ _ _);
    try reflexivity; try (vm_compute; reflexivity).
  - vm_compute. discriminate.
  - left.
Defined.
