(* ===== verification/RuleGovernance.v ===== *)
(** What holds of the rules directory under any sequence of requests to the
    writing endpoints of [decision_api/rule_api.py] ([RuleApi], [AutoPromote],
    the scout endpoint and the tick of [BrainWire] with the writes of
    [RuleSlip]): every pack that goes live is accounted for in the change log,
    and packs written from checked bodies cannot make an evaluation raise.

    The recommendation endpoint, which appends a rule to a pack file without a
    check or a log row, is not part of that router and not covered. *)

From Stdlib Require Import ZArith Lia Ascii String Bool SpecFloat.
From stdpp Require Import base option list sorting strings gmap.
From S2P Require Import Prelude PyFloat PyValue PyDateTime Uuid Replay SignalResolver RuleMatch GraphContract AstRules JsonRules.
From S2P Require Import PackEvaluator Promotion AutoPromote PackRules L2Draft RuleApi LabelStore RuleSlip BrainWire.
Import GraphContract.Contract JsonRules.Rollout JsonRules.Store.
Local Open Scope Z_scope.

(** * Requests *)

(** The requests that touch the rules only ... *)
Inductive rule_request : Type :=
| Create (allowed : list string) (fresh : nat -> string) (hex12 : string) (body : RulePackIn)
| Update (allowed : list string) (fresh : nat -> string) (filename : string) (body : RulePackIn)
| Delete (filename : string)
| AddRule (allowed : list string) (hex8 filename : string) (body : RuleIn)
| RemoveRule (filename rule_id : string)
| SetMode (filename mode : string)
| ForceLive (filename reason : string)
| ProposeDemote (now filename reason : string)
| ConfirmDemote (now filename reason : string)
| CreateDraft (now : string) (rows : list AuditRecord) (tenant : option string) (allowed : list string) (fresh : nat -> string)
    (hex12 : string) (body : L2DraftIn)
| AbandonDraft (now draft_name : string)
| InstallVertical (catalogue : string -> option dict) (require_backtest : bool) (runs : list backtest_run) (promote : bool)
    (name : string) (body : PromoteVerticalPackBody) (overwrite : bool) (hex12 : string)
| PromoteShadow (i : gate_inputs) (files : gmap string file_read) (now tenant draft override actor : string) (roles : list string).

(** ... and all of them: the tick promotes, parks and kills, and so does the
    scout endpoint after it has written its pack. *)
Inductive request : Type :=
| Rules (q : rule_request)
| Tick (oe : observe_env) (tenant : string)
| ScoutPack (byo_suggest : string) (allowed : list string) (oe : observe_env) (hex12 : string) (body : ScoutPackIn).

Section Requests.
Context (erfc : float -> float) (e : rule_env).

Definition handle (q : rule_request) (h : headers) (w : world) : world :=
  match q with
  | Create allowed fresh hex12 body => (create_rule_pack e w h allowed fresh hex12 body).1
  | Update allowed fresh f body => (update_rule_pack e w h allowed fresh f body).1
  | Delete f => (delete_rule_pack e w h f).1
  | AddRule allowed hex8 f body => (add_rule e w h allowed hex8 f body).1
  | RemoveRule f rid => (remove_rule e w h f rid).1
  | SetMode f mode => (set_pack_mode e w h f mode).1
  | ForceLive f reason => (force_live_pack e w h f reason).1
  | ProposeDemote now f reason => (propose_demote_pack e now w h f reason).1
  | ConfirmDemote now f reason => (confirm_demote_pack e now w h f reason).1
  | CreateDraft now rows tenant allowed fresh hex12 body => (create_l2_draft e now rows w h tenant allowed fresh hex12 body).1
  | AbandonDraft now name => (abandon_l2_draft e now w h name).1
  | InstallVertical cat rb runs promote name body ow hex12 =>
      ((if promote then promote_vertical_pack else install_vertical_pack) e cat rb runs w h name body ow hex12).1
  | PromoteShadow i files now t d override actor roles =>
      (promote_shadow_pack erfc i files now w t d override actor roles).1
  end.

Definition serve (q : request) (h : headers) (s : observe_state) : observe_state :=
  match q with
  | Rules q => Observe (handle q h s.(os_world)) s.(os_killed)
  | Tick oe tenant => (auto_promote_tick oe tenant s).1
  | ScoutPack byo allowed oe hex12 body => (create_scout_pack e byo allowed oe h hex12 body s).1
  end.

Definition run (s : observe_state) (qs : list (request * headers)) : observe_state := foldl (fun s qh => serve qh.1 qh.2 s) s qs.

(** * Invariants *)

(** How the loader classifies a live pack. *)
Definition is_live (d : dict) : bool := supported d && negb (pack_mode_is "shadow" d) && negb (pack_mode_is "disabled" d).

Definition live (w : world) (f : string) : Prop := exists d, (f, Document (PDict d)) ∈ w.(w_dir) /\ is_live d = true.

Definition human_actions : list string := ["set_mode"; "rule_force_live"].
Definition gated_actions : list string :=
  ["promote_shadow_pack"; "promote_shadow_pack_calibration_override"; "auto_promote_shadow_pack"; "install_vertical"; "promote_vertical"].

(** The log row under which [f] went live. *)
Definition accounts (c : change) (f : string) : Prop :=
  c.(ch_file) = f
  /\ (c.(ch_action) ∈ gated_actions
      \/ (c.(ch_action) ∈ human_actions /\ nonempty c.(ch_actor) = true /\ model_fingerprint c.(ch_actor) = false)).

Definition typed_file (f : string * file_read) : Prop := exists d, f.2 = Document (PDict d) /\ pack_typed d = true.

Definition typed_store (s : store) : Prop :=
  forallb pack_typed s.(_cached_packs) = true
  /\ match s.(_plg_sandbox_runtime_pack) with Some p => pack_typed p = true | None => True end.

Definition typed (w : world) : Prop := Forall typed_file w.(w_dir) /\ typed_store w.(w_store).

(** A pack in a file whose name has no blanks around it. *)
Definition good_file (f : string * file_read) : Prop := document f /\ strip f.1 = f.1.

(** A request keeps the directory readable, only appends to the log and accounts
    there for every pack it makes live; if [v] holds it keeps the types. *)
Definition step_ok (v : Prop) (w w' : world) : Prop :=
  (Forall good_file w.(w_dir) ->
   Forall good_file w'.(w_dir)
   /\ exists new, w'.(w_log) = w.(w_log) ++ new /\ forall f, live w' f -> live w f \/ exists c, c ∈ new /\ accounts c f)
  /\ (v -> typed w -> typed w').

Lemma step_refl v w : step_ok v w w.
Proof. split; [|done]. intros H. split; [done|]. exists []. rewrite app_nil_r. auto. Qed.

Lemma step_trans v w1 w2 w3 : step_ok v w1 w2 -> step_ok v w2 w3 -> step_ok v w1 w3.
Proof.
  intros [H1 T1] [H2 T2]. split; [|auto]. intros Hd. destruct (H1 Hd) as (Hd2 & n1 & E1 & L1). destruct (H2 Hd2) as (Hd3 & n2 & E2 & L2).
  split; [done|]. exists (n1 ++ n2). rewrite E2, E1, app_assoc. split; [done|]. intros f Hf.
  destruct (L2 f Hf) as [H|(c & Hc & A)]; [|right; exists c; split; [apply elem_of_app; auto|done]].
  destruct (L1 f H) as [?|(c & Hc & A)]; [by left|]. right. exists c. split; [apply elem_of_app; auto|done].
Qed.

(** ** The directory *)

Lemma read_pack_elem f dir d : read_pack f dir = Ok d -> (f, Document (PDict d)) ∈ dir.
Proof.
  unfold read_pack, read_file. intros H. apply rbind_Ok in H as (v & Hv & Hd). destruct v; try done. apply Ok_inj in Hd. subst.
  destruct (List.filter _ dir) as [|[g x] l] eqn:E; [done|]. destruct x; try done. apply Ok_inj in Hv. subst v.
  assert (Hin : (g, Document (PDict d)) ∈ List.filter (fun f0 : string * file_read => bool_decide (f0.1 = f)) dir) by (rewrite E; left).
  apply filter_elem in Hin as [Hin Eg%bool_decide_eq_true]. cbn in Eg. by subst g.
Qed.

Lemma read_packs_elem files ps p : read_packs files = Ok ps -> p ∈ ps ->
  exists f d, (f, Document (PDict d)) ∈ files /\ p = dict_set "_file" (PStr f) d.
Proof.
  revert ps. induction files as [|[f x] files IH]; intros ps H Hp; [injection H as <-; by apply not_elem_of_nil in Hp|].
  cbn [read_packs] in H. destruct x as [v| |]; [destruct v as [| | | | | |d]; try done| |done].
  - apply rbind_Ok in H as (ps' & Hps & H). apply Ok_inj in H. subst ps. apply elem_of_cons in Hp as [-> |Hp].
    + exists f, d. split; [left|done].
    + destruct (IH ps' Hps Hp) as (g & d' & Hin & ->). exists g, d'. split; [by right|done].
  - destruct (IH ps H Hp) as (g & d' & Hin & ->). exists g, d'. split; [by right|done].
Qed.

(** ** Loading *)

Lemma load_files_active files : forall acc ld,
  load_files acc files = Ok ld -> Forall typed_file files -> forallb pack_typed acc.(ld_active) = true ->
  forallb pack_typed ld.(ld_active) = true.
Proof.
  induction files as [|[f x] files IH]; intros acc ld H Hf Ha; cbn [load_files] in H; [by apply Ok_inj in H as <-|].
  inversion Hf as [|? ? (d & Ed & Hd) Hf']; subst. cbn in Ed. subst x. unfold load_file in H. cbn [snd fst rbind] in H.
  apply (IH (load_pack acc f d) ld H Hf'). unfold load_pack. destruct (negb _); [done|].
  repeat (destruct (eq_str _ _); [done|]). cbn [ld_active]. rewrite forallb_app, Ha. cbn [forallb]. rewrite andb_true_r.
  unfold pack_typed in *. rewrite !get_set_ne by done. exact Hd.
Qed.

Lemma load_rules_typed s dir s' r : load_rules s (Some dir) = (s', r) -> Forall typed_file dir -> typed_store s -> typed_store s'.
Proof.
  unfold load_rules. intros H Hd [Hc Hp]. destruct (load_files _ _) as [ld|] eqn:El; injection H as <- <-; [|done].
  split; cbn [_plg_sandbox_runtime_pack _cached_packs bump_policy_set_generation]; [|done].
  assert (Ha : forallb pack_typed (ld_active ld) = true).
  { eapply load_files_active; [exact El| |done]. by rewrite merge_sort_Permutation. }
  unfold _attach_plg_sandbox_pack. assert (Hf : forallb pack_typed (List.filter (fun p => negb (is_sandbox p)) (ld_active ld)) = true).
  { apply forallb_forall. intros x Hx%filter_In. rewrite forallb_forall in Ha. apply Ha, Hx. }
  destruct (_plg_sandbox_runtime_pack s) as [p|]; [|done]. rewrite forallb_app, Hf. cbn [forallb andb]. rewrite andb_true_r.
  unfold dict_setdefault. destruct (has_key _ _); [done|]. unfold pack_typed in *. by rewrite !get_set_ne by done.
Qed.

Lemma document_typed dir : Forall typed_file dir -> Forall document dir.
Proof. intros H. eapply Forall_impl; [exact H|]. intros f (d & E & _). by exists d. Qed.

(** What a handler that writes one document owes. *)
Definition fine (v : Prop) (w : world) (f : string) (p : dict) (c : change) : Prop :=
  (Forall good_file w.(w_dir) -> is_live p = true -> live w f \/ accounts c f) /\ (v -> typed w -> pack_typed p = true).

(** The new directory differs from the old in one document. *)
Definition one_write (w : world) (f : string) (p : dict) (dir : list (string * file_read)) : Prop :=
  forall g x, (g, x) ∈ dir ->
    (g, x) ∈ w.(w_dir) \/ (g = f /\ x = Document (PDict p) /\ (strip f = f \/ exists y, (f, y) ∈ w.(w_dir))).

Lemma dir_step v w f p c dir s log :
  one_write w f p dir -> fine v w f p c ->
  (Forall good_file w.(w_dir) -> Forall good_file dir /\ forall g, live (World s dir log) g -> live w g \/ accounts c g)
  /\ (v -> typed w -> Forall typed_file dir).
Proof.
  intros Hin [Hl Ht]. split; [intros Hg; split|].
  - rewrite Forall_forall in Hg |- *. intros [g x] Hx. destruct (Hin _ _ Hx) as [Hx'|(-> & -> & Hs)]; [by apply Hg|].
    split; [by exists p|]. destruct Hs as [Hs|[y Hy]]; [done|exact (proj2 (Hg _ Hy))].
  - intros g (d & Hd & Hlive). cbn in Hd. destruct (Hin _ _ Hd) as [H|(-> & [= ->] & _)]; [left; by exists d|]. by apply Hl.
  - intros Hv Hty. pose proof (proj1 Hty) as Hf. rewrite Forall_forall in Hf |- *. intros [g x] Hx.
    destruct (Hin _ _ Hx) as [Hx'|(-> & -> & _)]; [by apply Hf|]. exists p. split; [done|]. by apply Ht.
Qed.

Lemma good_documents dir : Forall good_file dir -> Forall document dir.
Proof. intros H. eapply Forall_impl; [exact H|]. by intros f [? _]. Qed.

Lemma commit_step {A : Type} v w f p c dir (ans : A) :
  one_write w f p dir -> fine v w f p c -> step_ok v w (commit w dir c ans).1.
Proof.
  intros Hin Hf. unfold commit. destruct (load_rules (w_store w) (Some dir)) as [s r] eqn:El. split.
  - intros Hd. destruct (dir_step v w f p c dir s (w_log w ++ [c]) Hin Hf) as [Hg _]. destruct (Hg Hd) as [Hgood Hl].
    destruct (load_rules_shadow (w_store w) dir (good_documents _ Hgood)) as (s' & El' & _). rewrite El in El'. injection El' as -> ->.
    cbn [fst w_dir w_log]. split; [done|]. exists [c]. split; [done|]. intros g Hg'.
    destruct (Hl g Hg') as [?|Ac]; [by left|]. right. exists c. split; [left|done].
  - intros Hv Ht. destruct (dir_step v w f p c dir s (w_log w ++ [c]) Hin Hf) as [_ Hty].
    assert (Hs : typed_store s) by (eapply load_rules_typed; [exact El|by apply Hty|exact (proj2 Ht)]).
    destruct r; split; cbn [fst w_dir w_store]; auto.
Qed.

(** A write that is logged and not loaded, and a load. *)
Lemma write_step v w f p c dir :
  one_write w f p dir -> fine v w f p c -> step_ok v w (World w.(w_store) dir (w.(w_log) ++ [c])).
Proof.
  intros Hin Hf. destruct (dir_step v w f p c dir (w_store w) (w_log w ++ [c]) Hin Hf) as [Hg Hty]. split; cbn [w_dir w_log].
  - intros Hd. destruct (Hg Hd) as [Hgood Hl]. split; [done|]. exists [c]. split; [done|]. intros g Hlive.
    destruct (Hl g Hlive) as [?|Ac]; [by left|]. right. exists c. split; [left|done].
  - intros Hv Ht. split; [by apply Hty|exact (proj2 Ht)].
Qed.

Lemma reload_step v w st r : load_rules w.(w_store) (Some w.(w_dir)) = (st, r) -> step_ok v w (World st w.(w_dir) w.(w_log)).
Proof.
  intros El. split; cbn [w_dir w_log].
  - intros Hd. split; [done|]. exists []. rewrite app_nil_r. split; [done|]. intros f Hf. by left.
  - intros _ [Hf Hs]. split; [done|]. by eapply load_rules_typed.
Qed.

Lemma write_one w f p : one_write w f p (write_file f (PDict p) w.(w_dir)).
Proof.
  intros g x Hin. apply list_elem_of_In, in_map_iff in Hin as ([h y] & E & Hin%list_elem_of_In). cbn in E.
  case_bool_decide as Eh; injection E as <- <-; [subst h; right; eauto|by left].
Qed.

Lemma put_one w f p : strip f = f \/ (exists y, (f, y) ∈ w.(w_dir)) -> one_write w f p (put_file f (PDict p) w.(w_dir)).
Proof.
  intros Hs. unfold put_file. destruct (file_exists f (w_dir w)); [apply write_one|]. intros g x.
  intros [H|H%list_elem_of_singleton]%elem_of_app; [by left|]. injection H as -> ->. by right.
Qed.

Lemma unlink_one w f p : one_write w f p (unlink f w.(w_dir)).
Proof. intros g x Hx. left. unfold unlink in Hx. by apply filter_elem in Hx as [Hx _]. Qed.

Lemma guarded_step {A B : Type} v w (m : result A) (k : A -> world * result B) :
  (forall a, m = Ok a -> step_ok v w (k a).1) -> step_ok v w (guarded w m k).1.
Proof. unfold guarded. destruct m; [auto|]. intros _. apply step_refl. Qed.

(** ** What the packs written look like *)

Lemma pack_typed_set k v p :
  mem k ["rules"; "tag_rules"; "canary_percent"; "effective_at"] = false -> pack_typed (dict_set k v p) = pack_typed p.
Proof.
  intros H%mem_false. unfold pack_typed. rewrite !get_set_ne; [done|..]; intros <-; apply H; set_solver.
Qed.

Lemma is_live_set k v p : mem k ["version"; "mode"] = false -> is_live (dict_set k v p) = is_live p.
Proof.
  intros H%mem_false. unfold is_live, supported, pack_mode_is. rewrite !get_set_ne; [done|..]; intros <-; apply H; set_solver.
Qed.

Lemma shadow_not_live p : get p "mode" (PStr "active") = PStr "shadow" -> is_live p = false.
Proof. intros E. unfold is_live, pack_mode_is. rewrite E. cbn. by rewrite andb_false_r. Qed.

Lemma typed_pack w f d : typed w -> (f, Document (PDict d)) ∈ w.(w_dir) -> pack_typed d = true.
Proof. intros [Hf _] Hin. rewrite Forall_forall in Hf. destruct (Hf _ Hin) as (d' & [= ->] & H). done. Qed.

(** A pack read from the directory and written back under the same name with
    its mode and version kept. *)
Lemma fine_same v w f d p c :
  (f, Document (PDict d)) ∈ w.(w_dir) -> is_live p = is_live d -> (pack_typed d = true -> pack_typed p = true) -> fine v w f p c.
Proof.
  intros Hin Hl Ht. split; [|intros _ Hw; eapply Ht, typed_pack; done]. intros _ Hlive. left. exists d. by rewrite <- Hl.
Qed.

Lemma fine_shadow v w f p c : is_live p = false -> (v -> typed w -> pack_typed p = true) -> fine v w f p c.
Proof. intros Hl Ht. split; [|done]. by rewrite Hl. Qed.

Lemma fine_accounted v w f p c : accounts c f -> (v -> typed w -> pack_typed p = true) -> fine v w f p c.
Proof. intros Ha Ht. split; [|done]. by right. Qed.

Lemma without_rule_sub rid rules kept r : without_rule rid rules = Ok kept -> r ∈ kept -> r ∈ rules.
Proof.
  revert kept. induction rules as [|x rules IH]; intros kept H Hr; [by injection H as <-|]. cbn [without_rule] in H. inv_ok. subst kept.
  destruct (eq_str _ _); [right; eauto|]. apply elem_of_cons in Hr as [-> |Hr]; [left|right; eauto].
Qed.

Lemma build_draft_spec now receipt a p :
  build_l2_draft now receipt a = Ok p ->
  is_live p = false /\ get p "source_key" PNone = PStr (source_key a.(da_leftover) a.(da_hil))
  /\ get p "lifecycle" PNone = PDict (as_dict (get p "lifecycle" PNone))
  /\ get (as_dict (get p "lifecycle" PNone)) "state" PNone = PStr "observe"
  /\ (Forall (fun r => rule_typed (PDict r) = true) a.(da_rules) -> pack_typed p = true).
Proof.
  unfold build_l2_draft. destruct (_ && _); [done|]. destruct (_ || _); [done|]. destruct (authored_by_kind _ _ _) as [kind ai].
  repeat (destruct (_ && _); [done|]). intros H. apply rbind_Ok in H as ([|] & _ & H); [|done]. apply Ok_inj in H. subst p.
  rewrite !is_live_set by done. rewrite (get_set_ne "source_key") by done. rewrite (get_set_ne "source_key") by done.
  rewrite !get_set_eq. split; [reflexivity|]. split; [unfold source_key; by rewrite !strip_idem|]. split; [done|]. split; [done|].
  intros Hr. rewrite !pack_typed_set by done. unfold pack_typed, draft_body.
  match goal with |- forallb ?p ?l && _ && _ && _ = true => assert (H1 : forallb p l = true); [|by rewrite H1] end.
  change (forallb rule_typed (draft_rules a (str_or (_field receipt "entity_id") (_field receipt "user_id"))) = true).
  unfold draft_rules. destruct (da_rules a) as [|r rs]; [by destruct (soft_intent a)|].
  apply forallb_forall. intros x Hx%in_map_iff. destruct Hx as (y & <- & Hy%list_elem_of_In). rewrite Forall_forall in Hr. by apply Hr.
Qed.

Lemma activated_typed now d d' : activated now d = Ok d' -> pack_typed d = true -> pack_typed d' = true.
Proof.
  unfold activated. destruct (_ || _); intros H Ht; [|apply Ok_inj in H as <-; by rewrite pack_typed_set].
  unfold mark_promoted in H. destruct (por _ _); try done. apply Ok_inj in H. subst d'. by rewrite !pack_typed_set.
Qed.

(** ** Fingerprints survive the cut of the actor's name *)

Lemma str_take_split n s : exists t, s = str_take n s +:+ t.
Proof.
  unfold str_take. revert n. induction s as [|c s IH]; intros [|n]; [by exists EmptyString|by exists EmptyString|by exists (String c s)|].
  destruct (IH n) as [t E]. exists t. cbn [substring]. by rewrite sapp_cons, <- E.
Qed.

Lemma lower_sapp s t : lower (s +:+ t) = lower s +:+ lower t.
Proof. induction s as [|c s IH]; [done|]. unfold lower in *. rewrite sapp_cons. cbn [smap]. by rewrite IH, sapp_cons. Qed.

Lemma prefix_more p s t : String.prefix p s = true -> String.prefix p (s +:+ t) = true.
Proof. intros [u ->]%prefix_inv. rewrite sapp_assoc. apply prefix_app. Qed.

Lemma contains_more sub s t : contains sub s = true -> contains sub (s +:+ t) = true.
Proof.
  induction s as [|c s IH].
  - cbn [contains]. intros H. destruct sub; [|discriminate]. by destruct t.
  - rewrite sapp_cons. cbn [contains]. rewrite !orb_true_iff. intros [H|H]; [left|right; auto]. rewrite <- sapp_cons. by apply prefix_more.
Qed.

Lemma fingerprint_cut n s : model_fingerprint s = false -> model_fingerprint (str_take n s) = false.
Proof.
  destruct (str_take_split n s) as [t E]. intros H. destruct (model_fingerprint (str_take n s)) eqn:F; [|done].
  rewrite <- H, E. unfold model_fingerprint in *. rewrite lower_sapp. symmetry. apply orb_true_iff in F as [F|F]; apply orb_true_iff.
  - left. unfold startswith in *. by apply prefix_more.
  - right. by apply contains_more.
Qed.

Lemma force_live_human_spec h a : _require_force_live_human h = Ok a -> nonempty a = true /\ model_fingerprint a = false.
Proof.
  unfold _require_force_live_human. destruct (_ || _) eqn:E; [done|]. intros H. apply Ok_inj in H. subst a.
  apply orb_false_iff in E as [En%negb_false_iff Em]. split; [|by apply fingerprint_cut].
  by destruct (strip (opt_str (x_actor h))).
Qed.

(** ** Every handler *)

(** Under what a request may write packs that evaluate: a body with an
    activation time that can be compared, a well-typed catalogue. *)
Definition valid (q : rule_request) : Prop :=
  match q with
  | Create _ _ _ body | Update _ _ _ body => is_ok (_parse_effective_at (opt_val PStr body.(pi_effective_at))) = true
  | InstallVertical cat _ _ _ _ _ _ _ => forall n p, cat n = Some p -> pack_typed p = true
  | _ => True
  end.

Lemma strip_ends c s d : is_space c = false -> is_space d = false -> strip (String c s +:+ String d EmptyString) = String c s +:+ String d EmptyString.
Proof.
  intros Hc Hd. unfold strip. rewrite sapp_cons. cbn [lstrip]. rewrite Hc. unfold rstrip. rewrite <- sapp_cons, rev_snoc.
  cbn [lstrip]. rewrite Hd, <- rev_snoc. apply rev_involutive.
Qed.

Lemma strip_json c pre x : is_space c = false -> strip (String c pre +:+ x +:+ ".json") = String c pre +:+ x +:+ ".json".
Proof.
  intros Hc. change ".json" with (".jso" +:+ "n"). rewrite <- !sapp_assoc, !sapp_cons. rewrite <- sapp_cons. by apply strip_ends.
Qed.

Lemma checked_pack_id allowed p p' : checked_pack allowed p = Ok p' -> p' = p.
Proof. unfold checked_pack. intros H. inv_ok. destruct (negb _); [done|]. inv_ok. destruct (negb _); [done|]. by inv_ok. Qed.

Lemma create_step h w allowed fresh hex12 body : let q := Create allowed fresh hex12 body in step_ok (valid q) w (handle q h w).
Proof.
  intros q. apply guarded_step. intros p H. inv_ok. destruct a1; [done|]. apply checked_pack_id in H. subst p.
  eapply commit_step; [apply put_one; left; by apply strip_json|]. apply fine_shadow; [by apply shadow_not_live|].
  intros Hv _. by rewrite authored_pack_typed.
Qed.

Lemma update_step h w allowed fresh f body : let q := Update allowed fresh f body in step_ok (valid q) w (handle q h w).
Proof.
  intros q. apply guarded_step. intros p H. inv_ok. apply checked_pack_id in H. subst p.
  eapply commit_step; [apply write_one|]. apply fine_shadow; [by apply shadow_not_live|]. intros Hv _. by rewrite authored_pack_typed.
Qed.

Lemma delete_step v h w f : step_ok v w (handle (Delete f) h w).
Proof.
  apply guarded_step. intros a _. apply (commit_step v w f (authored_pack (fun _ => EmptyString) (MkPackIn EmptyString [] [] None None None))).
  - apply unlink_one.
  - apply fine_shadow; [by apply shadow_not_live|done].
Qed.

Lemma add_rule_step v h w allowed hex8 f body : step_ok v w (handle (AddRule allowed hex8 f body) h w).
Proof.
  apply guarded_step. intros p H. inv_ok. destruct (negb (no_items a2)); [done|]. apply rbind_Ok in H as (pack & Hp & H).
  assert (Hr : read_pack f w.(w_dir) = Ok pack) by (unfold read_pack; by rewrite H2). apply read_pack_elem in Hr.
  destruct (get pack "rules" (PList [])) as [| | | | |rules|] eqn:Er; try done. apply Ok_inj in H. subst p.
  eapply commit_step; [apply write_one|]. apply fine_shadow; [apply shadow_not_live, get_set_eq|]. intros _ Hw.
  pose proof (typed_pack w f pack Hw Hr) as Ht. rewrite pack_typed_set by done. unfold pack_typed in Ht |- *.
  rewrite get_set_eq, !(get_set_ne _ "rules") by done. apply andb_prop in Ht as [[[Ht1 ->]%andb_prop ->]%andb_prop ->].
  rewrite !andb_true_r. cbn [as_list]. rewrite forallb_app. cbn [forallb]. rewrite rule_dict_typed, !andb_true_r.
  unfold get in Er, Ht1. destruct (dict_lookup "rules" pack) as [x|]; cbn in Er, Ht1; [by subst x|by injection Er as <-].
Qed.

Lemma remove_rule_step v h w f rid : step_ok v w (handle (RemoveRule f rid) h w).
Proof.
  apply guarded_step. intros p H. inv_ok. destruct (_ =? _); [done|]. apply Ok_inj in H. subst p. apply read_pack_elem in H2.
  eapply commit_step; [apply write_one|]. eapply fine_same; [exact H2|by apply is_live_set|]. intros Ht. unfold pack_typed in Ht |- *.
  rewrite get_set_eq, !(get_set_ne _ "rules") by done. apply andb_prop in Ht as [[[Ht1 ->]%andb_prop ->]%andb_prop ->].
  rewrite !andb_true_r. cbn [as_list]. apply forallb_forall. intros r Hr%list_elem_of_In. eapply without_rule_sub in Hr; [|exact H5].
  rewrite forallb_forall in Ht1. apply list_elem_of_In in Hr. unfold get in H4, Ht1.
  destruct (dict_lookup "rules" a1) as [x|]; cbn in H4, Ht1; [|by injection H4 as <-].
  destruct x; try done; cbn in H4; injection H4 as <-; [|by apply Ht1|].
  - clear -Hr. induction s as [|c s IH]; [done|]. destruct Hr as [<-|Hr]; [done|auto].
  - apply in_map_iff in Hr as (k & <- & _). done.
Qed.

Lemma set_mode_step v h w f mode : step_ok v w (handle (SetMode f mode) h w).
Proof.
  apply guarded_step. intros [p actor] H. inv_ok. destruct (negb (mem mode _)) eqn:Em; [done|]. apply rbind_Ok in H as (d & Hd & H).
  apply read_pack_elem in Hd. destruct (_ && _); [by apply rbind_Ok in H as (? & _ & H)|].
  apply rbind_Ok in H as (a' & Ha & H). apply Ok_inj in H. injection H as <- <-.
  eapply commit_step; [apply write_one|]. assert (Ht : v -> typed w -> pack_typed (dict_set "mode" (PStr mode) d) = true).
  { intros _ Hw. rewrite pack_typed_set by done. eapply typed_pack; done. }
  case_bool_decide as E; [|apply fine_shadow; [|done]].
  - apply fine_accounted; [|done]. split; [done|]. right. split; [left|]. by eapply force_live_human_spec.
  - apply negb_false_iff, mem_spec in Em. unfold is_live, pack_mode_is. rewrite get_set_eq.
    apply elem_of_cons in Em as [-> |Em]; [done|]. apply elem_of_cons in Em as [-> |Em]; [by rewrite andb_false_r|].
    apply list_elem_of_singleton in Em as ->. by rewrite andb_false_r.
Qed.

Lemma force_live_step v h w f reason : step_ok v w (handle (ForceLive f reason) h w).
Proof.
  apply guarded_step. intros [[p actor] approver] H. inv_ok. injection H as <- <- <-.
  match goal with Hr : read_pack _ _ = Ok _ |- _ => apply read_pack_elem in Hr; rename Hr into Hin end.
  eapply commit_step; [apply write_one|]. apply fine_accounted.
  - split; [done|]. right. split; [right; left|]. by eapply force_live_human_spec.
  - intros _ Hw. rewrite pack_typed_set by done. eapply typed_pack; done.
Qed.

(** A proposal adds a row to the lifecycle, a confirmation also sets the mode. *)
Lemma propose_shape now d actor reason p : propose_demote now d actor reason = Ok p -> exists life, p = dict_set "lifecycle" life d.
Proof.
  unfold propose_demote. destruct (negb _); [done|]. intros H. apply rbind_Ok in H as ([who why] & _ & H).
  destruct (bool_decide _); [done|]. destruct (bool_decide _); [done|]. apply Ok_inj in H as <-. eauto.
Qed.

Lemma confirm_shape now d actor reason p :
  confirm_demote now d actor reason = Ok p -> exists life, p = dict_set "mode" (PStr "shadow") (dict_set "lifecycle" life d).
Proof.
  unfold confirm_demote. destruct (negb _); [done|]. intros H. apply rbind_Ok in H as ([who why] & _ & H).
  destruct (negb _); [done|]. apply Ok_inj in H as <-. eauto.
Qed.

Lemma propose_step v h w now f reason : step_ok v w (handle (ProposeDemote now f reason) h w).
Proof.
  apply guarded_step. intros [p actor] H. inv_ok. injection H as <- <-. apply read_pack_elem in H3. apply propose_shape in H4 as [life ->].
  eapply write_step; [apply write_one|]. eapply fine_same; [exact H3|by apply is_live_set|]. by rewrite pack_typed_set.
Qed.

Lemma confirm_step v h w now f reason : step_ok v w (handle (ConfirmDemote now f reason) h w).
Proof.
  apply guarded_step. intros [p actor] H. inv_ok. injection H as <- <-. apply read_pack_elem in H3. apply confirm_shape in H4 as [life ->].
  eapply commit_step; [apply write_one|]. apply fine_shadow; [apply shadow_not_live, get_set_eq|]. intros _ Hw.
  rewrite !pack_typed_set by done. eapply typed_pack; done.
Qed.

Lemma new_draft_spec now rows w h t allowed fresh body p :
  new_draft e now rows w h t allowed fresh body = Ok p ->
  exists rec packs ok,
    find_receipt rows body.(di_trace_id) = Ok rec /\ _read_all_packs w.(w_dir) = Ok packs
    /\ find_open_draft packs body.(di_leftover_id) body.(di_hil_event_id) = Ok None
    /\ let ai := (authored_by_kind body.(di_authored_by) body.(di_is_ai_authored) (llm_url e)).2 in
       backtest_verdict rows rec fresh ai body = Ok ok
       /\ build_l2_draft now (receipt_of rec) (draft_args_of (_actor_from_headers e h) (llm_url e) rec fresh ai ok body) = Ok p.
Proof.
  unfold new_draft. intros H. apply rbind_Ok in H as (? & _ & H). apply rbind_Ok in H as (rec & Hr & H). destruct (_ && _); [done|].
  apply rbind_Ok in H as (packs & Hp & H). apply rbind_Ok in H as (hit & Hh & H). case_bool_decide as En; [|done]. subst hit. cbn [negb] in H.
  apply rbind_Ok in H as (ok & Hok & H). apply rbind_Ok in H as (pack & Hb & H). apply rbind_Ok in H as (ferr & _ & H).
  destruct (negb _); [done|]. apply Ok_inj in H. subst pack. eauto 10.
Qed.

Lemma draft_step v h w now rows t allowed fresh hex12 body : step_ok v w (handle (CreateDraft now rows t allowed fresh hex12 body) h w).
Proof.
  apply guarded_step. intros p (rec & packs & ok & _ & _ & _ & _ & Hb)%new_draft_spec. apply build_draft_spec in Hb as (Hl & _ & _ & _ & Ht).
  eapply commit_step; [apply put_one; left; by apply strip_json|]. apply fine_shadow; [done|]. intros _ _. apply Ht.
  cbn [da_rules draft_args_of]. apply Forall_forall. intros r Hr. apply imap_elem in Hr as (i & x & _ & ->). apply rule_dict_typed.
Qed.

Lemma get_dict_remove k k' d dflt : k <> k' -> get (dict_remove k' d) k dflt = get d k dflt.
Proof.
  intros N. unfold get. f_equal. induction d as [|[j x] d IH]; [done|]. unfold dict_remove in *. cbn [List.filter fst].
  case_bool_decide as E; cbn [negb dict_lookup]; [subst j; by rewrite bool_decide_eq_false_2|]. by rewrite IH.
Qed.

Lemma abandon_step v h w now name : step_ok v w (handle (AbandonDraft now name) h w).
Proof.
  apply guarded_step. intros [fname p] H. inv_ok. destruct (first_named _ _) as [hit|] eqn:Eh; [|done]. inv_ok.
  cbv zeta in H. destruct (negb _); [done|]. inv_ok. injection H as <- <-.
  assert (Hin : hit ∈ a0). { unfold first_named in Eh. apply head_Some_elem_of in Eh. by apply filter_elem in Eh as [Eh _]. }
  destruct (read_packs_elem _ _ _ H1 Hin) as (f & d & Hf & ->). rewrite merge_sort_Permutation in Hf.
  unfold abandon_draft in H2. cbv zeta in H2. inv_ok. destruct (mem _ _); [done|]. destruct (negb _); [done|]. inv_ok. subst a1.
  rewrite (get_set_ne "_file" "lifecycle"), get_set_eq by done.
  set (p := dict_remove "_file" _).
  assert (Hg : forall k dflt, k <> "_file" -> k <> "lifecycle" -> get p k dflt = get d k dflt).
  { intros k dflt N1 N2. unfold p. by rewrite get_dict_remove, !get_set_ne. }
  assert (Hl : is_live p = is_live d) by (unfold is_live, supported, pack_mode_is; by rewrite !Hg).
  assert (Ht : pack_typed p = pack_typed d) by (unfold pack_typed; by rewrite !Hg).
  unfold str_or_empty, por. cbn [truthy].
  eapply commit_step; [apply put_one; left; apply strip_idem|]. split; [|intros _ Hw; rewrite Ht; eapply typed_pack; done].
  intros Hgood Hlive. left. rewrite Forall_forall in Hgood. pose proof (proj2 (Hgood _ Hf)) as Hs. cbn in Hs.
  assert (Ef : strip (py_str (if nonempty f then PStr f else PStr "")) = f).
  { destruct (nonempty f) eqn:En; [exact Hs|]. by destruct f. }
  rewrite Ef. exists d. rewrite <- Hl. done.
Qed.

Lemma find_vertical_elem vid files f : find_vertical vid files = Ok (Some f) -> exists x, (f, x) ∈ files.
Proof.
  induction files as [|[g x] files IH]; [done|]. cbn [find_vertical]. intros H. destruct x as [v| |]; [|destruct (IH H) as [y ?]; exists y; by right|done].
  inv_ok. destruct (bool_decide _); [injection H as <-; eexists; left|]. destruct (IH H) as [y ?]. exists y. by right.
Qed.

Lemma known_vertical_spec cat name p : known_vertical cat name = Ok p -> exists n, cat n = Some p.
Proof. unfold known_vertical, get_vertical_pack. destruct (cat _) as [[|kv d]|] eqn:E; try done. intros H. apply Ok_inj in H as <-. eauto. Qed.

Lemma vertical_step cat rb runs action extra h w name body ow hex12 :
  action ∈ gated_actions ->
  step_ok (forall n p, cat n = Some p -> pack_typed p = true) w (vertical_handler e cat rb runs action extra w h name body ow hex12).1.
Proof.
  intros Ha. apply guarded_step. intros [f p] H. inv_ok. destruct (negb _); [done|]. destruct (negb _); [done|].
  unfold _install_vertical_pack_core in H. apply rbind_Ok in H as (pack & Hk & H). inv_ok. destruct (_ && _); [done|]. inv_ok.
  destruct (negb _); [done|]. inv_ok. injection H as <- <-. apply known_vertical_spec in Hk as [n Hn].
  eapply commit_step; [apply put_one|].
  - match goal with Hf : find_vertical _ _ = Ok ?o |- _ => destruct o as [f|]; cbn [default]; [right; by eapply find_vertical_elem|left; by apply strip_json] end.
  - apply fine_accounted; [by split; [|left]|]. intros Hv _. rewrite pack_typed_set by done. by eapply Hv.
Qed.

Lemma activate_step_ok v now w draft actor reason detail :
  reason ∈ gated_actions -> step_ok v w (activate_shadow_pack now w draft actor reason detail).1.
Proof.
  intros Ha. unfold activate_shadow_pack. destruct (first_named _ _) as [m|]; [|apply step_refl]. set (fname := strip _).
  destruct (negb _); [apply step_refl|]. destruct (let! v := _ in _) as [p|] eqn:Ep; [|apply step_refl].
  change (step_ok v w (commit w (write_file fname (PDict p) w.(w_dir)) (Change reason fname actor (activation_record (strip draft) detail)) fname).1).
  inv_ok. assert (Hr : read_pack fname w.(w_dir) = Ok a0) by (unfold read_pack; by rewrite H). apply read_pack_elem in Hr.
  eapply commit_step; [apply write_one|]. apply fine_accounted; [by split; [|left]|]. intros _ Hw. eapply activated_typed; [done|]. eapply typed_pack; done.
Qed.

Lemma promote_step_ok v h w i files now t d override actor roles : step_ok v w (handle (PromoteShadow i files now t d override actor roles) h w).
Proof.
  cbn [handle]. unfold promote_shadow_pack. destruct (first_named _ _); [|apply step_refl].
  destruct (compute_desk_and_leftover_gates _ _ _ _ _) as [g|]; [|apply step_refl]. destruct (_ && _); [apply step_refl|].
  destruct (if nonempty _ then _ else _) as [desk applied]. destruct (_ || _); [apply step_refl|].
  match goal with |- context [activate_shadow_pack ?n ?w ?a ?b ?r ?dt] => pose proof (activate_step_ok v n w a b r dt) as Hs; destruct (activate_shadow_pack n w a b r dt) as [w' [x|x]] end;
    apply Hs; destruct applied; set_solver.
Qed.

Lemma promote_each_step v now detail names : forall w promoted, step_ok v w (promote_each now detail w names promoted).1.
Proof.
  induction names as [|name names IH]; intros w promoted; [apply step_refl|]. cbn [promote_each].
  pose proof (activate_step_ok v now w name "auto_promote" "auto_promote_shadow_pack" detail ltac:(set_solver)) as Hs.
  destruct (activate_shadow_pack _ _ _ _ _ _) as [w' [x|x]]; cbn [fst] in Hs; [eapply step_trans; [exact Hs|apply IH]|].
  destruct (bool_decide _); [eapply step_trans; [exact Hs|apply IH]|exact Hs].
Qed.

Lemma auto_promote_step v erfc' w env file i files now t : step_ok v w (maybe_auto_promote_shadow erfc' env file i files now w t).1.
Proof.
  unfold maybe_auto_promote_shadow. destruct (let! p := _ in _) as [[]|]; [|apply step_refl..].
  destruct (compute_desk_and_leftover_gates _ _ _ _ _) as [g|]; [|apply step_refl]. destruct (_ || _); [apply step_refl|].
  match goal with |- context [promote_each ?n ?d ?w ?ns ?l] => pose proof (promote_each_step v n d ns w l) as Hs; destruct (promote_each n d w ns l) end. exact Hs.
Qed.

Lemma handle_step q h w : step_ok (valid q) w (handle q h w).
Proof.
  destruct q; [apply create_step|apply update_step|apply delete_step|apply add_rule_step|apply remove_rule_step|apply set_mode_step
    |apply force_live_step|apply propose_step|apply confirm_step|apply draft_step|apply abandon_step| |apply promote_step_ok].
  cbn [handle]. destruct promote; apply vertical_step; set_solver.
Qed.

(** ** The critic *)

Lemma find_live_typed want packs when :
  find_live_rule want packs = Ok (Some when) -> forallb pack_typed packs = true -> forallb cond_typed when = true.
Proof.
  induction packs as [|p packs IH]; [done|]. cbn [find_live_rule forallb]. intros H [Hp Hps]%andb_prop. destruct (negb _); [auto|].
  apply rbind_Ok in H as (rules & Hr & H). destruct (filter_map _ rules) as [|d ds] eqn:Ed; [auto|]. injection H as <-.
  assert (Hd : d ∈ filter_map (named_rule (strip want)) rules) by (rewrite Ed; left). apply filter_map_elem in Hd as (x & Hx & Ex).
  destruct x as [| | | | | |d']; try done. cbn [named_rule] in Ex. case_bool_decide; [|done]. injection Ex as ->.
  unfold pack_typed in Hp. apply andb_prop in Hp as [[[Hp _]%andb_prop _]%andb_prop _]. rewrite forallb_forall in Hp.
  unfold iter_or_empty in Hr. destruct (truthy _) eqn:Et; [|injection Hr as <-; by apply not_elem_of_nil in Hx].
  destruct (get p "rules" PNone) as [| | | |s|l|l]; try done; injection Hr as <-.
  - exfalso. clear -Hx. induction s as [|c s IH]; cbn [chars] in Hx; [by apply not_elem_of_nil in Hx|]. by apply elem_of_cons in Hx as [?|?]; auto.
  - apply list_elem_of_In in Hx. specialize (Hp _ Hx). cbn [rule_typed] in Hp. by apply andb_prop in Hp as [Hp _].
  - exfalso. by apply list_elem_of_fmap in Hx as (k & ? & _).
Qed.

Lemma retire_typed rid when fp triggers : forallb cond_typed when = true -> pack_typed (build_retire_pack rid when fp triggers) = true.
Proof.
  intros Hw. change (forallb rule_typed [PDict [("id", PStr rid); ("when", PList when); ("score_delta", PInt 5)]] && true && true && true = true).
  cbn [forallb rule_typed]. change (forallb cond_typed when && true && true && true && true && true = true). by rewrite Hw.
Qed.

(** The packs the critic writes are shadow packs, and as well typed as the live packs. *)
Lemma slip_pack_spec active current ls row p : pack_for active current ls row = Ok (inl p) ->
  is_live p = false /\ strip (slip_file p) = slip_file p /\ (forallb pack_typed active = true -> pack_typed p = true).
Proof.
  intros H. assert (Hstrip : strip (slip_file p) = slip_file p).
  { unfold slip_file. rewrite <- !(sapp_assoc _ _ ".json"). rewrite sapp_assoc. by apply strip_json. }
  revert H. unfold pack_for. destruct (bool_decide _).
  - intros H. apply rbind_Ok in H as (found & Hf & H). apply Ok_inj in H. destruct found as [[|c when]|]; try done. injection H as <-.
    split; [by apply shadow_not_live|]. split; [done|]. intros Ha. pose proof (find_live_typed _ _ _ Hf Ha) as Hw.
    by apply retire_typed.
  - destruct (bool_decide _); [|done]. intros H. apply Ok_inj in H. destruct (successor_mix _ _ _) as [[field value]|]; [|done].
    unfold build_successor_pack in H. destruct (_ || _); [done|]. injection H as <-. split; [by apply shadow_not_live|done].
Qed.

Lemma park_rules_step v active current ls rows : (v -> forallb pack_typed active = true) ->
  forall w out, step_ok v w (park_rules active current ls w rows out).1.
Proof.
  intros Ha. induction rows as [|row rows IH]; intros w out; [apply step_refl|]. cbn [park_rules].
  destruct (existing_slip_slot _ _); [apply IH|]. destruct (pack_for active current ls row) as [[p|why]|err] eqn:Ep; [|apply IH|apply step_refl].
  apply slip_pack_spec in Ep as (Hl & Hs & Ht). unfold write_slip_pack. cbv zeta. set (c := Change _ _ _ _).
  set (dir := if file_exists (slip_file p) (w_dir w) then _ else _).
  assert (Hp : step_ok v w (commit w dir c tt).1).
  { apply (commit_step v w (slip_file p) p); [|apply fine_shadow; auto].
    unfold dir. destruct (file_exists _ _); [intros g x Hx; by left|]. apply put_one. by left. }
  destruct (commit w dir c tt) as [w' [u|err]]; cbn [fst] in Hp; [|exact Hp]. eapply step_trans; [exact Hp|apply IH].
Qed.

Lemma park_step v caps provisions label_files rows w t : step_ok v w (maybe_park_live_rule_slip caps provisions label_files rows w t).1.
Proof.
  unfold maybe_park_live_rule_slip. destruct (negb _); [apply step_refl|]. apply guarded_step. intros [ls cap] _.
  match goal with |- context [park_rules ?a ?c ?l w ?r ?o] =>
    destruct (park_rules_step (v /\ typed w) a c l r ltac:(intros [_ Hw]; apply Hw) w o) as [H1 H2] end.
  split; [exact H1|]. intros Hv Hw. by apply H2.
Qed.

(** ** The kill *)

Lemma kill_packs_step v h packs : forall w out, step_ok v w (kill_packs h packs w out).1.
Proof.
  induction packs as [|pack packs IH]; intros w out; [apply step_refl|]. cbn [kill_packs]. cbv zeta.
  destruct (_ || _); [apply IH|]. set (fname := strip _).
  destruct (head _) as [[g [x| |]]|] eqn:Eh; [|apply IH|apply step_refl|apply IH]. destruct x as [| | | | | |d]; try apply IH.
  destruct (negb (killable d)); [apply IH|]. apply head_Some_elem_of, filter_elem in Eh as [Hin E%bool_decide_eq_true]. cbn in E. subst g.
  eapply step_trans; [|apply IH]. eapply write_step; [apply write_one|]. apply fine_shadow.
  - unfold is_live, pack_mode_is. rewrite get_set_eq. cbn. by rewrite !andb_false_r.
  - intros _ Hw. rewrite pack_typed_set by done. eapply typed_pack; done.
Qed.

Lemma kill_step v oe tid s : step_ok v s.(os_world) (maybe_kill_leftover_fp_shadows oe tid s).1.(os_world).
Proof.
  unfold maybe_kill_leftover_fp_shadows. destruct (observe_gates _ _) as [g|]; [|apply step_refl].
  unfold disable_ai_shadow_packs. destruct (negb _); [apply step_refl|].
  match goal with |- context [kill_packs ?h ?ps ?x ?o] => pose proof (kill_packs_step v h ps x o) as Hk; destruct (kill_packs h ps x o) as [w [out|err]] end;
    [|exact Hk]. cbn [fst] in Hk. match goal with |- context [match ?m with Ok files => _ | Err e => _ end] => destruct m as [files|err] end; [|exact Hk].
  destruct (load_rules (w_store w) (Some (w_dir w))) as [st r] eqn:El. eapply step_trans; [exact Hk|]. by eapply reload_step.
Qed.

(** ** The tick and the scout endpoint *)

Definition world_step (v : Prop) (s s' : observe_state) : Prop := step_ok v s.(os_world) s'.(os_world).

Lemma seq_step {A B : Type} v (m : observe_state -> observe_state * result A) (k : A -> observe_state -> observe_state * result B) s :
  (forall s, world_step v s (m s).1) -> (forall a s, world_step v s (k a s).1) -> world_step v s (seq_s m k s).1.
Proof.
  intros Hm Hk. unfold seq_s. specialize (Hm s). destruct (m s) as [s' [a|err]]; cbn [fst] in Hm; [|exact Hm].
  eapply step_trans; [exact Hm|apply Hk].
Qed.

Lemma tick_promote_step v oe tid s : world_step v s (tick_promote oe tid s).1.
Proof.
  unfold tick_promote. match goal with |- context [maybe_auto_promote_shadow ?a ?b ?c ?d ?f ?g ?w ?t] =>
    pose proof (auto_promote_step v a w b c d f g t) as H; destruct (maybe_auto_promote_shadow a b c d f g w t) end. exact H.
Qed.

Lemma tick_park_step v oe tid s : world_step v s (tick_park oe tid s).1.
Proof.
  unfold tick_park. match goal with |- context [maybe_park_live_rule_slip ?a ?b ?c ?d ?w ?t] =>
    pose proof (park_step v a b c d w t) as H; destruct (maybe_park_live_rule_slip a b c d w t) end. exact H.
Qed.

Lemma tick_step v oe tid s : world_step v s (auto_promote_tick oe tid s).1.
Proof.
  apply seq_step; [apply tick_promote_step|]. intros out s'. apply seq_step; [apply tick_park_step|]. intros parked s''. apply kill_step.
Qed.

(** The rules and tag rules of a scout pack are well typed; the endpoint does not
    check this. *)
Definition scout_typed (body : ScoutPackIn) : Prop :=
  Forall (fun r => rule_typed (PDict r) = true) body.(si_rules) /\ Forall (fun r => tag_rule_typed (PDict r) = true) body.(si_tag_rules).

Lemma scout_pack_spec byo allowed oe h body s p : new_scout_pack e byo allowed oe h body s = Ok p ->
  is_live p = false /\ (scout_typed body -> pack_typed p = true).
Proof.
  unfold new_scout_pack. intros H. apply rbind_Ok in H as (u & _ & H).
  do 4 (match type of H with (if ?b then _ else _) = _ => destruct b; [done|] end). cbv zeta in H.
  apply rbind_Ok in H as (killed & _ & H). destruct killed; [done|]. apply rbind_Ok in H as (ai & _ & H). destruct (negb _); [done|].
  apply rbind_Ok in H as (errs & _ & H). destruct (negb _); [done|]. apply rbind_Ok in H as ([vd help] & _ & H).
  destruct (negb _); [done|]. destruct (_ && _); [done|]. apply Ok_inj in H.
  set (rules := kept_rules (keep_rule_ids vd) (si_rules body)) in *. set (q := dict_set "rules" (PList (map PDict rules)) (scout_pack body)) in *.
  assert (Hq : is_live p = is_live q /\ pack_typed p = pack_typed q).
  { subst p. destruct (stamp_underpowered vd); [|done]. unfold stamp. by rewrite is_live_set, pack_typed_set. }
  destruct Hq as [-> ->]. split; [by apply shadow_not_live|]. intros [Hr Ht]. rewrite Forall_forall in Hr. rewrite Forall_forall in Ht.
  unfold pack_typed, q. rewrite get_set_eq, !get_set_ne by done. cbn [as_list scout_pack]. rewrite !andb_true_iff. split_and!; try done.
  - apply forallb_forall. intros x Hx%in_map_iff. destruct Hx as (d & <- & Hd%list_elem_of_In). apply Hr. by apply kept_rules_sub in Hd as [Hd _].
  - apply forallb_forall. intros x Hx. cbn in Hx. apply in_map_iff in Hx as (d & <- & Hd%list_elem_of_In). by apply Ht.
Qed.

Lemma after_scout_step v oe tid s : world_step v s (after_scout oe tid s).
Proof.
  apply seq_step; [apply tick_promote_step|]. intros out s'. apply seq_step; [apply tick_park_step|]. intros parked s''. apply kill_step.
Qed.

Lemma scout_step byo allowed oe hex12 body h s :
  world_step (scout_typed body) s (create_scout_pack e byo allowed oe h hex12 body s).1.
Proof.
  unfold create_scout_pack. destruct (new_scout_pack _ _ _ _ _ _ _) as [p|err] eqn:Ep; [|apply step_refl].
  apply scout_pack_spec in Ep as [Hl Ht]. cbv zeta. set (c := Change _ _ _ _). set (dir := put_file _ _ _).
  assert (Hc : step_ok (scout_typed body) (os_world s) (commit (os_world s) dir c tt).1).
  { eapply commit_step; [apply put_one; left; by apply strip_json|]. apply fine_shadow; auto. }
  destruct (commit (os_world s) dir c tt) as [w [u|err]]; cbn [fst] in Hc |- *; [|exact Hc].
  eapply step_trans; [exact Hc|]. apply (after_scout_step _ oe _ (Observe w (os_killed s))).
Qed.

Definition valid_request (q : request) : Prop :=
  match q with Rules q => valid q | Tick _ _ => True | ScoutPack _ _ _ _ body => scout_typed body end.

Lemma serve_step q h s : world_step (valid_request q) s (serve q h s).
Proof. destruct q; [apply handle_step|apply tick_step|apply scout_step]. Qed.

Lemma run_step qs s : world_step (Forall (fun qh => valid_request qh.1) qs) s (run s qs).
Proof.
  revert s. induction qs as [|[q h] qs IH]; intros s; [apply step_refl|]. cbn [run foldl fst snd].
  eapply step_trans; [|destruct (IH (serve q h s)) as [H1 H2]; split; [exact H1|]; intros Hv; inversion Hv; by apply H2].
  destruct (serve_step q h s) as [H1 H2]. split; [exact H1|]. intros Hv. inversion Hv. by apply H2.
Qed.
End Requests.

(** * Theorems *)

(** C13: nothing goes live unaccounted.  From a directory whose files are all
    readable packs under names without blanks around them, after any sequence of
    requests to the writing endpoints of the rule API, scout packs and the tick
    with its promotions, parked packs and kills included, the log has only grown,
    and every live file was live at the start or has a log row under which it went
    live: a promotion through the gates, the install of a vertical pack, or a
    force-live or mode change by a named actor that bears no model's
    fingerprint. *)
Theorem live_accounted erfc e s qs f :
  Forall good_file s.(os_world).(w_dir) ->
  let w := s.(os_world) in
  let w' := (run erfc e s qs).(os_world) in
  w.(w_log) `prefix_of` w'.(w_log) /\ (live w' f -> live w f \/ exists c, c ∈ w'.(w_log) /\ accounts c f).
Proof.
  intros Hg w w'. destruct (proj1 (run_step erfc e qs s) Hg) as (_ & new & El & Hl). unfold w'. rewrite El. split; [by exists new|].
  intros [H|(c & Hc & A)]%Hl; [by left|]. right. exists c. split; [apply elem_of_app; by right|done].
Qed.

(** C14: packs written from checked bodies evaluate.  If the loaded packs and the
    files are well typed to start with, then after any sequence of requests to the
    writing endpoints of the rule API whose bodies carry a comparable activation
    time, whose vertical catalogue is well typed and whose scout packs have
    well-typed rules and tag rules, and whatever else the rules, conditions,
    operators and values are, evaluating the loaded packs on any features never
    raises, the time budget aside.  The condition on scout packs is needed: their
    endpoint does not check it. *)
Theorem api_packs_evaluate erfc e s qs reg hs expired now F tags t eid m ex :
  typed s.(os_world) -> Forall (fun qh => valid_request qh.1) qs -> (forall n, expired n = false) ->
  exists out, evaluate_packs_python reg hs expired now (run erfc e s qs).(os_world).(w_store).(_cached_packs) F tags t eid m ex = Ok out.
Proof.
  intros Hw Hv Ht. apply packs_total; [done|]. apply (proj2 (run_step erfc e qs s) Hv Hw).
Qed.

Definition open_env : rule_env := RuleEnv EmptyString None None None None.
Definition sent_by (actor : string) : headers := Headers (Some actor) None None.
Definition empty_store : store := MkStore [] [] [] None 0.
Definition empty_rules : observe_state := Observe (World empty_store [] []) ∅.

Definition demo_body : RulePackIn :=
  MkPackIn "Card test" [MkRuleIn "r1" [MkCondition "amount" "gte" (PInt 100)] None ["high"] (litZ 30) EmptyString] [] None None None.

(** A scout pack that the tick behind it makes live, and an authored pack. *)
Definition demo_requests : list (request * headers) :=
  [(ScoutPack EmptyString ["amount"] (acme_env green) "a0" (burst [burst_rule []]), sent_by "scout-7");
   (Rules (Create ["amount"] (fun _ => "0") "a1" demo_body), sent_by "scout-7"); (Rules (SetMode "pack_a1.json" "active"), sent_by "scout-7");
   (Rules (SetMode "pack_a1.json" "active"), sent_by "ana")].

Lemma live_accounted_witness :
  let w' := (run (fun x => x) open_env empty_rules demo_requests).(os_world) in
  live w' "pack_a1.json" /\ exists c, c ∈ w'.(w_log) /\ accounts c "scout_a0.json".
Proof.
  assert (Hl : live (run (fun x => x) open_env empty_rules demo_requests).(os_world) "pack_a1.json").
  { eexists. split; [vm_compute; right; left|vm_compute; reflexivity]. }
  assert (Hs : live (run (fun x => x) open_env empty_rules demo_requests).(os_world) "scout_a0.json").
  { eexists. split; [vm_compute; left|vm_compute; reflexivity]. }
  split; [exact Hl|].
  destruct (live_accounted (fun x => x) open_env empty_rules demo_requests "scout_a0.json" ltac:(constructor)) as [_ H].
  destruct (H Hs) as [(d & Hd & _)|Hc]; [by apply not_elem_of_nil in Hd|exact Hc].
Defined.

Lemma api_packs_evaluate_witness :
  exists out, evaluate_packs_python empty_registry [] (fun _ => false) 0
    (run (fun x => x) open_env empty_rules demo_requests).(os_world).(w_store).(_cached_packs)
    [("amount", PInt 700)] [] "t" "e" "production" true = Ok out /\ out.(eo_hits) = ["r1"; "r1"].
Proof.
  destruct (api_packs_evaluate (fun x => x) open_env empty_rules demo_requests empty_registry [] (fun _ => false) 0
    [("amount", PInt 700)] [] "t" "e" "production" true) as [out E]; [by repeat constructor|by repeat constructor|done|].
  exists out. split; [exact E|]. revert E. vm_compute. intros E. injection E as <-. reflexivity.
Defined.

(** A scout pack with a number for the tags of a rule passes the checks; once an
    analyst has made it live, every evaluation on which the rule matches raises. *)
Example untyped_scout_pack_raises :
  let s := run (fun x => x) open_env empty_rules
    [(ScoutPack EmptyString ["amount"] (ObserveEnv (fun x => x) None None green ∅ ∅ [] "now") "a0" (burst [burst_rule [("tags", PInt 5)]]), sent_by "scout-7");
     (Rules (SetMode "scout_a0.json" "active"), sent_by "ana")] in
  map ch_action s.(os_world).(w_log) = ["create_scout_pack"; "set_mode"]
  /\ evaluate_packs_python empty_registry [] (fun _ => false) 0 s.(os_world).(w_store).(_cached_packs)
       [("amount", PInt 700)] [] "t" "e" "production" true = Err TypeError.
Proof. vm_compute. done. Qed.
