(* ===== verification/RuleDrafts.v ===== *)
(** Drafts, demotion and the second person of force-live: what [L2Draft] and
    [RuleApi] guarantee about them, and where they fall short of what their
    comments say. *)

From Stdlib Require Import ZArith Lia Ascii String Bool SpecFloat.
From stdpp Require Import base option list sorting strings gmap.
From S2P Require Import Prelude PyFloat PyValue Uuid GraphContract PackEvaluator Auth Replay JsonRules Promotion AutoPromote PackRules L2Draft RuleApi RuleGovernance.
Import JsonRules.Store.
Local Open Scope Z_scope.

(** * A source has one open draft *)

Lemma put_file_elem f v dir : (f, Document v) ∈ put_file f v dir.
Proof.
  unfold put_file, file_exists. destruct (mem f (map fst dir)) eqn:E; [|apply elem_of_app; right; left].
  apply mem_spec in E. apply list_elem_of_In, in_map_iff in E as ([g x] & <- & Hin). apply list_elem_of_In, in_map_iff. exists (g, x).
  split; [|done]. cbn. by rewrite bool_decide_eq_true_2.
Qed.

Lemma commit_Ok {A : Type} w dir c (a b : A) w' :
  commit w dir c a = (w', Ok b) -> w'.(w_dir) = dir /\ w'.(w_log) = w.(w_log) ++ [c] /\ a = b.
Proof. unfold commit. destruct (load_rules _ _) as [s [u|]]; [|done]. intros H. by injection H as <- <-. Qed.

Lemma guarded_Ok {A B : Type} w (m : result A) (k : A -> world * result B) w' b :
  guarded w m k = (w', Ok b) -> exists a, m = Ok a /\ k a = (w', Ok b).
Proof. destruct m; [eauto|done]. Qed.

Lemma read_packs_all files ps f d : read_packs files = Ok ps -> (f, Document (PDict d)) ∈ files -> dict_set "_file" (PStr f) d ∈ ps.
Proof.
  revert ps. induction files as [|[g x] files IH]; intros ps H Hin; [by apply not_elem_of_nil in Hin|].
  apply elem_of_cons in Hin as [E|Hin].
  - injection E as <- <-. cbn [read_packs] in H. inv_ok. subst ps. left.
  - cbn [read_packs] in H. destruct x as [v| |]; [destruct v as [| | | | | |d']; try done| |done].
    + inv_ok. subst ps. right. by apply IH.
    + by apply IH.
Qed.

Lemma first_open_None want packs p :
  first_open want packs = Ok None -> p ∈ packs -> draft_key p = Ok want -> draft_state p = Ok "observe" -> False.
Proof.
  induction packs as [|q packs IH]; intros H Hp Hk Hs; [by apply not_elem_of_nil in Hp|]. cbn [first_open] in H. inv_ok.
  destruct (_ && _) eqn:E; [done|]. apply elem_of_cons in Hp as [-> |Hp]; [|by apply IH].
  rewrite Hk in H0. rewrite Hs in H1. apply Ok_inj in H0, H1. subst. by rewrite bool_decide_eq_true_2 in E.
Qed.

Lemma strip_prefixed c pre t :
  is_space c = false -> all_chars (fun c => negb (is_space c)) pre = true -> rstrip t = t -> strip (String c pre +:+ t) = String c pre +:+ t.
Proof.
  intros Hc Hp Ht. unfold strip. rewrite sapp_cons. cbn [lstrip]. rewrite Hc, rstrip_cons by done. f_equal.
  induction pre as [|d pre IH]; [done|]. cbn [all_chars] in Hp. apply andb_prop in Hp as [Hd%negb_true_iff Hp].
  rewrite sapp_cons, rstrip_cons by done. f_equal. by apply IH.
Qed.

Lemma source_key_strip l h : strip (source_key l h) = source_key l h.
Proof.
  unfold source_key. destruct (nonempty (strip l)); apply strip_prefixed; try done; unfold strip; by rewrite rstrip_idem.
Qed.

Lemma source_key_nonempty l h : nonempty (source_key l h) = true.
Proof. unfold source_key. by destruct (nonempty (strip l)). Qed.

(** What [find_open_draft] reads of a draft just built. *)
Lemma built_draft_open now receipt a p f :
  build_l2_draft now receipt a = Ok p ->
  draft_state (dict_set "_file" (PStr f) p) = Ok "observe"
  /\ forall ev, get p "evidence" PNone = PDict ev -> draft_key (dict_set "_file" (PStr f) p) = Ok (source_key a.(da_leftover) a.(da_hil)).
Proof.
  intros (_ & Hk & Hl & Hs & _)%build_draft_spec. split.
  - unfold draft_state. rewrite get_set_ne, Hl by done. destruct (as_dict (get p "lifecycle" PNone)) as [|kv life] eqn:E; [done|].
    unfold mapping_or_empty, por. cbn [truthy need_dict rbind]. rewrite Hs. done.
  - intros ev He. unfold draft_key, mapping_or_empty. rewrite !get_set_ne by done. rewrite He, Hk. unfold por at 1.
    destruct ev as [|kv ev]; cbn [truthy need_dict rbind]; f_equal; unfold str_or_empty, por; cbn [truthy];
      rewrite source_key_nonempty; cbn [py_str]; rewrite source_key_strip; unfold str_or; by rewrite source_key_nonempty.
Qed.

Lemma built_draft_evidence now receipt a p : build_l2_draft now receipt a = Ok p -> exists ev, get p "evidence" PNone = PDict ev.
Proof.
  unfold build_l2_draft. destruct (_ && _); [done|]. destruct (_ || _); [done|]. destruct (authored_by_kind _ _ _) as [kind ai].
  repeat (destruct (_ && _); [done|]). intros H. apply rbind_Ok in H as ([|] & _ & H); [|done]. apply Ok_inj in H. subst p.
  rewrite !get_set_ne by done. eexists. reflexivity.
Qed.

(** A request that is answered with an error and changes nothing. *)
Definition refused (w : world) (out : world * result dict) : Prop := exists err, out = (w, Err err).

(** A source has one open draft.  Once a draft has been created for a
    leftover or an analyst event, every further request for the same source is
    refused until the directory changes, whoever asks and with whatever rules,
    unless the source's id ends in a colon. *)
Theorem one_open_draft e now rows w h t allowed fresh hex12 body w' a e2 now2 rows2 h2 t2 allowed2 fresh2 hex2 body2 :
  create_l2_draft e now rows w h t allowed fresh hex12 body = (w', Ok a) ->
  let key := source_key body.(di_leftover_id) body.(di_hil_event_id) in
  source_key body2.(di_leftover_id) body2.(di_hil_event_id) = key -> endswith key ":" = false ->
  refused w' (create_l2_draft e2 now2 rows2 w' h2 t2 allowed2 fresh2 hex2 body2).
Proof.
  intros H key Hk Hc. apply guarded_Ok in H as (p & Hn & H). cbv zeta in H. apply commit_Ok in H as (Hd & _ & _).
  apply new_draft_spec in Hn as (rec & packs & ok & _ & _ & _ & _ & Hb).
  unfold create_l2_draft. destruct (new_draft e2 now2 rows2 w' h2 t2 allowed2 fresh2 body2) as [p2|err] eqn:E2; [|by exists err].
  apply new_draft_spec in E2 as (rec2 & packs2 & ok2 & _ & Hr & Hf & _). exfalso.
  unfold find_open_draft in Hf. rewrite Hk in Hf. fold key in Hf. rewrite Hc in Hf.
  destruct (built_draft_evidence _ _ _ _ Hb) as [ev He]. set (f := "l2_" +:+ hex12 +:+ ".json") in *.
  destruct (built_draft_open _ _ _ _ f Hb) as [Hs Hkey]. eapply first_open_None; [exact Hf| |exact (Hkey ev He)|exact Hs].
  unfold _read_all_packs in Hr. eapply read_packs_all; [exact Hr|]. rewrite merge_sort_Permutation, Hd. apply put_file_elem.
Qed.

Definition demo_trace : string := "00000000-0000-0000-0000-000000000007".
Definition demo_rows : list AuditRecord :=
  [Audit 7 "acme" "u1" "payment" "allow" (litZ 10) [] (PDict [("payload", PDict [("amount", PInt 5)])]) 0].
Definition demo_draft (leftover : string) (rules : list RuleIn) (authored_by : string) : L2DraftIn :=
  MkDraftIn leftover EmptyString demo_trace "looks fine to me" authored_by false false EmptyString rules.
Definition empty_world : world := World empty_store [] [].
Definition draft_for (w : world) (leftover : string) : world * result dict :=
  create_l2_draft open_env "now" demo_rows w (sent_by "ana") None ["entity_id"] (fun _ => "0") "a1" (demo_draft leftover [] "human").

Lemma one_open_draft_witness :
  is_ok (draft_for empty_world "L1").2 = true
  /\ exists err, draft_for (draft_for empty_world "L1").1 "L1" = ((draft_for empty_world "L1").1, Err err).
Proof.
  split; [vm_compute; reflexivity|].
  refine (one_open_draft open_env "now" demo_rows empty_world (sent_by "ana") None ["entity_id"] (fun _ => "0") "a1"
    (demo_draft "L1" [] "human") (draft_for empty_world "L1").1
    (match (draft_for empty_world "L1").2 with Ok a => a | Err _ => [] end)
    open_env "now" demo_rows (sent_by "ana") None ["entity_id"] (fun _ => "0") "a1" (demo_draft "L1" [] "human") _ _ _).
  all: vm_compute; reflexivity.
Defined.

(** With a colon at its end the same source is drafted twice. *)
Example colon_source_twice :
  is_ok (create_l2_draft open_env "now" demo_rows (draft_for empty_world "L1:").1 (sent_by "ana") None ["entity_id"] (fun _ => "0") "a2"
           (demo_draft "L1:" [] "human")).2 = true.
Proof. vm_compute. reflexivity. Qed.

(** * The backtest of an AI-authored draft *)

(** The backtest gate of an AI-authored draft does not depend on its rules:
    whenever the replay of the event returns, the verdict is a pass, whatever the
    rules do to the event's decision and also when none of them is replayed. *)
Theorem ai_backtest_vacuous rows rec fresh rules b : draft_backtest rows rec (replay_rules fresh rec rules) = Ok b -> b = true.
Proof.
  unfold draft_backtest. intros H. apply rbind_Ok in H as (ans & Ha & H). apply Ok_inj in H. subst b. unfold replay_events in Ha.
  destruct (is_nil (rules_override _)); [done|]. apply rbind_Ok in Ha as ([recs missing] & Hs & Ha). unfold select_records in Hs.
  cbn [trace_ids is_nil negb length] in Hs. cbv zeta in Hs. destruct (_ <? _); [done|]. apply rbind_Ok in Hs as (parsed & Hp & Hs). cbn [parse_traces] in Hp.
  destruct (uuid_of_string _) as [u|]; [|done]. apply Ok_inj in Hp. subst parsed. apply Ok_inj in Hs. cbn [filter_map] in Hs.
  destruct (last _) as [r|]; injection Hs as <- <-; [|done]. cbn [is_nil rmapM] in Ha. apply rbind_Ok in Ha as (items & Hi & Ha).
  apply Ok_inj in Ha. subst ans. apply rbind_Ok in Hi as (y & _ & Hi). apply Ok_inj in Hi. by subst items.
Qed.

(** A draft whose only rule is a tree: the replay gets a rule without
    conditions, which never fires, and passes it. *)
Definition tree_rule : RuleIn :=
  MkRuleIn "r" [] (Some [("type", PStr "condition"); ("op", PStr "eq"); ("field", PStr "amount"); ("value", PInt 5)]) [] (litZ 90) EmptyString.

Lemma ai_backtest_vacuous_witness :
  exists rec, head demo_rows = Some rec /\ exists b, draft_backtest demo_rows rec (replay_rules (fun _ => "0") rec [tree_rule]) = Ok b /\ b = true.
Proof.
  eexists. split; [reflexivity|].
  destruct (draft_backtest demo_rows (Audit 7 "acme" "u1" "payment" "allow" (litZ 10) [] (PDict [("payload", PDict [("amount", PInt 5)])]) 0)
    (replay_rules (fun _ => "0") (Audit 7 "acme" "u1" "payment" "allow" (litZ 10) [] (PDict [("payload", PDict [("amount", PInt 5)])]) 0) [tree_rule]))
    as [b|] eqn:E; [|revert E; vm_compute; discriminate].
  exists b. split; [reflexivity|]. exact (ai_backtest_vacuous _ _ _ _ _ E).
Defined.

(** * Demotion *)

Lemma confirmed_blob now d actor reason d1 :
  confirm_demote now d actor reason = Ok d1 ->
  get d1 "lifecycle" PNone = PDict (as_dict (get d1 "lifecycle" PNone))
  /\ get (_demote_blob d1) "state" PNone = PStr DEMOTE_CONFIRMED.
Proof.
  unfold confirm_demote. destruct (negb _); [done|]. intros H. apply rbind_Ok in H as ([who why] & _ & H).
  destruct (negb _); [done|]. apply Ok_inj in H. subst d1. unfold _demote_blob.
  rewrite !(get_set_ne "lifecycle" "mode") by done. rewrite !get_set_eq. cbn [as_dict]. rewrite get_set_eq. cbn [as_dict].
  split; [done|]. rewrite !get_set_ne by done. apply get_set_eq.
Qed.

(** The proposal on record outlives a return to live. *)
Lemma reactivated_blob now d1 d2 :
  get d1 "lifecycle" PNone = PDict (as_dict (get d1 "lifecycle" PNone)) -> get (_demote_blob d1) "state" PNone = PStr DEMOTE_CONFIRMED ->
  d2 = dict_set "mode" (PStr "active") d1 \/ activated now d1 = Ok d2 ->
  mode_of d2 = "active" /\ get (_demote_blob d2) "state" PNone = PStr DEMOTE_CONFIRMED.
Proof.
  intros Hl Hb [-> |Ha].
  - split; [unfold mode_of; by rewrite get_set_eq|]. unfold _demote_blob in *. by rewrite get_set_ne.
  - split; [unfold mode_of; by rewrite (activated_mode _ _ _ _ Ha)|]. unfold activated in Ha.
    destruct (is_dict (get (dict_set "mode" (PStr "active") d1) "lifecycle" PNone) || _).
    + unfold mark_promoted in Ha. rewrite get_set_ne, Hl in Ha by done. destruct (as_dict (get d1 "lifecycle" PNone)) as [|kv life] eqn:El.
      { unfold _demote_blob in Hb. by rewrite El in Hb. }
      unfold por in Ha. cbn [truthy] in Ha. apply Ok_inj in Ha. subst d2. unfold _demote_blob in *. rewrite get_set_eq. cbn [as_dict].
      rewrite !get_set_ne by done. by rewrite El in Hb.
    + apply Ok_inj in Ha. subst d2. unfold _demote_blob in *. by rewrite get_set_ne.
Qed.

Lemma guarded_refused {A B : Type} w (m : result A) (k : A -> world * result B) :
  (forall a, m <> Ok a) -> exists err, guarded w m k = (w, Err err).
Proof. intros H. destruct m as [a|err]; [by destruct (H a)|by exists err]. Qed.

(** A pack can be demoted once.  After a confirmed demotion and a return to
    live, by a mode change, by force-live or by promotion, every proposal and
    confirmation of a demotion is refused, and so is the mode change back to
    shadow, for every actor and reason. *)
Theorem demoted_once_only e now0 d0 actor0 reason0 d1 now1 d2 w f h now reason :
  confirm_demote now0 d0 actor0 reason0 = Ok d1 -> d2 = dict_set "mode" (PStr "active") d1 \/ activated now1 d1 = Ok d2 ->
  read_pack f w.(w_dir) = Ok d2 ->
  refused w (propose_demote_pack e now w h f reason) /\ refused w (confirm_demote_pack e now w h f reason)
  /\ refused w (set_pack_mode e w h f "shadow").
Proof.
  intros Hc Ha Hr. apply confirmed_blob in Hc as [Hl Hb]. apply (reactivated_blob _ _ _ Hl Hb) in Ha as [Hm Hd].
  split; [|split]; apply guarded_refused; intros a H.
  - inv_ok. rewrite Hr in H3. apply Ok_inj in H3. subst a3. unfold propose_demote in H4. rewrite Hm in H4. cbn [negb mem] in H4.
    change (negb (mem "active" ["active"; ""])) with false in H4. cbv iota in H4. apply rbind_Ok in H4 as ([who why] & _ & H4).
    by rewrite Hd in H4.
  - inv_ok. rewrite Hr in H3. apply Ok_inj in H3. subst a3. unfold confirm_demote in H4. rewrite Hm in H4.
    change (negb (mem "active" ["active"; ""])) with false in H4. cbv iota in H4. apply rbind_Ok in H4 as ([who why] & _ & H4).
    by rewrite Hd in H4.
  - inv_ok. change (negb (mem "shadow" ["active"; "shadow"; "disabled"])) with false in H. cbv iota in H. apply rbind_Ok in H as (d & Hd' & H).
    rewrite Hr in Hd'. apply Ok_inj in Hd'. subst d. rewrite Hm in H. change (bool_decide ("shadow" = "shadow") && mem "active" ["active"; ""]) with true in H.
    cbv iota in H. by apply rbind_Ok in H as (? & _ & H).
Qed.

Definition proposed_pack : dict :=
  [("version", PInt 1); ("name", PStr "p"); ("mode", PStr "active"); ("rules", PList []);
   ("lifecycle", PDict [("demote", PDict [("state", PStr "proposed")])])].

Definition demoted_pack : dict := match confirm_demote "t0" proposed_pack "ana" "too noisy" with Ok d => d | Err _ => [] end.

Lemma demoted_once_only_witness :
  let w := World empty_store [("p.json", Document (PDict (dict_set "mode" (PStr "active") demoted_pack)))] [] in
  (exists err, propose_demote_pack open_env "t2" w (sent_by "ben") "p.json" "still noisy" = (w, Err err))
  /\ get demoted_pack "mode" PNone = PStr "shadow".
Proof.
  split; [|vm_compute; reflexivity].
  refine (proj1 (demoted_once_only open_env "t0" proposed_pack "ana" "too noisy" demoted_pack "t1" (dict_set "mode" (PStr "active") demoted_pack)
    (World empty_store [("p.json", Document (PDict (dict_set "mode" (PStr "active") demoted_pack)))] []) "p.json" (sent_by "ben") "t2" "still noisy"
    _ (or_introl eq_refl) _)); vm_compute; reflexivity.
Defined.

(** An edit takes a live pack to shadow in one step, whoever sends it. *)
Definition live_world : world := World empty_store [("p.json", Document (PDict (dict_set "mode" (PStr "active") demoted_pack)))] [].

Example edit_demotes_in_one_step :
  live live_world "p.json"
  /\ let w' := (add_rule open_env live_world (sent_by "scout-7") ["amount"] "0" "p.json" (MkRuleIn "r" [] None [] (litZ 5) EmptyString)).1 in
     ~ live w' "p.json" /\ map ch_actor w'.(w_log) = ["scout-7"].
Proof.
  split; [exists (dict_set "mode" (PStr "active") demoted_pack); split; [left|vm_compute; reflexivity]|].
  split; [|vm_compute; reflexivity]. intros (d & Hd & Hl). vm_compute in Hd. apply list_elem_of_singleton in Hd. injection Hd as ->.
  vm_compute in Hl. discriminate.
Qed.

(** Through [disabled], a mode change does it in two, without a reason. *)
Example disable_then_shadow :
  let w' := (set_pack_mode open_env (set_pack_mode open_env live_world (sent_by "scout-7") "p.json" "disabled").1 (sent_by "scout-7") "p.json" "shadow") in
  is_ok w'.2 = true /\ map ch_action (w'.1).(w_log) = ["set_mode"; "set_mode"].
Proof. vm_compute. done. Qed.

(** A mode change makes a locked pack live; promotion and force-live refuse it. *)
Example mode_ignores_observe_lock :
  let locked := World empty_store [("p.json", Document (PDict [("name", PStr "p"); ("mode", PStr "shadow"); ("observe_locked", PBool true)]))] [] in
  is_ok (set_pack_mode open_env locked (sent_by "ana") "p.json" "active").2 = true
  /\ (force_live_pack open_env locked (sent_by "ana") "p.json" "known good").2 = Err (http 409 "observe_locked").
Proof. vm_compute. done. Qed.

(** * The second person *)

Definition two_person (v : rule_env) : Prop := _force_live_two_person_required v = true.

(** With the two-person switch on, a force-live that is accepted names in its
    log row an approver who bears no model's fingerprint and, when the actor's
    name is at most 256 characters long, differs from the actor ignoring case
    and surrounding blanks. *)
Theorem force_live_two_person e w h f reason w' a :
  force_live_pack e w h f reason = (w', Ok a) -> two_person e -> str_len (strip (opt_str h.(x_actor))) <= 256 ->
  exists c approver, w'.(w_log) = w.(w_log) ++ [c] /\ get c.(ch_detail) "approver" PNone = PStr approver
    /\ nonempty approver = true /\ model_fingerprint approver = false
    /\ lower (strip (opt_str h.(x_approver))) <> lower (strip (opt_str h.(x_actor))).
Proof.
  intros H Ht Hlen. apply guarded_Ok in H as ([[p actor] approver] & Hg & H). apply commit_Ok in H as (_ & Hlog & _).
  inv_ok. injection Hg as <- <- <-. unfold _require_force_live_approver in H1. unfold two_person in Ht; rewrite Ht in H1. cbn [negb] in H1. cbv zeta in H1.
  destruct (negb (nonempty _)) eqn:En; [done|]. destruct (model_fingerprint _) eqn:Em; [done|]. case_bool_decide as Ed; [done|].
  apply Ok_inj in H1. subst a2. unfold _require_force_live_human in H0. destruct (_ || _); [done|]. apply Ok_inj in H0. subst a1.
  eexists _, _. split; [exact Hlog|]. split; [reflexivity|]. split; [|split; [by apply fingerprint_cut|]].
  - apply negb_false_iff in En. destruct (strip (opt_str (x_approver h))); done.
  - rewrite Telemetry.str_take_all in Ed by (unfold str_len in Hlen; lia). by rewrite strip_idem in Ed.
Qed.

Definition two_person_env : rule_env := RuleEnv EmptyString None (Some "on") None None.
Definition shadow_world : world := World empty_store [("p.json", Document (PDict demoted_pack))] [].

Lemma force_live_two_person_witness :
  let r := force_live_pack two_person_env shadow_world (Headers (Some "ana") None (Some "ben")) "p.json" "urgent fix" in
  exists c approver, (r.1).(w_log) = [c] /\ get c.(ch_detail) "approver" PNone = PStr approver /\ nonempty approver = true.
Proof.
  destruct (force_live_two_person two_person_env shadow_world (Headers (Some "ana") None (Some "ben")) "p.json" "urgent fix"
    (force_live_pack two_person_env shadow_world (Headers (Some "ana") None (Some "ben")) "p.json" "urgent fix").1
    (match (force_live_pack two_person_env shadow_world (Headers (Some "ana") None (Some "ben")) "p.json" "urgent fix").2 with Ok a => a | Err _ => [] end))
    as (c & ap & H1 & H2 & H3 & _); [vm_compute; reflexivity|vm_compute; reflexivity|vm_compute; discriminate|].
  exists c, ap. split; [exact H1|]. split; [exact H2|exact H3].
Defined.

Fixpoint repeat_char (n : nat) (c : ascii) : string := match n with O => EmptyString | S n' => String c (repeat_char n' c) end.

(** Longer names are compared after the actor's, and only the actor's, is cut:
    one person passes for two. *)
Example long_name_approves_itself :
  let name := repeat_char 257 "a" in
  let r := force_live_pack two_person_env shadow_world (Headers (Some name) None (Some name)) "p.json" "urgent fix" in
  is_ok r.2 = true /\ map (fun c => get c.(ch_detail) "approver" PNone) (r.1).(w_log) = map (fun c => PStr c.(ch_actor)) (r.1).(w_log).
Proof. vm_compute. done. Qed.

(** * Changes that are not logged *)

Lemma load_files_bad files g v : forall acc, (g, Document v) ∈ files -> is_dict v = false -> exists err, load_files acc files = Err err.
Proof.
  induction files as [|[g' x] files IH]; intros acc Hin Hv; [by apply not_elem_of_nil in Hin|]. cbn [load_files].
  destruct (load_file acc (g', x)) as [acc'|err] eqn:El; cbn [rbind]; [|by exists err].
  apply elem_of_cons in Hin as [E|Hin]; [|by apply IH]. injection E as <- <-. exfalso. unfold load_file in El. cbn in El. by destruct v.
Qed.

(** One file that is valid JSON but not an object takes the log off every
    change: a mode change to live by a human is written to the pack's file and
    then fails in the reload, so the caller gets an error, the loaded packs stay
    as they were and no log row is written, while the next successful load makes
    the pack live. *)
Theorem broken_file_hides_changes e w h f d g v :
  (g, Document v) ∈ w.(w_dir) -> is_dict v = false -> g <> f ->
  _require_rule_governance e h = Ok tt -> _existing_pack_path f w.(w_dir) = Ok tt -> is_ok (_require_force_live_human h) = true ->
  read_pack f w.(w_dir) = Ok d ->
  exists w' err, set_pack_mode e w h f "active" = (w', Err err)
    /\ w'.(w_log) = w.(w_log) /\ w'.(w_store) = w.(w_store) /\ (f, Document (PDict (dict_set "mode" (PStr "active") d))) ∈ w'.(w_dir).
Proof.
  intros Hg Hv Hne Hgov Hex [actor Ha]%is_ok_spec Hr. unfold set_pack_mode. rewrite Hgov, Hex. cbn [rbind].
  change (negb (mem "active" ["active"; "shadow"; "disabled"])) with false. cbv iota. rewrite Hr. cbn [rbind].
  change (bool_decide ("active" = "shadow")) with false. cbn [andb]. change (bool_decide ("active" = "active")) with true. cbv iota.
  rewrite Ha. cbn [rbind guarded]. unfold commit, load_rules. set (dir := write_file _ _ _).
  destruct (load_files_bad (merge_sort name_le dir) g v (Loading [] [] [])) as [err ->]; [|done|].
  { rewrite merge_sort_Permutation. unfold dir, write_file. apply list_elem_of_In, in_map_iff. exists (g, Document v). cbn.
    rewrite bool_decide_eq_false_2 by done. split; [done|by apply list_elem_of_In]. }
  eexists _, err. split; [reflexivity|]. split; [done|]. split; [done|]. cbn [w_dir]. apply read_pack_elem in Hr. unfold dir, write_file.
  apply list_elem_of_In, in_map_iff. exists (f, Document (PDict d)). cbn. rewrite bool_decide_eq_true_2 by done. split; [done|by apply list_elem_of_In].
Qed.

Lemma broken_file_hides_changes_witness :
  let w := World empty_store [("notes.json", Document (PList [])); ("p.json", Document (PDict demoted_pack))] [] in
  exists w' err, set_pack_mode open_env w (sent_by "ana") "p.json" "active" = (w', Err err) /\ w'.(w_log) = []
    /\ (live w "p.json" -> False) /\ live w' "p.json".
Proof.
  destruct (broken_file_hides_changes open_env (World empty_store [("notes.json", Document (PList [])); ("p.json", Document (PDict demoted_pack))] [])
    (sent_by "ana") "p.json" demoted_pack "notes.json" (PList [])) as (w' & err & E & Hl & _ & Hin);
    [left|reflexivity|discriminate|reflexivity|vm_compute; reflexivity|vm_compute; reflexivity|vm_compute; reflexivity|].
  exists w', err. split; [exact E|]. split; [exact Hl|]. split.
  - intros (d & Hd & Hlive). cbn in Hd. apply elem_of_cons in Hd as [Hd|Hd]; [discriminate|]. apply list_elem_of_singleton in Hd.
    injection Hd as ->. revert Hlive. vm_compute. discriminate.
  - eexists. split; [exact Hin|]. vm_compute. reflexivity.
Defined.

(** * Names *)

(** Creation compares the sanitised name with names that were not sanitised. *)
Example name_taken_twice :
  let body := MkPackIn "Fraud v2.0" [MkRuleIn "r" [MkCondition "amount" "gt" (PInt 1)] None [] (litZ 5) EmptyString] [] None None None in
  let w1 := (create_rule_pack open_env empty_world (sent_by "ana") ["amount"] (fun _ => "0") "a1" body).1 in
  is_ok (create_rule_pack open_env w1 (sent_by "ana") ["amount"] (fun _ => "0") "a2" body).2 = true.
Proof. vm_compute. reflexivity. Qed.

(** A vertical pack installed under its alias and under its own name is live twice. *)
Definition marketplace (name : string) : option dict :=
  if bool_decide (name = "marketplace")
  then Some [("id", PStr "marketplace"); ("name", PStr "Marketplace"); ("version", PInt 1); ("rules", PList [])] else None.

Example alias_installs_twice :
  let body := MkVerticalBody (litZ 1) (litZ 1) (litZ 1) None 1000 None in
  let w1 := (install_vertical_pack open_env marketplace false [] empty_world (sent_by "scout-7") "marketplace" body false "a1").1 in
  let w2 := (install_vertical_pack open_env marketplace false [] w1 (sent_by "scout-7") "marketplace_goods" body false "a2").1 in
  length (get_active_packs_snapshot w2.(w_store)) = 2%nat.
Proof. vm_compute. reflexivity. Qed.

(** * Other gaps *)

Definition ai_draft_pack : dict :=
  [("version", PInt 1); ("name", PStr "l2_x"); ("mode", PStr "shadow"); ("rules", PList []); ("is_ai_authored", PBool true);
   ("source_key", PStr "leftover:x"); ("lifecycle", PDict [("state", PStr "observe")])].

(** An abandoned draft stays a shadow pack and is promoted by the next tick. *)
Example abandoned_draft_goes_live :
  let w1 := (abandon_l2_draft open_env "t1" (World empty_store [("l2_a.json", Document (PDict ai_draft_pack))] []) (sent_by "ana") "l2_x").1 in
  let w2 := (maybe_auto_promote_shadow (fun x => x) None None green acme_files "t2" w1 "acme").1 in
  map ch_action w2.(w_log) = ["l2_abandon"; "auto_promote_shadow_pack"]
  /\ length (get_active_packs_snapshot w2.(w_store)) = 1%nat.
Proof. vm_compute. done. Qed.

(** An activation time that passes validation but has no UTC equivalent makes
    every evaluation of the pack raise. *)
Example far_effective_at_raises :
  let body := MkPackIn "p" [MkRuleIn "r" [MkCondition "amount" "gt" (PInt 1)] None [] (litZ 5) EmptyString] [] None
                (Some "0001-01-01T00:00:00+05:00") None in
  let w1 := (create_rule_pack open_env empty_world (sent_by "ana") ["amount"] (fun _ => "0") "a1" body).1 in
  let w2 := (set_pack_mode open_env w1 (sent_by "ana") "pack_a1.json" "active").1 in
  PackEvaluator.evaluate_packs_python GraphContract.Contract.empty_registry [] (fun _ => false) 0 w2.(w_store).(_cached_packs) [] [] "t" "e" "production" true
  = Err OverflowError.
Proof. vm_compute. reflexivity. Qed.
