(* ===== verification/ChallengePolicy.v ===== *)
(** Challenge policies ([decision_api/challenge_policy.py]), the typology layer
    ([decision_api/typology.py], [decision_api/typology_predicate_registry.py])
    and the identity of the loaded policy set ([decision_api/policy_set.py]).

    The module globals are a state that the operations pass on; the files they
    read are arguments.  Log messages are left out. *)

From Stdlib Require Import ZArith Lia Ascii String Bool SpecFloat.
From stdpp Require Import base option list sorting strings gmap.
From S2P Require Import Prelude PyFloat PyValue Sha256 RuleMatch JsonRules Promotion.
Import JsonRules.Store.
Local Open Scope Z_scope.

(** * Challenge policies *)

(** One file of the directory; whatever is wrong with it, it is skipped. *)
Definition load_policy (acc : dict) (f : string * file_read) : dict :=
  match f.2 with
  | Document (PDict data) =>
      let pid := strip (py_str (get data "policy_id" (PStr EmptyString))) in
      if negb (nonempty pid) then acc
      else match py_int (get data "version" (PInt 1)) with
           | Ok v => if v <? 1 then acc else dict_set pid (PDict data) acc
           | Err _ => acc
           end
  | _ => acc
  end.

(** [dir] is the listing of [challenge_policies], if it is there. *)
Definition read_policies (dir : option (list (string * file_read))) : dict :=
  match dir with None => [] | Some files => foldl load_policy [] (merge_sort name_le files) end.

Definition _safe_float (x : pyval) : result float := try_except (py_float x) is_type_or_value_error f_zero.

(** [_safe_float(a) < _safe_float(b)] for a key that is present. *)
Definition below (when : dict) (key : string) (actual : pyval) (above : bool) : result bool :=
  if negb (has_key when key) then Ok false
  else
    let! x := _safe_float actual in
    let! y := _safe_float (get when key PNone) in
    Ok (if above then fltb y x else fltb x y).

Definition RISK_KEYS : list (string * string) :=
  [("min_tamper_risk", "tamper_risk"); ("min_replay_risk", "replay_risk"); ("min_impossible_travel_risk", "impossible_travel_risk");
   ("min_geo_consistency_risk", "geo_consistency_risk")].

Fixpoint risks_met (when inf_ctx : dict) (keys : list (string * string)) : result bool :=
  match keys with
  | [] => Ok true
  | (key, inf_key) :: keys' =>
      let! low := below when key (get inf_ctx inf_key PNone) false in
      if low : bool then Ok false else risks_met when inf_ctx keys'
  end.

Definition _matches_when (when : dict) (decision : string) (inf_ctx : dict) (tags : list string) (payload : dict) : result bool :=
  match when with
  | [] => Ok true
  | _ =>
      if has_key when "decision" && negb (bool_decide (py_str (get when "decision" PNone) = decision)) then Ok false
      else if has_key when "confidence_tier"
              && negb (bool_decide (py_str (get when "confidence_tier" PNone) = py_str (get inf_ctx "confidence_tier" (PStr EmptyString))))
      then Ok false
      else
        let! risks := risks_met when inf_ctx RISK_KEYS in
        if negb risks then Ok false else
        let! low := below when "min_amount" (get payload "amount" PNone) false in
        if low : bool then Ok false else
        let! high := below when "max_amount" (get payload "amount" PNone) true in
        if high : bool then Ok false
        else Ok (negb (has_key when "has_tag") || existsb (contains (py_str (get when "has_tag" PNone))) tags)
  end.

Record challenge_meta : Type := Meta {
  cm_policy_id : string; cm_requested : option string; cm_default : string; cm_matched_rule_id : pyval; cm_rule_index : option Z;
  cm_escalation_ladder : list pyval; cm_source : string; cm_error : option string; cm_note : option string }.

(** A rule's [when], when it is a mapping. *)
Definition rule_when (rule : dict) : option dict :=
  match por (get rule "when" PNone) (PDict []) with PDict w => Some w | _ => None end.

Definition rule_applies (decision : string) (inf_ctx : dict) (tags : list string) (payload : dict) (rule : dict) : result bool :=
  match rule_when rule with Some w => _matches_when w decision inf_ctx tags payload | None => Ok false end.

(** The first rule that applies, with its index. *)
Fixpoint first_rule (decision : string) (inf_ctx : dict) (tags : list string) (payload : dict) (idx : Z) (rules : list pyval)
    : result (option (Z * dict)) :=
  match rules with
  | [] => Ok None
  | v :: rules' =>
      let! rule := need_dict v in
      let! hit := rule_applies decision inf_ctx tags payload rule in
      if hit : bool then Ok (Some (idx, rule)) else first_rule decision inf_ctx tags payload (idx + 1) rules'
  end.

Definition opt_action (v : pyval) : option string := match v with PNone => None | _ => Some (py_str v) end.

(** What a policy without an applicable rule recommends. *)
Definition default_action (policy : dict) (base_action : option string) : option string :=
  match get policy "default" (PStr "use_base_engine") with
  | PStr s => if bool_decide (s = "use_base_engine") then base_action else Some s
  | _ => base_action
  end.

Definition run_policy (policy : dict) (meta : challenge_meta) (base_action : option string) (decision : string) (inf_ctx : dict)
    (tags : list string) (payload : dict) : result (option string * challenge_meta) :=
  let! ladder := py_iter (get policy "escalation_ladder" (PList [])) in
  let! rules := iter_or_empty (get policy "rules" PNone) in
  let! hit := first_rule decision inf_ctx tags payload 0 rules in
  let meta rid idx := Meta (py_str (get policy "policy_id" (PStr meta.(cm_policy_id)))) meta.(cm_requested) meta.(cm_default) rid idx ladder
                        meta.(cm_source) meta.(cm_error) meta.(cm_note) in
  Ok (match hit with
      | Some (idx, rule) => (opt_action (get rule "recommended_action" PNone), meta (get rule "id" PNone) (Some idx))
      | None => (default_action policy base_action, meta PNone None)
      end).

(** [policies]: the loaded templates; [setting]: the configured default. *)
Definition apply_challenge_policy (policies : dict) (setting : string) (policy_id base_action : option string) (decision : string)
    (inf_ctx : dict) (tags : list string) (payload : dict) : result (option string * challenge_meta) :=
  let requested := strip (opt_str policy_id) in
  let default_pid := strip (str_or setting "default_v1") in
  let pid := str_or requested default_pid in
  let meta source err note := Meta pid (if nonempty requested then Some requested else None) default_pid PNone None [] source err note in
  let source := if nonempty requested then "requested" else "default" in
  match policies with
  | [] => Ok (base_action, meta source None (Some "no_policies_loaded"))
  | _ =>
      match get policies pid PNone with
      | PDict (kv :: policy) => run_policy (kv :: policy) (meta source None None) base_action decision inf_ctx tags payload
      | _ =>
          match get policies default_pid PNone with
          | PDict (kv :: policy) =>
              run_policy (kv :: policy) (meta "fallback_default" (Some "unknown_policy_fallback_default") None) base_action decision inf_ctx tags payload
          | _ => Ok (base_action, meta source (Some "unknown_policy") None)
          end
      end
  end.

Definition sorted_ids (policies : dict) : list string := merge_sort String.le (dict_keys policies).

Definition summary_row (policies : dict) (pid : string) : result pyval :=
  let p := as_dict (get policies pid PNone) in
  let! v := py_int (get p "version" (PInt 1)) in
  let! ladder := py_iter (get p "escalation_ladder" (PList [])) in
  Ok (PDict [("policy_id", PStr pid); ("version", PInt v); ("description", PStr (py_str (get p "description" (PStr EmptyString))));
             ("escalation_ladder", PList ladder)]).

Definition get_policy_summaries (policies : dict) : result (list pyval) := rmapM (summary_row policies) (sorted_ids policies).

(** * Typologies *)

Definition empty_definitions : pyval := PDict [("version", PInt 1); ("typologies", PList [])].
Definition empty_registry_file : pyval := PDict [("registry_id", PStr "none"); ("version", PInt 0); ("predicates", PList [])].

(** What a file gives on first use ([None]: it is not there). *)
Definition load_or (empty : pyval) (file : option file_read) : result pyval :=
  match file with
  | Some (Document v) => Ok v
  | Some NotUtf8 => Err ValueError
  | _ => Ok empty
  end.

Definition load_typology_definitions (file : option file_read) : result pyval := load_or empty_definitions file.
Definition load_predicate_registry (file : option file_read) : result pyval := load_or empty_registry_file file.

Fixpoint find_predicate (id : string) (preds : list pyval) : result (option dict) :=
  match preds with
  | [] => Ok None
  | v :: preds' =>
      let! p := need_dict v in
      if bool_decide (str_or_empty (get p "id" PNone) = id)
      then Ok (match get p "when" PNone with PDict w => Some w | _ => None end)
      else find_predicate id preds'
  end.

Definition predicate_when_by_id (registry : dict) (id : string) : result (option dict) :=
  let! preds := iter_or_empty (get registry "predicates" PNone) in find_predicate id preds.

Definition pick_keys (keys : list string) (d : dict) : dict :=
  filter_map (fun k => match dict_lookup k d with Some v => Some (k, v) | None => None end) keys.

Definition _resolve_feature_predicate (pred registry : dict) : result (option (dict * string)) :=
  let ref := strip (str_or_empty (get pred "predicate_ref" PNone)) in
  if nonempty ref then
    let! when := predicate_when_by_id registry ref in
    Ok (match when with Some (kv :: w) => Some (kv :: w, "ref:" +:+ ref) | _ => None end)
  else
    let cond := pick_keys ["field"; "op"; "value"] pred in
    Ok (if truthy (get cond "field" PNone) then Some (cond, "inline:" +:+ py_str (get cond "field" PNone)) else None).

Definition _breach_level (score warn alert : float) : string :=
  if fleb alert score then "alert" else if fleb warn score then "warning" else "pass".

Record typology_row : Type := Typology {
  ty_id : string; ty_label : string; ty_score : float; ty_breach_level : string; ty_warning : float; ty_alert : float;
  ty_rule_hits : list string; ty_predicates : list string; ty_disposition : string; ty_dsl_version : Z }.

(** One predicate: what it adds to the score and the contributions.  Whatever
    the match or the bonus raises is swallowed. *)
Definition eval_predicate (features registry : dict) (pin_match : bool) (acc : float * list string) (v : pyval) : result (float * list string) :=
  match v with
  | PDict pred =>
      let! r := _resolve_feature_predicate pred registry in
      Ok (match r with
          | None => acc
          | Some (cond, label) =>
              if nonempty (strip (str_or_empty (get pred "predicate_ref" PNone))) && negb pin_match then acc
              else match (let! hit := _match_condition features cond in
                          if hit : bool then let! bonus := py_float (get pred "bonus" (PInt 0)) in Ok (Some bonus) else Ok None) with
                   | Ok (Some bonus) =>
                       (fadd acc.1 bonus,
                        acc.2 ++ [label +:+ ":" +:+ py_str (get cond "field" PNone) +:+ ":" +:+ py_str (get cond "op" PNone) +:+ ":"
                                  +:+ py_str (get pred "value" (get cond "value" PNone))])
                   | _ => acc
                   end
          end)
  | _ => Ok acc
  end.

Fixpoint rfoldl {A B : Type} (f : B -> A -> result B) (acc : B) (l : list A) : result B :=
  match l with [] => Ok acc | x :: l' => let! acc' := f acc x in rfoldl f acc' l' end.

Definition default_disposition : dict := [("pass", PStr "allow"); ("warning", PStr "review"); ("alert", PStr "deny")].

Definition dsl_version (data : dict) : result Z :=
  py_int (por (get data "dsl_version" PNone) (por (get data "version" PNone) (PInt 1))).

Definition eval_typology (data : dict) (hits : list string) (features registry : dict) (pin_match : bool) (spec : dict)
    : result (option typology_row) :=
  let tid := str_or_empty (get spec "id" PNone) in
  if negb (nonempty tid) then Ok None
  else
    let! w := py_float (por (get spec "weight_per_rule_hit" PNone) (PFloat (litZ 1))) in
    let! members := iter_or_empty (get spec "member_rule_ids" PNone) in
    let contributing := List.filter (fun m => mem m hits) (map py_str members) in
    let! n := f_of_Z (Z.of_nat (length contributing)) in
    let! preds := iter_or_empty (get spec "feature_predicates" PNone) in
    let! (score, contrib) := rfoldl (eval_predicate features registry pin_match) (fmul n w, []) preds in
    let! thr := need_dict (por (get spec "breach_thresholds" PNone) (PDict [])) in
    let! warn := py_float (get thr "warning" (PInt 50)) in
    let! alert := py_float (get thr "alert" (PInt 80)) in
    let level := _breach_level score warn alert in
    let! disp := need_dict (por (get spec "disposition" PNone) (PDict default_disposition)) in
    let! dsl := dsl_version data in
    Ok (Some (Typology tid (py_str (por (get spec "label" PNone) (PStr tid))) (f_round score 4) level warn alert contributing contrib
                (py_str (por (get disp level PNone) (PStr "review"))) dsl)).

(** The registry's version and whether the pin matches it. *)
Definition registry_pin (data registry : dict) : result (Z * bool) :=
  let! reg_ver := py_int (por (get registry "version" PNone) (PInt 0)) in
  let! pin := (match get data "predicate_registry_pin" PNone with PNone => Ok reg_ver | v => py_int v end) in
  Ok (reg_ver, reg_ver =? pin).

Definition evaluate_typologies (data registry : dict) (rule_hits : list string) (features : dict) : result (list typology_row) :=
  let! (_, pin_match) := registry_pin data registry in
  let! specs := iter_or_empty (get data "typologies" PNone) in
  let! rows := rmapM (fun v => let! spec := need_dict v in eval_typology data rule_hits features registry pin_match spec) specs in
  Ok (filter_map (fun o => o) rows).

Record typology_summary : Type := Summary { ts_highest : string; ts_disposition : string; ts_driver : option string }.

(** [max(rows, key=score)]: the first of the greatest. *)
Fixpoint max_by_score (best : typology_row) (rows : list typology_row) : typology_row :=
  match rows with
  | [] => best
  | r :: rows' => max_by_score (if fltb best.(ty_score) r.(ty_score) then r else best) rows'
  end.

Definition of_level (level : string) (rows : list typology_row) : list typology_row :=
  List.filter (fun r => bool_decide (r.(ty_breach_level) = level)) rows.

Definition summarize_typologies (rows : list typology_row) : typology_summary :=
  match of_level "alert" rows with
  | a :: alerts => let best := max_by_score a alerts in Summary "alert" best.(ty_disposition) (Some best.(ty_id))
  | [] => match of_level "warning" rows with
          | w :: warns => let best := max_by_score w warns in Summary "warning" best.(ty_disposition) (Some best.(ty_id))
          | [] => Summary "pass" "allow" None
          end
  end.

(** * The identity of the policy set *)

Definition POLICY_SET_SCHEMA : string := "tarka.policy_set/v1".

Definition _sha256_canonical (v : pyval) : string := sha256_hex (json_dumps (DumpOpts true true true) v).

Definition _pack_content_for_hash (pack : dict) : dict := List.filter (fun kv => negb (startswith kv.1 "_")) pack.

Record pack_row : Type := PackRow { pr_file : string; pr_name : string; pr_mode : string; pr_rule_count : Z; pr_sha256 : string }.

Definition row_of_pack (pack : dict) : pack_row :=
  PackRow (py_str (por (get pack "_source_file" PNone) (por (get pack "name" PNone) (PStr "pack")))) (str_or_empty (get pack "name" PNone))
    (py_str (por (get pack "mode" PNone) (PStr "active"))) (Z.of_nat (length (as_list (get pack "rules" PNone))))
    (_sha256_canonical (PDict (_pack_content_for_hash pack))).

Definition row_le (a b : pack_row) : Prop := String.le a.(pr_file) b.(pr_file).
#[export] Instance row_le_dec : RelDecision row_le.
Proof. intros a b. unfold row_le. apply _. Defined.

Definition _json_pack_rows (s : store) : list pack_row := merge_sort row_le (map row_of_pack (get_active_packs_snapshot s)).

Definition TYPOLOGY_FILE : string := "typology_definitions_v1.json".

(** Version, number of typologies and digest. *)
Definition _typology_component (data : pyval) : result (Z * Z * string) :=
  let d := as_dict data in
  let! v := (if is_dict data then py_int (get d "version" (PInt 1)) else Ok 1) in
  Ok (v, Z.of_nat (length (as_list (get d "typologies" PNone))), _sha256_canonical (PDict d)).

Definition _challenge_row (policies : dict) (pid : string) : result (string * Z * string) :=
  let p := as_dict (get policies pid PNone) in
  let! v := py_int (get p "version" (PInt 1)) in
  Ok (pid, v, _sha256_canonical (PDict p)).

Definition _challenge_rows (policies : dict) : result (list (string * Z * string)) := rmapM (_challenge_row policies) (sorted_ids policies).

Definition pack_row_dict (r : pack_row) : pyval :=
  PDict [("file", PStr r.(pr_file)); ("name", PStr r.(pr_name)); ("mode", PStr r.(pr_mode)); ("rule_count", PInt r.(pr_rule_count));
         ("sha256", PStr r.(pr_sha256))].

Definition identity (packs : list pack_row) (typology : string) (challenge : list (string * Z * string)) : pyval :=
  PDict [("json_packs", PList (map (fun r => PDict [("file", PStr r.(pr_file)); ("sha256", PStr r.(pr_sha256))]) packs));
         ("typology", PDict [("file", PStr TYPOLOGY_FILE); ("sha256", PStr typology)]);
         ("challenge_policies", PList (map (fun r => PDict [("policy_id", PStr r.1.1); ("sha256", PStr r.2)]) challenge))].

(** The manifest of the artifacts in memory. *)
Definition manifest_of (s : store) (typology : pyval) (policies : dict) : result dict :=
  let packs := _json_pack_rows s in
  let! (v, count, digest) := _typology_component typology in
  let! challenge := _challenge_rows policies in
  Ok [("schema", PStr POLICY_SET_SCHEMA); ("policy_set_id", PStr (_sha256_canonical (identity packs digest challenge)));
      ("components", PDict [("json_packs", PList (map pack_row_dict packs));
         ("typology", PDict [("file", PStr TYPOLOGY_FILE); ("version", PInt v); ("typology_count", PInt count); ("sha256", PStr digest)]);
         ("challenge_policies", PList (map (fun r => PDict [("policy_id", PStr r.1.1); ("version", PInt r.1.2); ("sha256", PStr r.2)]) challenge))]);
      ("counts", PDict [("json_packs", PInt (Z.of_nat (length packs))); ("typologies", PInt count);
                        ("challenge_policies", PInt (Z.of_nat (length challenge)))])].

(** The globals of the three modules; the generation is the pack store's. *)
Record policy_state : Type := PolicyState {
  ps_store : store; ps_typology : option pyval; ps_policies : option dict; ps_cache : option dict; ps_cache_generation : Z }.

(** The files as they are now. *)
Record policy_files : Type := PolicyFiles {
  pf_rules : option (list (string * file_read)); pf_typology : option file_read; pf_challenge : option (list (string * file_read)) }.

(** [bump_policy_set_generation()] *)
Definition bump (p : policy_state) : policy_state :=
  PolicyState (bump_policy_set_generation p.(ps_store)) p.(ps_typology) p.(ps_policies) None (-1).

Definition load_challenge_policies (force : bool) (fs : policy_files) (p : policy_state) : policy_state :=
  match p.(ps_policies), force with
  | Some _, false => p
  | _, _ => bump (PolicyState p.(ps_store) p.(ps_typology) (Some (read_policies fs.(pf_challenge))) p.(ps_cache) p.(ps_cache_generation))
  end.

(** [load_typology_definitions()]: kept once read. *)
Definition ensure_typology (fs : policy_files) (p : policy_state) : policy_state * result pyval :=
  match p.(ps_typology) with
  | Some v => (p, Ok v)
  | None => match load_typology_definitions fs.(pf_typology) with
            | Ok v => (PolicyState p.(ps_store) (Some v) p.(ps_policies) p.(ps_cache) p.(ps_cache_generation), Ok v)
            | Err e => (p, Err e)
            end
  end.

Definition reload_typology_definitions (fs : policy_files) (p : policy_state) : policy_state * result unit :=
  match ensure_typology fs (PolicyState p.(ps_store) None p.(ps_policies) p.(ps_cache) p.(ps_cache_generation)) with
  | (p', Ok _) => (bump p', Ok tt)
  | (p', Err e) => (p', Err e)
  end.

(** [load_rules()], whose successful loads end in a bump. *)
Definition reload_rules (fs : policy_files) (p : policy_state) : policy_state * result unit :=
  match load_rules p.(ps_store) fs.(pf_rules) with
  | (s, Ok _) => (PolicyState s p.(ps_typology) p.(ps_policies) None (-1), Ok tt)
  | (s, Err e) => (PolicyState s p.(ps_typology) p.(ps_policies) p.(ps_cache) p.(ps_cache_generation), Err e)
  end.

(** The first use of typologies and challenge policies loads them. *)
Definition build_policy_set_manifest (fs : policy_files) (p : policy_state) : policy_state * result dict :=
  match ensure_typology fs p with
  | (p1, Err e) => (p1, Err e)
  | (p1, Ok typology) =>
      match _typology_component typology with
      | Err e => (p1, Err e)
      | Ok _ =>
          let p2 := load_challenge_policies false fs p1 in
          (p2, manifest_of p2.(ps_store) typology (default [] p2.(ps_policies)))
      end
  end.

Definition fresh_manifest (fs : policy_files) (p : policy_state) : policy_state * result dict :=
  match build_policy_set_manifest fs p with
  | (p', Ok m) => (PolicyState p'.(ps_store) p'.(ps_typology) p'.(ps_policies) (Some m) p'.(ps_store).(generation), Ok m)
  | (p', Err e) => (p', Err e)
  end.

Definition get_policy_set_manifest (force : bool) (fs : policy_files) (p : policy_state) : policy_state * result dict :=
  match p.(ps_cache) with
  | Some m => if negb force && (p.(ps_cache_generation) =? p.(ps_store).(generation)) then (p, Ok m) else fresh_manifest fs p
  | None => fresh_manifest fs p
  end.

Definition current_policy_set_id (fs : policy_files) (p : policy_state) : policy_state * result string :=
  let '(p', r) := get_policy_set_manifest false fs p in (p', rmap (fun m => str_or_empty (get m "policy_set_id" PNone)) r).

(** * Theorems *)

(** ** The first rule that applies *)

Lemma first_rule_spec decision ctx tags payload rules : forall i r,
  first_rule decision ctx tags payload i rules = Ok r ->
  let applies := rule_applies decision ctx tags payload in
  match r with
  | None => Forall (fun v => exists d, v = PDict d /\ applies d = Ok false) rules
  | Some (j, d) => exists before after, rules = before ++ PDict d :: after /\ j = i + Z.of_nat (length before) /\ applies d = Ok true
                     /\ Forall (fun v => exists d', v = PDict d' /\ applies d' = Ok false) before
  end.
Proof.
  induction rules as [|v rules IH]; intros i r H; cbn [first_rule] in H; [apply Ok_inj in H; subst r; constructor|].
  destruct v as [| | | | | |d]; try done. cbn [need_dict rbind] in H. destruct (rule_applies decision ctx tags payload d) as [b|] eqn:Ea; [|done].
  cbn [rbind] in H. destruct b.
  - apply Ok_inj in H. subst r. exists [], rules. cbn. split; [done|]. split; [lia|]. split; [done|constructor].
  - apply IH in H. destruct r as [[j d']|].
    + destruct H as (before & after & -> & -> & Ht & Hf). exists (PDict d :: before), after. cbn [length app]. split; [done|]. split; [lia|].
      split; [done|]. constructor; [eauto|done].
    + constructor; [eauto|done].
Qed.

(** A challenge policy recommends the action of its first applicable rule.
    When a loaded policy answers, either a rule matched, all earlier rules did
    not, and its action and index are reported, or no rule matches and the
    policy's default or the base action is returned. *)
Theorem challenge_first_match policy meta base decision ctx tags payload a m :
  run_policy policy meta base decision ctx tags payload = Ok (a, m) ->
  exists rules, iter_or_empty (get policy "rules" PNone) = Ok rules
    /\ let applies := rule_applies decision ctx tags payload in
       (exists before d after, rules = before ++ PDict d :: after /\ applies d = Ok true
          /\ Forall (fun v => exists d', v = PDict d' /\ applies d' = Ok false) before
          /\ a = opt_action (get d "recommended_action" PNone) /\ m.(cm_rule_index) = Some (Z.of_nat (length before)))
       \/ (Forall (fun v => exists d, v = PDict d /\ applies d = Ok false) rules /\ a = default_action policy base /\ m.(cm_rule_index) = None).
Proof.
  unfold run_policy. intros H. apply rbind_Ok in H as (ladder & _ & H). apply rbind_Ok in H as (rules & Hr & H). apply rbind_Ok in H as (hit & Hh & H).
  apply Ok_inj in H. exists rules. split; [done|]. cbv zeta in H |- *. apply first_rule_spec in Hh. destruct hit as [[j d]|]; injection H as <- <-.
  - destruct Hh as (before & after & -> & -> & Ht & Hf). left. exists before, d, after. repeat (split; [done|]). done.
  - right. done.
Qed.

Definition step_up_policy : dict :=
  [("policy_id", PStr "default_v1"); ("rules", PList
     [PDict [("id", PStr "big"); ("when", PDict [("decision", PStr "review"); ("min_amount", PInt 1000)]); ("recommended_action", PStr "step_up")];
      PDict [("id", PStr "any"); ("recommended_action", PStr "captcha")]])].

Lemma challenge_first_match_witness :
  exists m, run_policy step_up_policy (Meta "default_v1" None "default_v1" PNone None [] "default" None None) None "review" [] []
      [("amount", PInt 5)] = Ok (Some "captcha", m) /\ m.(cm_rule_index) = Some 1.
Proof.
  destruct (run_policy step_up_policy (Meta "default_v1" None "default_v1" PNone None [] "default" None None) None "review" [] [] [("amount", PInt 5)])
    as [[a m]|] eqn:E; [|revert E; vm_compute; discriminate].
  pose proof (challenge_first_match _ _ _ _ _ _ _ _ _ E) as (rules & Hr & H). exists m. revert E. vm_compute. intros E. injection E as <- <-. split; reflexivity.
Defined.

(** An amount that is not a number meets every lower and every upper bound. *)
Example nan_amount_matches :
  _matches_when [("min_amount", PInt 1000); ("max_amount", PInt 1)] "review" [] [] [("amount", PStr "nan")] = Ok true.
Proof. vm_compute. reflexivity. Qed.

(** An integer beyond the floats raises out of the policy. *)
Example huge_amount_raises :
  _matches_when [("min_amount", PInt 1000)] "review" [] [] [("amount", PInt (2 ^ 1024))] = Err OverflowError.
Proof. vm_compute. reflexivity. Qed.

(** ** The worst typology *)

Lemma max_by_score_spec rows : forall best,
  Forall (fun r => is_nan r.(ty_score) = false) (best :: rows) ->
  max_by_score best rows ∈ best :: rows /\ Forall (fun r => fleb r.(ty_score) (max_by_score best rows).(ty_score) = true) (best :: rows).
Proof.
  induction rows as [|r rows IH]; intros best H; inversion H as [|? ? Hb Hr]; subst.
  - split; [left|]. constructor; [by apply fleb_refl|constructor].
  - inversion Hr as [|? ? Hr1 Hrs]; subst. cbn [max_by_score]. destruct (fltb (ty_score best) (ty_score r)) eqn:E.
    + destruct (IH r ltac:(by constructor)) as [Hin Hall]. inversion Hall as [|? ? H1 H2]; subst. split; [by right|].
      constructor; [|by constructor]. eapply fleb_trans; [by apply fltb_fleb|done].
    + destruct (IH best ltac:(by constructor)) as [Hin Hall]. inversion Hall as [|? ? H1 H2]; subst. split.
      * apply elem_of_cons in Hin as [-> |Hin]; [left|right; by right].
      * constructor; [done|]. constructor; [|done]. eapply fleb_trans; [|done]. rewrite fleb_negb_fltb by done. by rewrite E.
Qed.

Definition rank (level : string) : Z := if bool_decide (level = "alert") then 2 else if bool_decide (level = "warning") then 1 else 0.

Lemma of_level_elem level rows r : r ∈ of_level level rows <-> r ∈ rows /\ r.(ty_breach_level) = level.
Proof. unfold of_level. rewrite filter_elem. by rewrite bool_decide_eq_true. Qed.

Lemma summary_of_level level rows r0 rest r1 :
  of_level level rows = r0 :: rest -> Forall (fun r => is_nan r.(ty_score) = false) rows -> r1 = max_by_score r0 rest ->
  r1 ∈ rows /\ r1.(ty_breach_level) = level /\ forall r, r ∈ rows -> r.(ty_breach_level) = level -> fleb r.(ty_score) r1.(ty_score) = true.
Proof.
  intros E Hn ->. assert (Hl : Forall (fun r => is_nan r.(ty_score) = false) (r0 :: rest)).
  { rewrite <- E. apply Forall_forall. intros r [Hr _]%of_level_elem. rewrite Forall_forall in Hn. by apply Hn. }
  destruct (max_by_score_spec rest r0 Hl) as [Hin Hall]. rewrite <- E in Hin, Hall. apply of_level_elem in Hin as [Hin Hlev].
  split; [done|]. split; [done|]. intros r Hr Hrl. rewrite Forall_forall in Hall. apply Hall. by apply of_level_elem.
Qed.

(** The typology summary is the worst row.  No row breaches more than the
    level reported, and when a typology is named it breaches that level with the
    greatest score of it and its disposition is the one recommended. *)
Theorem typology_summary_exact rows :
  Forall (fun r => is_nan r.(ty_score) = false) rows ->
  let s := summarize_typologies rows in
  (forall r, r ∈ rows -> rank r.(ty_breach_level) <= rank s.(ts_highest))
  /\ match s.(ts_driver) with
     | None => s.(ts_highest) = "pass" /\ s.(ts_disposition) = "allow"
     | Some id => exists r, r ∈ rows /\ r.(ty_id) = id /\ r.(ty_breach_level) = s.(ts_highest) /\ s.(ts_disposition) = r.(ty_disposition)
                    /\ forall r', r' ∈ rows -> r'.(ty_breach_level) = s.(ts_highest) -> fleb r'.(ty_score) r.(ty_score) = true
     end.
Proof.
  intros Hn. cbv zeta. unfold summarize_typologies. destruct (of_level "alert" rows) as [|a alerts] eqn:Ea.
  - destruct (of_level "warning" rows) as [|w warns] eqn:Ew; cbn [ts_highest ts_driver ts_disposition].
    + split; [|done]. intros r Hr. unfold rank. case_bool_decide as E; [|case_bool_decide as E2; [|done]].
      * assert (Hin : r ∈ of_level "alert" rows) by (by apply of_level_elem). rewrite Ea in Hin. by apply not_elem_of_nil in Hin.
      * assert (Hin : r ∈ of_level "warning" rows) by (by apply of_level_elem). rewrite Ew in Hin. by apply not_elem_of_nil in Hin.
    + split.
      * intros r Hr. unfold rank. case_bool_decide as E; [|by case_bool_decide].
        assert (Hin : r ∈ of_level "alert" rows) by (by apply of_level_elem). rewrite Ea in Hin. by apply not_elem_of_nil in Hin.
      * destruct (summary_of_level _ _ _ _ _ Ew Hn eq_refl) as (H1 & H2 & H3). eexists. by repeat split.
  - cbn [ts_highest ts_driver ts_disposition]. split.
    + intros r Hr. unfold rank. repeat case_bool_decide; lia || done.
    + destruct (summary_of_level _ _ _ _ _ Ea Hn eq_refl) as (H1 & H2 & H3). eexists. by repeat split.
Qed.

Lemma typology_summary_exact_witness :
  let row id level n := Typology id id (litZ n) level (litZ 50) (litZ 80) [] [] "deny" 1 in
  (summarize_typologies [row "a" "warning" 60; row "b" "alert" 81; row "c" "alert" 95]).(ts_driver) = Some "c"
  /\ forall r, r ∈ [row "a" "warning" 60; row "b" "alert" 81; row "c" "alert" 95] -> rank r.(ty_breach_level) <= 2.
Proof.
  split; [vm_compute; reflexivity|].
  refine (proj1 (typology_summary_exact [Typology "a" "a" (litZ 60) "warning" (litZ 50) (litZ 80) [] [] "deny" 1;
    Typology "b" "b" (litZ 81) "alert" (litZ 50) (litZ 80) [] [] "deny" 1; Typology "c" "c" (litZ 95) "alert" (litZ 50) (litZ 80) [] [] "deny" 1] _)).
  repeat constructor.
Defined.

(** ** The cached identity is current *)

Inductive policy_op : Type :=
| ReloadRules (fs : policy_files)
| SetSandboxPack (pack : option dict) (fs : policy_files)
| LoadChallenge (force : bool) (fs : policy_files)
| ReloadTypology (fs : policy_files)
| UseTypology (fs : policy_files)
| Manifest (force : bool) (fs : policy_files).

Definition with_store (s : store) (p : policy_state) : policy_state :=
  PolicyState s p.(ps_typology) p.(ps_policies) p.(ps_cache) p.(ps_cache_generation).

Definition policy_step (p : policy_state) (op : policy_op) : policy_state :=
  match op with
  | ReloadRules fs => (reload_rules fs p).1
  | SetSandboxPack pack fs => (reload_rules fs (with_store (preload_plg_sandbox_runtime_pack p.(ps_store) pack) p)).1
  | LoadChallenge force fs => load_challenge_policies force fs p
  | ReloadTypology fs => (reload_typology_definitions fs p).1
  | UseTypology fs => (ensure_typology fs p).1
  | Manifest force fs => (get_policy_set_manifest force fs p).1
  end.

(** A reload of typology definitions finds text it can decode. *)
Definition readable (op : policy_op) : Prop := match op with ReloadTypology fs => fs.(pf_typology) <> Some NotUtf8 | _ => True end.

(** A cache in use is the manifest of what is loaded. *)
Definition coherent (p : policy_state) : Prop :=
  forall m, p.(ps_cache) = Some m -> p.(ps_cache_generation) = p.(ps_store).(generation) ->
  exists ty pol, p.(ps_typology) = Some ty /\ p.(ps_policies) = Some pol /\ manifest_of p.(ps_store) ty pol = Ok m.

Lemma coherent_none p : p.(ps_cache) = None -> coherent p.
Proof. intros H m Hm. congruence. Qed.

Lemma manifest_plg s pack ty pol : manifest_of (preload_plg_sandbox_runtime_pack s pack) ty pol = manifest_of s ty pol.
Proof. reflexivity. Qed.

Lemma load_rules_same s dir s' e : load_rules s dir = (s', Err e) -> s' = s.
Proof. unfold load_rules. destruct dir as [files|]; [|done]. destruct (load_files _ _); [done|]. by intros [= <- _]. Qed.

Lemma reload_rules_coherent fs p : coherent p -> coherent (reload_rules fs p).1.
Proof.
  intros H. unfold reload_rules. destruct (load_rules (ps_store p) (pf_rules fs)) as [s [u|e]] eqn:E; [by apply coherent_none|].
  apply load_rules_same in E. subst s. exact H.
Qed.

Lemma load_challenge_coherent force fs p : coherent p -> coherent (load_challenge_policies force fs p).
Proof. intros H. unfold load_challenge_policies. destruct (ps_policies p), force; try done; by apply coherent_none. Qed.

Lemma ensure_typology_coherent fs p : coherent p -> coherent (ensure_typology fs p).1.
Proof.
  intros H. unfold ensure_typology. destruct (ps_typology p) as [v|] eqn:Et; [done|]. destruct (load_typology_definitions _); [|done].
  intros m Hm Hg. destruct (H m Hm Hg) as (ty & pol & Hty & _). congruence.
Qed.

Lemma ensure_typology_Ok fs p p' v : ensure_typology fs p = (p', Ok v) ->
  p'.(ps_typology) = Some v /\ p'.(ps_store) = p.(ps_store) /\ p'.(ps_policies) = p.(ps_policies).
Proof.
  unfold ensure_typology. destruct (ps_typology p) as [v'|] eqn:Et; [by intros [= <- <-]|]. destruct (load_typology_definitions _); [|done]. by intros [= <- <-].
Qed.

Lemma challenge_loaded fs p : exists pol, (load_challenge_policies false fs p).(ps_policies) = Some pol.
Proof. unfold load_challenge_policies. destruct (ps_policies p) as [pol|] eqn:E; [by exists pol|]. by eexists. Qed.

Lemma challenge_typology force fs p : (load_challenge_policies force fs p).(ps_typology) = p.(ps_typology).
Proof. unfold load_challenge_policies. by destruct (ps_policies p), force. Qed.

Lemma built_manifest fs p p' m : build_policy_set_manifest fs p = (p', Ok m) ->
  exists ty pol, p'.(ps_typology) = Some ty /\ p'.(ps_policies) = Some pol /\ manifest_of p'.(ps_store) ty pol = Ok m.
Proof.
  unfold build_policy_set_manifest. destruct (ensure_typology fs p) as [p1 [ty|e]] eqn:Ee; [|done]. destruct (_typology_component ty); [|done].
  intros [= <- Hm]. destruct (challenge_loaded fs p1) as [pol Hp]. exists ty, pol. rewrite challenge_typology. apply ensure_typology_Ok in Ee as (Ht & _).
  split; [done|]. split; [done|]. by rewrite Hp in Hm.
Qed.

Lemma build_coherent fs p : coherent p -> coherent (build_policy_set_manifest fs p).1.
Proof.
  intros H. unfold build_policy_set_manifest. pose proof (ensure_typology_coherent fs p H) as H1. destruct (ensure_typology fs p) as [p1 [ty|e]]; [|done].
  destruct (_typology_component ty); [|done]. by apply load_challenge_coherent.
Qed.

Lemma fresh_coherent fs p : coherent p -> coherent (fresh_manifest fs p).1.
Proof.
  intros H. unfold fresh_manifest. pose proof (build_coherent fs p H) as H1. destruct (build_policy_set_manifest fs p) as [p' [m|e]] eqn:E; [|done].
  intros m' [= <-] _. by apply built_manifest in E.
Qed.

Lemma policy_step_coherent p op : coherent p -> readable op -> coherent (policy_step p op).
Proof.
  intros H Hr. destruct op as [fs|pack fs|force fs|fs|fs|force fs]; cbn [policy_step].
  - by apply reload_rules_coherent.
  - apply reload_rules_coherent. intros m Hm Hg. exact (H m Hm Hg).
  - by apply load_challenge_coherent.
  - cbn in Hr. unfold reload_typology_definitions, ensure_typology. cbn [ps_typology]. unfold load_typology_definitions, load_or.
    destruct (pf_typology fs) as [[v| |]|]; try done; by apply coherent_none.
  - by apply ensure_typology_coherent.
  - unfold get_policy_set_manifest. destruct (ps_cache p); [|by apply fresh_coherent]. destruct (_ && _); [done|by apply fresh_coherent].
Qed.

(** C23: the policy-set identity is not stale as long as reloads can be read.
    Starting without a cached manifest, through any reloads of rules, sandbox
    packs, challenge policies and typology definitions, each of the latter finding
    text that decodes or no file, and any uses in between, a manifest that is
    handed out, cached or not, is the manifest of the packs, typologies and
    policies in memory when it is handed out. *)
Theorem manifest_current p0 ops fs p' m :
  p0.(ps_cache) = None -> Forall readable ops ->
  get_policy_set_manifest false fs (foldl policy_step p0 ops) = (p', Ok m) ->
  exists ty pol, p'.(ps_typology) = Some ty /\ p'.(ps_policies) = Some pol /\ manifest_of p'.(ps_store) ty pol = Ok m.
Proof.
  intros H0 Hr. assert (Hc : coherent (foldl policy_step p0 ops)).
  { apply coherent_none in H0. revert p0 H0. induction Hr as [|op ops Hop Hops IH]; intros p0 H0; [done|]. apply IH. by apply policy_step_coherent. }
  unfold get_policy_set_manifest. set (p := foldl policy_step p0 ops) in *. intros H. assert (Hf : fresh_manifest fs p = (p', Ok m) ->
    exists ty pol, p'.(ps_typology) = Some ty /\ p'.(ps_policies) = Some pol /\ manifest_of p'.(ps_store) ty pol = Ok m).
  { unfold fresh_manifest. destruct (build_policy_set_manifest fs p) as [p1 [m1|e]] eqn:E; [|done]. intros [= <- <-]. by apply built_manifest in E. }
  destruct (ps_cache p) as [mc|] eqn:Ec; [|by apply Hf]. cbn [negb andb] in H. destruct (Z.eqb_spec (ps_cache_generation p) (generation (ps_store p))) as [Eg|]; [|by apply Hf].
  injection H as <- <-. exact (Hc mc Ec Eg).
Qed.

Definition blank_state : policy_state := PolicyState (MkStore [] [] [] None 0) None None None (-1).
Definition files_with (pack : dict) (typology : option file_read) : policy_files := PolicyFiles (Some [("p.json", Document (PDict pack))]) typology None.

Definition demo_files (n : string) : policy_files := files_with [("name", PStr n)] None.
Definition demo_state : policy_state :=
  foldl policy_step blank_state [ReloadRules (demo_files "a"); Manifest false (demo_files "a"); ReloadRules (demo_files "b")].

Lemma manifest_current_witness :
  exists p' m ty pol, get_policy_set_manifest false (demo_files "b") demo_state = (p', Ok m) /\ manifest_of p'.(ps_store) ty pol = Ok m.
Proof.
  assert (Ht : is_ok (get_policy_set_manifest false (demo_files "b") demo_state).2 = true) by (vm_compute; reflexivity).
  destruct (get_policy_set_manifest false (demo_files "b") demo_state) as [p' [m|e]] eqn:E; [|discriminate Ht].
  destruct (manifest_current blank_state [ReloadRules (demo_files "a"); Manifest false (demo_files "a"); ReloadRules (demo_files "b")]
    (demo_files "b") p' m eq_refl ltac:(repeat constructor) E) as (ty & pol & _ & _ & H).
  exists p', m, ty, pol. split; [reflexivity|exact H].
Defined.

(** After a typology reload that cannot be decoded, the next use loads whatever
    is there then, under the identity of the definitions before. *)
Example stale_after_failed_reload :
  let fs t := PolicyFiles (Some []) (Some t) None in
  let defs n := Document (PDict [("version", PInt n); ("typologies", PList [])]) in
  let p := foldl policy_step blank_state [Manifest false (fs (defs 1)); ReloadTypology (fs NotUtf8); UseTypology (fs (defs 2))] in
  is_ok (get_policy_set_manifest false (fs (defs 2)) p).2 = true
  /\ (current_policy_set_id (fs (defs 2)) p).2 = (current_policy_set_id (fs (defs 1)) (policy_step blank_state (Manifest false (fs (defs 1))))).2
  /\ p.(ps_typology) = Some (PDict [("version", PInt 2); ("typologies", PList [])]).
Proof. vm_compute. done. Qed.
