(* ===== verification/PackCanary.v ===== *)
(** The observe-only pack canary of [decision_api/pack_canary.py] and the two
    places of [decision_api/evaluate/pipeline.py] that use it.

    A fraction of the traffic, or any request that carries the header, has a
    candidate pack evaluated right after the live packs, in the same process and
    through the same engine.  The file system is a function from a normalised
    path to what reading it gives; the rules directory is the listing that
    [JsonRules] loads. *)

From Stdlib Require Import ZArith Lia Ascii String Bool SpecFloat.
From stdpp Require Import base option list sorting strings gmap.
From S2P Require Import Prelude PyFloat PyValue RuleMatch GraphContract AstRules SignalResolver JsonRules Circuit PackEvaluator Score.
Import GraphContract.Contract JsonRules.Rollout JsonRules.Store JsonRules.Telemetry.
Local Open Scope Z_scope.

(** * Paths: what the module uses of [pathlib] *)

Record path : Type := MkPath { root : string; parts : list string }.

Definition path_of (s : string) : path :=
  MkPath (if startswith s "//" && negb (startswith s "///") then "//" else if startswith s "/" then "/" else "")
    (List.filter (fun p => nonempty p && negb (bool_decide (p = "."))) (split_on "/"%char s)).

(** [a / b]: an absolute [b] wins. *)
Definition path_join (a b : path) : path :=
  if nonempty b.(root) then b else MkPath a.(root) (a.(parts) ++ b.(parts)).

Definition path_show (p : path) : string := str_or (p.(root) +:+ sjoin "/" p.(parts)) ".".

Definition path_name (p : path) : string := default "" (last p.(parts)).

(** [Path(...).stem]: the name up to its last dot, unless that dot is the first or last character. *)
Definition stem (name : string) : string :=
  let l := split_on "."%char name in
  let front := sjoin "." (removelast l) in
  if nonempty front && nonempty (default "" (last l)) then front else name.

(** * Settings and the request *)

Record canary_settings : Type := CanarySettings {
  pack_canary_percent : float; pack_canary_pack_id : string; pack_canary_path : string; rules_path : string;
  canary_thresholds : thresholds }.

(** The files of the process: any path, and the rules directory ([None]: no such directory). *)
Record canary_files : Type := CanaryFiles {
  cf_path : string -> option file_read; cf_rules : option (list (string * file_read)) }.

Definition configured_percent (cs : canary_settings) : float := fclamp f_zero (litZ 100) cs.(pack_canary_percent).
Definition configured_pack_id (cs : canary_settings) : string := strip cs.(pack_canary_pack_id).
Definition configured_pack_path (cs : canary_settings) : string := strip cs.(pack_canary_path).

(** [header] is the request's [x-tarka-pack-canary]. *)
Definition header_forces_candidate (header : option string) : bool := env_on (opt_str header).

Definition canary_requested (cs : canary_settings) (header : option string) : bool :=
  fltb f_zero (configured_percent cs) || header_forces_candidate header.

(** * The candidate *)

(** The pack in a file; a read that is not UTF-8 raises. *)
Definition loaded_pack (name : string) (read : option file_read) : result (option dict) :=
  match read with
  | Some (Document (PDict pack)) => Ok (Some (dict_setdefault "_source_file" (PStr name) pack))
  | Some NotUtf8 => Err ValueError
  | _ => Ok None
  end.

Definition _load_pack_file (fs : canary_files) (p : string) : result (option dict) :=
  loaded_pack (path_name (path_of p)) (fs.(cf_path) (path_show (path_of p))).

Definition _pack_matches (pack : dict) (pack_id : string) : bool :=
  let src := str_or_empty (get pack "_source_file" PNone) in
  nonempty pack_id
  && mem pack_id [strip (str_or_empty (get pack "id" PNone)); strip (str_or_empty (get pack "name" PNone));
                  src; path_name (path_of src); stem (path_name (path_of src))].

Definition looks_like_path (pack_id : string) : bool :=
  endswith pack_id ".json" || contains "/" pack_id || contains (String backslash "") pack_id.

(** The scan of the rules directory, in the order of its names. *)
Fixpoint find_in_rules (pack_id : string) (files : list (string * file_read)) : result (list dict) :=
  match files with
  | [] => Ok []
  | (name, read) :: files' =>
      let named := bool_decide (name = pack_id) || bool_decide (stem name = pack_id)
                   || bool_decide (name = pack_id +:+ ".json") in
      let! loaded := loaded_pack name (Some read) in
      if named then Ok (option_list loaded)
      else match loaded with
           | Some pack => if _pack_matches pack pack_id then Ok [pack] else find_in_rules pack_id files'
           | None => find_in_rules pack_id files'
           end
  end.

(** The packs in memory, then the rules directory. *)
Definition find_by_id (s : store) (fs : canary_files) (pack_id : string) : result (list dict) :=
  match List.find (fun p => _pack_matches p pack_id) (get_active_packs_snapshot s ++ get_shadow_packs s) with
  | Some pack => Ok [pack]
  | None => find_in_rules pack_id (merge_sort name_le (default [] fs.(cf_rules)))
  end.

Definition resolve_candidate_packs (cs : canary_settings) (s : store) (fs : canary_files) : result (list dict) :=
  let p := configured_pack_path cs in
  let pack_id := configured_pack_id cs in
  if nonempty p then let! loaded := _load_pack_file fs p in Ok (option_list loaded)
  else if negb (nonempty pack_id) then Ok []
  else if looks_like_path pack_id then
    let! here := _load_pack_file fs pack_id in
    match here with
    | Some pack => Ok [pack]
    | None =>
        let! there := _load_pack_file fs (path_show (path_join (path_of cs.(rules_path)) (path_of pack_id))) in
        match there with
        | Some pack => Ok [pack]
        | None => find_by_id s fs pack_id
        end
    end
  else find_by_id s fs pack_id.

Definition _fail_closed {A : Type} : result A := Err (http 503 "pack_canary_candidate_missing").

Definition ensure_pack_canary_ready (cs : canary_settings) (s : store) (fs : canary_files) (header : option string)
    : result unit :=
  if negb (canary_requested cs header) then Ok tt
  else let! packs := resolve_candidate_packs cs s fs in
       match packs with [] => _fail_closed | _ => Ok tt end.

Definition _in_percent_sample (tenant_id entity_id pack_key : string) (percent : float) : bool :=
  if fleb (litZ 100) percent then true
  else if fleb percent f_zero then false
  else match cmp_Z_float (_pack_experiment_bucket tenant_id entity_id ("pack_canary:" +:+ pack_key)) percent with
       | Some Lt => true
       | _ => false
       end.

(** * Observation *)

Definition observe_head : dict := [("observe_only", PBool true); ("mode", PStr "shadow"); ("flagger", PBool false)].

Definition candidate_score (delta : float) : float := clamp100 (fadd (litZ 10) delta).

Definition observed (ts : thresholds) (r : rule_tuple) : dict :=
  observe_head ++
  [("candidate_decision", PStr (decision_from_rule_score ts (candidate_score r.(rt_delta))));
   ("candidate_score", PFloat (candidate_score r.(rt_delta)));
   ("candidate_rule_hits", str_list r.(rt_hits)); ("candidate_tags", str_list r.(rt_tags));
   ("candidate_score_delta", PFloat r.(rt_delta)); ("candidate_pack_files", str_list r.(rt_contributing));
   ("live_verdict_source", PStr "live_pack")].

Definition eval_failed (name : string) : dict :=
  observe_head ++
  [("candidate_eval_failed", PBool true); ("error", PStr name); ("live_verdict_source", PStr "live_pack")].

(** The two exceptions the observation swallows. *)
Definition rust_failure (e : pyexn) : option string :=
  match e with
  | OtherError name =>
      if mem name ["RustRuleEngineCircuitOpenError"; "RustRuleEngineInvocationFailed"] then Some name else None
  | _ => None
  end.

Definition _evaluate_candidate (ev : eval_env) (ts : thresholds) (packs : list dict) (features : dict)
    (redis_tag_list : list string) (tenant_id entity_id : string) (signal_tags : list string) (st : engine)
    : engine * result dict :=
  let '(st', out) := evaluate_adhoc_packs_json ev packs features redis_tag_list (Some tenant_id) (Some entity_id)
                       "simulation" (Some signal_tags) false st in
  (st', match out with
        | Ok r => Ok (observed ts r)
        | Err e => match rust_failure e with Some name => Ok (eval_failed name) | None => Err e end
        end).

Definition candidate_key (cs : canary_settings) (pack : dict) : string :=
  str_or (configured_pack_id cs)
    (str_or (configured_pack_path cs)
       (py_str (por (get pack "_source_file" PNone) (por (get pack "name" PNone) (PStr "candidate"))))).

(** The fields added to an observation. *)
Definition stamped (cs : canary_settings) (pack_key : string) (forced : bool) (obs : dict) : dict :=
  obs ++ [("sampled", PBool (negb forced)); ("forced", PBool forced); ("percent", PFloat (configured_percent cs));
          ("pack_id", PStr (str_or (configured_pack_id cs) pack_key))]
      ++ (if nonempty (configured_pack_path cs) then [("pack_path", PStr (configured_pack_path cs))] else []).

Section observe.
Context (ev : eval_env) (cs : canary_settings) (fs : canary_files) (header : option string)
  (features : dict) (redis_tag_list : list string) (tenant_id entity_id : string) (signal_tags : list string).

Definition maybe_observe_candidate_pack (st : engine) : engine * result (option dict) :=
  let forced := header_forces_candidate header in
  let percent := configured_percent cs in
  if negb forced && fleb percent f_zero then (st, Ok None)
  else match resolve_candidate_packs cs st.(en_store) fs with
       | Err e => (st, Err e)
       | Ok [] => (st, _fail_closed)
       | Ok ((pack :: _) as packs) =>
           let pack_key := candidate_key cs pack in
           if negb forced && negb (_in_percent_sample tenant_id entity_id pack_key percent) then (st, Ok None)
           else let '(st', out) := _evaluate_candidate ev cs.(canary_thresholds) packs features redis_tag_list
                                     tenant_id entity_id signal_tags st in
                (st', rmap (fun obs => Some (stamped cs pack_key forced obs)) out)
       end.

(** The live evaluation of the request. *)
Definition live_rules (st : engine) : engine * result rule_tuple :=
  evaluate_json_rules ev features redis_tag_list (Some tenant_id) (Some entity_id) "production" (Some signal_tags) st.

(** The rule stage of the evaluate pipeline: the live packs, then the canary. *)
Definition rules_and_canary (st : engine) : engine * result (rule_tuple * option dict) :=
  match live_rules st with
  | (st', Err e) => (st', Err e)
  | (st', Ok r) => let '(st'', obs) := maybe_observe_candidate_pack st' in (st'', rmap (pair r) obs)
  end.

(** The stage behind the check at the top of the pipeline. *)
Definition canary_pipeline (st : engine) : engine * result (rule_tuple * option dict) :=
  match ensure_pack_canary_ready cs st.(en_store) fs header with
  | Err e => (st, Err e)
  | Ok _ => rules_and_canary st
  end.
End observe.

(** * Correctness *)

Definition uses_rust (ev : eval_env) : bool := should_use_rust_json_engine ev.(ev_setting) ev.(ev_available).

(** The engine metadata that a completed evaluation leaves. *)
Definition engine_meta (ev : eval_env) : string * bool :=
  if uses_rust ev then ("rust", false)
  else ("python", negb (bool_decide (_configured_json_rules_engine_mode ev.(ev_setting) = "python"))).

Lemma prune_below_shorter cut q : (length (Ffi.prune_below cut q) <= length q)%nat.
Proof. induction q as [|t q IH]; simpl; [lia|]. destruct (fltb t cut); simpl; lia. Qed.

Lemma prune_shorter cfg now q : (length (Ffi._prune cfg now q) <= length q)%nat.
Proof. apply prune_below_shorter. Qed.

(** A guarded call adds at most one failure. *)
Lemma guarded_call_adds_one {A} cfg now (call : option (unit -> option A)) q :
  (length (Ffi.guarded_call cfg now call q).1 <= S (length q))%nat.
Proof.
  unfold Ffi.guarded_call, Ffi.circuit_is_open, Ffi.failures_in_window.
  pose proof (prune_shorter cfg now q) as H1. set (q1 := Ffi._prune cfg now q) in *.
  destruct (_ <=? _); cbn [fst]; [lia|].
  destruct call as [fn|]; cbn [fst]; [|lia]. destruct (fn tt); cbn [fst]; [simpl; lia|].
  unfold Ffi.record_rust_ffi_failure. cbn [fst].
  pose proof (prune_shorter cfg now (Ffi._prune cfg now q1 ++ [now])) as H2.
  pose proof (prune_shorter cfg now q1) as H3. rewrite length_app in H2. simpl in H2. lia.
Qed.

Lemma finish_unrecorded ev st meta out :
  (finish ev st false meta out).1 = st
  \/ (finish ev st false meta out).1 = Engine st.(en_store) st.(en_tel) st.(en_ffi) meta.
Proof. unfold finish. destruct out; auto. Qed.

Lemma finish_ok ev st rec meta out st' r :
  finish ev st rec meta out = (st', Ok r) -> st'.(en_meta) = meta /\ st'.(en_ffi) = st.(en_ffi).
Proof.
  unfold finish. destruct out as [d|e]; [|done].
  destruct (if rec then _ else _) as [tel [[]|e]]; [|done]. by intros [= <- _].
Qed.

(** What an unrecorded evaluation leaves behind: the metadata of its engine and,
    through the extension, at most one more failure. *)
Lemma adhoc_frame ev packs F tags t e m sig st :
  st.(en_meta) = engine_meta ev ->
  exists q, (evaluate_adhoc_packs_json ev packs F tags t e m sig false st).1 = with_ffi st q
    /\ (if uses_rust ev then (length q <= S (length st.(en_ffi)))%nat else q = st.(en_ffi)).
Proof.
  intros Hm. unfold evaluate_adhoc_packs_json, engine_meta, uses_rust in *.
  destruct (should_use_rust_json_engine _ _).
  - destruct (evaluate_json_rules_via_rust _ _ _ _ _ _ _ _ _) as [q out] eqn:E.
    exists q. split.
    + destruct (finish_unrecorded ev (with_ffi st q) ("rust", false) out) as [-> | ->]; [done|].
      unfold with_ffi. cbn. by rewrite Hm.
    + unfold evaluate_json_rules_via_rust, ffi_result in E. injection E as <- _. apply guarded_call_adds_one.
  - exists st.(en_ffi). split; [|done]. destruct st as [s tel q m0]; cbn in *; subst m0.
    match goal with |- (finish ?ev ?st false ?meta ?out).1 = _ =>
      destruct (finish_unrecorded ev st meta out) as [-> | ->]; reflexivity end.
Qed.

(** A completed evaluation of the live packs leaves its metadata, and an empty
    failure window when the extension made it. *)
Lemma live_ok ev F tags t e m sig st st' r :
  evaluate_json_rules ev F tags t e m sig st = (st', Ok r) ->
  st'.(en_meta) = engine_meta ev /\ (uses_rust ev = true -> st'.(en_ffi) = []).
Proof.
  unfold evaluate_json_rules, engine_meta, uses_rust. destruct (should_use_rust_json_engine _ _).
  - destruct (evaluate_cached_packs_via_rust _ _ _ _ _ _ _ _ _) as [q out] eqn:E. intros H.
    assert (Ho : exists d, out = Ok d) by (destruct out; [eauto|unfold finish in H; done]). destruct Ho as [d ->].
    apply finish_ok in H as [Hm Hf]. split; [done|]. intros _. rewrite Hf. cbn.
    unfold evaluate_cached_packs_via_rust, ffi_result in E. injection E as <- E.
    destruct (Ffi.guarded_call _ _ _ _) as [q' o] eqn:G. cbn [fst snd] in *.
    destruct o as [n | | n | out]; try done.
    match type of G with Ffi.guarded_call ?c ?n ?k ?q0 = _ => destruct (Ffi.ffi_guarded_call c n k q0) as [_ Hg] end.
    rewrite G in Hg. by apply (Hg out).
  - intros H. by apply finish_ok in H as [Hm _].
Qed.

Lemma finish_store ev st rec meta out : (finish ev st rec meta out).1.(en_store) = st.(en_store).
Proof. unfold finish. destruct out; [|done]. by destruct (if rec then _ else _) as [tel []]. Qed.

Lemma live_store ev F tags t e m sig st :
  (evaluate_json_rules ev F tags t e m sig st).1.(en_store) = st.(en_store).
Proof.
  unfold evaluate_json_rules. destruct (should_use_rust_json_engine _ _); [|apply finish_store].
  destruct (evaluate_cached_packs_via_rust _ _ _ _ _ _ _ _ _). by rewrite finish_store.
Qed.

Lemma requested_off cs header :
  canary_requested cs header = negb (negb (header_forces_candidate header) && fleb (configured_percent cs) f_zero).
Proof.
  unfold canary_requested, configured_percent.
  assert (Hn : is_nan (fclamp f_zero (litZ 100) (pack_canary_percent cs)) = false).
  { destruct (fclamp_range f_zero (litZ 100) (pack_canary_percent cs)) as [H _]; [done|].
    by apply fleb_not_nan in H as [_ H]. }
  rewrite (fltb_not_fleb f_zero) by done. destruct (header_forces_candidate header), (fleb _ f_zero); done.
Qed.

Section observing.
Context (ev : eval_env) (cs : canary_settings) (fs : canary_files) (header : option string)
  (features : dict) (tags : list string) (tenant entity : string) (sig : list string).

Local Abbreviation observe := (maybe_observe_candidate_pack ev cs fs header features tags tenant entity sig).
Local Abbreviation live := (live_rules ev features tags tenant entity sig).
Local Abbreviation stage := (rules_and_canary ev cs fs header features tags tenant entity sig).
Local Abbreviation pipeline := (canary_pipeline ev cs fs header features tags tenant entity sig).

Lemma observe_frame st :
  st.(en_meta) = engine_meta ev ->
  exists q, (observe st).1 = with_ffi st q
    /\ (if uses_rust ev then (length q <= S (length st.(en_ffi)))%nat else q = st.(en_ffi)).
Proof.
  intros Hm. assert (Hs : exists q, st = with_ffi st q
    /\ (if uses_rust ev then (length q <= S (length st.(en_ffi)))%nat else q = st.(en_ffi))).
  { exists st.(en_ffi). split; [by destruct st|]. destruct (uses_rust ev); [lia|done]. }
  unfold maybe_observe_candidate_pack. destruct (_ && _); [exact Hs|].
  destruct (resolve_candidate_packs _ _ _) as [[|pack packs]|e]; [exact Hs| |exact Hs].
  destruct (_ && _); [exact Hs|]. unfold _evaluate_candidate.
  match goal with |- context [evaluate_adhoc_packs_json ?a ?b ?c ?d ?f ?g ?h ?i ?j ?k] =>
    destruct (adhoc_frame a b c d f g h i k Hm) as (q & Hq & Hl);
    destruct (evaluate_adhoc_packs_json a b c d f g h i j k) as [st' out] end.
  cbn [fst] in *. eauto.
Qed.

(** The canary only observes.  Whatever the candidate, the header, the
    settings and the files, the rule stage leaves the pack store, the hit
    telemetry and the engine metadata as the live evaluation alone leaves them,
    and with the Python engine the failure window too; when it answers, the rule
    result is that of the live packs, and it fails wherever they fail. *)
Theorem canary_observe_only st :
  (exists q, (stage st).1 = with_ffi (live st).1 q /\ (uses_rust ev = false -> q = (live st).1.(en_ffi)))
  /\ match (stage st).2 with
     | Ok (r, _) => (live st).2 = Ok r
     | Err e => (live st).2 = Err e \/ exists r, (live st).2 = Ok r /\ (observe (live st).1).2 = Err e
     end.
Proof.
  unfold rules_and_canary. destruct (live st) as [st1 [r|e]] eqn:E.
  - unfold live_rules in E. apply live_ok in E as [Hm _]. destruct (observe_frame st1 Hm) as (q & Hq & Hl).
    destruct (observe st1) as [st2 out] eqn:O. cbn [fst snd] in *. split.
    + exists q. split; [done|]. intros Hu. by rewrite Hu in Hl.
    + destruct out; cbn; [done|]. right. eexists. by rewrite O.
  - cbn [fst snd]. split; [|by left]. exists st1.(en_ffi). by destruct st1.
Qed.

(** Failures of the candidate never open the live circuit by themselves:
    once the extension has evaluated the live packs, a failing candidate leaves
    at most one failure in the window, so that with a threshold of two or more
    the circuit is closed for the next request, whenever it comes. *)
Theorem canary_keeps_circuit_closed st st1 r now :
  uses_rust ev = true -> 2 <= Ffi.failure_threshold ev.(ev_ffi) ->
  live st = (st1, Ok r) ->
  snd (Ffi.circuit_is_open ev.(ev_ffi) now (stage st).1.(en_ffi)) = false.
Proof.
  intros Hu Ht E. unfold rules_and_canary. rewrite E. unfold live_rules in E. apply live_ok in E as [Hm Hf].
  destruct (observe_frame st1 Hm) as (q & Hq & Hl). rewrite Hu, (Hf Hu) in Hl.
  destruct (observe st1) as [st2 out]. cbn [fst] in *. rewrite Hq. change (en_ffi (with_ffi st1 q)) with q.
  unfold Ffi.circuit_is_open, Ffi.failures_in_window, Ffi._threshold. cbn [snd].
  pose proof (prune_shorter (ev_ffi ev) now q). simpl in Hl. apply Z.leb_gt. lia.
Qed.

(** A claimed canary fails closed.  A request that asks for the canary while
    no candidate resolves is refused with 503 before anything is evaluated; an
    answered request carries the live result, and an observation exactly when
    the canary is asked for and the request is forced or in the sample of the
    resolved candidate. *)
Theorem canary_fails_closed st :
  (canary_requested cs header = true -> resolve_candidate_packs cs st.(en_store) fs = Ok [] ->
     pipeline st = (st, Err (http 503 "pack_canary_candidate_missing")))
  /\ (forall st' r obs, pipeline st = (st', Ok (r, obs)) ->
       (live st).2 = Ok r
       /\ (canary_requested cs header = false /\ obs = None
           \/ exists pack packs, canary_requested cs header = true
                /\ resolve_candidate_packs cs st.(en_store) fs = Ok (pack :: packs)
                /\ bool_decide (is_Some obs)
                   = header_forces_candidate header
                     || _in_percent_sample tenant entity (candidate_key cs pack) (configured_percent cs))).
Proof.
  unfold canary_pipeline, ensure_pack_canary_ready. split.
  { intros Hr Hp. by rewrite Hr, Hp. }
  intros st' r obs. pose proof (live_store ev features tags (Some tenant) (Some entity) "production" (Some sig) st) as Hs.
  fold (live st) in Hs. unfold rules_and_canary, maybe_observe_candidate_pack. rewrite requested_off.
  destruct (live st) as [st1 [r1|e]] eqn:E; cbn [fst snd] in *; [rewrite Hs|by repeat case_match].
  destruct (negb (header_forces_candidate header) && fleb _ _) eqn:Hoff; cbn [negb].
  { intros [= <- <- <-]. split; [done|]. by left. }
  destruct (resolve_candidate_packs _ _ _) as [[|pack packs]|e]; cbn [rbind]; try done.
  destruct (negb _ && negb _) eqn:Hin.
  - intros [= <- <- <-]. split; [done|]. right. exists pack, packs. split_and!; [done|done|].
    apply andb_true_iff in Hin as [->%negb_true_iff ->%negb_true_iff]. done.
  - destruct (_evaluate_candidate _ _ _ _ _ _ _ _ _) as [st2 [o|e]]; cbn; [|done]. intros [= <- <- <-].
    split; [done|]. right. exists pack, packs. split_and!; [done|done|].
    rewrite bool_decide_eq_true_2 by eauto. destruct (header_forces_candidate header); [done|].
    cbn in Hin. by apply negb_false_iff in Hin.
Qed.
End observing.

(** * Examples *)

Definition rust_env (threshold : Z) : eval_env :=
  Env (Some "rust") true true empty_registry [] (fun _ => false) 0 (litZ 7) f_zero
    (Ffi.Settings (litZ 60) threshold) (TConfig None false true)
    (fun _ _ _ _ _ _ => Some (PDict [])) (fun _ _ _ _ _ _ _ => None).
Definition python_env : eval_env :=
  Env (Some "python") false false empty_registry [] (fun _ => false) 0 f_zero f_zero
    (Ffi.Settings (litZ 60) 5) (TConfig None false true) (fun _ _ _ _ _ _ => None) (fun _ _ _ _ _ _ _ => None).

Definition candidate_settings : canary_settings :=
  CanarySettings (litZ 100) "" "/packs/next.json" "/rules" (Thresholds (litZ 80) (litZ 50)).
Definition candidate_file (tags : pyval) : canary_files :=
  CanaryFiles (fun p => if bool_decide (p = "/packs/next.json") then
    Some (Document (PDict [("rules", PList [PDict
      [("id", PStr "r"); ("when", PList [PDict [("field", PStr "amount"); ("op", PStr "gt"); ("value", PInt 5)]]);
       ("tags", tags)]])])) else None) (Some []).

Local Abbreviation demo_stage ev files :=
  (rules_and_canary ev candidate_settings files None [("amount", PInt 9)] [] "t" "e" []).

Lemma canary_keeps_circuit_closed_witness :
  snd (Ffi.circuit_is_open (ev_ffi (rust_env 5)) (litZ 8)
         (demo_stage (rust_env 5) (candidate_file PNone) demo_engine).1.(en_ffi)) = false.
Proof.
  eapply (canary_keeps_circuit_closed (rust_env 5) candidate_settings (candidate_file PNone) None [("amount", PInt 9)]
           [] "t" "e" [] demo_engine _ (RuleTuple [] [] f_zero []) (litZ 8) eq_refl).
  - simpl. lia.
  - vm_compute. reflexivity.
Defined.

Lemma canary_fails_closed_witness :
  canary_pipeline python_env candidate_settings (CanaryFiles (fun _ => None) None) None [] [] "t" "e" [] demo_engine
  = (demo_engine, Err (http 503 "pack_canary_candidate_missing")).
Proof.
  apply (canary_fails_closed python_env candidate_settings (CanaryFiles (fun _ => None) None) None [] [] "t" "e" []
           demo_engine); vm_compute; reflexivity.
Defined.

(** With a threshold of one, a failing candidate opens the circuit for the live
    packs: the next request is refused although the live packs never failed. *)
Example failing_candidate_refuses_live :
  let '(st, out) := demo_stage (rust_env 1) (candidate_file PNone) demo_engine in
  is_ok out = true
  /\ (live_rules (rust_env 1) [("amount", PInt 9)] [] "t" "e" [] st).2
     = Err (OtherError "RustRuleEngineCircuitOpenError").
Proof. vm_compute. auto. Qed.

(** Any other exception of the candidate's evaluation fails the request, here a
    [TypeError] for tags that are a number, while the live packs answer. *)
Example broken_candidate_fails_request :
  is_ok (live_rules python_env [("amount", PInt 9)] [] "t" "e" [] demo_engine).2 = true
  /\ (demo_stage python_env (candidate_file (PInt 5)) demo_engine).2 = Err TypeError.
Proof. vm_compute. auto. Qed.
