(* ===== verification/FloatBounds.v ===== *)
(** Bounds on binary64 results: every operation of [PyFloat] yields a mantissa
    of at most 53 bits, so the order of floats is the order of their values, and
    rounding to four decimals keeps a value of the unit interval in it. *)

From Stdlib Require Import ZArith Lia Bool SpecFloat.
From stdpp Require Import base option list.
From S2P Require Import Prelude PyFloat PyValue.
Local Open Scope Z_scope.

(** * Mantissas *)

(** What holds of every float of the machine. *)
Definition binary64 (x : float) : Prop :=
  match x with S754_finite _ m _ => Zpos m < 2 ^ 53 | _ => True end.

Lemma shr_1_half mrs : 0 <= shr_m mrs -> shr_m (shr_1 mrs) = shr_m mrs / 2.
Proof. intros H. rewrite <- Z.div2_div. by destruct mrs as [[|[p|p|]|p] r s]. Qed.

Lemma iter_shr_div p mrs :
  0 <= shr_m mrs -> shr_m (@SpecFloat.iter_pos _ shr_1 p mrs) = shr_m mrs / 2 ^ Zpos p.
Proof.
  assert (Hpow : forall q, 0 < 2 ^ Zpos q) by (intros q; apply Z.pow_pos_nonneg; lia).
  assert (Hdbl : forall q, 2 ^ Zpos q~0 = 2 ^ Zpos q * 2 ^ Zpos q).
  { intros q. rewrite <- Z.pow_add_r by lia. f_equal. lia. }
  revert mrs. induction p as [p IH|p IH|]; intros mrs H; cbn [SpecFloat.iter_pos].
  - rewrite !IH, shr_1_half by auto using shr_1_nonneg, iter_shr_nonneg.
    rewrite !Z.div_div by (try apply Hpow; try apply Z.mul_pos_pos; try lia; auto).
    f_equal. replace (Zpos p~1) with (Z.succ (Zpos p~0)) by lia. rewrite Z.pow_succ_r, Hdbl by lia. lia.
  - rewrite !IH by auto using iter_shr_nonneg. rewrite Z.div_div by (specialize (Hpow p); lia). by rewrite Hdbl.
  - by rewrite shr_1_half.
Qed.

Lemma digits2_bound p : Zpos p < 2 ^ Zpos (digits2_pos p).
Proof.
  induction p as [p IH|p IH|]; cbn [digits2_pos]; [| |done];
    rewrite Pos2Z.inj_succ, Z.pow_succ_r by lia; lia.
Qed.

Lemma shr_fexp_small m e l : 0 <= m -> shr_m (fst (shr_fexp prec emax m e l)) < 2 ^ 53.
Proof.
  intros Hm. unfold shr_fexp, shr. assert (Hr : shr_m (shr_record_of_loc m l) = m) by (by destruct l as [|[]]).
  assert (Hd : m < 2 ^ Zdigits2 m) by (destruct m as [|p|p]; [done|apply digits2_bound|lia]).
  assert (Hn : Zdigits2 m - 53 <= fexp prec emax (Zdigits2 m + e) - e) by (unfold fexp, prec; lia).
  destruct (fexp prec emax (Zdigits2 m + e) - e) as [|p|p]; cbn [fst]; rewrite ?Hr.
  - eapply Z.lt_le_trans; [exact Hd|]. apply Z.pow_le_mono_r; lia.
  - rewrite iter_shr_div by (by rewrite Hr). rewrite Hr. apply Z.div_lt_upper_bound; [apply Z.pow_pos_nonneg; lia|].
    rewrite <- Z.pow_add_r by lia. eapply Z.lt_le_trans; [exact Hd|]. apply Z.pow_le_mono_r; lia.
  - eapply Z.lt_le_trans; [exact Hd|]. apply Z.pow_le_mono_r; lia.
Qed.

Lemma binary_round_aux_64 s m e l : 0 <= m -> binary64 (binary_round_aux prec emax s m e l).
Proof.
  intros Hm. unfold binary_round_aux.
  destruct (shr_fexp prec emax m e l) as [mrs' e'] eqn:E1.
  pose proof (shr_fexp_nonneg m e l Hm) as H1. rewrite E1 in H1. cbn [fst] in H1.
  pose proof (shr_fexp_small _ e' loc_Exact (round_ne_nonneg _ (loc_of_shr_record mrs') H1)) as H2.
  destruct (shr_fexp prec emax (round_nearest_even _ _) e' loc_Exact) as [mrs'' e'']. cbn [fst] in H2.
  destruct (shr_m mrs''); [done| |done]. by destruct (_ <=? _).
Qed.

Lemma binary_round_64 s m e : binary64 (binary_round prec emax s m e).
Proof. unfold binary_round. destruct (shl_align _ _ _). by apply binary_round_aux_64. Qed.

Lemma binary_normalize_64 m e s : binary64 (binary_normalize prec emax m e s).
Proof. destruct m; [done|apply binary_round_64..]. Qed.

Lemma litZ_64 n : binary64 (litZ n).
Proof. apply binary_normalize_64. Qed.

Lemma fadd_64 x y : binary64 x -> binary64 y -> binary64 (fadd x y).
Proof.
  destruct x as [sx|sx| |sx mx ex], y as [sy|sy| |sy my ey]; cbn [fadd SFadd]; intros Hx Hy; try done;
    try (by destruct sx, sy). apply binary_normalize_64.
Qed.

Lemma fsub_64 x y : binary64 x -> binary64 y -> binary64 (fsub x y).
Proof.
  destruct x as [sx|sx| |sx mx ex], y as [sy|sy| |sy my ey]; cbn [fsub SFsub]; intros Hx Hy; try done;
    try (by destruct sx, sy). apply binary_normalize_64.
Qed.

Lemma fmul_64 x y : binary64 (fmul x y).
Proof. destruct x, y; cbn [fmul SFmul]; try done. by apply binary_round_aux_64. Qed.

Lemma div_core_nonneg p d : 0 <= (SFdiv_core_binary prec emax (Zpos p) 0 (Zpos d) 0).1.1.
Proof.
  unfold SFdiv_core_binary.
  match goal with |- context [Z.div_eucl ?a ?b] => pose proof (Z.div_pos a b) as Hq; unfold Z.div in Hq end.
  destruct (Z.div_eucl _ _) as [q r]. cbn [fst]. apply Hq; [|lia].
  destruct (0 - 0 - _); [lia|apply Z.shiftl_nonneg; lia|lia].
Qed.

Lemma f_of_ratio_64 n d : binary64 (f_of_ratio n d).
Proof.
  destruct n as [|p|p]; cbn [f_of_ratio]; [done|..]; pose proof (div_core_nonneg p d) as Hc;
    destruct (SFdiv_core_binary _ _ _ _ _ _) as [[q e] l]; by apply binary_round_aux_64.
Qed.

Lemma lit_64 n d : binary64 (lit n d).
Proof. exact (f_of_ratio_64 n d). Qed.

Lemma fmin_64 x y : binary64 x -> binary64 y -> binary64 (fmin x y).
Proof. intros. unfold fmin. by cases_if. Qed.

Lemma fmax_64 x y : binary64 x -> binary64 y -> binary64 (fmax x y).
Proof. intros. unfold fmax. by cases_if. Qed.

Lemma fclamp_64 lo hi x : binary64 lo -> binary64 hi -> binary64 x -> binary64 (fclamp lo hi x).
Proof. intros. unfold fclamp. auto using fmin_64, fmax_64. Qed.

Lemma f_zero_64 : binary64 f_zero.
Proof. done. Qed.

#[export] Hint Resolve f_zero_64 litZ_64 lit_64 fadd_64 fsub_64 fmul_64 f_of_ratio_64 fmin_64 fmax_64 fclamp_64 : tarka.

(** * Rounding to four decimals *)

Lemma div_half_even_le n d K : n <= K * Zpos d -> div_half_even n d <= K.
Proof.
  intros H. unfold div_half_even. pose proof (Z.div_mod n (Zpos d) ltac:(lia)) as Hd.
  pose proof (Z.mod_pos_bound n (Zpos d) ltac:(lia)) as Hr.
  set (q := n / Zpos d) in *. set (r := n mod Zpos d) in *.
  assert (Hq : q < K \/ q = K /\ r = 0) by nia. destruct Hq as [Hq|[Hq Hr0]].
  - destruct (_ ?= _); try destruct (Z.even _); lia.
  - rewrite Hr0. change (2 * 0 ?= Z.pos d) with Lt. cbv iota. lia.
Qed.

Lemma div_half_even_nonneg n d : 0 <= n -> 0 <= div_half_even n d.
Proof.
  intros H. unfold div_half_even. pose proof (Z.div_pos n (Zpos d) H ltac:(lia)).
  destruct (_ ?= _); try destruct (Z.even _); lia.
Qed.

(** The unit interval. *)
Definition unit_float (x : float) : Prop := fleb f_zero x = true /\ fleb x (litZ 1) = true.

(** A float below a normal one has the smaller value. *)
Lemma fleb_value m e mc ec :
  Zpos m < 2 ^ 53 -> 2 ^ 52 <= Zpos mc -> e <= 0 -> ec <= 0 ->
  fleb (S754_finite false m e) (S754_finite false mc ec) = true ->
  e <= ec /\ Zpos m * 2 ^ (- ec) <= Zpos mc * 2 ^ (- e).
Proof.
  intros Hm Hc He Hec H. unfold fleb, SFleb, SFcompare in H.
  destruct (Z.compare_spec e ec) as [-> | Hlt|]; [|split; [lia|]|done].
  - split; [lia|]. apply Z.mul_le_mono_nonneg_r; [apply Z.pow_nonneg; lia|].
    change (Pos.compare_cont Eq m mc) with (Pos.compare m mc) in H. destruct (Pos.compare_spec m mc); [lia|lia|done].
  - assert (Hp : 2 ^ (- e) = 2 ^ (- ec) * 2 ^ (ec - e)) by (rewrite <- Z.pow_add_r by lia; f_equal; lia).
    assert (2 <= 2 ^ (ec - e)) by (change 2 with (2 ^ 1) at 1; apply Z.pow_le_mono_r; lia).
    assert (0 < 2 ^ (- ec)) by (apply Z.pow_pos_nonneg; lia). rewrite Hp. nia.
Qed.

(** Rounding a float between zero and a normal bound [c] of the unit interval. *)
Lemma round4_below mc ec K x :
  2 ^ 52 <= Zpos mc -> ec <= 0 -> Zpos mc * 10 ^ 4 <= K * 2 ^ (- ec) ->
  binary64 x -> fleb f_zero x = true -> fleb x (S754_finite false mc ec) = true ->
  is_zero (f_round x 4) = true \/ exists k, 1 <= k <= K /\ f_round x 4 = f_of_ratio k 10000.
Proof.
  intros Hc Hec HK Hx H0 H1. destruct x as [s|s| |s m e]; [by left|by destruct s|done|].
  destruct s; [done|]. assert (He : e <= 0).
  { unfold fleb, SFleb, SFcompare in H1. destruct (Z.compare_spec e ec); [lia|lia|done]. }
  destruct (fleb_value m e mc ec Hx Hc He Hec H1) as [Hle Hv].
  assert (Hr : exists d, Zpos d = 2 ^ (- e) /\ f_ratio (S754_finite false m e) = Some (Zpos m, d)).
  { assert (Hp : 0 < 2 ^ (- e)) by (apply Z.pow_pos_nonneg; lia). cbn [f_ratio cond_Zopp].
    destruct (Z.leb_spec 0 e) as [Hz|Hz].
    - assert (e = 0) as -> by lia. exists 1%positive. by rewrite Z.mul_1_r.
    - exists (Z.to_pos (2 ^ (- e))). split; [by apply Z2Pos.id|done]. }
  destruct Hr as (d & Hd & Hr). unfold f_round. rewrite Hr.
  change (Z.to_pos (10 ^ 4)) with 10000%positive.
  set (k := div_half_even (Zpos m * 10 ^ 4) d).
  assert (Hk : k <= K).
  { apply div_half_even_le. rewrite Hd. assert (0 < 2 ^ (- ec)) by (apply Z.pow_pos_nonneg; lia).
    apply (Z.mul_le_mono_pos_r _ _ (2 ^ (- ec))); [done|]. nia. }
  assert (0 <= k) by (apply div_half_even_nonneg; lia).
  destruct (Z.eqb_spec k 0); [by left|]. right. exists k. split; [lia|done].
Qed.

(** The decimals up to one, evaluated. *)
Definition decimals (n : nat) : list Z := map Z.of_nat (seq 1 n).

Lemma decimals_elem n k : 1 <= k <= Z.of_nat n -> k ∈ decimals n.
Proof.
  intros H. unfold decimals. apply list_elem_of_fmap. exists (Z.to_nat k). split; [lia|]. apply elem_of_seq. lia.
Qed.

Lemma decimals_forall (f : Z -> bool) n k :
  forallb f (decimals n) = true -> 1 <= k <= Z.of_nat n -> f k = true.
Proof. intros H Hk. eapply List.forallb_forall; [exact H|]. apply list_elem_of_In. by apply decimals_elem. Qed.

Lemma decimals_unit :
  forallb (fun k => fleb f_zero (f_of_ratio k 10000) && fleb (f_of_ratio k 10000) (litZ 1)) (decimals (Z.to_nat 10000)) = true.
Proof. vm_compute. reflexivity. Qed.

Lemma round4_unit x : binary64 x -> unit_float x -> unit_float (f_round x 4).
Proof.
  intros Hx [H0 H1]. destruct (round4_below 4503599627370496 (-52) 10000 x) as [Hz|(k & Hk & ->)]; try done.
  - destruct (f_round x 4) as [[]| | |]; done.
  - pose proof (decimals_forall _ _ k decimals_unit ltac:(lia)) as [? ?]%andb_true_iff. done.
Qed.

Lemma decimals_low : forallb (fun k => fltb (f_of_ratio k 10000) (lit 1 2)) (decimals (Z.to_nat 4201)) = true.
Proof. vm_compute. reflexivity. Qed.

(** A value below 0.42 stays below 0.5. *)
Lemma round4_low x :
  binary64 x -> fleb f_zero x = true -> fltb x (lit 42 100) = true -> fltb (f_round x 4) (lit 1 2) = true.
Proof.
  intros Hx H0 H1. apply fltb_fleb in H1. revert H1.
  match goal with |- fleb _ ?c = _ -> _ => let v := eval vm_compute in c in change c with v end. intros H1.
  match type of H1 with fleb _ (S754_finite false ?m ?e) = _ => destruct (round4_below m e 4201 x) as [Hz|(k & Hk & ->)] end;
    try done.
  - by destruct (f_round x 4).
  - by apply (decimals_forall _ _ k decimals_low ltac:(lia)).
Qed.

(** * Differences stay below one *)

Lemma digits2_le p k : 0 <= k -> Zpos p < 2 ^ k -> Zpos (digits2_pos p) <= k.
Proof.
  revert k. induction p as [p IH|p IH|]; intros k Hk Hp; cbn [digits2_pos].
  1, 2: (destruct (Z.eq_dec k 0) as [-> |Hz]; [simpl in Hp; lia|];
         replace (2 ^ k) with (2 * 2 ^ (k - 1)) in Hp by (rewrite <- Z.pow_succ_r by lia; f_equal; lia);
         rewrite Pos2Z.inj_succ; specialize (IH (k - 1) ltac:(lia) ltac:(lia)); lia).
  destruct (Z.eq_dec k 0) as [-> |Hz]; [simpl in Hp; lia|lia].
Qed.

(** The exponent after a shift that only drops bits. *)
Lemma shr_fexp_exp m e l :
  snd (shr_fexp prec emax m e l) = Z.max e (fexp prec emax (Zdigits2 m + e)).
Proof.
  unfold shr_fexp, shr. destruct (fexp prec emax (Zdigits2 m + e) - e) eqn:E; cbn [snd]; lia.
Qed.

Lemma round_ne_succ m l : m <= round_nearest_even m l <= m + 1.
Proof. destruct l as [|[]]; simpl; cases_if; lia. Qed.

(** Rounding an aligned value below one gives at most one. *)
Lemma binary_round_aux_le1 p e :
  Zpos (digits2_pos p) + e <= 0 -> e <= fexp prec emax (Zpos (digits2_pos p) + e) ->
  fleb (binary_round_aux prec emax false (Zpos p) e loc_Exact) (litZ 1) = true.
Proof.
  intros Hd He. unfold binary_round_aux.
  pose proof (shr_fexp_small (Zpos p) e loc_Exact ltac:(lia)) as Hm.
  pose proof (shr_fexp_nonneg (Zpos p) e loc_Exact ltac:(lia)) as H0.
  pose proof (shr_fexp_exp (Zpos p) e loc_Exact) as He'. cbn [Zdigits2] in He'.
  destruct (shr_fexp prec emax (Zpos p) e loc_Exact) as [mrs' e']. cbn [fst snd] in *.
  assert (Hle : e' <= -53 /\ SpecFloat.emin prec emax <= e') by (unfold fexp, SpecFloat.emin, prec, emax in *; lia).
  clear He' He Hd. pose proof (round_ne_succ (shr_m mrs') (loc_of_shr_record mrs')) as Hr.
  set (m1 := round_nearest_even _ _) in *. clearbody m1.
  pose proof (shr_fexp_exp m1 e' loc_Exact) as He''.
  assert (Hcase : m1 < 2 ^ 53 \/ m1 = 2 ^ 53) by lia. destruct Hcase as [Hlt | ->].
  - assert (HD : Zdigits2 m1 <= 53).
    { destruct m1 as [|q|q]; [done|apply digits2_le; [lia|done]|lia]. }
    assert (Hf : Z.max e' (fexp prec emax (Zdigits2 m1 + e')) = e').
    { unfold fexp, SpecFloat.emin, prec, emax in *. lia. }
    pose proof (shr_fexp_nonneg m1 e' loc_Exact ltac:(lia)) as Hn.
    rewrite Hf in He''. destruct (shr_fexp prec emax m1 e' loc_Exact) as [mrs'' e'']. cbn [fst snd] in *. subst e''.
    destruct (shr_m mrs'') as [|q|q]; [done| |lia]. destruct (_ <=? _) eqn:Ei; [|unfold emax, prec in Ei; lia].
    change (litZ 1) with (S754_finite false 4503599627370496 (-52)). unfold fleb, SFleb, SFcompare.
    destruct (Z.compare_spec e' (-52)); [lia|done|lia].
  - assert (Hs : shr_fexp prec emax (2 ^ 53) e' loc_Exact
                 = (Build_shr_record (2 ^ 52) false false, e' + 1)).
    { assert (Hf : fexp prec emax (Zdigits2 (2 ^ 53) + e') = e' + 1)
        by (change (Zdigits2 (2 ^ 53)) with 54; unfold fexp, SpecFloat.emin, prec, emax in *; lia).
      unfold shr_fexp. rewrite Hf. replace (e' + 1 - e') with 1 by lia. reflexivity. }
    rewrite Hs. cbn [shr_m]. change (2 ^ 52) with 4503599627370496.
    destruct (_ <=? _) eqn:Ei; [|unfold emax, prec in Ei; lia].
    change (litZ 1) with (S754_finite false 4503599627370496 (-52)). unfold fleb, SFleb, SFcompare.
    destruct (Z.compare_spec (e' + 1) (-52)) as [_|H|H]; [done|done|lia].
Qed.

Lemma iter_xO p d : Zpos (Pos.iter xO p d) = Zpos p * 2 ^ Zpos d.
Proof.
  induction d as [|d IH] using Pos.peano_ind; [simpl; lia|].
  rewrite Pos.iter_succ, Pos2Z.inj_succ, Z.pow_succ_r by lia. lia.
Qed.

(** Alignment keeps the value. *)
Lemma shl_align_value m e e' :
  e' <= e -> Zpos (fst (shl_align m e e')) = Zpos m * 2 ^ (e - e').
Proof.
  intros H. unfold shl_align. destruct (e' - e) as [|d|d] eqn:E; cbn [fst]; [|lia|].
  - replace (e - e') with 0 by lia. lia.
  - rewrite iter_xO. do 2 f_equal. lia.
Qed.

Lemma digits2_shift p d : Zpos (digits2_pos (Pos.iter xO p d)) = Zpos (digits2_pos p) + Zpos d.
Proof.
  induction d as [|d IH] using Pos.peano_ind; [simpl; lia|].
  rewrite Pos.iter_succ. cbn [digits2_pos]. lia.
Qed.

Lemma binary_round_le1 p e :
  Zpos (digits2_pos p) + e <= 0 -> fleb (binary_round prec emax false p e) (litZ 1) = true.
Proof.
  intros H. unfold binary_round, shl_align. destruct (_ - e) as [|d|d] eqn:E.
  1, 2: apply binary_round_aux_le1; lia.
  assert (Hf : fexp prec emax (Zpos (digits2_pos p) + e) = e + Zneg d) by lia.
  rewrite Hf. apply binary_round_aux_le1; rewrite digits2_shift; [lia|].
  replace (Zpos (digits2_pos p) + Zpos d + (e + Zneg d)) with (Zpos (digits2_pos p) + e) by lia. by rewrite Hf.
Qed.

Lemma negative_le1 p e : fleb (binary_round prec emax true p e) (litZ 1) = true.
Proof.
  unfold binary_round. destruct (shl_align _ _ _) as [mz ez]. unfold binary_round_aux.
  destruct (shr_fexp prec emax (Zpos mz) ez loc_Exact) as [mrs' e'] eqn:E.
  pose proof (shr_fexp_nonneg (Zpos mz) ez loc_Exact ltac:(lia)) as H. rewrite E in H. cbn [fst] in H.
  pose proof (shr_fexp_nonneg _ e' loc_Exact (round_ne_nonneg _ (loc_of_shr_record mrs') H)) as H2.
  destruct (shr_fexp prec emax (round_nearest_even _ _) e' loc_Exact) as [mrs'' e'']. cbn [fst] in H2.
  destruct (shr_m mrs''); [done| |lia]. by destruct (_ <=? _).
Qed.

(** Taking a non-negative amount from a value of at most one. *)
Lemma fsub_le1 x y :
  binary64 x -> nonneg x = true -> fleb x (litZ 1) = true -> nonneg y = true -> fleb (fsub x y) (litZ 1) = true.
Proof.
  intros Hx H0 H1 Hy. destruct x as [sx|sx| |sx mx ex]; [| |done|].
  { destruct y as [[]|[]| |[] m e]; try done; by destruct sx. }
  { by destruct sx. }
  destruct sx; [done|]. destruct y as [sy|sy| |sy my ey]; [done|by destruct sy|done|]. destruct sy; [done|].
  assert (He : ex <= -52).
  { unfold fleb, SFleb in H1. change (litZ 1) with (S754_finite false 4503599627370496 (-52)) in H1.
    unfold SFcompare in H1. destruct (Z.compare_spec ex (-52)); [lia|lia|done]. }
  change (litZ 1) with (S754_finite false 4503599627370496 (-52)) in H1.
  destruct (fleb_value mx ex 4503599627370496 (-52) Hx ltac:(lia) ltac:(lia) ltac:(lia) H1) as [_ Hv].
  cbn [fsub SFsub cond_Zopp]. set (ez := Z.min ex ey). rewrite !shl_align_value by lia.
  set (M := _ - _). destruct M as [|p|p] eqn:EM; [done| |apply negative_le1].
  apply binary_round_le1. assert (Hp : Zpos p < 2 ^ (- ez)).
  { assert (0 < 2 ^ (ey - ez)) by (apply Z.pow_pos_nonneg; lia).
    assert (Hs : 2 ^ (- ez) = 2 ^ (- ex) * 2 ^ (ex - ez)) by (rewrite <- Z.pow_add_r by lia; f_equal; lia).
    assert (0 < 2 ^ (ex - ez)) by (apply Z.pow_pos_nonneg; lia).
    change (2 ^ (- (-52))) with 4503599627370496 in Hv. subst M. nia. }
  pose proof (digits2_le p (- ez) ltac:(lia) Hp). lia.
Qed.

(** * The unit interval *)

Definition unit64 (x : float) : Prop := binary64 x /\ nonneg x = true /\ fleb x (litZ 1) = true.

Lemma f_round_64 x nd : binary64 x -> binary64 (f_round x nd).
Proof.
  intros Hx. destruct x as [| | |s m e]; try done. unfold f_round. destruct (f_ratio _) as [[n d]|]; [|done].
  destruct (_ =? 0); auto with tarka.
Qed.

Lemma fmax0_nonneg x : nonneg (fmax f_zero x) = true.
Proof. unfold fmax. destruct (fltb f_zero x) eqn:E; [|done]. by destruct x as [|[]| |[] m e]. Qed.

Lemma fmin_le hi x : is_nan hi = false -> fleb (fmin hi x) hi = true.
Proof. intros H. unfold fmin. destruct (fltb x hi) eqn:E; auto with tarka. Qed.

Lemma fmax_le lo x hi : fleb lo hi = true -> fleb x hi = true -> fleb (fmax lo x) hi = true.
Proof. intros. unfold fmax. by cases_if. Qed.

Lemma unit_zero : unit64 f_zero.
Proof. by repeat split. Qed.

Lemma unit_clamp x : binary64 x -> unit64 (fclamp f_zero (litZ 1) x).
Proof.
  intros Hx. split; [auto with tarka|]. split; [apply fmax0_nonneg|]. apply fmax_le; [done|]. by apply fmin_le.
Qed.

Lemma unit_sub x y : unit64 x -> binary64 y -> nonneg y = true -> unit64 (fmax f_zero (fsub x y)).
Proof.
  intros (Hx & Hn & H1) Hy Hy0. split; [auto with tarka|]. split; [apply fmax0_nonneg|].
  apply fmax_le; [done|]. by apply fsub_le1.
Qed.

Lemma unit_add x y : unit64 x -> binary64 y -> nonneg y = true -> unit64 (fmin (litZ 1) (fadd x y)).
Proof.
  intros (Hx & Hn & H1) Hy Hy0. split; [auto with tarka|]. split; [|by apply fmin_le].
  unfold fmin. destruct (fltb _ _); [|done]. by apply fadd_nonneg.
Qed.

Lemma unit_max x y : unit64 x -> unit64 y -> unit64 (fmax x y).
Proof. intros Hx Hy. unfold fmax. by cases_if. Qed.

Lemma f_round_nonneg x nd : 0 <= nd -> nonneg x = true -> nonneg (f_round x nd) = true.
Proof.
  intros Hnd Hx. destruct x as [s|s| |s m e]; try done. destruct s; [done|]. unfold f_round.
  assert (Hr : exists n d, f_ratio (S754_finite false m e) = Some (n, d) /\ 0 <= n).
  { cbn [f_ratio cond_Zopp]. destruct (0 <=? e) eqn:E; [|by eexists _, _].
    eexists _, _. split; [done|]. apply Z.mul_nonneg_nonneg; [lia|]. apply Z.pow_nonneg. lia. }
  destruct Hr as (n & d & -> & Hn). assert (0 <= 10 ^ nd) by (apply Z.pow_nonneg; lia).
  pose proof (div_half_even_nonneg (n * 10 ^ nd) d ltac:(nia)) as Hk. destruct (_ =? 0); [done|].
  destruct (div_half_even _ _) as [|p|p]; [done| |lia]. cbn [f_of_ratio].
  pose proof (div_core_nonneg p (Z.to_pos (10 ^ nd))) as Hc.
  destruct (SFdiv_core_binary _ _ _ _ _ _) as [[q e'] l]. by apply binary_round_aux_nonneg.
Qed.

Lemma unit_round x : unit64 x -> unit64 (f_round x 4).
Proof.
  intros (Hx & Hn & H1). destruct (round4_unit x Hx) as [_ H2]; [split; auto with tarka|].
  split; [by apply f_round_64|]. split; [by apply f_round_nonneg|done].
Qed.

#[export] Hint Resolve f_round_64 unit_zero unit_clamp unit_sub unit_add unit_max unit_round : tarka.

(** * Converted values *)

Lemma f_of_string_64 s f : f_of_string s = Ok f -> binary64 f.
Proof.
  assert (Hopp : forall (b : bool) x, binary64 x -> binary64 (if b then SFopp x else x)) by (by intros [] []).
  unfold f_of_string. destruct (take_sign _) as [neg r]. case_match; [intros [= <-]; by destruct neg|].
  case_match; [by intros [= <-]|]. destruct (read_unsigned_float r) as [x|] eqn:E; [|done].
  intros [= <-]. apply Hopp. revert E. unfold read_unsigned_float, f_of_dec.
  destruct (read_digits r false 0 0) as [[[ip ic] r1]|]; [|done].
  match goal with |- context [let '(_, _) := ?t in _] => destruct t as [[fp fc] r2] end.
  destruct (_ =? 0); [done|]. destruct (read_exponent r2) as [ex|]; [|done].
  destruct (scale10 _ _ _). intros [= <-]. auto with tarka.
Qed.

(** The floats stored in a value, and in the fields of a dictionary. *)
Definition val64 (v : pyval) : Prop := match v with PFloat f => binary64 f | _ => True end.
Definition floats64 (d : dict) : Prop := Forall (fun kv => val64 kv.2) d.

Lemma py_float_64 v f : val64 v -> py_float v = Ok f -> binary64 f.
Proof.
  destruct v as [|[]|n|x|s|l|d]; cbn [py_float val64]; intros Hv H; try discriminate.
  - injection H as <-. apply (litZ_64 1).
  - by injection H as <-.
  - unfold f_of_Z in H. case_match; [done|]. injection H as <-. apply litZ_64.
  - by injection H as <-.
  - by eapply f_of_string_64.
Qed.

Lemma get_64 d k v : floats64 d -> val64 v -> val64 (get d k v).
Proof.
  intros Hd Hv. unfold get. induction Hd as [|[k' v'] d Hx _ IH]; [done|]. cbn [dict_lookup]. by case_match.
Qed.

Lemma por_64 a b : val64 a -> val64 b -> val64 (por a b).
Proof. intros. unfold por. by case_match. Qed.

#[export] Hint Resolve f_of_string_64 py_float_64 get_64 por_64 : tarka.
