(* ===== verification/Integrity.v ===== *)
(** Platform integrity expectations: [decision_api/integrity_policy.py].

    [sin], [cos], [asin] and the square [x ** 2] of the platform's mathematics
    library are the record [libm]; each may raise.  The public matrix and the
    ingress status, which only list constants and settings, are left out. *)

From Stdlib Require Import ZArith Lia Ascii String Bool SpecFloat.
From stdpp Require Import base option list sorting strings gmap.
From S2P Require Import Prelude PyFloat PyValue FloatBounds.
Local Open Scope Z_scope.

(** * Expectations *)

Definition _INTEGRITY_EXPECTATIONS : list (string * list (string * float)) :=
  [("web", []);
   ("android", [("sdk:repackaged", litZ 1); ("sdk:emulator", litZ 1)]);
   ("ios", [("sdk:repackaged", litZ 1); ("sdk:emulator", litZ 1)]);
   ("server", [])].

Record attestation : Type := Attestation {
  high_confidence_signals : list string; attestation_provider : option string; min_integrity_confidence : float }.

Definition web_attestation : attestation :=
  Attestation ["tls_pinning_verified"; "replay_signature_ok"; "captcha_passed"] None (lit 55 100).

Definition _ATTESTATION_PROVIDERS : list (string * attestation) :=
  [("web", web_attestation);
   ("android", Attestation ["play_integrity_verified"; "replay_signature_ok"; "not_emulator"; "not_repackaged"]
                 (Some "play_integrity") (lit 7 10));
   ("ios", Attestation ["app_attest_verified"; "replay_signature_ok"; "not_repackaged"] (Some "app_attest") (lit 7 10));
   ("server", Attestation ["hmac_request_ok"; "replay_signature_ok"] None (lit 5 10))].

(** [TABLE.get(plat, default)]. *)
Definition table_get {A : Type} (table : list (string * A)) (k : string) (dflt : A) : A :=
  default dflt (snd <$> List.find (fun kv => bool_decide (kv.1 = k)) table).

(** [(platform or "web").strip().lower()]. *)
Definition plat_of (platform : string) : string := lower (strip (str_or platform "web")).

(** * Tags *)

Definition hmac_tags (hmac_ok : option bool) (request_signature_required integrity_soft_tags : bool) : list string :=
  if bool_decide (hmac_ok = Some true) then ["ingress:hmac_request_ok"]
  else if request_signature_required && integrity_soft_tags then ["integrity:hmac_request_missing"]
  else if integrity_soft_tags && negb request_signature_required then ["integrity:hmac_not_configured"]
  else [].

Definition pinning_tags (tls_pinning_verified : option bool) (integrity_soft_tags : bool) : list string :=
  if bool_decide (tls_pinning_verified = Some true) then ["ingress:tls_pinning_verified"]
  else if integrity_soft_tags then ["integrity:tls_pinning_unverified"] else [].

Definition apply_evaluate_integrity_tags (signal_tags : list string) (hmac_ok : option bool)
    (request_signature_required integrity_soft_tags : bool) (tls_pinning_verified : option bool) (is_replayed : bool)
    : list string :=
  List.filter (fun t => negb (mem t signal_tags))
    (hmac_tags hmac_ok request_signature_required integrity_soft_tags
     ++ (if is_replayed then [] else ["ingress:replay_signature_ok"])
     ++ pinning_tags tls_pinning_verified integrity_soft_tags).

Definition min_integrity_confidence_for_platform (platform : string) : float :=
  let c := min_integrity_confidence (table_get _ATTESTATION_PROVIDERS (plat_of platform) web_attestation) in
  if f_truthy c then c else lit 5 10.

Definition platform_meets_high_confidence (platform : string) (integrity_confidence : float)
    (verified_signals : list string) : bool :=
  let plat := plat_of platform in
  let att := table_get _ATTESTATION_PROVIDERS plat web_attestation in
  if fltb integrity_confidence (min_integrity_confidence_for_platform plat) then false
  else match att.(high_confidence_signals) with
       | [] => true
       | required =>
           let have := map (fun s => lower (strip s)) (List.filter nonempty verified_signals) in
           if nonempty (opt_str att.(attestation_provider)) then existsb (fun r => mem (lower r) have) required
           else true
       end.

(** One expectation; [tags] is a set. *)
Definition marker_tags (plat : string) (tags : list string) (rule : string * float) : list string :=
  let '(marker, need_clear) := rule in
  if negb (nonempty marker) then []
  else if endswith marker ":" then
    if existsb (fun t => startswith t marker) tags && fleb (litZ 1) need_clear
    then ["integrity:" +:+ plat +:+ "_signal_anomaly"] else []
  else if mem marker tags && fleb (litZ 1) need_clear
  then ["integrity:" +:+ replace_char ":"%char "_"%char marker +:+ "_present"] else [].

Definition supplemental_tags_for_integrity (platform : string) (signal_tags : list string) : list string :=
  let plat := plat_of platform in
  flat_map (marker_tags plat signal_tags) (table_get _INTEGRITY_EXPECTATIONS plat []).

(** * Confidence *)

Definition pinning_adjusted (conf : float) (pinning_ok : option bool) : float :=
  match pinning_ok with
  | Some true => fmin (litZ 1) (fadd conf (lit 5 100))
  | Some false => fmax f_zero (fsub conf (lit 8 100))
  | None => conf
  end.

Definition adjust_integrity_confidence (base : float) (platform : string) (signal_tags : list string)
    (pinning_ok : option bool) : float :=
  let conf := pinning_adjusted (fclamp f_zero (litZ 1) base) pinning_ok in
  let supplemental := supplemental_tags_for_integrity platform signal_tags in
  let conf := match supplemental with
              | [] => conf
              | _ => fmax f_zero (fsub conf (fmul (lit 4 100) (litZ (Z.min (Z.of_nat (length supplemental)) 3))))
              end in
  f_round conf 4.

(** * Places *)

(** [float(v) if v is not None else None], with [TypeError] and [ValueError] read as [None]. *)
Definition geo_float (v : pyval) : result (option float) :=
  match v with
  | PNone => Ok None
  | _ => try_except (rmap Some (py_float v)) is_type_or_value_error None
  end.

Definition parse_session_geo (features : dict) : result (option float * option float * option float) :=
  let! la := geo_float (get features "session_last_lat" PNone) in
  let! lo := geo_float (get features "session_last_lon" PNone) in
  let! t := geo_float (get features "session_last_ts" PNone) in
  Ok (la, lo, t).

Record libm : Type := Libm {
  m_sin : float -> result float; m_cos : float -> result float; m_asin : float -> result float;
  m_square : float -> result float }.

(** [math.pi / 180.0], and [math.radians]. *)
Definition deg_to_rad : float := SFdiv prec emax (S754_finite false 7074237752028440 (-51)) (litZ 180).
Definition radians (x : float) : float := fmul x deg_to_rad.

(** [math.sqrt]. *)
Definition f_sqrt (x : float) : result float :=
  match x with
  | S754_finite true _ _ | S754_infinity true => Err ValueError
  | _ => Ok (SFsqrt prec emax x)
  end.

Section places.
Context (lm : libm).

Definition haversine_km (lat1 lon1 lat2 lon2 : float) : result float :=
  let p1 := radians lat1 in
  let p2 := radians lat2 in
  let! a := rbind (lm.(m_sin) (SFdiv prec emax (radians (fsub lat2 lat1)) (litZ 2))) lm.(m_square) in
  let! c1 := lm.(m_cos) p1 in
  let! c2 := lm.(m_cos) p2 in
  let! b := rbind (lm.(m_sin) (SFdiv prec emax (radians (fsub lon2 lon1)) (litZ 2))) lm.(m_square) in
  let! r := f_sqrt (fmin (litZ 1) (fadd a (fmul (fmul c1 c2) b))) in
  let! s := lm.(m_asin) r in
  Ok (fmul (fmul (litZ 2) (litZ 6371)) s).

(** The circle a zone describes; [None] when it is skipped. *)
Definition zone_of (z : dict) : result (option (float * float * float)) :=
  try_except
    (let! zlat := py_float (get z "lat" PNone) in
     let! zlon := py_float (get z "lon" PNone) in
     let! rad := py_float (get z "radius_km" (PInt 50)) in
     Ok (Some (zlat, zlon, rad))) is_type_or_value_error None.

Fixpoint any_zone (lat lon : float) (zones : list pyval) : result bool :=
  match zones with
  | [] => Ok false
  | PDict z :: zones' =>
      let! c := zone_of z in
      match c with
      | None => any_zone lat lon zones'
      | Some (zlat, zlon, rad) =>
          let! d := haversine_km lat lon zlat zlon in
          if fleb d rad then Ok true else any_zone lat lon zones'
      end
  | _ => Err AttributeError
  end.

Definition trusted_zone_hit (lat lon : option float) (zones : list pyval) : result bool :=
  match lat, lon with
  | Some lat, Some lon => any_zone lat lon zones
  | _, _ => Ok false
  end.
End places.

(** * Correctness *)

Lemma pinning_unit conf pin : unit64 conf -> unit64 (pinning_adjusted conf pin).
Proof. intros H. destruct pin as [[]|]; [apply unit_add|apply unit_sub|]; done. Qed.

Lemma adjust_unit base platform tags pin :
  binary64 base -> unit64 (adjust_integrity_confidence base platform tags pin).
Proof.
  intros Hb. unfold adjust_integrity_confidence. apply unit_round.
  pose proof (pinning_unit _ pin (unit_clamp base Hb)) as Hp.
  destruct (supplemental_tags_for_integrity platform tags) as [|t l]; [done|].
  apply unit_sub; [done|auto with tarka|]. set (n := Z.min _ 3).
  assert (Hn : n = 1 \/ n = 2 \/ n = 3) by (subst n; cbn [length]; lia). clearbody n. by destruct Hn as [-> | [-> | ->]].
Qed.

(** Every platform's floor is at least a half. *)
Lemma floor_at_least_half platform : fleb (lit 1 2) (min_integrity_confidence_for_platform platform) = true.
Proof.
  unfold min_integrity_confidence_for_platform, table_get. cbn [List.find _ATTESTATION_PROVIDERS fst].
  repeat case_bool_decide; reflexivity.
Qed.

#[export] Hint Resolve adjust_unit : tarka.

(** A request that is not a replay meets the bar of a platform with an
    attestation provider, although nothing was attested; so does a confidence
    that is not a number. *)
Example high_confidence_without_attestation :
  platform_meets_high_confidence "android" (lit 7 10) ["replay_signature_ok"] = true
  /\ platform_meets_high_confidence "web" f_nan [] = true.
Proof. vm_compute. auto. Qed.

Example supplemental_tags :
  supplemental_tags_for_integrity " Android" ["sdk:emulator"; "sdk:vpn"] = ["integrity:sdk_emulator_present"].
Proof. reflexivity. Qed.
