(* ===== verification/Inference.v ===== *)
(** The inference context of an evaluation and the recommended action:
    [decision_api/inference_build.py], and the stage of
    [decision_api/evaluate/pipeline.py] that turns both into the action of the
    response.

    [build_inference_context] is one function of the source; its phases are the
    definitions below, in order.  [ml_score] and [final_score] are floats, the
    metadata are dictionaries, and a missing one is [None]. *)

From Stdlib Require Import ZArith Lia Ascii String Bool SpecFloat.
From stdpp Require Import base option list sorting strings gmap.
From S2P Require Import Prelude PyFloat PyValue FloatBounds RuleMatch GraphContract Integrity JsonRules ChallengePolicy Enforcement.
Import GraphContract.Contract GraphContract.Atoms.
Local Open Scope Z_scope.

Definition SCHEMA_VERSION : string := "3".

Definition _clamp01 (value : float) : float := fclamp f_zero (litZ 1) value.

(** * Explanations *)

Definition static_reasons : list (string * (string * string)) :=
  [("device_tamper_or_emulator_signals", ("device_integrity", "Device tamper / emulator signals"));
   ("replay_or_duplicate_payload", ("replay", "Replay or duplicate payload"));
   ("hostile_or_anonymous_network_path", ("network", "VPN, proxy, or hostile network path"));
   ("geo_or_timezone_inconsistency", ("geo", "Geo or timezone inconsistency"));
   ("ml_score_elevated", ("ml", "ML score elevated"));
   ("device_seen_across_multiple_entities", ("velocity", "Shared device across entities"));
   ("multi_session_velocity", ("velocity", "Multi-session velocity"));
   ("velocity_and_geo_suggest_impossible_travel", ("velocity", "Velocity + geo suggest impossible travel"))].

Definition explain (reason category label : string) : pyval :=
  PDict [("reason", PStr reason); ("category", PStr category); ("label", PStr label)].

Definition _driver_explain_entry (reason : string) : pyval :=
  let r := strip reason in
  if startswith r "rule:" then explain r "rules" ("Rule hit: " +:+ str_take 48 (str_drop 5 r))
  else if startswith r "ml_factor:" then explain r "ml" ("ML factor: " +:+ str_take 48 (str_drop 10 r))
  else match List.find (fun kv => bool_decide (kv.1 = r)) static_reasons with
       | Some (_, (cat, lbl)) => explain r cat lbl
       | None => explain r "other" (replace_char "_"%char " "%char r)
       end.

Definition _confidence_tier_label (tier : string) : string :=
  if bool_decide (tier = "high") then "High — integrity signals support confident scoring"
  else if bool_decide (tier = "low") then "Low — weak integrity or conflicting signals"
  else "Medium — mixed signals; review edge cases".

(** * Risks from the tags *)

Definition tamper_markers : list string := ["sdk:repackaged"; "sdk:automation"; "sdk:emulator"; "sdk:shared_device"].
Definition network_markers : list string := ["sdk:vpn"; "sdk:proxy"; "sdk:datacenter"; "sdk:vpn_iface"].
Definition geo_markers : list string :=
  ["sdk:spoofed_location"; "sdk:tz_geo_mismatch"; "sdk:mock_location"; "sdk:geo_ip_mismatch"; "sdk:geo_tz_mismatch"].

(** [_clamp01(hits / max(1, len(markers)))]. *)
Definition marker_risk (markers tags : list string) : float :=
  _clamp01 (f_of_ratio (Z.of_nat (length (List.filter (fun m => mem m tags) markers))) (Pos.of_nat (length markers))).

Definition replay_hits (tags rule_hits : list string) : Z :=
  Z.of_nat (length (List.filter (fun h => contains "replay" (lower h)) rule_hits))
  + (if mem "ingress:replay_payload" tags then 1 else 0).

Definition over (x : float) (n : Z) : float := SFdiv prec emax x (litZ n).

Definition replay_risk_of (tags rule_hits : list string) : float := _clamp01 (over (litZ (replay_hits tags rule_hits)) 2).

Definition score_penalty (ml_score : option float) (final_score : float) : float :=
  let ml := match ml_score with Some m => if f_truthy m then m else f_zero | None => f_zero end in
  fmul (lit 15 100) (fmax (_clamp01 (over final_score 100)) (_clamp01 (over ml 100))).

Definition base_confidence (tamper network replay geo penalty : float) : float :=
  _clamp01 (fsub (fsub (litZ 1)
    (fadd (fadd (fadd (fmul (lit 35 100) tamper) (fmul (lit 2 10) network)) (fmul (lit 15 100) replay)) (fmul (lit 15 100) geo)))
    penalty).

Definition calibration_bias (features : dict) : result float :=
  rmap (fclamp (lit (-1) 10) (lit 1 10))
    (try_except (py_float (por (get features "calibration_bias" PNone) (PFloat f_zero))) is_type_or_value_error f_zero).

(** The confidence and the tamper risk after adjustment, attestation and bias. *)
Definition adjusted (base tamper bias : float) (platform : string) (tags : list string) (pinning : option bool)
    : float * float :=
  let conf := adjust_integrity_confidence base platform tags pinning in
  let '(tamper, conf) := if mem "sdk:attestation_verified" tags
                         then (_clamp01 (fmul tamper (lit 82 100)), _clamp01 (fadd conf (lit 6 100)))
                         else (tamper, conf) in
  (_clamp01 (fadd conf bias), tamper).

(** * Calibration *)

Definition version_clamp (n : Z) : Z := Z.max 1 (Z.min 999999 n).

(** [int(v)] clamped, the old value on a missing field or a bad one. *)
Definition version_or (old : Z) (v : pyval) : result Z :=
  match v with
  | PNone => Ok old
  | _ => try_except (rmap version_clamp (py_int v)) is_type_or_value_error old
  end.

Record calibration : Type := Calibration {
  cal_profile : string; cal_expected : Z; cal_version : Z; cal_source : string }.

Definition calibration_of (features : dict) (meta : option dict) : result calibration :=
  let profile := match get features "calibration_profile" PNone with
                 | PNone => "default"
                 | v => str_take 64 (strip (py_str v))
                 end in
  let! expected := try_except (py_int (por (get features "expected_calibration_version" PNone) (PInt 1)))
                     is_type_or_value_error 1 in
  let expected := version_clamp expected in
  match meta with
  | None | Some [] => Ok (Calibration profile expected 1 "heuristic")
  | Some m =>
      let profile := match get m "profile_id" PNone with
                     | PStr s => if nonempty (strip s) then str_take 64 (strip s) else profile
                     | _ => profile
                     end in
      let! expected := version_or expected (get m "expected_calibration_version" PNone) in
      let! version := version_or 1 (get m "profile_version" PNone) in
      Ok (Calibration profile expected version "service")
  end.

(** * Shared devices, velocity and travel *)

(** [int(features.get(key) or 0)]: not guarded. *)
Definition counter (features : dict) (key : string) : result Z := py_int (por (get features key PNone) (PInt 0)).

(** [max(peer, int(meta.get(key) or 0))], kept on a bad value. *)
Definition peer_from (meta : dict) (key : string) (peer : Z) : result Z :=
  try_except (rmap (Z.max peer) (counter meta key)) is_type_or_value_error peer.

Definition scaled (base : float) (n cap : Z) : float := _clamp01 (fadd base (fmul (lit 1 10) (litZ (Z.min n cap)))).

Definition shared_device_risk_of (tags : list string) (distinct_sess : Z) : float :=
  let base := _clamp01 (if mem "sdk:shared_device" tags then lit 75 100 else f_zero) in
  if 2 <=? distinct_sess then fmax base (scaled (lit 35 100) distinct_sess 5) else base.

Definition peer_count (features : dict) (graph_meta : option dict) : result Z :=
  let! peer := counter features "graph_seen_at_peer_count_24h" in
  match graph_meta with
  | None | Some [] => Ok peer
  | Some m => let! peer := peer_from m "seen_at_peer_count_24h" peer in peer_from m "colocated_entities_24h" peer
  end.

Definition graph_peer_risk_of (peer : Z) : float := if 2 <=? peer then scaled (lit 4 10) peer 6 else f_zero.

(** [a / b] of integers, [b > 0]: [OverflowError] outside the range of floats. *)
Definition int_div (a b : Z) : result float :=
  let x := f_of_ratio a (Z.to_pos b) in if is_inf x then Err OverflowError else Ok x.

Definition boost (b : bool) (x amount : float) : float := if b then fadd x amount else x.

Definition velocity_boost (geo : float) (ev1h ev24 distinct_dev : Z) : result float :=
  let x := boost ((3 <=? distinct_dev) && (5 <=? ev1h)) f_zero (lit 35 100) in
  let x := boost (fleb (lit 34 100) geo && (8 <=? ev1h)) x (lit 3 10) in
  if 0 <? ev24 then
    let! share := int_div ev1h (Z.max ev24 1) in
    Ok (boost (fltb (lit 5 10) share && (15 <? ev1h)) x (lit 2 10))
  else Ok x.

(** The previous fix: one bad field discards all three. *)
Definition previous_geo (features : dict) : result (option float * option float * option float) :=
  let field k := match get features k PNone with PNone => Ok None | v => rmap Some (py_float v) end in
  try_except
    (let! a := field "session_prev_lat" in let! b := field "session_prev_lon" in let! c := field "session_prev_ts" in
     Ok (a, b, c)) is_type_or_value_error (None, None, None).

Section geo.
Context (lm : libm).

Definition speed_boost (now prev : option float * option float * option float) (x : float) : result float :=
  match now, prev with
  | (Some la, Some lo, Some ts), (Some pla, Some plo, Some pts) =>
      if fltb pts ts then
        let! dist_km := haversine_km lm la lo pla plo in
        let dt_h := fmax (over (fsub ts pts) 3600) (lit 1 1000000) in
        let! speed := fdiv dist_km dt_h in
        Ok (if fltb (litZ 800) speed then fadd x (lit 45 100)
            else if fltb (litZ 120) speed then fadd x (lit 25 100) else x)
      else Ok x
  | _, _ => Ok x
  end.

(** The travel boost and the geo risk after the tenant's trusted zones. *)
Definition zones_applied (features : dict) (la lo : option float) (x geo : float) : result (float * float) :=
  match get features "trusted_zones" PNone with
  | PList zones =>
      let! hit := trusted_zone_hit lm la lo zones in
      Ok (if (hit : bool) then (fmax f_zero (fsub x (lit 35 100)), fmax f_zero (fsub geo (lit 2 10))) else (x, geo))
  | _ => Ok (x, geo)
  end.

Record location : Type := Location {
  loc_geo : float; loc_copresence : float; loc_travel : float; loc_confidence : float; loc_source : string }.

(** [_clamp01(float(meta.get(key, old)))], the old value on a bad one. *)
Definition clamped_or (meta : dict) (key : string) (old : float) : result float :=
  try_except (rmap _clamp01 (py_float (get meta key (PFloat old)))) is_type_or_value_error old.

Definition location_of (meta : option dict) (geo travel : float) : result location :=
  match meta with
  | None | Some [] => Ok (Location geo f_zero travel f_zero "heuristic")
  | Some m =>
      let! geo := clamped_or m "geo_consistency_risk" geo in
      let! co := clamped_or m "copresence_risk" f_zero in
      let! travel := clamped_or m "impossible_travel_risk" travel in
      let! conf := clamped_or m "location_confidence" f_zero in
      Ok (Location geo co travel conf "service")
  end.

(** From the counters to the location fields. *)
Definition travel_stage (features : dict) (meta : option dict) (geo : float) (ev1h ev24 distinct_dev : Z)
    : result location :=
  let! x := velocity_boost geo ev1h ev24 distinct_dev in
  let! now := parse_session_geo features in
  let! prev := previous_geo features in
  let! x := speed_boost now prev x in
  let! (x, geo) := zones_applied features now.1.1 now.1.2 x geo in
  location_of meta geo (_clamp01 x).
End geo.

(** * Graph and external signals *)

Definition stripped_items (v : pyval) : list string :=
  match v with PList l => List.filter nonempty (map (fun x => strip (py_str x)) l) | _ => [] end.

Definition graph_risk_of (graph_meta : option dict) : result (float * list string) :=
  match graph_meta with
  | None | Some [] => Ok (f_zero, [])
  | Some m =>
      let! score := try_except (rmap (fun f => _clamp01 (over f 100)) (py_float (get m "risk_score" (PFloat f_zero))))
                      is_type_or_value_error f_zero in
      Ok (score, take 8 (stripped_items (get m "risk_factors" PNone)))
  end.

Definition external_of (meta : option dict) : result (float * list string) :=
  match meta with
  | None | Some [] => Ok (f_zero, [])
  | Some m =>
      let! score := try_except
        (let! raw := match get m "risk_score" PNone with
                     | PNone => rmap (fun f => fmul f (litZ 5)) (py_float (get m "score_delta" (PFloat f_zero)))
                     | v => py_float v
                     end in
         Ok (_clamp01 (over raw 100))) is_type_or_value_error f_zero in
      Ok (score, stripped_items (get m "providers" PNone))
  end.

(** * Tier and drivers *)

Definition confidence_tier (conf : float) : string :=
  if fleb (lit 72 100) conf then "high" else if fleb (lit 42 100) conf then "medium" else "low".

Definition reason_if (b : bool) (r : string) : list string := if b then [r] else [].

Definition rule_reasons (rule_hits : list string) : list string :=
  filter_map (fun rh => if nonempty rh && negb (mem rh ["whitelist_bypass"; "blacklist_block"; "test_bypass"])
                        then Some ("rule:" +:+ rh) else None) (take 5 rule_hits).

(** [ml_top_factors]: the first five dictionaries. *)
Definition top_factors (ml_detail : option dict) : list dict :=
  match ml_detail with
  | Some m => match get m "top_factors" PNone with
              | PList l => take 5 (filter_map (fun v => match v with PDict d => Some d | _ => None end) l)
              | _ => []
              end
  | None => []
  end.

Definition add_factor (reasons : list string) (fac : dict) : list string :=
  let code := get fac "code" PNone in
  let tag := "ml_factor:" +:+ py_str code in
  if truthy code && negb (mem tag reasons) then reasons ++ [tag] else reasons.

Definition ml_text (ml_detail : option dict) : pyval * pyval :=
  match ml_detail with
  | Some m => (match get m "summary" PNone with PStr s => PStr s | _ => PNone end,
               let v := get m "model" PNone in if truthy v then PStr (str_take 256 (strip (py_str v))) else PNone)
  | None => (PNone, PNone)
  end.

(** * The context *)

(** The arguments after [features]. *)
Record inference_args : Type := InferenceArgs {
  ia_ml_detail : option dict; ia_platform : string; ia_pinning : option bool; ia_location : option dict;
  ia_calibration : option dict; ia_graph : option dict; ia_external : option dict; ia_experiment : option string }.

(** The scores of a context, before they are rounded. *)
Record risks : Type := Risks {
  rk_confidence : float; rk_tamper : float; rk_network_trust : float; rk_replay : float; rk_geo : float;
  rk_shared : float; rk_peer : float; rk_copresence : float; rk_colocation : float; rk_travel : float;
  rk_location_confidence : float; rk_graph : float; rk_external : float }.

Definition driver_reasons_of (r : risks) (ml_score : option float) (distinct_sess : Z) (rule_hits : list string)
    (ml_detail : option dict) : list string :=
  let reasons :=
    reason_if (fleb (lit 5 10) r.(rk_tamper)) "device_tamper_or_emulator_signals"
    ++ reason_if (fleb (lit 5 10) r.(rk_replay)) "replay_or_duplicate_payload"
    ++ reason_if (fleb r.(rk_network_trust) (lit 45 100)) "hostile_or_anonymous_network_path"
    ++ reason_if (fleb (lit 34 100) r.(rk_geo)) "geo_or_timezone_inconsistency"
    ++ reason_if (match ml_score with Some m => fleb (litZ 70) m | None => false end) "ml_score_elevated"
    ++ reason_if (fleb (lit 5 10) r.(rk_colocation)) "device_seen_across_multiple_entities"
    ++ reason_if (2 <=? distinct_sess) "multi_session_velocity"
    ++ reason_if (fleb (lit 45 100) r.(rk_travel)) "velocity_and_geo_suggest_impossible_travel"
    ++ rule_reasons rule_hits in
  take 8 (foldl add_factor reasons (take 2 (top_factors ml_detail))).

Definition counter_source (features : dict) : string :=
  if existsb (has_key features) ["event_count_5m"; "event_count_1h"; "event_count_24h"]
  then "aggregate-store" else "heuristic".

Definition round4 (x : float) : pyval := PFloat (f_round x 4).

Definition answers_of (graph_meta : option dict) : dict :=
  let a := consume_graph_answers (match graph_meta with Some m => PDict m | None => PNone end) in
  [("roles", str_list a.(ga_roles)); ("multi_id_user_ids", str_list a.(ga_multi));
   ("named_edges", PList (map edge_dict a.(ga_edges)))].

Definition experiment_of (policy_experiment_id : option string) : pyval :=
  let x := strip (opt_str policy_experiment_id) in if nonempty x then PStr (str_take 128 x) else PNone.

(** The returned dictionary. *)
Definition context_dict (args : inference_args) (features : dict) (tags drivers : list string) (cal : calibration)
    (r : risks) (location_source : string) (graph_reasons providers : list string) (ev5m ev1h ev24 : Z) : dict :=
  let tier := confidence_tier r.(rk_confidence) in
  [("schema_version", PStr SCHEMA_VERSION); ("calibration_profile", PStr cal.(cal_profile));
   ("expected_calibration_version", PInt cal.(cal_expected));
   ("confidence_tier_label", PStr (_confidence_tier_label tier));
   ("driver_explain", PList (map _driver_explain_entry drivers));
   ("platform", PStr (str_or (plat_of args.(ia_platform)) "web"));
   ("integrity_confidence", round4 r.(rk_confidence)); ("tamper_risk", round4 r.(rk_tamper));
   ("network_trust", round4 r.(rk_network_trust)); ("replay_risk", round4 r.(rk_replay));
   ("geo_consistency_risk", round4 r.(rk_geo)); ("top_signals", str_list (take 5 (sorted_set tags)));
   ("confidence_tier", PStr tier); ("driver_reasons", str_list drivers);
   ("shared_device_risk", round4 r.(rk_shared)); ("graph_peer_risk", round4 r.(rk_peer));
   ("geo_copresence_risk", round4 r.(rk_copresence)); ("colocation_risk", round4 r.(rk_colocation));
   ("copresence_risk", round4 r.(rk_colocation)); ("impossible_travel_risk", round4 r.(rk_travel));
   ("velocity_events_5m", PInt ev5m); ("velocity_events_1h", PInt ev1h); ("velocity_events_24h", PInt ev24);
   ("calibration_profile_version", PInt cal.(cal_version));
   ("location_confidence", round4 r.(rk_location_confidence));
   ("confidence_sources", PDict [("calibration", PStr cal.(cal_source)); ("counter", PStr (counter_source features));
                                 ("location", PStr location_source)]);
   ("graph_risk_score", round4 r.(rk_graph)); ("graph_risk_reasons", str_list graph_reasons)]
  ++ answers_of args.(ia_graph) ++
  [("external_signal_score", round4 r.(rk_external)); ("external_signal_providers", str_list providers);
   ("policy_experiment_id", experiment_of args.(ia_experiment));
   ("ml_top_factors", PList (map PDict (top_factors args.(ia_ml_detail))));
   ("ml_summary", (ml_text args.(ia_ml_detail)).1); ("ml_model", (ml_text args.(ia_ml_detail)).2)].

Section context.
Context (lm : libm).

Definition build_inference_context (tags rule_hits : list string) (ml_score : option float) (final_score : float)
    (features : dict) (args : inference_args) : result dict :=
  let tamper := marker_risk tamper_markers tags in
  let network := marker_risk network_markers tags in
  let geo := marker_risk geo_markers tags in
  let replay := replay_risk_of tags rule_hits in
  let! bias := calibration_bias features in
  let '(conf, tamper) := adjusted (base_confidence tamper network replay geo (score_penalty ml_score final_score))
                           tamper bias args.(ia_platform) tags args.(ia_pinning) in
  let! cal := calibration_of features args.(ia_calibration) in
  let! distinct_sess := counter features "distinct_session_id_24h" in
  let shared := shared_device_risk_of tags distinct_sess in
  let! peer := peer_count features args.(ia_graph) in
  let peer_risk := graph_peer_risk_of peer in
  let! ev1h := counter features "event_count_1h" in
  let! ev24 := counter features "event_count_24h" in
  let! distinct_dev := counter features "distinct_device_id_24h" in
  let! loc := travel_stage lm features args.(ia_location) geo ev1h ev24 distinct_dev in
  let! (graph, graph_reasons) := graph_risk_of args.(ia_graph) in
  let! (external, providers) := external_of args.(ia_external) in
  let r := Risks conf tamper (_clamp01 (fsub (litZ 1) network)) replay loc.(loc_geo) shared peer_risk loc.(loc_copresence)
             (_clamp01 (fmax (fmax shared peer_risk) loc.(loc_copresence))) loc.(loc_travel) loc.(loc_confidence)
             graph external in
  let drivers := driver_reasons_of r ml_score distinct_sess rule_hits args.(ia_ml_detail) in
  let! ev5m := counter features "event_count_5m" in
  Ok (context_dict args features tags drivers cal r loc.(loc_source) graph_reasons providers ev5m ev1h ev24).
End context.

(** * The recommended action *)

(** [v >= x] for a float [x]. *)
Definition num_ge (v : pyval) (x : float) : result bool :=
  match v with
  | PBool b => Ok (fleb x (if b then litZ 1 else f_zero))
  | PInt n => Ok (match cmp_Z_float n x with Some Lt | None => false | _ => true end)
  | PFloat f => Ok (fleb x f)
  | _ => Err TypeError
  end.

(** The hint before the integrity matrix. *)
Definition base_hint (decision : string) (tags : list string) (inference : dict) : result (option string) :=
  let low := eq_str (get inference "confidence_tier" (PStr "medium")) "low" in
  if bool_decide (decision = "review") then Ok (Some (if low then "step_up_mfa" else "manual_review"))
  else if mem "ingress:replay_payload" tags then Ok (Some "step_up_attestation")
  else
    let! tampered := num_ge (get inference "tamper_risk" (PInt 0)) (lit 5 10) in
    let! risky := if (tampered : bool) then Ok true else num_ge (get inference "replay_risk" (PInt 0)) (lit 5 10) in
    if (risky : bool) then Ok (Some "step_up_attestation")
    else if low then Ok (Some "step_up_mfa")
    else let! travel := num_ge (get inference "impossible_travel_risk" (PInt 0)) (lit 55 100) in
         Ok (if (travel : bool) then Some "step_up_mfa" else None).

Definition derive_recommended_action (decision : string) (signal_tags : list string) (inference : dict)
    : result (option string) :=
  if bool_decide (decision = "deny") then Ok (Some "block")
  else
    let! action := base_hint decision signal_tags inference in
    if startswith (opt_str action) "step_up" && has_key inference "integrity_confidence" then
      let! conf := try_except (py_float (get inference "integrity_confidence" PNone)) is_type_or_value_error f_zero in
      if fltb conf (min_integrity_confidence_for_platform (py_str (por (get inference "platform" PNone) (PStr "web"))))
      then Ok (Some "manual_review") else Ok action
    else Ok action.

(** The stage of the evaluate pipeline from the decision to the enforced action:
    [policies] are the loaded challenge policies, [setting] the configured
    default, [policy_id] the one the request names, [merged_tags] every tag of
    the evaluation and [payload] the event. *)
Definition recommend (lm : libm) (policies : dict) (setting : string) (policy_id : option string) (payload : dict)
    (decision : string) (signal_tags merged_tags rule_hits : list string) (ml_score : option float) (final_score : float)
    (features : dict) (args : inference_args) : result (dict * option string * string) :=
  let tags := append_new [] signal_tags in
  let! inf_ctx := build_inference_context lm tags rule_hits ml_score final_score features args in
  let! base := derive_recommended_action decision tags inf_ctx in
  let! (action, _) := apply_challenge_policy policies setting policy_id base decision inf_ctx merged_tags payload in
  Ok (inf_ctx, action, resolve_enforcement_action decision action).

(** * Correctness *)

Lemma clamp_unit x : binary64 x -> unit64 (_clamp01 x).
Proof. apply unit_clamp. Qed.
#[local] Hint Resolve clamp_unit : tarka.

Lemma try_64 (m : result float) catch h f :
  (forall x, m = Ok x -> binary64 x) -> binary64 h -> try_except m catch h = Ok f -> binary64 f.
Proof. intros Hm Hh. unfold try_except. destruct m as [x|e]; [|case_match]; intros [= <-]; auto. Qed.

Lemma try_unit (m : result float) catch h f :
  (forall x, m = Ok x -> unit64 x) -> unit64 h -> try_except m catch h = Ok f -> unit64 f.
Proof. intros Hm Hh. unfold try_except. destruct m as [x|e]; [|case_match]; intros [= <-]; auto. Qed.

Lemma div_64 x n : binary64 (over x n).
Proof.
  unfold over. destruct x as [sx|sx| |sx mx ex]; destruct (litZ n) as [sy|sy| |sy my ey]; try done.
  cbn [SFdiv]. destruct (SFdiv_core_binary prec emax (Zpos mx) ex (Zpos my) ey) as [[q e] l] eqn:E.
  apply binary_round_aux_64. revert E. unfold SFdiv_core_binary.
  match goal with |- context [Z.div_eucl ?a ?b] => pose proof (Z.div_pos a b) as Hq; unfold Z.div in Hq end.
  destruct (Z.div_eucl _ _) as [q' r]. intros [= <- <- <-]. apply Hq; [|lia].
  destruct (ex - ey - _); [lia|apply Z.shiftl_nonneg; lia|lia].
Qed.
#[local] Hint Resolve div_64 : tarka.

Lemma adjusted_unit base tamper bias platform tags pin :
  binary64 base -> unit64 tamper -> binary64 bias ->
  unit64 (adjusted base tamper bias platform tags pin).1 /\ unit64 (adjusted base tamper bias platform tags pin).2.
Proof.
  intros Hb Ht Hs. unfold adjusted. destruct (adjust_unit base platform tags pin Hb) as [Ha _].
  destruct (mem _ _); cbn [fst snd]; split; auto 6 with tarka.
  apply clamp_unit, fadd_64; [|done]. apply clamp_unit. apply fadd_64; done.
Qed.

Lemma bias_64 features f : floats64 features -> calibration_bias features = Ok f -> binary64 f.
Proof.
  intros Hf. unfold calibration_bias. destruct (try_except _ _ _) as [x|e] eqn:E; [|done].
  intros H. assert (f = fclamp (lit (-1) 10) (lit 1 10) x) as -> by (by injection H).
  apply fclamp_64; [apply lit_64..|]. refine (try_64 _ _ _ _ _ f_zero_64 E).
  intros y Hy. refine (py_float_64 _ _ (por_64 _ _ _ _) Hy); [by apply get_64|done].
Qed.

Lemma clamped_or_unit meta key old f :
  floats64 meta -> unit64 old -> clamped_or meta key old = Ok f -> unit64 f.
Proof.
  intros Hm Ho. apply try_unit; [|done]. intros x. destruct (py_float _) as [y|e] eqn:E; [|done].
  intros [= <-]. apply clamp_unit. eapply py_float_64; [|exact E]. apply get_64; [done|]. apply Ho.
Qed.

Definition opt64 (o : option dict) : Prop := match o with Some d => floats64 d | None => True end.

Definition location_unit (l : location) : Prop :=
  unit64 l.(loc_geo) /\ unit64 l.(loc_copresence) /\ unit64 l.(loc_travel) /\ unit64 l.(loc_confidence).

Lemma location_of_unit meta geo travel l :
  opt64 meta -> unit64 geo -> unit64 travel -> location_of meta geo travel = Ok l -> location_unit l.
Proof.
  intros Hm Hg Ht. unfold location_of. destruct meta as [[|kv m]|].
  1, 3: (intros [= <-]; unfold location_unit; cbn; auto with tarka).
  destruct (clamped_or _ "geo_consistency_risk" _) as [g|] eqn:E1; [|done]. cbn [rbind].
  destruct (clamped_or _ "copresence_risk" _) as [c|] eqn:E2; [|done]. cbn [rbind].
  destruct (clamped_or _ "impossible_travel_risk" _) as [t|] eqn:E3; [|done]. cbn [rbind].
  destruct (clamped_or _ "location_confidence" _) as [k|] eqn:E4; [|done]. intros [= <-].
  exact (conj (clamped_or_unit _ _ _ _ Hm Hg E1) (conj (clamped_or_unit _ _ _ _ Hm unit_zero E2)
           (conj (clamped_or_unit _ _ _ _ Hm Ht E3) (clamped_or_unit _ _ _ _ Hm unit_zero E4)))).
Qed.

Lemma boost_64 b x y : binary64 x -> binary64 y -> binary64 (boost b x y).
Proof. destruct b; cbn [boost]; auto with tarka. Qed.

Lemma velocity_64 geo a b c x : velocity_boost geo a b c = Ok x -> binary64 x.
Proof.
  unfold velocity_boost. set (x1 := boost _ f_zero _). set (x2 := boost _ x1 _).
  assert (H2 : binary64 x2) by (apply boost_64; [apply boost_64; [done|apply lit_64]|apply lit_64]). clearbody x2.
  destruct (0 <? b); [|by intros [= <-]]. destruct (int_div _ _); [|done]. cbn [rbind].
  intros H. assert (x = boost (fltb (lit 5 10) a0 && (15 <? a)) x2 (lit 2 10)) as -> by (by injection H).
  apply boost_64; [done|apply lit_64].
Qed.

Lemma speed_64 lm now prev x y : binary64 x -> speed_boost lm now prev x = Ok y -> binary64 y.
Proof.
  intros Hx. unfold speed_boost. destruct now as [[[la|] [lo|]] [ts|]], prev as [[[pla|] [plo|]] [pts|]];
    try (by intros [= <-]). destruct (fltb pts ts); [|by intros [= <-]].
  destruct (haversine_km _ _ _ _ _); [|done]. cbn [rbind]. destruct (fdiv _ _); [|done]. cbn [rbind].
  destruct (fltb (litZ 800) _); [|destruct (fltb (litZ 120) _)]; intros H; injection H as H; subst y;
    [apply (fadd_64 x (lit 45 100) Hx (lit_64 _ _))|apply (fadd_64 x (lit 25 100) Hx (lit_64 _ _))|done].
Qed.

Lemma zones_64 lm features la lo x geo y g :
  binary64 x -> unit64 geo -> zones_applied lm features la lo x geo = Ok (y, g) -> binary64 y /\ unit64 g.
Proof.
  intros Hx Hg. unfold zones_applied. destruct (get features "trusted_zones" PNone); try (by intros [= <- <-]).
  destruct (trusted_zone_hit _ _ _ _) as [[]|]; [|by intros [= <- <-]|done]. cbn [rbind].
  intros H. injection H as H1 H2. subst y g. split.
  - apply fmax_64; [done|]. apply (fsub_64 x (lit 35 100) Hx (lit_64 _ _)).
  - apply (unit_sub geo (lit 2 10) Hg (lit_64 _ _)). reflexivity.
Qed.

Lemma travel_unit lm features meta geo a b c l :
  opt64 meta -> unit64 geo -> travel_stage lm features meta geo a b c = Ok l -> location_unit l.
Proof.
  intros Hm Hg. unfold travel_stage. destruct (velocity_boost _ _ _ _) as [x|] eqn:E1; [|done]. cbn [rbind].
  destruct (parse_session_geo _) as [now|]; [|done]. cbn [rbind].
  destruct (previous_geo _) as [prev|]; [|done]. cbn [rbind].
  destruct (speed_boost _ _ _ _) as [y|] eqn:E2; [|done]. cbn [rbind].
  destruct (zones_applied _ _ _ _ _ _) as [[z g]|] eqn:E3; [|done]. cbn [rbind].
  apply velocity_64 in E1. apply (speed_64 _ _ _ _ _ E1) in E2. apply (zones_64 _ _ _ _ _ _ _ _ E2 Hg) in E3 as [Hz Hg'].
  apply location_of_unit; auto with tarka.
Qed.

Lemma graph_risk_unit meta f l : opt64 meta -> graph_risk_of meta = Ok (f, l) -> unit64 f.
Proof.
  intros Hm. unfold graph_risk_of. destruct meta as [[|kv m]|]; [intros [= <- _]; apply unit_zero| |intros [= <- _]; apply unit_zero].
  destruct (try_except _ _ _) as [x|] eqn:E; [|done]. intros [= <- _]. revert E. apply try_unit; [|apply unit_zero].
  intros y. destruct (py_float _); [|done]. intros [= <-]. apply clamp_unit, div_64.
Qed.

Lemma external_unit meta f l : external_of meta = Ok (f, l) -> unit64 f.
Proof.
  unfold external_of. destruct meta as [[|kv m]|]; [intros [= <- _]; apply unit_zero| |intros [= <- _]; apply unit_zero].
  destruct (try_except _ _ _) as [x|] eqn:E; [|done]. intros [= <- _]. revert E. apply try_unit; [|apply unit_zero].
  intros y. destruct (match get _ "risk_score" PNone with PNone => _ | _ => _ end); [|done]. intros [= <-].
  apply clamp_unit, div_64.
Qed.

Lemma scaled_unit b n cap : binary64 b -> unit64 (scaled b n cap).
Proof. intros Hb. apply clamp_unit, fadd_64; [done|apply fmul_64]. Qed.

Lemma shared_unit tags n : unit64 (shared_device_risk_of tags n).
Proof.
  unfold shared_device_risk_of. assert (Hb : unit64 (_clamp01 (if mem "sdk:shared_device" tags then lit 75 100 else f_zero))).
  { apply clamp_unit. destruct (mem _ _); [apply lit_64|done]. }
  destruct (2 <=? n); [|done]. apply unit_max; [done|]. apply scaled_unit, lit_64.
Qed.

Lemma peer_unit n : unit64 (graph_peer_risk_of n).
Proof. unfold graph_peer_risk_of. destruct (2 <=? n); [|apply unit_zero]. apply scaled_unit, lit_64. Qed.

Lemma marker_unit markers tags : unit64 (marker_risk markers tags).
Proof. apply clamp_unit, f_of_ratio_64. Qed.

Lemma replay_unit tags hits : unit64 (replay_risk_of tags hits).
Proof. apply clamp_unit, div_64. Qed.

Definition risks_list (r : risks) : list float :=
  [r.(rk_confidence); r.(rk_tamper); r.(rk_network_trust); r.(rk_replay); r.(rk_geo); r.(rk_shared); r.(rk_peer);
   r.(rk_copresence); r.(rk_colocation); r.(rk_travel); r.(rk_location_confidence); r.(rk_graph); r.(rk_external)].

Definition args64 (args : inference_args) : Prop := opt64 args.(ia_location) /\ opt64 args.(ia_graph).

(** A context that is built is the dictionary of some risks, all of the unit interval. *)
Lemma built_context lm tags hits ml final features args ctx :
  floats64 features -> args64 args ->
  build_inference_context lm tags hits ml final features args = Ok ctx ->
  exists drivers cal r src reasons providers a b c,
    ctx = context_dict args features tags drivers cal r src reasons providers a b c /\ Forall unit64 (risks_list r).
Proof.
  intros Hf [Hl Hg]. unfold build_inference_context.
  destruct (calibration_bias features) as [bias|] eqn:Eb; [|done]. apply bias_64 in Eb; [|done]. cbn [rbind].
  set (base := base_confidence _ _ _ _ _).
  assert (Hb : binary64 base) by (apply unit_clamp, fsub_64; [apply fsub_64; [apply litZ_64|]|apply fmul_64];
                                  repeat apply fadd_64; apply fmul_64).
  pose proof (adjusted_unit base _ bias (ia_platform args) tags (ia_pinning args) Hb (marker_unit tamper_markers tags) Eb) as [Ha1 Ha2].
  destruct (adjusted _ _ _ _ _ _) as [conf tamper]. cbn [fst snd] in Ha1, Ha2. clearbody base.
  destruct (calibration_of _ _) as [cal|]; [|done]. cbn [rbind].
  destruct (counter features "distinct_session_id_24h") as [n|]; [|done]. cbn [rbind].
  destruct (peer_count _ _) as [peer|]; [|done]. cbn [rbind].
  destruct (counter features "event_count_1h") as [ev1|]; [|done]. cbn [rbind].
  destruct (counter features "event_count_24h") as [ev24|]; [|done]. cbn [rbind].
  destruct (counter features "distinct_device_id_24h") as [dev|]; [|done]. cbn [rbind].
  destruct (travel_stage _ _ _ _ _ _ _) as [loc|] eqn:Et; [|done]. cbn [rbind].
  apply travel_unit in Et as (H1 & H2 & H3 & H4); [|done|apply marker_unit].
  destruct (graph_risk_of _) as [[graph reasons]|] eqn:Eg; [|done]. cbn [rbind]. apply graph_risk_unit in Eg; [|done].
  destruct (external_of _) as [[ext providers]|] eqn:Ee; [|done]. cbn [rbind]. apply external_unit in Ee.
  destruct (counter features "event_count_5m") as [ev5|]; [|done]. cbn [rbind]. intros <-%Ok_inj.
  do 9 eexists. split; [reflexivity|]. repeat (apply Forall_cons; split); try done.
  - apply clamp_unit, fsub_64; [apply litZ_64|]. apply marker_unit.
  - apply replay_unit.
  - apply shared_unit.
  - apply peer_unit.
  - apply clamp_unit, fmax_64; [apply fmax_64; [apply shared_unit|apply peer_unit]|apply H2].
Qed.

(** The scores a context reports. *)
Definition SCORES : list string :=
  ["integrity_confidence"; "tamper_risk"; "network_trust"; "replay_risk"; "geo_consistency_risk"; "shared_device_risk";
   "graph_peer_risk"; "geo_copresence_risk"; "colocation_risk"; "copresence_risk"; "impossible_travel_risk";
   "location_confidence"; "graph_risk_score"; "external_signal_score"].

(** C19: every score of an inference context is a number between 0 and 1,
    whatever the scores, tags, features and service answers it is built from:
    infinities and NaN are clamped and nothing leaves the unit interval through
    the adjustments or the rounding to four decimals. *)
Theorem inference_scores_unit lm tags hits ml final features args ctx :
  floats64 features -> args64 args ->
  build_inference_context lm tags hits ml final features args = Ok ctx ->
  Forall (fun k => exists f, get ctx k PNone = PFloat f /\ unit64 f) SCORES.
Proof.
  intros Hf Ha H. apply built_context in H as (? & ? & r & ? & ? & ? & ? & ? & ? & -> & Hr); [|done..].
  destruct r. cbn [risks_list rk_confidence rk_tamper rk_network_trust rk_replay rk_geo rk_shared rk_peer rk_copresence
    rk_colocation rk_travel rk_location_confidence rk_graph rk_external] in Hr.
  repeat (apply Forall_cons in Hr as [? Hr]). clear Hr.
  repeat (apply Forall_cons; split); try (apply Forall_nil; done);
    (eexists; split; [reflexivity|by apply unit_round]).
Qed.

(** A score of a context. *)
Definition score_of (ctx : dict) (k : string) : float := match get ctx k PNone with PFloat f => f | _ => f_nan end.

(** The confidence reaches the floor of the context's platform. *)
Definition confident (ctx : dict) : bool :=
  negb (fltb (score_of ctx "integrity_confidence")
             (min_integrity_confidence_for_platform (py_str (get ctx "platform" PNone)))).

(** What is recommended for a context. *)
Definition expected_action (decision : string) (tags : list string) (ctx : dict) : option string :=
  if bool_decide (decision = "deny") then Some "block"
  else if bool_decide (decision = "review") then Some "manual_review"
  else if mem "ingress:replay_payload" tags || fleb (lit 5 10) (score_of ctx "tamper_risk")
          || fleb (lit 5 10) (score_of ctx "replay_risk")
  then Some (if confident ctx then "step_up_attestation" else "manual_review")
  else if eq_str (get ctx "confidence_tier" PNone) "low" then Some "manual_review"
  else if fleb (lit 55 100) (score_of ctx "impossible_travel_risk")
  then Some (if confident ctx then "step_up_mfa" else "manual_review")
  else None.

(** A context of the low tier is below the floor of every platform. *)
Lemma low_tier_below_floor r platform :
  unit64 r -> bool_decide (confidence_tier r = "low") = true ->
  fltb (f_round r 4) (min_integrity_confidence_for_platform platform) = true.
Proof.
  intros (H64 & Hn & H1) Ht. unfold confidence_tier in Ht.
  destruct (fleb (lit 72 100) r); [done|]. destruct (fleb (lit 42 100) r) eqn:E; [done|].
  assert (Hnan : is_nan r = false) by (by apply nonneg_not_nan).
  assert (Hlt : fltb r (lit 42 100) = true) by (rewrite fltb_not_fleb, E by done; done).
  pose proof (round4_low r H64 (nonneg_ge0 r Hn) Hlt) as Hlow. pose proof (floor_at_least_half platform) as Hfl.
  set (fl := min_integrity_confidence_for_platform platform) in *. clearbody fl.
  destruct (fleb_not_nan _ _ Hfl) as [Hh Hf]. destruct (fleb_not_nan _ _ (fltb_fleb _ _ Hlow)) as [Hr _].
  rewrite fltb_not_fleb in Hlow |- * by done. apply negb_true_iff in Hlow. apply negb_true_iff.
  destruct (fleb fl (f_round r 4)) eqn:El; [|done]. rewrite (fleb_trans _ _ _ Hfl El) in Hlow. done.
Qed.

Lemma derive_step_up decision tags ctx a conf plat :
  decision <> "deny" -> base_hint decision tags ctx = Ok (Some a) -> startswith a "step_up" = true ->
  get ctx "integrity_confidence" PNone = PFloat conf -> has_key ctx "integrity_confidence" = true ->
  get ctx "platform" PNone = PStr plat -> nonempty plat = true ->
  derive_recommended_action decision tags ctx
  = Ok (Some (if fltb conf (min_integrity_confidence_for_platform plat) then "manual_review" else a)).
Proof.
  intros Hd Hb Ha Hc Hk Hp Hne. unfold derive_recommended_action. rewrite bool_decide_eq_false_2 by done.
  rewrite Hb. cbn [rbind]. change (opt_str (Some a)) with a. rewrite Ha, Hk, Hc, Hp. cbn [andb py_float try_except rbind].
  assert (Hpor : por (PStr plat) (PStr "web") = PStr plat) by (unfold por; cbn [truthy]; by destruct plat).
  rewrite Hpor. cbn [py_str]. by destruct (fltb _ _).
Qed.

Lemma derive_plain decision tags ctx o :
  decision <> "deny" -> base_hint decision tags ctx = Ok o -> startswith (opt_str o) "step_up" = false ->
  derive_recommended_action decision tags ctx = Ok o.
Proof.
  intros Hd Hb Ho. unfold derive_recommended_action. rewrite bool_decide_eq_false_2, Hb by done. cbn [rbind].
  by rewrite Ho.
Qed.

(** The hint of a built context, case by case. *)
Lemma derive_exact lm tags hits ml final features args ctx decision :
  floats64 features -> args64 args ->
  build_inference_context lm tags hits ml final features args = Ok ctx ->
  derive_recommended_action decision tags ctx = Ok (expected_action decision tags ctx).
Proof.
  intros Hf Ha H. apply built_context in H as (drivers & cal & r & src & reasons & prov & a & b & c & Hctx & Hr); [|done..].
  apply Forall_cons in Hr as [Hconf _].
  assert (Hc : get ctx "integrity_confidence" PNone = PFloat (f_round r.(rk_confidence) 4)) by (by subst ctx).
  assert (Hk : has_key ctx "integrity_confidence" = true) by (by subst ctx).
  assert (Hp : get ctx "platform" PNone = PStr (str_or (plat_of args.(ia_platform)) "web")) by (by subst ctx).
  assert (Ht : forall d, get ctx "confidence_tier" d = PStr (confidence_tier r.(rk_confidence))) by (by subst ctx).
  assert (H1 : forall d, get ctx "tamper_risk" d = PFloat (f_round r.(rk_tamper) 4)) by (by subst ctx).
  assert (H2 : forall d, get ctx "replay_risk" d = PFloat (f_round r.(rk_replay) 4)) by (by subst ctx).
  assert (H3 : forall d, get ctx "impossible_travel_risk" d = PFloat (f_round r.(rk_travel) 4)) by (by subst ctx).
  clear Hctx. set (plat := str_or (plat_of args.(ia_platform)) "web") in *.
  assert (Hne : nonempty plat = true) by (subst plat; unfold str_or; destruct (nonempty (plat_of _)) eqn:E; done). clearbody plat.
  assert (Hstep : forall x, decision <> "deny" -> base_hint decision tags ctx = Ok (Some x) -> startswith x "step_up" = true ->
    derive_recommended_action decision tags ctx
    = Ok (Some (if fltb (f_round (rk_confidence r) 4) (min_integrity_confidence_for_platform plat) then "manual_review" else x)))
    by (intros; by apply derive_step_up).
  pose proof (low_tier_below_floor _ plat Hconf) as Hlow.
  unfold expected_action, confident, score_of. rewrite Hc, Hp, Ht, H1, H2, H3. cbn [py_str].
  change (eq_str (PStr (confidence_tier (rk_confidence r))) "low") with (bool_decide (confidence_tier (rk_confidence r) = "low")).
  destruct (decide (decision = "deny")) as [-> | Hd]; [done|]. rewrite bool_decide_eq_false_2 by done.
  set (low := bool_decide (confidence_tier (rk_confidence r) = "low")) in *.
  assert (Hhint : base_hint decision tags ctx =
    Ok (if bool_decide (decision = "review") then Some (if low then "step_up_mfa" else "manual_review")
        else if mem "ingress:replay_payload" tags || fleb (lit 5 10) (f_round (rk_tamper r) 4)
                || fleb (lit 5 10) (f_round (rk_replay r) 4) then Some "step_up_attestation"
        else if low then Some "step_up_mfa"
        else if fleb (lit 55 100) (f_round (rk_travel r) 4) then Some "step_up_mfa" else None)).
  { unfold base_hint. rewrite Ht, H1, H2, H3. cbn [num_ge rbind].
    change (eq_str (PStr (confidence_tier (rk_confidence r))) "low") with low. clearbody low.
    destruct (bool_decide _); [done|]. destruct (mem _ _); [done|]. destruct (fleb _ _); [done|]. cbn [rbind orb].
    destruct (fleb _ _); [done|]. by destruct low. }
  destruct (bool_decide (decision = "review")).
  { destruct low; [rewrite (Hstep _ Hd Hhint eq_refl), Hlow by done; done|by rewrite (derive_plain _ _ _ _ Hd Hhint)]. }
  destruct (_ || _ || _); [rewrite (Hstep _ Hd Hhint eq_refl); by destruct (fltb _ _)|].
  destruct low; [by rewrite (Hstep _ Hd Hhint eq_refl), Hlow by done|].
  destruct (fleb _ _); [rewrite (Hstep _ Hd Hhint eq_refl); by destruct (fltb _ _)|by rewrite (derive_plain _ _ _ _ Hd Hhint)].
Qed.

(** C3: on every built context the recommended action is exactly this: [block]
    for a deny; [manual_review] for a review and for a context of the low tier;
    otherwise an attestation step-up for replay or tampering and an MFA step-up
    for impossible travel, each only when the integrity confidence reaches the
    floor of the platform and [manual_review] below it; nothing otherwise.  In
    particular the low tier, for which the code first chooses [step_up_mfa],
    never gets it: its confidence is below every floor. *)
Theorem recommended_action_exact lm tags hits ml final features args ctx decision :
  floats64 features -> args64 args ->
  build_inference_context lm tags hits ml final features args = Ok ctx ->
  derive_recommended_action decision tags ctx = Ok (expected_action decision tags ctx).
Proof. apply derive_exact. Qed.

(** * Examples *)

(** Stand-ins for the library's functions that raise on infinities, as they do. *)
Definition demo_libm : libm :=
  let finite x := if is_inf x then Err ValueError else Ok x in Libm finite finite finite (fun x => Ok (fmul x x)).
Definition demo_args (platform : string) : inference_args := InferenceArgs None platform None None None None None None.
Definition demo_context (tags : list string) (features : dict) : result dict :=
  build_inference_context demo_libm tags [] None (litZ 20) features (demo_args "web").

Definition tampered : list string := tamper_markers ++ network_markers ++ geo_markers ++ ["ingress:replay_payload"].

Lemma inference_scores_unit_witness :
  exists ctx, demo_context ["sdk:vpn"] [] = Ok ctx
    /\ Forall (fun k => exists f, get ctx k PNone = PFloat f /\ unit64 f) SCORES.
Proof.
  destruct (demo_context ["sdk:vpn"] []) as [ctx|e] eqn:E; [|vm_compute in E; discriminate E].
  exists ctx. split; [reflexivity|].
  apply (inference_scores_unit demo_libm ["sdk:vpn"] [] None (litZ 20) [] (demo_args "web") ctx);
    [constructor|split; exact I|exact E].
Defined.

Lemma recommended_action_exact_witness :
  exists ctx, demo_context tampered [] = Ok ctx /\ get ctx "confidence_tier" PNone = PStr "low"
    /\ derive_recommended_action "review" tampered ctx = Ok (Some "manual_review").
Proof.
  destruct (demo_context tampered []) as [ctx|e] eqn:E; [|vm_compute in E; discriminate E].
  exists ctx. split; [reflexivity|]. split; [vm_compute in E; injection E as <-; reflexivity|].
  apply (recommended_action_exact demo_libm tampered [] None (litZ 20) [] (demo_args "web") ctx "review");
    [constructor|split; exact I|exact E].
Defined.

(** An infinite coordinate and a counter that is not a number end the
    evaluation: neither is caught. *)
Example bad_features_raise :
  let fix_at lat := [("session_last_lat", PStr lat); ("session_last_lon", PInt 2); ("session_last_ts", PInt 9);
                     ("session_prev_lat", PInt 1); ("session_prev_lon", PInt 2); ("session_prev_ts", PInt 3)] in
  demo_context [] (fix_at "inf") = Err ValueError
  /\ is_ok (demo_context [] (fix_at "4.5")) = true
  /\ demo_context [] [("event_count_1h", PStr "many")] = Err ValueError.
Proof. vm_compute. auto. Qed.

(** A calibration bias that is not a number counts as the largest one. *)
Example nan_bias_raises_confidence :
  let conf f := match demo_context ["sdk:vpn"] f with Ok ctx => score_of ctx "integrity_confidence" | Err _ => f_nan end in
  fltb (conf []) (conf [("calibration_bias", PStr "nan")]) = true
  /\ conf [("calibration_bias", PStr "nan")] = conf [("calibration_bias", PStr "0.1")].
Proof. vm_compute. auto. Qed.
