(* ===== verification/EvalSteps.v ===== *)
(** The frame of an evaluation: bounded steps ([decision_api/eval_steps.py]),
    the step graph ([decision_api/eval_dag.py]) and load shedding
    ([decision_api/eval_load_guard.py]).

    An attempt of a step is what awaiting it under its timeout gives; the
    metrics, the logs and the pauses between attempts are left out. *)

From Stdlib Require Import ZArith Lia Ascii String Bool.
From stdpp Require Import base option list relations sorting strings gmap.
From S2P Require Import Prelude PyFloat PyValue.
Local Open Scope Z_scope.

(** * Bounded steps *)

Inductive hop_attempt (A : Type) : Type :=
| Returned (v : A)
| TimedOut
| HttpError (name : string)
| Raised (name : string).
Arguments Returned {A} v.
Arguments TimedOut {A}.
Arguments HttpError {A} name.
Arguments Raised {A} name.

(** [last_err] after an attempt that does not return. *)
Definition attempt_error {A : Type} (a : hop_attempt A) : option string :=
  match a with
  | Returned _ => None
  | TimedOut => Some "timeout"
  | HttpError n => Some ("http_error:" +:+ n)
  | Raised n => Some ("error:" +:+ n)
  end.

Inductive on_failure : Type := SKIP | REJECT.

(** The trace row; [ms] is the elapsed time. *)
Definition step_row (step : string) (attempts : Z) (status : string) (reason : option string) (ms : float) : dict :=
  [("step", PStr step); ("attempts", PInt attempts); ("status", PStr status)]
  ++ match reason with Some r => [("reason", PStr r)] | None => [] end
  ++ [("duration_ms", PFloat (f_round ms 2))].

Section step.
Context {A : Type} (step : string) (factory : nat -> hop_attempt A) (policy : on_failure) (fallback : A) (ms : float).

(** The attempts from the [i]-th on, [left] of them allowed. *)
Fixpoint attempts_from (i left : nat) (last_err : option string) : (A * nat) + option string :=
  match left with
  | O => inr last_err
  | S left' =>
      match factory i with
      | Returned v => inl (v, S i)
      | a => attempts_from (S i) left' (attempt_error a)
      end
  end.

Definition attempt_limit (max_attempts : Z) : nat := Z.to_nat (Z.max 1 (Z.min max_attempts 5)).

Definition run_evaluation_step (max_attempts : Z) : result (A * dict) :=
  let n := attempt_limit max_attempts in
  match attempts_from 0 n None with
  | inl (v, k) => Ok (v, step_row step (Z.of_nat k) "ok" None ms)
  | inr last_err =>
      match policy with
      | REJECT => Err (OtherError "RuntimeError")
      | SKIP => Ok (fallback, step_row step (Z.of_nat n) "skipped" (Some (str_or (opt_str last_err) "unknown")) ms)
      end
  end.
End step.

(** * The step graph *)

Definition STEP_DEPENDENCIES : list (string * list string) :=
  [("counter_snapshot", ["feature_snapshot"]); ("location_eval", ["feature_snapshot"]); ("opa", ["feature_snapshot"]);
   ("ml_score", ["feature_snapshot"]); ("calibration_adjustment", ["opa"; "ml_score"])].

Section dag.
Context (deps : list (string * list string)).

Definition _all_step_ids : list string := remove_dups (flat_map (fun cd => cd.1 :: cd.2) deps).

(** [in_degree] and [adj]. *)
Definition in_degrees : gmap string Z :=
  foldl (fun m cd => <[cd.1 := Z.of_nat (length cd.2)]> m) (list_to_map ((fun n => (n, 0)) <$> _all_step_ids)) deps.

Definition children (u : string) : list string :=
  flat_map (fun cd => map (fun _ => cd.1) (List.filter (fun d => bool_decide (d = u)) cd.2)) deps.

(** The inner loop over the sorted children of the node taken from the queue. *)
Fixpoint release (vs : list string) (deg : gmap string Z) (q : list string) : gmap string Z * list string :=
  match vs with
  | [] => (deg, q)
  | v :: vs' =>
      let d := default 0 (deg !! v) - 1 in
      release vs' (<[v := d]> deg) (if d =? 0 then q ++ [v] else q)
  end.

Fixpoint kahn (fuel : nat) (deg : gmap string Z) (q order : list string) : list string :=
  match fuel, q with
  | S fuel', u :: q' =>
      let '(deg', q'') := release (merge_sort String.le (children u)) deg q' in kahn fuel' deg' q'' (order ++ [u])
  | _, _ => order
  end.

(** Every node is queued at most once, so as many rounds as nodes are enough. *)
Definition validate_evaluation_dag : result (list string) :=
  let nodes := _all_step_ids in
  let q := merge_sort String.le (List.filter (fun n => bool_decide (in_degrees !! n = Some 0)) nodes) in
  let order := kahn (length nodes) in_degrees q [] in
  if bool_decide (length order = length nodes) then Ok order else Err ValueError.
End dag.

(** [EvalDAGRuntime]: a trace is read by its status. *)
Definition trace_ok (trace : dict) : bool := eq_str (get trace "status" PNone) "ok".

Definition include_graph (load_shed : bool) : bool := negb load_shed.
Definition include_ml (load_shed : bool) (snapshot_trace : dict) : bool := negb load_shed && trace_ok snapshot_trace.
Definition include_calibration (load_shed : bool) (opa_trace ml_trace : dict) : bool :=
  negb load_shed && (trace_ok opa_trace && trace_ok ml_trace).
Definition ml_skip_reason (load_shed : bool) (snapshot_trace : dict) : string :=
  if load_shed then "load_shedding" else if negb (trace_ok snapshot_trace) then "skipped_due_to_dependency_failure" else "unknown".

(** * Load shedding *)

Record EvalLoadGuard : Type := Guard { g_max : Z; g_active : Z }.

Definition new_guard (max_concurrent : Z) : EvalLoadGuard := Guard (Z.max 1 max_concurrent) 0.

(** [(load_shed, acquired_slot)]; each call runs under the guard's lock. *)
Definition try_enter (g : EvalLoadGuard) : EvalLoadGuard * (bool * bool) :=
  if g.(g_max) <=? g.(g_active) then (g, (true, false)) else (Guard g.(g_max) (g.(g_active) + 1), (false, true)).

Definition leave (g : EvalLoadGuard) : EvalLoadGuard := Guard g.(g_max) (Z.max 0 (g.(g_active) - 1)).

(** The requests inside [acquire_eval_capacity], with whether each holds a slot. *)
Record capacity : Type := Capacity { cp_guard : EvalLoadGuard; cp_inside : gmap nat bool }.

(** One request enters or leaves the block, in any order and by any exit of its body. *)
Inductive capacity_step : capacity -> capacity -> Prop :=
| enters id c :
    cp_inside c !! id = None ->
    capacity_step c (Capacity (try_enter c.(cp_guard)).1 (<[id := (try_enter c.(cp_guard)).2.2]> c.(cp_inside)))
| leaves id acquired c :
    cp_inside c !! id = Some acquired ->
    capacity_step c (Capacity (if (acquired : bool) then leave c.(cp_guard) else c.(cp_guard)) (delete id c.(cp_inside))).

(** * Correctness *)

(** ** The step graph *)

Section dag_facts.
Context (deps : list (string * list string)).

(** What a step depends on. *)
Definition deps_of (v : string) : list string := flat_map (fun cd => if bool_decide (cd.1 = v) then cd.2 else []) deps.

(** Every step comes after all it depends on. *)
Definition topological (order : list string) : Prop :=
  forall pre v post, order = pre ++ v :: post -> forall d, d ∈ deps_of v -> d ∈ pre.

Lemma node_dep v d : d ∈ deps_of v -> d ∈ _all_step_ids deps /\ v ∈ _all_step_ids deps.
Proof.
  unfold deps_of, _all_step_ids. rewrite !elem_of_remove_dups, !list_elem_of_In, !in_flat_map.
  intros (cd & Hcd & Hd). case_bool_decide as Hv; [|done]. subst v.
  split; exists cd; split; try done; [by right|by left].
Qed.

End dag_facts.

Lemma foldl_degrees (deps : list (string * list string)) (m : gmap string Z) v :
  NoDup deps.*1 ->
  foldl (fun m cd => <[cd.1 := Z.of_nat (length cd.2)]> m) m deps !! v
  = if bool_decide (v ∈ deps.*1) then Some (Z.of_nat (length (deps_of deps v))) else m !! v.
Proof.
  revert m. induction deps as [|[c ds] deps IH]; intros m Hnd; [done|].
  apply NoDup_cons in Hnd as [Hc Hnd]. cbn [foldl fst snd fmap list_fmap]. rewrite IH by done.
  unfold deps_of at 2. cbn [flat_map fst snd]. fold (deps_of deps v).
  destruct (decide (v = c)) as [-> | Hne].
  - rewrite (bool_decide_eq_false_2 (c ∈ deps.*1)), !bool_decide_eq_true_2 by (done || left).
    rewrite lookup_insert_eq. enough (deps_of deps c = []) as -> by (by rewrite app_nil_r).
    unfold deps_of. clear -Hc. induction deps as [|[c' ds'] deps IH]; [done|]. cbn [flat_map fst snd fmap list_fmap] in *.
    rewrite bool_decide_eq_false_2 by set_solver. apply IH. set_solver.
  - rewrite (bool_decide_eq_false_2 (c = v)) by done. rewrite lookup_insert_ne by done. cbn [app].
    rewrite (bool_decide_ext (v ∈ c :: deps.*1) (v ∈ deps.*1)) by set_solver. done.
Qed.

Lemma in_degree_count deps v :
  NoDup deps.*1 -> v ∈ _all_step_ids deps -> in_degrees deps !! v = Some (Z.of_nat (length (deps_of deps v))).
Proof.
  intros Hnd Hv. unfold in_degrees. rewrite foldl_degrees by done. case_bool_decide as Hk; [done|].
  assert (Hz : deps_of deps v = []).
  { unfold deps_of. clear -Hk. induction deps as [|[c ds] deps IH]; [done|]. cbn [flat_map fst snd fmap list_fmap] in *.
    rewrite bool_decide_eq_false_2 by set_solver. apply IH. set_solver. }
  rewrite Hz. cbn [length]. apply elem_of_list_to_map_1; [|apply list_elem_of_fmap; eauto].
  rewrite <- list_fmap_compose. rewrite list_fmap_id. unfold _all_step_ids. apply NoDup_remove_dups.
Qed.

Definition occ (x : string) (l : list string) : Z := Z.of_nat (length (List.filter (fun d => bool_decide (d = x)) l)).

Lemma occ_app x l k : occ x (l ++ k) = occ x l + occ x k.
Proof. unfold occ. rewrite List.filter_app, length_app. lia. Qed.

(** A step is listed below another as often as it depends on it. *)
Lemma occ_children deps u v : occ v (children deps u) = occ u (deps_of deps v).
Proof.
  unfold children, deps_of. induction deps as [|[c ds] deps IH]; [done|]. cbn [flat_map fst snd].
  rewrite !occ_app, IH. f_equal. case_bool_decide as Hc; [subst c|].
  - unfold occ. induction ds as [|d ds IHd]; [done|]. cbn [List.filter]. case_bool_decide; cbn [map List.filter length]; [|done].
    rewrite bool_decide_eq_true_2 by done. cbn [length]. lia.
  - unfold occ. induction ds as [|d ds IHd]; [done|]. cbn [List.filter]. case_bool_decide; cbn [map List.filter length]; [|done].
    by rewrite bool_decide_eq_false_2.
Qed.

Lemma occ_cons x y l : occ x (y :: l) = (if bool_decide (y = x) then 1 else 0) + occ x l.
Proof. unfold occ. cbn [List.filter]. case_bool_decide; cbn [length]; lia. Qed.

Lemma occ_nonneg x l : 0 <= occ x l.
Proof. unfold occ. lia. Qed.

Lemma occ_pos x l : x ∈ l <-> 0 < occ x l.
Proof.
  induction l as [|y l IH]; [split; [by intros ?%not_elem_of_nil|done]|]. rewrite occ_cons, elem_of_cons, IH.
  pose proof (occ_nonneg x l). case_bool_decide; [|split; [intros [->|]; [done|lia]|intros; right; lia]].
  split; [lia|]. by left.
Qed.

Lemma occ_perm x l k : l ≡ₚ k -> occ x l = occ x k.
Proof. induction 1; rewrite ?occ_cons; lia. Qed.

(** What the inner loop does when no degree becomes negative. *)
Lemma release_spec vs : forall deg q deg' q',
  release vs deg q = (deg', q') ->
  (forall v, v ∈ vs -> exists d, deg !! v = Some d /\ occ v vs <= d) ->
  (forall v d, deg !! v = Some d -> deg' !! v = Some (d - occ v vs))
  /\ exists new, q' = q ++ new /\ NoDup new /\ forall v, v ∈ new <-> v ∈ vs /\ deg !! v = Some (occ v vs).
Proof.
  induction vs as [|v vs IH]; intros deg q deg' q' Hr Hd.
  { injection Hr as <- <-. split; [intros v d Hv; rewrite Hv; change (occ v []) with 0; by rewrite Z.sub_0_r|].
    exists []. rewrite app_nil_r. split_and!; [done|constructor|set_solver]. }
  destruct (Hd v ltac:(by left)) as (d0 & Hv & Hle). cbn [release] in Hr. rewrite Hv in Hr. cbn [default from_option id] in Hr.
  rewrite occ_cons, bool_decide_eq_true_2 in Hle by done. pose proof (occ_nonneg v vs) as H0.
  apply IH in Hr as [H1 (new & -> & Hnd & Hnew)].
  2:{ intros w Hw. destruct (decide (w = v)) as [-> | Hne].
      - exists (d0 - 1). rewrite lookup_insert_eq. split; [done|lia].
      - destruct (Hd w ltac:(by right)) as (d & Hwd & Hwl). exists d. rewrite lookup_insert_ne by done. split; [done|].
        rewrite occ_cons, bool_decide_eq_false_2 in Hwl by done. lia. }
  assert (Hother : forall w, w <> v -> w ∈ new <-> w ∈ v :: vs /\ deg !! w = Some (occ w (v :: vs))).
  { intros w Hne. rewrite Hnew, lookup_insert_ne, occ_cons, bool_decide_eq_false_2 by done. rewrite elem_of_cons. intuition. }
  split.
  { intros w d Hw. destruct (decide (w = v)) as [-> | Hne].
    - rewrite (H1 v (d0 - 1)) by apply lookup_insert_eq. rewrite occ_cons, bool_decide_eq_true_2 by done. f_equal.
      assert (d = d0) by congruence. lia.
    - rewrite (H1 w d) by (by rewrite lookup_insert_ne). rewrite occ_cons, bool_decide_eq_false_2 by done. f_equal; lia. }
  destruct (Z.eqb_spec (d0 - 1) 0) as [Hz|Hz].
  - assert (Hno : ~ v ∈ vs) by (rewrite occ_pos; lia). exists (v :: new). rewrite <- app_assoc. split; [done|].
    split; [constructor; [rewrite Hnew; tauto|done]|]. intros w. destruct (decide (w = v)) as [-> | Hne].
    + split; [|by left]. intros _. split; [left|]. rewrite Hv, occ_cons, bool_decide_eq_true_2 by done. f_equal. lia.
    + rewrite elem_of_cons, Hother by done. tauto.
  - exists new. split_and!; [done|done|]. intros w. destruct (decide (w = v)) as [-> | Hne]; [|by apply Hother].
    rewrite Hnew, lookup_insert_eq, Hv, occ_cons, bool_decide_eq_true_2, occ_pos by done. rewrite (occ_pos v (v :: vs)), occ_cons,
      bool_decide_eq_true_2 by done. split; intros [? [= ?]]; (split; [lia|f_equal; lia]).
Qed.

Section kahn_facts.
Context (deps : list (string * list string)) (Hkeys : NoDup deps.*1).
Local Abbreviation nodes := (_all_step_ids deps).

(** What a step still waits for. *)
Definition waiting (v : string) (order : list string) : Z :=
  Z.of_nat (length (List.filter (fun d => negb (mem d order)) (deps_of deps v))).

Record kahn_inv (deg : gmap string Z) (q order : list string) : Prop := KahnInv {
  ki_nodup : NoDup (order ++ q);
  ki_ready : forall v, v ∈ order ++ q <-> v ∈ nodes /\ waiting v order = 0;
  ki_degree : forall v, v ∈ nodes -> deg !! v = Some (waiting v order);
  ki_order : topological deps order }.

Lemma waiting_pop v u order : ~ u ∈ order -> waiting v (order ++ [u]) = waiting v order - occ u (deps_of deps v).
Proof.
  intros Hu. unfold waiting, occ. induction (deps_of deps v) as [|d l IH]; [done|]. cbn [List.filter].
  assert (Hm : mem d (order ++ [u]) = mem d order || bool_decide (d = u)).
  { unfold mem. rewrite <- bool_decide_or. apply bool_decide_ext. set_solver. }
  rewrite Hm. case_bool_decide as Hd.
  - subst d. assert (mem u order = false) as -> by (by apply bool_decide_eq_false_2). cbn [orb negb length]. lia.
  - rewrite orb_false_r. destruct (mem d order); cbn [negb length]; lia.
Qed.

Lemma waiting_zero v order : waiting v order = 0 -> forall d, d ∈ deps_of deps v -> d ∈ order.
Proof.
  unfold waiting. intros H d Hd. destruct (List.filter _ _) as [|x l] eqn:E; [|simpl in H; lia].
  destruct (mem d order) eqn:Em; [by apply bool_decide_eq_true in Em|].
  assert (Hin : In d (List.filter (fun d => negb (mem d order)) (deps_of deps v)))
    by (apply List.filter_In; rewrite Em; split; [by apply list_elem_of_In|done]).
  by rewrite E in Hin.
Qed.

Lemma waiting_none v order : (forall d, d ∈ deps_of deps v -> d ∈ order) -> waiting v order = 0.
Proof.
  unfold waiting. intros H. destruct (List.filter _ _) as [|x l] eqn:E; [done|].
  assert (Hx : In x (x :: l)) by (by left). rewrite <- E in Hx. apply List.filter_In in Hx as [Hx Hm].
  apply list_elem_of_In, H in Hx. apply negb_true_iff, bool_decide_eq_false in Hm. done.
Qed.

Lemma topological_snoc order u :
  topological deps order -> (forall d, d ∈ deps_of deps u -> d ∈ order) -> topological deps (order ++ [u]).
Proof.
  intros Ht Hu pre v post Heq d Hd. destruct (decide (post = [])) as [-> | Hp].
  - apply app_inj_tail in Heq as [-> ->]. by apply Hu.
  - destruct (exists_last Hp) as (post' & x & ->). rewrite app_comm_cons, app_assoc in Heq.
    apply app_inj_tail in Heq as [-> _]. by eapply Ht.
Qed.

Lemma kahn_pop deg u q order deg' q' :
  kahn_inv deg (u :: q) order -> release (merge_sort String.le (children deps u)) deg q = (deg', q') ->
  kahn_inv deg' q' (order ++ [u]).
Proof.
  intros [Hnd Hready Hdeg Htop] Hr.
  assert (Hu : u ∈ nodes /\ waiting u order = 0) by (apply Hready; set_solver).
  assert (Hno : ~ u ∈ order) by (apply NoDup_app in Hnd as (_ & Hx & _); intros H; by apply (Hx u H); left).
  assert (Hocc : forall v, occ v (merge_sort String.le (children deps u)) = occ u (deps_of deps v)).
  { intros v. by rewrite <- occ_children, (occ_perm _ _ _ (merge_sort_Permutation String.le (children deps u))). }
  set (vs := merge_sort String.le (children deps u)) in *. clearbody vs.
  assert (Hnode : forall v, v ∈ vs -> v ∈ nodes).
  { intros v Hv. apply occ_pos in Hv. rewrite Hocc in Hv. apply occ_pos, node_dep in Hv. tauto. }
  assert (Hw : forall v, waiting v (order ++ [u]) = waiting v order - occ v vs) by (intros; by rewrite waiting_pop, Hocc).
  assert (Hpos : forall v l, 0 <= waiting v l) by (intros; unfold waiting; lia).
  apply release_spec in Hr as [Hd' (new & -> & Hnew & Hin)].
  2:{ intros v Hv. exists (waiting v order). split; [by apply Hdeg, Hnode|]. specialize (Hpos v (order ++ [u])). rewrite Hw in Hpos. lia. }
  assert (Hin' : forall v, v ∈ new <-> v ∈ vs /\ waiting v order = occ v vs).
  { intros v. rewrite Hin. split; intros [Hv He]; (split; [done|]); rewrite (Hdeg v (Hnode v Hv)) in *; congruence. }
  assert (Hfresh : forall v, v ∈ new -> ~ v ∈ order ++ u :: q).
  { intros v [Hv He]%Hin' [_ Hz]%Hready. apply occ_pos in Hv. lia. }
  split.
  - rewrite <- app_assoc. cbn [app]. rewrite app_comm_cons, app_assoc. apply NoDup_app. split_and!; [done| |done].
    intros v Hv Hn. by apply (Hfresh v Hn).
  - intros v. rewrite Hw. rewrite <- app_assoc. cbn [app]. rewrite app_comm_cons, app_assoc, elem_of_app, Hready, Hin'.
    pose proof (occ_nonneg v vs). specialize (Hpos v (order ++ [u])). rewrite Hw in Hpos. split.
    + intros [[Hv Hz]|[Hv Hz]]; [split; [done|lia]|]. split; [by apply Hnode|lia].
    + intros [Hv Hz]. destruct (decide (v ∈ vs)) as [Hm|Hm]; [right; split; [done|lia]|left; split; [done|]].
      rewrite occ_pos in Hm. lia.
  - intros v Hv. rewrite Hw. by apply Hd', Hdeg.
  - apply topological_snoc; [done|]. apply waiting_zero. tauto.
Qed.

Lemma kahn_run fuel : forall deg q order,
  kahn_inv deg q order ->
  exists deg' q', kahn_inv deg' q' (kahn deps fuel deg q order)
    /\ (q' = [] \/ length (kahn deps fuel deg q order) = (fuel + length order)%nat).
Proof.
  induction fuel as [|fuel IH]; intros deg q order Hi; cbn [kahn]; [eauto|].
  destruct q as [|u q]; [eauto|].
  destruct (release (merge_sort String.le (children deps u)) deg q) as [deg' q'] eqn:E.
  destruct (IH deg' q' (order ++ [u])) as (d & r & Hr & Hl); [by eapply kahn_pop|].
  exists d, r. split; [done|]. destruct Hl as [|Hl]; [by left|right]. rewrite Hl, length_app. simpl. lia.
Qed.

Lemma waiting_nil v : waiting v [] = Z.of_nat (length (deps_of deps v)).
Proof.
  unfold waiting. do 2 f_equal. induction (deps_of deps v) as [|d l IH]; [done|]. cbn [List.filter].
  change (mem d []) with false. cbn [negb]. by rewrite IH.
Qed.

Lemma kahn_start :
  kahn_inv (in_degrees deps)
    (merge_sort String.le (List.filter (fun n => bool_decide (in_degrees deps !! n = Some 0)) nodes)) [].
Proof.
  assert (Hn : NoDup nodes) by apply NoDup_remove_dups.
  split; cbn [app].
  - rewrite merge_sort_Permutation. by apply filter_nodup.
  - intros v. rewrite merge_sort_Permutation, filter_elem, waiting_nil, bool_decide_eq_true.
    split; intros [Hv H]; (split; [done|]); rewrite (in_degree_count _ _ Hkeys Hv) in *; congruence.
  - intros v Hv. by rewrite waiting_nil, in_degree_count.
  - intros pre v post H. by destruct pre.
Qed.

(** A complete order without repetitions that respects every dependency. *)
Definition dag_order (order : list string) : Prop :=
  NoDup order /\ (forall v, v ∈ order <-> v ∈ nodes) /\ topological deps order.
End kahn_facts.

Lemma subset_length (l k : list string) : NoDup l -> (forall v, v ∈ l -> v ∈ k) -> (length l <= length k)%nat.
Proof. intros Hl Hs. apply submseteq_length. by apply NoDup_submseteq. Qed.

Lemma subset_full (l k : list string) :
  NoDup l -> (forall v, v ∈ l -> v ∈ k) -> length l = length k -> forall v, v ∈ k -> v ∈ l.
Proof.
  intros Hl Hs He v Hv. rewrite (submseteq_length_Permutation l k); [done| |lia]. by apply NoDup_submseteq.
Qed.

(** Once nothing is queued, an order of all steps can only list the steps taken. *)
Lemma order_exhausted deps deg order o :
  kahn_inv deps deg [] order -> dag_order deps o -> forall v, v ∈ o -> v ∈ order.
Proof.
  intros [_ Hready _ _] (_ & Hall & Htop).
  assert (Hpre : forall pre post, o = pre ++ post -> forall v, v ∈ pre -> v ∈ order).
  { induction pre as [|x pre IH] using rev_ind; intros post Ho v Hv; [by apply not_elem_of_nil in Hv|].
    rewrite <- app_assoc in Ho. cbn [app] in Ho. specialize (IH _ Ho).
    apply elem_of_app in Hv as [Hv|Hv%list_elem_of_singleton]; [by apply IH|subst x].
    assert (Hr : v ∈ order ++ []); [|by rewrite app_nil_r in Hr]. apply Hready. split; [apply Hall; set_solver|].
    apply waiting_none. intros d Hd. apply IH. by eapply Htop. }
  intros v Hv. apply (Hpre o [] ltac:(by rewrite app_nil_r)). done.
Qed.

(** C21: the check of the step graph is exact.  For every dependency table it
    ends, and either returns an order that lists each step once and after all it
    depends on, or raises [ValueError], and then no such order exists. *)
Theorem dag_validated deps :
  NoDup deps.*1 ->
  match validate_evaluation_dag deps with
  | Ok order => dag_order deps order
  | Err e => e = ValueError /\ forall order, ~ dag_order deps order
  end.
Proof.
  intros Hk. unfold validate_evaluation_dag.
  destruct (kahn_run deps Hk (length (_all_step_ids deps)) _ _ _ (kahn_start deps Hk)) as (deg & q & Hi & Hq).
  cbn [length] in Hq. set (order := kahn _ _ _ _ _) in *. clearbody order.
  assert (Hn : NoDup (_all_step_ids deps)) by apply NoDup_remove_dups.
  pose proof (ki_nodup _ _ _ _ Hi) as Hno. apply NoDup_app in Hno as (Hno & _ & _).
  assert (Hs : forall v, v ∈ order -> v ∈ _all_step_ids deps).
  { intros v Hv. apply (ki_ready _ _ _ _ Hi v). set_solver. }
  case_bool_decide as Hl.
  - split; [done|]. split; [|apply Hi]. intros v. split; [apply Hs|]. by apply subset_full.
  - split; [done|]. intros o Ho. destruct Hq as [-> | Hq]; [|lia]. apply Hl.
    assert (Hback : forall v, v ∈ _all_step_ids deps -> v ∈ order).
    { intros v Hv. eapply order_exhausted; [exact Hi|exact Ho|]. by apply Ho. }
    pose proof (subset_length _ _ Hno Hs). pose proof (subset_length _ _ Hn Hback). lia.
Qed.

Lemma dag_validated_witness :
  validate_evaluation_dag STEP_DEPENDENCIES
  = Ok ["feature_snapshot"; "counter_snapshot"; "location_eval"; "ml_score"; "opa"; "calibration_adjustment"]
  /\ dag_order STEP_DEPENDENCIES ["feature_snapshot"; "counter_snapshot"; "location_eval"; "ml_score"; "opa"; "calibration_adjustment"].
Proof.
  split; [vm_compute; reflexivity|].
  apply (dag_validated STEP_DEPENDENCIES). repeat (constructor; [set_solver|]). constructor.
Defined.

Example dag_cycle_refused : validate_evaluation_dag [("a", ["b"]); ("b", ["a"]); ("c", [])] = Err ValueError.
Proof. vm_compute. reflexivity. Qed.

(** ** Bounded steps *)

Lemma attempts_from_spec {A} (factory : nat -> hop_attempt A) left : forall i last,
  match attempts_from factory i left last with
  | inl (v, k) => (i < k <= i + left)%nat /\ factory (pred k) = Returned v
                  /\ forall j, (i <= j < pred k)%nat -> attempt_error (factory j) <> None
  | inr err => (forall j, (i <= j < i + left)%nat -> attempt_error (factory j) <> None)
               /\ err = match left with O => last | S n => attempt_error (factory (i + n)%nat) end
  end.
Proof.
  induction left as [|left IH]; intros i last; cbn [attempts_from]; [split; [lia|done]|].
  assert (Hrec : attempt_error (factory i) <> None ->
    match attempts_from factory (S i) left (attempt_error (factory i)) with
    | inl (v, k) => (i < k <= i + S left)%nat /\ factory (pred k) = Returned v
                    /\ forall j, (i <= j < pred k)%nat -> attempt_error (factory j) <> None
    | inr err => (forall j, (i <= j < i + S left)%nat -> attempt_error (factory j) <> None)
                 /\ err = attempt_error (factory (i + left)%nat)
    end).
  { intros He. specialize (IH (S i) (attempt_error (factory i))). destruct (attempts_from _ _ _ _) as [[v k]|err].
    - destruct IH as (Hk & Hv & Hj). split; [lia|]. split; [done|]. intros j Hji.
      destruct (decide (j = i)) as [-> | Hne]; [done|]. apply Hj. lia.
    - destruct IH as [Hj ->]. split.
      + intros j Hji. destruct (decide (j = i)) as [-> | Hne]; [done|]. apply Hj. lia.
      + destruct left; [f_equal; f_equal; lia|f_equal; f_equal; lia]. }
  destruct (factory i) eqn:E; [|by apply Hrec..].
  split; [lia|]. split; [done|]. intros j Hj. cbn [pred] in Hj. lia.
Qed.

(** A step ends after at most five attempts with the value of its first
    attempt that returns; only when all its attempts time out or raise does it
    end otherwise: a SKIP step, which never raises, with the fallback and a trace
    that says skipped and why the last attempt failed, a REJECT step with
    [RuntimeError]. *)
Theorem step_exact {A} step (factory : nat -> hop_attempt A) policy fallback ms max_attempts :
  let n := attempt_limit max_attempts in
  (1 <= n <= 5)%nat
  /\ ((exists k v, (k < n)%nat /\ factory k = Returned v /\ (forall j, (j < k)%nat -> attempt_error (factory j) <> None)
         /\ run_evaluation_step step factory policy fallback ms max_attempts
            = Ok (v, step_row step (Z.of_nat (S k)) "ok" None ms))
      \/ (exists why, (forall j, (j < n)%nat -> attempt_error (factory j) <> None)
         /\ attempt_error (factory (pred n)) = Some why
         /\ run_evaluation_step step factory policy fallback ms max_attempts
            = match policy with
              | SKIP => Ok (fallback, step_row step (Z.of_nat n) "skipped" (Some why) ms)
              | REJECT => Err (OtherError "RuntimeError")
              end)).
Proof.
  cbv zeta. assert (Hn : (1 <= attempt_limit max_attempts <= 5)%nat) by (unfold attempt_limit; lia).
  split; [done|]. unfold run_evaluation_step. set (n := attempt_limit max_attempts) in *. clearbody n.
  pose proof (attempts_from_spec factory n 0 None) as H. destruct (attempts_from _ _ _ _) as [[v k]|err].
  - left. destruct H as (Hk & Hv & Hj). destruct k as [|k]; [lia|]. cbn [pred] in *. exists k, v.
    split; [lia|]. split; [done|]. split; [|done]. intros j Hjk. apply Hj. lia.
  - right. destruct H as [Hj ->]. destruct n as [|n]; [lia|]. cbn [pred]. cbn [Nat.add].
    pose proof (Hj n ltac:(lia)) as Hlast. destruct (attempt_error (factory n)) as [why|] eqn:E; [|done].
    exists why. split; [intros j Hjn; apply Hj; lia|]. split; [done|]. destruct policy; [|done].
    assert (Hs : str_or (opt_str (Some why)) "unknown" = why); [|by rewrite Hs].
    unfold attempt_error in E. destruct (factory n); simplify_eq; done.
Qed.

(** ** Load shedding *)

(** The requests that hold a slot. *)
Definition holders (c : capacity) : Z := Z.of_nat (size (filter (fun kv => kv.2 = true) c.(cp_inside))).

Definition capacity_ok (c : capacity) : Prop := c.(cp_guard).(g_active) = holders c /\ holders c <= c.(cp_guard).(g_max).

Lemma capacity_step_ok c c' : capacity_step c c' -> capacity_ok c -> capacity_ok c' /\ g_max (cp_guard c') = g_max (cp_guard c).
Proof.
  intros Hs [Ha Hm]. unfold capacity_ok, holders in *.
  inversion Hs as [id c0 Hid|id acq c0 Hid]; subst; cbn [cp_guard cp_inside].
  - unfold try_enter. destruct (Z.leb_spec (g_max (cp_guard c)) (g_active (cp_guard c))); cbn [fst snd g_max g_active].
    + rewrite map_filter_insert_False, delete_id by done. done.
    + rewrite map_filter_insert_True by done. rewrite map_size_insert_None by (apply map_lookup_filter_None; by left). lia.
  - rewrite map_filter_delete. destruct acq.
    + assert (Hin : filter (fun kv => kv.2 = true) (cp_inside c) !! id = Some true) by (by apply map_lookup_filter_Some).
      rewrite map_size_delete, Hin. cbn [leave g_max g_active].
      assert (size (filter (fun kv => kv.2 = true) (cp_inside c)) <> 0%nat)
        by (apply map_size_non_empty_iff; intros Hz; by rewrite Hz in Hin). lia.
    + rewrite delete_id; [done|]. apply map_lookup_filter_None. right. intros b Hb. cbn. congruence.
Qed.

(** C20: however requests enter and leave, the guard's counter is exactly the
    number of requests inside that hold a slot, and never above the limit; so no
    slot is leaked, and a request is told to shed load exactly when as many
    requests as the limit allows hold one. *)
Theorem guard_counts_holders max_concurrent c :
  rtc capacity_step (Capacity (new_guard max_concurrent) ∅) c ->
  g_active (cp_guard c) = holders c /\ holders c <= Z.max 1 max_concurrent
  /\ (try_enter (cp_guard c)).2.1 = bool_decide (holders c = Z.max 1 max_concurrent)
  /\ (cp_inside c = ∅ -> g_active (cp_guard c) = 0).
Proof.
  intros Hr. assert (H : capacity_ok c /\ g_max (cp_guard c) = Z.max 1 max_concurrent).
  { remember (Capacity (new_guard max_concurrent) ∅) as c0 eqn:E.
    assert (H0 : capacity_ok c0 /\ g_max (cp_guard c0) = Z.max 1 max_concurrent).
    { subst c0. unfold capacity_ok, holders. cbn. split; [|done]. rewrite map_filter_empty, map_size_empty. lia. }
    clear E. induction Hr as [c0|c0 c1 c2 Hs _ IH]; [done|]. apply IH. destruct H0 as [H0 <-]. by apply capacity_step_ok. }
  destruct H as [[Ha Hm] Hx]. rewrite Hx in Hm. split_and!; [done|done| |].
  - unfold try_enter. rewrite Ha, Hx. destruct (Z.leb_spec (Z.max 1 max_concurrent) (holders c)); cbn [fst snd];
      case_bool_decide; lia || done.
  - intros He. rewrite Ha. unfold holders. by rewrite He, map_filter_empty, map_size_empty.
Qed.

Lemma guard_counts_holders_witness :
  let c := Capacity (Guard 1 1) (<[2%nat := false]> (<[1%nat := true]> ∅)) in
  rtc capacity_step (Capacity (new_guard 1) ∅) c /\ g_active (cp_guard c) = holders c.
Proof.
  assert (Hr : rtc capacity_step (Capacity (new_guard 1) ∅) (Capacity (Guard 1 1) (<[2%nat := false]> (<[1%nat := true]> ∅)))).
  { eapply rtc_l; [apply (enters 1 (Capacity (new_guard 1) ∅)); reflexivity|].
    eapply rtc_l; [apply (enters 2 (Capacity (Guard 1 1) (<[1%nat := true]> ∅))); reflexivity|]. apply rtc_refl. }
  split; [exact Hr|]. exact (proj1 (guard_counts_holders 1 _ Hr)).
Defined.
