(* ===== verification/EvalContext.v ===== *)
(** What the evaluate pipeline adds around the rules: contextual tags
    ([decision_api/tags.py]), trusted zones ([decision_api/trusted_zones.py]),
    the platform and session fields of the request ([_infer_ctx_kwargs] of
    [decision_api/main.py]), the depth engines' contribution
    ([merge_depth_into_score_and_tags] of [decision_api/depth_engines.py]) and the
    e-hailing ladder ([decision_api/ehailing_escalation.py]).

    The two lists and the dictionary that the source mutates in place are passed
    and returned.  The answer of the Redis client is an argument. *)

From Stdlib Require Import ZArith Lia Ascii String Bool SpecFloat.
From stdpp Require Import base option list sorting strings gmap.
From S2P Require Import Prelude PyFloat PyValue AstRules JsonRules Inference.
Import JsonRules.Store.
Local Open Scope Z_scope.

(** * Contextual tags *)

Definition _safe_int (v : pyval) : result Z := try_except (py_int v) is_type_or_value_error 0.
Definition tag_float (v : pyval) : result float := try_except (py_float v) is_type_or_value_error f_zero.

Definition reason_tags (reason : pyval) : list string :=
  let r := lower (strip (py_str reason)) in
  if negb (nonempty r) then []
  else reason_if (contains "shared_devices" r) "ring_shared_device"
       ++ reason_if (contains "large_community" r) "network_large_community"
       ++ reason_if (contains "connected_flagged" r) "network_flagged_neighbors".

Definition _graph_reason_tags (graph_risk : dict) : result (list string) :=
  rmap (flat_map reason_tags) (iter_or_empty (get graph_risk "risk_factors" PNone)).

(** The level tag of a score. *)
Definition level_tag (score : float) (high medium : string) : list string :=
  if fleb (litZ 70) score then [high] else if fleb (litZ 40) score then [medium] else [].

Definition velocity_tags (features : dict) : result (list string) :=
  let! ev5 := _safe_int (get features "event_count_5m" PNone) in
  let! ev1 := _safe_int (get features "event_count_1h" PNone) in
  let! ev24 := _safe_int (get features "event_count_24h" PNone) in
  let! dense := if 0 <? ev24 then rmap (fltb (lit 45 100)) (int_div ev1 (Z.max ev24 1)) else Ok false in
  Ok (reason_if (5 <=? ev5) "velocity_high_5m" ++ reason_if (15 <=? ev1) "velocity_high_1h"
      ++ reason_if (60 <=? ev24) "velocity_high_24h" ++ reason_if (dense && (10 <=? ev1)) "velocity_concentrated_1h").

Definition signal_context_tags (features : dict) (signals : list string) : list string :=
  reason_if (mem "sdk:geo_ip_mismatch" signals || truthy (get features "geo_ip_mismatch" PNone)) "geo_ip_mismatch"
  ++ reason_if (mem "sdk:geo_tz_mismatch" signals || truthy (get features "geo_tz_mismatch" PNone)) "geo_tz_mismatch"
  ++ reason_if (mem "sdk:shared_device" signals) "shared_device_detected"
  ++ reason_if (mem "ingress:replay_payload" signals) "replay_payload_detected".

Definition provider_tag (provider : pyval) : option string :=
  let p := lower (strip (py_str provider)) in if nonempty p then Some ("external_signal:" +:+ p) else None.

Definition derive_contextual_tags (features : dict) (signal_tags : list string) (graph_risk external : option dict)
    : result (list string) :=
  let! velocity := velocity_tags features in
  let! graph := match graph_risk with
                | Some g => let! score := tag_float (get g "risk_score" PNone) in
                            rmap (app (level_tag score "graph_risk_high" "graph_risk_medium")) (_graph_reason_tags g)
                | None => Ok []
                end in
  let! ext := match external with
              | Some m => let! providers := iter_or_empty (get m "providers" PNone) in
                          let! score := tag_float (get m "risk_score" PNone) in
                          Ok (filter_map provider_tag providers ++ level_tag score "external_signal_high" "external_signal_medium")
              | None => Ok []
              end in
  Ok (append_new [] (velocity ++ signal_context_tags features signal_tags ++ graph ++ ext)).

(** * Trusted zones and the request's session fields *)

Definition segment_char (c : ascii) : ascii :=
  if isalnum c || Ascii.eqb c "."%char || Ascii.eqb c "_"%char || Ascii.eqb c "-"%char then c else "_"%char.

Definition _safe_filename_segment (raw : string) : string :=
  let s := smap segment_char (strip raw) in if nonempty s then str_take 120 s else "default".

Definition dicts (v : list pyval) : list pyval := List.filter is_dict v.

(** The zones of one file; [None]: it is skipped. *)
Definition zones_in (read : option file_read) : result (option (list pyval)) :=
  match read with
  | Some (Document (PList l)) => Ok (Some (dicts l))
  | Some (Document (PDict d)) => Ok (match get d "zones" PNone with PList l => Some (dicts l) | _ => None end)
  | Some NotUtf8 => Err ValueError
  | _ => Ok None
  end.

(** [files]: the directory by name. *)
Definition load_trusted_zones_for_tenant (files : list (string * file_read)) (tenant_id : string) : result (list pyval) :=
  let read name := snd <$> List.find (fun f => bool_decide (f.1 = name)) files in
  let! own := zones_in (read ("trusted_zones_" +:+ _safe_filename_segment tenant_id +:+ ".json")) in
  match own with
  | Some zones => Ok zones
  | None => rmap (default []) (zones_in (read "trusted_zones_default.json"))
  end.

Definition zone_key (z : pyval) : string := json_dumps (DumpOpts true false true) z.

(** [merged] extended with the zones whose serialisation is new. *)
Fixpoint add_zones (merged : list pyval) (seen : list string) (zones : list pyval) : list pyval :=
  match zones with
  | [] => merged
  | z :: zones' => if mem (zone_key z) seen then add_zones merged seen zones'
                   else add_zones (merged ++ [z]) (zone_key z :: seen) zones'
  end.

Definition with_disk_zones (disk : list pyval) (features : dict) : dict :=
  match disk with
  | [] => features
  | _ =>
      let merged := match get features "trusted_zones" PNone with PList l => dicts l | _ => [] end in
      dict_set "trusted_zones" (PList (add_zones merged (map zone_key merged) disk)) features
  end.

Definition SESSION_KEYS : list string :=
  ["session_last_lat"; "session_last_lon"; "session_last_ts"; "session_prev_lat"; "session_prev_lon"; "session_prev_ts";
   "calibration_bias"; "calibration_profile"; "expected_calibration_version"].

(** [features.setdefault(key, payload[key])] for a key the payload has. *)
Definition default_from (payload : dict) (features : dict) (key : string) : dict :=
  match get payload key PNone with PNone => features | v => dict_setdefault key v features end.

Definition pinning_of (metadata : option dict) : option bool :=
  match metadata with
  | Some m => match get m "tls_pinning_verified" PNone with
              | PBool b => Some b
              | PStr s => Some (mem (lower (strip s)) ["1"; "true"; "yes"])
              | _ => None
              end
  | None => None
  end.

(** [device_platform]: the platform of the device context, [None] without one.
    The features are returned as the function leaves them. *)
Definition _infer_ctx_kwargs (files : list (string * file_read)) (tenant_id : string) (device_platform : option string)
    (metadata : option dict) (payload features : dict) : result (string * option bool * dict) :=
  let plat := match device_platform with
              | Some p => str_or (lower (strip (str_or p "web"))) "web"
              | None => "web"
              end in
  let features := match get payload "trusted_zones" PNone with
                  | PList tz => dict_setdefault "trusted_zones" (PList tz) features
                  | _ => features
                  end in
  let! disk := load_trusted_zones_for_tenant files tenant_id in
  let features := foldl (default_from payload) (with_disk_zones disk features) SESSION_KEYS in
  Ok (plat, pinning_of metadata, features).

(** * Depth engines *)

Definition hit_map : list (string * string) :=
  [("lifecycle_risk", "lifecycle_risk_engine"); ("ring_score", "ring_score_engine");
   ("seller_trajectory", "seller_trajectory_engine"); ("ftid_intake_gate", "ftid_intake_gate_engine");
   ("promo_economics", "promo_economics_engine"); ("dispute_representment", "dispute_representment_engine");
   ("listing_risk", "listing_risk_engine"); ("depth_fusion", "depth_fusion_engine")].

(** The score of a block; [None]: not a number. *)
Definition block_score (key : string) (block : dict) : result (option float) :=
  let field := if bool_decide (key = "dispute_representment") then "risk_0_100" else "score_0_100" in
  try_except (rmap Some (py_float (por (get block field PNone) (PInt 0)))) is_type_or_value_error None.

(** [evidence.get("party_graph_quality", {}).get("production_ready") is False]. *)
Definition weak_graph (evidence : dict) : result bool :=
  match get evidence "party_graph_quality" (PDict []) with
  | PDict q => Ok (is_false (get q "production_ready" PNone))
  | _ => Err AttributeError
  end.

Definition block_delta (evidence : dict) (key : string) (score : float) : result float :=
  if bool_decide (key = "depth_fusion") then Ok (fmin (litZ 22) (fmul score (lit 22 100)))
  else
    let scale := if has_key evidence "depth_fusion" then lit 10 100 else lit 18 100 in
    let! weak := if bool_decide (key = "ring_score") then weak_graph evidence else Ok false in
    Ok (fmin (litZ 18) (fmul score (if (weak : bool) then fmul scale (lit 5 10) else scale))).

(** One engine: the tags, the rule hits and the sum so far. *)
Definition merge_block (evidence : dict) (acc : list string * list string * float) (kh : string * string)
    : result (list string * list string * float) :=
  let '(tags, hits, delta) := acc in
  let '(key, hit) := kh in
  let v := get evidence key PNone in
  if negb (truthy v) then Ok acc
  else match v with
       | PDict block =>
           let! items := iter_or_empty (get block "tags" PNone) in
           let tags := tags ++ map py_str (List.filter truthy items) in
           let! score := block_score key block in
           match score with
           | Some x => let! d := block_delta evidence key x in Ok (tags, hits ++ [hit], fadd delta d)
           | None => Ok (tags, hits ++ [hit], delta)
           end
       | _ => Err AttributeError
       end.

Definition merge_depth_into_score_and_tags (evidence : dict) (all_new_tags rule_hits : list string)
    : result (list string * list string * float) :=
  let! (tags, hits, delta) := ChallengePolicy.rfoldl (merge_block evidence) (all_new_tags, rule_hits, f_zero) hit_map in
  Ok (tags, hits, fmin (litZ 45) delta).

(** * The e-hailing ladder *)

Definition _PREFIX : string := "fraud:eh_challenge:".

(** [EhailingChallengeStore]: the in-process counters. *)
Abbreviation challenge_store := (gmap string Z).

Definition challenge_key (tenant_id actor_id : string) : string := _PREFIX +:+ strip tenant_id +:+ ":" +:+ strip actor_id.

(** [redis]: no client, or the answer of its [incr], [None] when it raised. *)
Definition incr (redis : option (option Z)) (tenant_id actor_id : string) (s : challenge_store) : challenge_store * Z :=
  let key := challenge_key tenant_id actor_id in
  let n := match redis with Some (Some n) => n | _ => default 0 (s !! key) + 1 end in
  (<[key := n]> s, n).

Definition get_count (redis : option (option Z)) (tenant_id actor_id : string) (s : challenge_store) : Z :=
  match redis with Some (Some n) => n | _ => default 0 (s !! challenge_key tenant_id actor_id) end.

Definition _vertical_is_ehailing (metadata : option dict) (features : dict) : bool :=
  let meta := default [] metadata in
  let v := first_truthy [get meta "vertical_profile" PNone; get meta "vertical" PNone;
                         get features "vertical_profile" PNone; get features "vertical" PNone] in
  mem (lower (strip (str_or_empty v))) ["e_hailing"; "ride_hailing"; "ehailing"].

Fixpoint actor_from (payload meta : dict) (keys : list string) : option string :=
  match keys with
  | [] => None
  | k :: keys' => match por (get payload k PNone) (get meta k PNone) with
                  | PStr s => if nonempty (strip s) then Some (strip s) else actor_from payload meta keys'
                  | _ => actor_from payload meta keys'
                  end
  end.

Definition _actor_id (entity_id : string) (payload metadata : option dict) : string :=
  match actor_from (default [] payload) (default [] metadata) ["driver_id"; "actor_id"; "worker_id"] with
  | Some a => a
  | None => str_or (strip entity_id) "unknown"
  end.

(** [dflt]: the configured number of challenges. *)
Definition challenge_threshold (dflt : Z) (metadata : option dict) : result Z :=
  match get (default [] metadata) "ehailing_challenge_threshold" PNone with
  | PNone => Ok (Z.max 1 dflt)
  | raw => let! n := try_except (py_int raw) is_type_or_value_error 0 in
           Ok (if 1 <=? n then n else Z.max 1 dflt)
  end.

Definition challenge_hits : list string :=
  ["eh_self_ride_same_device"; "eh_driver_rider_pair_velocity"; "eh_location_spoof"].

Definition add_once (x : string) (l : list string) : list string := if mem x l then l else l ++ [x].

Record escalation : Type := Escalation {
  es_tags : list string; es_hits : list string; es_features : dict; es_evidence : option dict }.

(** A challenge on an e-hailing event: the tags or the hits carry one. *)
Definition is_challenge (metadata : option dict) (features : dict) (tags rule_hits : list string) (actor : string) : bool :=
  _vertical_is_ehailing metadata features
  && (mem "action:hard_challenge" tags || existsb (fun h => mem h rule_hits) challenge_hits)
  && nonempty actor && negb (bool_decide (actor = "unknown")).

(** What a counted challenge leads to. *)
Definition escalated (thr count : Z) (actor backend : string) (features : dict) (tags rule_hits : list string) : escalation :=
  let features := dict_set "eh_challenge_threshold" (PInt thr) (dict_set "eh_challenge_count" (PInt count) features) in
  let evidence := [("schema_id", PStr "tarka.ehailing_escalation/v1"); ("method", PStr "repeat_counter_v1");
                   ("actor_id", PStr actor); ("challenge_count", PInt count); ("suspend_after", PInt thr);
                   ("backend", PStr backend); ("live_claim_allowed", PBool false)] in
  if thr <=? count
  then Escalation (add_once "action:suspend_driving" tags) (add_once "eh_challenge_escalate_suspend" rule_hits)
         (dict_set "eh_escalate_suspend_driving" (PBool true) features)
         (Some (evidence ++ [("escalated", PBool true); ("host_action", PStr "suspend_driving")]))
  else Escalation tags rule_hits features
         (Some (evidence ++ [("escalated", PBool false); ("host_action", PStr "hard_challenge")])).

Definition apply_ehailing_challenge_escalation (dflt : Z) (redis : option (option Z)) (tenant_id entity_id : string)
    (payload metadata : option dict) (features : dict) (tags rule_hits : list string) (s : challenge_store)
    : challenge_store * result escalation :=
  let actor := _actor_id entity_id payload metadata in
  if negb (is_challenge metadata features tags rule_hits actor) then (s, Ok (Escalation tags rule_hits features None))
  else
    let '(s', count) := incr redis tenant_id actor s in
    (s', let! thr := challenge_threshold dflt metadata in
         Ok (escalated thr count actor (if redis then "redis" else "memory") features
               (add_once "action:hard_challenge" tags) rule_hits)).

(** * Correctness *)

(** An evaluation as the ladder sees it. *)
Record ladder_event : Type := LadderEvent {
  le_tenant : string; le_entity : string; le_payload : option dict; le_metadata : option dict; le_features : dict;
  le_tags : list string; le_hits : list string }.

Definition actor_of (e : ladder_event) : string := _actor_id e.(le_entity) e.(le_payload) e.(le_metadata).
Definition challenged (e : ladder_event) : bool :=
  is_challenge e.(le_metadata) e.(le_features) e.(le_tags) e.(le_hits) (actor_of e).
Definition ladder_key (e : ladder_event) : string := challenge_key e.(le_tenant) (actor_of e).

Definition ladder_step (dflt : Z) (s : challenge_store) (e : ladder_event) : challenge_store * result escalation :=
  apply_ehailing_challenge_escalation dflt None e.(le_tenant) e.(le_entity) e.(le_payload) e.(le_metadata) e.(le_features)
    e.(le_tags) e.(le_hits) s.

Definition ladder_run (dflt : Z) (events : list ladder_event) : challenge_store :=
  foldl (fun s e => (ladder_step dflt s e).1) ∅ events.

(** The challenges of a driver among the events. *)
Definition challenges_of (key : string) (events : list ladder_event) : Z :=
  Z.of_nat (length (List.filter (fun e => challenged e && bool_decide (ladder_key e = key)) events)).

Lemma ladder_step_store dflt s e :
  (ladder_step dflt s e).1 = if challenged e then <[ladder_key e := default 0 (s !! ladder_key e) + 1]> s else s.
Proof.
  unfold ladder_step, apply_ehailing_challenge_escalation. fold (actor_of e). fold (challenged e).
  by destruct (challenged e).
Qed.

Lemma ladder_counts dflt events key : default 0 (ladder_run dflt events !! key) = challenges_of key events.
Proof.
  unfold ladder_run. induction events as [|e events IH] using rev_ind; [done|].
  rewrite foldl_app. cbn [foldl]. rewrite ladder_step_store. unfold challenges_of in *.
  rewrite List.filter_app, length_app. cbn [List.filter]. destruct (challenged e); cbn [andb length]; [|lia].
  case_bool_decide as Hk; cbn [length].
  - subst key. rewrite lookup_insert_eq. cbn [default from_option id]. lia.
  - rewrite lookup_insert_ne by done. lia.
Qed.

(** Without Redis the ladder counts exactly.  Whatever was evaluated before,
    a hard challenge of a driver carries one more than the number of earlier
    challenges under the same key, and asks for the suspension exactly when that
    reaches the threshold; an event that is no challenge leaves the counters, the
    tags and the hits alone. *)
Theorem ladder_exact dflt events e thr :
  challenge_threshold dflt e.(le_metadata) = Ok thr ->
  let n := challenges_of (ladder_key e) events + 1 in
  match (ladder_step dflt (ladder_run dflt events) e).2 with
  | Ok (Escalation tags hits _ (Some ev)) =>
      challenged e = true /\ get ev "challenge_count" PNone = PInt n /\ get ev "escalated" PNone = PBool (thr <=? n)
      /\ ("action:hard_challenge" ∈ tags) /\ (thr <= n -> "action:suspend_driving" ∈ tags /\ "eh_challenge_escalate_suspend" ∈ hits)
  | Ok (Escalation tags hits _ None) =>
      challenged e = false /\ tags = e.(le_tags) /\ hits = e.(le_hits)
      /\ (ladder_step dflt (ladder_run dflt events) e).1 = ladder_run dflt events
  | Err _ => False
  end.
Proof.
  intros Ht n. assert (Hadd : forall x l, x ∈ add_once x l).
  { intros x l. unfold add_once, mem. case_bool_decide; [done|]. set_solver. }
  assert (Hkeep : forall x y l, x ∈ l -> x ∈ add_once y l).
  { intros x y l Hx. unfold add_once. destruct (mem y l); set_solver. }
  rewrite ladder_step_store. unfold ladder_step, apply_ehailing_challenge_escalation. fold (actor_of e). fold (challenged e).
  destruct (challenged e) eqn:Ec; cbn [negb snd fst]; [|done]. unfold incr.
  fold (ladder_key e). rewrite ladder_counts. fold n. cbn [snd]. rewrite Ht. cbn [rbind]. unfold escalated.
  destruct (Z.leb_spec thr n); cbn [es_tags es_hits]; split_and!; try done; auto; intros; (lia || auto).
Qed.

Definition ride (tenant driver : string) : ladder_event :=
  LadderEvent tenant "e" (Some [("driver_id", PStr driver)]) (Some [("vertical", PStr "ride_hailing")]) []
    ["action:hard_challenge"] [].

Lemma ladder_exact_witness :
  challenge_threshold 3 (le_metadata (ride "t" "d")) = Ok 3
  /\ match (ladder_step 3 (ladder_run 3 [ride "t" "d"; ride "t" "x"; ride "t" "d"]) (ride "t" "d")).2 with
     | Ok (Escalation _ _ _ (Some ev)) => get ev "escalated" PNone = PBool true
     | _ => False
     end.
Proof.
  split; [reflexivity|].
  pose proof (ladder_exact 3 [ride "t" "d"; ride "t" "x"; ride "t" "d"] (ride "t" "d") 3 eq_refl) as H.
  vm_compute in H. vm_compute. exact (proj1 (proj2 (proj2 H))).
Defined.

(** Two drivers of two tenants share a counter when the joined names agree. *)
Example ladder_key_collision :
  ladder_key (ride "a:b" "c") = ladder_key (ride "a" "b:c")
  /\ get_count None "a" "b:c" (ladder_run 3 [ride "a:b" "c"; ride "a:b" "c"]) = 2.
Proof. vm_compute. auto. Qed.

(** Zones of the event itself are trusted: one circle around the earth removes
    the travel and geo risk the session's own coordinates show. *)
Example payload_trusts_itself :
  let payload zones :=
    [("session_last_lat", PInt 40); ("session_last_lon", PInt 2); ("session_last_ts", PInt 3600);
     ("session_prev_lat", PInt 10); ("session_prev_lon", PInt 2); ("session_prev_ts", PInt 3590)] ++ zones in
  let score zones k :=
    match (let! (_, _, features) := _infer_ctx_kwargs [] "t" None None (payload zones) [] in
           demo_context ["sdk:mock_location"; "sdk:geo_ip_mismatch"] features) with
    | Ok ctx => score_of ctx k | Err _ => f_nan end in
  let own := [("trusted_zones", PList [PDict [("lat", PInt 0); ("lon", PInt 0); ("radius_km", PInt 999999)]])] in
  fltb (score own "impossible_travel_risk") (score [] "impossible_travel_risk") = true
  /\ fltb (score own "geo_consistency_risk") (score [] "geo_consistency_risk") = true.
Proof. vm_compute. auto. Qed.
