(* ===== verification/EntityLists.v ===== *)
(** Entity lists: the stores of [shared/entity_lists.py] (memory, Redis and file),
    the circuit around the check ([decision_api/main.py]), the endpoints of
    [decision_api/lists_api.py] that write, and the stage of
    [decision_api/evaluate/pipeline.py] that answers for listed entities.

    An instant is in microseconds since 1970.  Redis is an interface with laws; a
    stored JSON text is the object it was dumped from.  The HTTP back end, the
    listings and the bulk endpoint, whose rows are not validated, are left out. *)

From Stdlib Require Import ZArith Lia Ascii String Bool SpecFloat.
From stdpp Require Import base option list sorting strings gmap.
From S2P Require Import Prelude PyFloat PyValue PyDateTime Circuit Enforcement ChallengePolicy Integrity Inference EvalSteps EvalContext.
Local Open Scope Z_scope.

(** * Entries *)

Definition ALL_LIST_TYPES : list string := ["whitelist"; "blacklist"; "test_bypass"].

Record ListEntry : Type := Entry {
  le_list_type : pyval; le_tenant_id : pyval; le_entity_id : pyval; le_reason : pyval; le_created_by : pyval;
  le_expires_at : pyval; le_metadata : pyval; le_created_at : pyval }.

(** [datetime.now(UTC).isoformat()]. *)
Definition now_iso (now : Z) : string := isoformat "T" (DateTime now (Some 0)).

(** [__post_init__]. *)
Definition stamped (now : Z) (e : ListEntry) : ListEntry :=
  if truthy e.(le_created_at) then e
  else Entry e.(le_list_type) e.(le_tenant_id) e.(le_entity_id) e.(le_reason) e.(le_created_by) e.(le_expires_at) e.(le_metadata) (PStr (now_iso now)).

(** A time without an offset cannot be compared with one that has it. *)
Definition is_expired (now : Z) (e : ListEntry) : bool :=
  match e.(le_expires_at) with
  | PStr s =>
      if nonempty s then
        match fromisoformat s with
        | Ok (DateTime wall (Some off)) => wall - off <? now
        | Ok (DateTime _ None) | Err _ => false
        end
      else false
  | _ => false
  end.

Definition to_dict (e : ListEntry) : dict :=
  [("list_type", e.(le_list_type)); ("tenant_id", e.(le_tenant_id)); ("entity_id", e.(le_entity_id)); ("reason", e.(le_reason));
   ("created_by", e.(le_created_by)); ("expires_at", e.(le_expires_at)); ("metadata", e.(le_metadata)); ("created_at", e.(le_created_at))].

Definition from_dict (now : Z) (data : dict) : result ListEntry :=
  if has_key data "list_type" && has_key data "tenant_id" && has_key data "entity_id" then
    Ok (stamped now (Entry (get data "list_type" PNone) (get data "tenant_id" PNone) (get data "entity_id" PNone)
                      (get data "reason" (PStr "")) (get data "created_by" (PStr "system")) (get data "expires_at" PNone)
                      (get data "metadata" (PDict [])) (get data "created_at" (PStr ""))))
  else Err TypeError.

Record ListCheckResult : Type := ListCheck {
  found : bool; lc_list_type : pyval; lc_action : string; lc_reason : pyval; lc_entry : option ListEntry }.

Definition not_listed : ListCheckResult := ListCheck false PNone "evaluate" (PStr "") None.

(** [action_map.get(entry.list_type, "evaluate")]. *)
Definition action_for (list_type : pyval) : result string :=
  match list_type with
  | PStr "whitelist" => Ok "allow"
  | PStr "blacklist" => Ok "deny"
  | PList _ | PDict _ => Err TypeError
  | _ => Ok "evaluate"
  end.

Definition _build_result (now : Z) (entry : option ListEntry) : result ListCheckResult :=
  match entry with
  | None => Ok not_listed
  | Some e =>
      if is_expired now e then Ok not_listed else
      let! action := action_for e.(le_list_type) in
      Ok (ListCheck true e.(le_list_type) action e.(le_reason) (Some e))
  end.

(** The keyword arguments of [add]. *)
Record entry_args : Type := EntryArgs { ea_reason : string; ea_created_by : string; ea_expires_at : option string; ea_metadata : dict }.

Definition new_entry (now : Z) (list_type tenant_id entity_id : string) (a : entry_args) : ListEntry :=
  stamped now (Entry (PStr list_type) (PStr tenant_id) (PStr entity_id) (PStr a.(ea_reason)) (PStr a.(ea_created_by))
                 (match a.(ea_expires_at) with Some s => PStr s | None => PNone end) (PDict a.(ea_metadata)) (PStr "")).

Definition live (now : Z) (e : option ListEntry) : option ListEntry :=
  match e with Some e => if is_expired now e then None else Some e | None => None end.

(** * The interface of a store *)

Class ListStore (S : Type) : Type := {
  ls_add : Z -> string -> string -> string -> entry_args -> S -> S * result ListEntry;
  ls_remove : string -> string -> string -> S -> S * result bool;
  ls_check : Z -> string -> string -> S -> S * result ListCheckResult;
  ls_get_entry : Z -> string -> string -> string -> S -> result (option ListEntry);
  ls_count : Z -> string -> string -> S -> Z }.

(** ** In memory *)

Abbreviation memory_store := (gmap string ListEntry).

Definition memory_key (list_type tenant_id entity_id : string) : string := list_type +:+ ":" +:+ tenant_id +:+ ":" +:+ entity_id.

(** The order in which the lists are looked at. *)
Definition check_order : list string := ["blacklist"; "whitelist"; "test_bypass"].

(** The first live entry among the lists. *)
Fixpoint first_live (now : Z) (look : string -> option ListEntry) (lists : list string) : option ListEntry :=
  match lists with
  | [] => None
  | lt :: lists' => match live now (look lt) with Some e => Some e | None => first_live now look lists' end
  end.

Definition memory_add (now : Z) (lt t e : string) (a : entry_args) (s : memory_store) : memory_store * result ListEntry :=
  let entry := new_entry now lt t e a in (<[memory_key lt t e := entry]> s, Ok entry).

Definition memory_remove (lt t e : string) (s : memory_store) : memory_store * result bool :=
  (delete (memory_key lt t e) s, Ok (bool_decide (is_Some (s !! memory_key lt t e)))).

Definition memory_check (now : Z) (t e : string) (s : memory_store) : memory_store * result ListCheckResult :=
  (s, _build_result now (first_live now (fun lt => s !! memory_key lt t e) check_order)).

Definition memory_get_entry (now : Z) (lt t e : string) (s : memory_store) : result (option ListEntry) :=
  Ok (live now (s !! memory_key lt t e)).

Definition memory_count (now : Z) (lt t : string) (s : memory_store) : Z :=
  Z.of_nat (length (List.filter (fun ke => startswith ke.1 (lt +:+ ":" +:+ t +:+ ":") && negb (is_expired now ke.2)) (map_to_list s))).

#[export] Instance MemoryListStore : ListStore memory_store := {
  ls_add := memory_add; ls_remove := memory_remove; ls_check := memory_check;
  ls_get_entry := memory_get_entry; ls_count := memory_count }.

(** ** Redis hashes *)

(** The commands on hashes that the store uses. *)
Class RedisHash (R : Type) : Type := {
  hset : string -> string -> dict -> R -> R;
  hget : string -> string -> R -> option dict;
  hdel : string -> string -> R -> R * bool;
  hlen : string -> R -> Z }.

Definition redis_key (list_type tenant_id : string) : string := "tarka:lists:" +:+ list_type +:+ ":" +:+ tenant_id.

(** [check]: expired entries on the way are deleted. *)
Fixpoint redis_check {R : Type} `{RedisHash R} (now : Z) (t e : string) (lists : list string) (s : R) : R * result ListCheckResult :=
  match lists with
  | [] => (s, Ok not_listed)
  | lt :: lists' =>
      match hget (redis_key lt t) e s with
      | None => redis_check now t e lists' s
      | Some raw =>
          match from_dict now raw with
          | Err x => (s, Err x)
          | Ok entry =>
              if is_expired now entry then redis_check now t e lists' (hdel (redis_key lt t) e s).1
              else (s, _build_result now (Some entry))
          end
      end
  end.

Definition redis_add {R : Type} `{RedisHash R} (now : Z) (lt t e : string) (a : entry_args) (s : R) : R * result ListEntry :=
  let entry := new_entry now lt t e a in (hset (redis_key lt t) e (to_dict entry) s, Ok entry).

Definition redis_remove {R : Type} `{RedisHash R} (lt t e : string) (s : R) : R * result bool :=
  let '(s', b) := hdel (redis_key lt t) e s in (s', Ok b).

Definition redis_get_entry {R : Type} `{RedisHash R} (now : Z) (lt t e : string) (s : R) : result (option ListEntry) :=
  match hget (redis_key lt t) e s with
  | None => Ok None
  | Some raw => rmap (fun entry => live now (Some entry)) (from_dict now raw)
  end.

Definition redis_count {R : Type} `{RedisHash R} (_ : Z) (lt t : string) (s : R) : Z := hlen (redis_key lt t) s.

#[export] Instance RedisListStore (R : Type) `{RedisHash R} : ListStore R := {
  ls_add := redis_add; ls_remove := redis_remove; ls_check now t e s := redis_check now t e check_order s;
  ls_get_entry := redis_get_entry; ls_count := redis_count }.

(** ** Files *)

Abbreviation list_data := (gmap string (gmap string ListEntry)).

(** The lists in memory and the files, by list type. *)
Record file_store : Type := FileStore { fs_data : gmap string list_data; fs_files : gmap string (gmap string (gmap string dict)) }.

(** [self._data.get(list_type, {}).get(tenant_id, {})]. *)
Definition entities_of (s : file_store) (lt t : string) : gmap string ListEntry := default ∅ (default ∅ (s.(fs_data) !! lt) !! t).

Definition file_lookup (s : file_store) (lt t e : string) : option ListEntry := entities_of s lt t !! e.

(** What [_save] writes. *)
Definition serializable (tenants : list_data) : gmap string (gmap string dict) := fmap (M := gmap string) (fmap (M := gmap string) to_dict) tenants.

Definition _save (lt : string) (s : file_store) : file_store :=
  FileStore s.(fs_data) (<[lt := serializable (default ∅ (s.(fs_data) !! lt))]> s.(fs_files)).

Definition file_add (now : Z) (lt t e : string) (a : entry_args) (s : file_store) : file_store * result ListEntry :=
  let entry := new_entry now lt t e a in
  (_save lt (FileStore (<[lt := <[t := <[e := entry]> (entities_of s lt t)]> (default ∅ (s.(fs_data) !! lt))]> s.(fs_data)) s.(fs_files)),
   Ok entry).

(** [pop] on the entities of the tenant, when both dictionaries exist. *)
Definition file_remove (lt t e : string) (s : file_store) : file_store * result bool :=
  match file_lookup s lt t e with
  | None => (s, Ok false)
  | Some _ => (_save lt (FileStore (alter (alter (delete e) t) lt s.(fs_data)) s.(fs_files)), Ok true)
  end.

Definition file_check (now : Z) (t e : string) (s : file_store) : file_store * result ListCheckResult :=
  (s, _build_result now (first_live now (fun lt => file_lookup s lt t e) check_order)).

Definition file_get_entry (now : Z) (lt t e : string) (s : file_store) : result (option ListEntry) :=
  Ok (live now (file_lookup s lt t e)).

Definition file_count (now : Z) (lt t : string) (s : file_store) : Z :=
  Z.of_nat (length (List.filter (fun ke => negb (is_expired now ke.2)) (map_to_list (entities_of s lt t)))).

#[export] Instance FileListStore : ListStore file_store := {
  ls_add := file_add; ls_remove := file_remove; ls_check := file_check;
  ls_get_entry := file_get_entry; ls_count := file_count }.

(** [connect]: the files of the three lists are read, the others forgotten. *)
Definition read_entities (now : Z) (m : gmap string dict) : result (gmap string ListEntry) :=
  let! l := rmapM (fun ke => rmap (pair ke.1) (from_dict now ke.2)) (map_to_list m) in Ok (list_to_map l).

Definition read_list (now : Z) (m : gmap string (gmap string dict)) : result list_data :=
  let! l := rmapM (fun te => rmap (pair te.1) (read_entities now te.2)) (map_to_list m) in Ok (list_to_map l).

Definition file_connect (now : Z) (files : gmap string (gmap string (gmap string dict))) : result file_store :=
  let! l := rmapM (fun lt => rmap (pair lt) (match files !! lt with Some m => read_list now m | None => Ok ∅ end)) ALL_LIST_TYPES in
  Ok (FileStore (list_to_map l) files).

Definition file_close (s : file_store) : file_store := foldl (fun s lt => _save lt s) s ALL_LIST_TYPES.

(** * The endpoints and the check of an evaluation *)

Section clients.
Context {S : Type} `{ListStore S}.

Definition known_list (list_type : string) : result unit :=
  if mem list_type ALL_LIST_TYPES then Ok tt else Err (http 400 "Invalid list_type").

Definition add_entry (now : Z) (list_type tenant_id entity_id : string) (a : entry_args) (s : S) : S * result dict :=
  match known_list list_type with
  | Err x => (s, Err x)
  | Ok _ => let '(s', r) := ls_add now list_type tenant_id entity_id a s in (s', rmap to_dict r)
  end.

Definition remove_entry (list_type tenant_id entity_id : string) (s : S) : S * result dict :=
  match known_list list_type with
  | Err x => (s, Err x)
  | Ok _ =>
      let '(s', r) := ls_remove list_type tenant_id entity_id s in
      (s', let! removed := r in
           if negb removed then Err (http 404 "Entry not found") else Ok [("removed", PBool true)])
  end.

Definition check_entity (now : Z) (tenant_id entity_id : string) (s : S) : S * result dict :=
  let '(s', r) := ls_check now tenant_id entity_id s in
  (s', let! c := r in
       Ok [("found", PBool c.(found)); ("list_type", c.(lc_list_type)); ("action", PStr c.(lc_action)); ("reason", c.(lc_reason))]).

Definition tenant_flag_enabled (flags : dict) (key : string) : bool :=
  match get flags key PNone with
  | PBool b => b
  | PStr s => mem (lower (strip s)) ["1"; "true"; "yes"; "on"]
  | _ => false
  end.

(** [_list_check_with_circuit]: the clock of the circuit before and after the
    check, and the degrade tag it leaves. *)
Definition _list_check_with_circuit (flags : dict) (enter leave : float) (now : Z) (tenant_id entity_id : string)
    (b : Async.breaker) (s : S) : Async.breaker * S * list string * result ListCheckResult :=
  if tenant_flag_enabled flags "disable_entity_lists" then
    (b, s, ["lists:disabled_by_tenant"], Ok (ListCheck false PNone "evaluate" (PStr "tenant_flag_disable_entity_lists") None))
  else
    let '(b', admitted) := Async.admission enter b in
    if negb admitted then (b', s, ["lists:unavailable"], Ok (ListCheck false PNone "evaluate" (PStr "circuit_open") None))
    else let '(s', r) := ls_check now tenant_id entity_id s in
         (Async.settle leave (is_ok r) b', s', [], r).
End clients.

(** * The list stage of an evaluation *)

(** What the stage answers at once; the audit record is left out. *)
Record list_answer : Type := ListAnswer {
  la_decision : string; la_score : float; la_tags : list string; la_hits : list string; la_context : dict;
  la_recommended : option string; la_enforcement : string }.

Section stage.
Context (lm : libm) (policies : dict) (setting : string) (policy_id : option string) (payload : dict)
  (platform : string) (pinning : option bool).

Definition no_meta : inference_args := InferenceArgs None platform pinning None None None None None.

Definition whitelisted : result list_answer :=
  let! inf := build_inference_context lm [] ["whitelist_bypass"] None f_zero [] no_meta in
  let! (rec, _) := apply_challenge_policy policies setting policy_id None "allow" inf ["list:whitelist"] payload in
  Ok (ListAnswer "allow" f_zero ["list:whitelist"] ["whitelist_bypass"] inf rec (resolve_enforcement_action "allow" rec)).

Definition blacklisted : result list_answer :=
  let! inf := build_inference_context lm ["list:blacklist"] ["blacklist_block"] None (litZ 100) [] no_meta in
  let! base := derive_recommended_action "deny" ["list:blacklist"] inf in
  let! (rec, _) := apply_challenge_policy policies setting policy_id base "deny" inf ["list:blacklist"] payload in
  Ok (ListAnswer "deny" (litZ 100) ["list:blacklist"] ["blacklist_block"] inf rec (resolve_enforcement_action "deny" rec)).

(** The bounded check; [None] goes on with the evaluation. *)
Definition list_stage (check : nat -> hop_attempt (option ListCheckResult)) (ms : float) (max_attempts : Z)
    : result (option list_answer) :=
  let! (c, _) := run_evaluation_step "list" check SKIP None ms max_attempts in
  match c with
  | Some c =>
      if negb c.(found) then Ok None
      else if bool_decide (c.(lc_action) = "allow") then rmap Some whitelisted
      else if bool_decide (c.(lc_action) = "deny") then rmap Some blacklisted
      else Ok None
  | None => Ok None
  end.
End stage.

(** * What a store promises *)

(** A store seen as a map from list, tenant and entity to the entry; [ls_keeps]
    are the tenants it tells apart. *)
Class ListStoreLaws (S : Type) `{ListStore S} : Type := {
  ls_ok : S -> Prop;
  ls_keeps : string -> bool;
  ls_view : S -> string -> string -> string -> option ListEntry;
  ls_add_view now lt t e a s : ls_ok s -> lt ∈ ALL_LIST_TYPES -> ls_keeps t = true ->
    (ls_add now lt t e a s).2 = Ok (new_entry now lt t e a) /\ ls_ok (ls_add now lt t e a s).1
    /\ forall lt' t' e', lt' ∈ ALL_LIST_TYPES -> ls_keeps t' = true ->
         ls_view (ls_add now lt t e a s).1 lt' t' e'
         = if bool_decide ((lt', t', e') = (lt, t, e)) then Some (new_entry now lt t e a) else ls_view s lt' t' e';
  ls_remove_view lt t e s : ls_ok s -> lt ∈ ALL_LIST_TYPES -> ls_keeps t = true ->
    (ls_remove lt t e s).2 = Ok (bool_decide (is_Some (ls_view s lt t e))) /\ ls_ok (ls_remove lt t e s).1
    /\ forall lt' t' e', lt' ∈ ALL_LIST_TYPES -> ls_keeps t' = true ->
         ls_view (ls_remove lt t e s).1 lt' t' e' = if bool_decide ((lt', t', e') = (lt, t, e)) then None else ls_view s lt' t' e';
  ls_check_view now t e s : ls_ok s -> ls_keeps t = true ->
    (ls_check now t e s).2 = _build_result now (first_live now (fun lt => ls_view s lt t e) check_order)
    /\ ls_ok (ls_check now t e s).1
    /\ forall now' lt' t' e', now <= now' -> lt' ∈ ALL_LIST_TYPES -> ls_keeps t' = true ->
         live now' (ls_view (ls_check now t e s).1 lt' t' e') = live now' (ls_view s lt' t' e');
  ls_get_view now lt t e s : ls_ok s -> lt ∈ ALL_LIST_TYPES -> ls_keeps t = true ->
    ls_get_entry now lt t e s = Ok (live now (ls_view s lt t e)) }.

(** * The stores keep the promise *)

Definition not_colon (c : ascii) : bool := negb (Ascii.eqb c ":").

Lemma colon_split a b r s : all_chars not_colon a = true -> all_chars not_colon b = true ->
  a +:+ ":" +:+ r = b +:+ ":" +:+ s -> a = b /\ r = s.
Proof.
  revert b. induction a as [|c a IH]; intros [|d b] Ha Hb E.
  - cbn in E. by injection E.
  - cbn in E, Hb. injection E as <- _. done.
  - cbn in E, Ha. injection E as -> _. done.
  - cbn in Ha, Hb. apply andb_prop in Ha as [_ Ha], Hb as [_ Hb]. cbn in E. injection E as -> E.
    destruct (IH b Ha Hb E) as [-> ->]. done.
Qed.

Lemma list_type_plain lt : lt ∈ ALL_LIST_TYPES -> all_chars not_colon lt = true.
Proof. intros H. unfold ALL_LIST_TYPES in H. set_unfold in H. destruct_or! H; by subst. Qed.

Lemma memory_key_inj lt t e lt' t' e' : lt ∈ ALL_LIST_TYPES -> lt' ∈ ALL_LIST_TYPES ->
  all_chars not_colon t = true -> all_chars not_colon t' = true ->
  memory_key lt' t' e' = memory_key lt t e <-> (lt', t', e') = (lt, t, e).
Proof.
  intros Hl Hl' Ht Ht'. unfold memory_key. split; [|by intros [= -> -> ->]]. intros E.
  apply colon_split in E as [-> E]; [|by apply list_type_plain..]. apply colon_split in E as [-> ->]; done.
Qed.

Lemma redis_key_inj lt t lt' t' : lt ∈ ALL_LIST_TYPES -> lt' ∈ ALL_LIST_TYPES -> redis_key lt' t' = redis_key lt t -> lt' = lt /\ t' = t.
Proof. intros Hl Hl' E. unfold redis_key in E. cbn in E. injection E as E. apply colon_split in E; [done|by apply list_type_plain..]. Qed.

Lemma check_order_lists lt : lt ∈ check_order -> lt ∈ ALL_LIST_TYPES.
Proof. unfold check_order, ALL_LIST_TYPES. set_solver. Qed.

Lemma expired_later now now' e : now <= now' -> is_expired now e = true -> is_expired now' e = true.
Proof.
  intros Hn. unfold is_expired. destruct (le_expires_at e); try done. destruct (nonempty s); [|done].
  destruct (fromisoformat s) as [[w [off|]]|]; try done. intros H%Z.ltb_lt. apply Z.ltb_lt. lia.
Qed.

(** ** Memory: tenants without a colon *)

#[export] Program Instance MemoryLaws : ListStoreLaws memory_store := {
  ls_ok _ := True;
  ls_keeps t := all_chars not_colon t;
  ls_view s lt t e := s !! memory_key lt t e }.
Next Obligation.
  intros now lt t e a s _ Hl Ht. cbn [ls_add MemoryListStore memory_add fst snd]. split; [done|]. split; [done|]. intros lt' t' e' Hl' Ht'. case_bool_decide as E.
  - injection E as -> -> ->. by rewrite lookup_insert_eq.
  - rewrite lookup_insert_ne; [done|]. intros E'. apply E. by apply memory_key_inj.
Qed.
Next Obligation.
  intros lt t e s _ Hl Ht. cbn [ls_remove MemoryListStore memory_remove fst snd]. split; [done|]. split; [done|]. intros lt' t' e' Hl' Ht'. case_bool_decide as E.
  - injection E as -> -> ->. by rewrite lookup_delete_eq.
  - rewrite lookup_delete_ne; [done|]. intros E'. apply E. by apply memory_key_inj.
Qed.
Next Obligation. done. Qed.
Next Obligation. done. Qed.

(** ** Files: all tenants *)

Lemma entities_saved s lt lt' t : entities_of (_save lt s) lt' t = entities_of s lt' t.
Proof. done. Qed.

Lemma file_add_lookup now lt t e a s lt' t' e' :
  file_lookup (file_add now lt t e a s).1 lt' t' e'
  = if bool_decide ((lt', t', e') = (lt, t, e)) then Some (new_entry now lt t e a) else file_lookup s lt' t' e'.
Proof.
  unfold file_lookup, file_add. cbn [fst]. rewrite entities_saved. unfold entities_of at 1. cbn [fs_data].
  destruct (decide (lt' = lt)) as [->|Hl].
  2:{ rewrite lookup_insert_ne by done. rewrite bool_decide_eq_false_2 by congruence. done. }
  rewrite lookup_insert_eq. cbn [default from_option id]. destruct (decide (t' = t)) as [->|Ht].
  2:{ rewrite lookup_insert_ne by done. rewrite bool_decide_eq_false_2 by congruence. done. }
  rewrite lookup_insert_eq. cbn [default from_option id]. destruct (decide (e' = e)) as [->|He].
  - rewrite lookup_insert_eq, bool_decide_eq_true_2; done.
  - rewrite lookup_insert_ne by done. rewrite bool_decide_eq_false_2 by congruence. done.
Qed.

Lemma file_remove_lookup lt t e s lt' t' e' :
  file_lookup (file_remove lt t e s).1 lt' t' e' = if bool_decide ((lt', t', e') = (lt, t, e)) then None else file_lookup s lt' t' e'.
Proof.
  unfold file_remove. destruct (file_lookup s lt t e) as [x|] eqn:Hx.
  2:{ cbn. case_bool_decide as E; [|done]. by injection E as -> -> ->. }
  cbn [fst]. unfold file_lookup in *. rewrite entities_saved. unfold entities_of in *. cbn [fs_data].
  destruct (decide (lt' = lt)) as [->|Hl].
  2:{ rewrite lookup_alter_ne by done. by rewrite bool_decide_eq_false_2 by congruence. }
  rewrite lookup_alter_eq. destruct (fs_data s !! lt) as [ts|] eqn:Ets; [|done]. cbn [fmap option_fmap option_map default from_option id] in *.
  destruct (decide (t' = t)) as [->|Ht].
  2:{ rewrite lookup_alter_ne by done. by rewrite bool_decide_eq_false_2 by congruence. }
  rewrite lookup_alter_eq. destruct (ts !! t) as [es|] eqn:Ees; [|done]. cbn [fmap option_fmap option_map default from_option id] in *.
  destruct (decide (e' = e)) as [->|He].
  - rewrite lookup_delete_eq, bool_decide_eq_true_2; done.
  - rewrite lookup_delete_ne by done. by rewrite bool_decide_eq_false_2 by congruence.
Qed.

#[export] Program Instance FileLaws : ListStoreLaws file_store := {
  ls_ok _ := True;
  ls_keeps _ := true;
  ls_view := file_lookup }.
Next Obligation. intros. split; [done|]. split; [done|]. intros. apply file_add_lookup. Qed.
Next Obligation.
  intros lt t e s _ _ _. split; [|split; [done|intros; apply file_remove_lookup]]. cbn. unfold file_remove.
  by destruct (file_lookup s lt t e).
Qed.
Next Obligation. done. Qed.
Next Obligation. done. Qed.

(** ** Redis: all tenants *)

(** What Redis documents of the commands. *)
Class RedisHashLaws (R : Type) `{RedisHash R} : Prop := {
  hget_hset k f v s k' f' : hget k' f' (hset k f v s) = if bool_decide ((k', f') = (k, f)) then Some v else hget k' f' s;
  hget_hdel k f s k' f' : hget k' f' (hdel k f s).1 = if bool_decide ((k', f') = (k, f)) then None else hget k' f' s;
  hdel_found k f s : (hdel k f s).2 = bool_decide (is_Some (hget k f s)) }.

Lemma from_to_dict now e : truthy e.(le_created_at) = true -> from_dict now (to_dict e) = Ok e.
Proof. intros H. destruct e as [a b c d e f g h]. change (from_dict _ _) with (Ok (stamped now (Entry a b c d e f g h))). unfold stamped. by rewrite H. Qed.

Lemma now_iso_nonempty now : nonempty (now_iso now) = true.
Proof. unfold now_iso, isoformat. destruct (civil_from_days _) as [[y m] d]. by destruct (pad_int 4 y). Qed.

Lemma new_entry_stamped now lt t e a : truthy (new_entry now lt t e a).(le_created_at) = true.
Proof. unfold new_entry, stamped. cbn. apply now_iso_nonempty. Qed.

Section redis.
Context {R : Type} `{RedisHashLaws R}.

(** The hashes of the lists hold entries that [add] wrote. *)
Definition redis_ok (s : R) : Prop :=
  forall lt t e raw, lt ∈ ALL_LIST_TYPES -> hget (redis_key lt t) e s = Some raw ->
    exists x, raw = to_dict x /\ truthy x.(le_created_at) = true.

Definition redis_view (s : R) (lt t e : string) : option ListEntry :=
  match hget (redis_key lt t) e s with
  | Some raw => match from_dict 0 raw with Ok x => Some x | Err _ => None end
  | None => None
  end.

Lemma redis_lookup s lt t e : redis_ok s -> lt ∈ ALL_LIST_TYPES ->
  match redis_view s lt t e with
  | Some x => exists raw, hget (redis_key lt t) e s = Some raw /\ forall now, from_dict now raw = Ok x
  | None => hget (redis_key lt t) e s = None
  end.
Proof.
  intros Hok Hl. unfold redis_view. destruct (hget (redis_key lt t) e s) as [raw|] eqn:E; [|done].
  destruct (Hok _ _ _ _ Hl E) as (x & -> & Hx). rewrite from_to_dict by done. exists (to_dict x). split; [done|]. intros. by apply from_to_dict.
Qed.

Lemma redis_keys_eq lt t (e : string) lt' t' (e' : string) : lt ∈ ALL_LIST_TYPES -> lt' ∈ ALL_LIST_TYPES ->
  bool_decide ((redis_key lt' t', e') = (redis_key lt t, e)) = bool_decide ((lt', t', e') = (lt, t, e)).
Proof.
  intros Hl Hl'. apply bool_decide_ext. split; [|by intros [= -> -> ->]]. intros E. pose proof (f_equal snd E) as E2. apply (f_equal fst) in E.
  cbn [fst snd] in E, E2. subst e'. by apply redis_key_inj in E as [-> ->].
Qed.

Lemma redis_deleted s lt t e : redis_ok s -> lt ∈ ALL_LIST_TYPES ->
  redis_ok (hdel (redis_key lt t) e s).1
  /\ forall lt' t' e', lt' ∈ ALL_LIST_TYPES ->
       redis_view (hdel (redis_key lt t) e s).1 lt' t' e' = if bool_decide ((lt', t', e') = (lt, t, e)) then None else redis_view s lt' t' e'.
Proof.
  intros Hok Hl. split.
  - intros lt' t' e' raw Hl' E. rewrite hget_hdel in E. destruct (bool_decide _); [done|]. by apply (Hok lt' t' e').
  - intros lt' t' e' Hl'. unfold redis_view. rewrite hget_hdel, redis_keys_eq by done. by destruct (bool_decide _).
Qed.

Lemma redis_check_spec now t e lists s : redis_ok s -> NoDup lists -> (forall lt, lt ∈ lists -> lt ∈ ALL_LIST_TYPES) ->
  (redis_check now t e lists s).2 = _build_result now (first_live now (fun lt => redis_view s lt t e) lists)
  /\ redis_ok (redis_check now t e lists s).1
  /\ forall now' lt' t' e', now <= now' -> lt' ∈ ALL_LIST_TYPES ->
       live now' (redis_view (redis_check now t e lists s).1 lt' t' e') = live now' (redis_view s lt' t' e').
Proof.
  revert s. induction lists as [|lt lists IH]; intros s Hok Hnd Hin; [done|]. apply NoDup_cons in Hnd as [Hni Hnd].
  assert (Hl : lt ∈ ALL_LIST_TYPES) by (apply Hin; by left). assert (Hin' : forall l, l ∈ lists -> l ∈ ALL_LIST_TYPES) by (intros; apply Hin; by right).
  cbn [redis_check first_live]. pose proof (redis_lookup s lt t e Hok Hl) as Hv. destruct (redis_view s lt t e) as [x|] eqn:Ex.
  2:{ rewrite Hv. cbn [live]. by apply IH. }
  destruct Hv as (raw & Hraw & Hf). rewrite Hraw, Hf. cbn [live]. destruct (is_expired now x) eqn:Exp; [|by rewrite ?Exp].
  destruct (redis_deleted s lt t e Hok Hl) as [Hok' Hview]. destruct (IH _ Hok' Hnd Hin') as (H1 & H2 & H3). split; [|split; [done|]].
  - rewrite H1. f_equal. assert (Hext : forall l, (forall k, k ∈ l -> k ∈ lists) ->
      first_live now (fun lt0 => redis_view (hdel (redis_key lt t) e s).1 lt0 t e) l = first_live now (fun lt0 => redis_view s lt0 t e) l).
    { induction l as [|k l IHl]; intros Hk; [done|]. cbn [first_live]. rewrite Hview by (apply Hin', Hk; by left).
      rewrite bool_decide_eq_false_2 by (intros [= ->]; apply Hni, Hk; by left). destruct (live now _); [done|]. apply IHl. intros. apply Hk. by right. }
    by apply Hext.
  - intros now' lt' t' e' Hn Hl'. rewrite H3, Hview by done. case_bool_decide as E; [|done]. injection E as -> -> ->.
    rewrite Ex. cbn. by rewrite (expired_later now now').
Qed.

#[export] Program Instance RedisLaws : ListStoreLaws R := {
  ls_ok := redis_ok;
  ls_keeps _ := true;
  ls_view := redis_view }.
Next Obligation.
  intros now lt t e a s Hok Hl _. cbn [ls_add RedisListStore redis_add fst snd]. split; [done|]. split.
  - intros lt' t' e' raw Hl' E. rewrite hget_hset in E. destruct (bool_decide _); [|by apply (Hok lt' t' e')].
    injection E as <-. eexists. split; [reflexivity|apply new_entry_stamped].
  - intros lt' t' e' Hl' _. unfold redis_view. rewrite hget_hset, redis_keys_eq by done. destruct (bool_decide _); [|done].
    by rewrite from_to_dict by apply new_entry_stamped.
Qed.
Next Obligation.
  intros lt t e s Hok Hl _. cbn. unfold redis_remove. destruct (redis_deleted s lt t e Hok Hl) as [Hok' Hview]. pose proof (hdel_found (redis_key lt t) e s) as Hb.
  destruct (hdel (redis_key lt t) e s) as [s' b]. cbn in *. split; [|split; [done|intros; by apply Hview]]. rewrite Hb. f_equal. apply bool_decide_ext.
  pose proof (redis_lookup s lt t e Hok Hl) as Hv. destruct (redis_view s lt t e); [destruct Hv as (raw & -> & _)|rewrite Hv]; split; intros []; by eauto.
Qed.
Next Obligation.
  intros now t e s Hok _. cbn. destruct (redis_check_spec now t e check_order s Hok) as (H1 & H2 & H3); [|apply check_order_lists|].
  - unfold check_order. repeat (constructor; [set_solver|]). constructor.
  - split; [done|]. split; [done|]. intros. by apply H3.
Qed.
Next Obligation.
  intros now lt t e s Hok Hl _. cbn. unfold redis_get_entry. pose proof (redis_lookup s lt t e Hok Hl) as Hv.
  destruct (redis_view s lt t e) as [x|]; [destruct Hv as (raw & -> & Hf); by rewrite Hf|by rewrite Hv].
Qed.
End redis.

(** ** Histories *)

Inductive list_op : Type :=
| AddOp (list_type tenant entity : string) (a : entry_args)
| RemoveOp (list_type tenant entity : string)
| CheckOp (tenant entity : string)
| GetOp (list_type tenant entity : string).

(** What a client sees of an operation; whether a removed entry was there is not
    compared, since a check may have dropped it once it had expired. *)
Inductive list_obs : Type :=
| SawAdd (r : result ListEntry)
| SawRemove
| SawCheck (r : result ListCheckResult)
| SawGet (r : result (option ListEntry)).

Section history.
Context {S : Type} `{ListStoreLaws S}.

Definition do_op (now : Z) (op : list_op) (s : S) : S * list_obs :=
  match op with
  | AddOp lt t e a => let '(s', r) := ls_add now lt t e a s in (s', SawAdd r)
  | RemoveOp lt t e => let '(s', _) := ls_remove lt t e s in (s', SawRemove)
  | CheckOp t e => let '(s', r) := ls_check now t e s in (s', SawCheck r)
  | GetOp lt t e => (s, SawGet (ls_get_entry now lt t e s))
  end.

(** The reference: a map from list, tenant and entity to the last entry added
    and not removed. *)
Definition listing : Type := string -> string -> string -> option ListEntry.

Definition set_listing (lt t e : string) (x : option ListEntry) (v : listing) : listing :=
  fun lt' t' e' => if bool_decide ((lt', t', e') = (lt, t, e)) then x else v lt' t' e'.

Definition spec_op (now : Z) (op : list_op) (v : listing) : listing * list_obs :=
  match op with
  | AddOp lt t e a => (set_listing lt t e (Some (new_entry now lt t e a)) v, SawAdd (Ok (new_entry now lt t e a)))
  | RemoveOp lt t e => (set_listing lt t e None v, SawRemove)
  | CheckOp t e => (v, SawCheck (_build_result now (first_live now (fun lt => v lt t e) check_order)))
  | GetOp lt t e => (v, SawGet (Ok (live now (v lt t e))))
  end.

Fixpoint run_ops {V : Type} (f : Z -> list_op -> V -> V * list_obs) (ops : list (Z * list_op)) (s : V) : V * list list_obs :=
  match ops with
  | [] => (s, [])
  | (now, op) :: ops' => let '(s', o) := f now op s in let '(s'', os) := run_ops f ops' s' in (s'', o :: os)
  end.

(** Operations on known lists and on tenants the store keeps apart. *)
Definition op_fits (op : list_op) : Prop :=
  match op with
  | AddOp lt t _ _ | RemoveOp lt t _ | GetOp lt t _ => lt ∈ ALL_LIST_TYPES /\ ls_keeps t = true
  | CheckOp t _ => ls_keeps t = true
  end.

(** The clock does not go back. *)
Fixpoint clock_from (t0 : Z) (ops : list (Z * list_op)) : Prop :=
  match ops with [] => True | (now, _) :: ops' => t0 <= now /\ clock_from now ops' end.

(** The store shows what the reference shows, from a time on. *)
Definition agrees (t0 : Z) (s : S) (v : listing) : Prop :=
  forall now lt t e, t0 <= now -> lt ∈ ALL_LIST_TYPES -> ls_keeps t = true -> live now (ls_view s lt t e) = live now (v lt t e).

Lemma first_live_ext now (f g : string -> option ListEntry) lists :
  (forall lt, lt ∈ lists -> live now (f lt) = live now (g lt)) -> first_live now f lists = first_live now g lists.
Proof.
  induction lists as [|lt lists IH]; intros E; [done|]. cbn [first_live]. rewrite E by (by left). destruct (live now (g lt)); [done|].
  apply IH. intros. apply E. by right.
Qed.

Lemma op_refines now op s v : ls_ok s -> op_fits op -> agrees now s v ->
  (do_op now op s).2 = (spec_op now op v).2 /\ ls_ok (do_op now op s).1 /\ agrees now (do_op now op s).1 (spec_op now op v).1.
Proof.
  intros Hok Hfit Hag. destruct op as [lt t e a|lt t e|t e|lt t e]; cbn [do_op spec_op op_fits] in *.
  - destruct Hfit as [Hl Ht]. pose proof (ls_add_view now lt t e a s Hok Hl Ht) as (H1 & H2 & H3). destruct (ls_add now lt t e a s) as [s' r].
    cbn [fst snd] in *. subst r. split; [done|]. split; [done|]. intros now' lt' t' e' Hn Hl' Ht'. rewrite H3 by done. unfold set_listing.
    repeat case_bool_decide; try done; by apply Hag.
  - destruct Hfit as [Hl Ht]. pose proof (ls_remove_view lt t e s Hok Hl Ht) as (H1 & H2 & H3). destruct (ls_remove lt t e s) as [s' r].
    cbn [fst snd] in *. split; [done|]. split; [done|]. intros now' lt' t' e' Hn Hl' Ht'. rewrite H3 by done. unfold set_listing.
    clear H1; repeat case_bool_decide; try done; by apply Hag.
  - pose proof (ls_check_view now t e s Hok Hfit) as (H1 & H2 & H3). destruct (ls_check now t e s) as [s' r]. cbn [fst snd] in *. subst r. split.
    + do 2 f_equal. apply first_live_ext. intros lt Hl. apply Hag; [lia|by apply check_order_lists|done].
    + split; [done|]. intros now' lt' t' e' Hn Hl' Ht'. rewrite H3 by done. by apply Hag.
  - destruct Hfit as [Hl Ht]. rewrite ls_get_view by done. cbn [fst snd]. split; [|done]. do 2 f_equal. apply Hag; [lia|done..].
Qed.

Lemma agrees_later t0 t1 s v : t0 <= t1 -> agrees t0 s v -> agrees t1 s v.
Proof. intros Ht Hag now lt t e Hn. apply Hag. lia. Qed.

Lemma history_refines ops t0 s v : ls_ok s -> Forall op_fits ops.*2 -> clock_from t0 ops -> agrees t0 s v ->
  (run_ops do_op ops s).2 = (run_ops spec_op ops v).2 /\ ls_ok (run_ops do_op ops s).1
  /\ forall t1, t0 <= t1 -> Forall (fun x => x.1 <= t1) ops -> agrees t1 (run_ops do_op ops s).1 (run_ops spec_op ops v).1.
Proof.
  revert t0 s v. induction ops as [|[now op] ops IH]; intros t0 s v Hok Hfit Hclock Hag.
  { split; [done|]. split; [done|]. intros t1 Ht _. by eapply agrees_later. }
  cbn [fmap list_fmap] in Hfit. apply Forall_cons in Hfit as [Hf Hfit]. destruct Hclock as [Hn Hclock].
  destruct (op_refines now op s v Hok Hf (agrees_later _ _ _ _ Hn Hag)) as (H1 & H2 & H3). cbn [run_ops].
  destruct (do_op now op s) as [s' o], (spec_op now op v) as [v' o']. cbn [fst snd] in H1, H2, H3. subst o'.
  destruct (IH now s' v' H2 Hfit Hclock H3) as (G1 & G2 & G3).
  destruct (run_ops do_op ops s') as [s'' os], (run_ops spec_op ops v') as [v'' os']. cbn [fst snd] in *. subst os'. split; [done|]. split; [done|].
  intros t1 _ [Ht1 Ht]%Forall_cons. by apply G3.
Qed.
End history.

(** The empty listing, and the last thing a history did to each entry. *)
Definition empty_listing : listing := fun _ _ _ => None.
Definition listing_after (ops : list (Z * list_op)) : listing := (run_ops spec_op ops empty_listing).1.

(** A store with nothing in it. *)
Definition fresh_store {S : Type} `{ListStoreLaws S} (s : S) : Prop := ls_ok s /\ forall lt t e, ls_view s lt t e = None.

(** C31: every list store is a map of entries.  For each store that keeps the
    promises of [ListStoreLaws], which the memory store does for tenants without
    a colon and the Redis and the file store for all, every history of additions,
    removals, checks and look-ups shows the client what a map from list, tenant
    and entity to the last entry shows, entries past their time aside. *)
Theorem list_store_refines {S : Type} `{ListStoreLaws S} (s : S) ops t0 :
  fresh_store s -> Forall op_fits ops.*2 -> clock_from t0 ops ->
  (run_ops do_op ops s).2 = (run_ops spec_op ops empty_listing).2.
Proof.
  intros [Hok Hemp] Hfit Hclock. apply (history_refines ops t0 s empty_listing Hok Hfit Hclock). intros now lt t e _ _ _. by rewrite Hemp.
Qed.

Lemma fresh_memory : fresh_store (∅ : memory_store).
Proof. split; [done|]. intros lt t e. apply lookup_empty. Qed.

Lemma fresh_file files : fresh_store (FileStore ∅ files).
Proof. done. Qed.

(** ** What an evaluation does with a listed entity *)

Lemma build_denied now e : is_expired now e = false -> e.(le_list_type) = PStr "blacklist" ->
  _build_result now (Some e) = Ok (ListCheck true (PStr "blacklist") "deny" e.(le_reason) (Some e)).
Proof. intros He Hl. unfold _build_result. by rewrite He, Hl. Qed.

(** What [list_stage] makes of a check that returns at once. *)
Lemma stage_denies lm policies setting pid payload platform pinning check ms n c :
  check 0%nat = Returned (Some c) -> c.(found) = true -> c.(lc_action) = "deny" ->
  list_stage lm policies setting pid payload platform pinning check ms n = rmap Some (blacklisted lm policies setting pid payload platform pinning).
Proof.
  intros Hc Hf Ha. unfold list_stage, run_evaluation_step, attempt_limit.
  assert (exists k, Z.to_nat (Z.max 1 (Z.min n 5)) = Datatypes.S k) as [k ->] by (exists (Z.to_nat (Z.max 1 (Z.min n 5)) - 1)%nat; lia).
  cbn [attempts_from]. rewrite Hc. cbn [rbind]. by rewrite Hf, Ha.
Qed.

Lemma blacklisted_denies lm policies setting pid payload platform pinning a : blacklisted lm policies setting pid payload platform pinning = Ok a ->
  a.(la_decision) = "deny" /\ a.(la_score) = litZ 100 /\ a.(la_enforcement) = "block".
Proof.
  unfold blacklisted. intros H. apply rbind_Ok in H as (inf & _ & H). apply rbind_Ok in H as (base & _ & H).
  apply rbind_Ok in H as ([rec meta] & _ & <-%Ok_inj). done.
Qed.

(** An entry stands in the list it names. *)
Lemma listing_typed ops v : (forall lt t e x, v lt t e = Some x -> x.(le_list_type) = PStr lt) ->
  forall lt t e x, (run_ops spec_op ops v).1 lt t e = Some x -> x.(le_list_type) = PStr lt.
Proof.
  revert v. induction ops as [|[now op] ops IH]; intros v Hv; [done|]. cbn [run_ops].
  assert (Hv' : forall lt t e x, (spec_op now op v).1 lt t e = Some x -> x.(le_list_type) = PStr lt).
  { intros lt t e x. destruct op as [lt0 t0 e0 a|lt0 t0 e0|t0 e0|lt0 t0 e0]; cbn [spec_op fst]; try apply Hv.
    all: unfold set_listing; case_bool_decide as E; try apply Hv; try done. injection E as -> -> ->. by intros [= <-]. }
  destruct (spec_op now op v) as [v' o]. cbn [fst] in Hv'. specialize (IH v' Hv'). destruct (run_ops spec_op ops v') as [v'' os]. exact IH.
Qed.

(** C5: a blacklisted entity is denied.  In every history of a store whose last
    write to the blacklist entry of an entity is an addition that has not
    expired, a check that returns makes the evaluation stop at the list stage:
    it does not go on to the rules, and what it answers is a deny with score 100
    that enforces [block], whatever the other lists and the challenge policies
    say. *)
Theorem blacklist_denies {S : Type} `{ListStoreLaws S} (s : S) ops t0 now tenant entity entry
    lm policies setting pid payload platform pinning check ms n c :
  fresh_store s -> Forall op_fits (ops ++ [(now, CheckOp tenant entity)]).*2 -> clock_from t0 ops -> t0 <= now -> Forall (fun x => x.1 <= now) ops ->
  live now (listing_after ops "blacklist" tenant entity) = Some entry ->
  (ls_check now tenant entity (run_ops do_op ops s).1).2 = Ok c -> check 0%nat = Returned (Some c) ->
  match list_stage lm policies setting pid payload platform pinning check ms n with
  | Ok (Some a) => a.(la_decision) = "deny" /\ a.(la_score) = litZ 100 /\ a.(la_enforcement) = "block"
  | Ok None => False
  | Err _ => True
  end.
Proof.
  intros [Hok Hemp] Hfit Hclock Ht0 Hlast Hlive Hc Hret. rewrite fmap_app, Forall_app in Hfit. destruct Hfit as [Hfit Hten%Forall_inv].
  destruct (history_refines ops t0 s empty_listing Hok Hfit Hclock) as (_ & Hok' & Hag).
  { intros now' lt t e _ _ _. by rewrite Hemp. }
  specialize (Hag now Ht0 Hlast). fold (listing_after ops) in Hag. destruct (ls_check_view now tenant entity _ Hok' Hten) as (Hr & _).
  rewrite Hc in Hr. cbn [check_order first_live] in Hr. rewrite Hag, Hlive in Hr by (set_solver || lia || done).
  assert (Hentry : listing_after ops "blacklist" tenant entity = Some entry /\ is_expired now entry = false).
  { unfold live in Hlive. destruct (listing_after ops "blacklist" tenant entity) as [x|]; [|done].
    destruct (is_expired now x) eqn:E; [done|]. by injection Hlive as ->. }
  destruct Hentry as [He Hexp]. apply listing_typed in He; [|done]. rewrite (build_denied now entry Hexp He) in Hr. apply Ok_inj in Hr. subst c.
  rewrite (stage_denies _ _ _ _ _ _ _ _ _ _ _ Hret eq_refl eq_refl).
  destruct (blacklisted _ _ _ _ _ _ _) as [a|] eqn:E; [|done]. cbn [rmap]. by eapply blacklisted_denies.
Qed.

(** ** The files of the file store *)

Lemma rmapM_fmap {A B C : Type} (f : B -> result C) (g : A -> B) l : rmapM f (g <$> l) = rmapM (fun x => f (g x)) l.
Proof. induction l as [|x l IH]; [done|]. cbn. by rewrite IH. Qed.

Lemma rmapM_id {A : Type} (f : A -> result A) l : (forall x, x ∈ l -> f x = Ok x) -> rmapM f l = Ok l.
Proof.
  induction l as [|x l IH]; intros Hf; [done|]. cbn [rmapM]. rewrite Hf by (by left). cbn [rbind]. rewrite IH; [done|].
  intros. apply Hf. by right.
Qed.

(** Reading back a map that was written value by value. *)
Lemma map_read_back {A B : Type} (rd : B -> result A) (wr : A -> B) (m : gmap string A) :
  map_Forall (fun _ x => rd (wr x) = Ok x) m ->
  (let! l := rmapM (fun kv => rmap (pair kv.1) (rd kv.2)) (map_to_list (wr <$> m)) in Ok (list_to_map l)) = Ok m.
Proof.
  intros Hm. rewrite map_to_list_fmap, rmapM_fmap.
  assert (Hid : rmapM (fun kv => rmap (pair (prod_map id wr kv).1) (rd (prod_map id wr kv).2)) (map_to_list m) = Ok (map_to_list m)).
  { apply rmapM_id. intros [k x] Hk. apply elem_of_map_to_list in Hk. cbn. by rewrite (Hm k x Hk). }
  rewrite Hid. cbn [rbind]. by rewrite list_to_map_to_list.
Qed.

(** Entries as [add] makes them: with a time of creation. *)
Definition stamped_list (tenants : list_data) : Prop :=
  map_Forall (fun _ (es : gmap string ListEntry) => map_Forall (fun _ x => truthy x.(le_created_at) = true) es) tenants.
Definition stamped_store (s : file_store) : Prop := map_Forall (fun _ (tenants : list_data) => stamped_list tenants) s.(fs_data).

Lemma read_saved now tenants : stamped_list tenants ->
  read_list now (serializable tenants) = Ok tenants.
Proof.
  intros Hs. apply (map_read_back (read_entities now) (fmap (M := gmap string) to_dict)). intros t es Ht.
  apply (map_read_back (from_dict now) to_dict). intros e x Hx. apply from_to_dict. exact (Hs t es Ht e x Hx).
Qed.

Lemma stamped_add now lt t e a s : stamped_store s -> stamped_store (file_add now lt t e a s).1.
Proof.
  intros Hs. unfold stamped_store, file_add, _save. cbn [fst fs_data]. apply map_Forall_insert_2; [|done].
  assert (Hts : stamped_list (default ∅ (fs_data s !! lt))).
  { destruct (fs_data s !! lt) as [ts|] eqn:E; [exact (Hs lt ts E)|]. apply map_Forall_empty. }
  apply map_Forall_insert_2; [|done]. apply map_Forall_insert_2; [apply new_entry_stamped|]. unfold entities_of.
  destruct (default ∅ (fs_data s !! lt) !! t) as [es|] eqn:E; [exact (Hts t es E)|]. apply map_Forall_empty.
Qed.

Lemma stamped_remove lt t e s : stamped_store s -> stamped_store (file_remove lt t e s).1.
Proof.
  intros Hs. unfold file_remove. destruct (file_lookup s lt t e); [|done]. unfold stamped_store, _save. cbn [fst fs_data].
  intros lt' ts Hts. apply lookup_alter_Some in Hts as [(<- & ts0 & Ets & ->)|[_ Ets]]; [|exact (Hs lt' ts Ets)].
  intros t' es Hes. apply lookup_alter_Some in Hes as [(<- & es0 & Ees & ->)|[_ Ees]]; [|exact (Hs _ _ Ets _ _ Ees)].
  apply map_Forall_delete. exact (Hs _ _ Ets _ _ Ees).
Qed.

Lemma stamped_history ops (s : file_store) : stamped_store s -> stamped_store (run_ops do_op ops s).1.
Proof.
  revert s. induction ops as [|[now op] ops IH]; intros s Hs; [done|]. cbn [run_ops].
  assert (Hs' : stamped_store (do_op now op s).1).
  { destruct op as [lt t e a|lt t e|t e|lt t e]; cbn [do_op ls_add ls_remove ls_check FileListStore]; [| |done|done].
    - pose proof (stamped_add now lt t e a s Hs) as H. by destruct (file_add now lt t e a s).
    - pose proof (stamped_remove lt t e s Hs) as H. by destruct (file_remove lt t e s). }
  destruct (do_op now op s) as [s' o]. specialize (IH s' Hs'). by destruct (run_ops do_op ops s').
Qed.

Lemma file_close_files s lt : lt ∈ ALL_LIST_TYPES ->
  fs_files (file_close s) !! lt = Some (serializable (default ∅ (fs_data s !! lt))).
Proof.
  intros Hl. unfold file_close, ALL_LIST_TYPES in *. cbn [foldl _save fs_data fs_files]. set_unfold in Hl. destruct_or! Hl; subst lt; by simplify_map_eq.
Qed.

(** Lists survive a restart.  After any history, when a file store is closed
    and another one connects to its files, every look-up in the three lists gives
    the entry it gave before, and connecting does not fail. *)
Theorem file_restart ops files now :
  let s := (run_ops do_op ops (FileStore ∅ files)).1 in
  exists s', file_connect now (fs_files (file_close s)) = Ok s'
    /\ forall lt t e, lt ∈ ALL_LIST_TYPES -> file_lookup s' lt t e = file_lookup s lt t e.
Proof.
  intros s. assert (Hs : stamped_store s) by (apply stamped_history, map_Forall_empty). clearbody s.
  assert (Hread : forall lt, lt ∈ ALL_LIST_TYPES ->
    (match fs_files (file_close s) !! lt with Some m => read_list now m | None => Ok ∅ end) = Ok (default ∅ (fs_data s !! lt))).
  { intros lt Hl. rewrite file_close_files by done. apply read_saved. destruct (fs_data s !! lt) as [ts|] eqn:E; [exact (Hs lt ts E)|]. apply map_Forall_empty. }
  unfold file_connect. generalize dependent (fs_files (file_close s)). intros saved Hread.
  eexists. split.
  - unfold ALL_LIST_TYPES in Hread |- *. cbn [rmapM]. rewrite !Hread by set_solver. reflexivity.
  - intros lt t e Hl. unfold file_lookup, entities_of. cbn [fs_data list_to_map foldr uncurry].
    unfold ALL_LIST_TYPES in Hl. set_unfold in Hl. destruct_or! Hl; subst lt; by simplify_map_eq.
Qed.

(** * Examples *)

(** A Redis with hashes as a map from key and field. *)
Abbreviation hash_map := (gmap (string * string) dict).

#[export] Instance HashMap : RedisHash hash_map := {
  hset k f v s := <[(k, f) := v]> s;
  hget k f s := s !! (k, f);
  hdel k f s := (delete (k, f) s, bool_decide (is_Some (s !! (k, f))));
  hlen k s := Z.of_nat (length (List.filter (fun kv => bool_decide (kv.1.1 = k)) (map_to_list s))) }.

#[export] Instance HashMapLaws : RedisHashLaws hash_map.
Proof.
  constructor.
  - intros k f v s k' f'. cbn. case_bool_decide as E; [injection E as -> ->; apply lookup_insert_eq|]. by apply lookup_insert_ne, not_eq_sym.
  - intros k f s k' f'. cbn. case_bool_decide as E; [injection E as -> ->; apply lookup_delete_eq|]. by apply lookup_delete_ne, not_eq_sym.
  - done.
Qed.

Definition until (s : string) : entry_args := EntryArgs "fraud ring" "ana" (Some s) [].

(** An addition that expires, a check after that, and one of another tenant. *)
Definition demo_ops : list (Z * list_op) :=
  [(0, AddOp "blacklist" "acme" "u1" (until "1970-01-01T00:01:00+00:00")); (1000000, AddOp "whitelist" "acme" "u1" (EntryArgs "" "ana" None []));
   (2000000, CheckOp "acme" "u1"); (61000000, CheckOp "acme" "u1"); (62000000, RemoveOp "whitelist" "acme" "u1"); (63000000, CheckOp "acme" "u1")].

Lemma demo_fits {S : Type} `{ListStoreLaws S} : ls_keeps "acme" = true -> Forall op_fits demo_ops.*2.
Proof. intros Hk. repeat constructor; unfold ALL_LIST_TYPES; first [done|set_solver]. Qed.

Lemma fresh_redis : fresh_store (∅ : hash_map).
Proof. split; [|done]. intros lt t e raw _ Hx. exfalso. exact (eq_ind None (fun o => match o with None => True | Some _ => False end) I _ Hx). Qed.

Lemma list_store_refines_witness :
  (run_ops do_op demo_ops (∅ : hash_map)).2 = (run_ops spec_op demo_ops empty_listing).2
  /\ map (fun o => match o with SawCheck (Ok c) => Some (c.(lc_action)) | _ => None end) (run_ops spec_op demo_ops empty_listing).2
     = [None; None; Some "deny"; Some "allow"; None; Some "evaluate"].
Proof.
  split; [|vm_compute; reflexivity].
  refine (list_store_refines (∅ : hash_map) demo_ops 0 fresh_redis (demo_fits eq_refl) _). cbn [demo_ops clock_from]. lia.
Defined.

Definition demo_blacklisted : ListCheckResult :=
  let e := new_entry 0 "blacklist" "acme" "u1" (until "1970-01-01T00:01:00+00:00") in
  ListCheck true (PStr "blacklist") "deny" (PStr "fraud ring") (Some e).

Lemma blacklist_denies_witness :
  match list_stage demo_libm [] "" None [] "web" None
          (fun _ => Returned (Some demo_blacklisted)) f_zero 1 with
  | Ok (Some a) => a.(la_decision) = "deny" /\ a.(la_score) = litZ 100 /\ a.(la_enforcement) = "block"
  | Ok None => False
  | Err _ => True
  end.
Proof.
  refine (blacklist_denies (∅ : memory_store) (take 2 demo_ops) 0 2000000 "acme" "u1"
            (new_entry 0 "blacklist" "acme" "u1" (until "1970-01-01T00:01:00+00:00")) demo_libm [] "" None [] "web" None
            (fun _ => Returned (Some demo_blacklisted)) f_zero 1 demo_blacklisted
            fresh_memory _ _ _ _ _ _ eq_refl).
  - repeat constructor; unfold ALL_LIST_TYPES; first [done|set_solver].
  - cbn [demo_ops take clock_from]. lia.
  - lia.
  - repeat constructor; cbn; lia.
  - vm_compute. reflexivity.
  - vm_compute. reflexivity.
Defined.

(** The key of the memory store joins its parts with colons: an entry of one
    tenant is found for another one, which the other stores keep apart. *)
Example memory_tenants_collide :
  rmap found (ls_check 5 "acme:eu" "u1" (ls_add 0 "blacklist" "acme" "eu:u1" (EntryArgs "fraud" "ana" None []) (∅ : memory_store)).1).2 = Ok true
  /\ rmap found (ls_check 5 "acme:eu" "u1" (ls_add 0 "blacklist" "acme" "eu:u1" (EntryArgs "fraud" "ana" None []) (FileStore ∅ ∅)).1).2 = Ok false.
Proof. split; vm_compute; reflexivity. Qed.

(** An end without an offset never comes.  An entry whose [expires_at] is an
    ISO time without an offset, or no time at all, never expires, at any clock
    reading: a temporary entry becomes a permanent one. *)
Theorem naive_end_never_comes e s : e.(le_expires_at) = PStr s ->
  (forall d, fromisoformat s = Ok d -> d.(dt_offset) = None) -> forall now, is_expired now e = false.
Proof.
  intros He Hd now. unfold is_expired. rewrite He. destruct (nonempty s); [|done]. destruct (fromisoformat s) as [[w o]|]; [|done].
  by rewrite (Hd _ eq_refl : o = None).
Qed.

Lemma naive_end_never_comes_witness :
  forall now, is_expired now (new_entry 0 "whitelist" "acme" "u1" (until "1970-01-01T00:01:00")) = false.
Proof.
  refine (naive_end_never_comes (new_entry 0 "whitelist" "acme" "u1" (until "1970-01-01T00:01:00")) "1970-01-01T00:01:00" eq_refl _).
  intros d H. vm_compute in H. injection H as <-. reflexivity.
Defined.
