(* ===== verification/Evaluate.v ===== *)
(** The scoring stage of the evaluate pipeline: [run_evaluate_decision] of
    [decision_api/evaluate/pipeline.py] from the evaluation of the live packs to
    the action of the response.

    The services it awaits are oracles: the attempts of the OPA, scoring and
    calibration calls and the degrade tags they leave, the answers of the tag store and of the Redis counter, and
    the tags the bridges return.  The stage starts from what the earlier
    enrichment left: features, tags, deltas, traces and the answer of the list
    check.  Of the audit record only the decision it stores is kept; caching the
    score and the notifications are left out. *)

From Stdlib Require Import ZArith Lia Ascii String Bool SpecFloat.
From stdpp Require Import base option list sorting strings gmap.
From S2P Require Import Prelude PyFloat PyValue RuleMatch GraphContract AstRules SignalResolver JsonRules Circuit PackEvaluator Score.
From S2P Require Import Enforcement Outcome ChallengePolicy PackCanary FloatBounds Integrity Inference EvalSteps EvalContext EntityLists.
Import GraphContract.Contract JsonRules.Rollout JsonRules.Store JsonRules.Telemetry.
Local Open Scope Z_scope.

(** Settings. *)
Record eval_config : Type := EvalConfig {
  ec_canary : canary_settings; ec_canary_files : canary_files; ec_strategy : string; ec_thresholds : thresholds;
  ec_challenger : bool; ec_salt : string; ec_experiment : string; ec_policies : dict; ec_policy_default : string;
  ec_calibration_url : string; ec_opa_attempts : Z; ec_ml_attempts : Z; ec_calibration_attempts : Z;
  ec_suspend_after : Z; ec_typologies : dict; ec_registry : dict }.

(** The request and what the stages before this one computed. *)
Record eval_input : Type := EvalInput {
  in_tenant : string; in_entity : string; in_canary_header : option string; in_policy_id : option string;
  in_payload : dict; in_metadata : option dict; in_platform : string; in_pinning : option bool;
  in_features : dict; in_redis_tags : list string; in_signal_tags : list string; in_degrade_tags : list string;
  in_replayed : bool; in_replay_hits : list string; in_consortium : float; in_graph_delta : float; in_label_delta : float;
  in_label_hits : list string; in_depth : dict; in_graph : option dict; in_external : option dict; in_location : option dict;
  in_snapshot_trace : dict; in_load_shed : bool; in_list_check : option ListCheckResult }.

(** The services during the stage. *)
Record eval_services : Type := EvalServices {
  sv_opa : nat -> hop_attempt pyval; sv_ml : nat -> hop_attempt (option float * dict);
  sv_calibration : float -> nat -> hop_attempt (option dict); sv_hop_degrade : list string; sv_calibration_degrade : list string;
  sv_merge_tags : list string -> option (list string); sv_redis_incr : option (option Z); sv_bridge_tags : list (list string);
  sv_graph_write_failed : bool; sv_trusted_zones : dict -> dict; sv_ms : float }.

(** * OPA and the model *)

Record hops : Type := Hops {
  hp_hits : list string; hp_tags : list string; hp_delta : float; hp_opa_delta : float;
  hp_ml : option float; hp_ml_detail : dict; hp_opa_trace : dict; hp_ml_trace : dict }.

(** What the policy's answer adds to the rules'. *)
Definition opa_merge (opa : pyval) (r : rule_tuple) : result (list string * list string * float * float) :=
  match opa with
  | PDict ((_ :: _) as d) =>
      let! hits := py_iter (get d "rule_hits" (PList [])) in
      let! tags := py_iter (get d "tags" (PList [])) in
      let! opa_delta := py_float (get d "score_delta" (PInt 0)) in
      Ok (r.(rt_hits) ++ map py_str hits, r.(rt_tags) ++ map py_str tags, fadd r.(rt_delta) opa_delta, opa_delta)
  | _ => Ok (r.(rt_hits), r.(rt_tags), r.(rt_delta), f_zero)
  end.

Definition skipped_ml (load_shed : bool) (snapshot : dict) : dict :=
  [("step", PStr "ml_score"); ("status", PStr "skipped"); ("reason", PStr (ml_skip_reason load_shed snapshot)); ("attempts", PInt 0)].

Definition run_hops (cfg : eval_config) (i : eval_input) (sv : eval_services) (r : rule_tuple) : result hops :=
  let! (opa, opa_trace) := run_evaluation_step "opa" sv.(sv_opa) SKIP PNone sv.(sv_ms) cfg.(ec_opa_attempts) in
  let! (ml_pack, ml_trace) :=
    if include_ml i.(in_load_shed) i.(in_snapshot_trace)
    then run_evaluation_step "ml_score" sv.(sv_ml) SKIP (None, []) sv.(sv_ms) cfg.(ec_ml_attempts)
    else Ok ((None, []), skipped_ml i.(in_load_shed) i.(in_snapshot_trace)) in
  let! (hits, tags, delta, opa_delta) := opa_merge opa r in
  Ok (Hops hits tags delta opa_delta ml_pack.1 ml_pack.2 opa_trace ml_trace).

(** * Scores *)

(** [10.0 + d1 + d2 + ...]. *)
Definition sum10 (deltas : list float) : float := foldl fadd (litZ 10) deltas.

Definition replay_delta (i : eval_input) : float := if i.(in_replayed) then litZ 20 else f_zero.

Definition ml_val (ml : option float) : pyval := match ml with Some m => PFloat m | None => PNone end.

(** Champion and challenger: the packs are evaluated once more. *)
Definition policy_routing (ev : eval_env) (cfg : eval_config) (i : eval_input) (signal_tags : list string) (h : hops)
    (st : engine) : engine * result (option dict) :=
  if negb cfg.(ec_challenger) then (st, Ok None)
  else match evaluate_json_rules ev i.(in_features) i.(in_redis_tags) (Some i.(in_tenant)) (Some i.(in_entity)) "challenger"
               (Some signal_tags) st with
       | (st', Err e) => (st', Err e)
       | (st', Ok ch) =>
           let rest := [i.(in_consortium); i.(in_graph_delta); replay_delta i; i.(in_label_delta)] in
           let champion := sum10 (h.(hp_delta) :: rest) in
           let challenger := sum10 (ch.(rt_delta) :: h.(hp_opa_delta) :: rest) in
           (st', Ok (Some (build_policy_routing_audit (cohort_bucket_0_99 i.(in_tenant) i.(in_entity) cfg.(ec_salt)) cfg.(ec_salt)
                             champion challenger (decision_from_rule_score cfg.(ec_thresholds) champion)
                             (decision_from_rule_score cfg.(ec_thresholds) challenger) (ml_val h.(hp_ml)))))
       end.

Definition appended_hits (i : eval_input) (hits : list string) : list string :=
  hits ++ reason_if (fltb f_zero i.(in_consortium)) "consortium_shared_signal"
       ++ reason_if (fltb f_zero i.(in_graph_delta)) "graph_network_risk" ++ i.(in_label_hits).

Definition final_score_of (cfg : eval_config) (i : eval_input) (degrade_tags : list string) (h : hops) (depth : float) : float :=
  blend_scores cfg.(ec_strategy)
    (sum10 [h.(hp_delta); i.(in_consortium); i.(in_graph_delta); replay_delta i; depth; i.(in_label_delta);
            degrade_skip_score_delta degrade_tags]) h.(hp_ml).

Definition decision_of (cfg : eval_config) (degrade_tags : list string) (final_score : float) : string :=
  if force_deny_from_degrade_tags degrade_tags then "deny"
  else decision_from_rule_score cfg.(ec_thresholds) final_score.

(** * Calibration *)

(** The features a calibration answer sets. *)
Definition calibrated_features (meta : dict) (features : dict) : result dict :=
  let! features := match get meta "calibrated_confidence" PNone with
                   | (PFloat _ | PInt _ | PBool _) as v =>
                       let! f := py_float v in Ok (dict_set "calibrated_integrity_confidence" (PFloat f) features)
                   | _ => Ok features
                   end in
  let features := match get meta "profile_id" PNone with
                  | PStr s => if nonempty (strip s) then dict_set "calibration_profile" (PStr (strip s)) features else features
                  | _ => features
                  end in
  match get meta "expected_calibration_version" PNone with
  | PNone => Ok features
  | v => try_except (rmap (fun n => dict_set "expected_calibration_version" (PInt n) features) (py_int v))
           is_type_or_value_error features
  end.

Definition inference_args_of (cfg : eval_config) (i : eval_input) (h : hops) (calibration : option dict) : inference_args :=
  InferenceArgs (Some h.(hp_ml_detail)) i.(in_platform) i.(in_pinning) i.(in_location) calibration i.(in_graph) i.(in_external)
    (if nonempty cfg.(ec_experiment) then Some cfg.(ec_experiment) else None).

(** [if settings.calibration_service_url: if _dag.include_calibration(...)]. *)
Definition calibration_runs (cfg : eval_config) (i : eval_input) (h : hops) : bool :=
  nonempty cfg.(ec_calibration_url) && include_calibration i.(in_load_shed) h.(hp_opa_trace) h.(hp_ml_trace).

Definition calibrate (lm : libm) (cfg : eval_config) (i : eval_input) (sv : eval_services) (h : hops) (features : dict)
    (signal_tags hits : list string) (final_score : float) : result (option dict * dict) :=
  if negb (calibration_runs cfg i h) then Ok (None, features)
  else
    let! baseline := build_inference_context lm (append_new [] signal_tags) hits h.(hp_ml) final_score features
                       (inference_args_of cfg i h None) in
    let! conf := py_float (por (get baseline "integrity_confidence" PNone) (PFloat f_zero)) in
    let! (meta, _) := run_evaluation_step "calibration_adjustment" (sv.(sv_calibration) conf) SKIP None sv.(sv_ms)
                        cfg.(ec_calibration_attempts) in
    match meta with
    | Some m => let! features := calibrated_features m features in Ok (Some m, features)
    | None => Ok (None, features)
    end.

(** * The answer *)

(** [merge_tags], failing soft: the tags and the degrade tags after it. *)
Definition merge_tags_soft (sv : eval_services) (tags degrade : list string) : list string * list string :=
  match sv.(sv_merge_tags) tags with
  | Some merged => (merged, degrade)
  | None => (add_once "redis:tag_merge_unavailable" (sorted_set tags), add_once "redis:tag_merge_unavailable" degrade)
  end.

Definition with_bridge (merged : list string) (tags : list string) : list string :=
  match tags with [] => merged | _ => append_new [] (merged ++ tags) end.

(** The decision node could not be written to the graph. *)
Definition graph_write_tag (sv : eval_services) (merged : list string) : list string :=
  if sv.(sv_graph_write_failed) then add_once "graph:write_failed" merged else merged.

Record eval_answer : Type := EvalAnswer {
  an_decision : string; an_score : float; an_tags : list string; an_hits : list string; an_context : dict;
  an_recommended : option string; an_enforcement : string; an_typologies : list typology_row; an_degrade : list string;
  an_routing : option dict; an_canary : option dict; an_recorded : string }.

(** From the scores to the response. *)
Definition conclude (lm : libm) (cfg : eval_config) (i : eval_input) (sv : eval_services) (h : hops) (esc : escalation)
    (signal_tags degrade_tags : list string) (depth : float) (routing canary : option dict) : result (dict * eval_answer) :=
  let new_tags := append_new [] esc.(es_tags) in
  let hits := appended_hits i esc.(es_hits) in
  let final_score := final_score_of cfg i degrade_tags h depth in
  let all_hits := hits ++ i.(in_replay_hits) in
  let! (calibration, features) := calibrate lm cfg i sv h esc.(es_features) signal_tags all_hits final_score in
  let degrade := if calibration_runs cfg i h then degrade_tags ++ sv.(sv_calibration_degrade) else degrade_tags in
  let '(merged, degrade) := merge_tags_soft sv new_tags degrade in
  let merged := foldl with_bridge merged sv.(sv_bridge_tags) in
  let! typologies := evaluate_typologies cfg.(ec_typologies) cfg.(ec_registry) all_hits features in
  let decision := decision_of cfg degrade final_score in
  let! (ctx, action, enforcement) :=
    recommend lm cfg.(ec_policies) cfg.(ec_policy_default) i.(in_policy_id) i.(in_payload) decision signal_tags merged all_hits
      h.(hp_ml) final_score features (inference_args_of cfg i h calibration) in
  Ok (features, EvalAnswer decision final_score (graph_write_tag sv merged) all_hits ctx action enforcement typologies degrade routing canary decision).

(** [list_check and list_check.found and list_check.list_type == "test_bypass"]. *)
Definition test_bypassed (i : eval_input) : bool :=
  match i.(in_list_check) with
  | Some c => c.(found) && match c.(lc_list_type) with PStr s => bool_decide (s = "test_bypass") | _ => false end
  | None => false
  end.

(** The answer to an entity under test: everything has been evaluated and
    recorded, and the response allows.  The context is built anew, without the
    location, graph, external and calibration answers. *)
Definition test_bypass (lm : libm) (cfg : eval_config) (i : eval_input) (sv : eval_services) (h : hops)
    (signal_tags : list string) (features : dict) (a : eval_answer) : result eval_answer :=
  let hits := a.(an_hits) ++ ["test_bypass"] in
  let tags := append_new [] (signal_tags ++ supplemental_tags_for_integrity i.(in_platform) signal_tags) in
  let! inf := build_inference_context lm tags hits h.(hp_ml) a.(an_score) (sv.(sv_trusted_zones) features)
                (InferenceArgs (Some h.(hp_ml_detail)) i.(in_platform) i.(in_pinning) None None None None None) in
  let! base := derive_recommended_action "allow" tags inf in
  let! (action, _) := apply_challenge_policy cfg.(ec_policies) cfg.(ec_policy_default) i.(in_policy_id) base "allow" inf
                        signal_tags i.(in_payload) in
  Ok (EvalAnswer "allow" a.(an_score) (a.(an_tags) ++ ["list:test_bypass"]) hits inf action
        (resolve_enforcement_action "allow" action) a.(an_typologies) a.(an_degrade) a.(an_routing) a.(an_canary)
        a.(an_recorded)).

Definition respond (lm : libm) (cfg : eval_config) (i : eval_input) (sv : eval_services) (h : hops)
    (signal_tags : list string) (concluded : dict * eval_answer) : result eval_answer :=
  if test_bypassed i then test_bypass lm cfg i sv h signal_tags concluded.1 concluded.2 else Ok concluded.2.

(** The tags, hits and depth score before the e-hailing ladder. *)
Definition context_stage (i : eval_input) (h : hops) (signal_tags : list string)
    : result (list string * list string * list string * float) :=
  let! contextual := derive_contextual_tags i.(in_features) signal_tags None i.(in_external) in
  let signal_tags := signal_tags ++ contextual in
  let! (tags, hits, depth) := merge_depth_into_score_and_tags i.(in_depth) (h.(hp_tags) ++ signal_tags) h.(hp_hits) in
  Ok (signal_tags, tags, hits, depth).

(** After the rules: the services, the routing audit, the ladder, the answer. *)
Definition after_rules (ev : eval_env) (lm : libm) (cfg : eval_config) (i : eval_input) (sv : eval_services)
    (r : rule_tuple) (canary : option dict) (st : engine) (ladder : challenge_store)
    : engine * challenge_store * result eval_answer :=
  match run_hops cfg i sv r with
  | Err e => (st, ladder, Err e)
  | Ok h =>
      let degrade := i.(in_degrade_tags) ++ sv.(sv_hop_degrade) in
      let signal_tags := append_new i.(in_signal_tags) degrade in
      match policy_routing ev cfg i signal_tags h st with
      | (st', Err e) => (st', ladder, Err e)
      | (st', Ok routing) =>
          match context_stage i h signal_tags with
          | Err e => (st', ladder, Err e)
          | Ok (signal_tags, tags, hits, depth) =>
              match apply_ehailing_challenge_escalation cfg.(ec_suspend_after) sv.(sv_redis_incr) i.(in_tenant) i.(in_entity)
                      (Some i.(in_payload)) i.(in_metadata) i.(in_features) tags hits ladder with
              | (ladder', Err e) => (st', ladder', Err e)
              | (ladder', Ok esc) =>
                  (st', ladder', rbind (conclude lm cfg i sv h esc signal_tags degrade depth routing canary)
                                   (respond lm cfg i sv h signal_tags))
              end
          end
      end
  end.

Definition evaluate_core (ev : eval_env) (lm : libm) (cfg : eval_config) (i : eval_input) (sv : eval_services)
    (st : engine) (ladder : challenge_store) : engine * challenge_store * result eval_answer :=
  match rules_and_canary ev cfg.(ec_canary) cfg.(ec_canary_files) i.(in_canary_header) i.(in_features) i.(in_redis_tags)
          i.(in_tenant) i.(in_entity) i.(in_signal_tags) st with
  | (st', Err e) => (st', ladder, Err e)
  | (st', Ok (r, canary)) => after_rules ev lm cfg i sv r canary st' ladder
  end.

(** * Correctness *)

Definition with_canary (c : option dict) (a : eval_answer) : eval_answer :=
  EvalAnswer a.(an_decision) a.(an_score) a.(an_tags) a.(an_hits) a.(an_context) a.(an_recommended) a.(an_enforcement)
    a.(an_typologies) a.(an_degrade) a.(an_routing) c a.(an_recorded).

(** The same service with the canary switched off, and the same request without its header. *)
Definition canary_off (cfg : eval_config) : eval_config :=
  let c := cfg.(ec_canary) in
  EvalConfig (CanarySettings f_zero c.(pack_canary_pack_id) c.(pack_canary_path) c.(rules_path) c.(canary_thresholds))
    cfg.(ec_canary_files) cfg.(ec_strategy) cfg.(ec_thresholds) cfg.(ec_challenger) cfg.(ec_salt) cfg.(ec_experiment)
    cfg.(ec_policies) cfg.(ec_policy_default) cfg.(ec_calibration_url) cfg.(ec_opa_attempts) cfg.(ec_ml_attempts)
    cfg.(ec_calibration_attempts) cfg.(ec_suspend_after) cfg.(ec_typologies) cfg.(ec_registry).

Definition no_header (i : eval_input) : eval_input :=
  EvalInput i.(in_tenant) i.(in_entity) None i.(in_policy_id) i.(in_payload) i.(in_metadata) i.(in_platform) i.(in_pinning)
    i.(in_features) i.(in_redis_tags) i.(in_signal_tags) i.(in_degrade_tags) i.(in_replayed) i.(in_replay_hits)
    i.(in_consortium) i.(in_graph_delta) i.(in_label_delta) i.(in_label_hits) i.(in_depth) i.(in_graph) i.(in_external)
    i.(in_location) i.(in_snapshot_trace) i.(in_load_shed) i.(in_list_check).

Lemma conclude_canary lm cfg i sv h esc sig deg depth routing c :
  conclude lm cfg i sv h esc sig deg depth routing c
  = rmap (prod_map id (with_canary c)) (conclude lm cfg i sv h esc sig deg depth routing None).
Proof.
  unfold conclude. destruct (calibrate _ _ _ _ _ _ _ _ _) as [[cal feats]|]; [|done]. cbn [rbind].
  destruct (merge_tags_soft _ _ _) as [merged degrade].
  destruct (evaluate_typologies _ _ _ _); [|done]. cbn [rbind].
  by destruct (recommend _ _ _ _ _ _ _ _ _ _ _ _ _) as [[[ctx act] enf]|].
Qed.

Lemma respond_canary lm cfg i sv h sig c m :
  rbind (rmap (prod_map id (with_canary c)) m) (respond lm cfg i sv h sig)
  = rmap (with_canary c) (rbind m (respond lm cfg i sv h sig)).
Proof.
  destruct m as [[F a]|]; [|done]. cbn [rbind rmap prod_map fst snd id]. unfold respond, test_bypass.
  destruct (test_bypassed i); [|done]. cbn [fst snd]. change (an_hits (with_canary c a)) with (an_hits a).
  change (an_score (with_canary c a)) with (an_score a).
  destruct (build_inference_context _ _ _ _ _ _ _) as [inf|]; [|done]. cbn [rbind].
  destruct (derive_recommended_action _ _ _) as [base|]; [|done]. cbn [rbind].
  by destruct (apply_challenge_policy _ _ _ _ _ _ _ _) as [[act m]|].
Qed.

(** The observation only travels to the answer. *)
Lemma after_rules_canary ev lm cfg i sv r c st l :
  after_rules ev lm cfg i sv r c st l
  = (let '(st', l', out) := after_rules ev lm cfg i sv r None st l in (st', l', rmap (with_canary c) out)).
Proof.
  unfold after_rules. destruct (run_hops _ _ _ _) as [h|]; [|done].
  destruct (policy_routing _ _ _ _ _ _) as [st' [routing|]]; [|done].
  destruct (context_stage _ _ _) as [[[[sig tags] hits] depth]|]; [|done].
  destruct (apply_ehailing_challenge_escalation _ _ _ _ _ _ _ _ _ _) as [l' [esc|]]; [|done]. by rewrite conclude_canary, respond_canary.
Qed.

(** Without a challenger nothing after the rules reads the engine. *)
Lemma after_rules_engine ev lm cfg i sv r c st st' l :
  ec_challenger cfg = false ->
  after_rules ev lm cfg i sv r c st' l
  = (let '(_, l', out) := after_rules ev lm cfg i sv r c st l in (st', l', out)).
Proof.
  intros Hc. unfold after_rules, policy_routing. rewrite Hc. cbn [negb]. destruct (run_hops _ _ _ _) as [h|]; [|done].
  destruct (context_stage _ _ _) as [[[[sig tags] hits] depth]|]; [|done].
  by destruct (apply_ehailing_challenge_escalation _ _ _ _ _ _ _ _ _ _) as [l' [esc|]].
Qed.

(** The live result and its engine, when the rule stage answers. *)
Lemma stage_live ev cs fs h F tags t e sig st st' r obs :
  rules_and_canary ev cs fs h F tags t e sig st = (st', Ok (r, obs)) ->
  exists st1 q, live_rules ev F tags t e sig st = (st1, Ok r) /\ st' = with_ffi st1 q
    /\ (uses_rust ev = false -> q = st1.(en_ffi)).
Proof.
  unfold rules_and_canary. destruct (live_rules ev F tags t e sig st) as [st1 [r1|e1]] eqn:E; [|done].
  unfold live_rules in E. apply live_ok in E as [Hm _].
  destruct (observe_frame ev cs fs h F tags t e sig st1 Hm) as (q & Hq & Hl).
  destruct (maybe_observe_candidate_pack _ _ _ _ _ _ _ _ _ st1) as [st2 [o|]]; [|done]. cbn in Hq. intros [= <- <- <-].
  exists st1, q. split_and!; [done|done|]. intros Hu. by rewrite Hu in Hl.
Qed.

Lemma canary_off_stage ev cfg F tags t e sig st :
  rules_and_canary ev (ec_canary (canary_off cfg)) (ec_canary_files (canary_off cfg)) None F tags t e sig st
  = (let '(st1, out) := live_rules ev F tags t e sig st in (st1, rmap (fun r => (r, None)) out)).
Proof. unfold rules_and_canary. by destruct (live_rules ev F tags t e sig st) as [st1 [r|]]. Qed.

(** C2: a canary never changes an answer.  When the pipeline answers with the
    canary on, whatever the candidate, the settings and the header, it answers
    the same with the canary off: the same decision, score, tags, hits, context,
    recommended and enforced action, the same ladder, pack store and telemetry;
    only the failure window of the extension may differ.  (With a challenger the
    Python engine is assumed, since the extension's circuit would be consulted
    once more.) *)
Theorem canary_leaves_answer ev lm cfg i sv st l st1 l1 a :
  uses_rust ev = false \/ ec_challenger cfg = false ->
  evaluate_core ev lm cfg i sv st l = (st1, l1, Ok a) ->
  exists st2, evaluate_core ev lm (canary_off cfg) (no_header i) sv st l = (st2, l1, Ok (with_canary None a))
    /\ exists q, st1 = with_ffi st2 q.
Proof.
  intros Hmode. unfold evaluate_core.
  destruct (rules_and_canary _ _ _ _ _ _ _ _ _ _) as [st' [[r obs]|e]] eqn:E; [|done]. intros H.
  apply stage_live in E as (stl & q & Hl & -> & Hq).
  cbn [no_header in_canary_header in_features in_redis_tags in_tenant in_entity in_signal_tags].
  rewrite canary_off_stage, Hl. cbn [rmap].
  change (after_rules ev lm (canary_off cfg) (no_header i) sv r None stl l) with (after_rules ev lm cfg i sv r None stl l).
  rewrite after_rules_canary in H. pose proof (after_rules_canary ev lm cfg i sv r None stl l) as Hnone.
  assert (Hback : forall b, b = with_canary None b -> Ok b = Ok (with_canary None (with_canary obs b))) by (by intros b ->).
  destruct Hmode as [Hu|Hc].
  - rewrite (Hq Hu) in H. assert (Hs : with_ffi stl (en_ffi stl) = stl) by (by destruct stl). rewrite Hs in H.
    destruct (after_rules ev lm cfg i sv r None stl l) as [[st2 l2] [a2|e2]]; [|done]. cbn in H. injection H as <- <- <-.
    exists st2. rewrite (Hback a2) by (by injection Hnone). split; [done|]. exists st2.(en_ffi). by destruct st2.
  - rewrite (after_rules_engine _ _ _ _ _ _ _ stl _ _ Hc) in H.
    pose proof (after_rules_engine ev lm cfg i sv r None stl stl l Hc) as Hself.
    destruct (after_rules ev lm cfg i sv r None stl l) as [[st2 l2] [a2|e2]]; [|done].
    assert (st2 = stl) as -> by congruence. cbn in H. injection H as <- <- <-. exists stl.
    rewrite (Hback a2) by (by injection Hnone). split; [done|]. eauto.
Qed.

Lemma dict_set_64 k v d : val64 v -> floats64 d -> floats64 (dict_set k v d).
Proof.
  intros Hv Hd. induction Hd as [|[k' v'] d Hx Hd IH]; cbn [dict_set]; [repeat constructor; done|].
  case_bool_decide; constructor; done.
Qed.

Lemma ladder_64 dflt redis t e p m F tags hits s esc :
  floats64 F -> (apply_ehailing_challenge_escalation dflt redis t e p m F tags hits s).2 = Ok esc -> floats64 esc.(es_features).
Proof.
  intros HF. unfold apply_ehailing_challenge_escalation. destruct (negb _); [by intros [= <-]|].
  destruct (EvalContext.incr _ _ _ _) as [s' n]. cbn [snd]. destruct (challenge_threshold _ _) as [thr|]; [|done].
  cbn [rbind]. intros <-%Ok_inj. unfold escalated. destruct (thr <=? n); cbn [es_features]; repeat (apply dict_set_64; [done|]); done.
Qed.

Lemma calibrated_64 meta F F' : floats64 meta -> floats64 F -> calibrated_features meta F = Ok F' -> floats64 F'.
Proof.
  intros Hm HF. unfold calibrated_features.
  set (m1 := match get meta "calibrated_confidence" PNone with PNone => _ | _ => _ end).
  assert (H1 : forall d, m1 = Ok d -> floats64 d).
  { subst m1. pose proof (get_64 meta "calibrated_confidence" PNone Hm I) as Hv. intros d.
    destruct (get meta "calibrated_confidence" PNone) as [|b|n|f|s|l|k]; try (by intros [= <-]).
    all: destruct (py_float _) as [f'|] eqn:E; [|done]; cbn [rbind]; intros <-%Ok_inj;
         apply dict_set_64; [exact (py_float_64 _ _ Hv E)|done]. }
  clearbody m1. destruct m1 as [d|]; [|done]. specialize (H1 d eq_refl). cbn [rbind].
  set (d2 := match get meta "profile_id" PNone with PStr s => _ | _ => d end).
  assert (H2 : floats64 d2).
  { subst d2. destruct (get meta "profile_id" PNone); try done. destruct (nonempty _); [|done]. by apply dict_set_64. }
  clearbody d2. destruct (get meta "expected_calibration_version" PNone) as [|b|n|f|s|l|k]; [by intros <-%Ok_inj|..].
  all: unfold try_except; destruct (py_int _); cbn [rmap];
    [intros <-%Ok_inj; by apply dict_set_64|destruct (is_type_or_value_error _); [by intros <-%Ok_inj|done]].
Qed.

(** The calibration service answers floats of the machine. *)
Definition service64 (sv : eval_services) : Prop :=
  forall c n m, sv.(sv_calibration) c n = Returned (Some m) -> floats64 m.

Lemma step_value {A} step (factory : nat -> hop_attempt A) fallback ms n v t :
  run_evaluation_step step factory SKIP fallback ms n = Ok (v, t) -> v = fallback \/ exists k, factory k = Returned v.
Proof.
  unfold run_evaluation_step. pose proof (attempts_from_spec factory (attempt_limit n) 0 None) as H.
  destruct (attempts_from _ _ _ _) as [[w k]|err]; [|intros [= <- _]; by left].
  intros [= <- _]. right. destruct H as (_ & Hw & _). eauto.
Qed.

Lemma calibrate_64 lm cfg i sv h F sig hits score cal F' :
  service64 sv -> floats64 F -> calibrate lm cfg i sv h F sig hits score = Ok (cal, F') -> floats64 F'.
Proof.
  intros Hs HF. unfold calibrate. destruct (negb _); [by intros [= _ <-]|].
  destruct (build_inference_context _ _ _ _ _ _ _) as [base|]; [|done]. cbn [rbind].
  destruct (py_float _) as [conf|]; [|done]. cbn [rbind].
  destruct (run_evaluation_step _ _ _ _ _ _) as [[meta t]|] eqn:E; [|done]. cbn [rbind].
  destruct meta as [m|]; [|by intros [= _ <-]]. destruct (calibrated_features m F) as [F2|] eqn:Ec; [|done].
  cbn [rbind]. intros H. assert (F2 = F') as <- by congruence.
  apply step_value in E as [|[k Hk]]; [done|]. exact (calibrated_64 m F F2 (Hs _ _ _ Hk) HF Ec).
Qed.

(** An answer is the conclusion of the ladder's outcome. *)
Lemma core_inv ev lm cfg i sv st l st' l' a :
  evaluate_core ev lm cfg i sv st l = (st', l', Ok a) ->
  exists h esc sig deg depth routing canary c,
    conclude lm cfg i sv h esc sig deg depth routing canary = Ok c /\ respond lm cfg i sv h sig c = Ok a
    /\ (floats64 i.(in_features) -> floats64 esc.(es_features)).
Proof.
  unfold evaluate_core, after_rules. destruct (rules_and_canary _ _ _ _ _ _ _ _ _ _) as [st1 [[r obs]|e]]; [|done].
  destruct (run_hops _ _ _ _) as [h|]; [|done]. destruct (policy_routing _ _ _ _ _ _) as [st2 [routing|]]; [|done].
  destruct (context_stage _ _ _) as [[[[sig tags] hits] depth]|]; [|done].
  destruct (apply_ehailing_challenge_escalation _ _ _ _ _ _ _ _ _ _) as [l2 [esc|]] eqn:E; [|done].
  intros H. injection H as _ _ H. apply rbind_Ok in H as (c & H & Hr). do 8 eexists.
  split; [exact H|]. split; [exact Hr|]. intros HF.
  apply (ladder_64 _ _ _ _ _ _ _ _ _ _ _ HF (f_equal snd E)).
Qed.

Lemma conclude_inv lm cfg i sv h esc sig deg depth routing canary feats a :
  conclude lm cfg i sv h esc sig deg depth routing canary = Ok (feats, a) ->
  exists cal merged,
    calibrate lm cfg i sv h esc.(es_features) sig a.(an_hits) a.(an_score) = Ok (cal, feats)
    /\ a.(an_score) = final_score_of cfg i deg h depth
    /\ a.(an_decision) = decision_of cfg a.(an_degrade) a.(an_score)
    /\ a.(an_recorded) = a.(an_decision)
    /\ recommend lm cfg.(ec_policies) cfg.(ec_policy_default) i.(in_policy_id) i.(in_payload) a.(an_decision) sig merged
         a.(an_hits) h.(hp_ml) a.(an_score) feats (inference_args_of cfg i h cal)
       = Ok (a.(an_context), a.(an_recommended), a.(an_enforcement)).
Proof.
  intros H. unfold conclude in H.
  apply rbind_Ok in H as ([cal feats'] & Ec & H). destruct (merge_tags_soft _ _ _) as [merged degrade].
  apply rbind_Ok in H as (rows & _ & H). apply rbind_Ok in H as ([[ctx act] enf] & Er & H). apply Ok_inj in H.
  assert (feats' = feats) as -> by congruence. assert (Ha := f_equal snd H). cbn [snd] in Ha. subst a.
  exists cal, (foldl with_bridge merged (sv_bridge_tags sv)).
  exact (conj Ec (conj eq_refl (conj eq_refl (conj eq_refl Er)))).
Qed.

(** What a response keeps of the conclusion, and what a test bypass changes. *)
Lemma respond_inv lm cfg i sv h sig feats a0 a :
  respond lm cfg i sv h sig (feats, a0) = Ok a ->
  a.(an_score) = a0.(an_score) /\ a.(an_degrade) = a0.(an_degrade) /\ a.(an_recorded) = a0.(an_recorded)
  /\ if test_bypassed i
     then a.(an_decision) = "allow" /\ a.(an_tags) = a0.(an_tags) ++ ["list:test_bypass"]
          /\ a.(an_enforcement) = resolve_enforcement_action "allow" a.(an_recommended)
     else a = a0.
Proof.
  unfold respond. destruct (test_bypassed i); [|by intros <-%Ok_inj]. unfold test_bypass. cbn [fst snd]. intros H.
  apply rbind_Ok in H as (inf & _ & H). apply rbind_Ok in H as (base & _ & H).
  apply rbind_Ok in H as ([act m] & _ & <-%Ok_inj). repeat split.
Qed.

Lemma decision_cases cfg degrade score : decision_of cfg degrade score ∈ ["deny"; "review"; "allow"].
Proof. unfold decision_of, decision_from_rule_score. cases_if; set_solver. Qed.

Lemma block_iff_deny d act : d ∈ ["deny"; "review"; "allow"] -> resolve_enforcement_action d act = "block" <-> d = "deny".
Proof.
  intros Hd. unfold resolve_enforcement_action. apply elem_of_cons in Hd as [-> | Hd]; [done|].
  split; [|intros Hx; rewrite Hx in Hd; set_solver].
  apply elem_of_cons in Hd as [-> | ->%list_elem_of_singleton]; cbn; destruct (is_step_up_recommended act); done.
Qed.

(** C1: what an answered evaluation guarantees, end to end, for every behaviour
    of the rules, the services, the candidate and the challenge policies: the
    score is a number between 0 and 100; the decision on record is the one the
    score and the degrade tags determine; the decision answered is the one on
    record, except for an entity on the test bypass list, which is always
    answered [allow]; and the enforced action is [block] exactly when the
    decision answered is a deny. *)
Theorem answer_enforced ev lm cfg i sv st l st' l' a :
  evaluate_core ev lm cfg i sv st l = (st', l', Ok a) ->
  fleb f_zero a.(an_score) = true /\ fleb a.(an_score) (litZ 100) = true
  /\ a.(an_recorded) = decision_of cfg a.(an_degrade) a.(an_score)
  /\ a.(an_decision) = (if test_bypassed i then "allow" else a.(an_recorded))
  /\ (a.(an_enforcement) = "block" <-> a.(an_decision) = "deny").
Proof.
  intros H. apply core_inv in H as (h & esc & sig & deg & depth & routing & canary & [feats a0] & H & Hresp & _).
  apply conclude_inv in H as (cal & merged & _ & Hs & Hd & Hrec & Hr).
  apply respond_inv in Hresp as (-> & -> & -> & Hresp). rewrite Hrec.
  assert (Hb : fleb f_zero a0.(an_score) = true /\ fleb a0.(an_score) (litZ 100) = true).
  { pose proof (fclamp_range (litZ 0) (litZ 100)) as Hc.
    rewrite Hs. unfold final_score_of, blend_scores, clamp100. destruct (hp_ml h); [cases_if|]; by apply Hc. }
  split_and!; [apply Hb|apply Hb|done|by destruct (test_bypassed i); [apply Hresp|subst]|].
  destruct (test_bypassed i).
  - destruct Hresp as (-> & _ & ->). apply block_iff_deny. set_solver.
  - subst a. unfold recommend in Hr. apply rbind_Ok in Hr as (ctx & _ & Hr). apply rbind_Ok in Hr as (base & _ & Hr).
    apply rbind_Ok in Hr as ([act m] & _ & Hr). apply Ok_inj in Hr.
    assert (He : a0.(an_enforcement) = resolve_enforcement_action a0.(an_decision) act) by congruence. rewrite He.
    apply block_iff_deny. rewrite Hd. apply decision_cases.
Qed.

(** The floats of a request are floats of the machine. *)
Definition input64 (i : eval_input) : Prop :=
  floats64 i.(in_features) /\ opt64 i.(in_location) /\ opt64 i.(in_graph).

(** C4: a review always goes to people.  With no challenge policy loaded, an
    answered evaluation that decides on a review recommends [manual_review] and
    enforces [allow], on every platform and at every confidence: the step-up the
    code first chooses for a review of the low tier is never sent. *)
Theorem review_is_manual ev lm cfg i sv st l st' l' a :
  input64 i -> service64 sv -> ec_policies cfg = [] ->
  evaluate_core ev lm cfg i sv st l = (st', l', Ok a) -> a.(an_decision) = "review" ->
  a.(an_recommended) = Some "manual_review" /\ a.(an_enforcement) = "allow".
Proof.
  intros (HF & Hl & Hg) Hs Hp H Hrev. apply core_inv in H as (h & esc & sig & deg & depth & routing & canary & [feats a0] & H & Hresp & HF').
  apply conclude_inv in H as (cal & merged & Hc & _ & _ & _ & Hr). specialize (HF' HF).
  apply respond_inv in Hresp as (_ & _ & _ & Hresp). destruct (test_bypassed i); [destruct Hresp; congruence|]. subst a0.
  pose proof (calibrate_64 _ _ _ _ _ _ _ _ _ _ _ Hs HF' Hc) as Hfeats. rewrite Hp, Hrev in Hr. unfold recommend in Hr.
  apply rbind_Ok in Hr as (ctx & Hctx & Hr). apply rbind_Ok in Hr as (base & Hbase & Hr).
  apply rbind_Ok in Hr as ([act m] & Hact & Hr). apply Ok_inj in Hr.
  assert (Ha : args64 (inference_args_of cfg i h cal)) by (by split).
  rewrite (derive_exact _ _ _ _ _ _ _ _ "review" Hfeats Ha Hctx) in Hbase.
  assert (base = Some "manual_review") as -> by (symmetry; exact (Ok_inj _ _ Hbase)).
  assert (act = Some "manual_review") as -> by (cbn in Hact; congruence).
  split; [congruence|]. assert (He : an_enforcement a = resolve_enforcement_action "review" (Some "manual_review")) by congruence.
  rewrite He. reflexivity.
Qed.

(** * Examples *)

Definition demo_config (challenger : bool) : eval_config :=
  EvalConfig candidate_settings (candidate_file PNone) "max" (Thresholds (litZ 80) (litZ 50)) challenger "salt" "" [] "" "" 1 1 1 3
    [] [].

Definition demo_input (listed : option ListCheckResult) : eval_input :=
  EvalInput "t" "e" None None [] None "web" None [("amount", PInt 700)] [] [] [] false [] f_zero f_zero f_zero [] [] None None None
    [("status", PStr "ok")] false listed.

(** OPA adds [delta]; the scoring service is down. *)
Definition demo_services (delta : Z) : eval_services :=
  EvalServices (fun _ => Returned (PDict [("score_delta", PInt delta)])) (fun _ => TimedOut) (fun _ _ => TimedOut) ["ml:unavailable"] []
    (fun _ => None) None [] false id f_zero.

Definition demo_core (challenger : bool) (delta : Z) : engine * challenge_store * result eval_answer :=
  evaluate_core python_env demo_libm (demo_config challenger) (demo_input None) (demo_services delta) demo_engine ∅.

Lemma canary_leaves_answer_witness :
  exists st1 a st2, demo_core true 30 = (st1, ∅, Ok a) /\ is_Some a.(an_canary)
    /\ evaluate_core python_env demo_libm (canary_off (demo_config true)) (no_header (demo_input None)) (demo_services 30) demo_engine ∅
       = (st2, ∅, Ok (with_canary None a)).
Proof.
  destruct (demo_core true 30) as [[st1 l1] [a|e]] eqn:E; [|vm_compute in E; discriminate E].
  assert (Hl : l1 = ∅) by (vm_compute in E; injection E as _ <- _; reflexivity).
  assert (Hc : is_Some a.(an_canary)) by (vm_compute in E; injection E as _ _ <-; eexists; reflexivity). subst l1.
  destruct (canary_leaves_answer python_env demo_libm (demo_config true) (demo_input None) (demo_services 30) demo_engine ∅ st1 ∅ a)
    as (st2 & H & _); [left; reflexivity|exact E|].
  exists st1, a, st2. split; [reflexivity|]. split; [exact Hc|exact H].
Defined.

Definition under_test : ListCheckResult := ListCheck true (PStr "test_bypass") "evaluate" (PStr "load test") None.

(** An entity under test whose evaluation is a deny: allowed, and recorded as a deny. *)
Lemma answer_enforced_witness :
  exists st1 a, evaluate_core python_env demo_libm (demo_config false) (demo_input (Some under_test)) (demo_services 95) demo_engine ∅
    = (st1, ∅, Ok a) /\ a.(an_recorded) = "deny" /\ a.(an_decision) = "allow" /\ a.(an_enforcement) <> "block".
Proof.
  destruct (evaluate_core python_env demo_libm (demo_config false) (demo_input (Some under_test)) (demo_services 95) demo_engine ∅)
    as [[st1 l1] [a|e]] eqn:E; [|vm_compute in E; discriminate E].
  assert (Hl : l1 = ∅) by (vm_compute in E; injection E as _ <- _; reflexivity).
  assert (Hd : a.(an_recorded) = "deny") by (vm_compute in E; injection E as _ _ <-; reflexivity). subst l1.
  destruct (answer_enforced python_env demo_libm (demo_config false) (demo_input (Some under_test)) (demo_services 95) demo_engine
              ∅ st1 ∅ a E) as (_ & _ & _ & Ha & Hb).
  exists st1, a. split; [reflexivity|]. split; [exact Hd|]. split; [exact Ha|].
  intros Hx. apply Hb in Hx. rewrite Ha in Hx. discriminate Hx.
Defined.

Lemma review_is_manual_witness :
  exists st1 a, demo_core false 30 = (st1, ∅, Ok a) /\ a.(an_decision) = "review"
    /\ a.(an_recommended) = Some "manual_review" /\ a.(an_enforcement) = "allow".
Proof.
  destruct (demo_core false 30) as [[st1 l1] [a|e]] eqn:E; [|vm_compute in E; discriminate E].
  assert (Hl : l1 = ∅) by (vm_compute in E; injection E as _ <- _; reflexivity).
  assert (Hd : a.(an_decision) = "review") by (vm_compute in E; injection E as _ _ <-; reflexivity). subst l1.
  exists st1, a. split; [reflexivity|]. split; [exact Hd|].
  apply (review_is_manual python_env demo_libm (demo_config false) (demo_input None) (demo_services 30) demo_engine ∅ st1 ∅ a);
    [split; [repeat constructor|split; exact I]|intros c n m Hm; discriminate Hm|reflexivity|exact E|exact Hd].
Defined.

(** With the challenger enabled the packs are evaluated twice for one request,
    and every rule that fires is counted twice in the hit telemetry. *)
Example challenger_counts_twice :
  let hits challenger := match demo_core challenger 0 with (st, _, _) => _rule_hit_counts st.(en_tel) end in
  hits true <> hits false /\ hits false <> [].
Proof. vm_compute. split; discriminate. Qed.
