(* ===== verification/Merkle.v ===== *)
(** SHA-256 Merkle trees and inclusion proofs: [tarka/merkle_wire.py] of the
    Python package [crates/tarka-py].

    A [bytes] object is a list of bytes.  [secrets.compare_digest] is equality.
    The prepared error messages are left out. *)

From Stdlib Require Import ZArith Lia ZifyNat Bool String Strings.Byte.
From stdpp Require Import base option list sorting strings gmap.
From S2P Require Import Prelude Sha256.
Local Open Scope Z_scope.

Local Ltac Zify.zify_post_hook ::= Z.to_euclidean_division_equations.

Abbreviation bytes := (list Byte.byte).

#[export] Instance byte_eq_dec : EqDecision Byte.byte := Byte.byte_eq_dec.

Definition Z_of_byte (b : Byte.byte) : Z := Z.of_N (Byte.to_N b).
Definition byte_of_Z (n : Z) : Byte.byte := default x00 (Byte.of_N (Z.to_N n)).

(** A 32-bit word, most significant byte first. *)
Definition word_bytes (w : Z) : bytes := map (fun k => byte_of_Z (Z.land (Z.shiftr w k) 255)) [24; 16; 8; 0].

(** [hashlib.sha256(data).digest()]. *)
Definition digest (data : bytes) : bytes :=
  let h := sha256_bytes (map Z_of_byte data) in
  word_bytes (ha h) ++ word_bytes (hb h) ++ word_bytes (hc h) ++ word_bytes (hd h)
  ++ word_bytes (he h) ++ word_bytes (hf h) ++ word_bytes (hg h) ++ word_bytes (hh h).

Definition len (b : bytes) : Z := Z.of_nat (length b).

Definition _HASH_SIZE : Z := 32.

(** * Shapes *)

(** [int.bit_length()] of a positive integer. *)
Definition bit_length (n : Z) : Z := Z.log2 n + 1.

Definition _u64_leading_zeros (n : Z) : Z := if n =? 0 then 64 else 64 - bit_length n.

Definition tree_depth (leaves_count : Z) : Z := if leaves_count =? 0 then 0 else 8 * 8 - _u64_leading_zeros leaves_count.

Definition div_ceil (x y : Z) : Z := x / y + (if x mod y =? 0 then 0 else 1).

Fixpoint uneven_from (n : nat) (index leaves_count : Z) (out : gmap Z Z) : gmap Z Z :=
  match n with
  | O => out
  | S n' => uneven_from n' (index + 1) (div_ceil leaves_count 2)
              (if leaves_count mod 2 =? 0 then out else <[index := leaves_count]> out)
  end.

Definition uneven_layers (tree_leaves_count : Z) : gmap Z Z :=
  uneven_from (Z.to_nat (tree_depth tree_leaves_count)) 0 tree_leaves_count ∅.

Definition is_left_index (index : Z) : bool := index mod 2 =? 0.

Definition get_sibling_index (index : Z) : Z := if is_left_index index then index + 1 else index - 1.

Definition sibling_indices (indices : list Z) : list Z := map get_sibling_index indices.

Definition parent_index (index : Z) : Z := if is_left_index index then index / 2 else get_sibling_index index / 2.

(** Appends unless equal to the last element so far. *)
Definition push_new (out : list Z) (p : Z) : list Z :=
  match last out with
  | None => out ++ [p]
  | Some q => if q =? p then out else out ++ [p]
  end.

Definition parent_indices (indices : list Z) : list Z := foldl push_new [] (map parent_index indices).

Definition _difference_preserve_order (a b : list Z) : list Z :=
  List.filter (fun x => negb (existsb (Z.eqb x) b)) a.

(** The siblings of a layer: the last node of an uneven layer has none. *)
Definition layer_siblings (uneven : gmap Z Z) (layer_index : Z) (layer_nodes : list Z) : list Z :=
  let sibs := sibling_indices layer_nodes in
  match uneven !! layer_index, last layer_nodes with
  | Some leaves_count_uneven, Some l =>
      if l =? leaves_count_uneven - 1 then take (length sibs - 1) sibs else sibs
  | _, _ => sibs
  end.

Fixpoint proof_layers_from (n : nat) (layer_index : Z) (uneven : gmap Z Z) (layer_nodes : list Z) : list (list Z) :=
  match n with
  | O => []
  | S n' =>
      _difference_preserve_order (layer_siblings uneven layer_index layer_nodes) layer_nodes
      :: proof_layers_from n' (layer_index + 1) uneven (parent_indices layer_nodes)
  end.

Definition proof_indices_by_layers (sorted_leaf_indices : list Z) (leaves_count : Z) : list (list Z) :=
  proof_layers_from (Z.to_nat (tree_depth leaves_count)) 0 (uneven_layers leaves_count) sorted_leaf_indices.

(** * Building *)

Definition concat_and_hash (lft : bytes) (rgt : option bytes) : result bytes :=
  match rgt with
  | None => Ok lft
  | Some r => if negb (len lft =? 32) || negb (len r =? 32) then Err ValueError else Ok (digest (lft ++ r))
  end.

Abbreviation node := (Z * bytes)%type.

(** The loop over the parents of a layer; [nodes[i * 2]] may be out of range. *)
Fixpoint join_parents (i : nat) (parents : list Z) (nodes : list bytes) : result (list node) :=
  match parents with
  | [] => Ok []
  | parent_node_index :: parents' =>
      match nodes !! (i * 2)%nat with
      | None => Err IndexError
      | Some lft =>
          let! h := concat_and_hash lft (nodes !! (i * 2 + 1)%nat) in
          let! rest := join_parents (S i) parents' nodes in
          Ok ((parent_node_index, h) :: rest)
      end
  end.

Fixpoint build_layers (n : nat) (layers : list (list node)) (current_layer : list node) : result (list (list node)) :=
  match n with
  | O => Ok [current_layer]
  | S n' =>
      let current_layer := sort_by fst (current_layer ++ default [] (head layers)) in
      let! next := join_parents 0 (parent_indices (map fst current_layer)) (map snd current_layer) in
      let! rest := build_layers n' (tail layers) next in
      Ok (current_layer :: rest)
  end.

Definition _build_tree_inner (partial_layers : list (list node)) (full_tree_depth : Z) : result (list (list node)) :=
  build_layers (Z.to_nat full_tree_depth) partial_layers [].

(** [layers[-1]], which must be one node. *)
Definition single_root (layers : list (list node)) : result bytes :=
  match last layers with
  | Some [(_, h)] => Ok h
  | Some _ => Err (OtherError "RuntimeError")
  | None => Err IndexError
  end.

(** Slices of 32 bytes; as many rounds as bytes are enough. *)
Fixpoint chunks (fuel : nat) (b : bytes) : list bytes :=
  match fuel, b with
  | S fuel', _ :: _ => take 32 b :: chunks fuel' (drop 32 b)
  | _, _ => []
  end.

Definition parse_proof (proof_bytes : bytes) : result (list bytes) :=
  if negb (len proof_bytes mod _HASH_SIZE =? 0) then Err ValueError else Ok (chunks (length proof_bytes) proof_bytes).

(** One layer of helper hashes per list of indices; the hashes left over are not looked at. *)
Fixpoint deal_hashes (bins : list (list Z)) (hashes : list bytes) : result (list (list node)) :=
  match bins with
  | [] => Ok []
  | bin :: bins' =>
      if (length hashes <? length bin)%nat then Err ValueError else
      let! rest := deal_hashes bins' (drop (length bin) hashes) in
      Ok (zip bin (take (length bin) hashes) :: rest)
  end.

Definition with_leaves (leaf_tuples : list node) (proof_layers : list (list node)) : list (list node) :=
  match proof_layers with
  | first :: rest => sort_by fst (first ++ leaf_tuples) :: rest
  | [] => [leaf_tuples]
  end.

Definition merkle_proof_root (proof_bytes : bytes) (leaf_indices : list Z) (leaf_hashes : list bytes) (total_leaves_count : Z)
    : result bytes :=
  if negb (length leaf_indices =? length leaf_hashes)%nat then Err ValueError else
  let! proof_hashes := parse_proof proof_bytes in
  if existsb (fun lh => negb (len lh =? _HASH_SIZE)) leaf_hashes then Err ValueError else
  let leaf_tuples := sort_by fst (zip leaf_indices leaf_hashes) in
  let bins := proof_indices_by_layers (map fst leaf_tuples) total_leaves_count in
  let! proof_layers := deal_hashes bins proof_hashes in
  let! layers := _build_tree_inner (with_leaves leaf_tuples proof_layers) (tree_depth total_leaves_count) in
  single_root layers.

Definition is_value_or_runtime_error (e : pyexn) : bool :=
  match e with ValueError => true | OtherError name => bool_decide (name = "RuntimeError") | _ => false end.

Definition proof_verify (expected_merkle_root leaf_hash proof_bytes : bytes) (leaf_index total_leaves : Z) : result bool :=
  if negb (len expected_merkle_root =? _HASH_SIZE) then Ok false
  else if negb (len leaf_hash =? _HASH_SIZE) then Ok false
  else if (leaf_index <? 0) || (total_leaves <? 0) then Ok false
  else if total_leaves =? 0 then Ok false
  else if total_leaves <=? leaf_index then Ok false
  else match merkle_proof_root proof_bytes [leaf_index] [leaf_hash] total_leaves with
       | Ok got => Ok (bool_decide (got = expected_merkle_root))
       | Err e => if is_value_or_runtime_error e then Ok false else Err e
       end.

Definition enumerate (leaves : list bytes) : list node := imap (fun i h => (Z.of_nat i, h)) leaves.

Definition merkle_root_rs_sha256 (leaves : list bytes) : result bytes :=
  match leaves with
  | [] => Err ValueError
  | _ =>
      if existsb (fun lf => negb (len lf =? 32)) leaves then Err ValueError else
      let! layers := _build_tree_inner [enumerate leaves] (tree_depth (Z.of_nat (length leaves))) in
      single_root layers
  end.

(** * The tree *)

(** The tree over a list of leaves whose left subtrees have the largest power of
    two below their number of leaves: the shape of the trees of RFC 6962, but
    leaves are taken as they are and nodes are hashed without the RFC's prefix
    bytes, so the roots differ from the RFC's.  Every input of its hashes
    satisfies [P]. *)
Inductive mtree (P : bytes -> Prop) : list bytes -> bytes -> Prop :=
| mt_leaf x : mtree P [x] x
| mt_node j l r a b :
    length l = (2 ^ j)%nat -> (0 < length r <= 2 ^ j)%nat -> mtree P l a -> mtree P r b -> P (a ++ b) ->
    mtree P (l ++ r) (digest (a ++ b)).

Definition power_split : list bytes -> bytes -> Prop := mtree (fun _ => True).

(** The next layer: pairs are hashed, a node alone is carried up. *)
Fixpoint pair_up (l : list bytes) : list bytes :=
  match l with
  | a :: b :: l' => digest (a ++ b) :: pair_up l'
  | _ => l
  end.

(** The inputs hashed from one layer to the next. *)
Fixpoint pair_inputs (l : list bytes) : list bytes :=
  match l with
  | a :: b :: l' => (a ++ b) :: pair_inputs l'
  | _ => []
  end.

Definition hashes32 (l : list bytes) : Prop := Forall (fun h => length h = 32%nat) l.

Lemma digest_32 b : length (digest b) = 32%nat.
Proof. reflexivity. Qed.

Local Opaque digest.

(** Induction on a list two elements at a time. *)
Lemma list_pairs_ind {A : Type} (P : list A -> Prop) :
  P [] -> (forall a, P [a]) -> (forall a b l, P l -> P (a :: b :: l)) -> forall l, P l.
Proof.
  intros H0 H1 H2 l. enough (P l /\ forall a, P (a :: l)) by tauto.
  induction l as [|x l [IH1 IH2]]; split; auto.
Qed.

Lemma pair_up_length l : length (pair_up l) = ((length l + 1) / 2)%nat.
Proof.
  induction l as [| |a b l IH] using list_pairs_ind; [done..|]. cbn [pair_up length]. rewrite IH. lia.
Qed.

Lemma pair_up_32 l : hashes32 l -> hashes32 (pair_up l).
Proof.
  induction l as [| |a b l IH] using list_pairs_ind; intros H; [done..|]. cbn [pair_up].
  apply Forall_cons in H as [_ H]. apply Forall_cons in H as [_ H]. constructor; [apply digest_32|by apply IH].
Qed.

Lemma pair_up_app l r : Nat.Even (length l) -> pair_up (l ++ r) = pair_up l ++ pair_up r.
Proof.
  induction l as [|a|a b l IH] using list_pairs_ind; intros [k H]; [done|cbn in H; lia|]. cbn [app pair_up]. f_equal. apply IH.
  exists (k - 1)%nat. cbn in H. lia.
Qed.

Lemma pair_up_lookup l i : (i < length l)%nat ->
  pair_up l !! (i / 2)%nat =
  match l !! (2 * (i / 2))%nat, l !! (2 * (i / 2) + 1)%nat with
  | Some a, Some b => Some (digest (a ++ b))
  | o, _ => o
  end.
Proof.
  revert i. induction l as [|a|a b l IH] using list_pairs_ind; intros i Hi; [cbn in Hi; lia| |].
  - replace i with 0%nat by (cbn in Hi; lia). done.
  - destruct i as [|[|i]]; [done..|]. cbn in Hi.
    replace (S (S i) / 2)%nat with (S (i / 2)) by lia.
    replace (2 * S (i / 2))%nat with (S (S (2 * (i / 2)))) by lia. cbn [pair_up lookup list_lookup Nat.add].
    exact (IH i ltac:(lia)).
Qed.

(** A layer and the layer below have the same tree. *)
Lemma pair_inputs_app l r : Nat.Even (length l) -> pair_inputs (l ++ r) = pair_inputs l ++ pair_inputs r.
Proof.
  induction l as [|a|a b l IH] using list_pairs_ind; intros [k H]; [done|cbn in H; lia|]. cbn [app pair_inputs]. f_equal. apply IH.
  exists (k - 1)%nat. cbn in H. lia.
Qed.

Lemma mtree_pair_up (P : bytes -> Prop) l r : Forall P (pair_inputs l) -> mtree P (pair_up l) r -> mtree P l r.
Proof.
  remember (pair_up l) as m eqn:E. intros HP H. revert l E HP.
  induction H as [x|j ml mr a b Hl Hr _ IHl _ IHr Hab]; intros l E HP.
  - destruct l as [|a [|b l]]; [done|injection E as <-; constructor|].
    destruct l as [|c [|d l]]; [|done..].
    rewrite (f_equal (fun l => default [] (head l)) E : x = digest (a ++ b)). apply (mt_node P 0 [a] [b]); cbn; [lia..|constructor|constructor|by apply Forall_inv in HP].
  - pose proof (pair_up_length l) as Hlen. rewrite <- E, length_app in Hlen.
    assert (Hk : length (take (2 ^ S j) l) = (2 ^ S j)%nat).
    { rewrite length_take. cbn [Nat.pow]. lia. }
    rewrite <- (take_drop (2 ^ S j) l) in E, HP |- *. rewrite pair_up_app in E by (rewrite Hk; exists (2 ^ j)%nat; done).
    rewrite pair_inputs_app in HP by (rewrite Hk; exists (2 ^ j)%nat; done). apply Forall_app in HP as [HP1 HP2].
    assert (Hp : length (pair_up (take (2 ^ S j) l)) = (2 ^ j)%nat).
    { rewrite pair_up_length, Hk. cbn [Nat.pow]. lia. }
    apply app_inj_1 in E as [-> ->]; [|lia]. apply (mt_node P (S j)); [done| |by apply IHl|by apply IHr|done].
    rewrite pair_up_length in Hr. set (d := drop (2 ^ S j) l) in *. rewrite Nat.pow_succ_r'. lia.
Qed.

(** The layer [n] above. *)
Fixpoint layer (n : nat) (l : list bytes) : list bytes :=
  match n with O => l | S n' => layer n' (pair_up l) end.

(** The inputs hashed in the layers below. *)
Fixpoint tree_inputs (n : nat) (l : list bytes) : list bytes :=
  match n with O => [] | S n' => pair_inputs l ++ tree_inputs n' (pair_up l) end.

Lemma layer_tree (P : bytes -> Prop) n l r : layer n l = [r] -> Forall P (tree_inputs n l) -> mtree P l r.
Proof.
  revert l. induction n as [|n IH]; intros l H HP; cbn in H, HP; [subst; constructor|]. apply Forall_app in HP as [HP1 HP2].
  apply mtree_pair_up; [done|]. by apply IH.
Qed.

Lemma layer_rfc n l r : layer n l = [r] -> power_split l r.
Proof. intros H. apply (layer_tree _ n); [done|]. apply Forall_true. done. Qed.

(** As many layers as the number of leaves has bits end in one node. *)
Lemma layer_single n l : (0 < length l <= 2 ^ n)%nat -> exists r, layer n l = [r].
Proof.
  revert l. induction n as [|n IH]; intros l Hl.
  - destruct l as [|a [|b l]]; cbn in Hl; [lia|by exists a|lia].
  - cbn [layer]. apply IH. rewrite pair_up_length. rewrite Nat.pow_succ_r' in Hl. lia.
Qed.

Lemma depth_enough n : (0 < n)%nat -> (n <= 2 ^ Z.to_nat (tree_depth (Z.of_nat n)))%nat.
Proof.
  intros Hn. unfold tree_depth, _u64_leading_zeros, bit_length. destruct (Z.of_nat n =? 0) eqn:E; [lia|].
  pose proof (Z.log2_spec (Z.of_nat n) ltac:(lia)) as [_ H]. pose proof (Z.log2_nonneg (Z.of_nat n)).
  replace (8 * 8 - (64 - (Z.log2 (Z.of_nat n) + 1))) with (Z.succ (Z.log2 (Z.of_nat n))) by lia.
  apply Nat2Z.inj_le. rewrite Nat2Z.inj_pow, Z2Nat.id by lia. lia.
Qed.

(** ** Layers of the whole tree *)

Lemma sort_by_id {A : Type} (key : A -> Z) l : ascending key l -> sort_by key l = l.
Proof.
  unfold ascending, sort_by. induction 1 as [|x l _ IH Hx]; [done|]. cbn [foldr]. rewrite IH.
  destruct Hx as [|y l Hy _]; [done|]. cbn [insert_by]. by rewrite (proj2 (Z.leb_le _ _) Hy).
Qed.

(** [enumerate] from an index on. *)
Definition indexed (k : Z) (l : list bytes) : list node := imap (fun i h => (k + Z.of_nat i, h)) l.

Lemma indexed_cons k h l : indexed k (h :: l) = (k, h) :: indexed (k + 1) l.
Proof. unfold indexed. cbn [imap]. f_equal; [f_equal; lia|]. apply imap_ext. intros. cbn. f_equal. lia. Qed.

Lemma indexed_ascending k l : ascending fst (indexed k l).
Proof.
  revert k. induction l as [|h l IH]; intros k; [constructor|]. rewrite indexed_cons. constructor; [apply IH|].
  apply Forall_forall. intros [i x] H. unfold indexed in H. apply elem_of_lookup_imap in H as (j & y & [= -> _] & _). cbn. lia.
Qed.

Lemma push_new_app out ps : out <> [] -> forall pre, foldl push_new (pre ++ out) ps = pre ++ foldl push_new out ps.
Proof.
  revert out. induction ps as [|p ps IH]; intros out Hout pre; [done|]. cbn [foldl].
  assert (H : push_new (pre ++ out) p = pre ++ push_new out p /\ push_new out p <> []).
  { unfold push_new. destruct out as [|o out] using rev_ind; [done|]. clear IHout. rewrite app_assoc, !last_snoc.
    destruct (o =? p); [by rewrite app_assoc|]. rewrite <- !app_assoc. split; [done|]. by destruct out. }
  destruct H as [-> H]. by apply IH.
Qed.

Lemma push_new_fresh k ps : head ps <> Some k -> foldl push_new [k] ps = k :: foldl push_new [] ps.
Proof.
  destruct ps as [|p ps]; [done|]. intros H. cbn [foldl]. assert (p <> k) by (intros ->; by apply H).
  unfold push_new at 2 4. cbn. rewrite (proj2 (Z.eqb_neq _ _)) by done. exact (push_new_app [p] ps ltac:(done) [k]).
Qed.

Lemma parent_half i : parent_index i = i / 2.
Proof. unfold parent_index, get_sibling_index, is_left_index. destruct (i mod 2 =? 0) eqn:E; [done|]. lia. Qed.

(** Parents of consecutive indices that start at an even one. *)
Lemma parents_indexed k l : parent_indices (map fst (indexed (2 * k) l)) = map fst (indexed k (pair_up l)).
Proof.
  revert k. induction l as [|a|a b l IH] using list_pairs_ind; intros k; [done| |].
  - cbn [pair_up]. rewrite !indexed_cons. unfold parent_indices. cbn. rewrite parent_half. f_equal. lia.
  - cbn [pair_up]. rewrite !indexed_cons. cbn [map fst]. unfold parent_indices. cbn [map foldl]. rewrite !parent_half.
    replace (2 * k / 2) with k by lia. replace ((2 * k + 1) / 2) with k by lia. replace (2 * k + 1 + 1) with (2 * (k + 1)) by lia.
    unfold push_new at 2 3. cbn [last app]. rewrite Z.eqb_refl, push_new_fresh.
    + f_equal. apply (IH (k + 1)).
    + destruct l as [|c l]; [done|]. rewrite indexed_cons. cbn. rewrite parent_half. intros [= H]. lia.
Qed.

Lemma join_shift a b ps l i : join_parents (S i) ps (a :: b :: l) = join_parents i ps l.
Proof. revert i. induction ps as [|p ps IH]; intros i; [done|]. cbn [join_parents Nat.mul Nat.add lookup list_lookup]. by rewrite IH. Qed.

Lemma join_indexed k l : hashes32 l -> join_parents 0 (map fst (indexed k (pair_up l))) l = Ok (indexed k (pair_up l)).
Proof.
  revert k. induction l as [|a|a b l IH] using list_pairs_ind; intros k H; [done| |].
  - cbn [pair_up]. rewrite indexed_cons. done.
  - apply Forall_cons in H as [Ha H]. apply Forall_cons in H as [Hb H]. cbn [pair_up]. rewrite indexed_cons. cbn [map fst join_parents lookup list_lookup Nat.mul Nat.add].
    unfold concat_and_hash, len. rewrite Ha, Hb. cbn [rbind]. change (Z.of_nat 32 =? 32) with true. cbn [negb orb rbind].
    rewrite join_shift, IH by done. done.
Qed.

Lemma indexed_snd k l : map snd (indexed k l) = l.
Proof. revert k. induction l as [|h l IH]; intros k; [done|]. rewrite indexed_cons. cbn. by rewrite IH. Qed.

Lemma build_whole n l : hashes32 l -> exists t, build_layers n [] (indexed 0 l) = Ok t /\ last t = Some (indexed 0 (layer n l)).
Proof.
  revert l. induction n as [|n IH]; intros l H; [by eexists|]. cbn [build_layers head layer tail default]. rewrite app_nil_r.
  rewrite sort_by_id by apply indexed_ascending. rewrite (parents_indexed 0), indexed_snd, join_indexed by done. cbn [rbind].
  destruct (IH (pair_up l) (pair_up_32 l H)) as (t & -> & Ht). eexists. split; [reflexivity|]. destruct t; [done|]. exact Ht.
Qed.

Lemma sizes_ok l : hashes32 l -> existsb (fun lf => negb (len lf =? 32)) l = false.
Proof. induction 1 as [|h l H _ IH]; [done|]. cbn [existsb]. rewrite IH. unfold len. by rewrite H. Qed.

Lemma sizes_bad l : ~ hashes32 l -> existsb (fun lf => negb (len lf =? 32)) l = true.
Proof.
  induction l as [|h l IH]; intros H; [by destruct H; constructor|]. cbn [existsb]. unfold len at 1.
  destruct (Z.of_nat (length h) =? 32) eqn:E; [|done]. apply IH. intros Hl. apply H. constructor; [lia|done].
Qed.

#[export] Instance hashes32_dec l : Decision (hashes32 l) := _.

Lemma depth_pos n : 0 < n -> exists d, Z.to_nat (tree_depth n) = S d.
Proof.
  intros Hn. unfold tree_depth, _u64_leading_zeros, bit_length. rewrite (proj2 (Z.eqb_neq n 0)) by lia.
  pose proof (Z.log2_nonneg n). exists (Z.to_nat (Z.log2 n)). lia.
Qed.

(** The root of a list of digests is that of the top layer. *)
Lemma root_is_top l : l <> [] -> hashes32 l ->
  exists r, layer (Z.to_nat (tree_depth (Z.of_nat (length l)))) l = [r] /\ merkle_root_rs_sha256 l = Ok r.
Proof.
  intros Hne H. assert (Hlen : (0 < length l)%nat) by (destruct l; cbn; [done|lia]).
  destruct (layer_single _ l (conj Hlen (depth_enough _ Hlen))) as [r Hr]. exists r. split; [done|].
  assert (Hm : merkle_root_rs_sha256 l = rbind (build_layers (Z.to_nat (tree_depth (Z.of_nat (length l)))) [enumerate l] []) single_root).
  { unfold merkle_root_rs_sha256. rewrite sizes_ok by done. by destruct l. }
  rewrite Hm. destruct (depth_pos (Z.of_nat (length l)) ltac:(lia)) as [d Hd]. rewrite Hd in Hr |- *.
  destruct (build_whole (S d) l H) as (t & Ht & Hlast). rewrite Hr in Hlast.
  assert (Hb : build_layers (S d) [enumerate l] [] = build_layers (S d) [] (indexed 0 l)).
  { cbn [build_layers head tail default app]. by rewrite app_nil_r. }
  rewrite Hb, Ht. cbn [rbind]. unfold single_root. by rewrite Hlast.
Qed.

Lemma mtree_nonempty P l r : mtree P l r -> l <> [].
Proof. induction 1; [done|]. by destruct l. Qed.

(** The split of a list of leaves is determined by its length. *)
Lemma split_unique j k l1 r1 l2 r2 :
  length l1 = (2 ^ j)%nat -> (0 < length r1 <= 2 ^ j)%nat -> length l2 = (2 ^ k)%nat -> (0 < length r2 <= 2 ^ k)%nat ->
  @app bytes l1 r1 = l2 ++ r2 -> l1 = l2 /\ r1 = r2.
Proof.
  intros H1 H2 H3 H4 E. apply app_inj_1; [|done]. rewrite H1, H3. apply (f_equal length) in E. rewrite !length_app in E.
  destruct (Nat.lt_trichotomy j k) as [Hlt|[->|Hlt]]; [exfalso|done|exfalso].
  all: apply Nat.le_succ_l, (Nat.pow_le_mono_r 2) in Hlt; [|lia]; rewrite Nat.pow_succ_r' in Hlt; lia.
Qed.

Lemma mtree_functional P l r r' : mtree P l r -> mtree P l r' -> r = r'.
Proof.
  intros H. revert r'. induction H as [x|j l r a b Hl Hr _ IHl _ IHr _]; intros r' H'.
  - inversion H' as [|j l r a b Hl Hr HL HR _ E]; [done|]. exfalso. apply (f_equal length) in E. rewrite length_app in E. cbn in E.
    pose proof (Nat.pow_nonzero 2 j). lia.
  - inversion H' as [x E|k l2 r2 a2 b2 Hl2 Hr2 HL HR _ E].
    + exfalso. apply (f_equal length) in E. rewrite length_app in E. cbn in E. pose proof (Nat.pow_nonzero 2 j). lia.
    + destruct (split_unique j k l r l2 r2) as [-> ->]; [done..|]. f_equal. f_equal; auto.
Qed.

(** C32: the root that the package computes layer by layer, with the last node
    of an uneven layer carried up, is that of the tree over the leaves whose left
    subtrees have the largest power of two below their number of leaves (the shape
    of RFC 6962, without its prefix bytes); a root exists exactly for a non-empty
    list of 32-byte leaves. *)
Theorem root_power_split leaves root :
  merkle_root_rs_sha256 leaves = Ok root <-> hashes32 leaves /\ power_split leaves root.
Proof.
  split.
  - intros H. destruct (decide (leaves = [])) as [->|Hne]; [done|]. destruct (decide (hashes32 leaves)) as [H32|Hno].
    + destruct (root_is_top leaves Hne H32) as (r & Hr & H'). split; [done|]. rewrite H in H'. apply Ok_inj in H' as ->.
      exact (layer_rfc _ _ _ Hr).
    + exfalso. unfold merkle_root_rs_sha256 in H. rewrite sizes_bad in H by done. by destruct leaves.
  - intros [H32 Ht]. destruct (root_is_top leaves (mtree_nonempty _ _ _ Ht) H32) as (r & Hr & ->).
    by rewrite (mtree_functional _ _ _ _ Ht (layer_rfc _ _ _ Hr)).
Qed.

(** * Inclusion proofs of one leaf *)

(** The last node of an uneven layer. *)
Definition alone (c i : Z) : bool := negb (c mod 2 =? 0) && (i =? c - 1).

(** The value carried from node [i] of a layer of [c] nodes up [n] layers. *)
Fixpoint path_root (n : nat) (c i : Z) (v : bytes) (hashes : list bytes) : option bytes :=
  match n with
  | O => Some v
  | S n' =>
      if alone c i then path_root n' (div_ceil c 2) (i / 2) v hashes
      else match hashes with
           | [] => None
           | s :: rest => path_root n' (div_ceil c 2) (i / 2) (digest (if is_left_index i then v ++ s else s ++ v)) rest
           end
  end.

Fixpoint path_bins (n : nat) (c i : Z) : list (list Z) :=
  match n with
  | O => []
  | S n' => (if alone c i then [] else [get_sibling_index i]) :: path_bins n' (div_ceil c 2) (i / 2)
  end.

Lemma uneven_below n idx c out j : j < idx -> uneven_from n idx c out !! j = out !! j.
Proof.
  revert idx c out. induction n as [|n IH]; intros idx c out Hj; [done|]. cbn [uneven_from]. rewrite IH by lia.
  destruct (c mod 2 =? 0); [done|]. by rewrite lookup_insert_ne by lia.
Qed.

Lemma bins_single n idx c i out : (forall j, idx <= j -> out !! j = None) ->
  proof_layers_from n idx (uneven_from n idx c out) [i] = path_bins n c i.
Proof.
  revert idx c i out. induction n as [|n IH]; intros idx c i out Hout; [done|]. cbn [proof_layers_from uneven_from path_bins].
  f_equal.
  - unfold layer_siblings. rewrite uneven_below by lia. cbn [last sibling_indices map]. unfold alone.
    assert (Hd : _difference_preserve_order [get_sibling_index i] [i] = [get_sibling_index i]).
    { unfold _difference_preserve_order. cbn. rewrite (proj2 (Z.eqb_neq _ _)); [done|]. unfold get_sibling_index. destruct (is_left_index i); lia. }
    destruct (c mod 2 =? 0); cbn [negb andb]; [by rewrite Hout by lia|].
    rewrite lookup_insert_eq. destruct (i =? c - 1); [done|exact Hd].
  - unfold parent_indices. cbn [map foldl]. unfold push_new. cbn [last app]. rewrite parent_half. apply IH.
    intros j Hj. destruct (c mod 2 =? 0); [apply Hout; lia|]. rewrite lookup_insert_ne by lia. apply Hout. lia.
Qed.

(** A node and its sibling, in either order, join in their parent. *)
Lemma join_pair i v s : length v = 32%nat -> length s = 32%nat ->
  let pair := if is_left_index i then [(i, v); (get_sibling_index i, s)] else [(get_sibling_index i, s); (i, v)] in
  sort_by fst [(i, v); (get_sibling_index i, s)] = pair /\ sort_by fst [(get_sibling_index i, s); (i, v)] = pair
  /\ join_parents 0 (parent_indices (map fst pair)) (map snd pair)
     = Ok [(i / 2, digest (if is_left_index i then v ++ s else s ++ v))].
Proof.
  intros Hv Hs. unfold get_sibling_index, parent_indices, sort_by. destruct (is_left_index i) eqn:El; unfold is_left_index in El; cbn -[Z.leb Z.div].
  - rewrite (proj2 (Z.leb_le i (i + 1))), (proj2 (Z.leb_gt (i + 1) i)) by lia. do 2 (split; [done|]).
    rewrite !parent_half. replace ((i + 1) / 2) with (i / 2) by lia. unfold push_new. cbn [last app]. rewrite Z.eqb_refl.
    cbn. unfold concat_and_hash, len. by rewrite Hv, Hs.
  - rewrite (proj2 (Z.leb_le (i - 1) i)), (proj2 (Z.leb_gt i (i - 1))) by lia. do 2 (split; [done|]).
    rewrite !parent_half. replace ((i - 1) / 2) with (i / 2) by lia. unfold push_new. cbn [last app]. rewrite Z.eqb_refl.
    cbn. unfold concat_and_hash, len. by rewrite Hv, Hs.
Qed.

Lemma join_alone i v : join_parents 0 (parent_indices [i]) [v] = Ok [(i / 2, v)].
Proof. unfold parent_indices. cbn [map foldl]. unfold push_new. cbn [last app]. by rewrite parent_half. Qed.

Lemma path_build n c i v hs : length v = 32%nat -> hashes32 hs ->
  match deal_hashes (path_bins n c i) hs with
  | Err e => e = ValueError /\ path_root n c i v hs = None
  | Ok layers => exists t k r, build_layers n layers [(i, v)] = Ok t /\ last t = Some [(k, r)] /\ path_root n c i v hs = Some r
  end.
Proof.
  revert c i v hs. induction n as [|n IH]; intros c i v hs Hv Hs; [cbn; by do 3 eexists|].
  cbn [path_bins path_root deal_hashes]. destruct (alone c i).
  - change (drop (length []) hs) with hs. change (length hs <? length [])%nat with false. cbn iota.
    specialize (IH (div_ceil c 2) (i / 2) v hs Hv Hs). destruct (deal_hashes _ hs) as [layers|e]; [|exact IH].
    destruct IH as (t & k & r & Hb & Hl & Hp). cbn [rbind build_layers head tail default zip_with app]. change (sort_by fst _) with [(i, v)]. cbn [map fst snd].
    rewrite join_alone. cbn [rbind]. rewrite Hb. cbn [rbind]. do 3 eexists. split; [reflexivity|]. split; [|exact Hp]. destruct t; [done|exact Hl].
  - destruct hs as [|s hs]; [done|]. apply Forall_cons in Hs as [Hss Hs]. change (length (s :: hs) <? length [get_sibling_index i])%nat with false.
    cbn iota. change (drop (length [get_sibling_index i]) (s :: hs)) with hs. change (take (length [get_sibling_index i]) (s :: hs)) with [s].
    specialize (IH (div_ceil c 2) (i / 2) _ hs (digest_32 (if is_left_index i then v ++ s else s ++ v)) Hs).
    destruct (deal_hashes _ hs) as [layers|e]; [|exact IH]. destruct IH as (t & k & r & Hb & Hl & Hp).
    cbn [rbind build_layers head tail default zip_with app zip]. destruct (join_pair i v s Hv Hss) as (H1 & _ & H3).
    change (sort_by fst _) with (sort_by fst [(i, v); (get_sibling_index i, s)]). rewrite H1, H3. cbn [rbind]. rewrite Hb. cbn [rbind]. do 3 eexists. split; [reflexivity|]. split; [|exact Hp]. destruct t; [done|exact Hl].
Qed.

Lemma sort_by_idem {A : Type} (key : A -> Z) l : sort_by key (sort_by key l) = sort_by key l.
Proof. apply sort_by_id. auto with tarka. Qed.

Lemma build_step_eq n ls ls' cur cur' :
  sort_by fst (cur ++ default [] (head ls)) = sort_by fst (cur' ++ default [] (head ls')) -> tail ls = tail ls' ->
  build_layers (S n) ls cur = build_layers (S n) ls' cur'.
Proof. intros H1 H2. cbn [build_layers]. by rewrite H1, H2. Qed.

(** Sorting the leaf into the first layer beforehand makes no difference. *)
Lemma leaf_merged n c i v hs layers : length v = 32%nat -> hashes32 hs -> deal_hashes (path_bins (S n) c i) hs = Ok layers ->
  build_layers (S n) (with_leaves [(i, v)] layers) [] = build_layers (S n) layers [(i, v)].
Proof.
  intros Hv Hs. cbn [path_bins deal_hashes]. destruct (alone c i).
  - change (length hs <? length [])%nat with false. cbn iota. destruct (deal_hashes _ _) as [rest|]; [|done]. by intros [= <-].
  - destruct hs as [|s hs]; [done|]. apply Forall_cons in Hs as [Hss _]. change (length (s :: hs) <? length [get_sibling_index i])%nat with false.
    cbn iota. destruct (deal_hashes _ _) as [rest|]; [|done]. intros [= <-]. change (take (length [get_sibling_index i]) (s :: hs)) with [s].
    destruct (join_pair i v s Hv Hss) as (H1 & H2 & _). set (sib := get_sibling_index i) in *.
    assert (E : sort_by fst (sort_by fst [(sib, s); (i, v)]) = sort_by fst [(i, v); (sib, s)]) by (rewrite sort_by_idem; by rewrite H1, H2).
    by apply build_step_eq.
Qed.

Lemma chunks_32 fuel b : (length b <= fuel)%nat -> (length b mod 32 = 0)%nat -> hashes32 (chunks fuel b).
Proof.
  revert b. induction fuel as [|fuel IH]; intros b Hf Hm; [by destruct b; constructor|]. destruct b as [|x b]; [constructor|].
  cbn [chunks]. set (l := x :: b) in *. assert (length l = S (length b)) by done. assert (32 <= length l)%nat by lia. constructor.
  - rewrite length_take. lia.
  - apply IH; rewrite length_drop; lia.
Qed.

Lemma chunks_concat hs fuel : hashes32 hs -> (length (concat hs) <= fuel)%nat -> chunks fuel (concat hs) = hs.
Proof.
  intros H. revert fuel. induction H as [|h hs Hh _ IH]; intros fuel Hf; [by destruct fuel|].
  cbn [concat] in *. rewrite length_app in Hf. destruct fuel as [|fuel]; [lia|]. destruct h as [|x h]; [done|].
  change ((x :: h) ++ concat hs) with (x :: h ++ concat hs). cbn [chunks]. change (x :: h ++ concat hs) with ((x :: h) ++ concat hs).
  rewrite <- Hh, take_app_length, drop_app_length, IH by lia. done.
Qed.

(** [proof_verify] decides whether the value carried up from the leaf is the root. *)
Lemma verify_spec root v proof i n : 0 <= i < n -> length root = 32%nat -> length v = 32%nat ->
  proof_verify root v proof i n =
  Ok (bool_decide (length proof mod 32 = 0)%nat
      && bool_decide (path_root (Z.to_nat (tree_depth n)) n i v (chunks (length proof) proof) = Some root)).
Proof.
  intros Hi Hr Hv. unfold proof_verify, len. rewrite Hr, Hv. change (Z.of_nat 32 =? _HASH_SIZE) with true. cbn [negb].
  rewrite (proj2 (Z.ltb_ge i 0)), (proj2 (Z.ltb_ge n 0)), (proj2 (Z.eqb_neq n 0)), (proj2 (Z.leb_gt n i)) by lia. cbn [orb].
  unfold merkle_proof_root, parse_proof. cbn [length Nat.eqb negb].
  destruct (decide (length proof mod 32 = 0)%nat) as [Hm|Hm].
  2:{ rewrite (bool_decide_eq_false_2 _ Hm). unfold len, _HASH_SIZE. rewrite (proj2 (Z.eqb_neq _ 0)); [done|]. lia. }
  rewrite (bool_decide_eq_true_2 _ Hm). unfold len, _HASH_SIZE. rewrite (proj2 (Z.eqb_eq (_ mod 32) 0)) by lia. cbn [negb rbind existsb].
  rewrite Hv. change (Z.of_nat 32 =? 32) with true. cbn [negb orb]. change (sort_by fst (zip [i] [v])) with [(i, v)]. cbn [map fst].
  unfold proof_indices_by_layers, uneven_layers. rewrite bins_single by done.
  destruct (depth_pos n ltac:(lia)) as [d Hd]. rewrite Hd. unfold _build_tree_inner.
  pose proof (chunks_32 (length proof) proof ltac:(lia) Hm) as H32. pose proof (path_build (S d) n i v _ Hv H32) as Hp.
  pose proof (fun ls => leaf_merged d n i v _ ls Hv H32) as Hlm.
  destruct (deal_hashes _ _) as [layers|e]; cbn [rbind].
  - rewrite Hd, Hlm by done. destruct Hp as (t & k & r & -> & Hl & ->). cbn [rbind]. unfold single_root. rewrite Hl. cbn [andb].
    do 2 f_equal. apply bool_decide_ext. split; congruence.
  - destruct Hp as [-> ->]. done.
Qed.

(** ** One layer up *)

Definition at_index (l : list bytes) (i : Z) : option bytes := l !! Z.to_nat i.
Definition size (l : list bytes) : Z := Z.of_nat (length l).

Lemma size_pair_up l : size (pair_up l) = div_ceil (size l) 2.
Proof. unfold size, div_ceil. rewrite pair_up_length. destruct (Z.of_nat (length l) mod 2 =? 0) eqn:E; lia. Qed.

Lemma half_in_range l i : 0 <= i < size l -> 0 <= i / 2 < size (pair_up l).
Proof. unfold size. rewrite pair_up_length. lia. Qed.

Lemma at_index_some l i : 0 <= i < size l -> exists v, at_index l i = Some v.
Proof. unfold size, at_index. intros Hi. apply lookup_lt_is_Some. lia. Qed.

Lemma pair_up_at l i : 0 <= i < size l ->
  at_index (pair_up l) (i / 2) =
  match at_index l (2 * (i / 2)), at_index l (2 * (i / 2) + 1) with
  | Some a, Some b => Some (digest (a ++ b))
  | o, _ => o
  end.
Proof.
  unfold size, at_index. intros Hi. replace (Z.to_nat (i / 2)) with (Z.to_nat i / 2)%nat by lia.
  rewrite pair_up_lookup by lia. replace (Z.to_nat (2 * (i / 2))) with (2 * (Z.to_nat i / 2))%nat by lia.
  by replace (Z.to_nat (2 * (i / 2) + 1)) with (2 * (Z.to_nat i / 2) + 1)%nat by lia.
Qed.

Lemma climb_alone l i : 0 <= i < size l -> alone (size l) i = true -> at_index (pair_up l) (i / 2) = at_index l i.
Proof.
  intros Hi Ha. rewrite pair_up_at by done. unfold alone in Ha. apply andb_prop in Ha as [Ho%negb_true_iff He].
  assert (H2 : 2 * (i / 2) = i) by lia. rewrite H2. destruct (at_index_some l i Hi) as [v ->].
  assert (at_index l (i + 1) = None) as -> by (apply lookup_ge_None; unfold size in *; lia). done.
Qed.

Lemma climb_pair l i : 0 <= i < size l -> alone (size l) i = false ->
  exists a s, at_index l i = Some a /\ at_index l (get_sibling_index i) = Some s
    /\ at_index (pair_up l) (i / 2) = Some (digest (if is_left_index i then a ++ s else s ++ a)).
Proof.
  intros Hi Ha. rewrite pair_up_at by done. unfold alone in Ha. unfold get_sibling_index.
  destruct (is_left_index i) eqn:El; unfold is_left_index in El.
  - assert (H2 : 2 * (i / 2) = i) by lia. rewrite H2. destruct (at_index_some l i Hi) as [a ->].
    destruct (at_index_some l (i + 1)) as [s ->]; [|by exists a, s].
    apply andb_false_iff in Ha as [Ha|Ha]; [|lia]. apply negb_false_iff in Ha. lia.
  - assert (H2 : 2 * (i / 2) = i - 1) by lia. rewrite H2. replace (i - 1 + 1) with i by lia.
    destruct (at_index_some l i Hi) as [a ->]. destruct (at_index_some l (i - 1)) as [s ->]; [lia|]. by exists a, s.
Qed.

(** The hashes an honest prover sends: the siblings on the way up. *)
Fixpoint audit_path (n : nat) (i : Z) (l : list bytes) : list bytes :=
  match n with
  | O => []
  | S n' =>
      (if alone (size l) i then [] else [default [] (at_index l (get_sibling_index i))])
      ++ audit_path n' (i / 2) (pair_up l)
  end.

Lemma audit_path_32 n i l : hashes32 l -> 0 <= i < size l -> hashes32 (audit_path n i l).
Proof.
  revert i l. induction n as [|n IH]; intros i l H Hi; [constructor|]. cbn [audit_path]. apply Forall_app. split.
  - destruct (alone (size l) i) eqn:Ea; [constructor|]. destruct (climb_pair l i Hi Ea) as (a & s & _ & Hs & _). rewrite Hs.
    constructor; [|constructor]. exact (Forall_lookup_1 _ _ _ _ H Hs).
  - apply IH; [by apply pair_up_32|by apply half_in_range].
Qed.

Lemma path_climbs n i l v extra : 0 <= i < size l -> at_index l i = Some v ->
  path_root n (size l) i v (audit_path n i l ++ extra) = at_index (layer n l) (i / 2 ^ Z.of_nat n).
Proof.
  revert i l v. induction n as [|n IH]; intros i l v Hi Hv; [cbn; by rewrite Z.div_1_r|].
  cbn [path_root audit_path layer]. rewrite <- size_pair_up. pose proof (half_in_range l i Hi) as Hi'.
  assert (Hdiv : i / 2 ^ Z.of_nat (S n) = i / 2 / 2 ^ Z.of_nat n).
  { rewrite Nat2Z.inj_succ, Z.pow_succ_r, Z.div_div by lia. done. }
  rewrite Hdiv. destruct (alone (size l) i) eqn:Ea.
  - cbn [app]. apply IH; [done|]. by rewrite climb_alone.
  - destruct (climb_pair l i Hi Ea) as (a & s & Ha & Hs & Hp). rewrite Hs. cbn [default from_option id app]. rewrite Hv in Ha.
    injection Ha as <-. by apply IH.
Qed.

(** The hash inputs of the verifier beside those of the tree, layer by layer. *)
Fixpoint compared (n : nat) (i : Z) (v : bytes) (hs l : list bytes) : list (bytes * bytes) :=
  match n with
  | O => []
  | S n' =>
      if alone (size l) i then compared n' (i / 2) v hs (pair_up l)
      else match hs with
           | [] => []
           | s :: rest =>
               let join a b := if is_left_index i then a ++ b else b ++ a in
               (join v s, join (default [] (at_index l i)) (default [] (at_index l (get_sibling_index i))))
               :: compared n' (i / 2) (digest (join v s)) rest (pair_up l)
           end
  end.

(** One of the pairs is a collision of SHA-256. *)
Definition collides (pairs : list (bytes * bytes)) : Prop := Exists (fun p => p.1 <> p.2 /\ digest p.1 = digest p.2) pairs.

Lemma path_binds n i l v hs r : hashes32 l -> length v = 32%nat -> 0 <= i < size l ->
  path_root n (size l) i v hs = Some r -> at_index (layer n l) (i / 2 ^ Z.of_nat n) = Some r ->
  at_index l i = Some v \/ collides (compared n i v hs l).
Proof.
  revert i l v hs. induction n as [|n IH]; intros i l v hs H32 Hv Hi Hp Ht.
  { cbn in Hp, Ht. rewrite Z.div_1_r in Ht. left. congruence. }
  cbn [path_root compared layer] in *. rewrite <- size_pair_up in Hp. pose proof (half_in_range l i Hi) as Hi'.
  rewrite Nat2Z.inj_succ, Z.pow_succ_r, <- Z.div_div in Ht by lia. destruct (alone (size l) i) eqn:Ea.
  - rewrite <- climb_alone by done. by apply IH; [apply pair_up_32|..].
  - destruct hs as [|s hs]; [done|]. destruct (climb_pair l i Hi Ea) as (a & s' & Ha & Hs & Hup). rewrite Ha, Hs. cbn [default from_option id].
    destruct (IH _ _ _ _ (pair_up_32 _ H32) (digest_32 _) Hi' Hp Ht) as [Hd|Hc]; [|right; by apply Exists_cons_tl].
    rewrite Hup in Hd. apply (inj Some) in Hd.
    destruct (decide ((if is_left_index i then v ++ s else s ++ v) = (if is_left_index i then a ++ s' else s' ++ a))) as [E|E].
    + left. f_equal. pose proof (Forall_lookup_1 _ _ _ _ H32 Ha) as Hla. cbn in Hla.
      destruct (is_left_index i); [apply app_inj_1 in E as [E _]|apply app_inj_2 in E as [_ E]]; by rewrite ?Hv, ?Hla.
    + right. apply Exists_cons_hd. split; [exact E|]. cbn. by rewrite Hd.
Qed.

(** The top of the tree is reached from every leaf. *)
Lemma top_at l i r : 0 <= i < size l -> layer (Z.to_nat (tree_depth (size l))) l = [r] ->
  at_index (layer (Z.to_nat (tree_depth (size l))) l) (i / 2 ^ Z.of_nat (Z.to_nat (tree_depth (size l)))) = Some r.
Proof.
  intros Hi Hr. unfold size in *. pose proof (depth_enough (length l) ltac:(lia)) as Hd.
  apply Nat2Z.inj_le in Hd. rewrite Nat2Z.inj_pow in Hd. rewrite Z.div_small by lia. by rewrite Hr.
Qed.

(** A tree with a root has 32-byte leaves, and its root is 32 bytes long. *)
Lemma root_facts l r : l <> [] -> merkle_root_rs_sha256 l = Ok r ->
  hashes32 l /\ layer (Z.to_nat (tree_depth (size l))) l = [r] /\ length r = 32%nat.
Proof.
  intros Hne H. destruct (decide (hashes32 l)) as [H32|Hno].
  2:{ unfold merkle_root_rs_sha256 in H. rewrite sizes_bad in H by done. by destruct l. }
  destruct (root_is_top l Hne H32) as (r' & Hr & H'). rewrite H in H'. apply Ok_inj in H' as <-. split; [done|]. split; [exact Hr|].
  assert (Hall : forall n m, hashes32 m -> hashes32 (layer n m)) by (induction n; intros m Hm; [done|]; cbn; auto using pair_up_32).
  specialize (Hall _ _ H32 : hashes32 (layer (Z.to_nat (tree_depth (Z.of_nat (length l)))) l)). rewrite Hr in Hall. by apply Forall_inv in Hall.
Qed.

(** C7: inclusion proofs are sound.  If the verifier accepts a proof for a leaf
    at an index of a tree, then the leaf is the one at that index, or one of the
    at most [tree_depth] pairs of hash inputs on the path is a collision of
    SHA-256; the pairs are computed from the tree and the proof. *)
Theorem proof_sound leaves root leaf proof i :
  merkle_root_rs_sha256 leaves = Ok root ->
  proof_verify root leaf proof i (size leaves) = Ok true ->
  at_index leaves i = Some leaf
  \/ collides (compared (Z.to_nat (tree_depth (size leaves))) i leaf (chunks (length proof) proof) leaves).
Proof.
  intros Hroot Hv. assert (Hne : leaves <> []) by (intros ->; done). destruct (root_facts _ _ Hne Hroot) as (H32 & Htop & Hr32).
  assert (Hi : 0 <= i < size leaves /\ length leaf = 32%nat).
  { unfold proof_verify, len, _HASH_SIZE in Hv. rewrite Hr32 in Hv. cbn [negb] in Hv. change (Z.of_nat 32 =? 32) with true in Hv. cbn [negb] in Hv.
    destruct (Z.of_nat (length leaf) =? 32) eqn:El; [|done]. cbn [negb] in Hv. destruct ((i <? 0) || _) eqn:E1; [done|].
    destruct (_ =? 0); [done|]. destruct (size leaves <=? i) eqn:E2; [done|]. apply orb_false_iff in E1 as [E1 _]. lia. }
  destruct Hi as [Hi Hl]. rewrite verify_spec in Hv by done. apply Ok_inj, andb_prop in Hv as [_ Hv%bool_decide_eq_true].
  apply (path_binds _ _ _ _ _ root H32 Hl Hi Hv). by apply top_at.
Qed.

(** C33: inclusion proofs are complete.  For every leaf of every tree the
    siblings on its path, concatenated from the bottom up, are accepted, and so
    are they with any further hashes behind them. *)
Theorem proof_complete leaves root leaf i extra :
  merkle_root_rs_sha256 leaves = Ok root -> 0 <= i -> at_index leaves i = Some leaf -> hashes32 extra ->
  proof_verify root leaf (concat (audit_path (Z.to_nat (tree_depth (size leaves))) i leaves ++ extra)) i (size leaves) = Ok true.
Proof.
  intros Hroot H0 Hl He. assert (Hne : leaves <> []) by (intros ->; done). destruct (root_facts _ _ Hne Hroot) as (H32 & Htop & Hr32).
  assert (Hi : 0 <= i < size leaves) by (apply lookup_lt_Some in Hl; unfold size; lia).
  pose proof (Forall_lookup_1 _ _ _ _ H32 Hl) as Hl32. set (n := Z.to_nat (tree_depth (size leaves))) in *.
  assert (Hp : hashes32 (audit_path n i leaves ++ extra)) by (apply Forall_app; split; [by apply audit_path_32|done]).
  rewrite verify_spec by done. rewrite chunks_concat by (done || lia).
  assert (Hmod : forall hs, hashes32 hs -> (length (concat hs) mod 32 = 0)%nat).
  { induction 1 as [|h hs Hh _ IH]; [done|]. cbn [concat]. rewrite length_app, Hh. lia. }
  rewrite bool_decide_eq_true_2 by auto. rewrite bool_decide_eq_true_2; [done|].
  fold n. rewrite path_climbs by done. by apply top_at.
Qed.

(** * Examples *)

Definition demo_leaves : list bytes := map (fun n => digest [byte_of_Z n]) [0; 1; 2].
Definition demo_root : bytes := match merkle_root_rs_sha256 demo_leaves with Ok r => r | Err _ => [] end.
Definition demo_leaf (i : Z) : bytes := default [] (at_index demo_leaves i).
Definition demo_proof (i : Z) : bytes := concat (audit_path 2 i demo_leaves).

Lemma proof_sound_witness :
  proof_verify demo_root (demo_leaf 2) (demo_proof 2) 2 3 = Ok true
  /\ (at_index demo_leaves 2 = Some (demo_leaf 2)
      \/ collides (compared 2 2 (demo_leaf 2) (chunks (length (demo_proof 2)) (demo_proof 2)) demo_leaves)).
Proof.
  split; [vm_compute; reflexivity|].
  refine (proof_sound demo_leaves demo_root (demo_leaf 2) (demo_proof 2) 2 _ _); vm_compute; reflexivity.
Defined.

Lemma proof_complete_witness :
  proof_verify demo_root (demo_leaf 0) (concat (audit_path 2 0 demo_leaves ++ [demo_leaf 1])) 0 3 = Ok true.
Proof.
  refine (proof_complete demo_leaves demo_root (demo_leaf 0) 0 [demo_leaf 1] _ _ _ _);
    [vm_compute; reflexivity|lia|vm_compute; reflexivity|repeat constructor].
Defined.
