(* ===== verification/Evidence.v ===== *)
(** Sealed evidence manifests: [tarka/verifier.py] of the Python package
    [crates/tarka-py], over the messages of
    [proto/tarka/evidence/wire/v1/evidence.proto].

    The protobuf decoder and the Ed25519ph check of libsodium are arguments.  A
    double is its eight bytes, most significant first, which is what the code
    hashes of it.  Reading the file, with or without a memory map, gives the bytes
    that the check is called on. *)

From Stdlib Require Import ZArith Lia ZifyNat Bool Ascii String Strings.Byte.
From stdpp Require Import base option list sorting strings gmap.
From S2P Require Import Prelude Sha256 Merkle.
Local Open Scope Z_scope.

Local Ltac Zify.zify_post_hook ::= Z.to_euclidean_division_equations.

(** * Messages *)

Inductive double : Type := Double (b7 b6 b5 b4 b3 b2 b1 b0 : Byte.byte).

Inductive payload : Type :=
| str_val (s : string)
| num_val (n : double)
| bool_val (b : bool)
| raw_bytes (b : bytes).

Record SignalValue : Type := Signal { sv_source : string; sv_value : option payload }.

Record ExecutionStep : Type := Step {
  sequence : Z; rule_id : string; operator : string; operands : list string; step_result : bool;
  state_snapshot : gmap string string }.

Record EngineMetadata : Type := Engine { version : string; git_hash : string; environment : string; engine_instance_id : string }.

Record Verdict : Type := MkVerdict { v_action : string; v_score : double; v_tags : list string; v_latency_ns : Z }.

(** [engine], [verdict] and [merkle_proof] have field presence. *)
Record EvidenceManifest : Type := Manifest {
  manifest_id : string; occurred_at_unix_ns : Z; engine : option EngineMetadata; signals : gmap string SignalValue;
  trace : list ExecutionStep; verdict : option Verdict; merkle_root : bytes; signature : bytes; merkle_proof : option bytes }.

(** * Canonical encodings *)

(** [s.encode("utf-8")]. *)
Definition encode (s : string) : bytes := map byte_of_Z (utf8 s).

Definition INPUT_STATE_SCHEMA : bytes := encode "tarka.evidence.wire.v1/DeterministicSignalHasher/input_state" ++ [x01].
Definition LEAF_SCHEMA : bytes := encode "tarka.evidence.wire.v1/TraceMerkleRoot/leaf" ++ [x01].
Definition SEAL_SUPER_BLOCK_SCHEMA : bytes := encode "tarka.evidence.wire.v1/TarkaEvidence/seal_super_block" ++ [x01].

Definition _EMPTY_TRACE_INTERMEDIATE : bytes := replicate 32 x00.

Definition _SignalHashError : pyexn := OtherError "_SignalHashError".
Definition _TraceMerkleError : pyexn := OtherError "_TraceMerkleError".
Definition _SealEncodeError : pyexn := OtherError "_SealEncodeError".

Definition u32_max : Z := 4294967295.

(** A four-byte length and the chunk, or the error of the caller. *)
Definition len_prefixed (e : pyexn) (chunk : bytes) : result bytes :=
  if u32_max <? len chunk then Err e else Ok (word_bytes (len chunk) ++ chunk).

Definition _write_len_prefixed : bytes -> result bytes := len_prefixed _SealEncodeError.
Definition _write_len_prefixed_digest : bytes -> result bytes := len_prefixed _SignalHashError.
Definition _append_len_prefixed_trace : bytes -> result bytes := len_prefixed _TraceMerkleError.

(** [n.to_bytes(4, "big")]. *)
Definition to_bytes4 (n : Z) : result bytes :=
  if (n <? 0) || (u32_max <? n) then Err OverflowError else Ok (word_bytes n).

Definition double_bytes (d : double) : bytes := let '(Double b7 b6 b5 b4 b3 b2 b1 b0) := d in [b7; b6; b5; b4; b3; b2; b1; b0].

Definition payload_bytes (p : payload) : result bytes :=
  match p with
  | str_val s => rmap (cons x01) (_write_len_prefixed_digest (encode s))
  | num_val n => Ok (x02 :: double_bytes n)
  | bool_val b => Ok [x03; if b then x01 else x00]
  | raw_bytes b => rmap (cons x04) (_write_len_prefixed_digest b)
  end.

(** The bytes a signal adds to the hasher. *)
Definition _update_hasher_with_signal (field_name : string) (sv : SignalValue) : result bytes :=
  let! n := _write_len_prefixed_digest (encode field_name) in
  let! s := _write_len_prefixed_digest (encode sv.(sv_source)) in
  match sv.(sv_value) with
  | None => Err _SignalHashError
  | Some p => let! v := payload_bytes p in Ok (n ++ s ++ v)
  end.

(** [sorted(d.keys())]. *)
Definition sorted_keys {A : Type} (m : gmap string A) : list string := merge_sort String.le (map_to_list m).*1.

Definition signal_entry (signals : gmap string SignalValue) (name : string) : result bytes :=
  match signals !! name with
  | None => Err _SignalHashError
  | Some sv => _update_hasher_with_signal name sv
  end.

(** What is hashed of the signals. *)
Definition signals_input (signals : gmap string SignalValue) : result bytes :=
  let! entries := rmapM (signal_entry signals) (sorted_keys signals) in
  Ok (INPUT_STATE_SCHEMA ++ concat entries).

Definition _hash_signals_map (signals : gmap string SignalValue) : result bytes := rmap digest (signals_input signals).

Definition snapshot_entry (snapshot : gmap string string) (k : string) : result bytes :=
  match snapshot !! k with
  | None => Err _TraceMerkleError
  | Some v =>
      let! kb := _append_len_prefixed_trace (encode k) in
      let! vb := _append_len_prefixed_trace (encode v) in
      Ok (kb ++ vb)
  end.

(** A four-byte count and the encoded items. *)
Definition counted {A : Type} (enc : A -> result bytes) (items : list A) : result bytes :=
  if u32_max <? Z.of_nat (length items) then Err _TraceMerkleError else
  let! bs := rmapM enc items in
  Ok (word_bytes (Z.of_nat (length items)) ++ concat bs).

Definition _canonical_step_bytes (step : ExecutionStep) : result bytes :=
  let! sq := to_bytes4 step.(sequence) in
  let! rid := _append_len_prefixed_trace (encode step.(rule_id)) in
  let! op := _append_len_prefixed_trace (encode step.(operator)) in
  let! ops := counted (fun o => _append_len_prefixed_trace (encode o)) (merge_sort String.le step.(operands)) in
  let! snap := counted (snapshot_entry step.(state_snapshot)) (sorted_keys step.(state_snapshot)) in
  Ok (sq ++ rid ++ op ++ ops ++ [if step.(step_result) then x01 else x00] ++ snap).

Definition leaf_input (step : ExecutionStep) : result bytes := rmap (app LEAF_SCHEMA) (_canonical_step_bytes step).

Definition _leaf_digest (step : ExecutionStep) : result bytes := rmap digest (leaf_input step).

Definition _calculate_trace_root (trace : list ExecutionStep) : result bytes :=
  match trace with
  | [] => Ok _EMPTY_TRACE_INTERMEDIATE
  | _ => let! leaves := rmapM _leaf_digest trace in merkle_root_rs_sha256 leaves
  end.

Definition super_block (signals_digest trace_digest : bytes) (manifest_id git_hash : string) : result bytes :=
  if negb (len signals_digest =? 32) || negb (len trace_digest =? 32) then Err _SealEncodeError else
  let! i := _write_len_prefixed (encode manifest_id) in
  let! g := _write_len_prefixed (encode git_hash) in
  Ok (SEAL_SUPER_BLOCK_SCHEMA ++ signals_digest ++ trace_digest ++ i ++ g).

Definition _seal_super_block_digest (signals_digest trace_digest : bytes) (manifest_id git_hash : string) : result bytes :=
  rmap digest (super_block signals_digest trace_digest manifest_id git_hash).

(** * Verification *)

Inductive VerificationFailureReason : Type :=
| SIGNATURE_MISMATCH | ROOT_HASH_MISMATCH | DECODE_ERROR | INCOMPLETE_PROOF | ENGINE_METADATA_MISSING | INVALID_PUBLIC_KEY
| INVALID_SEAL_FIELDS | CANONICALIZATION_ERROR.

Record VerificationResult : Type := Verification { status : bool; failure_reason : option VerificationFailureReason }.

Definition failed (r : VerificationFailureReason) : VerificationResult := Verification false (Some r).
Definition verified : VerificationResult := Verification true None.

Definition manifest_has_merkle_proof_field (m : EvidenceManifest) : bool := match m.(merkle_proof) with Some _ => true | None => false end.

(** The digest that the embedded root must equal. *)
Definition recomputed (m : EvidenceManifest) (e : EngineMetadata) : result bytes :=
  let! signals_digest := _hash_signals_map m.(signals) in
  let! trace_digest := _calculate_trace_root m.(trace) in
  _seal_super_block_digest signals_digest trace_digest m.(manifest_id) e.(git_hash).

Definition is_canonicalization_error (e : pyexn) : bool :=
  bool_decide (e = _SignalHashError) || bool_decide (e = _TraceMerkleError) || bool_decide (e = _SealEncodeError).

Section verifier.
(** [ParseFromString], [None] for a [DecodeError], and whether libsodium's
    [crypto_sign_ed25519ph_final_verify] returns for a message, a signature and a key. *)
Context (ParseFromString : bytes -> option EvidenceManifest) (ed25519ph_final_verify : bytes -> bytes -> bytes -> bool).

Definition _verify_ed25519ph_prehashed_root (public_key_32 signature_64 merkle_root_32 : bytes) : bool :=
  (len public_key_32 =? 32) && (len signature_64 =? 64) && (len merkle_root_32 =? 32)
  && ed25519ph_final_verify merkle_root_32 signature_64 public_key_32.

(** The check of a decoded manifest. *)
Definition verify_manifest (m : EvidenceManifest) (public_key : bytes) : result VerificationResult :=
  match m.(engine) with
  | None => Ok (failed ENGINE_METADATA_MISSING)
  | Some e =>
      if (len m.(merkle_root) =? 32) && (len m.(signature) =? 64) && negb (manifest_has_merkle_proof_field m)
      then Ok (failed INCOMPLETE_PROOF)
      else if negb (len m.(merkle_root) =? 32) || negb (len m.(signature) =? 64) then Ok (failed INVALID_SEAL_FIELDS)
      else match recomputed m e with
           | Err x => if is_canonicalization_error x then Ok (failed CANONICALIZATION_ERROR) else Err x
           | Ok r =>
               if negb (bool_decide (r = m.(merkle_root))) then Ok (failed ROOT_HASH_MISMATCH)
               else if _verify_ed25519ph_prehashed_root public_key m.(signature) r then Ok verified
               else Ok (failed SIGNATURE_MISMATCH)
           end
  end.

Definition verify_manifest_integrity (manifest_bytes public_key : bytes) : result VerificationResult :=
  if negb (len public_key =? 32) then Ok (failed INVALID_PUBLIC_KEY)
  else match ParseFromString manifest_bytes with
       | None => Ok (failed DECODE_ERROR)
       | Some m => verify_manifest m public_key
       end.
End verifier.

(** * Encodings that can be read back *)

(** An encoding whose end is determined by what it encodes. *)
Definition prefix_code {A : Type} (enc : A -> result bytes) : Prop :=
  forall x y b c r s, enc x = Ok b -> enc y = Ok c -> b ++ r = c ++ s -> x = y /\ r = s.

Lemma byte_of_Z_inj m n : 0 <= m < 256 -> 0 <= n < 256 -> byte_of_Z m = byte_of_Z n -> m = n.
Proof.
  intros Hm Hn. unfold byte_of_Z. pose proof (Byte.of_N_None_iff (Z.to_N m)) as Em. pose proof (Byte.of_N_None_iff (Z.to_N n)) as En.
  destruct (Byte.of_N (Z.to_N m)) as [bm|] eqn:Hbm; [|pose proof (proj1 Em eq_refl); lia].
  destruct (Byte.of_N (Z.to_N n)) as [bn|] eqn:Hbn; [|pose proof (proj1 En eq_refl); lia].
  cbn. intros ->. apply Byte.to_of_N in Hbm, Hbn. lia.
Qed.

Lemma word_bytes_inj m n : 0 <= m <= u32_max -> 0 <= n <= u32_max -> word_bytes m = word_bytes n -> m = n.
Proof.
  unfold u32_max. intros Hm Hn H. unfold word_bytes in H. cbn [map] in H. injection H as H3 H2 H1 H0.
  apply byte_of_Z_inj in H0, H1, H2, H3; try apply land255.
  assert (split : forall x, 0 <= x <= 4294967295 -> x = 16777216 * Z.land (Z.shiftr x 24) 255 + 65536 * Z.land (Z.shiftr x 16) 255
                                     + 256 * Z.land (Z.shiftr x 8) 255 + Z.land (Z.shiftr x 0) 255).
  { intros x Hx. change 255 with (Z.ones 8). rewrite !Z.land_ones, !Z.shiftr_div_pow2 by lia.
    change (2 ^ 24) with 16777216. change (2 ^ 16) with 65536. change (2 ^ 8) with 256. change (2 ^ 0) with 1. lia. }
  rewrite (split m Hm), (split n Hn). congruence.
Qed.

Lemma word_prefix m n r s : 0 <= m <= u32_max -> 0 <= n <= u32_max -> word_bytes m ++ r = word_bytes n ++ s -> m = n /\ r = s.
Proof. intros Hm Hn H. apply app_inj_1 in H as [H ->]; [|done]. split; [by apply word_bytes_inj|done]. Qed.

Lemma len_prefixed_code e : prefix_code (len_prefixed e).
Proof.
  intros x y b c r s Hx Hy H. unfold len_prefixed in Hx, Hy. destruct (u32_max <? len x) eqn:Ex; [done|]. destruct (u32_max <? len y) eqn:Ey; [done|].
  apply Ok_inj in Hx, Hy. subst b c. rewrite <- !app_assoc in H. unfold len in *. apply word_prefix in H as [Hl H]; [|lia..].
  by apply app_inj_1 in H; [|lia].
Qed.

(** The first character of UTF-8 text. *)
Definition utf8_head (l : list Z) : option (ascii * list Z) :=
  match l with
  | a :: r =>
      if a <? 128 then Some (ascii_of_N (Z.to_N a), r)
      else match r with b :: r' => Some (ascii_of_N (Z.to_N ((a - 192) * 64 + (b - 128))), r') | [] => None end
  | [] => None
  end.

Lemma utf8_head_spec c s : utf8_head (utf8 (String c s)) = Some (c, utf8 s).
Proof. destruct c as [[] [] [] [] [] [] [] []]; reflexivity. Qed.

Lemma utf8_inj s t : utf8 s = utf8 t -> s = t.
Proof.
  revert t. induction s as [|c s IH]; intros [|d t] H; [done|..].
  - by pose proof (f_equal utf8_head H) as E; rewrite utf8_head_spec in E.
  - by pose proof (f_equal utf8_head H) as E; rewrite utf8_head_spec in E.
  - pose proof (f_equal utf8_head H) as E. rewrite !utf8_head_spec in E. injection E as -> E. f_equal. by apply IH.
Qed.

Lemma utf8_range s : Forall (fun b => 0 <= b < 256) (utf8 s).
Proof.
  induction s as [|c s IH]; [constructor|]. cbn [utf8]. destruct c as [[] [] [] [] [] [] [] []]; repeat constructor; (exact IH || done).
Qed.

Lemma encode_inj s t : encode s = encode t -> s = t.
Proof.
  intros H. apply utf8_inj. pose proof (utf8_range s) as Hs. pose proof (utf8_range t) as Ht. unfold encode in H. revert H.
  generalize dependent (utf8 t). induction Hs as [|x l Hx _ IH]; intros [|y r] Ht H; try done. cbn in H. injection H as Hxy H.
  apply Forall_cons in Ht as [Hy Ht]. f_equal; [by apply byte_of_Z_inj|by apply IH].
Qed.

(** Codes are closed under what the formats are made of. *)
Lemma code_text (enc : bytes -> result bytes) : prefix_code enc -> prefix_code (fun s => enc (encode s)).
Proof. intros H x y b c r s Hx Hy E. destruct (H _ _ _ _ _ _ Hx Hy E) as [E1 E2]. split; [by apply encode_inj|done]. Qed.

Lemma code_items {A : Type} (enc : A -> result bytes) xs ys bs cs r s : prefix_code enc -> length xs = length ys ->
  rmapM enc xs = Ok bs -> rmapM enc ys = Ok cs -> concat bs ++ r = concat cs ++ s -> xs = ys /\ r = s.
Proof.
  intros Hc. revert ys bs cs. induction xs as [|x xs IH]; intros [|y ys] bs cs Hl Hx Hy E; try done.
  { cbn in Hx, Hy. apply Ok_inj in Hx, Hy. by subst. }
  cbn [rmapM] in Hx, Hy. apply rbind_Ok in Hx as (b & Hb & Hx). apply rbind_Ok in Hx as (bs' & Hbs & <-%Ok_inj).
  apply rbind_Ok in Hy as (c & Hc' & Hy). apply rbind_Ok in Hy as (cs' & Hcs & <-%Ok_inj).
  cbn [concat] in E. rewrite <- !app_assoc in E. destruct (Hc _ _ _ _ _ _ Hb Hc' E) as [-> E'].
  destruct (IH ys bs' cs' ltac:(by injection Hl) Hbs Hcs E') as [-> ->]. done.
Qed.

Lemma code_counted {A : Type} (enc : A -> result bytes) : prefix_code enc -> prefix_code (counted enc).
Proof.
  intros Hc xs ys b c r s Hx Hy E. unfold counted in Hx, Hy.
  destruct (u32_max <? Z.of_nat (length xs)) eqn:Ex; [done|]. destruct (u32_max <? Z.of_nat (length ys)) eqn:Ey; [done|].
  apply rbind_Ok in Hx as (bs & Hbs & <-%Ok_inj). apply rbind_Ok in Hy as (cs & Hcs & <-%Ok_inj). rewrite <- !app_assoc in E.
  apply word_prefix in E as [Hl E]; [|lia..]. by eapply code_items; [exact Hc|lia|exact Hbs|exact Hcs|].
Qed.

(** Without a count, items of at least one byte can be read to the end. *)
Lemma code_to_end {A : Type} (enc : A -> result bytes) xs ys bs cs : prefix_code enc -> (forall x, enc x <> Ok []) ->
  rmapM enc xs = Ok bs -> rmapM enc ys = Ok cs -> concat bs = concat cs -> xs = ys.
Proof.
  intros Hc Hne. revert ys bs cs. induction xs as [|x xs IH]; intros [|y ys] bs cs Hx Hy E; [done|..].
  - exfalso. cbn in Hx. apply Ok_inj in Hx. subst bs. cbn [rmapM] in Hy. apply rbind_Ok in Hy as (c & Hc' & Hy).
    apply rbind_Ok in Hy as (cs' & _ & <-%Ok_inj). cbn in E. destruct c; [by destruct (Hne y)|done].
  - exfalso. cbn in Hy. apply Ok_inj in Hy. subst cs. cbn [rmapM] in Hx. apply rbind_Ok in Hx as (b & Hb & Hx).
    apply rbind_Ok in Hx as (bs' & _ & <-%Ok_inj). cbn in E. destruct b; [by destruct (Hne x)|done].
  - cbn [rmapM] in Hx, Hy. apply rbind_Ok in Hx as (b & Hb & Hx). apply rbind_Ok in Hx as (bs' & Hbs & <-%Ok_inj).
    apply rbind_Ok in Hy as (c & Hc' & Hy). apply rbind_Ok in Hy as (cs' & Hcs & <-%Ok_inj). cbn [concat] in E.
    destruct (Hc _ _ _ _ _ _ Hb Hc' E) as [-> E']. f_equal. by eapply IH.
Qed.

(** ** Maps by their sorted entries *)

Definition sorted_entries {A : Type} (m : gmap string A) : list (string * A) := omap (fun k => pair k <$> m !! k) (sorted_keys m).

Lemma entries_perm {A : Type} (m : gmap string A) : sorted_entries m ≡ₚ map_to_list m.
Proof.
  unfold sorted_entries, sorted_keys. rewrite merge_sort_Permutation.
  assert (H : Forall (fun kv => m !! kv.1 = Some kv.2) (map_to_list m)).
  { apply Forall_forall. intros [k v] Hk. by apply elem_of_map_to_list in Hk. }
  generalize dependent (map_to_list m). induction 1 as [|[k v] l Hk _ IH]; [done|]. cbn. cbn in Hk. rewrite Hk. cbn. by rewrite IH.
Qed.

Lemma entries_inj {A : Type} (m m' : gmap string A) : sorted_entries m = sorted_entries m' -> m = m'.
Proof.
  intros H. rewrite (list_to_map_flip m (sorted_entries m)), (list_to_map_flip m' (sorted_entries m')) by (symmetry; apply entries_perm).
  by rewrite H.
Qed.

Lemma entries_encoded {A : Type} (enc : string * A -> result bytes) (e : pyexn) (m : gmap string A) :
  rmapM (fun k => match m !! k with None => Err e | Some v => enc (k, v) end) (sorted_keys m) = rmapM enc (sorted_entries m).
Proof.
  unfold sorted_entries. assert (H : Forall (fun k => is_Some (m !! k)) (sorted_keys m)).
  { apply Forall_forall. intros k Hk. unfold sorted_keys in Hk. rewrite merge_sort_Permutation in Hk.
    apply list_elem_of_fmap in Hk as ([k' v] & -> & Hk). apply elem_of_map_to_list in Hk. by exists v. }
  induction H as [|k l [v Hv] _ IH]; [done|]. cbn [omap list_omap rmapM]. rewrite Hv. cbn. by rewrite IH.
Qed.

(** ** The formats *)

Definition snapshot_pair (kv : string * string) : result bytes :=
  let! kb := _append_len_prefixed_trace (encode kv.1) in
  let! vb := _append_len_prefixed_trace (encode kv.2) in
  Ok (kb ++ vb).

Lemma snapshot_code : prefix_code snapshot_pair.
Proof.
  intros [k v] [k' v'] b c r s Hx Hy E. unfold snapshot_pair in *. cbn [fst snd] in *.
  apply rbind_Ok in Hx as (b1 & H1 & Hx). apply rbind_Ok in Hx as (b2 & H2 & <-%Ok_inj).
  apply rbind_Ok in Hy as (c1 & H3 & Hy). apply rbind_Ok in Hy as (c2 & H4 & <-%Ok_inj). rewrite <- !app_assoc in E.
  destruct (code_text _ (len_prefixed_code _) _ _ _ _ _ _ H1 H3 E) as [-> E'].
  destruct (code_text _ (len_prefixed_code _) _ _ _ _ _ _ H2 H4 E') as [-> E'']. done.
Qed.

Lemma snapshot_counted m : counted (snapshot_entry m) (sorted_keys m) = counted snapshot_pair (sorted_entries m).
Proof.
  unfold counted. rewrite (Permutation_length (entries_perm m)).
  replace (length (sorted_keys m)) with (length (map_to_list m)).
  2:{ unfold sorted_keys. by rewrite (Permutation_length (merge_sort_Permutation String.le _)), length_fmap. }
  by rewrite <- (entries_encoded snapshot_pair _TraceMerkleError).
Qed.

Lemma payload_code : prefix_code payload_bytes.
Proof.
  intros x y b c r s Hx Hy E. destruct x as [t|n|[]|w], y as [t'|n'|[]|w']; cbn [payload_bytes] in Hx, Hy;
    repeat match goal with
    | H : rmap _ (_write_len_prefixed_digest ?d) = Ok _ |- _ =>
        destruct (_write_len_prefixed_digest d) eqn:?; cbn [rmap] in H
    end; try done; apply Ok_inj in Hx, Hy; subst b c; cbn [app] in E; try done.
  - injection E as E. destruct (code_text _ (len_prefixed_code _) _ _ _ _ _ _ Heqr1 Heqr0 E) as [-> ->]. done.
  - destruct n, n'. cbn in E. injection E as -> -> -> -> -> -> -> -> ->. done.
  - by injection E as ->.
  - by injection E as ->.
  - injection E as E. destruct (len_prefixed_code _ _ _ _ _ _ _ Heqr1 Heqr0 E) as [-> ->]. done.
Qed.

Definition signal_pair (kv : string * SignalValue) : result bytes := _update_hasher_with_signal kv.1 kv.2.

Lemma signal_code : prefix_code signal_pair.
Proof.
  intros [k [src v]] [k' [src' v']] b c r s Hx Hy E. unfold signal_pair, _update_hasher_with_signal in *. cbn [fst snd sv_source sv_value] in *.
  apply rbind_Ok in Hx as (b1 & H1 & Hx). apply rbind_Ok in Hx as (b2 & H2 & Hx). destruct v as [p|]; [|done]. apply rbind_Ok in Hx as (b3 & H3 & <-%Ok_inj).
  apply rbind_Ok in Hy as (c1 & H4 & Hy). apply rbind_Ok in Hy as (c2 & H5 & Hy). destruct v' as [p'|]; [|done]. apply rbind_Ok in Hy as (c3 & H6 & <-%Ok_inj).
  rewrite <- !app_assoc in E.
  destruct (code_text _ (len_prefixed_code _) _ _ _ _ _ _ H1 H4 E) as [-> E1].
  destruct (code_text _ (len_prefixed_code _) _ _ _ _ _ _ H2 H5 E1) as [-> E2].
  destruct (payload_code _ _ _ _ _ _ H3 H6 E2) as [-> ->]. done.
Qed.

Lemma len_prefixed_nonempty e d : len_prefixed e d <> Ok [].
Proof. unfold len_prefixed. by destruct (u32_max <? len d). Qed.

Lemma signal_nonempty kv : signal_pair kv <> Ok [].
Proof.
  intros H. unfold signal_pair, _update_hasher_with_signal in H. apply rbind_Ok in H as (b1 & H1 & H). apply rbind_Ok in H as (b2 & _ & H).
  destruct (sv_value kv.2); [|done]. apply rbind_Ok in H as (b3 & _ & H%Ok_inj). apply app_eq_nil in H as [-> _]. by apply len_prefixed_nonempty in H1.
Qed.

Lemma signals_input_inj m m' b : signals_input m = Ok b -> signals_input m' = Ok b -> m = m'.
Proof.
  unfold signals_input. intros H H'. apply rbind_Ok in H as (bs & H & E%Ok_inj). apply rbind_Ok in H' as (cs & H' & E'%Ok_inj). subst b.
  apply app_inv_head in E'. change (signal_entry m) with (fun k => match m !! k with None => Err _SignalHashError | Some v => signal_pair (k, v) end) in H.
  change (signal_entry m') with (fun k => match m' !! k with None => Err _SignalHashError | Some v => signal_pair (k, v) end) in H'.
  rewrite entries_encoded in H, H'. apply entries_inj. by eapply code_to_end; [apply signal_code|apply signal_nonempty|..].
Qed.

(** Steps with the same content; the order of operands is not part of it. *)
Definition same_step (s t : ExecutionStep) : Prop :=
  s.(sequence) = t.(sequence) /\ s.(rule_id) = t.(rule_id) /\ s.(operator) = t.(operator) /\ s.(operands) ≡ₚ t.(operands)
  /\ s.(step_result) = t.(step_result) /\ s.(state_snapshot) = t.(state_snapshot).

Lemma step_bytes_inj s t b : _canonical_step_bytes s = Ok b -> _canonical_step_bytes t = Ok b -> same_step s t.
Proof.
  unfold _canonical_step_bytes. rewrite !snapshot_counted. intros H H'.
  apply rbind_Ok in H as (b1 & H1 & H). apply rbind_Ok in H as (b2 & H2 & H). apply rbind_Ok in H as (b3 & H3 & H).
  apply rbind_Ok in H as (b4 & H4 & H). apply rbind_Ok in H as (b5 & H5 & <-%Ok_inj).
  apply rbind_Ok in H' as (c1 & G1 & H'). apply rbind_Ok in H' as (c2 & G2 & H'). apply rbind_Ok in H' as (c3 & G3 & H').
  apply rbind_Ok in H' as (c4 & G4 & H'). apply rbind_Ok in H' as (c5 & G5 & E%Ok_inj). symmetry in E.
  unfold to_bytes4 in H1, G1. destruct (_ || _) eqn:R1 in H1; [done|]. destruct (_ || _) eqn:R2 in G1; [done|].
  apply Ok_inj in H1, G1. subst b1 c1. apply orb_false_iff in R1 as [? ?], R2 as [? ?]. apply word_prefix in E as [E0 E]; [|lia..].
  destruct (code_text _ (len_prefixed_code _) _ _ _ _ _ _ H2 G2 E) as [E1 E'].
  destruct (code_text _ (len_prefixed_code _) _ _ _ _ _ _ H3 G3 E') as [E2 E''].
  destruct (code_counted _ (code_text _ (len_prefixed_code _)) _ _ _ _ _ _ H4 G4 E'') as [E3 E'''].
  injection E''' as E4 E5. rewrite <- (app_nil_r b5), <- (app_nil_r c5) in E5.
  destruct (code_counted _ snapshot_code _ _ _ _ _ _ H5 G5 E5) as [E6 _].
  split_and!; [done..| | |by apply entries_inj].
  - by rewrite <- (merge_sort_Permutation String.le (operands s)), E3, merge_sort_Permutation.
  - by destruct (step_result s), (step_result t).
Qed.

(** * What the seal binds *)

Local Opaque digest.

Definition inputs_of (m : result bytes) : list bytes := match m with Ok b => [b] | Err _ => [] end.

(** The inputs hashed for the trace: the leaves and the nodes of their tree. *)
Definition trace_inputs (trace : list ExecutionStep) : list bytes :=
  match rmapM leaf_input trace with
  | Ok ls => ls ++ tree_inputs (Z.to_nat (tree_depth (size (map digest ls)))) (map digest ls)
  | Err _ => []
  end.

(** Everything that is hashed to recompute the root of a manifest. *)
Definition hashed (m : EvidenceManifest) (e : EngineMetadata) : list bytes :=
  inputs_of (signals_input m.(signals)) ++ trace_inputs m.(trace)
  ++ inputs_of (let! sd := _hash_signals_map m.(signals) in
                let! td := _calculate_trace_root m.(trace) in
                super_block sd td m.(manifest_id) e.(git_hash)).

Definition pairs (xs ys : list bytes) : list (bytes * bytes) := flat_map (fun x => map (pair x) ys) xs.

(** Among finitely many given inputs: a collision of SHA-256, or a digest that is
    all zero or that spells the tag of a leaf. *)
Definition seal_broken (xs ys : list bytes) : Prop :=
  collides (pairs xs ys)
  \/ Exists (fun x => digest x = _EMPTY_TRACE_INTERMEDIATE \/ digest x = take 32 LEAF_SCHEMA) (xs ++ ys).

Lemma pairs_elem xs ys x y : (x, y) ∈ pairs xs ys <-> x ∈ xs /\ y ∈ ys.
Proof.
  unfold pairs. rewrite list_elem_of_In, in_flat_map. split.
  - intros (x' & Hx & H). apply in_map_iff in H as (y' & [= -> ->] & Hy). by rewrite !list_elem_of_In.
  - intros [Hx Hy]. exists x. split; [by apply list_elem_of_In|]. apply in_map, list_elem_of_In, Hy.
Qed.

Lemma same_or_broken xs ys x y : x ∈ xs -> y ∈ ys -> digest x = digest y -> x = y \/ seal_broken xs ys.
Proof.
  intros Hx Hy E. destruct (decide (x = y)) as [|Hne]; [by left|]. right. left. apply Exists_exists. exists (x, y).
  split; [by apply pairs_elem|done].
Qed.

Lemma special_broken xs ys x : x ∈ xs \/ x ∈ ys -> digest x = _EMPTY_TRACE_INTERMEDIATE \/ digest x = take 32 LEAF_SCHEMA -> seal_broken xs ys.
Proof. intros Hx H. right. apply Exists_exists. exists x. split; [by apply elem_of_app|done]. Qed.

Lemma seal_broken_sym xs ys : seal_broken xs ys -> seal_broken ys xs.
Proof.
  intros [H|H]; [left|right].
  - apply Exists_exists in H as ([x y] & [Hx Hy]%pairs_elem & Hne & E). cbn in Hne, E. apply Exists_exists. exists (y, x).
    split; [by apply pairs_elem|]. split; [by apply not_eq_sym|by symmetry].
  - by rewrite Permutation_app_comm.
Qed.

(** The digests of leaves, with their inputs among [xs]. *)
Definition leafy (xs : list bytes) (l : list bytes) : Prop :=
  Forall (fun v => exists body, LEAF_SCHEMA ++ body ∈ xs /\ v = digest (LEAF_SCHEMA ++ body)) l.

Lemma tree_value xs l r : mtree (fun x => x ∈ xs) l r -> leafy xs l -> exists x, x ∈ xs /\ r = digest x.
Proof.
  destruct 1 as [x|j l r a b _ _ _ _ Hab]; intros H; [|by exists (a ++ b)].
  apply Forall_inv in H as (body & Hx & ->). by eexists.
Qed.

(** A leaf that is also a node spells the tag. *)
Lemma leaf_is_node xs ys body a b :
  LEAF_SCHEMA ++ body ∈ xs -> a ++ b ∈ ys -> digest (LEAF_SCHEMA ++ body) = digest (a ++ b) -> (exists x, x ∈ ys /\ a = digest x) ->
  seal_broken xs ys.
Proof.
  intros Hx Hy E (x & Hz & ->). destruct (same_or_broken xs ys _ _ Hx Hy E) as [E'|]; [|done].
  apply (special_broken _ _ x); [by right|]. right. apply (f_equal (take 32)) in E'.
  rewrite (take_app_le LEAF_SCHEMA) in E' by (vm_compute; lia). rewrite (take_app_le (digest x)), (take_ge (digest x)) in E' by (by rewrite digest_32). done.
Qed.

(** Two trees with one root have the same leaves. *)
Lemma trees_bind xs ys l1 r1 l2 r2 :
  mtree (fun x => x ∈ xs) l1 r1 -> mtree (fun x => x ∈ ys) l2 r2 -> leafy xs l1 -> leafy ys l2 -> r1 = r2 ->
  l1 = l2 \/ seal_broken xs ys.
Proof.
  intros H. revert l2 r2. induction H as [x|j l r a b Hl Hr Ha IHl Hb IHr Hab]; intros l2 r2 H2 L1 L2 E.
  - destruct H2 as [y|j l r a b _ _ Ha _ Hab]; [left; by rewrite E|]. right.
    apply Forall_inv in L1 as (body & Hx & ->). apply Forall_app in L2 as [L2 _].
    exact (leaf_is_node _ _ _ _ _ Hx Hab E (tree_value _ _ _ Ha L2)).
  - apply Forall_app in L1 as [L1 L1']. destruct H2 as [y|k l' r' a' b' _ _ Ha' Hb' Hab'].
    + right. apply Forall_inv in L2 as (body & Hy & ->). apply seal_broken_sym. symmetry in E.
      exact (leaf_is_node _ _ _ _ _ Hy Hab E (tree_value _ _ _ Ha L1)).
    + apply Forall_app in L2 as [L2 L2']. destruct (same_or_broken _ _ _ _ Hab Hab' E) as [E'|]; [|by right].
      destruct (tree_value _ _ _ Ha L1) as (u & _ & Hu), (tree_value _ _ _ Ha' L2) as (v & _ & Hv).
      apply app_inj_1 in E' as [Ea Eb]; [|by rewrite Hu, Hv, !digest_32].
      destruct (IHl _ _ Ha' L1 L2 Ea) as [->|]; [|by right]. destruct (IHr _ _ Hb' L1' L2' Eb) as [->|]; [by left|by right].
Qed.

Lemma rmap_Ok {A B : Type} (f : A -> B) m y : rmap f m = Ok y -> exists x, m = Ok x /\ y = f x.
Proof. destruct m as [x|]; [|done]. intros H%Ok_inj. by exists x. Qed.

Lemma leaf_digests trace leaves : rmapM _leaf_digest trace = Ok leaves ->
  exists ls, rmapM leaf_input trace = Ok ls /\ leaves = map digest ls.
Proof.
  revert leaves. induction trace as [|s trace IH]; intros leaves H; [apply Ok_inj in H as <-; by exists []|].
  cbn [rmapM] in *. apply rbind_Ok in H as (d & Hd & H). apply rbind_Ok in H as (ds & Hds & <-%Ok_inj).
  apply rmap_Ok in Hd as (x & -> & ->). destruct (IH _ Hds) as (ls & -> & ->). by exists (x :: ls).
Qed.

Lemma leaf_inputs_spec trace ls : rmapM leaf_input trace = Ok ls ->
  Forall2 (fun s x => exists body, _canonical_step_bytes s = Ok body /\ x = LEAF_SCHEMA ++ body) trace ls.
Proof.
  revert ls. induction trace as [|s trace IH]; intros ls H; [apply Ok_inj in H as <-; constructor|].
  cbn [rmapM] in H. apply rbind_Ok in H as (x & Hx & H). apply rbind_Ok in H as (xs & Hxs & <-%Ok_inj).
  apply rmap_Ok in Hx as (body & Hb & ->). constructor; [by exists body|by apply IH].
Qed.

(** The tree of a trace that has steps, with its inputs among [xs]. *)
Lemma trace_tree xs trace r : (forall x, x ∈ trace_inputs trace -> x ∈ xs) -> trace <> [] -> _calculate_trace_root trace = Ok r ->
  exists ls, rmapM leaf_input trace = Ok ls /\ (forall x, x ∈ ls -> x ∈ xs)
    /\ mtree (fun x => x ∈ xs) (map digest ls) r /\ leafy xs (map digest ls).
Proof.
  intros Hin Hne H. assert (H' : (let! leaves := rmapM _leaf_digest trace in merkle_root_rs_sha256 leaves) = Ok r) by (by destruct trace).
  clear H. apply rbind_Ok in H' as (leaves & Hl & H). apply leaf_digests in Hl as (ls & Hls & ->). unfold trace_inputs in Hin. rewrite Hls in Hin.
  assert (Hls' : forall x, x ∈ ls -> x ∈ xs) by (intros; apply Hin, elem_of_app; by left).
  exists ls. split; [done|]. split; [done|]. pose proof (leaf_inputs_spec _ _ Hls) as Hf. split.
  - assert (map digest ls <> []) as Hd by (destruct Hf; done). destruct (root_facts _ _ Hd H) as (_ & Htop & _).
    apply (layer_tree _ _ _ _ Htop), Forall_forall. intros x Hx. apply Hin, elem_of_app. by right.
  - apply Forall_map, Forall_forall. intros x Hx. apply list_elem_of_lookup in Hx as [k Hk].
    change (exists body, LEAF_SCHEMA ++ body ∈ xs /\ digest x = digest (LEAF_SCHEMA ++ body)).
    destruct (Forall2_lookup_r _ _ _ _ _ Hf Hk) as (s & _ & body & _ & ->). exists body. split; [|reflexivity].
    eapply Hls', list_elem_of_lookup_2, Hk.
Qed.

(** Equal leaf digests come from equal steps. *)
Lemma steps_bind xs ys t1 t2 ls1 ls2 : (forall x, x ∈ ls1 -> x ∈ xs) -> (forall x, x ∈ ls2 -> x ∈ ys) ->
  rmapM leaf_input t1 = Ok ls1 -> rmapM leaf_input t2 = Ok ls2 -> map digest ls1 = map digest ls2 ->
  Forall2 same_step t1 t2 \/ seal_broken xs ys.
Proof.
  intros H1 H2 F1%leaf_inputs_spec F2%leaf_inputs_spec E. revert t2 ls2 H2 F2 E.
  induction F1 as [|s x t1 ls1 (b & Hb & ->) _ IH]; intros t2 ls2 H2 F2 E.
  { destruct F2; [by left|done]. }
  destruct F2 as [|s' x' t2 ls2 (b' & Hb' & ->) F2]; [done|]. cbn [map] in E.
  pose proof (f_equal (fun l => default [] (head l)) E : digest (LEAF_SCHEMA ++ b) = digest (LEAF_SCHEMA ++ b')) as Eh.
  pose proof (f_equal tail E : map digest ls1 = map digest ls2) as Et.
  destruct (same_or_broken xs ys _ _ (H1 _ ltac:(by left)) (H2 _ ltac:(by left)) Eh) as [Eb%app_inv_head|]; [|by right]. subst b'.
  destruct (IH ltac:(intros; apply H1; by right) t2 ls2 ltac:(intros; apply H2; by right) F2 Et) as [Hf|]; [left|by right].
  constructor; [by eapply step_bytes_inj|done].
Qed.

Lemma trace_binds xs ys t1 t2 r : (forall x, x ∈ trace_inputs t1 -> x ∈ xs) -> (forall x, x ∈ trace_inputs t2 -> x ∈ ys) ->
  _calculate_trace_root t1 = Ok r -> _calculate_trace_root t2 = Ok r -> Forall2 same_step t1 t2 \/ seal_broken xs ys.
Proof.
  intros H1 H2 E1 E2. destruct (decide (t1 = [])) as [->|N1], (decide (t2 = [])) as [->|N2]; [left; constructor|right..|].
  - destruct (trace_tree _ _ _ H2 N2 E2) as (ls & _ & _ & Ht & Hl). destruct (tree_value _ _ _ Ht Hl) as (x & Hx & ->).
    apply (special_broken _ _ x); [by right|left]. symmetry. by apply Ok_inj.
  - destruct (trace_tree _ _ _ H1 N1 E1) as (ls & _ & _ & Ht & Hl). destruct (tree_value _ _ _ Ht Hl) as (x & Hx & ->).
    apply (special_broken _ _ x); [by left|left]. symmetry. by apply Ok_inj.
  - destruct (trace_tree _ _ _ H1 N1 E1) as (ls1 & L1 & I1 & T1 & F1), (trace_tree _ _ _ H2 N2 E2) as (ls2 & L2 & I2 & T2 & F2).
    destruct (trees_bind _ _ _ _ _ _ T1 T2 F1 F2 eq_refl) as [E|]; [|by right]. by eapply steps_bind.
Qed.

(** The content of a manifest that its root stands for. *)
Definition same_content (m1 m2 : EvidenceManifest) : Prop :=
  m1.(manifest_id) = m2.(manifest_id) /\ git_hash <$> m1.(engine) = git_hash <$> m2.(engine)
  /\ m1.(signals) = m2.(signals) /\ Forall2 same_step m1.(trace) m2.(trace).

Lemma super_block_inj s1 t1 i1 g1 s2 t2 i2 g2 b : super_block s1 t1 i1 g1 = Ok b -> super_block s2 t2 i2 g2 = Ok b ->
  s1 = s2 /\ t1 = t2 /\ i1 = i2 /\ g1 = g2.
Proof.
  unfold super_block. destruct (negb _ || negb _) eqn:E1; [done|]. destruct (negb (len s2 =? 32) || _) eqn:E2; [done|].
  apply orb_false_iff in E1 as [A1%negb_false_iff B1%negb_false_iff], E2 as [A2%negb_false_iff B2%negb_false_iff]. unfold len in *.
  intros H H'. apply rbind_Ok in H as (x & Hx & H). apply rbind_Ok in H as (y & Hy & <-%Ok_inj).
  apply rbind_Ok in H' as (x' & Hx' & H'). apply rbind_Ok in H' as (y' & Hy' & E%Ok_inj). symmetry in E. apply app_inv_head in E.
  apply app_inj_1 in E as [-> E]; [|lia]. apply app_inj_1 in E as [-> E]; [|lia].
  destruct (code_text _ (len_prefixed_code _) _ _ _ _ _ _ Hx Hx' E) as [-> E']. rewrite <- (app_nil_r y), <- (app_nil_r y') in E'.
  destruct (code_text _ (len_prefixed_code _) _ _ _ _ _ _ Hy Hy' E') as [-> _]. done.
Qed.

(** The parts of a recomputed root, with their inputs. *)
Lemma recomputed_parts m e r : recomputed m e = Ok r ->
  exists x td b, signals_input m.(signals) = Ok x /\ _calculate_trace_root m.(trace) = Ok td
    /\ super_block (digest x) td m.(manifest_id) e.(git_hash) = Ok b /\ r = digest b
    /\ x ∈ hashed m e /\ b ∈ hashed m e /\ (forall y, y ∈ trace_inputs m.(trace) -> y ∈ hashed m e).
Proof.
  intros H. unfold recomputed, _seal_super_block_digest in H. apply rbind_Ok in H as (sd & Hs & H). apply rbind_Ok in H as (td & Ht & H).
  apply rmap_Ok in H as (b & Hb & ->). pose proof Hs as Hs'. unfold _hash_signals_map in Hs'. apply rmap_Ok in Hs' as (x & Hx & ->).
  assert (M : hashed m e = [x] ++ trace_inputs (trace m) ++ [b])
    by (unfold hashed; rewrite Hs; cbn [rbind]; rewrite Ht; cbn [rbind]; rewrite Hb, Hx; reflexivity).
  exists x, td, b. rewrite M. do 4 (split; [assumption || reflexivity|]). split; [|split].
  - apply elem_of_app. left. by apply list_elem_of_singleton.
  - apply elem_of_app. right. apply elem_of_app. right. by apply list_elem_of_singleton.
  - intros y Hy. apply elem_of_app. right. apply elem_of_app. by left.
Qed.

Lemma root_binds m1 m2 e1 e2 r : m1.(engine) = Some e1 -> m2.(engine) = Some e2 ->
  recomputed m1 e1 = Ok r -> recomputed m2 e2 = Ok r -> same_content m1 m2 \/ seal_broken (hashed m1 e1) (hashed m2 e2).
Proof.
  intros He1 He2 H1 H2. destruct (recomputed_parts _ _ _ H1) as (x1 & td1 & b1 & Hx1 & Ht1 & Hb1 & -> & Ix1 & Ib1 & It1).
  destruct (recomputed_parts _ _ _ H2) as (x2 & td2 & b2 & Hx2 & Ht2 & Hb2 & E & Ix2 & Ib2 & It2).
  destruct (same_or_broken _ _ b1 b2 Ib1 Ib2 E) as [<-|]; [|by right].
  destruct (super_block_inj _ _ _ _ _ _ _ _ _ Hb1 Hb2) as (Es & <- & Hid & Hg).
  destruct (same_or_broken _ _ x1 x2 Ix1 Ix2 Es) as [<-|]; [|by right].
  destruct (trace_binds _ _ _ _ _ It1 It2 Ht1 Ht2) as [Hf|]; [left|by right].
  split; [exact Hid|]. split; [rewrite He1, He2; cbn; by rewrite Hg|]. split; [exact (signals_input_inj _ _ _ Hx1 Hx2)|exact Hf].
Qed.

(** ** Errors of the canonical encoding *)

(** A computation that ends well or with an error the verifier catches. *)
Definition canonical {A : Type} (m : result A) : Prop := forall e, m = Err e -> is_canonicalization_error e = true.

Lemma canonical_bind {A B : Type} (m : result A) (k : A -> result B) : canonical m -> (forall a, m = Ok a -> canonical (k a)) -> canonical (rbind m k).
Proof. intros Hm Hk e. destruct m as [a|x]; cbn; [by apply Hk|]. intros [= ->]. by apply Hm. Qed.

Lemma canonical_rmap {A B : Type} (f : A -> B) m : canonical m -> canonical (rmap f m).
Proof. intros Hm e. destruct m as [a|x]; cbn; [done|]. intros [= ->]. by apply Hm. Qed.

Lemma canonical_rmapM {A B : Type} (f : A -> result B) l : (forall x, x ∈ l -> canonical (f x)) -> canonical (rmapM f l).
Proof.
  induction l as [|x l IH]; intros H; [done|]. cbn [rmapM]. apply canonical_bind; [apply H; by left|]. intros ? _.
  apply canonical_bind; [|done]. apply IH. intros y Hy. apply H. by right.
Qed.

Lemma canonical_prefixed e d : is_canonicalization_error e = true -> canonical (len_prefixed e d).
Proof. intros He x. unfold len_prefixed. destruct (u32_max <? len d); [|done]. by intros [= <-]. Qed.

Lemma canonical_counted {A : Type} (enc : A -> result bytes) l : (forall x, x ∈ l -> canonical (enc x)) -> canonical (counted enc l).
Proof.
  intros H. unfold counted. destruct (u32_max <? _); [by intros e [= <-]|]. apply canonical_bind; [by apply canonical_rmapM|done].
Qed.

Definition in_u32 (s : ExecutionStep) : Prop := 0 <= s.(sequence) <= u32_max.

Lemma canonical_step s : in_u32 s -> canonical (_canonical_step_bytes s).
Proof.
  unfold in_u32. intros Hs. unfold _canonical_step_bytes, to_bytes4.
  rewrite (proj2 (Z.ltb_ge (sequence s) 0)), (proj2 (Z.ltb_ge u32_max (sequence s))) by lia. cbn [orb rbind].
  apply canonical_bind; [by apply canonical_prefixed|intros ? _]. apply canonical_bind; [by apply canonical_prefixed|intros ? _].
  apply canonical_bind; [apply canonical_counted; intros; by apply canonical_prefixed|intros ? _].
  apply canonical_bind; [apply canonical_counted; intros k _|done]. unfold snapshot_entry.
  destruct (state_snapshot s !! k); [|by intros e [= <-]]. apply canonical_bind; [by apply canonical_prefixed|intros ? _].
  apply canonical_bind; [by apply canonical_prefixed|done].
Qed.

Lemma canonical_signals m : canonical (signals_input m).
Proof.
  unfold signals_input. apply canonical_bind; [|done]. apply canonical_rmapM. intros k _. unfold signal_entry.
  destruct (m !! k) as [sv|]; [|by intros e [= <-]]. unfold _update_hasher_with_signal.
  apply canonical_bind; [by apply canonical_prefixed|intros ? _]. apply canonical_bind; [by apply canonical_prefixed|intros ? _].
  destruct (sv_value sv) as [p|]; [|by intros e [= <-]]. apply canonical_bind; [|done].
  destruct p; cbn [payload_bytes]; try done; by apply canonical_rmap, canonical_prefixed.
Qed.

Lemma trace_root_32 t td : _calculate_trace_root t = Ok td -> length td = 32%nat.
Proof.
  intros H. destruct (decide (t = [])) as [->|Hne]; [by apply Ok_inj in H as <-|].
  destruct (trace_tree (trace_inputs t) t td ltac:(done) Hne H) as (ls & _ & _ & Ht & Hl).
  destruct (tree_value _ _ _ Ht Hl) as (x & _ & ->). apply digest_32.
Qed.

Lemma canonical_trace t : Forall in_u32 t -> canonical (_calculate_trace_root t).
Proof.
  intros Ht. destruct (decide (t = [])) as [->|Hne]; [done|].
  assert (_calculate_trace_root t = (let! leaves := rmapM _leaf_digest t in merkle_root_rs_sha256 leaves)) as -> by (by destruct t).
  apply canonical_bind.
  - apply canonical_rmapM. intros s Hs. apply canonical_rmap, canonical_rmap, canonical_step. by eapply Forall_forall.
  - intros leaves Hl. apply leaf_digests in Hl as (ls & Hls & ->). pose proof (leaf_inputs_spec _ _ Hls) as Hf.
    destruct (root_is_top (map digest ls)) as (r & _ & ->); [by destruct Hf|apply Forall_map, Forall_forall; intros; apply digest_32|done].
Qed.

Lemma canonical_recomputed m e : Forall in_u32 m.(trace) -> canonical (recomputed m e).
Proof.
  intros Ht. unfold recomputed. apply canonical_bind; [apply canonical_rmap, canonical_signals|]. intros sd Hs.
  apply canonical_bind; [by apply canonical_trace|]. intros td Htd. apply canonical_rmap. unfold super_block.
  apply rmap_Ok in Hs as (x & _ & ->). unfold len. rewrite digest_32, (trace_root_32 _ _ Htd). change (Z.of_nat 32 =? 32) with true. cbn [negb orb].
  apply canonical_bind; [by apply canonical_prefixed|intros ? _]. apply canonical_bind; [by apply canonical_prefixed|done].
Qed.

Section accepted.
Context (parse : bytes -> option EvidenceManifest) (ed25519ph : bytes -> bytes -> bytes -> bool).
Local Abbreviation verify := (verify_manifest_integrity parse ed25519ph).

(** What an accepted manifest has. *)
Definition sealed (m : EvidenceManifest) (e : EngineMetadata) (public_key : bytes) : Prop :=
  m.(engine) = Some e /\ is_Some m.(merkle_proof) /\ len m.(signature) = 64 /\ recomputed m e = Ok m.(merkle_root)
  /\ ed25519ph m.(merkle_root) m.(signature) public_key = true.

Lemma recomputed_32 m e r : recomputed m e = Ok r -> length r = 32%nat.
Proof. intros H. apply recomputed_parts in H as (_ & _ & b & _ & _ & _ & -> & _). apply digest_32. Qed.

Lemma verify_accepts m pk : len pk = 32 -> verify_manifest ed25519ph m pk = Ok verified <-> exists e, sealed m e pk.
Proof.
  intros Hpk. unfold verify_manifest, sealed, manifest_has_merkle_proof_field. destruct (engine m) as [e|] eqn:He; [|split; [done|by intros (e & ? & _)]].
  split.
  - destruct (len (merkle_root m) =? 32) eqn:Er; cbn [andb negb orb]; [|done]. destruct (len (signature m) =? 64) eqn:Es; cbn [andb negb orb]; [|done].
    destruct (merkle_proof m) eqn:Ep; cbn [negb]; [|done]. destruct (recomputed m e) as [r|x] eqn:E; [|by destruct (is_canonicalization_error x)].
    destruct (decide (r = merkle_root m)) as [->|Hne]; [|by rewrite bool_decide_eq_false_2]. rewrite bool_decide_eq_true_2 by done. cbn [negb].
    unfold _verify_ed25519ph_prehashed_root. rewrite Hpk, Er, Es. cbn [andb]. change (32 =? 32) with true. cbn [andb].
    destruct (ed25519ph _ _ _) eqn:Eed; [|done]. intros _. exists e. split; [done|]. split; [by eexists|]. split; [lia|done].
  - intros (e' & [= <-] & [p Hp] & Hs & Hr & Hed). pose proof (recomputed_32 _ _ _ Hr) as H32.
    assert (Er : len (merkle_root m) = 32) by (unfold len; lia). rewrite Hp, Hr, Hs, Er. change (32 =? 32) with true. change (64 =? 64) with true. cbn [andb negb orb].
    rewrite bool_decide_eq_true_2 by done. cbn [negb]. unfold _verify_ed25519ph_prehashed_root. by rewrite Hpk, Hs, Er, Hed.
Qed.

Lemma verified_manifest raw pk : verify raw pk = Ok verified -> exists m e, parse raw = Some m /\ sealed m e pk.
Proof.
  unfold verify_manifest_integrity. destruct (len pk =? 32) eqn:Hpk; [|done]. cbn [negb]. destruct (parse raw) as [m|]; [|done].
  intros H. apply verify_accepts in H as [e He]; [|lia]. by exists m, e.
Qed.

(** What is hashed for a manifest. *)
Definition manifest_inputs (m : EvidenceManifest) : list bytes := match m.(engine) with Some e => hashed m e | None => [] end.

(** C6: the seal binds what it covers.  Two accepted manifests with the same
    root have the same id, engine revision, signals and trace, the order of the
    operands of a step aside; or a collision of SHA-256, or a digest that is all
    zero or spells the tag of a leaf, is found among the inputs hashed for the
    two manifests.  Encodings are injective, leaves cannot pass for nodes, and
    traces of different lengths have different trees. *)
Theorem seal_binds raw1 raw2 pk1 pk2 m1 m2 :
  verify raw1 pk1 = Ok verified -> verify raw2 pk2 = Ok verified ->
  parse raw1 = Some m1 -> parse raw2 = Some m2 -> m1.(merkle_root) = m2.(merkle_root) ->
  same_content m1 m2 \/ seal_broken (manifest_inputs m1) (manifest_inputs m2).
Proof.
  intros H1 H2 P1 P2 E. apply verified_manifest in H1 as (m1' & e1 & P1' & He1 & _ & _ & R1 & _).
  apply verified_manifest in H2 as (m2' & e2 & P2' & He2 & _ & _ & R2 & _).
  assert (m1' = m1) as -> by (rewrite P1 in P1'; by injection P1'). assert (m2' = m2) as -> by (rewrite P2 in P2'; by injection P2').
  rewrite <- E in R2. unfold manifest_inputs. rewrite He1, He2. exact (root_binds _ _ _ _ _ He1 He2 R1 R2).
Qed.

(** Verification is exact and total.  For manifests whose step numbers fit
    32 bits, as the decoder makes them, it never raises; it accepts exactly the
    decodable manifests with an engine, a proof field, a 64-byte signature, a root
    that is recomputed from the content and a signature of that root. *)
Theorem verification_exact raw pk :
  (forall m, parse raw = Some m -> Forall in_u32 m.(trace)) ->
  exists v, verify raw pk = Ok v /\ (v.(failure_reason) = None <-> v.(status) = true)
    /\ (v.(status) = true <-> len pk = 32 /\ exists m e, parse raw = Some m /\ sealed m e pk).
Proof.
  intros Hseq. assert (Hv : exists v, verify raw pk = Ok v /\ (v = verified \/ exists r, v = failed r)).
  { unfold verify_manifest_integrity. destruct (negb _); [by eauto|]. destruct (parse raw) as [m|]; [|by eauto]. specialize (Hseq m eq_refl).
    unfold verify_manifest. destruct (engine m) as [e|]; [|by eauto]. destruct (_ && _); [by eauto|]. destruct (_ || _); [by eauto|].
    pose proof (canonical_recomputed m e Hseq) as Hc. destruct (recomputed m e) as [r|x]; [|rewrite (Hc x eq_refl); by eauto].
    destruct (negb _); [by eauto|]. destruct (_verify_ed25519ph_prehashed_root _ _ _ _); by eauto. }
  destruct Hv as (v & Hv & Hcases). exists v. split; [done|]. split; [destruct Hcases as [->|[r ->]]; done|]. split.
  - intros Hs. assert (v = verified) as -> by (destruct Hcases as [->|[r ->]]; done). pose proof (verified_manifest _ _ Hv) as Hm. split; [|done].
    unfold verify_manifest_integrity in Hv. destruct (len pk =? 32) eqn:E; [lia|done].
  - intros (Hpk & m & e & Hp & Hm). unfold verify_manifest_integrity in Hv. rewrite Hpk, Hp in Hv. cbn [negb] in Hv. change (32 =? 32) with true in Hv.
    cbn [negb] in Hv. rewrite (proj2 (verify_accepts m pk Hpk) (ex_intro _ e Hm)) in Hv. by apply Ok_inj in Hv as <-.
Qed.

(** Manifests that agree on what the verifier looks at. *)
Definition same_sealed_fields (m1 m2 : EvidenceManifest) : Prop :=
  m1.(manifest_id) = m2.(manifest_id) /\ git_hash <$> m1.(engine) = git_hash <$> m2.(engine) /\ m1.(signals) = m2.(signals)
  /\ m1.(trace) = m2.(trace) /\ m1.(merkle_root) = m2.(merkle_root) /\ m1.(signature) = m2.(signature)
  /\ (is_Some m1.(merkle_proof) <-> is_Some m2.(merkle_proof)).

(** C40: The outcome is not sealed.  Manifests that differ in the verdict, the
    time, the release and environment of the engine or the bytes of the proof are
    verified alike, so that a sealed denial can be turned into an approval. *)
Theorem verdict_unsealed raw1 raw2 pk m1 m2 :
  parse raw1 = Some m1 -> parse raw2 = Some m2 -> same_sealed_fields m1 m2 -> verify raw1 pk = verify raw2 pk.
Proof.
  intros P1 P2 (Hid & He & Hsig & Ht & Hr & Hs & Hp). unfold verify_manifest_integrity. destruct (negb _); [done|]. rewrite P1, P2.
  unfold verify_manifest, manifest_has_merkle_proof_field, recomputed.
  assert ((match merkle_proof m1 with Some _ => true | None => false end) = (match merkle_proof m2 with Some _ => true | None => false end)) as ->.
  { destruct (merkle_proof m1), (merkle_proof m2); try done; destruct Hp as [Ha Hb]; [destruct (Ha ltac:(by eexists))|destruct (Hb ltac:(by eexists))]; done. }
  rewrite Hid, Hsig, Ht, Hr, Hs. destruct (engine m1) as [e1|], (engine m2) as [e2|]; try done. cbn in He. injection He as ->. done.
Qed.
End accepted.

(** * Examples *)

Definition demo_engine : EngineMetadata := Engine "1.0" "abc123" "prod" "pod-1".
Definition demo_step (n : Z) (operands : list string) : ExecutionStep :=
  Step n "amount_rule" "GT" operands true {["amount" := "120"]}.
Definition demo_double : double := Double x40 x5e x00 x00 x00 x00 x00 x00.

(** A manifest with the root of its content. *)
Definition demo_manifest (operands : list string) (action : string) : EvidenceManifest :=
  let unsealed := Manifest "m-1" 1 (Some demo_engine)
    {["amount" := Signal "event" (Some (num_val demo_double)); "country" := Signal "event" (Some (str_val "IN"))]}
    [demo_step 0 operands; demo_step 1 []; demo_step 2 []] (Some (MkVerdict action demo_double [] 5)) [] (replicate 64 x07) (Some []) in
  Manifest unsealed.(manifest_id) 1 unsealed.(engine) unsealed.(signals) unsealed.(trace) unsealed.(verdict)
    (match recomputed unsealed demo_engine with Ok r => r | Err _ => [] end) unsealed.(signature) unsealed.(merkle_proof).

(** A decoder of three files and a key that accepts every signature. *)
Definition demo_parse (raw : bytes) : option EvidenceManifest :=
  match raw with
  | [x00] => Some (demo_manifest ["a"; "b"] "deny")
  | [x01] => Some (demo_manifest ["b"; "a"] "deny")
  | [x02] => Some (demo_manifest ["a"; "b"] "allow")
  | _ => None
  end.
Definition demo_ed25519 (root sig pk : bytes) : bool := true.
Definition demo_key : bytes := replicate 32 x01.

Lemma seal_binds_witness :
  same_content (demo_manifest ["a"; "b"] "deny") (demo_manifest ["b"; "a"] "deny")
  \/ seal_broken (manifest_inputs (demo_manifest ["a"; "b"] "deny")) (manifest_inputs (demo_manifest ["b"; "a"] "deny")).
Proof.
  refine (seal_binds demo_parse demo_ed25519 [x00] [x01] demo_key demo_key _ _ _ _ eq_refl eq_refl _); vm_compute; reflexivity.
Defined.

Lemma verification_exact_witness :
  exists v, verify_manifest_integrity demo_parse demo_ed25519 [x00] demo_key = Ok v /\ v.(status) = true.
Proof.
  destruct (verification_exact demo_parse demo_ed25519 [x00] demo_key) as (v & Hv & _).
  - intros m H. injection H as <-. repeat constructor; vm_compute; discriminate.
  - exists v. split; [exact Hv|].
    assert (E : verify_manifest_integrity demo_parse demo_ed25519 [x00] demo_key = Ok verified) by (vm_compute; reflexivity).
    rewrite E in Hv. apply Ok_inj in Hv as <-. reflexivity.
Defined.

Lemma verdict_unsealed_witness :
  verify_manifest_integrity demo_parse demo_ed25519 [x00] demo_key = verify_manifest_integrity demo_parse demo_ed25519 [x02] demo_key
  /\ verify_manifest_integrity demo_parse demo_ed25519 [x02] demo_key = Ok verified.
Proof.
  split; [|vm_compute; reflexivity].
  refine (verdict_unsealed demo_parse demo_ed25519 [x00] [x02] demo_key _ _ eq_refl eq_refl _).
  repeat split; vm_compute; reflexivity || (intros; by eexists).
Defined.
