(* ===== verification/TagStore.v ===== *)
(** The tag store of the decision service: [decision_api/redis_store.py] without
    its consortium part, over the key-value caches of [tarka_core/cache.py].

    Redis and the process-local cache are two instances of one interface, a map of
    texts whose entries have a lifetime.  A stored text is its JSON value, the text
    of a float, or any other text.  EVALSHA can be answered, miss its script, time
    out or fail, before or after the server ran it; the other commands are answered.
    The process has one cache, the [kv_fallback] of every [connect]. *)

From Stdlib Require Import ZArith Lia Ascii String Bool SpecFloat.
From stdpp Require Import base option list sorting strings gmap.
From S2P Require Import Prelude PyFloat PyValue EntityLists.
Local Open Scope Z_scope.

(** * Stored texts *)

Inductive blob : Type :=
| Json (v : pyval)
| FloatText (f : float)
| OtherText (s : string).

Definition JSONDecodeError : pyexn := OtherError "JSONDecodeError".
Definition ConnectionError : pyexn := OtherError "ConnectionError".
Definition RedisError : pyexn := OtherError "RedisError".

(** [json.loads(raw)]. *)
Definition loads (b : blob) : result pyval :=
  match b with
  | Json v => Ok v
  | FloatText f => if is_nan f || is_inf f then Err JSONDecodeError else Ok (PFloat f)
  | OtherText _ => Err JSONDecodeError
  end.

(** [float(raw)]. *)
Definition float_of_text (b : blob) : result float :=
  match b with
  | Json v => f_of_string (json_dumps (DumpOpts false false true) v)
  | FloatText f => Ok f
  | OtherText s => f_of_string s
  end.

(** [json.loads(json.dumps(v, sort_keys=True))]. *)
Definition entry_le (a b : string * pyval) : Prop := String.le a.1 b.1.
#[export] Instance entry_le_dec : RelDecision entry_le.
Proof. intros a b. unfold entry_le. apply _. Defined.

Fixpoint json_sorted (v : pyval) : pyval :=
  match v with
  | PList l => PList (map json_sorted l)
  | PDict d => PDict (merge_sort entry_le (map (fun kv => (kv.1, json_sorted kv.2)) d))
  | _ => v
  end.

(** The truth of what was read. *)
Definition raw_truthy (raw : option blob) : bool :=
  match raw with Some (OtherText s) => nonempty s | Some _ => true | None => false end.

(** * Caches *)

(** [KeyValueCache]: a read may drop an entry that has expired. *)
Class KeyValueCache (T K : Type) : Type := {
  kv_get : T -> string -> K -> K * option blob;
  kv_set : T -> string -> blob -> option Z -> K -> K;
  kv_delete : string -> K -> K }.

(** ** In the process *)

Abbreviation local_cache := (gmap string (option float * blob)).

Definition local_get (now : float) (key : string) (s : local_cache) : local_cache * option blob :=
  match s !! key with
  | None => (s, None)
  | Some (exp, val) =>
      match exp with
      | Some e => if fleb e now then (delete key s, None) else (s, Some val)
      | None => (s, Some val)
      end
  end.

(** When an entry set now expires. *)
Definition expiry (now : float) (ttl_seconds : option Z) : option float :=
  match ttl_seconds with
  | Some ttl => if 0 <? ttl then Some (fadd now (litZ ttl)) else None
  | None => None
  end.

Definition local_set (now : float) (key : string) (value : blob) (ttl_seconds : option Z) (s : local_cache) : local_cache :=
  <[key := (expiry now ttl_seconds, value)]> s.

Definition local_delete (key : string) (s : local_cache) : local_cache := delete key s.

#[export] Instance LocalDictCache : KeyValueCache float local_cache := {
  kv_get := local_get; kv_set := local_set; kv_delete := local_delete }.

(** * The store *)

Definition TAG_PREFIX : string := "fraud:tags:".
Definition SCORE_PREFIX : string := "fraud:score:".
Definition NONCE_PREFIX : string := "fraud:nonce:".
Definition REPLAY_PREFIX : string := "fraud:replay:".
Definition TENANT_FLAGS_PREFIX : string := "fraud:tenant_flags:".

Record store_settings : Type := StoreSettings { tags_ttl : Z; score_ttl : Z; strict_consistency : bool }.

(** What EVALSHA comes to; [applied] tells whether the server ran the script. *)
Inductive eval_outcome : Type :=
| Answered
| NoScript
| TimedOut (applied : bool)
| RedisFailed (applied : bool).

Section store.
Context {TR R TK K : Type} `{!KeyValueCache TR R, !KeyValueCache TK K}.

(** The clocks of the server and of the process, whether SCRIPT LOAD is answered,
    and the outcomes of the two attempts of a merge. *)
Record moment : Type := At { at_server : TR; at_local : TK; at_loads : bool; at_eval : bool -> eval_outcome }.

Record tag_store : Type := TagStore {
  ts_url : string; ts_client : bool; ts_merge_sha : bool; ts_redis : R; ts_kv : bool; ts_degraded : bool; ts_cache : K }.

Definition with_redis (r : R) (s : tag_store) : tag_store :=
  TagStore s.(ts_url) s.(ts_client) s.(ts_merge_sha) r s.(ts_kv) s.(ts_degraded) s.(ts_cache).
Definition with_cache (c : K) (s : tag_store) : tag_store :=
  TagStore s.(ts_url) s.(ts_client) s.(ts_merge_sha) s.(ts_redis) s.(ts_kv) s.(ts_degraded) c.

Definition is_tag_store_available (s : tag_store) : bool := s.(ts_client) || s.(ts_kv).

(** The client is set before its script is loaded. *)
Definition connect (kv_fallback : bool) (w : moment) (s : tag_store) : tag_store * result unit :=
  let degraded := kv_fallback || s.(ts_degraded) in
  let s := TagStore s.(ts_url) s.(ts_client) s.(ts_merge_sha) s.(ts_redis) s.(ts_kv) degraded s.(ts_cache) in
  if is_tag_store_available s then (s, Ok tt)
  else if nonempty (strip s.(ts_url)) then
    (TagStore s.(ts_url) true w.(at_loads) s.(ts_redis) false degraded s.(ts_cache), if w.(at_loads) then Ok tt else Err ConnectionError)
  else (TagStore s.(ts_url) false s.(ts_merge_sha) s.(ts_redis) kv_fallback degraded s.(ts_cache), Ok tt).

Definition close (s : tag_store) : tag_store := TagStore s.(ts_url) false false s.(ts_redis) false false s.(ts_cache).

(** [await self.connect()] at the head of an operation. *)
Definition when_connected {A : Type} (w : moment) (s : tag_store) (k : tag_store -> tag_store * result A) : tag_store * result A :=
  match connect false w s with (s', Err e) => (s', Err e) | (s', Ok _) => k s' end.

(** A read from Redis, or else from the cache; [None] without either. *)
Definition read_raw (w : moment) (key : string) (s : tag_store) : tag_store * option (option blob) :=
  if s.(ts_client) then let '(r, v) := kv_get w.(at_server) key s.(ts_redis) in (with_redis r s, Some v)
  else if s.(ts_kv) then let '(c, v) := kv_get w.(at_local) key s.(ts_cache) in (with_cache c s, Some v)
  else (s, None).

(** SETEX refuses a lifetime that is not positive; the cache keeps such an entry for ever. *)
Definition setex (w : moment) (key : string) (ttl : Z) (v : blob) (s : tag_store) : tag_store * result unit :=
  if ttl <=? 0 then (s, Err RedisError) else (with_redis (kv_set w.(at_server) key v (Some ttl) s.(ts_redis)) s, Ok tt).

Definition write_raw (w : moment) (key : string) (ttl : Z) (v : blob) (s : tag_store) : tag_store * result unit :=
  if s.(ts_client) then setex w key ttl v s
  else if s.(ts_kv) then (with_cache (kv_set w.(at_local) key v (Some ttl) s.(ts_cache)) s, Ok tt)
  else (s, Ok tt).

(** ** Tags *)

Definition _key_tags (tenant_id entity_id : string) : string := TAG_PREFIX +:+ tenant_id +:+ ":" +:+ entity_id.
Definition _key_score (tenant_id entity_id : string) : string := SCORE_PREFIX +:+ tenant_id +:+ ":" +:+ entity_id.

(** The stored tags: a document that is not a list is none. *)
Definition stored_tags (raw : option blob) : result (list pyval) :=
  match raw with
  | Some b => if raw_truthy raw then let! data := loads b in Ok (as_list data) else Ok []
  | None => Ok []
  end.

Definition get_tags (w : moment) (tenant_id entity_id : string) (s : tag_store) : tag_store * result (list pyval) :=
  when_connected w s (fun s =>
    let '(s', raw) := read_raw w (_key_tags tenant_id entity_id) s in
    (s', match raw with Some raw => stored_tags raw | None => Ok [] end)).

Context (cfg : store_settings).

Definition set_tags (w : moment) (tenant_id entity_id : string) (tags : list string) (s : tag_store) : tag_store * result unit :=
  when_connected w s (write_raw w (_key_tags tenant_id entity_id) cfg.(tags_ttl) (Json (str_list (merge_sort String.le tags)))).

Definition all_strings (l : list pyval) : option (list string) :=
  mapM (fun v => match v with PStr s => Some s | _ => None end) l.

(** What [cjson.decode] and [ipairs] make of the stored text; sorting a set with
    anything but strings in it raises. *)
Definition lua_tags (raw : option blob) : option (list string) :=
  match raw with
  | None => Some []
  | Some (Json (PList l)) => all_strings l
  | Some (Json (PDict _)) => Some []
  | Some _ => None
  end.

(** The script [MERGE_TAGS_LUA], which the server runs as one command. *)
Definition merge_tags_lua (now : TR) (key : string) (new_tags : list string) (r : R) : R * option (list string) :=
  let '(r, existing) := kv_get now key r in
  match lua_tags existing with
  | None => (r, None)
  | Some old =>
      let result := sorted_set (old ++ new_tags) in
      if cfg.(tags_ttl) <=? 0 then (r, None)
      else (kv_set now key (Json (str_list result)) (Some cfg.(tags_ttl)) r, Some result)
  end.

Inductive merge_end : Type :=
| Merged (tags : list string)
| MergeTimeout
| MergeError
| ScriptMissing.

Definition evalsha (w : moment) (attempt : bool) (key : string) (new_tags : list string) (s : tag_store) : tag_store * merge_end :=
  let '(r, out) := merge_tags_lua w.(at_server) key new_tags s.(ts_redis) in
  match w.(at_eval) attempt with
  | Answered => (with_redis r s, match out with Some tags => Merged tags | None => MergeError end)
  | NoScript => (s, ScriptMissing)
  | TimedOut applied => (if applied then with_redis r s else s, MergeTimeout)
  | RedisFailed applied => (if applied then with_redis r s else s, MergeError)
  end.

(** Two attempts, the second one after the script was loaded again. *)
Definition eval_merge (w : moment) (key : string) (new_tags : list string) (s : tag_store) : tag_store * merge_end :=
  match evalsha w false key new_tags s with
  | (s', ScriptMissing) =>
      if w.(at_loads) then
        match evalsha w true key new_tags s' with
        | (s'', ScriptMissing) => (s'', MergeError)
        | second => second
        end
      else (s', MergeError)
  | first => first
  end.

Definition _redis_merge_failover_to_kv_reserve (s : tag_store) : tag_store :=
  TagStore s.(ts_url) false false s.(ts_redis) (s.(ts_degraded) || s.(ts_kv)) s.(ts_degraded) s.(ts_cache).

(** The tags a merge finds in the cache; a text that is not JSON counts as none. *)
Definition cached_tags (raw : option blob) : list string :=
  match raw with
  | Some b => if raw_truthy raw then match loads b with Ok data => map py_str (as_list data) | Err _ => [] end else []
  | None => []
  end.

Definition _merge_tags_via_kv_store (w : moment) (key : string) (new_tags : list string) (s : tag_store) : tag_store * list string :=
  let '(c, raw) := kv_get w.(at_local) key s.(ts_cache) in
  let merged_sorted := sorted_set (cached_tags raw ++ new_tags) in
  (with_cache (kv_set w.(at_local) key (Json (str_list merged_sorted)) (Some cfg.(tags_ttl)) c) s, merged_sorted).

(** The merge without Redis. *)
Definition merge_in_cache (w : moment) (key : string) (new_tags : list string) (s : tag_store) : tag_store * result (list pyval) :=
  if s.(ts_kv) then let '(s', tags) := _merge_tags_via_kv_store w key new_tags s in (s', Ok (map PStr tags))
  else (s, Err ConnectionError).

Definition merge_tags (w : moment) (tenant_id entity_id : string) (new_tags : list string) (s : tag_store)
    : tag_store * result (list pyval) :=
  when_connected w s (fun s =>
    let key := _key_tags tenant_id entity_id in
    match new_tags with
    | [] => get_tags w tenant_id entity_id s
    | _ =>
        if s.(ts_client) && s.(ts_merge_sha) then
          match eval_merge w key new_tags s with
          | (s', Merged tags) => (s', Ok (map PStr tags))
          | (s', _) =>
              if cfg.(strict_consistency) then (s', Err ConnectionError)
              else if negb s'.(ts_degraded) then (s', Err ConnectionError)
              else merge_in_cache w key new_tags (_redis_merge_failover_to_kv_reserve s')
          end
        else if cfg.(strict_consistency) then (s, Err ConnectionError)
        else merge_in_cache w key new_tags s
    end).

(** ** Cached scores *)

Definition get_cached_score (w : moment) (tenant_id entity_id : string) (s : tag_store) : tag_store * result (option float) :=
  when_connected w s (fun s =>
    let '(s', raw) := read_raw w (_key_score tenant_id entity_id) s in
    (s', match raw with
         | Some (Some b) => Ok (match float_of_text b with Ok f => Some f | Err _ => None end)
         | _ => Ok None
         end)).

Definition set_cached_score (w : moment) (tenant_id entity_id : string) (score : float) (s : tag_store) : tag_store * result unit :=
  when_connected w s (write_raw w (_key_score tenant_id entity_id) cfg.(score_ttl) (FloatText score)).

(** ** Nonces *)

Definition nonce_key (nonce : string) : string := NONCE_PREFIX +:+ nonce.

Definition store_nonce (w : moment) (nonce : string) (ttl : Z) (s : tag_store) : tag_store * result unit :=
  when_connected w s (write_raw w (nonce_key nonce) ttl (Json (PInt 1))).

(** GETDEL. *)
Definition getdel (now : TR) (key : string) (r : R) : R * option blob :=
  let '(r, v) := kv_get now key r in (match v with Some _ => kv_delete key r | None => r end, v).

(** The read and the delete under the file lock. *)
Definition nonce_read (now : TK) (nonce : string) (c : K) : K * bool :=
  let '(c, v) := kv_get now (nonce_key nonce) c in (c, raw_truthy v).

Definition consume_nonce (w : moment) (nonce : string) (s : tag_store) : tag_store * result bool :=
  when_connected w s (fun s =>
    if s.(ts_client) then
      let '(r, v) := getdel w.(at_server) (nonce_key nonce) s.(ts_redis) in
      (with_redis r s, Ok (match v with Some _ => true | None => false end))
    else if cfg.(strict_consistency) then (s, Err ConnectionError)
    else if negb s.(ts_kv) then (s, Err ConnectionError)
    else
      let '(c, found) := nonce_read w.(at_local) nonce s.(ts_cache) in
      if found then (with_cache (kv_delete (nonce_key nonce) c) s, Ok true) else (with_cache c s, Ok false)).

(** ** Tenant flags *)

Definition flags_key (tenant_id : string) : string := TENANT_FLAGS_PREFIX +:+ tenant_id.

Definition flags_of (raw : option blob) : dict :=
  match raw with
  | Some b => if raw_truthy raw then match loads b with Ok (PDict d) => d | _ => [] end else []
  | None => []
  end.

Definition get_tenant_flags (w : moment) (tenant_id : string) (s : tag_store) : tag_store * result dict :=
  when_connected w s (fun s =>
    let '(s', raw) := read_raw w (flags_key tenant_id) s in
    (s', Ok (match raw with Some raw => flags_of raw | None => [] end))).

Definition set_tenant_flags (w : moment) (tenant_id : string) (flags : dict) (s : tag_store) : tag_store * result dict :=
  when_connected w s (fun s =>
    let blob := Json (json_sorted (PDict flags)) in
    (if s.(ts_client) then with_redis (kv_set w.(at_server) (flags_key tenant_id) blob None s.(ts_redis)) s
     else if s.(ts_kv) then with_cache (kv_set w.(at_local) (flags_key tenant_id) blob None s.(ts_cache)) s
     else s, Ok flags)).

(** [cur.pop(k, None)] for [None], [cur[k] = v] otherwise. *)
Definition patch_flags (cur updates : dict) : dict :=
  foldl (fun d kv => match kv.2 with PNone => List.filter (fun x => negb (bool_decide (x.1 = kv.1))) d | v => dict_set kv.1 v d end)
    cur updates.

Definition patch_tenant_flags (w : moment) (tenant_id : string) (updates : dict) (s : tag_store) : tag_store * result dict :=
  match get_tenant_flags w tenant_id s with
  | (s', Ok cur) => set_tenant_flags w tenant_id (patch_flags cur updates) s'
  | (s', Err e) => (s', Err e)
  end.

(** ** Replayed requests *)

Definition replay_key (tenant_id signature : string) : string := REPLAY_PREFIX +:+ tenant_id +:+ ":" +:+ signature.

(** SET with NX and EX; the cache path reads and writes under the store's lock. *)
Definition check_and_store_replay_signature (w : moment) (tenant_id signature : string) (ttl_seconds : Z) (s : tag_store)
    : tag_store * result bool :=
  when_connected w s (fun s =>
    let key := replay_key tenant_id signature in
    let ex := Z.max 1 ttl_seconds in
    if s.(ts_client) then
      match kv_get w.(at_server) key s.(ts_redis) with
      | (r, Some _) => (with_redis r s, Ok true)
      | (r, None) => (with_redis (kv_set w.(at_server) key (Json (PInt 1)) (Some ex) r) s, Ok false)
      end
    else if s.(ts_kv) then
      let '(c, v) := kv_get w.(at_local) key s.(ts_cache) in
      if raw_truthy v then (with_cache c s, Ok true)
      else (with_cache (kv_set w.(at_local) key (Json (PInt 1)) (Some ex) c) s, Ok false)
    else (s, Ok false)).
End store.

(** * What a cache promises *)

(** A cache seen at an instant; [kv_alive] tells whether an entry of a lifetime
    that was set at one instant is still there at another. *)
Class KeyValueLaws (T K : Type) `{KeyValueCache T K} : Type := {
  kv_le : T -> T -> Prop;
  kv_le_refl t : kv_le t t;
  kv_le_trans t t' t'' : kv_le t t' -> kv_le t' t'' -> kv_le t t'';
  kv_view : T -> string -> K -> option blob;
  kv_alive : T -> option Z -> T -> bool;
  kv_alive_sooner t ttl t' t'' : kv_le t' t'' -> kv_alive t ttl t'' = true -> kv_alive t ttl t' = true;
  kv_view_sooner t t' k s v : kv_le t t' -> kv_view t' k s = Some v -> kv_view t k s = Some v;
  kv_get_value t k s : (kv_get t k s).2 = kv_view t k s;
  kv_get_view t k s t' k' : kv_le t t' -> kv_view t' k' (kv_get t k s).1 = kv_view t' k' s;
  kv_set_view t k v ttl s t' k' : kv_le t t' ->
    kv_view t' k' (kv_set t k v ttl s)
    = if bool_decide (k' = k) then (if kv_alive t ttl t' then Some v else None) else kv_view t' k' s;
  kv_delete_view t k s k' : kv_view t k' (kv_delete k s) = if bool_decide (k' = k) then None else kv_view t k' s }.

(** ** The cache in the process *)

Definition local_le (t t' : float) : Prop := t = t' \/ fleb t t' = true.
Definition before (now : float) (exp : option float) : bool := match exp with Some e => negb (fleb e now) | None => true end.

Lemma before_sooner t t' exp : local_le t t' -> before t' exp = true -> before t exp = true.
Proof.
  intros [->|Hle]; [done|]. destruct exp as [e|]; [|done]. cbn. rewrite !negb_true_iff. intros H.
  destruct (fleb e t) eqn:E; [|done]. by rewrite (fleb_trans e t t') in H.
Qed.

Definition local_view (t : float) (k : string) (s : local_cache) : option blob :=
  match s !! k with Some (exp, v) => if before t exp then Some v else None | None => None end.

#[export] Program Instance LocalDictLaws : KeyValueLaws float local_cache := {
  kv_le := local_le;
  kv_view := local_view;
  kv_alive t ttl t' := before t' (expiry t ttl) }.
Next Obligation. intros. by left. Qed.
Next Obligation. intros t t' t'' [->|H] [->|H']; [by left|by right|by right|right; by eapply fleb_trans]. Qed.
Next Obligation. intros. by eapply before_sooner. Qed.
Next Obligation.
  intros t t' k s v Hle. unfold local_view. destruct (s !! k) as [[exp x]|]; [|done]. destruct (before t' exp) eqn:E; [|done].
  intros [= ->]. by rewrite (before_sooner t t').
Qed.
Next Obligation.
  intros t k s. cbn. unfold local_get, local_view, before. destruct (s !! k) as [[[e|] v]|]; [|done..]. by destruct (fleb e t).
Qed.
Next Obligation.
  intros t k s t' k' Hle. cbn. unfold local_get. destruct (s !! k) as [[[e|] v]|] eqn:Ek; [|done..].
  destruct (fleb e t) eqn:E; [|done]. cbn. unfold local_view. destruct (decide (k' = k)) as [->|Hk].
  - rewrite lookup_delete_eq, Ek. cbn. destruct (fleb e t') eqn:E'; [done|]. destruct Hle as [->|Hle]; [congruence|].
    by rewrite (fleb_trans e t t') in E'.
  - by rewrite lookup_delete_ne.
Qed.
Next Obligation.
  intros t k v ttl s t' k' Hle. cbn. unfold local_set, local_view. case_bool_decide as E.
  - subst k'. by rewrite lookup_insert_eq.
  - by rewrite lookup_insert_ne.
Qed.
Next Obligation.
  intros t k s k'. cbn. unfold local_delete, local_view. case_bool_decide as E; [subst k'; by rewrite lookup_delete_eq|by rewrite lookup_delete_ne].
Qed.

(** ** A Redis server, with a clock in milliseconds *)

Abbreviation redis_map := (gmap string (option Z * blob)).

Definition redis_row (now : Z) (k : string) (s : redis_map) : option blob :=
  match s !! k with
  | Some (Some e, v) => if e <=? now then None else Some v
  | Some (None, v) => Some v
  | None => None
  end.
Definition redis_expiry (now : Z) (ttl : option Z) : option Z := match ttl with Some n => Some (now + 1000 * n) | None => None end.

#[export] Instance RedisMap : KeyValueCache Z redis_map := {
  kv_get now k s := (s, redis_row now k s);
  kv_set now k v ttl s := <[k := (redis_expiry now ttl, v)]> s;
  kv_delete k s := delete k s }.

#[export] Program Instance RedisMapLaws : KeyValueLaws Z redis_map := {
  kv_le := Z.le;
  kv_view := redis_row;
  kv_alive t ttl t' := match redis_expiry t ttl with Some e => negb (e <=? t') | None => true end }.
Next Obligation. lia. Qed.
Next Obligation. lia. Qed.
Next Obligation. intros t [n|] t' t''; cbn; [|done]. rewrite !negb_true_iff, !Z.leb_gt. lia. Qed.
Next Obligation.
  intros t t' k s v Hle. unfold redis_row. destruct (s !! k) as [[[e|] x]|]; [|done..]. destruct (e <=? t') eqn:E; [done|].
  assert (e <=? t = false) as -> by (apply Z.leb_gt in E; apply Z.leb_gt; lia). done.
Qed.
Next Obligation. done. Qed.
Next Obligation. done. Qed.
Next Obligation.
  intros t k v ttl s t' k' Hle. cbn. unfold redis_row. case_bool_decide as E; [subst k'; rewrite lookup_insert_eq|by rewrite lookup_insert_ne].
  destruct ttl as [n|]; cbn; [|done]. by destruct (_ <=? t').
Qed.
Next Obligation.
  intros t k s k'. cbn. unfold redis_row. case_bool_decide as E; [subst k'; by rewrite lookup_delete_eq|by rewrite lookup_delete_ne].
Qed.

(** * Tags accumulate *)

Lemma sorted_set_ext l l' : (forall x, x ∈ l <-> x ∈ l') -> sorted_set l = sorted_set l'.
Proof.
  intros E. apply (Sorted_unique String.le); [apply sorted_set_sorted..|]. apply NoDup_Permutation; [apply sorted_set_NoDup..|].
  intros x. by rewrite !sorted_set_elem.
Qed.

Lemma all_strings_map l : all_strings (map PStr l) = Some l.
Proof. induction l as [|x l IH]; [done|]. unfold all_strings in *. cbn. by rewrite IH. Qed.

Section steady.
Context {TR R TK K : Type} `{!KeyValueCache TR R, !KeyValueCache TK K, !KeyValueLaws TR R, !KeyValueLaws TK K} (cfg : store_settings).

Abbreviation tag_store := (tag_store (R := R) (K := K)).
Abbreviation moment := (moment (TR := TR) (TK := TK)).
Implicit Types (s : tag_store) (w : moment).

(** A store that works: the script is loaded where Redis is used, and a cache
    that stands in for it is allowed to. *)
Definition steady s : Prop :=
  (s.(ts_client) = true /\ s.(ts_merge_sha) = true) \/ (s.(ts_client) = false /\ s.(ts_kv) = true /\ cfg.(strict_consistency) = false).

(** What the store in use holds under a key. *)
Definition active_view w (key : string) s : option blob :=
  if s.(ts_client) then kv_view w.(at_server) key s.(ts_redis) else kv_view w.(at_local) key s.(ts_cache).
Definition active_alive w (ttl : Z) w' s : bool :=
  if s.(ts_client) then kv_alive w.(at_server) (Some ttl) w'.(at_server) else kv_alive w.(at_local) (Some ttl) w'.(at_local).
Definition moment_le w w' : Prop := kv_le w.(at_server) w'.(at_server) /\ kv_le w.(at_local) w'.(at_local).

Lemma moment_le_refl w : moment_le w w.
Proof. split; apply kv_le_refl. Qed.
Lemma moment_le_trans w w' w'' : moment_le w w' -> moment_le w' w'' -> moment_le w w''.
Proof. intros [H1 H2] [H3 H4]. split; by eapply kv_le_trans. Qed.

(** The flags of a store, which the operations on a steady one keep. *)
Definition same_mode s s' : Prop :=
  s'.(ts_client) = s.(ts_client) /\ s'.(ts_merge_sha) = s.(ts_merge_sha) /\ s'.(ts_kv) = s.(ts_kv).

Lemma same_mode_steady s s' : same_mode s s' -> steady s -> steady s'.
Proof. intros (H1 & H2 & H3). unfold steady. by rewrite H1, H2, H3. Qed.

Lemma steady_available s : steady s -> is_tag_store_available s = true.
Proof. intros [[H _]|(_ & H & _)]; unfold is_tag_store_available; rewrite H; [done|apply orb_true_r]. Qed.

Lemma connected_steady {A : Type} w s (k : tag_store -> tag_store * result A) : is_tag_store_available s = true -> when_connected w s k = k s.
Proof. intros H. unfold when_connected, connect. destruct s as [u c m r kv d ca]. cbn in *. unfold is_tag_store_available in *. cbn in *. by rewrite H. Qed.

Lemma read_steady w key s s' raw : is_tag_store_available s = true -> read_raw w key s = (s', raw) ->
  raw = Some (active_view w key s) /\ same_mode s s'
  /\ forall w' key', moment_le w w' -> active_view w' key' s' = active_view w' key' s.
Proof.
  intros Ha. unfold read_raw, active_view, is_tag_store_available in *. destruct s as [u [|] m r kv d c]; cbn in *.
  - pose proof (kv_get_value w.(at_server) key r) as Hv. pose proof (fun t' k' => kv_get_view w.(at_server) key r t' k') as Hw.
    destruct (kv_get (at_server w) key r) as [r' v]. cbn in *. subst v. intros [= <- <-]. split; [done|]. split; [done|].
    intros w' key' [Hs _]. by apply Hw.
  - subst kv. pose proof (kv_get_value w.(at_local) key c) as Hv. pose proof (fun t' k' => kv_get_view w.(at_local) key c t' k') as Hw.
    destruct (kv_get (at_local w) key c) as [c' v]. cbn in *. subst v. intros [= <- <-]. split; [done|]. split; [done|].
    intros w' key' [_ Hl]. by apply Hw.
Qed.

(** What a key of tags holds: nothing, or the sorted tags. *)
Definition tags_blob (tags : list string) : option blob :=
  match tags with [] => None | _ => Some (Json (str_list (sorted_set tags))) end.

Lemma stored_tags_blob tags : stored_tags (tags_blob tags) = Ok (map PStr (sorted_set tags)).
Proof. by destruct tags. Qed.

Lemma get_tags_steady w t e s tags : steady s -> active_view w (_key_tags t e) s = tags_blob tags ->
  exists s', get_tags w t e s = (s', Ok (map PStr (sorted_set tags))) /\ same_mode s s'
    /\ forall w' key', moment_le w w' -> active_view w' key' s' = active_view w' key' s.
Proof.
  intros Hs Hv. unfold get_tags. rewrite connected_steady by (by apply steady_available).
  destruct (read_raw w (_key_tags t e) s) as [s' raw] eqn:E. apply read_steady in E as (-> & Hm & Hview); [|by apply steady_available].
  exists s'. rewrite Hv, stored_tags_blob. done.
Qed.

Lemma blob_union tags new : sorted_set (sorted_set tags ++ new) = sorted_set (tags ++ new).
Proof. apply sorted_set_ext. intros x. by rewrite !elem_of_app, sorted_set_elem. Qed.

Lemma lua_tags_blob tags : lua_tags (tags_blob tags) = Some (sorted_set tags).
Proof. destruct tags; [done|]. cbn. apply all_strings_map. Qed.

Lemma cached_tags_blob tags : cached_tags (tags_blob tags) = sorted_set tags.
Proof. destruct tags; [done|]. cbn [tags_blob cached_tags raw_truthy loads str_list as_list]. rewrite map_map. apply map_id. Qed.

Lemma blob_written tags new : new <> [] -> Some (Json (str_list (sorted_set (tags ++ new)))) = tags_blob (tags ++ new).
Proof. intros H. by destruct tags, new. Qed.

(** The server answers a merge, if need be after its script was loaded again. *)
Definition server_answers w : Prop :=
  w.(at_eval) false = Answered \/ (w.(at_eval) false = NoScript /\ w.(at_loads) = true /\ w.(at_eval) true = Answered).

Lemma eval_answered w key new s : server_answers w ->
  eval_merge cfg w key new s
  = (let '(r, out) := merge_tags_lua cfg w.(at_server) key new s.(ts_redis) in
     (with_redis r s, match out with Some tags => Merged tags | None => MergeError end)).
Proof.
  intros H. unfold eval_merge, evalsha. destruct (merge_tags_lua cfg (at_server w) key new (ts_redis s)) as [r out] eqn:E.
  destruct H as [H|(H1 & H2 & H3)]; [rewrite H; by destruct out|]. rewrite H1, H2, E, H3. by destruct out.
Qed.

(** A merge is the union, on the server as in the cache. *)
Lemma merge_steady w t e new s tags : steady s -> 0 < cfg.(tags_ttl) -> server_answers w -> new <> [] ->
  active_view w (_key_tags t e) s = tags_blob tags ->
  exists s', merge_tags cfg w t e new s = (s', Ok (map PStr (sorted_set (tags ++ new)))) /\ same_mode s s'
    /\ forall w' key', moment_le w w' ->
         active_view w' key' s' = if bool_decide (key' = _key_tags t e)
           then (if active_alive w cfg.(tags_ttl) w' s then tags_blob (tags ++ new) else None)
           else active_view w' key' s.
Proof.
  intros Hs Httl Hev Hnew Hv. unfold merge_tags. rewrite connected_steady by (by apply steady_available).
  rewrite <- (blob_written tags new Hnew). destruct new as [|x new]; [done|]. set (nw := x :: new) in *.
  destruct s as [u cl m r kv d c], Hs as [[Hc Hm]|(Hc & Hk & Hst)]; cbn in Hc; subst cl; cbn [ts_client ts_merge_sha andb].
  - cbn in Hm. subst m. rewrite eval_answered by done. unfold merge_tags_lua. cbn [ts_redis].
    pose proof (kv_get_value w.(at_server) (_key_tags t e) r) as Hg. pose proof (fun t' k' => kv_get_view w.(at_server) (_key_tags t e) r t' k') as Hw.
    destruct (kv_get (at_server w) (_key_tags t e) r) as [r' v]. cbn in Hv, Hg, Hw. rewrite Hv in Hg. subst v.
    rewrite lua_tags_blob, blob_union. assert (tags_ttl cfg <=? 0 = false) as -> by lia. eexists. split; [reflexivity|]. split; [done|].
    intros w' key' [Hle _]. unfold active_view, active_alive. cbn. rewrite kv_set_view by done. by rewrite Hw.
  - cbn in Hk. subst kv. rewrite Hst. cbn [andb]. unfold merge_in_cache, _merge_tags_via_kv_store. cbn [ts_kv ts_cache].
    pose proof (kv_get_value w.(at_local) (_key_tags t e) c) as Hg. pose proof (fun t' k' => kv_get_view w.(at_local) (_key_tags t e) c t' k') as Hw.
    destruct (kv_get (at_local w) (_key_tags t e) c) as [c' v]. cbn in Hv, Hg, Hw. rewrite Hv in Hg. subst v.
    rewrite cached_tags_blob, blob_union. eexists. split; [reflexivity|]. split; [done|].
    intros w' key' [_ Hle]. unfold active_view, active_alive. cbn. rewrite kv_set_view by done. by rewrite Hw.
Qed.

(** ** Histories of merges *)

Record merge_op : Type := MergeOp { mo_at : moment; mo_tenant : string; mo_entity : string; mo_new : list string }.

Fixpoint run_merges (ops : list merge_op) s : tag_store * list (result (list pyval)) :=
  match ops with
  | [] => (s, [])
  | op :: ops' =>
      let '(s', r) := merge_tags cfg op.(mo_at) op.(mo_tenant) op.(mo_entity) op.(mo_new) s in
      let '(s'', rs) := run_merges ops' s' in (s'', r :: rs)
  end.

(** The reference: per tenant and entity all tags ever given. *)
Definition tagging : Type := string -> string -> list string.
Definition tag_more (op : merge_op) (acc : tagging) : tagging :=
  fun t e => if bool_decide ((t, e) = (op.(mo_tenant), op.(mo_entity))) then acc t e ++ op.(mo_new) else acc t e.

Fixpoint all_tags (ops : list merge_op) (acc : tagging) : tagging * list (result (list pyval)) :=
  match ops with
  | [] => (acc, [])
  | op :: ops' =>
      let acc' := tag_more op acc in
      let '(acc'', rs) := all_tags ops' acc' in
      (acc'', Ok (map PStr (sorted_set (acc' op.(mo_tenant) op.(mo_entity)))) :: rs)
  end.

(** The moments of the merges follow each other up to [until]. *)
Fixpoint in_order (from : moment) (ops : list merge_op) (until : moment) : Prop :=
  match ops with
  | [] => moment_le from until
  | op :: ops' => moment_le from op.(mo_at) /\ in_order op.(mo_at) ops' until
  end.

Definition plain_tenant (t : string) : Prop := all_chars not_colon t = true.
Definition answered (op : merge_op) : Prop := server_answers op.(mo_at) /\ plain_tenant op.(mo_tenant).

Lemma key_tags_inj t e t' e' : plain_tenant t -> plain_tenant t' -> _key_tags t' e' = _key_tags t e -> (t', e') = (t, e).
Proof. intros Ht Ht' E. unfold _key_tags in E. cbn in E. injection E as E. by apply colon_split in E as [-> ->]. Qed.

(** The store holds the reference's tags as long as nothing written has expired. *)
Definition holds_tags (now until : moment) s (acc : tagging) : Prop :=
  forall w t e, moment_le now w -> moment_le w until -> plain_tenant t -> active_view w (_key_tags t e) s = tags_blob (acc t e).

Lemma in_order_le from ops until : in_order from ops until -> moment_le from until.
Proof. revert from. induction ops as [|op ops IH]; intros from; [done|]. intros [H1 H2%IH]. by eapply moment_le_trans. Qed.

Lemma alive_until w ttl w' until s : moment_le w' until -> active_alive w ttl until s = true -> active_alive w ttl w' s = true.
Proof. intros [H1 H2]. unfold active_alive. destruct (ts_client s); by apply kv_alive_sooner. Qed.

Lemma merge_step op from until s acc : steady s -> 0 < cfg.(tags_ttl) -> answered op -> moment_le from op.(mo_at) -> moment_le op.(mo_at) until ->
  active_alive op.(mo_at) cfg.(tags_ttl) until s = true -> holds_tags from until s acc ->
  exists s', merge_tags cfg op.(mo_at) op.(mo_tenant) op.(mo_entity) op.(mo_new) s
      = (s', Ok (map PStr (sorted_set (tag_more op acc op.(mo_tenant) op.(mo_entity)))))
    /\ same_mode s s' /\ holds_tags op.(mo_at) until s' (tag_more op acc).
Proof.
  intros Hs Httl [Hev Ht] Hfrom Huntil Hal Hh. destruct op as [w t e new]. cbn [mo_at mo_tenant mo_entity mo_new] in *.
  pose proof (Hh w t e Hfrom Huntil Ht) as Hv. unfold tag_more at 1. cbn [mo_tenant mo_entity mo_new]. rewrite bool_decide_eq_true_2 by done.
  destruct (decide (new = [])) as [->|Hnew].
  - destruct (get_tags_steady w t e s _ Hs Hv) as (s' & Hg & Hm & Hview). exists s'. rewrite app_nil_r. split; [|split; [done|]].
    + unfold merge_tags. by rewrite connected_steady by (by apply steady_available).
    + intros w' t' e' Hw Hw' Ht'. rewrite Hview by done. rewrite Hh by (done || by eapply moment_le_trans). unfold tag_more. cbn.
      case_bool_decide; by rewrite ?app_nil_r.
  - destruct (merge_steady w t e new s _ Hs Httl Hev Hnew Hv) as (s' & Hg & Hm & Hview). exists s'. split; [done|]. split; [done|].
    intros w' t' e' Hw Hw' Ht'. rewrite Hview by done. rewrite (alive_until _ _ _ _ _ Hw' Hal). unfold tag_more. cbn [mo_tenant mo_entity mo_new].
    destruct (decide ((t', e') = (t, e))) as [E|E].
    + injection E as -> ->. by rewrite !bool_decide_eq_true_2.
    + rewrite !bool_decide_eq_false_2; [|done|by intros ?%key_tags_inj]. rewrite Hh by (done || by eapply moment_le_trans). done.
Qed.

Lemma merges_hold ops from until s acc : steady s -> 0 < cfg.(tags_ttl) -> Forall answered ops -> in_order from ops until ->
  Forall (fun op => active_alive op.(mo_at) cfg.(tags_ttl) until s = true) ops -> holds_tags from until s acc ->
  (run_merges ops s).2 = (all_tags ops acc).2 /\ steady (run_merges ops s).1
  /\ holds_tags until until (run_merges ops s).1 (all_tags ops acc).1.
Proof.
  revert from s acc. induction ops as [|op ops IH]; intros from s acc Hs Httl Hans Hord Hal Hh.
  { cbn. split; [done|]. split; [done|]. intros w t e Hw Hw'. apply Hh; [|done]. by eapply moment_le_trans. }
  apply Forall_cons in Hans as [Ha Hans]. apply Forall_cons in Hal as [Hl Hal]. destruct Hord as [Hfrom Hord].
  destruct (merge_step op from until s acc Hs Httl Ha Hfrom (in_order_le _ _ _ Hord) Hl Hh) as (s' & E & Hm & Hh').
  assert (Hal' : Forall (fun op => active_alive op.(mo_at) cfg.(tags_ttl) until s' = true) ops).
  { eapply Forall_impl; [exact Hal|]. intros o. unfold active_alive. cbn. destruct Hm as (Hc & _). by rewrite Hc. }
  destruct (IH op.(mo_at) s' (tag_more op acc) (same_mode_steady _ _ Hm Hs) Httl Hans Hord Hal' Hh') as (H1 & H2 & H3).
  cbn [run_merges all_tags]. rewrite E. destruct (run_merges ops s') as [s'' rs], (all_tags ops (tag_more op acc)) as [acc'' rs'].
  cbn in *. by subst rs'.
Qed.

(** C10: tags accumulate.  From a store without tags, with Redis behind it (its
    script loaded once) or the cache in its place, every history of merges for
    tenants without a colon that the server answers, at once or after the script
    was loaded again, answers each merge with the sorted union of all tags given
    so far to that tenant and entity, and so does a read at the end, while nothing
    written has expired: no merge loses a tag of another. *)
Theorem tags_accumulate ops from until s t e :
  steady s -> 0 < cfg.(tags_ttl) -> Forall answered ops -> in_order from ops until ->
  Forall (fun op => active_alive op.(mo_at) cfg.(tags_ttl) until s = true) ops ->
  (forall w t e, active_view w (_key_tags t e) s = None) -> plain_tenant t ->
  (run_merges ops s).2 = (all_tags ops (fun _ _ => [])).2
  /\ (get_tags until t e (run_merges ops s).1).2 = Ok (map PStr (sorted_set ((all_tags ops (fun _ _ => [])).1 t e))).
Proof.
  intros Hs Httl Hans Hord Hal Hempty Ht. destruct (merges_hold ops from until s (fun _ _ => [])) as (H1 & H2 & H3); try done.
  { intros w t' e' _ _ _. apply Hempty. }
  split; [done|]. destruct (get_tags_steady until t e _ _ H2 (H3 until t e (moment_le_refl _) (moment_le_refl _) Ht)) as (s' & -> & _). done.
Qed.
End steady.

(** * Replayed requests are seen *)

Lemma rev_sapp a b : String.rev (a +:+ b) = String.rev b +:+ String.rev a.
Proof.
  induction a as [|c a IH]; [by rewrite sapp_nil|]. rewrite sapp_cons, !rev_cons, IH. apply sapp_assoc.
Qed.

(** The last colon splits a text in one way. *)
Lemma colon_split_last a b r s : all_chars not_colon r = true -> all_chars not_colon s = true ->
  a +:+ ":" +:+ r = b +:+ ":" +:+ s -> a = b /\ r = s.
Proof.
  intros Hr Hs E. apply (f_equal String.rev) in E. rewrite !rev_sapp in E. change (String.rev ":") with ":" in E. rewrite !sapp_assoc in E.
  apply colon_split in E as [E1 E2]; [|by rewrite all_chars_rev..]. apply (f_equal String.rev) in E1, E2. by rewrite !rev_involutive in E1, E2.
Qed.

Lemma replay_key_inj t g t' g' : all_chars not_colon g = true -> all_chars not_colon g' = true ->
  replay_key t' g' = replay_key t g -> (t', g') = (t, g).
Proof. intros Hg Hg' E. unfold replay_key in E. cbn in E. injection E as E. by apply colon_split_last in E as [-> ->]. Qed.

Section replay.
Context {TR R TK K : Type} `{!KeyValueCache TR R, !KeyValueCache TK K, !KeyValueLaws TR R, !KeyValueLaws TK K}.
Abbreviation tag_store := (tag_store (R := R) (K := K)).
Abbreviation moment := (moment (TR := TR) (TK := TK)).
Implicit Types (s : tag_store) (w : moment).

Record replay_op : Type := ReplayOp { ro_at : moment; ro_tenant : string; ro_signature : string; ro_ttl : Z }.

Fixpoint run_checks (ops : list replay_op) s : tag_store * list (result bool) :=
  match ops with
  | [] => (s, [])
  | op :: ops' =>
      let '(s', r) := check_and_store_replay_signature op.(ro_at) op.(ro_tenant) op.(ro_signature) op.(ro_ttl) s in
      let '(s'', rs) := run_checks ops' s' in (s'', r :: rs)
  end.

(** The reference: when a request was last taken for a new one, and for how long. *)
Definition sightings : Type := string -> string -> option (moment * Z).

Definition seen_at w s (x : option (moment * Z)) : bool :=
  match x with Some (w0, ex) => active_alive w0 ex w s | None => false end.

Fixpoint sight (ops : list replay_op) s (seen : sightings) : list (result bool) :=
  match ops with
  | [] => []
  | op :: ops' =>
      let known := seen_at op.(ro_at) s (seen op.(ro_tenant) op.(ro_signature)) in
      Ok known :: sight ops' s (if known then seen else fun t g =>
        if bool_decide ((t, g) = (op.(ro_tenant), op.(ro_signature))) then Some (op.(ro_at), Z.max 1 op.(ro_ttl)) else seen t g)
  end.

Fixpoint checks_in_order (from : moment) (ops : list replay_op) : Prop :=
  match ops with [] => True | op :: ops' => moment_le from op.(ro_at) /\ checks_in_order op.(ro_at) ops' end.

(** A signature is a digest in hexadecimal. *)
Definition plain_signature (op : replay_op) : Prop := all_chars not_colon op.(ro_signature) = true.

Definition holds_sightings (from : moment) s (seen : sightings) : Prop :=
  forall w t g, moment_le from w -> all_chars not_colon g = true ->
    active_view w (replay_key t g) s = if seen_at w s (seen t g) then Some (Json (PInt 1)) else None.

Lemma check_step op from s seen : is_tag_store_available s = true -> plain_signature op -> moment_le from op.(ro_at) -> holds_sightings from s seen ->
  let known := seen_at op.(ro_at) s (seen op.(ro_tenant) op.(ro_signature)) in
  exists s', check_and_store_replay_signature op.(ro_at) op.(ro_tenant) op.(ro_signature) op.(ro_ttl) s = (s', Ok known)
    /\ is_tag_store_available s' = true /\ s'.(ts_client) = s.(ts_client)
    /\ holds_sightings op.(ro_at) s' (if known then seen else fun t g =>
         if bool_decide ((t, g) = (op.(ro_tenant), op.(ro_signature))) then Some (op.(ro_at), Z.max 1 op.(ro_ttl)) else seen t g).
Proof.
  intros Ha Hg Hfrom Hh known. destruct op as [w t g ttl]. cbn [ro_at ro_tenant ro_signature ro_ttl] in *. unfold plain_signature in Hg. cbn in Hg.
  pose proof (Hh w t g Hfrom Hg) as Hv. fold known in Hv. unfold check_and_store_replay_signature. rewrite connected_steady by done.
  assert (Hold : holds_sightings w s seen) by (intros w' t' g' Hw'; apply Hh; by eapply moment_le_trans).
  destruct s as [u cl m r kv d c], cl; cbn [ts_client ts_redis ts_kv ts_cache] in *.
  - pose proof (kv_get_value w.(at_server) (replay_key t g) r) as Hgv. pose proof (fun t' k' => kv_get_view w.(at_server) (replay_key t g) r t' k') as Hw.
    destruct (kv_get (at_server w) (replay_key t g) r) as [r' v]. unfold active_view in Hv. cbn in Hv, Hgv, Hw. rewrite Hv in Hgv. subst v.
    destruct known; (eexists; split; [reflexivity|]; split; [done|]; split; [done|]); intros w' t' g' Hle Hg'.
    + unfold active_view. cbn. rewrite Hw by apply Hle. by apply (Hold w').
    + unfold active_view. cbn. rewrite kv_set_view by apply Hle. destruct (decide ((t', g') = (t, g))) as [E|E].
      * injection E as -> ->. by rewrite !bool_decide_eq_true_2.
      * rewrite !bool_decide_eq_false_2 by first [done | by intros ?%replay_key_inj]. rewrite Hw by apply Hle. by apply (Hold w').
  - unfold is_tag_store_available in Ha. cbn in Ha. subst kv.
    pose proof (kv_get_value w.(at_local) (replay_key t g) c) as Hgv. pose proof (fun t' k' => kv_get_view w.(at_local) (replay_key t g) c t' k') as Hw.
    destruct (kv_get (at_local w) (replay_key t g) c) as [c' v]. unfold active_view in Hv. cbn in Hv, Hgv, Hw. rewrite Hv in Hgv. subst v.
    destruct known; cbn [raw_truthy]; (eexists; split; [reflexivity|]; split; [done|]; split; [done|]); intros w' t' g' Hle Hg'.
    + unfold active_view. cbn. rewrite Hw by apply Hle. by apply (Hold w').
    + unfold active_view. cbn. rewrite kv_set_view by apply Hle. destruct (decide ((t', g') = (t, g))) as [E|E].
      * injection E as -> ->. by rewrite !bool_decide_eq_true_2.
      * rewrite !bool_decide_eq_false_2 by first [done | by intros ?%replay_key_inj]. rewrite Hw by apply Hle. by apply (Hold w').
Qed.

Lemma sight_client ops s s' seen : s'.(ts_client) = s.(ts_client) -> sight ops s' seen = sight ops s seen.
Proof.
  intros Hc. assert (Hs : forall w x, seen_at w s' x = seen_at w s x) by (intros w [[w0 ex]|]; unfold seen_at, active_alive; by rewrite ?Hc).
  revert seen. induction ops as [|op ops IH]; intros seen; [done|]. cbn. by rewrite Hs, IH.
Qed.

(** C28: replays are detected exactly.  Over every sequence of checks, of any
    tenants, a request is called a replay exactly when the same tenant's same
    signature was taken for a new request earlier and the lifetime given then has
    not run out; replays do not prolong it. *)
Theorem replay_detected ops from s : is_tag_store_available s = true ->
  (forall w t g, active_view w (replay_key t g) s = None) -> Forall plain_signature ops -> checks_in_order from ops ->
  (run_checks ops s).2 = sight ops s (fun _ _ => None).
Proof.
  intros Ha Hempty Hplain Hord. assert (Hh : holds_sightings from s (fun _ _ => None)) by (intros w t g _ _; apply Hempty). clear Hempty.
  revert from s Ha Hord Hh. generalize (fun _ _ : string => @None (moment * Z)) as seen.
  induction ops as [|op ops IH]; intros seen from s Ha Hord Hh; [done|]. apply Forall_cons in Hplain as [Hp Hplain]. destruct Hord as [Hfrom Hord].
  destruct (check_step op from s seen Ha Hp Hfrom Hh) as (s' & E & Ha' & Hc & Hh'). cbn [run_checks sight]. rewrite E.
  specialize (IH Hplain _ _ _ Ha' Hord Hh'). destruct (run_checks ops s') as [s'' rs]. cbn [snd] in *. subst rs. f_equal. by apply sight_client.
Qed.
End replay.

(** * Nonces are used once *)

Section nonces.
Context {TR R TK K : Type} `{!KeyValueCache TR R, !KeyValueCache TK K, !KeyValueLaws TR R, !KeyValueLaws TK K}.

(** Where a request stands that consumes a nonce from the cache. *)
Inductive phase : Type :=
| Reading
| Deleting
| Leaving (consumed : bool).

(** The two stores with their clocks, the file lock, the requests inside it, and
    the nonces given out and accepted so far. *)
Record nonce_state : Type := NonceState {
  ns_client : bool; ns_server : TR; ns_redis : R; ns_local : TK; ns_cache : K;
  ns_lock : option nat; ns_procs : gmap nat (string * phase); ns_issued : list string; ns_accepted : list string }.

(** Every await of [store_nonce] and [consume_nonce] ends a step; other requests
    may write other keys, expired entries may go, and a merge that failed may
    take the client away. *)
Inductive nonce_step : nonce_state -> nonce_state -> Prop :=
| StepTime b t r u c l p i a t' u' : kv_le t t' -> kv_le u u' ->
    nonce_step (NonceState b t r u c l p i a) (NonceState b t' r u' c l p i a)
| StepOther b t r r' u c c' l p i a :
    (forall t n v, kv_view t (nonce_key n) r' = Some v -> kv_view t (nonce_key n) r = Some v) ->
    (forall u n v, kv_view u (nonce_key n) c' = Some v -> kv_view u (nonce_key n) c = Some v) ->
    nonce_step (NonceState b t r u c l p i a) (NonceState b t r' u c' l p i a)
| StepFailover t r u c l p i a : nonce_step (NonceState true t r u c l p i a) (NonceState false t r u c l p i a)
| StepIssueRedis n ttl t r u c l p i a :
    nonce_step (NonceState true t r u c l p i a)
               (NonceState true t (kv_set t (nonce_key n) (Json (PInt 1)) (Some ttl) r) u c l p (n :: i) a)
| StepIssueCache n ttl t r u c l p i a :
    nonce_step (NonceState false t r u c l p i a)
               (NonceState false t r u (kv_set u (nonce_key n) (Json (PInt 1)) (Some ttl) c) l p (n :: i) a)
| StepGetDel n t r u c l p i a :
    nonce_step (NonceState true t r u c l p i a)
               (NonceState true t (getdel t (nonce_key n) r).1 u c l p i (if (getdel t (nonce_key n) r).2 then n :: a else a))
| StepLock k n t r u c p i a : p !! k = None ->
    nonce_step (NonceState false t r u c None p i a) (NonceState false t r u c (Some k) (<[k := (n, Reading)]> p) i a)
| StepRead k n b t r u c l p i a : p !! k = Some (n, Reading) ->
    nonce_step (NonceState b t r u c l p i a)
               (NonceState b t r u (nonce_read u n c).1 l (<[k := (n, if (nonce_read u n c).2 then Deleting else Leaving false)]> p) i a)
| StepDelete k n b t r u c l p i a : p !! k = Some (n, Deleting) ->
    nonce_step (NonceState b t r u c l p i a)
               (NonceState b t r u (kv_delete (nonce_key n) c) l (<[k := (n, Leaving true)]> p) i (n :: a))
| StepUnlock k n x b t r u c l p i a : p !! k = Some (n, Leaving x) ->
    nonce_step (NonceState b t r u c l p i a) (NonceState b t r u c None (delete k p) i a).

Definition times (n : string) (l : list string) : nat := length (List.filter (fun m => bool_decide (m = n)) l).

Lemma times_cons n m l : times n (m :: l) = ((if bool_decide (m = n) then 1 else 0) + times n l)%nat.
Proof. unfold times. cbn. by destruct (bool_decide (m = n)). Qed.

(** What a nonce may still be accepted for: its entry in Redis, and its entry in
    the cache or the request that has read it. *)
Definition here (v : option blob) : nat := if v then 1%nat else 0%nat.
Definition deleting (n : string) (st : nonce_state) : bool :=
  match st.(ns_lock) with
  | Some k => match st.(ns_procs) !! k with Some (m, Deleting) => bool_decide (m = n) | _ => false end
  | None => false
  end.
Definition pending (n : string) (st : nonce_state) : nat :=
  (here (kv_view st.(ns_server) (nonce_key n) st.(ns_redis))
   + if deleting n st then 1 else here (kv_view st.(ns_local) (nonce_key n) st.(ns_cache)))%nat.

Definition nonce_inv (st : nonce_state) : Prop :=
  (forall k x, st.(ns_procs) !! k = Some x -> st.(ns_lock) = Some k)
  /\ forall n, (times n st.(ns_accepted) + pending n st <= times n st.(ns_issued))%nat.

Lemma here_sub v v' : (forall x, v' = Some x -> v = Some x) -> (here v' <= here v)%nat.
Proof. intros H. destruct v' as [x|]; cbn; [|lia]. by rewrite (H x). Qed.

Lemma nonce_key_inj n m : nonce_key n = nonce_key m <-> n = m.
Proof. split; [|by intros ->]. unfold nonce_key. cbn. by injection 1. Qed.

Lemma here_set {T C : Type} `{KeyValueLaws T C} (t : T) (m n : string) v ttl (s : C) :
  (here (kv_view t (nonce_key n) (kv_set t (nonce_key m) v ttl s))
   <= (if bool_decide (m = n) then 1 else 0) + here (kv_view t (nonce_key n) s))%nat.
Proof.
  rewrite kv_set_view by apply kv_le_refl. destruct (decide (m = n)) as [->|E].
  - rewrite !bool_decide_eq_true_2 by done. destruct (kv_alive t ttl t); cbn; lia.
  - rewrite !bool_decide_eq_false_2 by (done || by rewrite nonce_key_inj). lia.
Qed.

Lemma getdel_here (t : TR) (m n : string) (r : R) :
  (here (kv_view t (nonce_key n) (getdel t (nonce_key m) r).1) + (if (getdel t (nonce_key m) r).2 then (if bool_decide (m = n) then 1 else 0) else 0)
   <= here (kv_view t (nonce_key n) r))%nat.
Proof.
  unfold getdel. pose proof (kv_get_value t (nonce_key m) r) as Hv. pose proof (kv_get_view t (nonce_key m) r t (nonce_key n) (kv_le_refl t)) as Hw.
  destruct (kv_get t (nonce_key m) r) as [r' v]. cbn in *. subst v. destruct (kv_view t (nonce_key m) r) as [x|] eqn:E; cbn; [|rewrite Hw; lia].
  rewrite kv_delete_view, Hw. destruct (decide (m = n)) as [->|Hmn].
  - rewrite !bool_decide_eq_true_2 by done. rewrite E. cbn. lia.
  - rewrite !bool_decide_eq_false_2 by (done || by rewrite nonce_key_inj). lia.
Qed.

Lemma read_here (u : TK) (m n : string) (c : K) :
  kv_view u (nonce_key n) (nonce_read u m c).1 = kv_view u (nonce_key n) c
  /\ ((nonce_read u m c).2 = true -> here (kv_view u (nonce_key m) c) = 1%nat).
Proof.
  unfold nonce_read. pose proof (kv_get_value u (nonce_key m) c) as Hv. pose proof (kv_get_view u (nonce_key m) c u (nonce_key n) (kv_le_refl u)) as Hw.
  destruct (kv_get u (nonce_key m) c) as [c' v]. cbn in *. split; [done|]. subst v. by destruct (kv_view u (nonce_key m) c).
Qed.

Lemma locked_pending n k m ph b t r u c p i a : p !! k = Some (m, ph) ->
  pending n (NonceState b t r u c (Some k) p i a)
  = (here (kv_view t (nonce_key n) r)
     + match ph with Deleting => if bool_decide (m = n) then 1 else here (kv_view u (nonce_key n) c) | _ => here (kv_view u (nonce_key n) c) end)%nat.
Proof. intros E. unfold pending, deleting. cbn. rewrite E. by destruct ph. Qed.

(** Another request's step inside the lock is that of its holder. *)
Lemma nonce_step_inv st st' : nonce_step st st' -> nonce_inv st -> nonce_inv st'.
Proof.
  intros Hstep [Hlock Hcount]. destruct Hstep as [b t r u c l p i a t' u' Ht Hu|b t r r' u c c' l p i a Hr Hc|t r u c l p i a|n ttl t r u c l p i a
    |n ttl t r u c l p i a|n t r u c l p i a|k n t r u c p i a Hk|k n b t r u c l p i a Hk|k n b t r u c l p i a Hk|k n x b t r u c l p i a Hk];
    (split; [|intros m; specialize (Hcount m)]); cbn [ns_lock ns_procs ns_issued ns_accepted] in *; try exact Hlock.
  - unfold pending, deleting in *. cbn [ns_server ns_redis ns_local ns_cache ns_lock ns_procs] in *. pose proof (here_sub (kv_view t (nonce_key m) r) (kv_view t' (nonce_key m) r) (fun x => kv_view_sooner _ _ _ _ x Ht)).
    pose proof (here_sub (kv_view u (nonce_key m) c) (kv_view u' (nonce_key m) c) (fun x => kv_view_sooner _ _ _ _ x Hu)). repeat case_match; lia.
  - unfold pending, deleting in *. cbn [ns_server ns_redis ns_local ns_cache ns_lock ns_procs] in *. pose proof (here_sub _ _ (Hr t m)). pose proof (here_sub _ _ (Hc u m)). repeat case_match; lia.
  - exact Hcount.
  - rewrite times_cons. unfold pending, deleting in *. cbn [ns_server ns_redis ns_local ns_cache ns_lock ns_procs] in *. pose proof (here_set t n m (Json (PInt 1)) (Some ttl) r). repeat case_match; lia.
  - rewrite times_cons. unfold pending, deleting in *. cbn [ns_server ns_redis ns_local ns_cache ns_lock ns_procs] in *. pose proof (here_set u n m (Json (PInt 1)) (Some ttl) c). repeat case_match; lia.
  - unfold pending, deleting in *. cbn [ns_server ns_redis ns_local ns_cache ns_lock ns_procs] in *. pose proof (getdel_here t n m r). destruct (getdel t (nonce_key n) r).2; rewrite ?times_cons; repeat case_match; lia.
  - intros j x. destruct (decide (j = k)) as [->|Hj]; [done|]. rewrite lookup_insert_ne by done. intros Hx. by apply Hlock in Hx.
  - rewrite (locked_pending m k n Reading) by (by rewrite lookup_insert_eq). exact Hcount.
  - intros j x. destruct (decide (j = k)) as [->|Hj]; [intros _; by eapply Hlock|]. rewrite lookup_insert_ne by done. apply Hlock.
  - pose proof (Hlock _ _ Hk) as ->. rewrite (locked_pending m k n _ _ _ _ _ _ _ _ _ Hk) in Hcount. erewrite locked_pending by (by rewrite lookup_insert_eq).
    destruct (read_here u n m c) as [-> Hf]. destruct (nonce_read u n c).2; [|lia]. case_bool_decide as E; [|lia]. subst m. rewrite Hf in Hcount by done. lia.
  - intros j x. destruct (decide (j = k)) as [->|Hj]; [intros _; by eapply Hlock|]. rewrite lookup_insert_ne by done. apply Hlock.
  - pose proof (Hlock _ _ Hk) as ->. rewrite (locked_pending m k n _ _ _ _ _ _ _ _ _ Hk) in Hcount. erewrite locked_pending by (by rewrite lookup_insert_eq).
    rewrite times_cons, kv_delete_view. destruct (decide (n = m)) as [->|E].
    + rewrite !bool_decide_eq_true_2 in * by done. cbn. lia.
    + rewrite (bool_decide_eq_false_2 (n = m)) in * by done. rewrite bool_decide_eq_false_2 by (by rewrite nonce_key_inj). lia.
  - intros j y. destruct (decide (j = k)) as [->|Hj]; [by rewrite lookup_delete_eq|]. rewrite lookup_delete_ne by done. intros Hx.
    apply Hlock in Hx. pose proof (Hlock _ _ Hk). congruence.
  - pose proof (Hlock _ _ Hk) as ->. rewrite (locked_pending m k n _ _ _ _ _ _ _ _ _ Hk) in Hcount. unfold pending, deleting. cbn. lia.
Qed.

(** Nothing given out, nobody inside. *)
Definition no_nonces (st : nonce_state) : Prop :=
  st.(ns_procs) = ∅ /\ st.(ns_issued) = [] /\ st.(ns_accepted) = []
  /\ forall n, kv_view st.(ns_server) (nonce_key n) st.(ns_redis) = None /\ kv_view st.(ns_local) (nonce_key n) st.(ns_cache) = None.

Lemma no_nonces_inv st : no_nonces st -> nonce_inv st.
Proof.
  intros (Hp & Hi & Ha & Hv). split; [intros k x; by rewrite Hp|]. intros n. rewrite Hi, Ha. unfold pending, deleting. rewrite Hp.
  destruct (Hv n) as [-> ->]. destruct (ns_lock st); cbn; [rewrite lookup_empty|]; lia.
Qed.

(** C8: a nonce is accepted at most as often as it was given out, once for a
    random one, under every interleaving of requests that give out and consume
    nonces, with GETDEL on Redis or a read and a delete under the file lock, with
    expiring entries and a failover from the one to the other in between. *)
Theorem nonce_single_use st0 st : no_nonces st0 -> rtc nonce_step st0 st -> forall n, (times n st.(ns_accepted) <= times n st.(ns_issued))%nat.
Proof.
  intros H0 Hrun. assert (Hinv : nonce_inv st).
  { apply no_nonces_inv in H0. induction Hrun as [|st1 st2 st3 Hs _ IH]; [done|]. apply IH. by eapply nonce_step_inv. }
  intros n. destruct Hinv as [_ H]. specialize (H n). lia.
Qed.

(** The operations are runs of these steps. *)
Definition nonce_view (w : moment (TR := TR) (TK := TK)) (s : tag_store (R := R) (K := K)) p i a : nonce_state :=
  NonceState s.(ts_client) w.(at_server) s.(ts_redis) w.(at_local) s.(ts_cache) None p i a.

Lemma consume_nonce_steps cfg w n s s' b k p i a : is_tag_store_available s = true -> p !! k = None ->
  consume_nonce cfg w n s = (s', Ok b) -> rtc nonce_step (nonce_view w s p i a) (nonce_view w s' p i (if b then n :: a else a)).
Proof.
  intros Ha Hk. unfold consume_nonce. rewrite connected_steady by done. unfold nonce_view. destruct s as [u cl m r kv d c]. cbn.
  destruct cl.
  - destruct (getdel (at_server w) (nonce_key n) r) as [r' v] eqn:E. intros [= <- <-]. cbn. apply rtc_once.
    pose proof (StepGetDel n w.(at_server) r w.(at_local) c None p i a) as Hs. rewrite E in Hs. by destruct v.
  - destruct (strict_consistency cfg); [done|]. unfold is_tag_store_available in Ha. cbn in Ha. subst kv. cbn.
    destruct (nonce_read (at_local w) n c) as [c' f] eqn:E. intros H.
    eapply rtc_l; [by apply (StepLock k n)|]. eapply rtc_l; [apply (StepRead k n); apply lookup_insert_eq|]. rewrite E, insert_insert_eq. cbn.
    assert (Hp : delete k (<[k := (n, Leaving b)]> p) = p) by (by rewrite delete_insert_eq, delete_id). destruct f; injection H as <- <-.
    + eapply rtc_l; [apply (StepDelete k n); apply lookup_insert_eq|]. rewrite insert_insert_eq.
      eapply rtc_l; [eapply (StepUnlock k); apply lookup_insert_eq|]. cbn. rewrite Hp. constructor.
    + eapply rtc_l; [eapply (StepUnlock k); apply lookup_insert_eq|]. cbn. rewrite Hp. constructor.
Qed.

Lemma store_nonce_steps w n ttl s s' p i a : is_tag_store_available s = true ->
  store_nonce w n ttl s = (s', Ok tt) -> nonce_step (nonce_view w s p i a) (nonce_view w s' p (n :: i) a).
Proof.
  intros Ha. unfold store_nonce. rewrite connected_steady by done. unfold nonce_view, write_raw, setex. destruct s as [u cl m r kv d c]. cbn.
  destruct cl.
  - destruct (ttl <=? 0); [done|]. intros [= <-]. apply StepIssueRedis.
  - unfold is_tag_store_available in Ha. cbn in Ha. subst kv. cbn. intros [= <-]. apply StepIssueCache.
Qed.
End nonces.

(** * Strict consistency *)

Section strict.
Context {TR R TK K : Type} `{!KeyValueCache TR R, !KeyValueCache TK K} (cfg : store_settings).
Implicit Types (s : tag_store (R := R) (K := K)) (w : moment (TR := TR) (TK := TK)).

(** A store in which nothing but Redis changed. *)
Definition cache_kept s s' : Prop := s'.(ts_cache) = s.(ts_cache) /\ s'.(ts_kv) = s.(ts_kv) /\ s'.(ts_degraded) = s.(ts_degraded).

Lemma cache_kept_trans s s1 s2 : cache_kept s s1 -> cache_kept s1 s2 -> cache_kept s s2.
Proof. unfold cache_kept. by intros (-> & -> & ->) (-> & -> & ->). Qed.

Lemma connect_keeps w s : cache_kept s (connect false w s).1.
Proof.
  unfold connect, cache_kept. destruct s as [u c m r kv d ca]. unfold is_tag_store_available. cbn.
  destruct c, kv; cbn; try done. by destruct (nonempty _).
Qed.

Lemma evalsha_keeps w attempt key new s : cache_kept s (evalsha cfg w attempt key new s).1
  /\ (forall tags, (evalsha cfg w attempt key new s).2 = Merged tags -> (merge_tags_lua cfg w.(at_server) key new s.(ts_redis)).2 = Some tags).
Proof.
  unfold evalsha. destruct (merge_tags_lua cfg (at_server w) key new (ts_redis s)) as [r out]. cbn.
  destruct (at_eval w attempt) as [| |[]|[]]; cbn; (split; [done|]); try done. destruct out; [|done]. by intros tags [= ->].
Qed.

Lemma eval_merge_keeps w key new s : cache_kept s (eval_merge cfg w key new s).1
  /\ (forall tags, (eval_merge cfg w key new s).2 = Merged tags -> (merge_tags_lua cfg w.(at_server) key new s.(ts_redis)).2 = Some tags).
Proof.
  unfold eval_merge. pose proof (evalsha_keeps w false key new s) as [H1 H2]. destruct (evalsha cfg w false key new s) as [s1 o1] eqn:E1.
  destruct o1; [done..|]. cbn in H1. destruct (at_loads w); [|done].
  assert (s1 = s) as ->.
  { unfold evalsha in E1. destruct (merge_tags_lua _ _ _ _ _) as [r out]. destruct (at_eval w false) as [| |[]|[]]; try congruence. by destruct out. }
  pose proof (evalsha_keeps w true key new s) as [H3 H4]. destruct (evalsha cfg w true key new s) as [s2 o2]. by destruct o2.
Qed.

Lemma merge_nothing w t e s : merge_tags cfg w t e [] s = get_tags w t e s.
Proof.
  unfold merge_tags, get_tags, when_connected, connect, is_tag_store_available. destruct s as [u cl m r kv d c]. cbn -[strip nonempty].
  destruct cl, kv; cbn -[strip nonempty]; try done. destruct (nonempty (strip u)) eqn:E; [destruct (at_loads w)|];
    cbn -[strip nonempty]; by rewrite ?E.
Qed.

(** C29: strict consistency has no substitute.  With it on, a merge of at least
    one tag and a consumption of a nonce never touch the cache that stands in for
    Redis nor switch to it, whatever the server does; a merge that answers gives
    what the script answered on the server, and a consumption that answers says
    whether GETDEL found the nonce.  A merge of no tags is the plain read, which
    strict consistency leaves as it is. *)
Theorem strict_no_substitute w t e new n s : cfg.(strict_consistency) = true ->
  (if decide (new = []) then merge_tags cfg w t e new s = get_tags w t e s
   else cache_kept s (merge_tags cfg w t e new s).1
        /\ forall tags, (merge_tags cfg w t e new s).2 = Ok tags ->
             exists l, (merge_tags_lua cfg w.(at_server) (_key_tags t e) new s.(ts_redis)).2 = Some l /\ tags = map PStr l)
  /\ cache_kept s (consume_nonce cfg w n s).1
  /\ (forall b, (consume_nonce cfg w n s).2 = Ok b ->
        b = bool_decide (is_Some (getdel w.(at_server) (nonce_key n) s.(ts_redis)).2)).
Proof.
  intros Hstrict. pose proof (connect_keeps w s) as Hc. assert (Hr : (connect false w s).1.(ts_redis) = s.(ts_redis)).
  { unfold connect, is_tag_store_available. destruct s as [u c m r kv d ca]. cbn. destruct c, kv; cbn; try done. by destruct (nonempty _). }
  split.
  - destruct (decide (new = [])) as [->|Hnew]; [apply merge_nothing|]. unfold merge_tags, when_connected.
    destruct (connect false w s) as [s1 [[]|x]]; cbn [fst] in *; [|by cbn; split].
    destruct new as [|y new]; [done|]. rewrite Hstrict. rewrite <- Hr. clear Hr.
    pose proof (eval_merge_keeps w (_key_tags t e) (y :: new) s1) as [Hk Hm].
    destruct (ts_client s1 && ts_merge_sha s1); [|done].
    destruct (eval_merge _ _ _ _ _) as [s2 []]; cbn in *; (split; [by eapply cache_kept_trans|]); try done. intros ? [= <-]. eauto.
  - unfold consume_nonce, when_connected. destruct (connect false w s) as [s1 [[]|x]]; cbn [fst] in *; [|by cbn; split].
    rewrite Hstrict, <- Hr. destruct (ts_client s1); [|done]. destruct (getdel _ _ _) as [r [v|]]; cbn; (split; [done|]); by intros b [= <-].
Qed.
End strict.

(** * Runs *)

Abbreviation demo_store := (tag_store (R := redis_map) (K := local_cache)).
Abbreviation demo_moment := (moment (TR := Z) (TK := float)).

Definition demo_settings : store_settings := StoreSettings 60 60 false.
Definition strict_settings : store_settings := StoreSettings 60 60 true.
Definition with_server : demo_store := TagStore "redis://cache:6379" true true ∅ false true ∅.
Definition without_server : demo_store := TagStore "" false false ∅ true true ∅.
Definition at_second (n : Z) (o : eval_outcome) : demo_moment := At (1000 * n) (litZ n) true (fun _ => o).

Definition demo_merges : list merge_op :=
  [MergeOp (at_second 1 Answered) "acme" "u1" ["vpn"; "new_device"]; MergeOp (at_second 2 Answered) "acme" "u2" ["vpn"];
   MergeOp (At 3000 (litZ 3) true (fun again => if again then Answered else NoScript)) "acme" "u1" ["vpn"; "mule"]].

Lemma tags_accumulate_witness :
  (run_merges demo_settings demo_merges with_server).2 = (all_tags demo_merges (fun _ _ => [])).2
  /\ (get_tags (at_second 4 Answered) "acme" "u1" (run_merges demo_settings demo_merges with_server).1).2
     = Ok (map PStr ["mule"; "new_device"; "vpn"]).
Proof.
  pose proof (tags_accumulate demo_settings demo_merges (at_second 0 Answered) (at_second 4 Answered) with_server "acme" "u1") as H.
  destruct H as [H1 H2]; [by left|done| | |repeat constructor|done|done|].
  - repeat first [apply List.Forall_nil|apply List.Forall_cons]; (split; [|reflexivity]); [left|left|right]; repeat split.
  - cbn. split_and!; repeat split; try (cbn; lia); right; vm_compute; reflexivity.
  - split; [exact H1|]. rewrite H2. vm_compute. reflexivity.
Defined.

Definition demo_checks : list replay_op :=
  [ReplayOp (at_second 1 Answered) "acme" "0a1b" 10; ReplayOp (at_second 5 Answered) "acme" "0a1b" 10; ReplayOp (at_second 12 Answered) "acme" "0a1b" 10].

Lemma replay_detected_witness : (run_checks demo_checks without_server).2 = [Ok false; Ok true; Ok false].
Proof.
  rewrite (replay_detected demo_checks (at_second 0 Answered) without_server); [vm_compute; reflexivity|done|done|repeat constructor|].
  cbn. split_and!; repeat split; try (cbn; lia); right; vm_compute; reflexivity.
Defined.

Definition demo_nonces (client : bool) : nonce_state := NonceState client 0 (∅ : redis_map) (litZ 0) (∅ : local_cache) None ∅ [] [].

Lemma nonce_single_use_witness :
  exists st, rtc nonce_step (demo_nonces true) st /\ times "4f" st.(ns_accepted) = 1%nat
    /\ (times "4f" st.(ns_accepted) <= times "4f" st.(ns_issued))%nat.
Proof.
  assert (Hrun : exists st, rtc nonce_step (demo_nonces true) st /\ times "4f" st.(ns_accepted) = 1%nat).
  { eexists. split; [|].
    - eapply rtc_l; [apply (StepIssueRedis "4f" 30)|]. eapply rtc_l; [apply (StepGetDel "4f")|].
      eapply rtc_l; [apply (StepGetDel "4f")|]. constructor.
    - vm_compute. reflexivity. }
  destruct Hrun as (st & Hrun & Hone). exists st. split; [exact Hrun|]. split; [exact Hone|].
  apply (nonce_single_use (demo_nonces true) st); [|exact Hrun]. repeat split; reflexivity.
Defined.

Definition demo_timeout : demo_moment := at_second 2 (TimedOut false).

Lemma strict_no_substitute_witness :
  cache_kept with_server (merge_tags strict_settings demo_timeout "acme" "u1" ["vpn"] with_server).1
  /\ (merge_tags strict_settings demo_timeout "acme" "u1" ["vpn"] with_server).2 = Err ConnectionError.
Proof.
  destruct (strict_no_substitute strict_settings demo_timeout "acme" "u1" ["vpn"] "4f" with_server eq_refl) as ([H _] & _).
  split; [exact H|]. vm_compute. reflexivity.
Defined.

(** Without strict consistency a merge that times out moves the process to its
    cache for good: the tags that Redis holds are gone from its answers. *)
Example failover_forgets :
  let s := (merge_tags demo_settings (at_second 1 Answered) "acme" "u1" ["chargeback"] with_server).1 in
  let '(s', r) := merge_tags demo_settings demo_timeout "acme" "u1" ["vpn"] s in
  r = Ok [PStr "vpn"] /\ (get_tags (at_second 3 Answered) "acme" "u1" s').2 = Ok [PStr "vpn"]
  /\ redis_row 3000 (_key_tags "acme" "u1") s'.(ts_redis) = Some (Json (str_list ["chargeback"])).
Proof. vm_compute. done. Qed.

(** Two patches of the flags of a tenant that both read before either writes:
    the kill switch set by the first is gone. *)
Example flag_patch_lost :
  let w := at_second 1 Answered in
  let '(s1, cur1) := get_tenant_flags w "acme" with_server in
  let '(s2, cur2) := get_tenant_flags w "acme" s1 in
  let patched r k := match r with Ok cur => patch_flags cur [(k, PBool true)] | Err _ => [] end in
  let s3 := (set_tenant_flags w "acme" (patched cur1 "disable_ml") s2).1 in
  let s4 := (set_tenant_flags w "acme" (patched cur2 "disable_graph") s3).1 in
  (get_tenant_flags w "acme" s4).2 = Ok [("disable_graph", PBool true)].
Proof. vm_compute. reflexivity. Qed.

(** Tenants with a colon share their tags with others. *)
Example tag_keys_collide : _key_tags "acme:eu" "u1" = _key_tags "acme" "eu:u1".
Proof. reflexivity. Qed.

(** A script that could not be loaded on the first connection is never loaded
    later: the client is set by then, and every merge is refused. *)
Example lost_script_wedges :
  let fresh : demo_store := TagStore "redis://cache:6379" false false ∅ false false ∅ in
  let down : demo_moment := At 0 (litZ 0) false (fun _ => Answered) in
  let s := (get_tags down "acme" "u1" fresh).1 in
  (get_tags (at_second 1 Answered) "acme" "u1" s).2 = Ok []
  /\ (merge_tags demo_settings (at_second 2 Answered) "acme" "u1" ["vpn"] s).2 = Err ConnectionError.
Proof. vm_compute. done. Qed.
