(* ===== verification/Consortium.v ===== *)
(** Consortium intelligence: the shared signals of [decision_api/redis_store.py]
    over the store of [TagStore], [decision_api/consortium.py], the endpoints of
    [decision_api/consortium_api.py] and the consortium stage of
    [decision_api/evaluate/pipeline.py].

    Trust scores are fields of a Redis hash, an interface of two commands.  A
    list of pairs in place of a JSON object, which the store never writes, is
    refused where [dict] would take it. *)

From Stdlib Require Import ZArith Lia Ascii String Bool SpecFloat.
From stdpp Require Import base option list sorting strings gmap.
From S2P Require Import Prelude PyFloat PyValue Sha256 Enforcement RingScore FloatBounds EntityLists TagStore.
Local Open Scope Z_scope.

(** * Identities *)

Definition hash_entity_id (consortium_secret tenant_id entity_id hash_scope : string) : string :=
  let secret := str_or consortium_secret "tarka-default-consortium-secret" in
  let normalized_entity := lower (strip entity_id) in
  let normalized_tenant := lower (strip tenant_id) in
  let payload := if bool_decide (hash_scope = "tenant") then "tenant::" +:+ normalized_tenant +:+ "::entity::" +:+ normalized_entity
                 else "entity::" +:+ normalized_entity in
  _sign payload secret.

(** * Documents *)

Definition clamp_trust (f : float) : float := fclamp (lit 1 10) (litZ 2) f.

(** [try: f(float(v)) except (TypeError, ValueError): d]. *)
Definition float_guarded (f : float -> float) (d : float) (v : pyval) : result float :=
  try_except (rmap f (py_float v)) is_type_or_value_error d.

Definition set_trust (m : result dict) (kv : string * pyval) : result dict :=
  let! m := m in
  let t := strip kv.1 in
  if nonempty t then let! f := float_guarded clamp_trust (litZ 1) kv.2 in Ok (dict_set t (PFloat f) m) else Ok m.

Definition set_count (m : result dict) (kv : string * pyval) : result dict :=
  let! m := m in
  let key := lower (strip kv.1) in
  if nonempty key then
    let! n := try_except (rmap (Z.max 0) (py_int kv.2)) is_type_or_value_error 0 in Ok (dict_set key (PInt n) m)
  else Ok m.

(** The stripped texts that are not empty, sorted. *)
Definition tenants_of (v : pyval) : result (list string) :=
  let! l := iter_or_empty v in
  Ok (sorted_set (List.filter nonempty (map (fun x => strip (py_str x)) l))).

Definition floats_of (d : dict) : list float := map (fun kv => match kv.2 with PFloat f => f | _ => f_zero end) d.
Definition ints_of (d : dict) : list Z := map (fun kv => match kv.2 with PInt n => n | _ => 0 end) d.

(** [max(0, int(current.get(k, d) or d))]. *)
Definition count_of (current : dict) (k : string) (d : Z) : result Z :=
  rmap (Z.max 0) (py_int (por (get current k (PInt d)) (PInt d))).

(** [weighted_tenant_score / max(1.0, len(tenants))]. *)
Definition per_tenant (total : float) (n : Z) : result float := fdiv total (if 1 <? n then litZ n else litZ 1).

Definition _consortium_metrics_recompute (current : dict) : result dict :=
  let! tenants := tenants_of (get current "tenants" PNone) in
  let! trust_map := foldl set_trust (Ok []) (as_dict (get current "tenant_trust" PNone)) in
  let trust_map := foldl (fun m t => dict_setdefault t (PFloat (litZ 1)) m) trust_map tenants in
  let! signal_counts := foldl set_count (Ok []) (as_dict (get current "signal_counts" PNone)) in
  let report_count_default := foldl Z.add 0 (ints_of signal_counts) in
  let! report_count := count_of current "report_count" report_count_default in
  let report_count := if (report_count =? 0) && (0 <? report_count_default) then report_count_default else report_count in
  let! max_severity := float_guarded (fclamp f_zero (litZ 5)) f_zero (por (get current "max_severity" (PFloat f_zero)) (PFloat f_zero)) in
  let! weighted_report_score := float_guarded id f_zero (por (get current "weighted_report_score" (PFloat f_zero)) (PFloat f_zero)) in
  let! weighted_report_score :=
    if fleb weighted_report_score f_zero && (0 <? report_count) then
      let! avg_trust := fdiv (py_sum (floats_of trust_map)) (litZ (Z.max 1 (Z.of_nat (length trust_map)))) in
      rmap (fun n => fmul n avg_trust) (f_of_Z report_count)
    else Ok weighted_report_score in
  let weighted_tenant_score := match trust_map with [] => f_zero | _ => py_sum (floats_of trust_map) end in
  let! false_positive_count := count_of current "false_positive_count" 0 in
  let! confirmed_fraud_count := count_of current "confirmed_fraud_count" 0 in
  let denom := Z.max 1 (false_positive_count + confirmed_fraud_count) in
  let false_positive_rate := f_of_ratio false_positive_count (Z.to_pos denom) in
  let n := Z.of_nat (length tenants) in
  let! tenths := fdiv (litZ n) (litZ 10) in
  let coverage := fmin (litZ 1) tenths in
  let! share := per_tenant weighted_tenant_score n in
  let trust_norm := fmin (lit 3 2) share in
  let quality_score := fmax (lit 1 5) (fmul (fmul coverage trust_norm) (fmax (lit 1 5) (fsub (litZ 1) false_positive_rate))) in
  Ok (dict_update current
    [("tenant_count", PInt n); ("tenants", str_list tenants); ("tenant_trust", PDict trust_map); ("signal_counts", PDict signal_counts);
     ("report_count", PInt report_count); ("max_severity", PFloat max_severity); ("weighted_tenant_score", PFloat weighted_tenant_score);
     ("weighted_report_score", PFloat weighted_report_score); ("false_positive_count", PInt false_positive_count);
     ("confirmed_fraud_count", PInt confirmed_fraud_count); ("false_positive_rate", PFloat false_positive_rate);
     ("quality_score", PFloat quality_score)]).

(** [dict(v)]. *)
Definition py_dict (v : pyval) : result dict :=
  match v with PDict d => Ok d | PList [] | PStr "" => Ok [] | _ => Err TypeError end.

(** [sorted(set(v) | {x})]: only texts can be sorted with one. *)
Definition with_member (v : pyval) (x : string) : result (list string) :=
  let! l := py_iter v in
  match all_strings l with Some l => Ok (sorted_set (l ++ [x])) | None => Err TypeError end.

(** [json.loads(raw) if raw else {}], where [.get] of anything but an object raises. *)
Definition stored_document (raw : option blob) : result dict :=
  match raw with
  | Some b =>
      if raw_truthy raw then
        let! v := loads b in match v with PDict d => Ok d | _ => Err AttributeError end
      else Ok []
  | None => Ok []
  end.

(** A report: what [_body] makes of the stored document. *)
Definition reported (consortium_id signal_type reporter_tenant : string) (severity : float) (raw : option blob) (trust_seed : float) : result dict :=
  let! current := stored_document raw in
  let! tenants := with_member (get current "tenants" (PList [])) reporter_tenant in
  let! signal_counts := py_dict (get current "signal_counts" (PDict [])) in
  let! k := py_int (get signal_counts signal_type (PInt 0)) in
  let! r := py_int (get current "report_count" (PInt 0)) in
  let! s := py_float (get current "max_severity" (PFloat f_zero)) in
  let! trust_map := py_dict (get current "tenant_trust" (PDict [])) in
  let trust_map := dict_setdefault reporter_tenant (PFloat trust_seed) trust_map in
  let! weighted := py_float (get current "weighted_report_score" (PFloat f_zero)) in
  let! trust := py_float (get trust_map reporter_tenant PNone) in
  let! fp := py_int (get current "false_positive_count" (PInt 0)) in
  let! cf := py_int (get current "confirmed_fraud_count" (PInt 0)) in
  _consortium_metrics_recompute
    [("consortium_id", PStr consortium_id); ("tenants", str_list tenants); ("tenant_trust", PDict trust_map);
     ("signal_counts", PDict (dict_set signal_type (PInt (k + 1)) signal_counts)); ("report_count", PInt (r + 1));
     ("max_severity", PFloat (fmax s severity)); ("weighted_report_score", PFloat (fadd weighted trust));
     ("false_positive_count", PInt fp); ("confirmed_fraud_count", PInt cf)].

(** Feedback: [_mutate]. *)
Definition judged (outcome : string) (current : dict) : result dict :=
  let! fp := py_int (get current "false_positive_count" (PInt 0)) in
  let! cf := py_int (get current "confirmed_fraud_count" (PInt 0)) in
  let fp := if bool_decide (outcome = "false_positive") then fp + 1 else fp in
  let cf := if bool_decide (outcome = "confirmed_fraud") then cf + 1 else cf in
  _consortium_metrics_recompute (dict_set "confirmed_fraud_count" (PInt cf) (dict_set "false_positive_count" (PInt fp) current)).

(** * The store *)

Definition CONSORTIUM_PREFIX : string := "fraud:consortium:".
Definition _key_consortium (consortium_id signal_hash : string) : string := CONSORTIUM_PREFIX +:+ consortium_id +:+ ":" +:+ signal_hash.
Definition _key_consortium_tenant_trust (consortium_id : string) : string := CONSORTIUM_PREFIX +:+ consortium_id +:+ ":tenant_trust".

(** HGET and HSET. *)
Class RedisFields (R : Type) : Type := {
  field_get : string -> string -> R -> option blob;
  field_set : string -> string -> blob -> R -> R }.

(** [data.pop(k, None)]. *)
Definition dict_pop (k : string) (d : dict) : dict := List.filter (fun kv => negb (bool_decide (kv.1 = k))) d.

Section consortium.
Context {TR R TK K : Type} `{!KeyValueCache TR R, !KeyValueCache TK K, !RedisFields R}.
Abbreviation tag_store := (tag_store (R := R) (K := K)).
Abbreviation moment := (moment (TR := TR) (TK := TK)).

(** Trust as the cache has it; the read of the map is the caller's. *)
Definition trust_in (raw : option blob) (tenant_id : string) : result float :=
  match raw with
  | Some b =>
      if raw_truthy raw then
        match loads b with
        | Ok (PDict d) => if has_key d tenant_id then float_guarded clamp_trust (litZ 1) (get d tenant_id PNone) else Ok (litZ 1)
        | _ => Ok (litZ 1)
        end
      else Ok (litZ 1)
  | None => Ok (litZ 1)
  end.

Definition _kv_trust_lookup_nolock (w : moment) (consortium_id tenant_id : string) (s : tag_store) : tag_store * result float :=
  if s.(ts_kv) then
    let '(c, raw) := kv_get w.(at_local) (_key_consortium_tenant_trust consortium_id) s.(ts_cache) in
    (with_cache c s, trust_in raw tenant_id)
  else (s, Ok (litZ 1)).

Definition get_consortium_tenant_trust (w : moment) (consortium_id tenant_id : string) (s : tag_store) : tag_store * result float :=
  when_connected w s (fun s =>
    if s.(ts_client) then
      (s, match field_get (_key_consortium_tenant_trust consortium_id) tenant_id s.(ts_redis) with
          | None => Ok (litZ 1)
          | Some b => Ok (match float_of_text b with Ok f => clamp_trust f | Err _ => litZ 1 end)
          end)
    else _kv_trust_lookup_nolock w consortium_id tenant_id s).

(** The map in the cache with the values that are numbers. *)
Definition trust_map_of (raw : option blob) : result dict :=
  match raw with
  | Some b =>
      if raw_truthy raw then
        match loads b with
        | Ok (PDict d) =>
            foldl (fun m kv => let! m := m in
                     match py_float kv.2 with
                     | Ok f => Ok (dict_set kv.1 (PFloat (clamp_trust f)) m)
                     | Err e => if is_type_or_value_error e then Ok m else Err e
                     end) (Ok []) d
        | _ => Ok []
        end
      else Ok []
  | None => Ok []
  end.

Definition set_consortium_tenant_trust (w : moment) (consortium_id tenant_id : string) (trust_score : float) (s : tag_store)
    : tag_store * result dict :=
  when_connected w s (fun s =>
    let key := _key_consortium_tenant_trust consortium_id in
    let score := clamp_trust trust_score in
    let answer := [("consortium_id", PStr consortium_id); ("tenant_id", PStr tenant_id); ("trust_score", PFloat score)] in
    if s.(ts_client) then (with_redis (field_set key tenant_id (FloatText score) s.(ts_redis)) s, Ok answer)
    else if s.(ts_kv) then
      let '(c, raw) := kv_get w.(at_local) key s.(ts_cache) in
      match trust_map_of raw with
      | Ok tmap => (with_cache (kv_set w.(at_local) key (Json (PDict (dict_set tenant_id (PFloat score) tmap))) None c) s, Ok answer)
      | Err e => (with_cache c s, Err e)
      end
    else (s, Ok answer)).

Definition ttl_of (ttl_days : Z) : Z := Z.max 1 ttl_days * 86400.

(** A stored document is replaced by what [f] makes of it. *)
Definition rewrite_document (w : moment) (key : string) (ttl : Z) (updated : result dict) (s : tag_store) : tag_store * result dict :=
  match updated with
  | Err e => (s, Err e)
  | Ok d => let '(s', r) := write_raw w key ttl (Json (PDict d)) s in (s', rmap (fun _ => d) r)
  end.

Definition record_consortium_signal (w : moment) (consortium_id signal_hash signal_type reporter_tenant : string) (severity : float)
    (ttl_days : Z) (s : tag_store) : tag_store * result dict :=
  when_connected w s (fun s =>
    let key := _key_consortium consortium_id signal_hash in
    let '(s1, raw) := read_raw w key s in
    match raw with
    | Some raw =>
        let '(s2, seed) := get_consortium_tenant_trust w consortium_id reporter_tenant s1 in
        rewrite_document w key (ttl_of ttl_days)
          (let! seed := seed in reported consortium_id signal_type reporter_tenant severity raw seed) s2
    | None =>
        (s1, Ok [("consortium_id", PStr consortium_id); ("tenant_count", PInt 0); ("tenants", PList []); ("tenant_trust", PDict []);
                 ("signal_counts", PDict []); ("report_count", PInt 0); ("max_severity", PFloat f_zero);
                 ("weighted_report_score", PFloat f_zero); ("false_positive_count", PInt 0); ("confirmed_fraud_count", PInt 0);
                 ("false_positive_rate", PFloat f_zero); ("quality_score", PFloat (lit 1 5))])
    end).

Definition no_signal (consortium_id : string) : dict :=
  [("consortium_id", PStr consortium_id); ("tenant_count", PInt 0); ("signal_counts", PDict []); ("report_count", PInt 0);
   ("max_severity", PFloat f_zero)].

(** Who reported is not told. *)
Definition shown (d : dict) : dict := dict_pop "tenant_trust" (dict_pop "tenants" d).

Definition check_consortium_signal (w : moment) (consortium_id signal_hash : string) (s : tag_store) : tag_store * result dict :=
  when_connected w s (fun s =>
    let '(s', raw) := read_raw w (_key_consortium consortium_id signal_hash) s in
    (s', match raw with
         | Some (Some b) =>
             if raw_truthy (Some b) then
               let! data := loads b in match data with PDict d => Ok (shown d) | _ => Ok (no_signal consortium_id) end
             else Ok (no_signal consortium_id)
         | _ => Ok (no_signal consortium_id)
         end)).

Definition add_consortium_feedback (w : moment) (consortium_id signal_hash outcome : string) (ttl_days : Z) (s : tag_store)
    : tag_store * result dict :=
  when_connected w s (fun s =>
    let key := _key_consortium consortium_id signal_hash in
    let '(s1, raw) := read_raw w key s in
    match raw with
    | Some raw =>
        let '(s2, d) := rewrite_document w key (ttl_of ttl_days) (let! current := stored_document raw in judged outcome current) s1 in
        (s2, rmap shown d)
    | None => (s1, rmap shown (judged outcome [("consortium_id", PStr consortium_id)]))
    end).
End consortium.

(** * The score of an evaluation *)

Definition consortium_score_delta (data : dict) (min_tenants min_reports : Z) (trust_floor max_delta : float) : result float :=
  let! tenant_count := py_int (por (get data "tenant_count" (PInt 0)) (PInt 0)) in
  let! report_count := py_int (por (get data "report_count" (PInt 0)) (PInt 0)) in
  let! max_severity := py_float (por (get data "max_severity" (PFloat f_zero)) (PFloat f_zero)) in
  let! weighted_tenant_score := py_float (por (get data "weighted_tenant_score" (PInt tenant_count)) (PInt tenant_count)) in
  let! weighted_report_score := py_float (por (get data "weighted_report_score" (PInt report_count)) (PInt report_count)) in
  let! false_positive_rate := py_float (por (get data "false_positive_rate" (PFloat f_zero)) (PFloat f_zero)) in
  let! quality_score := py_float (por (get data "quality_score" (PFloat (litZ 1))) (PFloat (litZ 1))) in
  let trust_floor := fclamp (lit 1 20) (lit 4 5) trust_floor in
  let max_delta := fclamp (litZ 1) (litZ 100) max_delta in
  let min_reports := Z.max 1 min_reports in
  if tenant_count <? Z.max 1 min_tenants then
    if report_count <? min_reports then Ok f_zero
    else rmap (fun n => fmin (litZ 6) (fmul n (lit 6 5))) (f_of_Z report_count)
  else
    let raw := fadd (fadd (fmul weighted_tenant_score (litZ 4)) (fmul weighted_report_score (lit 6 5))) (fmul max_severity (litZ 8)) in
    let adjusted := fmul (fmul raw (fmax trust_floor (fsub (litZ 1) (fmin (litZ 1) false_positive_rate))))
                         (fmax trust_floor (fmin (lit 3 2) quality_score)) in
    Ok (fmin max_delta adjusted).

(** The settings of the consortium. *)
Record consortium_settings : Type := ConsortiumSettings {
  cs_enabled : bool; cs_secret : string; cs_id : string; cs_scope : string; cs_min_tenants : Z; cs_min_reports : Z;
  cs_trust_floor : float; cs_max_delta : float }.

Section api.
Context {TR R TK K : Type} `{!KeyValueCache TR R, !KeyValueCache TK K, !RedisFields R} (cs : consortium_settings).
Abbreviation tag_store := (tag_store (R := R) (K := K)).
Abbreviation moment := (moment (TR := TR) (TK := TK)).

(** [(body.consortium_id or settings.consortium_id).strip()]. *)
Definition consortium_of (given : option string) : string := strip (str_or (opt_str given) cs.(cs_id)).
Definition signal_of (tenant_id entity_id : string) : string := hash_entity_id cs.(cs_secret) tenant_id entity_id cs.(cs_scope).

Definition share_signal (w : moment) (given : option string) (tenant_id entity_id signal_type : string) (severity : float) (ttl_days : Z)
    (s : tag_store) : tag_store * result dict :=
  if negb cs.(cs_enabled) then (s, Err (http 403 "consortium disabled")) else
  let signal_hash := signal_of tenant_id entity_id in
  let '(s', data) := record_consortium_signal w (consortium_of given) signal_hash (lower (strip signal_type)) (strip tenant_id) severity ttl_days s in
  (s', rmap (fun d => [("signal_hash", PStr signal_hash); ("consortium", PDict d)]) data).

Definition check_signal (w : moment) (given : option string) (tenant_id entity_id : string) (s : tag_store) : tag_store * result dict :=
  if negb cs.(cs_enabled) then (s, Ok [("enabled", PBool false); ("consortium", PDict [])]) else
  let signal_hash := signal_of tenant_id entity_id in
  let '(s', data) := check_consortium_signal w (consortium_of given) signal_hash s in
  (s', rmap (fun d => [("enabled", PBool true); ("signal_hash", PStr signal_hash); ("consortium", PDict d)]) data).

Definition set_tenant_trust (w : moment) (given : option string) (tenant_id : string) (trust_score : float) (s : tag_store)
    : tag_store * result dict :=
  if negb cs.(cs_enabled) then (s, Err (http 403 "consortium disabled")) else
  let '(s', data) := set_consortium_tenant_trust w (consortium_of given) (strip tenant_id) trust_score s in
  (s', rmap (fun d => [("ok", PBool true); ("trust", PDict d)]) data).

Definition add_feedback (w : moment) (given : option string) (tenant_id entity_id outcome : string) (ttl_days : Z) (s : tag_store)
    : tag_store * result dict :=
  if negb cs.(cs_enabled) then (s, Err (http 403 "consortium disabled")) else
  let signal_hash := signal_of tenant_id entity_id in
  let '(s', data) := add_consortium_feedback w (consortium_of given) signal_hash outcome ttl_days s in
  (s', rmap (fun d => [("ok", PBool true); ("signal_hash", PStr signal_hash); ("consortium", PDict d)]) data).

(** The stage of an evaluation: the delta and the tag it adds; any exception
    leaves no delta. *)
Definition consortium_stage (w : moment) (tenant_id entity_id : string) (s : tag_store) : tag_store * (float * list string) :=
  if negb cs.(cs_enabled) then (s, (f_zero, [])) else
  let '(s', data) := check_consortium_signal w cs.(cs_id) (signal_of tenant_id entity_id) s in
  (s', match (let! d := data in consortium_score_delta d cs.(cs_min_tenants) cs.(cs_min_reports) cs.(cs_trust_floor) cs.(cs_max_delta)) with
       | Ok delta => (delta, if fltb f_zero delta then ["consortium:cross_tenant_hit"] else [])
       | Err _ => (f_zero, [])
       end).
End api.

(** * What happens to a document *)

Lemma get_present d k v dflt : get d k PNone = v -> v <> PNone -> get d k dflt = v.
Proof. unfold get. intros <- H. by destruct (dict_lookup k d). Qed.

Lemma tenants_of_list l : tenants_of (str_list l) = Ok (sorted_set (List.filter nonempty (map strip l))).
Proof.
  unfold tenants_of, iter_or_empty, str_list. destruct l as [|x l]; [done|]. cbn [truthy map py_iter rbind]. do 3 f_equal.
  cbn. f_equal. rewrite map_map. done.
Qed.

Lemma recomputed_tenants current d tenants : _consortium_metrics_recompute current = Ok d ->
  tenants_of (get current "tenants" PNone) = Ok tenants ->
  get d "tenants" PNone = str_list tenants /\ get d "tenant_count" (PInt 0) = PInt (Z.of_nat (length tenants)).
Proof.
  unfold _consortium_metrics_recompute. intros H Ht. rewrite Ht in H. cbn [rbind] in H.
  repeat (apply rbind_Ok in H as (? & _ & H)). apply Ok_inj in H. subst d. unfold dict_update. cbn [foldl fst snd].
  split; repeat first [rewrite get_set_eq; reflexivity | rewrite get_set_ne by done].
Qed.

(** A document whose only reporter, if any, is [r]. *)
Definition lone_doc (r : string) (d : dict) : Prop :=
  exists l, get d "tenants" PNone = str_list l /\ get d "tenant_count" (PInt 0) = PInt (Z.of_nat (length l))
    /\ NoDup l /\ forall x, x ∈ l -> x = r.

Lemma lone_length (r : string) l : NoDup l -> (forall x, x ∈ l -> x = r) -> (length l <= 1)%nat.
Proof.
  intros Hnd Hl. destruct l as [|x [|y l]]; cbn; [lia..|]. exfalso. apply NoDup_cons in Hnd as [Hx _]. apply Hx.
  rewrite (Hl x), (Hl y); [by left|right; by left|by left].
Qed.

Lemma recomputed_lone r current l d : strip r = r -> get current "tenants" PNone = str_list l \/ get current "tenants" PNone = PNone /\ l = [] ->
  (forall x, x ∈ l -> x = r) -> _consortium_metrics_recompute current = Ok d -> lone_doc r d.
Proof.
  intros Hr Ht Hl H. eapply recomputed_tenants in H as [H1 H2].
  2:{ destruct Ht as [->|[-> ->]]; [apply tenants_of_list|reflexivity]. }
  eexists. split; [exact H1|]. split; [exact H2|]. split; [apply sorted_set_NoDup|]. intros x.
  rewrite sorted_set_elem, filter_elem, list_elem_of_In, in_map_iff. intros [(y & <- & Hy) _]. apply list_elem_of_In in Hy. by rewrite (Hl y Hy).
Qed.

(** What is stored under a key of signals: nothing, or such a document. *)
Definition lone_blob (r : string) (raw : option blob) : Prop :=
  match raw with None => True | Some b => exists d, b = Json (PDict d) /\ lone_doc r d end.

Lemma lone_tenants r raw current : lone_blob r raw -> stored_document raw = Ok current ->
  exists l, (get current "tenants" PNone = str_list l \/ get current "tenants" PNone = PNone /\ l = []) /\ (forall x, x ∈ l -> x = r)
    /\ get current "tenants" (PList []) = str_list l.
Proof.
  destruct raw as [b|]; cbn.
  - intros (d & -> & l & H1 & _ & _ & Hl) [= <-]. exists l. split; [by left|]. split; [done|]. by apply get_present.
  - intros _ [= <-]. exists []. split; [by right|]. split; [set_solver|done].
Qed.

Lemma reported_lone cid ty r sev raw seed d : strip r = r -> lone_blob r raw -> reported cid ty r sev raw seed = Ok d -> lone_doc r d.
Proof.
  intros Hr Hraw H. unfold reported in H. apply rbind_Ok in H as (current & Hc & H). apply rbind_Ok in H as (tenants & Ht & H).
  destruct (lone_tenants r raw current Hraw Hc) as (l & _ & Hl & Hlist). rewrite Hlist in Ht. unfold with_member in Ht. cbn [py_iter rbind str_list] in Ht.
  rewrite all_strings_map in Ht. apply Ok_inj in Ht. do 9 (apply rbind_Ok in H as (? & _ & H)).
  eapply (recomputed_lone r _ tenants) in H; [exact H|exact Hr|left; reflexivity|].
  intros y Hy. subst tenants. rewrite sorted_set_elem, elem_of_app, list_elem_of_singleton in Hy. destruct Hy as [Hy| ->]; [by apply Hl|done].
Qed.

Lemma judged_lone r raw current outcome d : strip r = r -> lone_blob r raw -> stored_document raw = Ok current -> judged outcome current = Ok d -> lone_doc r d.
Proof.
  intros Hr Hraw Hc H. destruct (lone_tenants r raw current Hraw Hc) as (l & Ht & Hl & _). unfold judged in H.
  do 2 (apply rbind_Ok in H as (? & _ & H)). eapply recomputed_lone in H; [exact H|exact Hr| |exact Hl]. by rewrite !get_set_ne.
Qed.

(** * What an operation does to the store *)

(** HSET touches no other key. *)
Class RedisFieldsLaws (TR R : Type) `{KeyValueLaws TR R, !RedisFields R} : Prop := {
  field_set_view (t : TR) k f v (r : R) k' : k' <> k -> kv_view t k' (field_set k f v r) = kv_view t k' r }.

Section effects.
Context {TR R TK K : Type} `{!KeyValueCache TR R, !KeyValueCache TK K, !KeyValueLaws TR R, !KeyValueLaws TK K, !RedisFields R, !RedisFieldsLaws TR R}.
Abbreviation tag_store := (tag_store (R := R) (K := K)).
Abbreviation moment := (moment (TR := TR) (TK := TK)).
Implicit Types (s : tag_store) (w : moment).

(** From [w] on the store shows what it showed, but for [key], which may also
    show nothing or a document with [P]. *)
Definition rewrites (w : moment) (key : string) (P : dict -> Prop) s s' : Prop :=
  same_mode s s' /\ forall w' key', moment_le w w' ->
    active_view w' key' s' = active_view w' key' s
    \/ key' = key /\ (active_view w' key' s' = None \/ exists d, P d /\ active_view w' key' s' = Some (Json (PDict d))).

Lemma rewrites_keep w key P s s' : same_mode s s' -> (forall w' key', moment_le w w' -> active_view w' key' s' = active_view w' key' s) -> rewrites w key P s s'.
Proof. intros Hm Hv. split; [done|]. intros w' key' Hle. left. by apply Hv. Qed.

Lemma rewrites_after w key P s s1 s2 : same_mode s s1 -> (forall w' key', moment_le w w' -> active_view w' key' s1 = active_view w' key' s) ->
  rewrites w key P s1 s2 -> rewrites w key P s s2.
Proof.
  intros (M1 & M2 & M3) Hv [(N1 & N2 & N3) Hw]. split; [unfold same_mode; by rewrite N1, N2, N3|].
  intros w' key' Hle. rewrite <- (Hv w' key' Hle). by apply Hw.
Qed.

Lemma same_available s s' : same_mode s s' -> is_tag_store_available s = true -> is_tag_store_available s' = true.
Proof. intros (H1 & _ & H3). unfold is_tag_store_available. by rewrite H1, H3. Qed.

Lemma write_rewrites w key ttl d (P : dict -> Prop) s s' r : P d -> write_raw w key ttl (Json (PDict d)) s = (s', r) -> rewrites w key P s s'.
Proof.
  intros HP. unfold write_raw, setex. destruct s as [u cl m rd kv dg c]. cbn. destruct cl.
  - destruct (ttl <=? 0); intros [= <- <-]; [by apply rewrites_keep|]. split; [done|]. intros w' key' [Hle _]. unfold active_view. cbn.
    rewrite kv_set_view by done. case_bool_decide as E; [|by left]. right. split; [done|]. destruct (kv_alive _ _ _); [right; eauto|by left].
  - destruct kv; intros [= <- <-]; [|by apply rewrites_keep]. split; [done|]. intros w' key' [_ Hle]. unfold active_view. cbn.
    rewrite kv_set_view by done. case_bool_decide as E; [|by left]. right. split; [done|]. destruct (kv_alive _ _ _); [right; eauto|by left].
Qed.

Lemma document_rewrites w key ttl updated (P : dict -> Prop) s s' r : (forall d, updated = Ok d -> P d) ->
  rewrite_document w key ttl updated s = (s', r) -> rewrites w key P s s'.
Proof.
  intros HP. unfold rewrite_document. destruct updated as [d|e]; [|intros [= <- <-]; by apply rewrites_keep].
  destruct (write_raw _ _ _ _ _) as [s1 x] eqn:E. intros [= <- <-]. by apply (write_rewrites w key ttl d P s s1 x (HP d eq_refl)).
Qed.

Lemma trust_reads w cid t s s' x : is_tag_store_available s = true -> get_consortium_tenant_trust w cid t s = (s', x) ->
  same_mode s s' /\ forall w' key', moment_le w w' -> active_view w' key' s' = active_view w' key' s.
Proof.
  intros Ha. unfold get_consortium_tenant_trust. rewrite connected_steady by done. destruct s as [u [|] m r kv d c]; cbn.
  - by intros [= <- <-].
  - unfold is_tag_store_available in Ha. cbn in Ha. subst kv. unfold _kv_trust_lookup_nolock. cbn.
    pose proof (fun t' k' => kv_get_view w.(at_local) (_key_consortium_tenant_trust cid) c t' k') as Hw.
    destruct (kv_get _ _ c) as [c' raw]. cbn in Hw. intros [= <- <-]. split; [done|]. intros w' key' [_ Hle]. by apply Hw.
Qed.

Lemma record_rewrites w cid h ty r sev ttl s s' x : is_tag_store_available s = true ->
  record_consortium_signal w cid h ty r sev ttl s = (s', x) ->
  rewrites w (_key_consortium cid h) (fun d => exists seed, reported cid ty r sev (active_view w (_key_consortium cid h) s) seed = Ok d) s s'.
Proof.
  intros Ha. unfold record_consortium_signal. rewrite connected_steady by done. destruct (read_raw w (_key_consortium cid h) s) as [s1 raw] eqn:E1.
  apply read_steady in E1 as (-> & Hm1 & Hv1); [|done]. destruct (get_consortium_tenant_trust w cid r s1) as [s2 seed] eqn:E2.
  apply trust_reads in E2 as [Hm2 Hv2]; [|by eapply same_available]. intros H. eapply rewrites_after; [exact Hm1|exact Hv1|].
  eapply rewrites_after; [exact Hm2|exact Hv2|]. eapply document_rewrites; [|exact H]. intros d Hd. apply rbind_Ok in Hd as (seed' & _ & Hd). eauto.
Qed.

Lemma feedback_rewrites w cid h outcome ttl s s' x : is_tag_store_available s = true ->
  add_consortium_feedback w cid h outcome ttl s = (s', x) ->
  rewrites w (_key_consortium cid h)
    (fun d => exists current, stored_document (active_view w (_key_consortium cid h) s) = Ok current /\ judged outcome current = Ok d) s s'.
Proof.
  intros Ha. unfold add_consortium_feedback. rewrite connected_steady by done. destruct (read_raw w (_key_consortium cid h) s) as [s1 raw] eqn:E1.
  apply read_steady in E1 as (-> & Hm1 & Hv1); [|done]. destruct (rewrite_document _ _ _ _ s1) as [s2 d] eqn:E2. intros [= <- <-].
  eapply rewrites_after; [exact Hm1|exact Hv1|]. eapply document_rewrites; [|exact E2]. intros d' Hd. by apply rbind_Ok in Hd.
Qed.

Lemma trust_rewrites w cid t score s s' x : is_tag_store_available s = true -> set_consortium_tenant_trust w cid t score s = (s', x) ->
  same_mode s s' /\ forall w' key', moment_le w w' -> key' <> _key_consortium_tenant_trust cid -> active_view w' key' s' = active_view w' key' s.
Proof.
  intros Ha. unfold set_consortium_tenant_trust. rewrite connected_steady by done. destruct s as [u [|] m r kv d c]; cbn.
  - intros [= <- <-]. split; [done|]. intros w' key' _ Hk. unfold active_view. cbn. by apply field_set_view.
  - unfold is_tag_store_available in Ha. cbn in Ha. subst kv. cbn.
    pose proof (fun t' k' => kv_get_view w.(at_local) (_key_consortium_tenant_trust cid) c t' k') as Hw.
    destruct (kv_get _ _ c) as [c' raw]. cbn in Hw. destruct (trust_map_of raw); intros [= <- <-]; (split; [done|]);
      intros w' key' [_ Hle] Hk; unfold active_view; cbn; [rewrite kv_set_view by done; rewrite bool_decide_eq_false_2 by done|]; by apply Hw.
Qed.

(** ** Histories *)

Inductive consortium_op : Type :=
| Share (w : moment) (given : option string) (tenant entity signal_type : string) (severity : float) (ttl_days : Z)
| Judge (w : moment) (given : option string) (tenant entity outcome : string) (ttl_days : Z)
| Trust (w : moment) (given : option string) (tenant : string) (score : float).

Definition op_at (op : consortium_op) : moment := match op with Share w _ _ _ _ _ _ | Judge w _ _ _ _ _ | Trust w _ _ _ => w end.

Definition do_op (cs : consortium_settings) (op : consortium_op) s : tag_store :=
  match op with
  | Share w g t e ty sev ttl => (share_signal cs w g t e ty sev ttl s).1
  | Judge w g t e o ttl => (add_feedback cs w g t e o ttl s).1
  | Trust w g t x => (set_tenant_trust cs w g t x s).1
  end.

Fixpoint ops_in_order (from : moment) (ops : list consortium_op) (until : moment) : Prop :=
  match ops with
  | [] => moment_le from until
  | op :: ops' => moment_le from (op_at op) /\ ops_in_order (op_at op) ops' until
  end.

(** Whoever shares the signal under [key] is the tenant [r]. *)
Definition reporter_is (cs : consortium_settings) (key r : string) (op : consortium_op) : Prop :=
  match op with
  | Share _ g t e _ _ _ => _key_consortium (consortium_of cs g) (signal_of cs t e) = key -> strip t = r
  | _ => True
  end.

Definition lone_key (r key : string) (from : moment) s : Prop := forall w, moment_le from w -> lone_blob r (active_view w key s).

Lemma lone_rewritten r key key' w P s s' : rewrites w key' P s s' -> lone_key r key w s -> (key' = key -> forall d, P d -> lone_doc r d) -> lone_key r key w s'.
Proof.
  intros [_ Hv] Hl HP w' Hw. destruct (Hv w' key Hw) as [->|[-> [->|(d & Hd & ->)]]]; [by apply Hl|done|]. exists d. split; [done|]. by apply HP.
Qed.

Lemma hex_no_colon x : all_chars is_hex x = true -> all_chars not_colon x = true.
Proof. apply all_chars_impl. intros c Hc. unfold not_colon. destruct (Ascii.eqb c ":") eqn:E; [|done]. apply Ascii.eqb_eq in E. by subst c. Qed.

Lemma signal_hex cs t e : all_chars is_hex (signal_of cs t e) = true.
Proof. unfold signal_of, hash_entity_id, _sign, hex_of. by rewrite !all_chars_app, !hex8_hex. Qed.

(** A key of signals is not one of trust. *)
Lemma trust_key_other cid h cid' : all_chars is_hex h = true -> _key_consortium cid h <> _key_consortium_tenant_trust cid'.
Proof.
  intros Hh E. unfold _key_consortium, _key_consortium_tenant_trust in E. cbn in E. injection E as E.
  change (cid' +:+ ":tenant_trust") with (cid' +:+ ":" +:+ "tenant_trust") in E.
  apply colon_split_last in E as [_ ->]; [done|by apply hex_no_colon|done].
Qed.

Lemma op_lone cs op from s key r : is_tag_store_available s = true -> strip r = r -> moment_le from (op_at op) -> reporter_is cs key r op ->
  (exists cid h, key = _key_consortium cid h /\ all_chars is_hex h = true) -> lone_key r key from s ->
  is_tag_store_available (do_op cs op s) = true /\ lone_key r key (op_at op) (do_op cs op s).
Proof.
  intros Ha Hr Hle Hrep (cid & h & Hkey & Hh) Hl.
  assert (Hl' : lone_key r key (op_at op) s) by (intros w Hw; apply Hl; by eapply moment_le_trans).
  destruct op as [w g t e ty sev ttl|w g t e o ttl|w g t x]; cbn [do_op op_at reporter_is] in *.
  - unfold share_signal. destruct (cs_enabled cs); cbn [negb fst]; [|done]. destruct (record_consortium_signal _ _ _ _ _ _ _ s) as [s' y] eqn:E. cbn [fst].
    apply record_rewrites in E; [|done]. split; [eapply same_available; [apply E|done]|]. eapply lone_rewritten; [exact E|exact Hl'|].
    intros Hk d (seed & Hd). specialize (Hrep Hk). subst r. eapply reported_lone; [done| |exact Hd]. rewrite Hk. apply Hl', moment_le_refl.
  - unfold add_feedback. destruct (cs_enabled cs); cbn [negb fst]; [|done]. destruct (add_consortium_feedback _ _ _ _ _ s) as [s' y] eqn:E. cbn [fst].
    apply feedback_rewrites in E; [|done]. split; [eapply same_available; [apply E|done]|]. eapply lone_rewritten; [exact E|exact Hl'|].
    intros Hk d (current & Hc & Hd). eapply judged_lone; [done| |exact Hc|exact Hd]. rewrite Hk. apply Hl', moment_le_refl.
  - unfold set_tenant_trust. destruct (cs_enabled cs); cbn [negb fst]; [|done]. destruct (set_consortium_tenant_trust _ _ _ _ s) as [s' y] eqn:E. cbn [fst].
    apply trust_rewrites in E as [Hm Hv]; [|done]. split; [by eapply same_available|]. intros w' Hw'. rewrite Hv by (done || (subst key; by apply trust_key_other)).
    by apply Hl'.
Qed.

Lemma history_lone cs ops from until s key r : is_tag_store_available s = true -> strip r = r -> ops_in_order from ops until ->
  Forall (reporter_is cs key r) ops -> (exists cid h, key = _key_consortium cid h /\ all_chars is_hex h = true) -> lone_key r key from s ->
  is_tag_store_available (foldl (fun s op => do_op cs op s) s ops) = true /\ lone_key r key until (foldl (fun s op => do_op cs op s) s ops).
Proof.
  intros Ha Hr Hord Hrep Hkey Hl. revert from s Ha Hord Hl. induction ops as [|op ops IH]; intros from s Ha Hord Hl; cbn.
  { split; [done|]. intros w Hw. apply Hl. by eapply moment_le_trans. }
  apply Forall_cons in Hrep as [Hop Hrep]. destruct Hord as [Hle Hord]. destruct (op_lone cs op from s key r Ha Hr Hle Hop Hkey Hl) as [Ha' Hl'].
  by eapply IH.
Qed.

Lemma get_pop k k' d dflt : k <> k' -> get (dict_pop k' d) k dflt = get d k dflt.
Proof.
  intros Hk. unfold get, dict_pop. f_equal. induction d as [|[x v] d IH]; [done|]. cbn. case_bool_decide as E; cbn.
  - subst x. by rewrite bool_decide_eq_false_2.
  - by rewrite IH.
Qed.

Lemma capped_six n x : rmap (fun n => fmin (litZ 6) (fmul n (lit 6 5))) (f_of_Z n) = Ok x -> fleb x (litZ 6) = true.
Proof. destruct (f_of_Z n); [|done]. intros [= <-]. by apply fmin_le. Qed.

(** Below the number of tenants asked for. *)
Lemma few_tenants_delta data min_tenants min_reports floor cap n x : get data "tenant_count" (PInt 0) = PInt n -> n < Z.max 1 min_tenants ->
  consortium_score_delta data min_tenants min_reports floor cap = Ok x -> fleb x (litZ 6) = true.
Proof.
  intros Hn Hlt H. unfold consortium_score_delta in H. rewrite Hn in H.
  assert (Hint : py_int (por (PInt n) (PInt 0)) = Ok n) by (unfold por; cbn; destruct (n =? 0) eqn:E; cbn; [f_equal; lia|done]).
  rewrite Hint in H. cbn [rbind] in H. do 6 (apply rbind_Ok in H as (? & _ & H)). apply Z.ltb_lt in Hlt. rewrite Hlt in H.
  destruct (x0 <? Z.max 1 min_reports); [apply Ok_inj in H; by subst x|by eapply capped_six].
Qed.

(** C9: one tenant cannot move the others' scores.  With a required minimum of
    two tenants or more and a signal that starts empty, if every report that
    reached an entity's signal came from one and the same tenant, then through
    every history of reports, feedback and trust scores of all tenants, with
    expiring signals, on Redis or on the cache, the consortium stage of an
    evaluation of that entity adds at most 6 to its score. *)
Theorem lone_reporter_bounded cs ops from until s r tenant entity : is_tag_store_available s = true -> 2 <= cs.(cs_min_tenants) -> strip r = r ->
  let key := _key_consortium cs.(cs_id) (signal_of cs tenant entity) in
  (forall w, active_view w key s = None) -> ops_in_order from ops until -> Forall (reporter_is cs key r) ops ->
  fleb (consortium_stage cs until tenant entity (foldl (fun s op => do_op cs op s) s ops)).2.1 (litZ 6) = true.
Proof.
  intros Ha Hmin Hr key Hempty Hord Hrep.
  destruct (history_lone cs ops from until s key r) as [Ha' Hl]; try done; [do 2 eexists; split; [done|apply signal_hex]|intros w _; by rewrite Hempty|].
  unfold consortium_stage. destruct (cs_enabled cs); [|done]. cbn [negb]. unfold check_consortium_signal. rewrite connected_steady by done.
  destruct (read_raw until _ _) as [s' raw] eqn:E. apply read_steady in E as (-> & _); [|done]. specialize (Hl until (moment_le_refl _)). fold key.
  assert (Hcount : forall data, get data "tenant_count" (PInt 0) = PInt 0 \/ (exists n, get data "tenant_count" (PInt 0) = PInt n /\ n <= 1) ->
    fleb (match consortium_score_delta data cs.(cs_min_tenants) cs.(cs_min_reports) cs.(cs_trust_floor) cs.(cs_max_delta) with
          | Ok delta => (delta, if fltb f_zero delta then ["consortium:cross_tenant_hit"] else [])
          | Err _ => (f_zero, [])
          end).1 (litZ 6) = true).
  { intros data Hd. destruct (consortium_score_delta data _ _ _ _) as [x|] eqn:Ex; [|done]. cbn [fst].
    destruct Hd as [Hd|(n & Hd & Hn)]; (eapply few_tenants_delta; [exact Hd| |exact Ex]; lia). }
  destruct (active_view until key _) as [b|].
  - destruct Hl as (d & -> & l & _ & Hc & Hnd & Hone). cbn. apply Hcount. right. exists (Z.of_nat (length l)). unfold shown.
    rewrite !get_pop by done. split; [done|]. pose proof (lone_length r l Hnd Hone). lia.
  - cbn. apply Hcount. by left.
Qed.
End effects.

(** Whatever a signal's document and the settings hold, infinities and NaN
    included, the delta it gives is a number of at most 100. *)
Theorem consortium_delta_capped data min_tenants min_reports floor cap x :
  consortium_score_delta data min_tenants min_reports floor cap = Ok x -> fleb x (litZ 100) = true.
Proof.
  intros H. unfold consortium_score_delta in H. do 7 (apply rbind_Ok in H as (? & _ & H)). repeat case_match.
  - by apply Ok_inj in H as <-.
  - eapply fleb_trans; [by eapply capped_six|done].
  - apply Ok_inj in H as <-. eapply fleb_trans; [apply fmin_le|].
    + apply (fleb_not_nan _ (litZ 100)). apply fmax_le; [done|]. by apply fmin_le.
    + apply fmax_le; [done|]. by apply fmin_le.
Qed.

(** * Runs *)

(** A server with string keys and hashes. *)
Abbreviation server := (redis_map * gmap (string * string) blob)%type.

#[export] Instance ServerCache : KeyValueCache Z server := {
  kv_get now k s := let '(m, v) := kv_get now k s.1 in ((m, s.2), v);
  kv_set now k v ttl s := (kv_set now k v ttl s.1, s.2);
  kv_delete k s := (kv_delete k s.1, s.2) }.

#[export] Program Instance ServerLaws : KeyValueLaws Z server := {
  kv_le := Z.le; kv_view t k s := kv_view t k s.1; kv_alive := kv_alive (K := redis_map) }.
Next Obligation. lia. Qed.
Next Obligation. lia. Qed.
Next Obligation. exact (kv_alive_sooner (KeyValueLaws := RedisMapLaws)). Qed.
Next Obligation. intros t t' k s v. exact (kv_view_sooner (KeyValueLaws := RedisMapLaws) t t' k s.1 v). Qed.
Next Obligation. done. Qed.
Next Obligation. done. Qed.
Next Obligation. intros t k v ttl s t' k'. exact (kv_set_view (KeyValueLaws := RedisMapLaws) t k v ttl s.1 t' k'). Qed.
Next Obligation. intros t k s k'. exact (kv_delete_view (KeyValueLaws := RedisMapLaws) t k s.1 k'). Qed.

#[export] Instance ServerFields : RedisFields server := {
  field_get k f s := s.2 !! (k, f); field_set k f v s := (s.1, <[(k, f) := v]> s.2) }.

#[export] Instance ServerFieldsLaws : RedisFieldsLaws Z server.
Proof. split. done. Qed.

Definition demo_consortium : consortium_settings := ConsortiumSettings true "secret" "default" "consortium" 2 3 (lit 1 5) (litZ 35).
Definition demo_redis : tag_store (R := server) (K := local_cache) := TagStore "redis://cache:6379" true true (∅, ∅) false false ∅.
Definition at_min (n : Z) : moment (TR := Z) (TK := float) := At (60000 * n) (litZ (60 * n)) true (fun _ => Answered).

Definition demo_shares : list (consortium_op (TR := Z) (TK := float)) :=
  [Share (at_min 1) None "acme" "u1" "Chargeback" (litZ 5) 30; Share (at_min 2) None "acme" "u1" "chargeback" (litZ 5) 30;
   Trust (at_min 3) None "acme" (litZ 2); Share (at_min 4) None " acme" "U1 " "mule" (litZ 5) 30;
   Judge (at_min 6) None "globex" "u1" "confirmed_fraud" 30].

Lemma lone_reporter_bounded_witness :
  fleb (consortium_stage demo_consortium (at_min 7) "globex" "u1" (foldl (fun s op => do_op demo_consortium op s) demo_redis demo_shares)).2.1
    (litZ 6) = true.
Proof.
  apply (lone_reporter_bounded demo_consortium demo_shares (at_min 0) (at_min 7) demo_redis "acme" "globex" "u1"); [done|cbn; lia|done|done| |].
  - cbn. split_and!; repeat split; try (cbn; lia); right; vm_compute; reflexivity.
  - repeat (constructor; [intros ?; reflexivity|]). constructor; [exact I|]. repeat (constructor; [first [exact I|intros ?; reflexivity]|]). constructor.
Defined.

(** The same reports on the store itself, and what they come to. *)
Definition demo_reports : tag_store (R := server) (K := local_cache) :=
  foldl (fun s n => (record_consortium_signal (at_min n) "default" "0a1b" "mule" "acme" (litZ 5) 30 s).1) demo_redis [1; 2; 3].

Definition demo_document : dict :=
  match (check_consortium_signal (at_min 4) "default" "0a1b" demo_reports).2 with Ok d => d | Err _ => [] end.

Example lone_reports_add_little :
  get demo_document "report_count" PNone = PInt 3 /\ get demo_document "tenant_count" PNone = PInt 1
  /\ consortium_score_delta demo_document 2 3 (lit 1 5) (litZ 35) = Ok (fmul (litZ 3) (lit 6 5))
  /\ consortium_score_delta demo_document 2 4 (lit 1 5) (litZ 35) = Ok f_zero.
Proof. vm_compute. done. Qed.

Lemma consortium_delta_capped_witness : exists x, consortium_score_delta demo_document 1 3 (lit 1 5) (litZ 500) = Ok x /\ fleb x (litZ 100) = true.
Proof.
  destruct (consortium_score_delta demo_document 1 3 (lit 1 5) (litZ 500)) as [x|e] eqn:E; [|exfalso; vm_compute in E; discriminate E].
  exists x. split; [reflexivity|]. exact (consortium_delta_capped demo_document 1 3 (lit 1 5) (litZ 500) x E).
Defined.

(** Two reports on Redis that both read before either writes: one is lost, and
    with it a tenant. *)
Example report_lost :
  let key := _key_consortium "default" "0a1b" in
  let w := at_min 1 in
  let '(s1, raw1) := read_raw w key demo_redis in
  let '(s2, raw2) := read_raw w key s1 in
  let body raw t := reported "default" "mule" t (litZ 1) (default None raw) (litZ 1) in
  let s3 := (rewrite_document w key (ttl_of 30) (body raw1 "acme") s2).1 in
  let s4 := (rewrite_document w key (ttl_of 30) (body raw2 "globex") s3).1 in
  match (check_consortium_signal w "default" "0a1b" s4).2 with
  | Ok d => get d "report_count" PNone = PInt 1 /\ get d "tenant_count" PNone = PInt 1
  | Err _ => False
  end.
Proof. vm_compute. done. Qed.

(** A trust score that is not a number counts as the highest one. *)
Example nan_trust_is_highest : clamp_trust f_nan = litZ 2.
Proof. reflexivity. Qed.
