(* ===== verification/Velocity.v ===== *)
(** Velocity: the sliding-window aggregates of [shared/fraud_aggregates.py], the
    event time of [shared/event_time.py], and their stage in
    [decision_api/evaluate/pipeline.py].

    Redis sorted sets are an interface with laws: a set lists its members by score
    and then by name, and is gone when its lifetime has run out.  ZADD and EXPIRE
    of a key stand in one transaction and are one command here.  One reading of the
    clock serves an evaluation. *)

From Stdlib Require Import ZArith Lia Ascii String Bool SpecFloat.
From stdpp Require Import base option list sorting strings gmap.
From S2P Require Import Prelude PyFloat PyValue PyDateTime LabelStore EntityLists TagStore.
Local Open Scope Z_scope.

(** * Event time *)

(** [ts.timestamp()], a naive time taken as UTC. *)
Definition timestamp (d : datetime) : float :=
  f_of_ratio (d.(dt_wall) - default 0 d.(dt_offset)) 1000000.

Definition parse_event_time_to_unix (raw : pyval) : result (option float) :=
  match raw with
  | PInt _ | PFloat _ =>
      let! f := py_float raw in
      if fleb f f_zero then Ok None
      else if fltb (litZ 1000000000000) f then rmap Some (fdiv f (litZ 1000))
      else Ok (Some f)
  | PStr s =>
      let s := strip s in
      if negb (nonempty s) then Ok None
      else match f_of_string s with
           | Ok f => Ok (Some f)
           | Err _ =>
               let s := if endswith s "Z" then str_take (String.length s - 1) s +:+ "+00:00" else s in
               match fromisoformat s with Ok d => Ok (Some (timestamp d)) | Err _ => Ok None end
           end
  | _ => Ok None
  end.

Definition _METADATA_KEYS : list string := ["event_time"; "event_ts"; "occurred_at"].

(** The first of the keys that is there decides, even if it has no time. *)
Definition time_under (keys : list string) (d : dict) : result (option float) :=
  match List.find (has_key d) keys with Some k => parse_event_time_to_unix (get d k PNone) | None => Ok None end.

Definition event_time_unix_from_metadata (metadata : option dict) : result (option float) :=
  match metadata with Some d => time_under _METADATA_KEYS d | None => Ok None end.

Definition event_time_unix_for_evaluate (metadata payload : option dict) : result (option float) :=
  let! t := event_time_unix_from_metadata metadata in
  match t with
  | Some t => Ok (Some t)
  | None => match payload with Some d => time_under _METADATA_KEYS d | None => Ok None end
  end.

(** * Aggregates *)

Definition AGG_PREFIX : string := "fraud:agg:".
Definition MAX_WINDOW : Z := 86400 * 30.

Definition version_char (c : ascii) : bool := py_isalnum c || is_dot_dash c || Ascii.eqb c ":".
Definition _agg_key_version_segment (env : string) : string :=
  let raw := strip env in
  if negb (nonempty raw) || negb (all_chars version_char raw) then "" else raw +:+ ":".

Definition NUMERIC_FIELDS : list string := ["amount"; "score"; "price"; "quantity"; "original_amount"].
Definition DISTINCT_FIELDS : list string :=
  ["ip_address"; "device_id"; "session_id"; "email"; "phone"; "card_hash"; "country"; "original_currency"].
Definition _FEATURE_KINDS : list string := ["event_count"; "sum"; "avg"; "distinct"].

Definition agg_key (vs tenant_id entity_id metric : string) : string :=
  AGG_PREFIX +:+ vs +:+ tenant_id +:+ ":" +:+ entity_id +:+ ":" +:+ metric.

Class SortedSets (T R : Type) : Type := {
  zadd_expire : T -> string -> string -> float -> Z -> R -> R;
  zrange : T -> string -> R -> list (string * float) }.

Definition is_number (v : pyval) : bool := match v with PBool _ | PInt _ | PFloat _ => true | _ => false end.

(** The sets and members an event goes to. *)
Definition field_members (event_id : string) (fv : string * pyval) : list (string * string) :=
  (if mem fv.1 NUMERIC_FIELDS && is_number fv.2 then [("field:" +:+ fv.1, event_id +:+ ":" +:+ py_str fv.2)] else [])
  ++ (if mem fv.1 DISTINCT_FIELDS && negb (is_none fv.2) then [("distinct:" +:+ fv.1, py_str fv.2)] else []).
Definition event_members (event_id : string) (fields : dict) : list (string * string) :=
  ("events", event_id) :: flat_map (field_members event_id) fields.

Section aggregates.
Context {T R : Type} `{SortedSets T R} (vs : string).

(** Redis refuses a score that is not a number; the lifetimes that the
    transaction still extends are left as they were. *)
Definition record_event (at_ : T) (clock : float) (tenant_id entity_id event_id : string) (fields : dict) (ts : option float) (s : R)
    : R * result unit :=
  let now := default clock ts in
  if is_nan now then (s, Err RedisError)
  else (foldl (fun s mm => zadd_expire at_ (agg_key vs tenant_id entity_id mm.1) mm.2 now (MAX_WINDOW + 3600) s) s
          (event_members event_id fields), Ok tt).

Definition cutoff (clock : float) (window_seconds : Z) : float := fsub clock (litZ (Z.min window_seconds MAX_WINDOW)).

(** ZCOUNT and ZRANGEBYSCORE from a score on. *)
Definition zfrom (from : float) (l : list (string * float)) : list (string * float) := List.filter (fun mx => fleb from mx.2) l.

Definition count (at_ : T) (clock : float) (tenant_id entity_id : string) (window_seconds : Z) (s : R) : Z :=
  Z.of_nat (length (zfrom (cutoff clock window_seconds) (zrange at_ (agg_key vs tenant_id entity_id "events") s))).

(** [float(str(m).rsplit(":", 1)[-1])]. *)
Fixpoint after_last_colon (s : string) : string :=
  match s with
  | EmptyString => EmptyString
  | String c s' => if contains ":" s' then after_last_colon s' else if Ascii.eqb c ":" then s' else s
  end.
Definition member_value (m : string) : option float := match f_of_string (after_last_colon m) with Ok f => Some f | Err _ => None end.

Definition window_values (at_ : T) (clock : float) (tenant_id entity_id field : string) (window_seconds : Z) (s : R) : list (option float) :=
  map (fun mx => member_value mx.1)
    (zfrom (cutoff clock window_seconds) (zrange at_ (agg_key vs tenant_id entity_id ("field:" +:+ field)) s)).

Definition total_of (values : list (option float)) : float := foldl (fun acc v => match v with Some f => fadd acc f | None => acc end) f_zero values.

Definition sum_field (at_ : T) (clock : float) (tenant_id entity_id field : string) (window_seconds : Z) (s : R) : float :=
  total_of (window_values at_ clock tenant_id entity_id field window_seconds s).

Definition avg_of (values : list (option float)) : result (option float) :=
  match values with
  | [] => Ok None
  | _ =>
      let n := length (List.filter (fun v => match v with Some _ => true | None => false end) values) in
      if (n =? 0)%nat then Ok None else rmap Some (fdiv (total_of values) (litZ (Z.of_nat n)))
  end.

Definition avg_field (at_ : T) (clock : float) (tenant_id entity_id field : string) (window_seconds : Z) (s : R) : result (option float) :=
  avg_of (window_values at_ clock tenant_id entity_id field window_seconds s).

Definition distinct_count (at_ : T) (clock : float) (tenant_id entity_id field : string) (window_seconds : Z) (s : R) : Z :=
  Z.of_nat (length (zfrom (cutoff clock window_seconds) (zrange at_ (agg_key vs tenant_id entity_id ("distinct:" +:+ field)) s))).

(** ** Feature outputs *)

(** [kind in _FEATURE_KINDS]: a list or a dictionary cannot be hashed. *)
Definition in_kinds (v : pyval) : result bool :=
  match v with PStr k => Ok (mem k _FEATURE_KINDS) | PList _ | PDict _ => Err TypeError | _ => Ok false end.

Definition row_name (row : dict) : string := strip (str_or_empty (get row "name" PNone)).

Definition valid_row (row : dict) : result bool :=
  match py_int (get row "window_seconds" (PInt 0)) with
  | Err e => if is_type_or_value_error e then Ok false else Err e
  | Ok window =>
      if nonempty (row_name row) then
        let! known := in_kinds (get row "kind" PNone) in Ok (known && (0 <? window) && (window <=? MAX_WINDOW))
      else Ok false
  end.

Definition valid_feature_output_rows (raw : list pyval) : result (list dict) :=
  foldl (fun acc row =>
    let! kept := acc in
    match row with
    | PDict d => let! ok := valid_row d in Ok (if ok then kept ++ [d] else kept)
    | _ => Ok kept
    end) (Ok []) raw.

Definition output_row (name kind : string) (field : option string) (window : Z) : dict :=
  [("name", PStr name); ("kind", PStr kind)] ++ match field with Some f => [("field", PStr f)] | None => [] end ++ [("window_seconds", PInt window)].

Definition DEFAULT_FEATURE_OUTPUTS : list dict :=
  [output_row "event_count_5m" "event_count" None 300; output_row "event_count_1h" "event_count" None 3600;
   output_row "event_count_24h" "event_count" None 86400; output_row "event_count_7d" "event_count" None 604800;
   output_row "sum_amount_1h" "sum" (Some "amount") 3600; output_row "avg_amount_1h" "avg" (Some "amount") 3600;
   output_row "sum_amount_24h" "sum" (Some "amount") 86400; output_row "avg_amount_24h" "avg" (Some "amount") 86400;
   output_row "distinct_ip_address_24h" "distinct" (Some "ip_address") 86400;
   output_row "distinct_device_id_24h" "distinct" (Some "device_id") 86400;
   output_row "distinct_session_id_24h" "distinct" (Some "session_id") 86400].

(** [bundled] are the rows of the manifest file that are objects, if it has a list. *)
Definition _rows_for_compute (bundled : option (list dict)) (feature_outputs : option (list pyval)) : result (list dict) :=
  let raw := match feature_outputs with Some l => l | None => match bundled with Some l => map PDict l | None => [] end end in
  let! rows := valid_feature_output_rows raw in
  Ok (match rows with [] => DEFAULT_FEATURE_OUTPUTS | _ => rows end).

(** [field in fields] for a key of any kind. *)
Definition in_fields (field : pyval) (fields : dict) : result bool :=
  match field with PStr f => Ok (has_key fields f) | PList _ | PDict _ => Err TypeError | _ => Ok false end.

Definition opt_float (o : option float) : pyval := match o with Some f => PFloat f | None => PNone end.

Definition feature_of (at_ : T) (clock : float) (tenant_id entity_id : string) (fields : dict) (s : R) (features : dict) (row : dict) : result dict :=
  let name := row_name row in
  let kind := get row "kind" PNone in
  let! window := py_int (get row "window_seconds" PNone) in
  let field := get row "field" PNone in
  if eq_str kind "event_count" then Ok (dict_set name (PInt (count at_ clock tenant_id entity_id window s)) features)
  else if eq_str kind "sum" || eq_str kind "avg" then
    let! there := if is_none field then Ok false else in_fields field fields in
    if negb there then Ok features
    else if eq_str kind "sum" then Ok (dict_set name (PFloat (sum_field at_ clock tenant_id entity_id (py_str field) window s)) features)
    else let! a := avg_field at_ clock tenant_id entity_id (py_str field) window s in Ok (dict_set name (opt_float a) features)
  else if negb (eq_str kind "distinct") then Ok features
  else
    let! there := if truthy field then let! known := in_fields field fields in Ok (known && truthy (get fields (py_str field) PNone)) else Ok false in
    if there then
      Ok (dict_set name (PInt (distinct_count at_ clock tenant_id entity_id (py_str field) window s)) features)
    else Ok features.

Definition compute_features (bundled : option (list dict)) (at_ : T) (clock : float) (tenant_id entity_id : string) (fields : dict)
    (feature_outputs : option (list pyval)) (s : R) : result dict :=
  let! rows := _rows_for_compute bundled feature_outputs in
  foldl (fun acc row => let! features := acc in feature_of at_ clock tenant_id entity_id fields s features row) (Ok []) rows.

(** The stage of an evaluation: the aggregates of the events before this one, and
    then, unless it is a shadow request, this event. *)
Definition velocity_stage (bundled : option (list dict)) (at_ : T) (clock : float) (tenant_id entity_id trace_id : string)
    (metadata payload : option dict) (shadow_request : bool) (features : dict) (s : R) : R * result dict :=
  match compute_features bundled at_ clock tenant_id entity_id features None s with
  | Err e => (s, Err e)
  | Ok agg =>
      let features := dict_update features agg in
      if shadow_request then (s, Ok features)
      else match event_time_unix_for_evaluate metadata payload with
           | Err e => (s, Err e)
           | Ok ts => let '(s', r) := record_event at_ clock tenant_id entity_id trace_id features ts s in (s', rmap (fun _ => features) r)
           end
  end.
End aggregates.

(** * What sorted sets promise *)

Definition z_before (a b : string * float) : Prop := fltb a.2 b.2 = true \/ (feqb a.2 b.2 = true /\ String.le a.1 b.1).
#[export] Instance z_before_dec : RelDecision z_before.
Proof. intros a b. unfold z_before. apply _. Defined.

(** The members by score and name. *)
Definition z_listing (m : gmap string float) : list (string * float) := merge_sort z_before (map_to_list m).

Class SortedSetLaws (T R : Type) `{SortedSets T R} : Type := {
  z_le : T -> T -> Prop;
  z_le_refl t : z_le t t;
  z_le_trans t t' t'' : z_le t t' -> z_le t' t'' -> z_le t t'';
  z_alive : T -> Z -> T -> bool;
  z_alive_now t ttl : 0 < ttl -> z_alive t ttl t = true;
  zscores : T -> string -> R -> gmap string float;
  zrange_listing t k s : zrange t k s = z_listing (zscores t k s);
  zadd_scores t k m x ttl s t' k' : z_le t t' ->
    zscores t' k' (zadd_expire t k m x ttl s)
    = if bool_decide (k' = k) then (if z_alive t ttl t' then <[m := x]> (zscores t k s) else ∅) else zscores t' k' s }.

(** ** A server *)

Abbreviation zserver := (gmap string (Z * gmap string float)).
Definition zserver_scores (t : Z) (k : string) (s : zserver) : gmap string float :=
  match s !! k with Some (e, m) => if t <? e then m else ∅ | None => ∅ end.

#[export] Instance ZServer : SortedSets Z zserver := {
  zadd_expire t k m x ttl s := <[k := (t + 1000 * ttl, <[m := x]> (zserver_scores t k s))]> s;
  zrange t k s := z_listing (zserver_scores t k s) }.

#[export] Program Instance ZServerLaws : SortedSetLaws Z zserver := {
  z_le := Z.le; z_alive t ttl t' := t' <? t + 1000 * ttl; zscores := zserver_scores }.
Next Obligation. lia. Qed.
Next Obligation. lia. Qed.
Next Obligation. intros t ttl H. apply Z.ltb_lt. lia. Qed.
Next Obligation. done. Qed.
Next Obligation.
  intros t k m x ttl s t' k' Hle. cbn. unfold zserver_scores at 1. case_bool_decide as E; [subst k'; by rewrite lookup_insert_eq|by rewrite lookup_insert_ne].
Qed.

(** * Windows are exact *)

(** The sets of an entity. *)
Inductive metric : Type :=
| Events
| NumericOf (field : string)
| DistinctOf (field : string).

Definition metric_text (m : metric) : string :=
  match m with Events => "events" | NumericOf f => "field:" +:+ f | DistinctOf f => "distinct:" +:+ f end.
Definition metric_ok (m : metric) : Prop :=
  match m with Events => True | NumericOf f => f ∈ NUMERIC_FIELDS | DistinctOf f => f ∈ DISTINCT_FIELDS end.

Lemma field_plain f : f ∈ NUMERIC_FIELDS \/ f ∈ DISTINCT_FIELDS -> all_chars not_colon f = true /\ f <> "events".
Proof. unfold NUMERIC_FIELDS, DISTINCT_FIELDS. intros H. set_unfold in H. destruct_or! H; by subst. Qed.

Lemma fields_apart f : f ∈ NUMERIC_FIELDS -> f ∈ DISTINCT_FIELDS -> False.
Proof. unfold NUMERIC_FIELDS, DISTINCT_FIELDS. intros H H'. set_unfold in H. set_unfold in H'. destruct_or! H; subst f; by destruct_or! H'. Qed.

(** A key ends in a name without a colon. *)
Definition metric_front (e : string) (m : metric) : string :=
  match m with Events => e | NumericOf _ => e +:+ ":" +:+ "field" | DistinctOf _ => e +:+ ":" +:+ "distinct" end.
Definition metric_last (m : metric) : string := match m with Events => "events" | NumericOf f | DistinctOf f => f end.

Lemma metric_split e m : e +:+ ":" +:+ metric_text m = metric_front e m +:+ ":" +:+ metric_last m.
Proof. destruct m; [done|cbn [metric_front metric_last]; by rewrite !sapp_assoc..]. Qed.

Lemma metric_last_plain m : metric_ok m -> all_chars not_colon (metric_last m) = true.
Proof. destruct m; cbn; [done|intros H; apply field_plain; auto..]. Qed.

Lemma metric_inj e e' m m' : metric_ok m -> metric_ok m' -> e +:+ ":" +:+ metric_text m = e' +:+ ":" +:+ metric_text m' -> e = e' /\ m = m'.
Proof.
  intros Hm Hm' E. rewrite !metric_split in E. apply colon_split_last in E as [E1 E2]; [|by apply metric_last_plain..].
  destruct m as [|f|f], m' as [|f'|f']; cbn [metric_front metric_last metric_ok] in *; subst.
  - done.
  - by destruct (field_plain "events" (or_introl Hm')).
  - by destruct (field_plain "events" (or_intror Hm')).
  - by destruct (field_plain "events" (or_introl Hm)).
  - by apply colon_split_last in E1 as [-> _].
  - by destruct (fields_apart f' Hm Hm').
  - by destruct (field_plain "events" (or_intror Hm)).
  - by destruct (fields_apart f' Hm' Hm).
  - by apply colon_split_last in E1 as [-> _].
Qed.

(** ** Printed numbers *)

Lemma digits_plain fuel n acc : 0 <= n -> all_chars not_colon acc = true -> all_chars not_colon (digits_fuel fuel n acc) = true.
Proof.
  revert n acc. induction fuel as [|fuel IH]; intros n acc Hn Ha; [done|]. cbn [digits_fuel].
  assert (Hd : all_chars not_colon (String (digit_char (n mod 10)) acc) = true).
  { cbn [all_chars]. rewrite Ha, andb_true_r. pose proof (Z.mod_pos_bound n 10 ltac:(lia)) as Hb.
    assert (Hc : n mod 10 ∈ [0; 1; 2; 3; 4; 5; 6; 7; 8; 9]) by (set_unfold; lia).
    set_unfold in Hc. by destruct_or! Hc; rewrite Hc. }
  destruct (n / 10 =? 0); [done|]. apply IH; [|done]. apply Z.div_pos; lia.
Qed.

Lemma Z_plain n : all_chars not_colon (Z_to_string n) = true.
Proof.
  unfold Z_to_string. destruct (n <? 0) eqn:E; [change (all_chars not_colon (digits_fuel (S (Z.to_nat (Z.log2 (- n)))) (- n) "") = true)|];
    apply digits_plain; (done || lia).
Qed.

Lemma drop_plain n s : all_chars not_colon s = true -> all_chars not_colon (str_drop n s) = true.
Proof. revert s. induction n as [|n IH]; intros [|c s]; try done. cbn. intros [_ H]%andb_prop. by apply IH. Qed.

Lemma take_plain n s : all_chars not_colon s = true -> all_chars not_colon (str_take n s) = true.
Proof.
  unfold str_take. revert n. induction s as [|c s IH]; intros [|n] H; try done. cbn in *. apply andb_prop in H as [-> H]. by apply IH.
Qed.

Lemma zeros_plain n : all_chars not_colon (zeros n) = true.
Proof. by induction n. Qed.

Lemma trailing_plain s : all_chars not_colon s = true -> all_chars not_colon (drop_trailing_zeros s) = true.
Proof.
  unfold drop_trailing_zeros. rewrite all_chars_rev, <- (all_chars_rev _ s). generalize (String.rev s). clear s.
  induction s as [|c s IH]; [done|]. intros H. assert (Hs : all_chars not_colon s = true) by (cbn [all_chars] in H; by apply andb_prop in H as [_ H]).
  destruct c as [[] [] [] [] [] [] [] []]; try exact H. exact (IH Hs).
Qed.

Lemma layout_plain ds k : all_chars not_colon ds = true -> all_chars not_colon (layout ds k) = true.
Proof.
  intros H. assert (Hm : all_chars not_colon match ds with String c EmptyString => ds | String c r => String c (String "." r)
                         | EmptyString => EmptyString end = true) by (destruct ds as [|c [|c' r]]; exact H).
  unfold layout. cases_if; rewrite ?all_chars_app, ?Hm, ?take_plain, ?drop_plain, ?zeros_plain, ?H by done; try done.
  all: cbn; by rewrite ?Z_plain.
Qed.

(** A number is printed without a colon. *)
Lemma number_plain v : match v with PBool _ | PInt _ | PFloat _ => True | _ => False end -> all_chars not_colon (py_str v) = true.
Proof.
  destruct v as [|b|n|f| | |]; try done; cbn [py_str py_repr]; intros _; [by destruct b|apply Z_plain|].
  destruct f as [[]|[]| |sg m e]; try done. unfold f_repr. destruct (f_ratio _) as [[a b]|]; [|done]. destruct (shortest_search _ _ _ _ _ _) as [d p].
  rewrite all_chars_app, layout_plain by (apply trailing_plain, Z_plain). by destruct sg.
Qed.

Lemma contains_colon s : contains ":" s = negb (all_chars not_colon s).
Proof.
  induction s as [|c s IH]; [done|]. cbn [contains all_chars]. rewrite IH, negb_andb. f_equal.
  destruct c as [[] [] [] [] [] [] [] []]; by destruct s.
Qed.

Lemma after_colon a b : all_chars not_colon b = true -> after_last_colon (a +:+ ":" +:+ b) = b.
Proof.
  intros Hb. induction a as [|c a IH].
  - change (after_last_colon (String ":" b) = b). cbn [after_last_colon]. by rewrite contains_colon, Hb.
  - rewrite sapp_cons. cbn [after_last_colon]. rewrite contains_colon, !all_chars_app. cbn. by rewrite andb_false_r.
Qed.

(** How many members of a set have at least a score. *)
Definition window_size (from : float) (m : gmap string float) : Z := Z.of_nat (size (filter (fun kx => fleb from kx.2 = true) m)).

Lemma list_filter_bool {A : Type} (f : A -> bool) l : List.filter f l = filter (fun x => f x = true) l.
Proof. induction l as [|x l IH]; [done|]. cbn [List.filter]. rewrite filter_cons, IH. destruct (f x) eqn:E; [by rewrite decide_True|by rewrite decide_False by congruence]. Qed.

Lemma window_count from m : Z.of_nat (length (zfrom from (z_listing m))) = window_size from m.
Proof.
  unfold zfrom, z_listing, window_size. rewrite list_filter_bool, merge_sort_Permutation, map_filter_alt, map_size_list_to_map; [done|].
  eapply sublist_NoDup; [apply (NoDup_fst_map_to_list m)|]. apply fmap_sublist, sublist_filter.
Qed.

Section windows.
Context {T R : Type} `{!SortedSets T R, !SortedSetLaws T R} (vs : string).

Record event_op : Type := EventOp {
  eo_at : T; eo_clock : float; eo_tenant : string; eo_entity : string; eo_id : string; eo_fields : dict; eo_ts : option float }.

Definition record_op (s : R) (op : event_op) : R :=
  (record_event vs op.(eo_at) op.(eo_clock) op.(eo_tenant) op.(eo_entity) op.(eo_id) op.(eo_fields) op.(eo_ts) s).1.

(** ** The reference

    What an event shows of an aggregate: its id; its number in a field, under the
    id and the number as printed, with the number read back; the value of a field. *)
Definition values_of (field : string) (fields : dict) : list pyval :=
  map snd (List.filter (fun kv => bool_decide (kv.1 = field)) fields).

Definition sightings (op : event_op) (m : metric) : list (string * option float) :=
  match m with
  | Events => [(op.(eo_id), None)]
  | NumericOf f =>
      flat_map (fun v => match v with
                         | PBool _ | PInt _ | PFloat _ =>
                             [(op.(eo_id) +:+ ":" +:+ py_str v, match f_of_string (py_str v) with Ok x => Some x | Err _ => None end)]
                         | _ => []
                         end) (values_of f op.(eo_fields))
  | DistinctOf f => flat_map (fun v => match v with PNone => [] | _ => [(py_str v, None)] end) (values_of f op.(eo_fields))
  end.

(** Per tenant, entity and aggregate: when it was last written, and the last time
    and the number of every sighting since it was last idle for 30 days and an hour. *)
Definition ledger : Type := string -> string -> metric -> option (T * gmap string (float * option float)).
Definition alive (t : T) (x : option (T * gmap string (float * option float))) : gmap string (float * option float) :=
  match x with Some (t0, m) => if z_alive t0 2595600 t then m else ∅ | None => ∅ end.

Definition seen (time : float) (m : gmap string (float * option float)) (kv : string * option float) : gmap string (float * option float) :=
  <[kv.1 := (time, kv.2)]> m.

Definition note_event (l : ledger) (op : event_op) : ledger :=
  fun tn en m =>
    if bool_decide ((tn, en) = (op.(eo_tenant), op.(eo_entity))) then
      match sightings op m with
      | [] => l tn en m
      | sg => Some (op.(eo_at), foldl (seen (default op.(eo_clock) op.(eo_ts))) (alive op.(eo_at) (l tn en m)) sg)
      end
    else l tn en m.

(** A window reaches back its length, 30 days at most; its sightings by time. *)
Definition window_start (clock : float) (w : Z) : float := fsub clock (litZ (Z.min w 2592000)).
Definition window_sightings (from : float) (m : gmap string (float * option float)) : list string :=
  map fst (List.filter (fun kx => fleb from kx.2) (z_listing (fst <$> m))).
Definition numbers_in (from : float) (m : gmap string (float * option float)) : list (option float) :=
  map (fun k => m !! k ≫= snd) (window_sightings from m).

Fixpoint events_in_order (from : T) (ops : list event_op) (until : T) : Prop :=
  match ops with [] => z_le from until | op :: ops' => z_le from op.(eo_at) /\ events_in_order op.(eo_at) ops' until end.

(** A clock reading is a number, a tenant has no colon. *)
Definition event_ok (op : event_op) : Prop := is_nan (default op.(eo_clock) op.(eo_ts)) = false /\ plain_tenant op.(eo_tenant).

Lemma agg_key_inj t e m t' e' m' : plain_tenant t -> plain_tenant t' -> metric_ok m -> metric_ok m' ->
  agg_key vs t' e' (metric_text m') = agg_key vs t e (metric_text m) -> (t', e') = (t, e) /\ metric_text m' = metric_text m.
Proof.
  intros Ht Ht' Hm Hm' E. unfold agg_key in E. cbn in E. injection E as E. apply (sapp_inj vs) in E.
  apply colon_split in E as [-> E]; [|done..]. by apply metric_inj in E as [-> ->].
Qed.

Lemma members_metrics id fields mm : mm ∈ event_members id fields -> exists m, mm.1 = metric_text m /\ metric_ok m.
Proof.
  unfold event_members. rewrite list_elem_of_In. intros [<-|H]; [by exists Events|]. apply in_flat_map in H as ([f v] & _ & H).
  unfold field_members in H. cbn [fst snd] in H. apply in_app_or in H as [H|H].
  - destruct (mem f NUMERIC_FIELDS) eqn:E; [|done]. destruct (is_number v); [|done]. destruct H as [<-|[]]. exists (NumericOf f). split; [done|]. by apply mem_spec.
  - destruct (mem f DISTINCT_FIELDS) eqn:E; [|done]. destruct (is_none v); [done|]. destruct H as [<-|[]]. exists (DistinctOf f). split; [done|]. by apply mem_spec.
Qed.

(** The members of one set among those of an event. *)
Definition members_of (m : metric) (mms : list (string * string)) : list string :=
  map snd (List.filter (fun mm => bool_decide (mm.1 = metric_text m)) mms).

Lemma text_field_apart f g : bool_decide ("field:" +:+ f = "distinct:" +:+ g) = false.
Proof. by apply bool_decide_eq_false_2. Qed.
Lemma text_distinct_apart f g : bool_decide ("distinct:" +:+ f = "field:" +:+ g) = false.
Proof. by apply bool_decide_eq_false_2. Qed.
Lemma text_same p f g : bool_decide (p +:+ f = p +:+ g) = bool_decide (f = g).
Proof. apply bool_decide_ext. split; [apply sapp_inj|by intros ->]. Qed.

(** One field of an event. *)
Lemma field_sightings op m fv : metric_ok m ->
  members_of m (field_members op.(eo_id) fv)
  = map fst (match m with
             | Events => []
             | _ => sightings (EventOp op.(eo_at) op.(eo_clock) op.(eo_tenant) op.(eo_entity) op.(eo_id) [fv] op.(eo_ts)) m
             end).
Proof.
  intros Hm. destruct fv as [f v]. unfold members_of, field_members. cbn [fst snd].
  destruct m as [|g|g]; cbn [metric_text metric_ok sightings eo_fields eo_id values_of] in *.
  - destruct (mem f NUMERIC_FIELDS && is_number v), (mem f DISTINCT_FIELDS && negb (is_none v)); done.
  - unfold values_of. cbn [List.filter fst]. rewrite List.filter_app, map_app.
    assert (Hd : List.filter (fun mm : string * string => bool_decide (mm.1 = "field:" +:+ g))
      (if mem f DISTINCT_FIELDS && negb (is_none v) then [("distinct:" +:+ f, py_str v)] else []) = []).
    { destruct (_ && _); [|done]. cbn [List.filter fst]. by rewrite text_distinct_apart. }
    rewrite Hd, app_nil_r. case_bool_decide as E.
    + subst g. apply mem_spec in Hm. rewrite Hm. destruct v; try done; cbn [is_number andb List.filter fst]; by rewrite text_same, bool_decide_eq_true_2.
    + destruct (mem f NUMERIC_FIELDS && is_number v); cbn [List.filter fst]; [by rewrite text_same, bool_decide_eq_false_2 by done|done].
  - unfold values_of. cbn [List.filter fst]. rewrite List.filter_app, map_app.
    assert (Hd : List.filter (fun mm : string * string => bool_decide (mm.1 = "distinct:" +:+ g))
      (if mem f NUMERIC_FIELDS && is_number v then [("field:" +:+ f, eo_id op +:+ ":" +:+ py_str v)] else []) = []).
    { destruct (_ && _); [|done]. cbn [List.filter fst]. by rewrite text_field_apart. }
    rewrite Hd. cbn [map app]. case_bool_decide as E.
    + subst g. apply mem_spec in Hm. rewrite Hm. destruct v; try done; cbn [is_none negb andb List.filter fst]; by rewrite text_same, bool_decide_eq_true_2.
    + destruct (mem f DISTINCT_FIELDS && negb (is_none v)); cbn [List.filter fst]; [by rewrite text_same, bool_decide_eq_false_2 by done|done].
Qed.

(** The code's members are the sightings. *)
Lemma members_sightings op m : metric_ok m -> members_of m (event_members op.(eo_id) op.(eo_fields)) = map fst (sightings op m).
Proof.
  intros Hm. unfold members_of, event_members. cbn [List.filter fst]. pose proof (fun fv => field_sightings op m fv Hm) as Hfield.
  assert (Hall : members_of m (flat_map (field_members op.(eo_id)) op.(eo_fields))
    = match m with Events => [] | _ => map fst (sightings op m) end).
  { destruct op as [at_ cl tn en id fields ts]. cbn [eo_id eo_fields eo_at eo_clock eo_tenant eo_entity eo_ts] in *.
    induction fields as [|fv fields IH]; [by destruct m|]. cbn [flat_map]. unfold members_of in *. rewrite List.filter_app, map_app, Hfield, IH.
    clear Hfield IH. destruct m as [|f|f]; [done|..]; cbn [sightings eo_fields eo_id]; unfold values_of; cbn [List.filter];
      (destruct (bool_decide (fv.1 = f)); cbn [map flat_map]; [|done]); by rewrite app_nil_r, <- map_app. }
  unfold members_of in Hall. destruct m as [|f|f]; cbn [metric_text] in *.
  - rewrite bool_decide_eq_true_2 by done. cbn [map snd]. by rewrite Hall.
  - rewrite bool_decide_eq_false_2 by done. exact Hall.
  - rewrite bool_decide_eq_false_2 by done. exact Hall.
Qed.
(** A transaction writes the members of each set and moves its lifetime on. *)
Lemma zadds_scores t tn en x mms s t' tn' en' m : z_le t t' -> plain_tenant tn -> plain_tenant tn' -> metric_ok m ->
  (forall mm, mm ∈ mms -> exists m, mm.1 = metric_text m /\ metric_ok m) ->
  zscores t' (agg_key vs tn' en' (metric_text m))
    (foldl (fun s mm => zadd_expire t (agg_key vs tn en mm.1) mm.2 x (MAX_WINDOW + 3600) s) s mms)
  = if bool_decide ((tn', en') = (tn, en)) then
      match members_of m mms with
      | [] => zscores t' (agg_key vs tn' en' (metric_text m)) s
      | ks => if z_alive t 2595600 t' then foldl (fun acc k => <[k := x]> acc) (zscores t (agg_key vs tn' en' (metric_text m)) s) ks else ∅
      end
    else zscores t' (agg_key vs tn' en' (metric_text m)) s.
Proof.
  intros Hle Ht Ht' Hm. revert s. induction mms as [|[mt k] mms IH]; intros s Hmm; [by case_bool_decide|]. cbn [foldl fst snd].
  rewrite IH by (intros mm Hin; apply Hmm; by right). destruct (Hmm (mt, k)) as (m1 & E & Hm1); [by left|]. cbn [fst] in E. subst mt.
  unfold members_of. cbn [List.filter fst]. fold (members_of m mms). rewrite !zadd_scores by (done || apply z_le_refl).
  change (MAX_WINDOW + 3600) with 2595600. destruct (decide ((tn', en') = (tn, en))) as [E|E].
  - injection E as -> ->. rewrite (bool_decide_eq_true_2 ((tn, en) = (tn, en))) by done.
    destruct (decide (metric_text m1 = metric_text m)) as [E|E].
    + rewrite E, !bool_decide_eq_true_2 by done. rewrite z_alive_now by lia. cbn [map snd foldl].
      destruct (members_of m mms) eqn:Em; unfold members_of in Em; rewrite Em; [done|]. by destruct (z_alive t 2595600 t').
    + rewrite (bool_decide_eq_false_2 (metric_text m1 = metric_text m)) by done.
      assert (Hk : agg_key vs tn en (metric_text m) <> agg_key vs tn en (metric_text m1)) by (intros [_ ?]%agg_key_inj; try done; congruence).
      by rewrite !bool_decide_eq_false_2 by done.
  - rewrite !(bool_decide_eq_false_2 ((tn', en') = (tn, en))) by done. rewrite bool_decide_eq_false_2; [done|]. by intros [? _]%agg_key_inj.
Qed.

(** The sets hold the ledger's times, and its numbers are those the code reads back. *)
Definition holds_ledger (now : T) (s : R) (l : ledger) : Prop :=
  forall t tn en m, z_le now t -> plain_tenant tn -> metric_ok m -> zscores t (agg_key vs tn en (metric_text m)) s = fst <$> alive t (l tn en m).
Definition true_numbers (l : ledger) : Prop :=
  forall tn en f t0 m k xv, l tn en (NumericOf f) = Some (t0, m) -> m !! k = Some xv -> xv.2 = member_value k.

Lemma seen_times x m sg : fst <$> foldl (seen x) m sg = foldl (fun acc k => <[k := x]> acc) (fst <$> m) (map fst sg).
Proof. revert m. induction sg as [|kv sg IH]; intros m; [done|]. cbn [foldl map]. rewrite IH. unfold seen. by rewrite fmap_insert. Qed.

Lemma sighting_number op f kv : kv ∈ sightings op (NumericOf f) -> kv.2 = member_value kv.1.
Proof.
  cbn [sightings]. rewrite list_elem_of_In, in_flat_map. intros (v & _ & H).
  assert (Hn : forall v, match v with PBool _ | PInt _ | PFloat _ => True | _ => False end ->
    match f_of_string (py_str v) with Ok x => Some x | Err _ => None end = member_value (op.(eo_id) +:+ ":" +:+ py_str v)).
  { intros u Hu. unfold member_value. by rewrite after_colon by (by apply number_plain). }
  destruct v; try done; destruct H as [<-|[]]; by apply Hn.
Qed.

Lemma event_holds now op s l : z_le now op.(eo_at) -> event_ok op -> holds_ledger now s l -> holds_ledger op.(eo_at) (record_op s op) (note_event l op).
Proof.
  intros Hle [Hnan Ht] Hh t tn en m Hle' Htn Hm. unfold record_op, record_event, note_event. rewrite Hnan. cbn [fst].
  rewrite zadds_scores by (done || apply members_metrics). rewrite members_sightings by done.
  assert (H1 : zscores t (agg_key vs tn en (metric_text m)) s = fst <$> alive t (l tn en m)) by (apply Hh; [by eapply z_le_trans|done..]).
  case_bool_decide; [|done]. destruct (sightings op m) as [|kv sg] eqn:E; [done|]. cbn [map]. unfold alive at 1.
  destruct (z_alive (eo_at op) 2595600 t); [|by rewrite fmap_empty]. rewrite seen_times. cbn [map]. f_equal. by apply Hh.
Qed.

Lemma alive_lookup t x k v : alive t x !! k = Some v -> exists t0 m, x = Some (t0, m) /\ m !! k = Some v.
Proof. destruct x as [[t0 m]|]; cbn; [destruct (z_alive _ _ _)|]; try done. eauto. Qed.

Lemma event_numbers op l : true_numbers l -> true_numbers (note_event l op).
Proof.
  intros Hl tn en f t0 m k xv. unfold note_event. case_bool_decide; [|by apply Hl].
  destruct (sightings op (NumericOf f)) as [|kv sg] eqn:E; [by apply Hl|].
  intros Hx%(inj Some)%(f_equal snd). cbn [snd] in Hx. subst m.
  assert (Hsg : forall kv, kv ∈ sightings op (NumericOf f) -> kv.2 = member_value kv.1) by (by intros; eapply sighting_number).
  rewrite E in Hsg. clear E. set (m0 := alive _ _).
  assert (H0 : forall k xv, m0 !! k = Some xv -> xv.2 = member_value k).
  { intros k' xv' (t1 & m1 & E & Hk)%alive_lookup. by eapply Hl. }
  clearbody m0. revert m0 H0. induction (kv :: sg) as [|kv' sg' IH]; intros m0 H0; [by apply H0|]. cbn [foldl]. apply IH; [intros; apply Hsg; by right|].
  intros k' xv'. unfold seen. rewrite lookup_insert_Some. intros [[<- <-]|[_ H']]; [|by apply H0]. cbn. apply Hsg. by left.
Qed.

Lemma events_hold ops now until s l : events_in_order now ops until -> Forall event_ok ops -> holds_ledger now s l -> true_numbers l ->
  holds_ledger until (foldl record_op s ops) (foldl note_event l ops) /\ true_numbers (foldl note_event l ops).
Proof.
  revert now s l. induction ops as [|op ops IH]; intros now s l Hord Hok Hh Hn; cbn [foldl].
  - split; [|done]. intros t tn en m Hle. apply Hh. by eapply z_le_trans.
  - destruct Hord as [Hle Hord]. apply Forall_cons in Hok as [Hop Hok].
    eapply IH; [exact Hord|exact Hok|by eapply event_holds|by apply event_numbers].
Qed.

Lemma numbers_read from l t tn en f : true_numbers l ->
  map (fun mx => member_value mx.1) (zfrom from (z_listing (fst <$> alive t (l tn en (NumericOf f))))) = numbers_in from (alive t (l tn en (NumericOf f))).
Proof.
  intros Hn. unfold numbers_in, window_sightings, zfrom. rewrite map_map. set (m := alive t _). apply map_ext_in. intros [k x] Hin. cbn [fst].
  apply filter_In in Hin as [Hin _]. rewrite <- list_elem_of_In in Hin. unfold z_listing in Hin. rewrite merge_sort_Permutation in Hin.
  apply elem_of_map_to_list in Hin. rewrite lookup_fmap in Hin. destruct (m !! k) as [xv|] eqn:E; [|done]. cbn.
  apply alive_lookup in E as (t0 & m1 & E & Hk). symmetry. by eapply Hn.
Qed.

Lemma total_present z (xs : list (option float)) :
  foldl (fun acc v => match v with Some f => fadd acc f | None => acc end) z xs = foldl fadd z (omap id xs).
Proof. revert z. induction xs as [|[x|] xs IH]; intros z; [done|apply IH..]. Qed.

(** C11: velocity is exact.  After every history of recorded events, for tenants
    without a colon, the count of a window is the number of event ids of the
    entity whose last time is not before the window, the distinct count of a field
    is the number of its printed values seen in the window, and a sum or an average
    takes in the numbers of the field given in the window, in the order of time,
    one per event id and printed number; all since the aggregate was last idle for
    30 days and an hour, when Redis drops it. *)
Theorem velocity_exact ops now until s tenant entity field clock w :
  (forall t k, zscores t k s = ∅) -> events_in_order now ops until -> Forall event_ok ops -> plain_tenant tenant ->
  let l := foldl note_event (fun _ _ _ => None) ops in
  let held m := alive until (l tenant entity m) in
  let s' := foldl record_op s ops in
  let from := window_start clock w in
  count vs until clock tenant entity w s' = window_size from (fst <$> held Events)
  /\ (field ∈ DISTINCT_FIELDS ->
      distinct_count vs until clock tenant entity field w s' = window_size from (fst <$> held (DistinctOf field)))
  /\ (field ∈ NUMERIC_FIELDS ->
      window_values vs until clock tenant entity field w s' = numbers_in from (held (NumericOf field))
      /\ sum_field vs until clock tenant entity field w s' = foldl fadd f_zero (omap id (numbers_in from (held (NumericOf field))))).
Proof.
  intros Hempty Hord Hok Ht l held s' from. destruct (events_hold ops now until s (fun _ _ _ => None) Hord Hok) as [Hh Hn]; [|done|].
  { intros t tn en m _ _ _. by rewrite Hempty. }
  fold s' l in Hh, Hn.
  assert (Hr : forall m, metric_ok m -> zrange until (agg_key vs tenant entity (metric_text m)) s' = z_listing (fst <$> held m)).
  { intros m Hm. rewrite zrange_listing. f_equal. apply Hh; [apply z_le_refl|done..]. }
  assert (Hv : field ∈ NUMERIC_FIELDS -> window_values vs until clock tenant entity field w s' = numbers_in from (held (NumericOf field))).
  { intros Hf. unfold window_values. rewrite (Hr (NumericOf field) Hf : zrange _ (agg_key vs tenant entity ("field:" +:+ field)) _ = _).
    by apply numbers_read. }
  split_and!; [|intros Hf..].
  - unfold count. by rewrite (Hr Events I : zrange _ (agg_key vs tenant entity "events") _ = _), window_count.
  - unfold distinct_count. by rewrite (Hr (DistinctOf field) Hf : zrange _ (agg_key vs tenant entity ("distinct:" +:+ field)) _ = _), window_count.
  - split; [by apply Hv|]. unfold sum_field, total_of. rewrite Hv by done. apply total_present.
Qed.
End windows.

(** * Runs *)

Definition demo_event (sec : Z) (entity id : string) (amount : Z) (ip : string) (ts : option Z) : event_op (T := Z) :=
  EventOp (1000 * sec) (litZ sec) "acme" entity id [("amount", PInt amount); ("ip_address", PStr ip)] (option_map litZ ts).

Definition demo_events : list (event_op (T := Z)) :=
  [demo_event 100 "u1" "e1" 20 "10.0.0.1" None; demo_event 160 "u1" "e2" 5 "10.0.0.2" None; demo_event 170 "u2" "e3" 7 "10.0.0.1" None;
   demo_event 180 "u1" "e4" 12 "10.0.0.2" None].

Lemma velocity_exact_witness :
  let s := foldl (record_op "") (∅ : zserver) demo_events in
  count "" 200000 (litZ 200) "acme" "u1" 60 s = 2 /\ distinct_count "" 200000 (litZ 200) "acme" "u1" "ip_address" 60 s = 1.
Proof.
  destruct (velocity_exact "" demo_events 0 200000 (∅ : zserver) "acme" "u1" "ip_address" (litZ 200) 60) as (H1 & H2 & _).
  - intros t k. reflexivity.
  - cbn. lia.
  - repeat constructor.
  - reflexivity.
  - assert (Hf : "ip_address" ∈ DISTINCT_FIELDS) by (by left). cbv zeta. rewrite H1, (H2 Hf). vm_compute. split; reflexivity.
Defined.

(** A late event lowers the score of a value that was seen since, and takes it out
    of the window. *)
Example late_event_hides_value :
  let s := foldl (record_op "") (∅ : zserver) [demo_event 180 "u1" "e1" 20 "10.0.0.1" None] in
  let s' := record_op "" s (demo_event 190 "u1" "e2" 20 "10.0.0.1" (Some 90)) in
  distinct_count "" 200000 (litZ 200) "acme" "u1" "ip_address" 60 s = 1
  /\ distinct_count "" 200000 (litZ 200) "acme" "u1" "ip_address" 60 s' = 0.
Proof. vm_compute. done. Qed.

(** An event recorded again with another amount counts once but adds both. *)
Example amended_amount_added_twice :
  let s := foldl (record_op "") (∅ : zserver) [demo_event 180 "u1" "e1" 20 "10.0.0.1" None; demo_event 190 "u1" "e1" 30 "10.0.0.1" None] in
  count "" 200000 (litZ 200) "acme" "u1" 60 s = 1 /\ sum_field "" 200000 (litZ 200) "acme" "u1" "amount" 60 s = litZ 50.
Proof. vm_compute. done. Qed.

(** As a text, an event time passes without the checks that a number meets. *)
Example event_time_text_unchecked :
  parse_event_time_to_unix (PInt 0) = Ok None /\ parse_event_time_to_unix (PStr "0") = Ok (Some f_zero)
  /\ parse_event_time_to_unix (PInt 1700000000000) = Ok (Some (litZ 1700000000))
  /\ parse_event_time_to_unix (PStr "1700000000000") = Ok (Some (litZ 1700000000000))
  /\ parse_event_time_to_unix (PStr "2023-11-14T22:13:20Z") = Ok (Some (litZ 1700000000)).
Proof. vm_compute. done. Qed.

(** An event time of [nan] makes the evaluation fail. *)
Example nan_event_time_raises :
  velocity_stage "" (Some []) 200000 (litZ 200) "acme" "u1" "e1" (Some [("event_time", PStr "nan")]) None false [] (∅ : zserver)
  = (∅, Err RedisError).
Proof. vm_compute. reflexivity. Qed.

(** An endless window in a manifest is not skipped but raises. *)
Example endless_window_raises :
  valid_feature_output_rows [PDict [("name", PStr "all"); ("kind", PStr "event_count"); ("window_seconds", PFloat f_inf)]] = Err OverflowError.
Proof. reflexivity. Qed.
