(* ===== verification/Enrichment.v ===== *)
(** The graph and feature enrichment of an evaluation:
    [decision_api/evaluate/enrichment.py], [decision_api/graph_risk_freshness.py],
    the attention part of [decision_api/graph_intel.py], the graph routing of
    [decision_api/main.py], and the graph and growth stages of
    [decision_api/evaluate/pipeline.py].

    The HTTP client is a parameter: from the address and the parameters or the
    body it gives the decoded answer, or how the exchange ends ([TimedOut]: the
    timeout of the step cancels it).  Clock readings are inputs.  Of the metrics
    only the count of calls an open graph circuit refused is kept; logs and request
    headers are left out, and the objects of the event whose attention is asked for
    are an input of the graph stage ([DecisionGraph] builds them). *)

From Stdlib Require Import ZArith Lia Ascii String Bool.
From stdpp Require Import base option list sorting strings gmap.
From S2P Require Import Prelude PyFloat PyValue PyDateTime JsonRules Circuit Score Outcome EvalSteps Evaluate EntityLists.
Import JsonRules.Rollout.
Local Open Scope Z_scope.

Abbreviation client := (string -> dict -> hop_attempt pyval).

(** * Freshness of graph data *)

Record GraphFreshnessResult : Type := Freshness { action : string; age_minutes : option float }.

Definition _parse_iso_utc (value : pyval) : result (option Z) :=
  match value with
  | PNone => Ok None
  | _ =>
      let text := strip (py_str value) in
      if negb (nonempty text) then Ok None
      else
        let text := if endswith text "Z" then str_take (String.length text - 1) text +:+ "+00:00" else text in
        match fromisoformat text with
        | Err ValueError => Ok None
        | Err e => Err e
        | Ok dt => rmap Some (astimezone_utc (assume_utc dt))
        end
  end.

Definition policies : list string := ["warn"; "skip"; "fail_closed"].

(** One part of the text between commas; [None] when it is passed over. *)
Definition policy_part (part0 : string) : option (string * string) :=
  let part := strip part0 in
  match split_on ":" part with
  | et0 :: rest0 :: rest =>
      let et := lower (strip et0) in
      let act := lower (strip (sjoin ":" (rest0 :: rest))) in
      if nonempty et && mem act policies then Some (et, act) else None
  | _ => None
  end.

Definition parse_freshness_policy_by_event (raw : string) : gmap string string :=
  if negb (nonempty (strip raw)) then ∅
  else foldl (fun out part => match policy_part part with Some (et, act) => <[et := act]> out | None => out end)
         ∅ (split_on "," raw).

(** [age <= n] of a float and an integer. *)
Definition at_most (age : float) (n : Z) : bool :=
  match cmp_Z_float n age with Some Lt | None => false | Some _ => true end.

(** [(now - as_of).total_seconds() / 60.0]; instants are microseconds. *)
Definition age_of (now as_of : Z) : result float := fdiv (f_of_ratio (now - as_of) 1000000) (litZ 60).

Definition known_policy (p : string) : string := if mem p policies then p else "warn".

Definition evaluate_graph_risk_freshness (now : Z) (payload : dict) (max_age_minutes : Z) (event_type : option string)
    (default_policy : string) (policy_by_event_type : gmap string string) : result GraphFreshnessResult :=
  if max_age_minutes <=? 0 then Ok (Freshness "ok" None)
  else
    let raw := get payload "graph_data_as_of" PNone in
    if negb (truthy raw) then Ok (Freshness "ok" None)
    else
      let! as_of := _parse_iso_utc raw in
      match as_of with
      | None => Ok (Freshness "ok" None)
      | Some t =>
          let! age := age_of now t in
          if at_most age max_age_minutes then Ok (Freshness "ok" (Some age))
          else
            let et := lower (strip (opt_str event_type)) in
            Ok (Freshness (known_policy (default default_policy (policy_by_event_type !! et))) (Some age))
      end.

Definition warn_if_graph_risk_stale (now : Z) (payload : dict) (max_age_minutes : Z) : result (option float) :=
  let! r := evaluate_graph_risk_freshness now payload max_age_minutes None "warn" ∅ in
  Ok (if bool_decide (r.(action) = "ok") then None else r.(age_minutes)).

(** * Calls behind a circuit *)

Definition hmap {A B : Type} (f : A -> B) (a : hop_attempt A) : hop_attempt B :=
  match a with Returned v => Returned (f v) | TimedOut => TimedOut | HttpError n => HttpError n | Raised n => Raised n end.

Definition returns {A : Type} (a : hop_attempt A) : bool := match a with Returned _ => true | _ => false end.

Definition exn_name (e : pyexn) : string :=
  match e with
  | TypeError => "TypeError" | ValueError => "ValueError" | KeyError => "KeyError" | AttributeError => "AttributeError"
  | OverflowError => "OverflowError" | ZeroDivisionError => "ZeroDivisionError" | IndexError => "IndexError" | OtherError n => n
  end.

Definition of_result {A : Type} (r : result A) : hop_attempt A :=
  match r with Ok a => Returned a | Err e => Raised (exn_name e) end.

(** One exchange: the circuit's clock before and after it, and the client. *)
Record exchange : Type := Exchange { ex_enter : float; ex_leave : float; ex_now : Z; ex_client : client }.

(** [AsyncCircuitBreaker.call] of an operation that ends as [op]; [None] is [CircuitOpenError]. *)
Definition circuit_call {A : Type} (x : exchange) (op : hop_attempt A) (b : Async.breaker)
    : Async.breaker * option (hop_attempt A) :=
  let '(b, admitted) := Async.admission x.(ex_enter) b in
  if admitted then (Async.settle x.(ex_leave) (returns op) b, Some op) else (b, None).

(** The circuit of the graph service, the degrade tags of the evaluation and the
    counter [tarka_circuit_open_total_graph]. *)
Record hop_state : Type := HopState { hs_circuit : Async.breaker; hs_tags : list string; hs_refused : Z }.

Definition with_tags (tags : list string) (s : hop_state) : hop_state := HopState s.(hs_circuit) tags s.(hs_refused).
Definition with_circuit (b : Async.breaker) (s : hop_state) : hop_state := HopState b s.(hs_tags) s.(hs_refused).
Definition refused (b : Async.breaker) (s : hop_state) : hop_state := HopState b s.(hs_tags) (s.(hs_refused) + 1).

Definition add_tag (tag : string) (s : hop_state) : hop_state := with_tags (s.(hs_tags) ++ [tag]) s.
Definition add_new_tag (tag : string) (s : hop_state) : hop_state :=
  if mem tag s.(hs_tags) then s else add_tag tag s.

Record enrich_settings : Type := EnrichSettings {
  es_url : string -> string;  (* the [*_url] settings by name *)
  graph_risk_max_age_minutes : Z;
  graph_risk_freshness_default_policy : string;
  graph_risk_freshness_policy_by_event : string }.

Definition dict_only (v : pyval) : option dict := match v with PDict d => Some d | _ => None end.

Section enrichment.
Context (cfg : enrich_settings) (tenant_id entity_id : string) (tenant_flags : dict).

Definition graph_url : string := cfg.(es_url) "graph_service_url".
Definition endpoint (base path : string) : string := rstrip_char "/" base +:+ path.

(** ** Feature snapshot *)

Definition feature_snapshot_fallback (event_type : string) (payload : dict) (redis_tag_list : list string) : dict :=
  [("tenant_id", PStr tenant_id); ("entity_id", PStr entity_id); ("event_type", PStr event_type);
   ("features", PDict payload); ("redis_tags", str_list redis_tag_list)].

Definition fetch_feature_snapshot (c : client) (event_type : string) (payload : dict) (redis_tag_list : list string)
    : hop_attempt dict :=
  let url := cfg.(es_url) "feature_service_url" in
  if negb (nonempty url) then Returned (feature_snapshot_fallback event_type payload redis_tag_list)
  else hmap as_dict (c (endpoint url "/v1/snapshot")
         [("tenant_id", PStr tenant_id); ("entity_id", PStr entity_id); ("event_type", PStr event_type); ("payload", PDict payload)]).

(** The circuit here is that of the feature service. *)
Definition fetch_feature_snapshot_wrapped (x : exchange) (event_type : string) (payload : dict) (redis_tag_list : list string)
    (s : hop_state) : hop_state * hop_attempt dict :=
  let fallback := feature_snapshot_fallback event_type payload redis_tag_list in
  if tenant_flag_enabled tenant_flags "disable_feature_service" then
    (add_tag "enrichment:disabled_by_tenant" s, Returned fallback)
  else
    match tag_hop_unconfigured cfg.(es_url) s.(hs_tags) "features" None with
    | Err e => (s, Raised (exn_name e))
    | Ok (tags, true) => (with_tags tags s, Returned fallback)
    | Ok (tags, false) =>
        let s := with_tags tags s in
        match circuit_call x (fetch_feature_snapshot x.(ex_client) event_type payload redis_tag_list) s.(hs_circuit) with
        | (b, Some a) => (with_circuit b s, a)
        | (b, None) => (add_tag "enrichment:unavailable" (refused b s), Returned fallback)
        end
    end.

(** ** Graph risk *)

Definition fetch_graph_risk (c : client) (graph_checkpoint : option string) : hop_attempt (option dict) :=
  if negb (nonempty graph_url) then Returned None
  else hmap dict_only (c (endpoint graph_url "/v1/analytics/entity-risk")
         ([("tenant_id", PStr tenant_id); ("entity_id", PStr entity_id)]
          ++ if nonempty (opt_str graph_checkpoint) then [("checkpoint", PStr (opt_str graph_checkpoint))] else [])).

Definition freshness_of (now : Z) (event_type : option string) (data : dict) : result GraphFreshnessResult :=
  evaluate_graph_risk_freshness now data cfg.(graph_risk_max_age_minutes) event_type
    (known_policy cfg.(graph_risk_freshness_default_policy))
    (parse_freshness_policy_by_event cfg.(graph_risk_freshness_policy_by_event)).

Definition apply_freshness (now : Z) (event_type : option string) (data : dict) (s : hop_state)
    : hop_state * hop_attempt (option dict) :=
  match freshness_of now event_type data with
  | Err e => (s, Raised (exn_name e))
  | Ok r =>
      if bool_decide (r.(action) = "skip") then (add_new_tag "graph:stale_skipped" s, Returned None)
      else if bool_decide (r.(action) = "fail_closed") then (add_new_tag "graph:stale_fail_closed" s, Returned None)
      else (s, Returned (Some data))
  end.

Definition fetch_graph_risk_wrapped (x : exchange) (graph_checkpoint event_type : option string) (s : hop_state)
    : hop_state * hop_attempt (option dict) :=
  if tenant_flag_enabled tenant_flags "disable_graph" then (add_tag "graph:disabled_by_tenant" s, Returned None)
  else
    match tag_hop_unconfigured cfg.(es_url) s.(hs_tags) "graph" None with
    | Err e => (s, Raised (exn_name e))
    | Ok (tags, true) => (add_new_tag "graph:missing" (with_tags tags s), Returned None)
    | Ok (tags, false) =>
        let s := with_tags tags s in
        match circuit_call x (fetch_graph_risk x.(ex_client) graph_checkpoint) s.(hs_circuit) with
        | (b, None) => (add_tag "graph:unavailable" (refused b s), Returned None)
        | (b, Some (Returned (Some data))) => apply_freshness x.(ex_now) event_type data (with_circuit b s)
        | (b, Some a) => (with_circuit b s, a)
        end
    end.

(** ** Attention to the objects of the event *)

Definition attention_object (o : dict) : pyval :=
  PDict [("external_id", get o "external_id" PNone);
         ("entity_type", por (get o "entity_type" PNone) (PStr "Custom")); ("on_this_event", PBool true)].

Definition attention_rows (data : pyval) : list dict :=
  match data with
  | PDict d => match get d "attention" PNone with PList rows => filter_map dict_only rows | _ => [] end
  | _ => []
  end.

Definition fetch_object_attention (c : client) (objects : list dict) : hop_attempt (list dict) :=
  if negb (nonempty graph_url) || match objects with [] => true | _ => false end then Returned []
  else hmap attention_rows (c (endpoint graph_url "/v1/objects/attention")
         [("tenant_id", PStr tenant_id);
          ("objects", PList (map attention_object (List.filter (fun o => truthy (get o "external_id" PNone)) objects)))]).

Definition fetch_object_attention_wrapped (x : exchange) (objects : list dict) (s : hop_state)
    : hop_state * hop_attempt (list dict) :=
  if tenant_flag_enabled tenant_flags "disable_graph" then (s, Returned [])
  else
    match tag_hop_unconfigured cfg.(es_url) s.(hs_tags) "graph" None with
    | Err e => (s, Raised (exn_name e))
    | Ok (tags, true) => (with_tags tags s, Returned [])
    | Ok (tags, false) =>
        let s := with_tags tags s in
        match circuit_call x (fetch_object_attention x.(ex_client) objects) s.(hs_circuit) with
        | (b, None) => (add_new_tag "graph:unavailable" (refused b s), Returned [])
        | (b, Some (HttpError _ | Raised _)) => (add_new_tag "graph:unavailable" (with_circuit b s), Returned [])
        | (b, Some a) => (with_circuit b s, a)
        end
    end.

(** ** Growth of relations *)

(** The request's own exceptions are caught here, inside the circuit's call. *)
Definition fetch_relation_growth (c : client) : hop_attempt (option dict) :=
  if negb (nonempty graph_url) then Returned None
  else
    match c (endpoint graph_url ("/v1/entities/" +:+ entity_id +:+ "/relation-growth")) [("tenant_id", PStr tenant_id)] with
    | HttpError _ | Raised _ => Returned None
    | a => hmap dict_only a
    end.

Definition fetch_relation_growth_wrapped (x : exchange) (s : hop_state) : hop_state * hop_attempt (option dict) :=
  if tenant_flag_enabled tenant_flags "disable_graph" then (s, Returned None)
  else if mem "graph:missing" s.(hs_tags) then (s, Returned None)
  else
    match tag_hop_unconfigured cfg.(es_url) s.(hs_tags) "graph" None with
    | Err e => (s, Raised (exn_name e))
    | Ok (tags, true) => (add_new_tag "graph:missing" (with_tags tags s), Returned None)
    | Ok (tags, false) =>
        let s := with_tags tags s in
        match circuit_call x (fetch_relation_growth x.(ex_client)) s.(hs_circuit) with
        | (b, None) => (add_new_tag "graph:unavailable" (refused b s), Returned None)
        | (b, Some (HttpError _ | Raised _)) => (add_new_tag "graph:unavailable" (with_circuit b s), Returned None)
        | (b, Some a) => (with_circuit b s, a)
        end
    end.

(** The key and count a row of the answer contributes. *)
Definition growth_row (row : pyval) : option (string * Z) :=
  match row with
  | PDict r =>
      match get r "window" PNone, get r "count" PNone with
      | PStr w, PInt n => if nonempty w then Some ("relation_growth_" +:+ w, n) else None
      | _, _ => None
      end
  | _ => None
  end.

Definition attach_growth_to_features (features : dict) (payload : option dict) : dict :=
  match payload with
  | None => features
  | Some p =>
      match get p "windows" PNone with
      | PList rows =>
          foldl (fun f row => match growth_row row with Some (k, n) => dict_set k (PInt n) f | None => f end) features rows
      | _ => features
      end
  end.
End enrichment.

(** * What attention adds *)

Definition attends (row : dict) : bool := truthy (get row "attend_pack" PNone).

Definition attend_score_delta (rows : list dict) : float :=
  match rows with
  | [] => f_zero
  | _ => fmin (fmul (litZ 8) (litZ (Z.of_nat (length (List.filter attends rows))))) (litZ 20)
  end.

Definition attend_tag (row : dict) : string :=
  "graph:attend:" +:+ str_or (lower (strip (py_str (por (get row "entity_type" PNone) (PStr "object"))))) "object".

Definition attend_tags (rows : list dict) : list string := append_new [] (map attend_tag (List.filter attends rows)).

(** * Graph routing *)

(** The policy as cached and as the file reads; [None] is a file that is missing,
    unreadable or not JSON. *)
Definition _load_graph_routing_policy (force : bool) (file : option pyval) (cache : option dict) : option dict :=
  match cache with
  | Some p => if force then file ≫= dict_only else Some p
  | None => file ≫= dict_only
  end.

Definition is_number (v : pyval) : bool := match v with PBool _ | PInt _ | PFloat _ => true | _ => false end.

Definition float_or_zero (v : pyval) : result float := match v with PNone => Ok f_zero | _ => py_float v end.

(** Whether a comparison of numbers does not refuse. *)
Definition numeric_ok (op : string) (l r : float) : bool :=
  if bool_decide (op = "lt") then fltb l r
  else if bool_decide (op = "lte") then fleb l r
  else if bool_decide (op = "gt") then fltb r l
  else if bool_decide (op = "gte") then fleb r l
  else if bool_decide (op = "eq") then feqb l r
  else true.

(** [ctx.get(field)] of a key that need not be a string. *)
Definition ctx_get (ctx : dict) (field : pyval) : result pyval :=
  match field with
  | PStr f => Ok (get ctx f PNone)
  | PList _ | PDict _ => Err TypeError
  | _ => Ok PNone
  end.

Definition text_or_empty (v : pyval) : string := match v with PNone => "" | _ => py_str v end.

(** One pass of the loop over the conditions: [false] ends it. *)
Definition routing_cond (ctx : dict) (cond : pyval) : result bool :=
  match cond with
  | PDict c =>
      let op := lower (str_or_empty (get c "op" PNone)) in
      let field := get c "field" PNone in
      if negb (truthy field) then Ok true
      else
        let! lhs := ctx_get ctx field in
        let rhs := get c "value" PNone in
        if is_number lhs || is_number rhs then
          try_except (let! l := float_or_zero lhs in let! r := float_or_zero rhs in Ok (numeric_ok op l r))
            is_type_or_value_error false
        else if mem op ["eq"; ""] then Ok (bool_decide (text_or_empty lhs = text_or_empty rhs))
        else Ok true
  | _ => Ok true
  end.

Fixpoint routing_conds (ctx : dict) (when : list pyval) : result bool :=
  match when with
  | [] => Ok true
  | c :: rest => let! ok := routing_cond ctx c in if ok then routing_conds ctx rest else Ok false
  end.

Definition _graph_routing_match_when (when : pyval) (ctx : dict) : result bool :=
  if negb (truthy when) then Ok true else let! conds := py_iter when in routing_conds ctx conds.

(** [skip_graph], [graph_checkpoint] and [matched_rule_id]. *)
Record routing : Type := Routing { skip_graph : bool; rt_checkpoint : pyval; matched_rule_id : pyval }.

Definition apply_rule (rule : dict) (r : routing) : routing :=
  Routing (match dict_lookup "skip_graph" rule with Some v => truthy v | None => r.(skip_graph) end)
    (match dict_lookup "graph_checkpoint" rule with
     | Some (PStr c) => PStr c
     | Some PNone => PNone
     | _ => r.(rt_checkpoint)
     end)
    (get rule "id" PNone).

Fixpoint routing_rules (ctx : dict) (rules : list pyval) (r : routing) : result routing :=
  match rules with
  | [] => Ok r
  | PDict rule :: rest =>
      let! hit := _graph_routing_match_when (get rule "when" PNone) ctx in
      if hit then Ok (apply_rule rule r) else routing_rules ctx rest r
  | _ :: rest => routing_rules ctx rest r
  end.

Definition decide_graph_routing (policy : option dict) (event_type : string) (base_score : float) (tags : list string)
    : result (option routing) :=
  match policy with
  | None => Ok None
  | Some p =>
      let ctx := [("event_type", PStr event_type); ("base_score", PFloat base_score); ("tags", str_list tags)] in
      let! default_cfg := match por (get p "default" PNone) (PDict []) with PDict d => Ok d | _ => Err AttributeError end in
      let r := Routing (truthy (get default_cfg "skip_graph" (PBool false))) (get default_cfg "graph_checkpoint" PNone) PNone in
      let! rules := iter_or_empty (get p "rules" PNone) in
      rmap Some (routing_rules ctx rules r)
  end.

Definition nonblank (v : pyval) : option string :=
  match v with PStr s => if nonempty (strip s) then Some (strip s) else None | _ => None end.

Definition _graph_checkpoint_from_body (metadata_key : string) (metadata : option dict) (payload : dict) : option string :=
  match metadata ≫= (fun m => nonblank (por (get m metadata_key PNone) (get m "graph_checkpoint" PNone))) with
  | Some c => Some c
  | None => nonblank (get payload "graph_checkpoint" PNone)
  end.

(** The pipeline's choice of a checkpoint: the caller's own, or what the policy routes to. *)
Definition checkpoint_and_routing (policy : option dict) (pinned : option string) (event_type : string)
    (consortium_delta : float) (is_replayed : bool) (signal_tags : list string) : result (option string * option routing) :=
  match pinned with
  | Some c => Ok (Some c, None)
  | None =>
      let base := fadd (fadd (litZ 10) consortium_delta) (if is_replayed then litZ 20 else f_zero) in
      let! r := decide_graph_routing policy event_type base signal_tags in
      Ok (r ≫= (fun r => if truthy r.(rt_checkpoint) then Some (py_str r.(rt_checkpoint)) else None), r)
  end.

(** * Steps whose attempts change state *)

Section step_in.
Context {S A : Type} (step : string) (factory : nat -> S -> S * hop_attempt A) (policy : on_failure) (fallback : A) (ms : float).

Fixpoint attempts_in (i left : nat) (last_err : option string) (s : S) : S * ((A * nat) + option string) :=
  match left with
  | O => (s, inr last_err)
  | Datatypes.S left' =>
      match factory i s with
      | (s', Returned v) => (s', inl (v, Datatypes.S i))
      | (s', a) => attempts_in (Datatypes.S i) left' (attempt_error a) s'
      end
  end.

Definition run_step_in (max_attempts : Z) (s : S) : S * result (A * dict) :=
  let n := attempt_limit max_attempts in
  match attempts_in 0 n None s with
  | (s', inl (v, k)) => (s', Ok (v, step_row step (Z.of_nat k) "ok" None ms))
  | (s', inr last_err) =>
      (s', match policy with
           | REJECT => Err (OtherError "RuntimeError")
           | SKIP => Ok (fallback, step_row step (Z.of_nat n) "skipped" (Some (str_or (opt_str last_err) "unknown")) ms)
           end)
  end.
End step_in.

(** * The graph and growth stages of an evaluation *)

(** What an evaluation gives the stages: the degrade tags it has so far, its flags and
    objects, and the exchanges of its attempts. *)
Record graph_input : Type := GraphInput {
  gi_tenant : string; gi_entity : string; gi_event_type : string; gi_tags : list string; gi_flags : dict; gi_objects : list dict;
  gi_load_shed : bool; gi_checkpoint : option string; gi_routing : option routing;
  gi_risk : nat -> exchange; gi_attention : nat -> exchange; gi_growth : exchange; gi_ms : float }.

Record graph_found : Type := GraphFound {
  gf_risk : option dict; gf_delta : float; gf_signal_tags : list string; gf_trace : dict }.

Definition skipped_trace (reason : string) : dict :=
  [("step", PStr "graph_risk"); ("status", PStr "skipped"); ("reason", PStr reason)].

Section stages.
Context (cfg : enrich_settings) (max_attempts : Z).

Definition risk_step (i : graph_input) : hop_state -> hop_state * result (option dict * dict) :=
  run_step_in "graph_risk"
    (fun k => fetch_graph_risk_wrapped cfg i.(gi_tenant) i.(gi_entity) i.(gi_flags) (i.(gi_risk) k) i.(gi_checkpoint)
                (Some i.(gi_event_type))) SKIP None i.(gi_ms) max_attempts.

Definition attention_step (i : graph_input) : hop_state -> hop_state * result (list dict * dict) :=
  run_step_in "object_attention"
    (fun k => fetch_object_attention_wrapped cfg i.(gi_tenant) i.(gi_flags) (i.(gi_attention) k) i.(gi_objects))
    SKIP [] i.(gi_ms) max_attempts.

Definition graph_stage (i : graph_input) (s : hop_state) : hop_state * result graph_found :=
  if negb (include_graph i.(gi_load_shed)) then
    (add_new_tag "load_shedding:active" s, Ok (GraphFound None f_zero [] (skipped_trace "load_shedding")))
  else if match i.(gi_routing) with Some r => r.(skip_graph) | None => false end then
    (s, Ok (GraphFound None f_zero [] (skipped_trace "graph_routing_skip")))
  else
    let '(s, risk) := risk_step i s in
    match risk with
    | Err e => (s, Err e)
    | Ok (risk, trace) =>
        let '(s, rows) := attention_step i s in
        (s, let! (rows, _) := rows in Ok (GraphFound risk (attend_score_delta rows) (attend_tags rows) trace))
    end.

Definition growth_stage (i : graph_input) (features : dict) (s : hop_state) : hop_state * hop_attempt dict :=
  let '(s, growth) := fetch_relation_growth_wrapped cfg i.(gi_tenant) i.(gi_entity) i.(gi_flags) i.(gi_growth) s in
  (s, hmap (attach_growth_to_features features) growth).

End stages.

(** * Correctness *)

(** ** Steps with state *)

(** Through the attempts of a step a bound that each attempt raises by one is
    raised by at most the number of attempts. *)
Lemma attempts_in_bound {S A} (factory : nat -> S -> S * hop_attempt A) (P : nat -> S -> Prop) m :
  (forall k k' s, (k <= k')%nat -> P k s -> P k' s) ->
  (forall i k s, (k < m)%nat -> P k s -> P (k + 1)%nat (factory i s).1) ->
  forall left i k last s, (k + left <= m)%nat -> P k s -> P (k + left)%nat (attempts_in factory i left last s).1.
Proof.
  intros Hmono Hstep. induction left as [|left IH]; intros i k last s Hk Hs; cbn [attempts_in]; [by rewrite Nat.add_0_r|].
  specialize (Hstep i k s ltac:(lia) Hs). destruct (factory i s) as [s' a]. cbn [fst] in Hstep.
  destruct a; [apply (Hmono (k + 1)%nat); [lia|done]|..];
    (replace (k + Datatypes.S left)%nat with ((k + 1) + left)%nat by lia; apply IH; [lia|done]).
Qed.

Lemma run_step_in_state {S A} step (factory : nat -> S -> S * hop_attempt A) policy fallback ms max_attempts s :
  (run_step_in step factory policy fallback ms max_attempts s).1 = (attempts_in factory 0 (attempt_limit max_attempts) None s).1.
Proof. unfold run_step_in. by destruct (attempts_in _ _ _ _ _) as [s' [[v k]|err]]. Qed.

(** The value of a step is the fallback or what one of its attempts returned. *)
Lemma attempts_in_value {S A} (factory : nat -> S -> S * hop_attempt A) left : forall i last s s' v k,
  attempts_in factory i left last s = (s', inl (v, k)) ->
  exists j sj, (i <= j < i + left)%nat /\ factory j sj = (s', Returned v).
Proof.
  induction left as [|left IH]; intros i last s s' v k H; cbn [attempts_in] in H; [discriminate|].
  destruct (factory i s) as [s1 a] eqn:E. destruct a; [simplify_eq; exists i, s; split; [lia|done]|..];
    (apply IH in H as (j & sj & Hj & Hf); exists j, sj; split; [lia|done]).
Qed.

Lemma run_step_in_value {S A} step (factory : nat -> S -> S * hop_attempt A) fallback ms max_attempts s s' v tr :
  run_step_in step factory SKIP fallback ms max_attempts s = (s', Ok (v, tr)) ->
  v = fallback \/ exists j sj, (j < attempt_limit max_attempts)%nat /\ factory j sj = (s', Returned v).
Proof.
  unfold run_step_in. destruct (attempts_in _ _ _ _ _) as [s1 [[w k]|err]] eqn:E; intros [= -> -> _]; [right|by left].
  apply attempts_in_value in E as (j & sj & Hj & Hf). exists j, sj. split; [lia|done].
Qed.

(** A step whose first attempt returns ends with it. *)
Lemma run_step_in_first {S A} step (factory : nat -> S -> S * hop_attempt A) policy fallback ms max_attempts s s' v :
  factory 0%nat s = (s', Returned v) ->
  run_step_in step factory policy fallback ms max_attempts s = (s', Ok (v, step_row step 1 "ok" None ms)).
Proof.
  intros H. unfold run_step_in, attempt_limit. destruct (Z.to_nat _) as [|n] eqn:E; [lia|].
  cbn [attempts_in]. by rewrite H.
Qed.

(** ** Tags *)

Lemma graph_hop cfg tags :
  tag_hop_unconfigured cfg.(es_url) tags "graph" None = Ok (tag_unconfigured tags (graph_url cfg) "graph:unconfigured").
Proof. reflexivity. Qed.

Lemma graph_hop_on cfg tags :
  nonempty (strip (graph_url cfg)) = true -> tag_hop_unconfigured cfg.(es_url) tags "graph" None = Ok (tags, false).
Proof. intros H. rewrite graph_hop. unfold tag_unconfigured. by rewrite H. Qed.

Lemma add_new_tag_elem tag s t : t ∈ hs_tags (add_new_tag tag s) <-> t ∈ hs_tags s \/ t = tag.
Proof.
  unfold add_new_tag. destruct (mem tag (hs_tags s)) eqn:E; cbn [add_tag with_tags hs_tags]; [|set_solver].
  apply mem_spec in E. set_solver.
Qed.

Lemma tag_unconfigured_elem tags url tag t : t ∈ tags -> t ∈ (tag_unconfigured tags url tag).1.
Proof. unfold tag_unconfigured. intros H. destruct (nonempty _); [done|]. destruct (mem tag tags); cbn [fst]; set_solver. Qed.

(** ** The graph circuit *)

Section circuit.
Context (cfg : enrich_settings) (threshold : Z) (recovery : float) (count : Z).
Hypothesis configured : nonempty (strip (graph_url cfg)) = true.












End circuit.


(** ** Stale graph data *)

(** The stamp of an answer is readable and older than the configured age. *)
Definition stale (cfg : enrich_settings) (now : Z) (d : dict) : Prop :=
  0 < cfg.(graph_risk_max_age_minutes) /\ truthy (get d "graph_data_as_of" PNone) = true
  /\ exists t age, _parse_iso_utc (get d "graph_data_as_of" PNone) = Ok (Some t) /\ age_of now t = Ok age
                   /\ at_most age cfg.(graph_risk_max_age_minutes) = false.

(** The policy configured for an event type. *)
Definition policy_for (cfg : enrich_settings) (event_type : string) : string :=
  known_policy (default (known_policy cfg.(graph_risk_freshness_default_policy))
    (parse_freshness_policy_by_event cfg.(graph_risk_freshness_policy_by_event) !! lower (strip event_type))).

Lemma known_policy_in p : known_policy p ∈ policies.
Proof. unfold known_policy. destruct (mem p policies) eqn:E; [by apply mem_spec|]. by left. Qed.

Lemma freshness_stale cfg now event d :
  stale cfg now d -> exists age, freshness_of cfg now (Some event) d = Ok (Freshness (policy_for cfg event) (Some age)).
Proof.
  intros (Hm & Hr & t & age & Hp & Ha & Ho). exists age. unfold freshness_of, evaluate_graph_risk_freshness.
  destruct (Z.leb_spec (graph_risk_max_age_minutes cfg) 0); [lia|]. rewrite Hr, Hp. cbn [negb rbind]. by rewrite Ha; cbn [rbind]; rewrite Ho.
Qed.

Lemma apply_freshness_used cfg now event d s s' e :
  apply_freshness cfg now (Some event) d s = (s', Returned (Some e)) -> e = d /\ (stale cfg now d -> policy_for cfg event = "warn").
Proof.
  unfold apply_freshness. intros H. split.
  - destruct (freshness_of _ _ _ _); [|discriminate]. by repeat case_bool_decide; simplify_eq.
  - intros Hst. destruct (freshness_stale cfg now event d Hst) as [age E]. rewrite E in H. cbn [action] in H.
    pose proof (known_policy_in (default (known_policy cfg.(graph_risk_freshness_default_policy))
      (parse_freshness_policy_by_event cfg.(graph_risk_freshness_policy_by_event) !! lower (strip event)))) as Hin.
    fold (policy_for cfg event) in Hin. repeat case_bool_decide; [done|done|]. unfold policies in Hin. set_solver.
Qed.

(** What a wrapped call returns is an answer of the service that may be used. *)
Lemma risk_used cfg tenant entity flags x cp event s s' d :
  fetch_graph_risk_wrapped cfg tenant entity flags x cp (Some event) s = (s', Returned (Some d)) ->
  fetch_graph_risk cfg tenant entity (ex_client x) cp = Returned (Some d)
  /\ (stale cfg (ex_now x) d -> policy_for cfg event = "warn").
Proof.
  unfold fetch_graph_risk_wrapped. destruct (tenant_flag_enabled _ _); [discriminate|].
  destruct (tag_hop_unconfigured _ _ _ _) as [[tags []]|e]; [discriminate| |discriminate].
  unfold circuit_call. destruct (Async.admission _ _) as [b []]; [|discriminate].
  destruct (fetch_graph_risk _ _ _ _ _) as [[data|]| | |]; try discriminate.
  intros H. apply apply_freshness_used in H as [-> H]. done.
Qed.

(** No call takes a degrade tag away. *)
Lemma attention_keeps_tags cfg tenant flags x objects s t :
  t ∈ hs_tags s -> t ∈ hs_tags (fetch_object_attention_wrapped cfg tenant flags x objects s).1.
Proof.
  intros Ht. unfold fetch_object_attention_wrapped. destruct (tenant_flag_enabled _ _); [done|]. rewrite graph_hop.
  pose proof (tag_unconfigured_elem (hs_tags s) (graph_url cfg) "graph:unconfigured" t Ht) as Ht'.
  destruct (tag_unconfigured _ _ _) as [tags []]; [done|]. cbn [fst] in Ht'.
  destruct (circuit_call _ _ _) as [b [[]|]]; cbn [fst]; rewrite ?add_new_tag_elem; auto.
Qed.

Lemma attention_step_keeps_tags cfg max_attempts i s t :
  t ∈ hs_tags s -> t ∈ hs_tags (attention_step cfg max_attempts i s).1.
Proof.
  intros Ht. unfold attention_step. rewrite run_step_in_state.
  apply (attempts_in_bound _ (fun _ s => t ∈ hs_tags s) (attempt_limit max_attempts)) with (k := 0%nat); [done| |lia|done].
  intros j k s' _ Hs'. by apply attention_keeps_tags.
Qed.

(** The first exchange reaches the service and brings a stale answer. *)
Lemma risk_step_stale cfg max_attempts i s d :
  nonempty (strip (graph_url cfg)) = true -> tenant_flag_enabled i.(gi_flags) "disable_graph" = false ->
  (Async.admission (gi_risk i 0).(ex_enter) s.(hs_circuit)).2 = true ->
  fetch_graph_risk cfg i.(gi_tenant) i.(gi_entity) (gi_risk i 0).(ex_client) i.(gi_checkpoint) = Returned (Some d) ->
  stale cfg (gi_risk i 0).(ex_now) d -> policy_for cfg i.(gi_event_type) = "fail_closed" ->
  exists s' tr, risk_step cfg max_attempts i s = (s', Ok (None, tr)) /\ "graph:stale_fail_closed" ∈ hs_tags s'.
Proof.
  intros Hu Hd Ha Hc Hst Hp. destruct (freshness_stale cfg _ (gi_event_type i) d Hst) as [age Hf]. rewrite Hp in Hf.
  destruct (Async.admission _ _) as [b a] eqn:Eb. cbn [snd] in Ha. subst a. unfold risk_step. do 2 eexists. split.
  - apply run_step_in_first. unfold fetch_graph_risk_wrapped. rewrite Hd, graph_hop_on by done. unfold circuit_call.
    cbn [with_tags hs_circuit]. rewrite Eb, Hc. cbn [returns]. unfold apply_freshness. rewrite Hf. cbn [action]. reflexivity.
  - apply add_new_tag_elem. by right.
Qed.

(** C12: Stale graph data never enters a decision unless the policy of the event type
    is to warn.  The risk that the graph stage hands on is an answer of the graph
    service to one of the step's attempts, and if that answer is older than the
    configured age the policy is [warn]; and when the service's first answer is stale
    under [fail_closed], nothing is handed on and the evaluation denies, whatever
    score and further degrade tags it comes to. *)
Theorem stale_graph_denied cfg max_attempts i s s' out :
  graph_stage cfg max_attempts i s = (s', Ok out) ->
  (forall d, out.(gf_risk) = Some d ->
     exists k, (k < attempt_limit max_attempts)%nat
       /\ fetch_graph_risk cfg i.(gi_tenant) i.(gi_entity) (gi_risk i k).(ex_client) i.(gi_checkpoint) = Returned (Some d)
       /\ (stale cfg (gi_risk i k).(ex_now) d -> policy_for cfg i.(gi_event_type) = "warn"))
  /\ (forall d, nonempty (strip (graph_url cfg)) = true -> tenant_flag_enabled i.(gi_flags) "disable_graph" = false ->
        i.(gi_load_shed) = false -> match i.(gi_routing) with Some r => skip_graph r = false | None => True end ->
        (Async.admission (gi_risk i 0).(ex_enter) s.(hs_circuit)).2 = true ->
        fetch_graph_risk cfg i.(gi_tenant) i.(gi_entity) (gi_risk i 0).(ex_client) i.(gi_checkpoint) = Returned (Some d) ->
        stale cfg (gi_risk i 0).(ex_now) d -> policy_for cfg i.(gi_event_type) = "fail_closed" ->
        out.(gf_risk) = None
        /\ forall ecfg more score, decision_of ecfg (s'.(hs_tags) ++ more) score = "deny").
Proof.
  intros H. split.
  - intros d Hd. unfold graph_stage in H. destruct (negb _); [by simplify_eq|].
    destruct (match gi_routing i with Some r => skip_graph r | None => false end); [by simplify_eq|].
    destruct (risk_step cfg max_attempts i s) as [s1 [[risk tr]|e]] eqn:E; [|by simplify_eq].
    destruct (attention_step cfg max_attempts i s1) as [s2 [[rows tr2]|e]]; [|discriminate].
    cbn [rbind] in H. injection H as _ <-. cbn [gf_risk] in Hd. subst risk.
    apply run_step_in_value in E as [E|(k & sk & Hk & E)]; [discriminate|]. exists k. split; [done|]. by apply risk_used in E.
  - intros d Hu Hf Hl Hr Ha Hc Hst Hp.
    destruct (risk_step_stale cfg max_attempts i s d) as (s1 & tr & E & Ht); try done.
    unfold graph_stage in H. rewrite Hl, E in H. cbn [include_graph negb] in H.
    replace (match gi_routing i with Some r => skip_graph r | None => false end) with false in H by (by destruct (gi_routing i)).
    apply (attention_step_keeps_tags cfg max_attempts i) in Ht. destruct (attention_step cfg max_attempts i s1) as [s2 [[rows tr2]|e]]; [|discriminate].
    cbn [rbind fst] in H, Ht. injection H as <- <-. split; [done|]. intros ecfg more score. unfold decision_of, force_deny_from_degrade_tags.
    rewrite (proj2 (mem_spec "graph:stale_fail_closed" (hs_tags s2 ++ more))), orb_true_r; [done|]. set_solver.
Qed.

(** ** Growth *)

(** The count the last usable row for a key gives. *)
Definition last_growth (k : string) (rows : list pyval) : option Z :=
  foldl (fun acc row => match growth_row row with Some (k', n) => if bool_decide (k = k') then Some n else acc | None => acc end)
    None rows.

Lemma attach_rows k f rows :
  get (foldl (fun f row => match growth_row row with Some (k', n) => dict_set k' (PInt n) f | None => f end) f rows) k PNone
  = match last_growth k rows with Some n => PInt n | None => get f k PNone end.
Proof.
  induction rows as [|row rows IH] using rev_ind; [done|]. unfold last_growth. rewrite !foldl_app. cbn [foldl].
  fold (last_growth k rows). destruct (growth_row row) as [[k' n]|]; [|done]. case_bool_decide; [subst; apply get_set_eq|].
  by rewrite get_set_ne.
Qed.

(** The growth stage invents no count: a feature it leaves with another value is the
    integer of the last usable row for that window in a dict that the graph service
    answered, every other feature is as it was, and so are all of them when the service
    is disabled, unset, refused by the circuit, failing or answering something else. *)
Theorem growth_not_invented cfg i features s s' f' :
  growth_stage cfg i features s = (s', Returned f') ->
  f' = features
  \/ exists p rows, fetch_relation_growth cfg i.(gi_tenant) i.(gi_entity) i.(gi_growth).(ex_client) = Returned (Some p)
       /\ get p "windows" PNone = PList rows
       /\ forall k, get f' k PNone = match last_growth k rows with Some n => PInt n | None => get features k PNone end.
Proof.
  unfold growth_stage. destruct (fetch_relation_growth_wrapped _ _ _ _ _ _) as [s1 g] eqn:E. intros [= <- H].
  destruct g as [[p|]| | |]; try discriminate; cbn [hmap] in H; injection H as <-; [|by left].
  unfold attach_growth_to_features. destruct (get p "windows" PNone) as [| | | | |rows|] eqn:Ew; try (by left). right. exists p, rows.
  split; [|split; [done|]].
  - unfold fetch_relation_growth_wrapped in E. destruct (tenant_flag_enabled _ _); [discriminate|].
    destruct (mem _ _); [discriminate|]. destruct (tag_hop_unconfigured _ _ _ _) as [[tags []]|e]; [discriminate| |discriminate].
    unfold circuit_call in E. destruct (Async.admission _ _) as [b []]; [|discriminate]. by destruct (fetch_relation_growth _ _ _ _); simplify_eq.
  - intros k. apply attach_rows.
Qed.

(** ** Routing *)

Definition rule_matches (ctx : dict) (rule : pyval) : bool :=
  match rule with
  | PDict r => match _graph_routing_match_when (get r "when" PNone) ctx with Ok b => b | Err _ => false end
  | _ => false
  end.

(** The rules are tried in order and the first that matches decides: it is applied to
    the policy's default, and without one the default stands. *)
Theorem routing_first_match ctx rules dflt r :
  routing_rules ctx rules dflt = Ok r ->
  (r = dflt /\ Forall (fun x => rule_matches ctx x = false) rules)
  \/ exists pre rule post, rules = pre ++ PDict rule :: post /\ Forall (fun x => rule_matches ctx x = false) pre
       /\ rule_matches ctx (PDict rule) = true /\ r = apply_rule rule dflt.
Proof.
  induction rules as [|x rules IH]; cbn [routing_rules]; [intros [= ->]; by left|]. intros H.
  assert (Hrec : rule_matches ctx x = false -> routing_rules ctx rules dflt = Ok r -> 
    (r = dflt /\ Forall (fun x => rule_matches ctx x = false) (x :: rules))
    \/ exists pre rule post, x :: rules = pre ++ PDict rule :: post /\ Forall (fun x => rule_matches ctx x = false) pre
         /\ rule_matches ctx (PDict rule) = true /\ r = apply_rule rule dflt).
  { intros Hx Hr. destruct (IH Hr) as [[-> Hall]|(pre & rule & post & -> & Hpre & Hm & ->)]; [left; auto|].
    right. exists (x :: pre), rule, post. auto. }
  destruct x as [| | | | | |rule]; try (by apply Hrec). destruct (_graph_routing_match_when _ _) as [[]|e] eqn:E; [| |discriminate].
  - cbn [rbind] in H. simplify_eq. right. exists [], rule, rules. cbn [rule_matches]. by rewrite E.
  - apply Hrec; [cbn [rule_matches]; by rewrite E|done].
Qed.

(** * Runs *)

Definition demo_settings (by_event : string) : enrich_settings :=
  EnrichSettings (fun _ => "http://graph/") 30 "warn" by_event.

(** A microsecond instant of 10 March 2026, 12:00 UTC. *)
Definition demo_now : Z := days_from_civil 2026 3 10 * day_us + 12 * hour_us.

Definition demo_exchange (c : client) : exchange := Exchange (litZ 1) (litZ 2) demo_now c.
Definition down : client := fun _ _ => HttpError "ConnectError".
Definition stamped (stamp : string) : client :=
  fun _ _ => Returned (PDict [("risk_score", PInt 80); ("graph_data_as_of", PStr stamp)]).

Definition demo_input (risk other : client) : graph_input :=
  GraphInput "acme" "u1" "payment" [] [] [[("external_id", PStr "dev-1"); ("entity_type", PStr "Device")]] false None None
    (fun _ => demo_exchange risk) (fun _ => demo_exchange other) (demo_exchange other) (litZ 3).

Definition demo_state : hop_state := HopState (Async.init 5 (litZ 30)) [] 0.


(** Without the growth calls two failing evaluations open the circuit. *)
Example stages_alone_open :
  let stage s := (graph_stage (demo_settings "") 2 (demo_input down down) s).1 in
  Async.blocked_until (hs_circuit (stage (stage demo_state))) = Some (litZ 32).
Proof. vm_compute. reflexivity. Qed.

Lemma demo_stale : stale (demo_settings "payment:fail_closed") demo_now [("risk_score", PInt 80); ("graph_data_as_of", PStr "2026-03-10T11:00:00Z")].
Proof.
  split; [vm_compute; reflexivity|]. split; [reflexivity|]. exists (demo_now - hour_us), (litZ 60).
  split; [vm_compute; reflexivity|]. split; vm_compute; reflexivity.
Qed.

Lemma stale_graph_denied_witness :
  let i := demo_input (stamped "2026-03-10T11:00:00Z") down in
  decision_of (demo_config false) ((graph_stage (demo_settings "payment:fail_closed") 2 i demo_state).1.(hs_tags) ++ []) f_zero = "deny".
Proof.
  intros i. destruct (graph_stage (demo_settings "payment:fail_closed") 2 i demo_state) as [s' [out|e]] eqn:E;
    [|vm_compute in E; discriminate].
  refine (proj2 (proj2 (stale_graph_denied _ _ _ _ _ _ E) [("risk_score", PInt 80); ("graph_data_as_of", PStr "2026-03-10T11:00:00Z")]
            eq_refl eq_refl eq_refl I eq_refl eq_refl demo_stale _) (demo_config false) [] f_zero). vm_compute. reflexivity.
Defined.

(** Under [fail_closed] a stamp that cannot be read counts as fresh, and one whose
    instant lies before the first year makes the step fail without a degrade tag. *)
Example unreadable_stamp_passes :
  let run stamp := apply_freshness (demo_settings "payment:fail_closed") demo_now (Some "payment") [("graph_data_as_of", PStr stamp)] demo_state in
  run "yesterday" = (demo_state, Returned (Some [("graph_data_as_of", PStr "yesterday")]))
  /\ run "0001-01-01T00:00:00+14:00" = (demo_state, Raised "OverflowError").
Proof. vm_compute. done. Qed.

(** Zero is a count, [True] and [null] are none, and a later row for a window wins. *)
Example growth_counts :
  attach_growth_to_features [("relation_growth_7d", PInt 4)]
    (Some [("windows", PList [PDict [("window", PStr "1h"); ("count", PInt 3)]; PDict [("window", PStr "1h"); ("count", PInt 0)];
                              PDict [("window", PStr "24h"); ("count", PBool true)]; PDict [("window", PStr "7d"); ("count", PNone)]])])
  = [("relation_growth_7d", PInt 4); ("relation_growth_1h", PInt 0)].
Proof. reflexivity. Qed.

(** Policies by event type: the last part for a type wins, and parts that name no policy are passed over. *)
Example policy_parts :
  let m := parse_freshness_policy_by_event " Payment: SKIP ,login:deny,payment:fail_closed,:warn" in
  m !! "payment" = Some "fail_closed" /\ m !! "login" = None /\ m !! "" = None.
Proof. vm_compute. done. Qed.

(** Under load shedding the service is still asked for the growth. *)
Example growth_under_load :
  let i := demo_input down (fun _ _ => Returned (PDict [("windows", PList [PDict [("window", PStr "1h"); ("count", PInt 7)]])])) in
  let shed := GraphInput i.(gi_tenant) i.(gi_entity) i.(gi_event_type) [] [] i.(gi_objects) true None None i.(gi_risk) i.(gi_attention)
                i.(gi_growth) i.(gi_ms) in
  let s := (graph_stage (demo_settings "") 2 shed demo_state).1 in
  hs_tags s = ["load_shedding:active"]
  /\ (growth_stage (demo_settings "") shed [] s).2 = Returned [("relation_growth_1h", PInt 7)].
Proof. vm_compute. done. Qed.
