(* ===== verification/DecisionGraph.v ===== *)
(** The decision graph: what an evaluation and a disposition write of their objects
    ([packages/shared-core/tarka_shared/decision_graph_payload.py] and
    [decision_graph_client.py]), the background writes of the evaluate pipeline
    ([_graph_upsert] of [decision_api/main.py] with the hints of
    [decision_api/partner_fusion.py]) and the window of allow decisions that the
    graph service keeps ([graph_service/graph_runtime.py]).

    Objects, links and payloads are records with the fields of the JSON documents.
    The HTTP client, the environment, fresh ids and the time stamp of a decision are
    inputs; logs and timeouts are left out. *)

From Stdlib Require Import ZArith Lia Ascii String Bool SpecFloat.
From stdpp Require Import base option list sorting strings gmap.
From S2P Require Import Prelude PyFloat PyValue BrainWire Outcome.
Local Open Scope Z_scope.

(** * Objects and links *)

Record graph_object : Type := Obj { go_id : string; go_type : string; go_props : dict }.
Record graph_link : Type := Lnk { gl_from : string; gl_to : string; gl_rel : string }.
Record graph : Type := Graph { g_objects : list graph_object; g_links : list graph_link }.

Definition add_object (o : graph_object) (g : graph) : graph := Graph (g.(g_objects) ++ [o]) g.(g_links).
Definition add_link (l : graph_link) (g : graph) : graph := Graph g.(g_objects) (g.(g_links) ++ [l]).

(** An object with the link that hangs it under [from]. *)
Definition hang (from rel : string) (o : graph_object) (g : graph) : graph :=
  add_link (Lnk from o.(go_id) rel) (add_object o g).

Definition ALLOW_AGE_CAP : Z := 20.
Definition MATERIAL_KINDS : list string := ["human_disposition"; "policy_gate"].
Definition MATERIAL_OUTCOMES : list string := ["deny"; "review"; "held"; "hold"].
Definition DECISION_SOURCES : list string := ["evaluate"; "disposition"; "dispute"; "ingest"].
Definition DEFAULT_MARKINGS : list string := ["desk"].
Definition _BASED_ON_ORDER : list string :=
  ["Payment"; "Login"; "Document"; "LicensePlate"; "Device"; "Card"; "Email"; "Phone"; "Address"; "Session"; "Ip"].

(** * Identifiers *)

Definition _trim (val : pyval) : string := match val with PNone => "" | _ => strip (py_str val) end.
Definition trim_opt (s : option string) : string := strip (opt_str s).

Fixpoint _first_trimmed (bag : dict) (keys : list string) : string :=
  match keys with
  | [] => ""
  | key :: rest => let val := _trim (get bag key PNone) in if nonempty val then val else _first_trimmed bag rest
  end.

Section identifiers.
Context (payload : dict) (device_context : option dict) (session_id : option string).

Definition _device_id : string :=
  let did := match device_context with Some dc => _trim (get dc "device_id" PNone) | None => "" end in
  if nonempty did then did else _trim (get payload "device_id" PNone).

Definition _session_id : string :=
  if nonempty (trim_opt session_id) then trim_opt session_id
  else
    let sid := match device_context with Some dc => _trim (get dc "session_id" PNone) | None => "" end in
    if nonempty sid then sid else _trim (get payload "session_id" PNone).

Definition _email : string := _first_trimmed payload ["email"; "email_address"].
Definition _phone : string := _first_trimmed payload ["phone"; "phone_number"; "mobile"].
Definition _document_id : string := _first_trimmed payload ["document_id"; "document_number"; "doc_id"; "document"].
Definition _address : string := _first_trimmed payload ["address"; "line1"; "street_address"].
Definition _card_id : string := _first_trimmed payload ["card_id"; "card_token"].

(** [n if n.startswith(p) else p + n]. *)
Definition with_prefix (p n : string) : string := if startswith n p then n else p +:+ n.

Definition _license_plate_id : string * string :=
  let raw := _first_trimmed payload ["license_plate"; "licenseplate"; "plate"] in
  if negb (nonempty raw) then ("", "") else (with_prefix "plate:" raw, raw).

Definition _instrument_id (prefix raw : string) : string :=
  let n := lower (strip raw) in if negb (nonempty n) then "" else with_prefix (prefix +:+ ":") n.

Definition signals_of : dict :=
  match device_context with Some dc => as_dict (get dc "signals" PNone) | None => [] end.

Definition in_range (bound : Z) (x : float) : bool := fleb (litZ (- bound)) x && fleb x (litZ bound).

Definition opt_float_of (v : pyval) : result (option float) :=
  match v with PNone => Ok None | _ => rmap Some (py_float v) end.

Definition _geo_lat_lon : result (option (float * float)) :=
  let la_raw := get signals_of "geo_lat" (get payload "session_last_lat" PNone) in
  let lo_raw := get signals_of "geo_lon" (get payload "session_last_lon" PNone) in
  let! both := try_except (let! la := opt_float_of la_raw in let! lo := opt_float_of lo_raw in Ok (la, lo))
                 is_type_or_value_error (None, None) in
  Ok match both with
     | (Some la, Some lo) => if in_range 90 la && in_range 180 lo then Some (la, lo) else None
     | _ => None
     end.

Definition _client_ip : string :=
  let ip := match device_context with
            | Some dc =>
                let s := match get dc "signals" PNone with
                         | PDict sig => _first_trimmed sig ["ip"; "client_ip"; "ip_address"]
                         | _ => ""
                         end in
                if nonempty s then s else _trim (get dc "ip" PNone)
            | None => ""
            end in
  if nonempty ip then ip else _first_trimmed payload ["ip"; "client_ip"; "ip_address"].
End identifiers.

Definition place_cell_id (lat lon : float) (precision : Z) : string :=
  "cell:" +:+ Z_to_string precision +:+ ":" +:+ f_repr (f_round lat precision) +:+ ":" +:+ f_repr (f_round lon precision).

(** * The objects of an evaluation *)

Section evaluate.
Context (trace_id entity_id event_type : string) (payload : dict) (device_context : option dict) (session_id : option string).

(** [_obj]: the properties carry the trace. *)
Definition traced (oid entity_type : string) (props : dict) : graph_object :=
  Obj oid entity_type (dict_update props [("last_trace_id", PStr trace_id); ("trace_ids", str_list [trace_id])]).

Definition when_text (s : string) (f : string -> graph -> graph) (g : graph) : graph := if nonempty s then f s g else g.

Definition event_kind : string := lower (strip event_type).
Definition person_id : string := strip entity_id.

Definition person : graph_object :=
  let props := [("event_type", PStr event_kind)] in
  let props := if nonempty (_email payload) then dict_set "email" (PStr (_email payload)) props else props in
  let props := if nonempty (_phone payload) then dict_set "phone" (PStr (_phone payload)) props else props in
  traced person_id "Person" props.

Definition with_instruments (g : graph) : graph :=
  let g := when_text (_email payload) (fun e =>
             hang person_id "HAS_EMAIL" (traced (_instrument_id "email" e) "Email" [("email", PStr (lower (strip e)))])) g in
  let g := when_text (_phone payload) (fun p =>
             hang person_id "HAS_PHONE" (traced (_instrument_id "phone" p) "Phone" [("phone", PStr (lower (strip p)))])) g in
  let g := when_text (_address payload) (fun a =>
             hang person_id "USED" (traced (_instrument_id "addr" a) "Address" [("address", PStr (lower (strip a)))])) g in
  when_text (_card_id payload) (fun c =>
             hang person_id "HAS_CARD" (traced (_instrument_id "card" c) "Card" [("card_id", PStr (lower (strip c)))])) g.

Definition device : string := _device_id payload device_context.
Definition session_object : string :=
  let sess := _session_id payload device_context session_id in if nonempty sess then "sess:" +:+ sess else "".
Definition document : string := _document_id payload.
Definition plate : string := (_license_plate_id payload).1.

Definition with_things (g : graph) : graph :=
  let acct := _trim (get payload "account_id" PNone) in
  let g := if nonempty acct && negb (bool_decide (acct = person_id)) then hang person_id "OWNS" (traced acct "Account" []) g else g in
  let g := when_text device (fun d => hang person_id "USED_DEVICE" (traced d "Device" [])) g in
  let g := when_text session_object (fun s => hang person_id "USED_SESSION"
             (traced s "Session" [("session_id", PStr (_session_id payload device_context session_id))])) g in
  let g := when_text document (fun d => hang person_id "USED" (traced d "Document" [])) g in
  when_text plate (fun p => hang person_id "USED"
             (traced p "LicensePlate" [("license_plate", PStr (_license_plate_id payload).2)])) g.

Definition event_object : string :=
  if bool_decide (event_kind = "payment") then str_or (_trim (get payload "payment_id" PNone)) ("pay:" +:+ trace_id)
  else if bool_decide (event_kind = "login") then "login:" +:+ trace_id
  else "".

Definition pay_props : dict :=
  let props := match get payload "amount" PNone with PNone => [] | v => [("amount", v)] end in
  let cur := _trim (get payload "currency" PNone) in
  if nonempty cur then dict_set "currency" (PStr cur) props else props.

Definition with_event (g : graph) : graph :=
  let g := if bool_decide (event_kind = "payment") then hang person_id "MADE_PAYMENT" (traced event_object "Payment" pay_props) g
           else if bool_decide (event_kind = "login") then hang person_id "PERFORMED_LOGIN" (traced event_object "Login" []) g
           else g in
  if nonempty event_object && nonempty session_object then add_link (Lnk event_object session_object "USED_SESSION") g else g.

(** The instrument that the address of the client hangs under. *)
Definition mid_id : string :=
  if bool_decide (event_kind = "payment") && nonempty event_object then event_object
  else if bool_decide (event_kind = "login") && nonempty device then device
  else if nonempty document then document
  else if nonempty plate then plate
  else device.

Definition with_ip (g : graph) : graph :=
  when_text (_client_ip payload device_context) (fun ip =>
    hang (str_or mid_id person_id) "USED_IP" (traced ("ip:" +:+ ip) "Ip" [("ip", PStr ip)])) g.

Definition place (la lo : float) : graph_object :=
  traced (place_cell_id la lo 3) "Place"
    [("kind", PStr "geohash_like_cell"); ("lat", PFloat (f_round la 5)); ("lon", PFloat (f_round lo 5))].

Definition build_evaluate_objects : result graph :=
  if negb (nonempty person_id) then Ok (Graph [] [])
  else
    let g := with_ip (with_event (with_things (with_instruments (add_object person (Graph [] []))))) in
    let! geo := _geo_lat_lon payload device_context in
    Ok match geo with
       | Some (la, lo) => hang person_id "SEEN_AT" (place la lo) g
       | None => g
       end.

(** [evaluate_related_object_refs]: what the attention of the graph stage asks for. *)
Definition related_refs (objects : list graph_object) : list (string * string) :=
  foldl (fun refs o =>
           let eid := strip o.(go_id) in
           if negb (nonempty eid) || mem o.(go_type) ["Person"; "Decision"] || mem eid refs.*1 then refs
           else refs ++ [(eid, str_or o.(go_type) "Custom")]) [] objects.

Definition evaluate_related_object_refs : result (list (string * string)) :=
  let! g := build_evaluate_objects in Ok (related_refs g.(g_objects)).
End evaluate.

(** * Decisions *)

Definition resolve_decision_source (metadata : option dict) (default_ : string) : string :=
  let raw := match metadata with Some m => lower (strip (str_or_empty (get m "decision_source" PNone))) | None => "" end in
  if mem raw DECISION_SOURCES then raw
  else let fb := lower (strip (str_or default_ "evaluate")) in if mem fb DECISION_SOURCES then fb else "evaluate".

Definition marking (item : pyval) : option string :=
  let s := lower (strip (str_or_empty item)) in if nonempty s then Some s else None.

Definition normalize_markings (raw : pyval) : list string :=
  match raw with
  | PStr _ => match append_new [] (filter_map marking [raw]) with [] => DEFAULT_MARKINGS | out => out end
  | PList items => append_new [] (filter_map marking items)
  | _ => DEFAULT_MARKINGS
  end.

Definition is_material_decision (kind outcome : string) : bool :=
  mem (lower (strip kind)) MATERIAL_KINDS
  || (let o := lower (strip outcome) in mem o MATERIAL_OUTCOMES || startswith o "resolved").

Definition decision_external_id (trace_id explicit : option string) : string :=
  if nonempty (trim_opt explicit) then trim_opt explicit
  else if nonempty (trim_opt trace_id) then "dec:" +:+ trim_opt trace_id else "".

(** [by_type.get(kind)]: the last object of the type. *)
Definition last_of_type (kind : string) (objects : list graph_object) : string :=
  foldl (fun acc o => if bool_decide (o.(go_type) = kind) then strip o.(go_id) else acc) "" objects.

Definition _based_on_id (objects : list graph_object) : string :=
  foldr (fun kind rest => str_or (last_of_type kind objects) rest) "" _BASED_ON_ORDER.

Record decision_spec : Type := DecisionSpec {
  ds_trace : option string; ds_outcome : string; ds_kind : string; ds_source : string; ds_external : option string;
  ds_created : string; ds_rules : list string; ds_markings : list string }.

Definition decision_object (dec_id : string) (d : decision_spec) : graph_object :=
  let t := trim_opt d.(ds_trace) in
  Obj dec_id "Decision"
    [("kind", PStr d.(ds_kind)); ("source", PStr d.(ds_source)); ("outcome", PStr d.(ds_outcome)); ("trace_id", PStr t);
     ("created_at", PStr d.(ds_created)); ("markings", str_list (normalize_markings (str_list d.(ds_markings))));
     ("rule_ids", str_list (take 32 d.(ds_rules))); ("last_trace_id", PStr t); ("trace_ids", str_list (if nonempty t then [t] else []))].

Definition attach_decision_object (person_id0 : string) (d : decision_spec) (g : graph) : graph * string :=
  let person := strip person_id0 in
  let dec_id := decision_external_id d.(ds_trace) d.(ds_external) in
  if negb (nonempty person) || negb (nonempty dec_id) then (g, "")
  else if existsb (fun o => bool_decide (o.(go_id) = dec_id)) g.(g_objects) then (g, dec_id)
  else
    let g := hang person "RESULTED_IN" (decision_object dec_id d) g in
    let based := _based_on_id g.(g_objects) in
    (when_text based (fun b => add_link (Lnk dec_id b "BASED_ON")) g, dec_id).

(** * The client of the decision graph *)

Section client.
(** The environment (unset variables are empty) and the exchange: method, address,
    parameters and body to the status and the decoded answer; [None] when it raises. *)
Context (env : string -> string) (http : string -> string -> dict -> option dict -> option (Z * option pyval)).

Definition _base_url : string :=
  let first k rest := let v := strip (env k) in if nonempty v then rstrip_char "/" v else rest in
  first "DECISION_GRAPH_URL" (first "GRAPH_SERVICE_URL" "").

Definition graph_write_url_configured : bool := nonempty _base_url.

Definition _enabled : bool :=
  let raw := lower (strip (env "DECISION_GRAPH_ENABLED")) in
  if mem raw ["0"; "false"; "no"; "off"] then false
  else if mem raw ["1"; "true"; "yes"; "on"] then true
  else graph_write_url_configured.

Definition _request (method path : string) (params : dict) (json_body : option dict) : pyval :=
  if negb _enabled || negb (nonempty _base_url) then PNone
  else
    match http method (_base_url +:+ path) (List.filter (fun kv => negb (is_none kv.2)) params) json_body with
    | Some (status, Some data) => if 400 <=? status then PNone else data
    | _ => PNone
    end.

Definition opt_text (s : option string) : pyval := match s with Some t => PStr t | None => PNone end.

Definition record_decision_failsoft (payload : dict) : option string :=
  match _request "POST" "/v1/decisions" [] (Some payload) with
  | PDict data => let id := str_or_empty (get data "external_id" PNone) in if nonempty id then Some id else None
  | _ => None
  end.

Definition find_latest_failsoft (tenant_id : string) (kind trace_id case_id entity agent_run : option string) : option dict :=
  match _request "GET" "/v1/decisions/latest"
          [("tenant_id", PStr tenant_id); ("kind", opt_text kind); ("trace_id", opt_text trace_id); ("case_id", opt_text case_id);
           ("entity_external_id", opt_text entity); ("agent_run_id", opt_text agent_run)] None with
  | PDict data => Some data
  | _ => None
  end.

(** [str(row.get("external_id") or "") if row else ...]; an empty row counts as none. *)
Definition row_id (row : option dict) : string :=
  match row with Some r => str_or_empty (get r "external_id" PNone) | None => "" end.

Definition client_prior_evaluate_id (tenant_id : string) (trace_id : option string) : string :=
  let tid := trim_opt trace_id in
  if negb (nonempty tid) then "" else row_id (find_latest_failsoft tenant_id (Some "evaluate") (Some tid) None None None).

Definition resolve_disposition_to_supersede (tenant_id case_id : string) : string :=
  let cid := strip case_id in
  if negb (nonempty cid) then "" else row_id (find_latest_failsoft tenant_id (Some "human_disposition") None (Some cid) None None).

Definition client_prior_agent_advise_id (tenant_id : string) (case_id : option string) : string :=
  let cid := trim_opt case_id in
  if negb (nonempty cid) then "" else row_id (find_latest_failsoft tenant_id (Some "agent_advise") None (Some cid) None None).

Definition invalidate_decision_failsoft (tenant_id external_id reason : string) (supersede_to : option string) : option dict :=
  let did := strip external_id in
  if negb (nonempty did) then None
  else match _request "POST" ("/v1/decisions/" +:+ did +:+ "/invalidate") []
               (Some [("tenant_id", PStr tenant_id); ("reason", PStr reason);
                      ("supersede_to", if nonempty (trim_opt supersede_to) then PStr (trim_opt supersede_to) else PNone)]) with
       | PDict data => Some data
       | _ => None
       end.

(** * Payloads *)

Definition metadata_prior (metadata : option dict) : string :=
  match metadata with Some m => strip (str_or_empty (get m "prior_decision_id" PNone)) | None => "" end.

Definition resolve_prior_evaluate_id (tenant_id : string) (trace_id : option string) (metadata : option dict) : string :=
  str_or (metadata_prior metadata) (client_prior_evaluate_id tenant_id trace_id).

Definition resolve_prior_agent_advise_id (tenant_id : string) (case_id : option string) (metadata : option dict) : string :=
  str_or (metadata_prior metadata) (client_prior_agent_advise_id tenant_id case_id).

Definition resolve_prior_for_disposition (tenant_id case_id : string) (trace_id agent_run_id explicit_prior : option string) : string :=
  if nonempty (trim_opt explicit_prior) then trim_opt explicit_prior
  else
    let by_trace :=
      let prior := client_prior_agent_advise_id tenant_id (Some case_id) in
      if nonempty prior then prior
      else if nonempty (opt_str trace_id) then client_prior_evaluate_id tenant_id trace_id else "" in
    if nonempty (opt_str agent_run_id) then
      match find_latest_failsoft tenant_id (Some "agent_advise") None None None agent_run_id with
      | Some (kv :: row) => row_id (Some (kv :: row))
      | _ => by_trace
      end
    else by_trace.

(** The fields of a payload that the graph is made of; [pl_rest] are the others. *)
Record graph_payload : Type := Payload {
  pl_objects : list graph_object; pl_links : list graph_link; pl_edges : list (string * string);
  pl_entity_ids : list string; pl_rest : dict }.

Definition with_outcome (outcome : string) (o : graph_object) : graph_object :=
  Obj o.(go_id) o.(go_type) (dict_set "last_outcome" (PStr outcome) o.(go_props)).

Definition payload_ids (pl : dict) (ids : list string) : list string :=
  foldl (fun ids key => let v := get pl key PNone in
                        if truthy v && negb (mem (py_str v) ids) then ids ++ [py_str v] else ids)
    ids ["device_id"; "account_id"; "payment_id"; "user_id"].

Record evaluate_call : Type := EvaluateCall {
  ev_tenant : string; ev_trace : string; ev_entity : string; ev_event : string; ev_decision : string; ev_score : float;
  ev_hits : list string; ev_fallback : option string; ev_payload : dict; ev_metadata : option dict; ev_log : option dict;
  ev_shadow : bool; ev_device : option dict; ev_session : option string; ev_now : string }.

Definition evaluate_decision (c : evaluate_call) (hits : list string) : decision_spec :=
  DecisionSpec (Some c.(ev_trace)) (strip c.(ev_decision)) "evaluate" (resolve_decision_source c.(ev_metadata) "evaluate") None
    c.(ev_now) hits (normalize_markings (match c.(ev_metadata) with Some m => get m "markings" PNone | None => PNone end)).

Definition supersedes (dec_id prior : string) (g : graph) : graph :=
  if nonempty prior && nonempty dec_id then add_link (Lnk dec_id prior "SUPERSEDES") g else g.

Definition audit_log_id (log : option dict) : pyval :=
  match log with
  | Some r => let id := strip (str_or_empty (por (get r "audit_log_id" PNone) (get r "id" PNone))) in
              if nonempty id then PStr id else PNone
  | None => PNone
  end.

Definition build_evaluate_payload (c : evaluate_call) : result graph_payload :=
  let prior := resolve_prior_evaluate_id c.(ev_tenant) (Some c.(ev_trace)) c.(ev_metadata) in
  let parts := match c.(ev_hits) with [] => [] | _ => ["rules=" +:+ sjoin "," (take 12 c.(ev_hits))] end
               ++ (if nonempty (opt_str c.(ev_fallback)) then ["fallback=" +:+ opt_str c.(ev_fallback)] else []) in
  let! g := build_evaluate_objects c.(ev_trace) c.(ev_entity) c.(ev_event) c.(ev_payload) c.(ev_device) c.(ev_session) in
  let outcome := strip c.(ev_decision) in
  let '(g, dec_id) := attach_decision_object c.(ev_entity) (evaluate_decision c c.(ev_hits)) g in
  let g := supersedes dec_id prior g in
  let objects := if nonempty outcome then map (with_outcome outcome) g.(g_objects) else g.(g_objects) in
  Ok (Payload objects g.(g_links) (if nonempty prior then [(prior, "INFLUENCED")] else [])
        (take 32 (payload_ids c.(ev_payload) (go_id <$> objects)))
        [("tenant_id", PStr c.(ev_tenant)); ("kind", PStr "evaluate"); ("category", PStr "transaction_evaluate");
         ("scenario", PStr (c.(ev_event) +:+ ":" +:+ c.(ev_entity))); ("outcome", PStr c.(ev_decision));
         ("reasoning", PStr (str_or (sjoin "; " parts) "evaluate")); ("confidence", PFloat c.(ev_score));
         ("rule_ids", str_list (take 32 c.(ev_hits))); ("trace_id", PStr c.(ev_trace)); ("audit_log_id", audit_log_id c.(ev_log));
         ("evidence_ids", PList []); ("shadow", PBool c.(ev_shadow))]).

Record disposition_call : Type := DispositionCall {
  dc_tenant : string; dc_case : string; dc_entity : option string; dc_trace : option string; dc_status : string; dc_actor : string;
  dc_reason : option string; dc_prior : option string; dc_run : option string; dc_now : string; dc_fresh : string }.

Definition build_human_disposition_payload (c : disposition_call) : graph_payload :=
  let prior := resolve_prior_for_disposition c.(dc_tenant) c.(dc_case) c.(dc_trace) c.(dc_run) c.(dc_prior) in
  let person := trim_opt c.(dc_entity) in
  let g := if nonempty person then Graph [Obj person "Person" [("last_act", PStr c.(dc_status))]] [] else Graph [] [] in
  let disp_id := "dec:disp:" +:+ c.(dc_case) +:+ ":" +:+ str_or (trim_opt c.(dc_trace)) (str_take 12 c.(dc_fresh)) in
  let '(g, _) := attach_decision_object person
    (DecisionSpec c.(dc_trace) c.(dc_status) "human_disposition" "disposition" (Some disp_id) c.(dc_now) [] DEFAULT_MARKINGS) g in
  let g := if nonempty prior then add_link (Lnk disp_id prior "SUPERSEDES") g else g in
  Payload g.(g_objects) g.(g_links) (if nonempty prior then [(prior, "CAUSED")] else [])
    (if nonempty person then [person] else [])
    [("tenant_id", PStr c.(dc_tenant)); ("kind", PStr "human_disposition"); ("category", PStr "case_status");
     ("scenario", PStr ("case " +:+ c.(dc_case) +:+ " → " +:+ c.(dc_status))); ("outcome", PStr c.(dc_status));
     ("reasoning", PStr ("actor=" +:+ c.(dc_actor)
                         +:+ if nonempty (opt_str c.(dc_reason)) then "; reason=" +:+ opt_str c.(dc_reason) else ""));
     ("case_id", PStr c.(dc_case)); ("trace_id", opt_text c.(dc_trace))].

(** The evidence of a run's claims, each id once. *)
Fixpoint claim_evidence (claims : list pyval) (evidence : list string) : result (list string) :=
  match claims with
  | [] => Ok evidence
  | PDict claim :: rest =>
      let! ids := iter_or_empty (get claim "evidence_ids" PNone) in
      claim_evidence rest (append_new evidence (List.filter nonempty (map (fun v => strip (py_str v)) ids)))
  | _ :: rest => claim_evidence rest evidence
  end.

Definition advise_outcome (claims : list pyval) : result string :=
  match claims with
  | [] => Ok "advise"
  | first :: _ =>
      match por first (PDict []) with
      | PDict c => Ok (str_take 128 (py_str (por (get c "claim" PNone) (por (get c "text" PNone) (PStr "advise")))))
      | _ => Err AttributeError
      end
  end.

Definition build_agent_advise_payload (tenant_id run_id : string) (case_id : option string) (entity_ids trace_ids : list string)
    (claims : list pyval) (context_snapshot : option dict) (source : string) : result graph_payload :=
  let own := metadata_prior context_snapshot in
  let prior := if nonempty own then own
               else match trace_ids with t :: _ => resolve_prior_evaluate_id tenant_id (Some t) context_snapshot | [] => "" end in
  let! evidence := claim_evidence claims [] in
  let! outcome := advise_outcome claims in
  Ok (Payload [] [] (if nonempty prior then [(prior, "INFLUENCED")] else []) (take 32 entity_ids)
        [("tenant_id", PStr (strip tenant_id)); ("kind", PStr "agent_advise"); ("category", PStr ("agent_run:" +:+ source));
         ("scenario", PStr ("agent_run case=" +:+ str_or (opt_str case_id) "-")); ("outcome", PStr (str_or outcome "advise"));
         ("reasoning", PStr ("agent_run_id=" +:+ run_id +:+ "; claims=" +:+ Z_to_string (Z.of_nat (length claims))));
         ("agent_run_id", PStr run_id); ("case_id", opt_text case_id); ("trace_id", opt_text (head trace_ids));
         ("evidence_ids", str_list (take 64 evidence))]).

(** ** Writing them *)

Definition object_val (o : graph_object) : pyval :=
  PDict [("external_id", PStr o.(go_id)); ("entity_type", PStr o.(go_type)); ("properties", PDict o.(go_props))].
Definition link_val (l : graph_link) : pyval :=
  PDict [("from_external_id", PStr l.(gl_from)); ("to_external_id", PStr l.(gl_to)); ("relationship", PStr l.(gl_rel))].

Definition payload_dict (p : graph_payload) : dict :=
  p.(pl_rest) ++ [("entity_external_ids", str_list p.(pl_entity_ids)); ("objects", PList (map object_val p.(pl_objects)));
    ("object_links", PList (map link_val p.(pl_links)));
    ("edges", PList (map (fun e => PDict [("from_external_id", PStr e.1); ("relationship", PStr e.2)]) p.(pl_edges)))].

Definition try_record_evaluate_decision_graph (c : evaluate_call) : result bool :=
  if c.(ev_shadow) || negb graph_write_url_configured then Ok true
  else let! p := build_evaluate_payload c in
       Ok match record_decision_failsoft (payload_dict p) with Some _ => true | None => false end.

(** The new id and, when an earlier disposition of the case is superseded, the call that invalidates it. *)
Definition _maybe_record_human_disposition_decision (c : disposition_call) : option string * option (option dict) :=
  let prior_disp := resolve_disposition_to_supersede c.(dc_tenant) c.(dc_case) in
  let new_id := record_decision_failsoft (payload_dict (build_human_disposition_payload c)) in
  (new_id,
   match new_id with
   | Some id => if nonempty prior_disp && negb (bool_decide (prior_disp = id))
                then Some (invalidate_decision_failsoft c.(dc_tenant) prior_disp "superseded by later human disposition" (Some id))
                else None
   | None => None
   end).
End client.

(** * The background writes of an evaluation *)

(** A POST to [/v1/entities] or [/v1/links]. *)
Inductive write : Type :=
| WriteEntity (o : graph_object) (tags : option (list string))
| WriteLink (l : graph_link) (props : dict).

(** ** Hints of partners *)

Definition hint_props (raw : dict) : dict :=
  let props := match get raw "props" PNone with PDict d => d | _ => [] end in
  let props := match props with
               | [] => match get raw "properties" PNone with PDict d => d | _ => [] end
               | _ => props
               end in
  dict_setdefault "source" (PStr "partner") props.

Definition field_or (raw : dict) (a b : string) : string := strip (str_or_empty (por (get raw a PNone) (get raw b PNone))).

Definition hint_vertex (raw : pyval) : option graph_object :=
  match raw with
  | PDict r =>
      let etype := field_or r "label" "entity_type" in
      let eid := field_or r "id" "external_id" in
      if negb (nonempty etype) || negb (nonempty eid) || bool_decide (etype = "Entity") then None
      else Some (Obj eid etype (hint_props r))
  | _ => None
  end.

(** A vertex is kept once per type and id. *)
Definition hint_vertices (raws : list pyval) : list graph_object :=
  foldl (fun out raw => match hint_vertex raw with
                        | Some o => if existsb (fun o' => bool_decide (go_type o' = go_type o /\ go_id o' = go_id o)) out
                                    then out else out ++ [o]
                        | None => out
                        end) [] raws.

Definition hint_end (raw : dict) (side key : string) : string :=
  strip (str_or_empty (por (get (as_dict (get raw side PNone)) "id" PNone) (get raw key PNone))).

Definition hint_edge (raw : pyval) : option (graph_link * dict) :=
  match raw with
  | PDict r =>
      let src := hint_end r "from" "from_external_id" in
      let dst := hint_end r "to" "to_external_id" in
      let rel := field_or r "type" "relationship" in
      if negb (nonempty src) || negb (nonempty dst) || negb (nonempty rel) then None
      else Some (Lnk src dst rel, hint_props r)
  | _ => None
  end.

Definition graph_writes_from_hints (hints : option dict) : result (list graph_object * list (graph_link * dict)) :=
  match hints with
  | None => Ok ([], [])
  | Some h =>
      let! vertices := iter_or_empty (get h "vertices" PNone) in
      let! edges := iter_or_empty (get h "edges" PNone) in
      Ok (hint_vertices vertices, filter_map hint_edge edges)
  end.

(** ** [_graph_upsert] *)

(** The request as the writes see it; [up_device_tags] are the tags of the device's signals. *)
Record upsert_call : Type := UpsertCall {
  up_trace : string; up_entity : string; up_event : string; up_payload : dict; up_metadata : option dict; up_device : option dict;
  up_session : option string; up_decision : string; up_tags : list string; up_geo_tags : list string; up_device_tags : list string;
  up_hints : option dict; up_now : string }.

Definition scalar (v : pyval) : bool := match v with PList _ | PDict _ => false | _ => true end.

Definition entity_write (c : upsert_call) (o : graph_object) : write :=
  let etype := str_or (strip (str_or o.(go_type) "Custom")) "Custom" in
  let device := bool_decide (etype = "Device") in
  match bool_decide (etype = "Person"), c.(up_device) with
  | true, _ => WriteEntity (Obj (strip o.(go_id)) etype (dict_set "last_event" (PStr c.(up_event)) o.(go_props))) (Some c.(up_tags))
  | false, Some dc =>
      if device then
        WriteEntity (Obj (strip o.(go_id)) etype
          (dict_update (dict_set "platform" (get dc "platform" PNone) o.(go_props))
             (List.filter (fun kv => scalar kv.2) (as_dict (get dc "signals" PNone))))) (Some c.(up_device_tags))
      else WriteEntity (Obj (strip o.(go_id)) etype o.(go_props)) (Some [])
  | false, None => WriteEntity (Obj (strip o.(go_id)) etype o.(go_props)) (Some [])
  end.

Definition hop_props (c : upsert_call) : dict :=
  [("trace_id", PStr c.(up_trace)); ("event_type", PStr c.(up_event)); ("decision_id", PStr ("dec:" +:+ c.(up_trace)))].

Definition link_write (c : upsert_call) (l : graph_link) : option write :=
  let src := strip l.(gl_from) in
  let dst := strip l.(gl_to) in
  let rel := strip l.(gl_rel) in
  if negb (nonempty src) || negb (nonempty dst) || negb (nonempty rel) then None
  else Some (WriteLink (Lnk src dst rel) (hop_props c)).

(** The session's id in the last hop: the prefix is not doubled here. *)
Definition seen_session (session_id : option string) : string :=
  let sess := trim_opt session_id in if nonempty sess then with_prefix "sess:" sess else "".

Definition place_writes (c : upsert_call) (la lo : float) : list write :=
  let cell := place_cell_id la lo 3 in
  [WriteEntity (Obj cell "Place" [("kind", PStr "geohash_like_cell"); ("lat", PFloat (f_round la 5)); ("lon", PFloat (f_round lo 5));
     ("trace_id", PStr c.(up_trace))]) (Some c.(up_geo_tags));
   WriteLink (Lnk c.(up_entity) cell "SEEN_AT") (hop_props c)]
  ++ let sess := seen_session c.(up_session) in
     if nonempty sess then [WriteLink (Lnk sess cell "SEEN_AT") [("trace_id", PStr c.(up_trace)); ("decision_id", PStr ("dec:" +:+ c.(up_trace)))]]
     else [].

Definition hint_entity_write (c : upsert_call) (o : graph_object) : write :=
  WriteEntity (Obj o.(go_id) o.(go_type)
    (dict_set "trace_id" (por (get o.(go_props) "trace_id" PNone) (PStr c.(up_trace))) o.(go_props))) None.
Definition hint_link_write (c : upsert_call) (e : graph_link * dict) : write :=
  WriteLink e.1 (dict_setdefault "trace_id" (PStr c.(up_trace)) e.2).

Definition upsert_graph (c : upsert_call) : result graph :=
  let! g := build_evaluate_objects c.(up_trace) c.(up_entity) c.(up_event) c.(up_payload) c.(up_device) c.(up_session) in
  Ok (if nonempty (strip c.(up_decision)) then
        let meta := default [] c.(up_metadata) in
        (attach_decision_object c.(up_entity)
           (DecisionSpec (Some c.(up_trace)) c.(up_decision) "evaluate" (resolve_decision_source (Some meta) "evaluate") None c.(up_now) []
              (normalize_markings (get meta "markings" PNone))) g).1
      else g).

(** The writes that are made, when no POST raises, and how the call ends. *)
Definition _graph_upsert (graph_service_url : string) (c : upsert_call) : list write * result unit :=
  if negb (nonempty graph_service_url) then ([], Ok tt)
  else
    match upsert_graph c with
    | Err e => ([], Err e)
    | Ok g =>
        let ws := map (entity_write c) (List.filter (fun o => nonempty (strip o.(go_id))) g.(g_objects))
                  ++ filter_map (link_write c) g.(g_links) in
        match _geo_lat_lon c.(up_payload) c.(up_device) with
        | Err e => (ws, Err e)
        | Ok geo =>
            let ws := ws ++ match geo with Some (la, lo) => place_writes c la lo | None => [] end in
            match graph_writes_from_hints c.(up_hints) with
            | Err e => (ws, Err e)
            | Ok (hint_objs, hint_links) => (ws ++ map (hint_entity_write c) hint_objs ++ map (hint_link_write c) hint_links, Ok tt)
            end
        end
    end.

(** * The window of allow decisions *)

(** [l[:k]]. *)
Definition slice_to {A : Type} (k : Z) (l : list A) : list A :=
  take (Z.to_nat (if k <? 0 then Z.max 0 (Z.of_nat (length l) + k) else k)) l.

Definition node_is_decision (node : dict) : result bool :=
  if bool_decide (str_or_empty (get node "entity_type" PNone) = "Decision") then Ok true
  else let! labels := iter_or_empty (get node "labels" PNone) in Ok (mem "Decision" (map py_str labels)).

Definition node_props (node : dict) : dict := as_dict (get node "properties" PNone).

Definition decision_node_id (node : dict) : string :=
  strip (str_or_empty (por (get node "id" PNone) (por (get node "external_id" PNone) (get (node_props node) "external_id" PNone)))).

Definition prop_text (node : dict) (k : string) : string := str_or_empty (get (node_props node) k PNone).

(** The row of a node, by which it is aged; [None] when the node is passed over. *)
Definition allow_row (is_allow : dict -> bool) (node : dict) : result (option (string * string)) :=
  let! dec := node_is_decision node in
  Ok (if dec && is_allow node && nonempty (decision_node_id node) then Some (prop_text node "created_at", decision_node_id node) else None).

Fixpoint allow_rows (is_allow : dict -> bool) (nodes : list dict) : result (list (string * string)) :=
  match nodes with
  | [] => Ok []
  | n :: rest =>
      let! r := allow_row is_allow n in
      let! rs := allow_rows is_allow rest in
      Ok (match r with Some row => row :: rs | None => rs end)
  end.

Definition ids_over_cap (is_allow : dict -> bool) (nodes : list dict) (cap : Z) : result (list string) :=
  let! rows := allow_rows is_allow nodes in
  let rows := merge_sort pair_le rows in
  Ok (if Z.of_nat (length rows) <=? cap then [] else (slice_to (- cap) rows).*2).

(** The test of [decision_graph_payload.py] ... *)
Definition shared_is_allow (node : dict) : bool :=
  negb (is_material_decision (prop_text node "kind") (prop_text node "outcome"))
  && bool_decide (lower (prop_text node "source") = "evaluate") && bool_decide (lower (strip (prop_text node "outcome")) = "allow").

Definition allow_decision_ids_over_cap : list dict -> Z -> result (list string) := ids_over_cap shared_is_allow.

(** ... and that of [graph_runtime.py]. *)
Definition runtime_is_allow (node : dict) : bool :=
  let kind := lower (strip (prop_text node "kind")) in
  let outcome := lower (strip (prop_text node "outcome")) in
  let source := lower (strip (prop_text node "source")) in
  let material := mem kind ["human_disposition"; "policy_gate"] || mem outcome ["deny"; "review"; "held"; "hold"]
                  || startswith outcome "resolved" in
  negb material && bool_decide (source = "evaluate") && bool_decide (outcome = "allow").

Definition runtime_over_cap : list dict -> Z -> result (list string) := ids_over_cap runtime_is_allow.

(** [trim_allow_decision_window] on the nodes around a person: those that are left
    and how many were picked.  [removed] says whether the store deletes the node of
    an id; a delete that fails is only logged, and the node stays. *)
Definition trim_allow_decision_window (removed : string -> bool) (person_id : string) (nodes : list dict) : result (list dict * Z) :=
  if negb (nonempty (strip person_id)) then Ok (nodes, 0)
  else
    let! drop := runtime_over_cap nodes ALLOW_AGE_CAP in
    Ok (List.filter (fun n => negb (mem (decision_node_id n) drop && removed (decision_node_id n))) nodes, Z.of_nat (length drop)).

(** * Correctness *)

(** ** Links name objects *)

(** An object with the id, surrounding space aside. *)
Definition named (g : graph) (x : string) : Prop := exists o, o ∈ g.(g_objects) /\ strip o.(go_id) = strip x.

Definition closed (g : graph) : Prop := forall l, l ∈ g.(g_links) -> named g l.(gl_from) /\ named g l.(gl_to).

Lemma named_hang g from rel o x : named g x -> named (hang from rel o g) x.
Proof. intros (o' & Ho & E). exists o'. split; [|done]. cbn. set_solver. Qed.

Lemma named_new g from rel o : named (hang from rel o g) o.(go_id).
Proof. exists o. split; [cbn; set_solver|done]. Qed.

Lemma closed_hang g from rel o : named g from -> closed g -> closed (hang from rel o g).
Proof.
  intros Hf Hg l Hl. cbn in Hl. apply elem_of_app in Hl as [Hl|Hl%list_elem_of_singleton].
  - destruct (Hg l Hl). split; by apply named_hang.
  - subst l. cbn [gl_from gl_to]. split; [by apply named_hang|apply named_new].
Qed.

Lemma closed_link g l : named g l.(gl_from) -> named g l.(gl_to) -> closed g -> closed (add_link l g).
Proof.
  intros Hf Ht Hg l' Hl. cbn in Hl. apply elem_of_app in Hl as [Hl|Hl%list_elem_of_singleton]; [by apply Hg|by subst l'].
Qed.

(** One stage of the construction: it keeps every object, and keeps links closed
    while [p] is an object. *)
Definition grown (p : string) (g g' : graph) : Prop :=
  (closed g -> named g p -> closed g') /\ (forall x, named g x -> named g' x).

Lemma grown_refl p g : grown p g g.
Proof. by split. Qed.

Lemma grown_trans p g1 g2 g3 : grown p g1 g2 -> grown p g2 g3 -> grown p g1 g3.
Proof. intros [H1 H2] [H3 H4]. split; auto. Qed.

Lemma grown_hang p g rel o : grown p g (hang p rel o g).
Proof. split; [intros; by apply closed_hang|intros; by apply named_hang]. Qed.

Lemma grown_when p g rel s mk : grown p g (when_text s (fun t => hang p rel (mk t)) g).
Proof. unfold when_text. destruct (nonempty s); [apply grown_hang|apply grown_refl]. Qed.

Lemma named_when p g rel s mk : nonempty s = true -> named (when_text s (fun t => hang p rel (mk t)) g) (mk s).(go_id).
Proof. intros Hs. unfold when_text. rewrite Hs. apply named_new. Qed.

#[local] Hint Resolve grown_refl grown_hang grown_when named_new named_when : core.

Section build.
Context (trace_id entity_id event_type : string) (payload : dict) (device_context : option dict) (session_id : option string).

#[local] Abbreviation pid := (person_id entity_id).
#[local] Abbreviation instruments := (with_instruments trace_id entity_id payload).
#[local] Abbreviation things := (with_things trace_id entity_id payload device_context session_id).
#[local] Abbreviation event := (with_event trace_id entity_id event_type payload device_context session_id).

Lemma instruments_grown g : grown pid g (instruments g).
Proof. unfold with_instruments. do 3 (eapply grown_trans; [|apply grown_when]). auto. Qed.

Lemma things_grown g : grown pid g (things g).
Proof.
  unfold with_things. do 4 (eapply grown_trans; [|apply grown_when]). destruct (_ && _); auto.
Qed.

(** What the later links refer to is there. *)
Lemma things_named g x : x ∈ [device payload device_context; session_object payload device_context session_id; document payload; plate payload] ->
  nonempty x = true -> named (things g) x.
Proof.
  intros Hx Hn. unfold with_things.
  rewrite !elem_of_cons, elem_of_nil in Hx. destruct Hx as [->|[->|[->|[->|[]]]]];
    repeat first [by apply (named_when _ _ _ _ (fun t => traced trace_id t _ _)) | eapply grown_when].
Qed.

Lemma event_closed g : named g pid -> closed g ->
  (nonempty (session_object payload device_context session_id) = true -> named g (session_object payload device_context session_id)) ->
  closed (event g).
Proof.
  intros Hp Hg Hs. unfold with_event.
  assert (Hc : forall rel ty props, closed (if nonempty (event_object trace_id event_type payload) && nonempty (session_object payload device_context session_id)
      then add_link (Lnk (event_object trace_id event_type payload) (session_object payload device_context session_id) "USED_SESSION")
             (hang pid rel (traced trace_id (event_object trace_id event_type payload) ty props) g)
      else hang pid rel (traced trace_id (event_object trace_id event_type payload) ty props) g)).
  { intros rel ty props. destruct (_ && _) eqn:E; [|by apply closed_hang]. apply andb_prop in E as [_ E].
    apply closed_link; cbn [gl_from gl_to]; [apply (named_new g pid rel (traced trace_id _ ty props))|by apply named_hang, Hs|by apply closed_hang]. }
  destruct (bool_decide (event_kind event_type = "payment")) eqn:E1; [apply Hc|].
  destruct (bool_decide (event_kind event_type = "login")) eqn:E2; [apply Hc|].
  unfold event_object. by rewrite E1, E2.
Qed.

Lemma event_named g x : named g x -> named (event g) x.
Proof.
  intros Hx. unfold with_event. assert (Hl : forall g l, named g x -> named (add_link l g) x) by done.
  repeat case_bool_decide; destruct (_ && _); auto using named_hang.
Qed.

Lemma payment_named g : bool_decide (event_kind event_type = "payment") = true ->
  named (event g) (event_object trace_id event_type payload).
Proof.
  intros H. unfold with_event, event_object. rewrite H.
  assert (Hn : forall g l x, named g x -> named (add_link l g) x) by done.
  destruct (_ && _); [apply Hn|]; apply (named_new g pid "MADE_PAYMENT" (traced trace_id _ _ _)).
Qed.

Lemma mid_named g :
  named (things g) pid ->
  named (event (things g)) (str_or (mid_id trace_id event_type payload device_context) pid).
Proof.
  intros Hp. assert (Ht : forall x, x ∈ [device payload device_context; session_object payload device_context session_id; document payload; plate payload] ->
    nonempty x = true -> named (event (things g)) x) by (intros; by apply event_named, things_named).
  unfold mid_id. set (d := device payload device_context) in *. set (doc := document payload) in *. set (pl := plate payload) in *.
  destruct (bool_decide (event_kind event_type = "payment")) eqn:Epay; cbn [andb].
  - destruct (nonempty (event_object _ _ _)) eqn:En; [unfold str_or; rewrite En; by apply payment_named|].
    exfalso. revert En. unfold event_object. rewrite Epay. unfold str_or. destruct (nonempty (_trim _)) eqn:E; [by rewrite E|done].
  - assert (Hd : named (event (things g)) (str_or d pid)).
    { unfold str_or. destruct (nonempty d) eqn:Ed; [apply Ht; [by left|done]|by apply event_named]. }
    destruct (nonempty doc) eqn:Edoc; [|destruct (nonempty pl) eqn:Epl].
    all: destruct (bool_decide (event_kind event_type = "login") && nonempty d); [exact Hd|]; unfold str_or; rewrite ?Edoc, ?Epl; try done.
    + apply Ht; [by do 2 right; left|done].
    + apply Ht; [by do 3 right; left|done].
Qed.
End build.

(** The objects of an evaluation: links are closed and, unless it is blank, the person is among them. *)
Lemma built_closed trace entity event payload dc sess g :
  build_evaluate_objects trace entity event payload dc sess = Ok g ->
  closed g /\ (nonempty (person_id entity) = true -> named g (person_id entity)
               /\ (nonempty (session_object payload dc sess) = true -> named g (session_object payload dc sess))).
Proof.
  unfold build_evaluate_objects. destruct (nonempty (person_id entity)) eqn:Ep; cbn [negb].
  2: { intros [= <-]. split; [|done]. intros l Hl. by apply elem_of_nil in Hl. }
  set (g0 := add_object _ _). assert (H0 : named g0 (person_id entity)) by (exists (person trace entity event payload); split; [by left|done]).
  assert (C0 : closed g0) by (intros l Hl; by apply elem_of_nil in Hl).
  destruct (instruments_grown trace entity payload g0) as [Hi1 Hi2]. destruct (things_grown trace entity payload dc sess (with_instruments trace entity payload g0)) as [Ht1 Ht2].
  set (gt := with_things _ _ _ _ _ _) in *. assert (Hp : named gt (person_id entity)) by auto.
  assert (Hs : nonempty (session_object payload dc sess) = true -> named gt (session_object payload dc sess))
    by (intros; apply things_named; [by right; left|done]).
  set (ge := with_event _ _ _ _ _ _ gt). assert (Ce : closed ge) by (apply event_closed; auto).
  assert (Hip : closed (with_ip trace entity event payload dc ge) /\ forall x, named gt x -> named (with_ip trace entity event payload dc ge) x).
  { unfold with_ip, when_text. destruct (nonempty (_client_ip payload dc)); [|split; [done|intros; by apply event_named]].
    split; [apply closed_hang; [by apply mid_named|done]|intros; by apply named_hang, event_named]. }
  destruct Hip as [Cip Hip]. destruct (_geo_lat_lon _ _) as [geo|e]; [|discriminate]. cbn [rbind]. intros [= <-].
  destruct geo as [[la lo]|]; [|auto]. split; [apply closed_hang; auto|]. auto using named_hang.
Qed.

Lemma based_on_named g : nonempty (_based_on_id (g_objects g)) = true -> named g (_based_on_id (g_objects g)).
Proof.
  assert (Hl : forall kind, nonempty (last_of_type kind (g_objects g)) = true -> named g (last_of_type kind (g_objects g))).
  { intros kind. unfold named. generalize (g_objects g) as os. induction os as [|o os IH] using rev_ind; [done|].
    unfold last_of_type. rewrite foldl_app. cbn [foldl]. fold (last_of_type kind os). case_bool_decide.
    - intros _. exists o. split; [set_solver|by rewrite strip_idem].
    - intros Hn. destruct (IH Hn) as (o' & Ho & E). exists o'. split; [set_solver|done]. }
  unfold _based_on_id. induction _BASED_ON_ORDER as [|kind kinds IH]; cbn [foldr]; [done|].
  unfold str_or at 1 3. destruct (nonempty (last_of_type kind (g_objects g))) eqn:E; auto.
Qed.

(** Attaching a decision keeps links closed, and the id it answers with is an object. *)
Lemma attach_closed pid d g g' dec : 
  attach_decision_object pid d g = (g', dec) -> closed g -> (nonempty (strip pid) = true -> named g (strip pid)) ->
  closed g' /\ (nonempty dec = true -> named g' dec) /\ (forall x, named g x -> named g' x).
Proof.
  unfold attach_decision_object. intros H Hc Hp. destruct (nonempty (strip pid)) eqn:Ep; cbn [negb orb] in H; [|by simplify_eq].
  destruct (negb (nonempty _)); [by simplify_eq|]. destruct (existsb _ _) eqn:Ex.
  - injection H as <- <-. split; [done|]. split; [|done]. intros _. apply existsb_exists in Ex as (o & Ho & E).
    apply bool_decide_eq_true in E. exists o. split; [by apply list_elem_of_In|by rewrite E].
  - injection H as <- <-. set (g1 := hang _ _ _ g). assert (H1 : closed g1) by (apply closed_hang; auto).
    assert (Hd : named g1 (decision_external_id (ds_trace d) (ds_external d))) by (apply (named_new g _ _ (decision_object _ d))).
    unfold when_text. destruct (nonempty (_based_on_id _)) eqn:Eb.
    + split; [apply closed_link; [done|by apply based_on_named|done]|]. split; [done|]. intros x Hx. by apply (named_hang g).
    + split; [done|]. split; [done|]. intros x Hx. by apply named_hang.
Qed.

(** Every link of an evaluation's payload joins objects of the same payload, except
    the one that says which earlier decision this one supersedes. *)
Theorem payload_closed env http c p :
  build_evaluate_payload env http c = Ok p ->
  let g := Graph p.(pl_objects) p.(pl_links) in
  forall l, l ∈ p.(pl_links) ->
  named g l.(gl_from)
  /\ (named g l.(gl_to) \/ l.(gl_rel) = "SUPERSEDES" /\ l.(gl_to) = resolve_prior_evaluate_id env http c.(ev_tenant) (Some c.(ev_trace)) c.(ev_metadata)).
Proof.
  intros H g l Hl. unfold build_evaluate_payload in H. apply rbind_Ok in H as (g0 & Hb & H). apply built_closed in Hb as [Hc Hp].
  destruct (attach_decision_object _ _ g0) as [g1 dec] eqn:Ea. apply attach_closed in Ea as (C1 & Hdec & _); [|done|intros; by apply Hp].
  injection H as <-. cbn [pl_links pl_objects] in *.
  assert (Hn : forall x, named g1 x -> named g x).
  { intros x (o & Ho & E). unfold g, named. cbn [g_objects].
    assert (Eo : g_objects (supersedes dec (resolve_prior_evaluate_id env http (ev_tenant c) (Some (ev_trace c)) (ev_metadata c)) g1) = g_objects g1)
      by (unfold supersedes; by destruct (_ && _)).
    rewrite Eo. destruct (nonempty (strip (ev_decision c))); [|eauto]. exists (with_outcome (strip (ev_decision c)) o). split; [by apply list_elem_of_fmap_2|done]. }
  unfold supersedes in Hl. destruct (_ && _) eqn:E; [|destruct (C1 l Hl); auto].
  apply andb_prop in E as [_ Ed]. cbn [g_links add_link] in Hl. apply elem_of_app in Hl as [Hl|Hl%list_elem_of_singleton]; [destruct (C1 l Hl); auto|].
  subst l. cbn [gl_from gl_to gl_rel]. split; [auto|by right].
Qed.

(** ** The background writes *)

Definition written (ws : list write) (x : string) : Prop := exists o tags, WriteEntity o tags ∈ ws /\ o.(go_id) = x.

Definition link_ok (ws : list write) (w : write) : Prop :=
  match w with WriteLink l _ => written ws l.(gl_from) /\ written ws l.(gl_to) | WriteEntity _ _ => True end.

(** After [done], each link comes behind the entities it joins. *)
Fixpoint follows (done ws : list write) : Prop :=
  match ws with
  | [] => True
  | w :: ws' => link_ok done w /\ follows (done ++ [w]) ws'
  end.

Lemma written_app_l ws ws' x : written ws x -> written (ws ++ ws') x.
Proof. intros (o & tags & H & E). exists o, tags. split; [set_solver|done]. Qed.

Lemma follows_app d ws ws' : follows d ws -> follows (d ++ ws) ws' -> follows d (ws ++ ws').
Proof.
  revert d. induction ws as [|w ws IH]; intros d; cbn [follows app]; [by rewrite app_nil_r|].
  intros [H1 H2] H3. split; [done|]. apply IH; [done|]. by rewrite <- app_assoc.
Qed.

Lemma follows_all d ws : Forall (link_ok d) ws -> follows d ws.
Proof.
  revert d. induction ws as [|w ws IH]; intros d H; cbn [follows]; [done|]. apply Forall_cons in H as [H1 H2]. split; [done|].
  apply IH. eapply Forall_impl; [exact H2|]. intros [] Hw; [done|]. destruct Hw. split; by apply written_app_l.
Qed.

Lemma follows_spec d ws pre w post : follows d ws -> ws = pre ++ w :: post -> link_ok (d ++ pre) w.
Proof.
  revert d ws. induction pre as [|v pre IH]; intros d ws H ->; cbn [follows app] in H; destruct H as [H1 H2]; [by rewrite app_nil_r|].
  specialize (IH _ _ H2 eq_refl). by rewrite <- app_assoc in IH.
Qed.

Lemma entity_write_id c o : exists o' tags, entity_write c o = WriteEntity o' tags /\ o'.(go_id) = strip o.(go_id).
Proof. unfold entity_write. destruct (bool_decide _), (up_device c); [..|destruct (bool_decide _)|]; eauto. Qed.

Lemma upsert_graph_closed c g :
  upsert_graph c = Ok g ->
  closed g /\ (nonempty (person_id (up_entity c)) = true -> named g (person_id (up_entity c))
               /\ (nonempty (session_object (up_payload c) (up_device c) (up_session c)) = true ->
                   named g (session_object (up_payload c) (up_device c) (up_session c)))).
Proof.
  unfold upsert_graph. intros H. apply rbind_Ok in H as (g0 & Hb & H). apply built_closed in Hb as [Hc Hp].
  injection H as <-. destruct (nonempty (strip (up_decision c))); [|done].
  destruct (attach_decision_object _ _ g0) as [g1 dec] eqn:Ea. apply attach_closed in Ea as (C1 & _ & Hm); [|done|intros; by apply Hp].
  split; [done|]. intros Hn. destruct (Hp Hn) as [Hx Hy]. split; [by apply Hm|]. intros Hz. by apply Hm, Hy.
Qed.

Lemma rstrip_app p s : all_chars (fun c => negb (is_space c)) p = true -> rstrip (p +:+ s) = p +:+ rstrip s.
Proof.
  induction p as [|c p IH]; cbn [all_chars]; [done|]. intros [Hc Hp]%andb_prop. apply negb_true_iff in Hc.
  by rewrite !sapp_cons, rstrip_cons, IH.
Qed.

Lemma trimmed_session payload dc sess : strip (_session_id payload dc sess) = _session_id payload dc sess.
Proof.
  unfold _session_id, trim_opt. destruct (nonempty (strip (opt_str sess))); [apply strip_idem|].
  assert (Ht : forall v, strip (_trim v) = _trim v) by (intros []; cbn [_trim]; [done|apply strip_idem..]).
  destruct dc as [dc|]; [destruct (nonempty _)|]; cbn [nonempty]; apply Ht.
Qed.

Lemma session_strip payload dc sess : strip (session_object payload dc sess) = session_object payload dc sess.
Proof.
  unfold session_object. pose proof (trimmed_session payload dc sess) as Ht. set (s := _session_id payload dc sess) in *.
  destruct (nonempty s); [|done]. assert (Hr : rstrip s = s) by (rewrite <- Ht; unfold strip; apply rstrip_idem).
  change (strip ("sess:" +:+ s)) with (rstrip ("sess:" +:+ s)). by rewrite rstrip_app, Hr.
Qed.

Section upsert.
Context (c : upsert_call) (g : graph).
#[local] Abbreviation entities := (map (entity_write c) (List.filter (fun o => nonempty (strip o.(go_id))) g.(g_objects))).

Lemma named_written x : named g x -> nonempty (strip x) = true -> written entities (strip x).
Proof.
  intros (o & Ho & E) Hn. destruct (entity_write_id c o) as (o' & tags & Ew & Ei). exists o', tags. split; [|by rewrite Ei].
  rewrite <- Ew. apply list_elem_of_fmap_2, filter_elem. by rewrite E.
Qed.

Lemma entities_follow : follows [] entities.
Proof.
  apply follows_all, Forall_forall. intros w Hw. apply list_elem_of_fmap in Hw as (o & -> & _).
  by destruct (entity_write_id c o) as (o' & tags & -> & _).
Qed.

Lemma links_follow : closed g -> follows entities (filter_map (link_write c) g.(g_links)).
Proof.
  intros Hc. apply follows_all, Forall_forall. intros w Hw. apply filter_map_elem in Hw as (l & Hl & Ew).
  unfold link_write in Ew. destruct (nonempty (strip (gl_from l))) eqn:Ef, (nonempty (strip (gl_to l))) eqn:Et, (nonempty (strip (gl_rel l))); try discriminate.
  injection Ew as <-. destruct (Hc l Hl) as [Hf Ht]. split; by apply named_written.
Qed.
End upsert.

(** C24: The background writes of an evaluation keep the graph free of dangling links:
    when the entity id is not blank and carries no surrounding space and the session
    id does not already start with [sess:], every link is written after both of the
    objects it joins, whatever the payload and the signals of the device name, partner
    hints aside. *)
Theorem upsert_links_follow url c pre l props post :
  c.(up_hints) = None -> strip c.(up_entity) = c.(up_entity) -> nonempty c.(up_entity) = true ->
  startswith (trim_opt c.(up_session)) "sess:" = false ->
  (_graph_upsert url c).1 = pre ++ WriteLink l props :: post ->
  written pre l.(gl_from) /\ written pre l.(gl_to).
Proof.
  intros Hh He Hn Hs H. enough (Hf : follows [] (_graph_upsert url c).1) by exact (follows_spec [] _ pre _ post Hf H).
  clear H. unfold _graph_upsert. destruct (negb (nonempty url)); [done|]. destruct (upsert_graph c) as [g|e] eqn:Eg; [|done].
  apply upsert_graph_closed in Eg as [Hc Hp]. unfold person_id in Hp. rewrite He in Hp. destruct (Hp Hn) as [Hperson Hsess]. rewrite Hh. cbn [graph_writes_from_hints].
  assert (Hbase : follows [] (map (entity_write c) (List.filter (fun o => nonempty (strip (go_id o))) (g_objects g)) ++ filter_map (link_write c) (g_links g)))
    by (apply follows_app; [apply entities_follow|by apply links_follow]).
  destruct (_geo_lat_lon _ _) as [[[la lo]|]|e]; cbn [fst map app]; rewrite ?app_nil_r; [|done|done].
  apply follows_app; [done|]. rewrite app_nil_l. set (base := _ ++ _).
  assert (Hent : written base (up_entity c)).
  { apply written_app_l. pose proof (named_written c g _ Hperson) as W. rewrite He in W. by apply W. }
  assert (Hcell : forall tags o w, go_id o = place_cell_id la lo 3 -> written (base ++ WriteEntity o tags :: w) (place_cell_id la lo 3))
    by (intros tags o w E; exists o, tags; split; [set_solver|done]).
  unfold place_writes. apply follows_app; cbn [follows].
  - split; [done|]. split; [|done]. split; [by apply written_app_l|by apply Hcell].
  - destruct (nonempty (seen_session (up_session c))) eqn:En; cbn [follows]; [|done]. split; [|done].
    split; [|by apply Hcell]. apply written_app_l, written_app_l.
    assert (Es : seen_session (up_session c) = session_object (up_payload c) (up_device c) (up_session c)).
    { unfold seen_session, session_object, _session_id, with_prefix in *. destruct (nonempty (trim_opt (up_session c))) eqn:Et; [|discriminate].
      by rewrite Et, Hs. }
    cbn [gl_from]. rewrite Es in *. pose proof (named_written c g _ (Hsess En)) as W. rewrite session_strip in W. by apply W.
Qed.

(** ** The window of allow decisions *)

#[local] Instance pair_le_total : Total pair_le.
Proof.
  intros [a b] [c d]. unfold pair_le. cbn [fst snd]. destruct (decide (a = c)) as [->|Hne].
  - destruct (total String.le b d); auto.
  - destruct (total String.le a c); [left|right]; auto.
Qed.

#[local] Instance pair_le_trans : Transitive pair_le.
Proof.
  intros [a b] [c d] [e f]. unfold pair_le. cbn [fst snd].
  intros [[H1 H2]|[-> H2]] [[H3 H4]|[-> H4]]; [|by left..|right; split; [done|by transitivity d]].
  left. split; [|by transitivity c]. intros ->. apply H1. by apply (anti_symm String.le).
Qed.

Lemma allow_row_id is_allow n row : allow_row is_allow n = Ok (Some row) -> row.2 = decision_node_id n /\ is_allow n = true.
Proof.
  unfold allow_row. intros H. apply rbind_Ok in H as (dec & _ & H). destruct (dec && is_allow n && nonempty (decision_node_id n)) eqn:E; [|discriminate].
  injection H as <-. apply andb_prop in E as [[_ E]%andb_prop _]. done.
Qed.

(** Keeping nodes by their ids keeps rows by their ids. *)
Lemma allow_rows_filter is_allow (keep : string -> bool) nodes : forall rows,
  allow_rows is_allow nodes = Ok rows ->
  allow_rows is_allow (List.filter (fun n => keep (decision_node_id n)) nodes) = Ok (List.filter (fun r => keep r.2) rows).
Proof.
  induction nodes as [|n nodes IH]; intros rows H; cbn [allow_rows] in H; [by injection H as <-|].
  apply rbind_Ok in H as (r & Hr & H). apply rbind_Ok in H as (rs & Hrs & H). injection H as <-. specialize (IH rs Hrs). cbn [List.filter].
  destruct (keep (decision_node_id n)) eqn:Ek.
  - cbn [allow_rows]. rewrite Hr, IH. cbn [rbind]. destruct r as [row|]; [|done]. apply allow_row_id in Hr as [E _]. cbn [List.filter]. by rewrite E, Ek.
  - rewrite IH. destruct r as [row|]; [|done]. apply allow_row_id in Hr as [E _]. cbn [List.filter]. by rewrite E, Ek.
Qed.

Lemma allow_rows_ids is_allow nodes : forall rows, allow_rows is_allow nodes = Ok rows -> rows.*2 `sublist_of` (decision_node_id <$> nodes).
Proof.
  induction nodes as [|n nodes IH]; intros rows H; cbn [allow_rows] in H; [by injection H as <-|].
  apply rbind_Ok in H as (r & Hr & H). apply rbind_Ok in H as (rs & Hrs & H). injection H as <-. specialize (IH rs Hrs).
  destruct r as [row|]; cbn [fmap list_fmap]; [|by apply sublist_cons]. apply allow_row_id in Hr as [-> _]. by apply sublist_skip.
Qed.

(** A row comes from an allow decision. *)
Lemma allow_rows_from is_allow nodes : forall rows x, allow_rows is_allow nodes = Ok rows -> x ∈ rows.*2 ->
  exists n, n ∈ nodes /\ decision_node_id n = x /\ is_allow n = true.
Proof.
  induction nodes as [|n nodes IH]; intros rows x H Hx; cbn [allow_rows] in H; [injection H as <-; by apply elem_of_nil in Hx|].
  apply rbind_Ok in H as (r & Hr & H). apply rbind_Ok in H as (rs & Hrs & H). injection H as <-.
  assert (Hin : x ∈ rs.*2 -> exists n', n' ∈ n :: nodes /\ decision_node_id n' = x /\ is_allow n' = true)
    by (intros Hi; destruct (IH rs x Hrs Hi) as (n' & ? & ?); exists n'; split; [by right|done]).
  destruct r as [row|]; [|by apply Hin]. cbn [fmap list_fmap] in Hx. apply elem_of_cons in Hx as [->|Hx]; [|by apply Hin].
  apply allow_row_id in Hr as [E Ha]. exists n. split; [by left|]. by rewrite E.
Qed.

(** Filtering out some ids of the first part of a list without repeated ids leaves
    the others of it and the rest. *)
Lemma filter_prefix (p : string -> bool) (t d : list (string * string)) :
  NoDup (t ++ d).*2 -> List.filter (fun r => negb (mem r.2 t.*2 && p r.2)) (t ++ d) = List.filter (fun r => negb (p r.2)) t ++ d.
Proof.
  rewrite fmap_app. intros (_ & Hd & _)%NoDup_app. rewrite List.filter_app. f_equal.
  - apply List.filter_ext_in. intros r Hr. apply list_elem_of_In in Hr. by rewrite (proj2 (mem_spec r.2 t.*2)) by (by apply list_elem_of_fmap_2).
  - apply List.forallb_filter_id, List.forallb_forall. intros r Hr. rewrite (proj2 (mem_false r.2 t.*2)); [done|]. intros Hin.
    apply (Hd r.2 Hin). apply list_elem_of_fmap_2. by apply list_elem_of_In.
Qed.

Lemma filter_perm {A} (f : A -> bool) l k : l ≡ₚ k -> List.filter f l ≡ₚ List.filter f k.
Proof.
  induction 1 as [|x l k _ IH|x y l|l1 l2 l3 _ IH1 _ IH2]; cbn [List.filter]; [done| | |by transitivity (List.filter f l2)].
  - destruct (f x); [by constructor|done].
  - destruct (f x), (f y); try done. constructor.
Qed.

(** C25: The window of allow decisions, for nodes with distinct ids.  A trim picks
    the oldest allow decisions of evaluations around a person until twenty are left,
    every one picked is older than or as old as every other one, and it takes away
    exactly those of them whose delete succeeds: at most twenty are left when every
    delete does, a failed delete leaves its node, counted as picked, and every other
    node, material decisions included, is kept. *)
Theorem window_keeps_newest removed person nodes left n rows :
  nonempty (strip person) = true -> NoDup (decision_node_id <$> nodes) ->
  trim_allow_decision_window removed person nodes = Ok (left, n) -> allow_rows runtime_is_allow nodes = Ok rows ->
  exists picked kept,
    rows ≡ₚ picked ++ kept /\ Z.of_nat (length kept) = Z.min 20 (Z.of_nat (length rows)) /\ n = Z.of_nat (length picked)
    /\ (exists rows', allow_rows runtime_is_allow left = Ok rows' /\ rows' ≡ₚ List.filter (fun r => negb (removed r.2)) picked ++ kept)
    /\ (forall d k, d ∈ picked -> k ∈ kept -> pair_le d k)
    /\ (forall node, node ∈ nodes -> node ∉ left ->
          runtime_is_allow node = true /\ decision_node_id node ∈ picked.*2 /\ removed (decision_node_id node) = true).
Proof.
  intros Hp Hids Ht Hrows. unfold trim_allow_decision_window, runtime_over_cap, ids_over_cap in Ht. rewrite Hp, Hrows in Ht. cbn [negb rbind] in Ht.
  set (sorted := merge_sort pair_le rows) in *. assert (Hperm : sorted ≡ₚ rows) by apply merge_sort_Permutation.
  assert (Hsort : StronglySorted pair_le sorted) by apply (StronglySorted_merge_sort pair_le).
  clearbody sorted. assert (Hlen : length sorted = length rows) by (by rewrite Hperm). set (m := (length sorted - 20)%nat).
  assert (Edrop : (if Z.of_nat (length sorted) <=? ALLOW_AGE_CAP then [] else (slice_to (- ALLOW_AGE_CAP) sorted).*2) = (take m sorted).*2).
  { unfold m, ALLOW_AGE_CAP. destruct (Z.leb_spec (Z.of_nat (length sorted)) 20).
    - by replace (length sorted - 20)%nat with 0%nat by lia.
    - unfold slice_to. change (- (20) <? 0) with true. cbv iota. replace (Z.to_nat _) with (length sorted - 20)%nat by lia. done. }
  rewrite Edrop in Ht. injection Ht as <- <-. exists (take m sorted), (drop m sorted).
  assert (Hnd : NoDup (take m sorted ++ drop m sorted).*2).
  { rewrite take_drop, Hperm. eapply sublist_NoDup; [exact Hids|by eapply allow_rows_ids]. }
  split; [by rewrite take_drop|]. split; [rewrite length_drop; unfold m; lia|]. split; [by rewrite length_fmap|].
  split; [|split].
  - eexists. split; [by apply (allow_rows_filter _ (fun x => negb (mem x (take m sorted).*2 && removed x)))|].
    pose proof (filter_prefix removed (take m sorted) (drop m sorted) Hnd) as E. rewrite <- E. apply filter_perm. by rewrite take_drop.
  - intros d k Hd Hk. rewrite <- (take_drop m sorted) in Hsort. by apply (StronglySorted_app_1_elem_of pair_le (take m sorted) (drop m sorted)).
  - intros node Hn Hleft. assert (Hb : mem (decision_node_id node) (take m sorted).*2 && removed (decision_node_id node) = true).
    { destruct (_ && _) eqn:E; [done|]. exfalso. apply Hleft, filter_elem. by rewrite E. }
    apply andb_prop in Hb as [Hin%mem_spec Hrem]. split; [|done]. assert (Hr : decision_node_id node ∈ rows.*2).
    { rewrite <- Hperm, <- (take_drop m sorted), fmap_app. apply elem_of_app. by left. }
    destruct (allow_rows_from _ _ _ _ Hrows Hr) as (n' & Hn' & E & Ha).
    enough (n' = node) by (by subst). apply list_elem_of_lookup in Hn as [i Hi]. apply list_elem_of_lookup in Hn' as [j Hj].
    assert (i = j); [|by simplify_eq]. eapply NoDup_lookup; [exact Hids|by rewrite list_lookup_fmap, Hi|rewrite list_lookup_fmap, Hj; cbn; by rewrite E].
Qed.

Lemma allow_rows_ext f h nodes : Forall (fun n => f n = h n) nodes -> allow_rows f nodes = allow_rows h nodes.
Proof. induction 1 as [|n nodes E _ IH]; cbn [allow_rows]; [done|]. unfold allow_row. by rewrite E, IH. Qed.

(** The two copies of the rule pick the same decisions, at every cap, for nodes whose
    [source] has no surrounding space. *)
Theorem copies_agree nodes cap :
  Forall (fun n => strip (prop_text n "source") = prop_text n "source") nodes ->
  allow_decision_ids_over_cap nodes cap = runtime_over_cap nodes cap.
Proof.
  intros H. unfold allow_decision_ids_over_cap, runtime_over_cap, ids_over_cap. erewrite allow_rows_ext; [done|].
  eapply Forall_impl; [exact H|]. intros n Hn. unfold shared_is_allow, runtime_is_allow. cbv zeta. rewrite Hn.
  unfold is_material_decision, MATERIAL_KINDS, MATERIAL_OUTCOMES. by rewrite orb_assoc.
Qed.

(** ** References of the attention step *)

Lemma related_refs_snoc objects o :
  related_refs (objects ++ [o]) =
  let refs := related_refs objects in
  if negb (nonempty (strip o.(go_id))) || mem o.(go_type) ["Person"; "Decision"] || mem (strip o.(go_id)) refs.*1 then refs
  else refs ++ [(strip o.(go_id), str_or o.(go_type) "Custom")].
Proof. unfold related_refs. by rewrite foldl_app. Qed.

(** The references that the attention step asks about are distinct, each is an object
    of the evaluation other than a person or a decision, and each such object with an
    id is referred to. *)
Theorem refs_exact objects :
  NoDup (related_refs objects).*1
  /\ (forall id ty, (id, ty) ∈ related_refs objects ->
        nonempty id = true /\ exists o, o ∈ objects /\ strip o.(go_id) = id /\ o.(go_type) ∉ ["Person"; "Decision"])
  /\ (forall o, o ∈ objects -> nonempty (strip o.(go_id)) = true -> o.(go_type) ∉ ["Person"; "Decision"] ->
        strip o.(go_id) ∈ (related_refs objects).*1).
Proof.
  induction objects as [|o objects (IH1 & IH2 & IH3)] using rev_ind.
  { split; [constructor|]. split; [intros id ty H|intros o H]; by apply elem_of_nil in H. }
  assert (Hold : forall id ty, (id, ty) ∈ related_refs objects ->
    nonempty id = true /\ exists o', o' ∈ objects ++ [o] /\ strip o'.(go_id) = id /\ o'.(go_type) ∉ ["Person"; "Decision"]).
  { intros id ty H. destruct (IH2 id ty H) as (? & o' & ? & ?). split; [done|]. exists o'. split; [set_solver|done]. }
  rewrite related_refs_snoc. cbv zeta. destruct (_ || _) eqn:Eskip.
  - split; [done|]. split; [done|]. intros o' [Ho'|Eo%list_elem_of_singleton]%elem_of_app Hn Ht; [by apply IH3|]. subst o'.
    rewrite Hn, (proj2 (mem_false _ _) Ht) in Eskip. by apply mem_spec.
  - apply orb_false_elim in Eskip as [[En Et]%orb_false_elim Es]. apply negb_false_iff in En. apply mem_false in Et, Es.
    rewrite fmap_app. cbn [fmap list_fmap fst]. split; [|split].
    + apply NoDup_app. split; [done|]. split; [intros x Hx Hx'%list_elem_of_singleton; by subst|apply NoDup_singleton].
    + intros id ty [H|H%list_elem_of_singleton]%elem_of_app; [by apply (Hold id ty)|].
      injection H as -> ->. split; [done|]. exists o. split; [set_solver|done].
    + intros o' [Ho'|Eo%list_elem_of_singleton]%elem_of_app Hn Ht; [|subst o'; set_solver]. apply elem_of_app. left. by apply IH3.
Qed.

(** * Runs *)

Definition demo_upsert (session : option string) : upsert_call :=
  UpsertCall "t1" "u1" "payment" [("payment_id", PStr "p1"); ("email", PStr " A@B.c ")] None
    (Some [("device_id", PStr "d1"); ("platform", PStr "web"); ("signals", PDict [("ip", PStr "10.0.0.1"); ("geo_lat", PInt 1); ("geo_lon", PInt 2)])])
    session "allow" [] [] [] None "2026-03-10T12:00:00Z".

Definition ends (w : write) : option (string * string) := match w with WriteLink l _ => Some (l.(gl_from), l.(gl_to)) | _ => None end.
Definition entity_of (w : write) : option string := match w with WriteEntity o _ => Some o.(go_id) | _ => None end.

Example demo_writes :
  let ws := (_graph_upsert "http://graph" (demo_upsert (Some "9"))).1 in
  filter_map entity_of ws = ["u1"; "email:a@b.c"; "d1"; "sess:9"; "p1"; "ip:10.0.0.1"; "cell:3:1.0:2.0"; "dec:t1"; "cell:3:1.0:2.0"]
  /\ filter_map ends ws
     = [("u1", "email:a@b.c"); ("u1", "d1"); ("u1", "sess:9"); ("u1", "p1"); ("p1", "sess:9"); ("p1", "ip:10.0.0.1");
        ("u1", "cell:3:1.0:2.0"); ("u1", "dec:t1"); ("dec:t1", "p1"); ("u1", "cell:3:1.0:2.0"); ("sess:9", "cell:3:1.0:2.0")].
Proof. vm_compute. done. Qed.

Lemma upsert_links_follow_witness :
  let ws := (_graph_upsert "http://graph" (demo_upsert (Some "9"))).1 in
  written (take 19 ws) "sess:9" /\ written (take 19 ws) "cell:3:1.0:2.0".
Proof.
  intros ws.
  refine (upsert_links_follow "http://graph" (demo_upsert (Some "9")) (take 19 ws) (Lnk "sess:9" "cell:3:1.0:2.0" "SEEN_AT")
            [("trace_id", PStr "t1"); ("decision_id", PStr "dec:t1")] [] eq_refl eq_refl eq_refl eq_refl _).
  vm_compute. reflexivity.
Defined.

(** A session id that already carries the prefix is doubled in the object but not in
    the last hop, whose link then starts at an object that was never written. *)
Example doubled_session_dangles :
  let ws := (_graph_upsert "http://graph" (demo_upsert (Some "sess:9"))).1 in
  ("sess:9", "cell:3:1.0:2.0") ∈ filter_map ends ws /\ "sess:9" ∉ filter_map entity_of ws /\ "sess:sess:9" ∈ filter_map entity_of ws.
Proof. cbv zeta. split; [|split]; apply (bool_decide_unpack _); vm_compute; exact I. Qed.

(** Without an entity the link that supersedes starts at a decision the payload does not contain. *)
Example disposition_without_person :
  let p := build_human_disposition_payload (fun _ => "") (fun _ _ _ _ => None)
             (DispositionCall "acme" "c1" None (Some "t1") "resolved_fraud" "ann" None (Some "dec:t0") None "now" "") in
  pl_objects p = [] /\ pl_links p = [Lnk "dec:disp:c1:t1" "dec:t0" "SUPERSEDES"].
Proof. vm_compute. done. Qed.

(** A device id is taken as it is, so a payload can name another person's object as its device. *)
Example device_named_like_person :
  let objects entity payload := rmap (fun g => map (fun o => (go_id o, go_type o)) (g_objects g)) (build_evaluate_objects "t" entity "view" payload None None) in
  objects "u1" [("device_id", PStr "u2")] = Ok [("u1", "Person"); ("u2", "Device")] /\ objects "u2" [] = Ok [("u2", "Person")].
Proof. vm_compute. done. Qed.

Definition demo_node (id created outcome source : string) : dict :=
  [("id", PStr id); ("entity_type", PStr "Decision");
   ("properties", PDict [("kind", PStr "evaluate"); ("outcome", PStr outcome); ("source", PStr source); ("created_at", PStr created)])].

Definition demo_nodes : list dict :=
  demo_node "m" "2020" "deny" "evaluate" :: map (fun i => demo_node (Z_to_string (Z.of_nat i)) (Z_to_string (2100 - Z.of_nat i)) "allow" "evaluate") (seq 1 22).

(** Two decisions are past the cap, and the delete of one of them fails. *)
Lemma window_keeps_newest_witness :
  exists left rows, trim_allow_decision_window (fun x => bool_decide (x = "22")) "p" demo_nodes = Ok (left, 2)
  /\ allow_rows runtime_is_allow demo_nodes = Ok rows /\ length left = 22%nat
  /\ exists picked kept, rows ≡ₚ picked ++ kept /\ Z.of_nat (length kept) = Z.min 20 (Z.of_nat (length rows)) /\ 2 = Z.of_nat (length picked).
Proof.
  eexists _, _. split; [vm_compute; reflexivity|]. split; [vm_compute; reflexivity|]. split; [reflexivity|].
  edestruct (window_keeps_newest (fun x => bool_decide (x = "22")) "p" demo_nodes) as (picked & kept & H1 & H2 & H3 & _);
    [reflexivity| |vm_compute; reflexivity|vm_compute; reflexivity|].
  - apply (bool_decide_unpack _). vm_compute. exact I.
  - exists picked, kept. split; [exact H1|]. split; [exact H2|exact H3].
Defined.

(** The copies differ on a source with a space behind it, and a cap of zero drops nothing. *)
Example copies_differ :
  allow_decision_ids_over_cap [demo_node "a" "1" "allow" "evaluate "; demo_node "b" "2" "allow" "evaluate "] 1 = Ok []
  /\ runtime_over_cap [demo_node "a" "1" "allow" "evaluate "; demo_node "b" "2" "allow" "evaluate "] 1 = Ok ["a"]
  /\ runtime_over_cap [demo_node "a" "1" "allow" "evaluate"] 0 = Ok [].
Proof. vm_compute. done. Qed.
